(* ===== verification/_CoqProject ===== *)
-Q . S2P
Prelude.v
State.v
Errors.v
Writer.v
Codec.v
Integer.v
Buffer.v
Tpml.v
Struct.v
EnumMacro.v
Enums.v
Rc.v
Attributes.v
Union.v
BasicTypes.v
Schemes.v
Structures.v
Types.v
Body.v
FrameData.v
Dispatch.v
Envelope.v
Command.v
Response.v
Marshal.v
DataProperties.v
FrameProperties.v
Crypto.v
Hash.v
Text.v
Policy.v
PolicyText.v
PolicySpec.v
PolicyTextSpec.v
PolicyParser.v
Transport.v
Device.v
DeviceSession.v
DeviceSpec.v
SessionSpec.v
CryptoProperties.v
PolicyProperties.v
DeviceProperties.v
VtpmPolicy.v
FileSystem.v
Vtpm.v
VtpmPolicySpec.v
VtpmRecord.v
VtpmSpec.v
VtpmRemove.v
VtpmStore.v
VtpmOpen.v
VtpmOps.v
VtpmAncestors.v
VtpmProperties.v
Template.v
TemplateSpec.v
Openssl.v
ExternalKey.v
ExternalKeySpec.v
KeyPublic.v
KeyProperties.v
TpmKey.v
TpmKeySpec.v
TpmKeyProperties.v
Handle.v
HandleSpec.v
Task.v
TaskCalls.v
TaskSpec.v
TaskEnd.v
TaskPolicy.v
ImportKey.v
ImportKeySpec.v
ShellProperties.v
