(* ===== verification/Prelude.v ===== *)
(** * A verification library for the tpm2-library workspace

    The repository is a Rust workspace around TPM 2.0: [protocol] (the wire
    formats), [crypto] (digests, key derivation, names), [policy-language]
    (policies as text, as expressions and as command streams), [device] (a
    connection to a TPM), [vtpm] (a cache of keys and sessions), [tpmkey]
    (key files) and [sh] (a shell of commands).  Everything the crates exchange with a
    TPM goes through [protocol], which this library models as a whole: every
    data type, every command and response body, and the frames around them,
    for reading, writing and zero-copy viewing.  On top of it are modelled
    [crypto] with its digests, keys and templates, all of [policy-language],
    which calls both, [device], which sends commands to a TPM and serves them
    to one's peers, [vtpm], which keeps keys with their policies in files,
    [tpmkey], which reads and writes the key files others use, and the core of
    [sh], where they come together: the state of a command, which loads keys
    from the cache into the TPM and runs commands with their authorisations.

    ** How the program is modelled

    A call returns [result]: [Ok], [Err] with the error value of the source,
    or [Panic] where Rust would panic (an index or a range out of bounds, a
    failed [split_at], an underflow of a subtraction).  Nothing is assumed
    about inputs: that no input panics is a theorem (C37,
    C38, C12).  [usize] has 64 bits, integers are [Z]
    with their width written out.  A [&[u8]] is a [slice]: its bytes and its
    address, because error offsets are computed from addresses
    ([tpm_offset]); [slice_ok] says that it lies in the address space and is
    at most [isize::MAX] long, as Rust guarantees.  A borrow is the sub-slice
    it points to.  Partially initialised arrays ([MaybeUninit]) are lists of
    options.  A call that changes its receiver or an argument passes
    that state ([State.v]), and what it did to the state before a failure
    stays done: writers, output buffers ([Out]), transports and devices.  Macros
    are functions from what they are applied to, to the operations they
    generate, so a theorem about a macro covers all its uses.  A [HashMap] is
    a [gmap], and where the source iterates over one, the order is an
    argument.  A [str] is the list of its code points.

    Besides the code each type of [protocol] has a field [wire]: its
    reference encoding, a function to bytes defined where the format can
    carry the value (the arrays have their lengths, a union matches its
    selector, sizes fit their fields).  It is the specification: [CodecOk]
    and [WireOk] ([Codec.v]) say that [marshal], [unmarshal], [len], [SIZE]
    and the views implement it, and each type has an instance, found by
    resolution from the instances of the macros.

    Code outside the repository is a class of operations with its documented
    laws beside it: OpenSSL's libcrypto ([Libcrypto], [LibcryptoOk]), and the
    [hex] and [strum] crates ([TextLib], [TextLibOk]), the errors of the
    operating system ([Os]), byte streams ([ByteStream], [ByteStreamOk]),
    OpenSSL's keys and the numbers of [num-bigint] ([Openssl], [BigUintLib]
    and their laws), its ciphers ([Symm], [SymmOk]), the [rasn] and [pem] crates ([KeyCodec], [KeyCodecOk]).  The
    trait [TpmTransport] is a class too: the device is modelled over any
    transport, and its theorems need what [TransportOk] promises, or say what
    the peer [answers].  The witnesses instantiate all of them with concrete
    functions: a pipe, and small TPMs that decode the frames they are sent.

    ** Files

    - [Prelude.v]: results, machine words, big-endian integers, bits,
      slices, partially initialised arrays, loops.
    - [State.v]: calls that pass a state, their loops and specifications.
    - [Errors.v] ([protocol/src/error.rs]): [TpmError], [rebase],
      [tpm_offset].
    - [Writer.v], [Codec.v] ([protocol/src/lib.rs]): [TpmWriter]; the traits
      as interfaces [Codec], [WireType], [Tagged] with their laws; [TpmWire],
      [TpmWireBytes].
    - [Integer.v], [Buffer.v], [Tpml.v] ([protocol/src/basic]): [TpmInt];
      [Tpm2b] and [TpmBuffer]; [Tpml], [TpmlIter] and [TpmList].
    - [Struct.v] ([macro/struct.rs], [data/tpmt.rs]): [tpm_struct!] (wire
      form), [tpm2b_struct!], [tpm_struct_tagged!].
    - [EnumMacro.v] ([macro/enum.rs], [macro/mod.rs]): [tpm_enum!],
      [tpm_bitflags!], [tpm_bool!].
    - [Enums.v], [Rc.v], [Attributes.v] ([data/enum], [data/tpmi.rs],
      [data/tpma.rs]): every enumeration, the response codes, every
      attribute type.
    - [Union.v]: shared lemmas of the hand-written unions.
    - [BasicTypes.v], [Schemes.v], [Structures.v] ([data/mod.rs],
      [data/tpms.rs], [data/tpmt.rs], [data/tpmu.rs]): every structure and
      union, with the source's hand-written codecs where it has them.
    - [Types.v]: the list of all 141 data types ([wire_types] and
      [data_types]) and the proof that each implements its interface.
    - [Body.v] ([macro/struct.rs], [frame/mod.rs]): the command and response
      forms of [tpm_struct!], [unmarshal_body], the trait [TpmFrame] as an
      interface; [FrameData.v] ([frame/data.rs]): the 252 bodies.
    - [Dispatch.v] ([macro/mod.rs], [frame/mod.rs], [frame/unmarshal.rs]):
      the dispatch table and its lookup, the owned values.
    - [Envelope.v], [Command.v], [Response.v] ([frame/wire.rs]): frames.
    - [Marshal.v] ([frame/marshal.rs]): writing frames.
    - [DataProperties.v], [FrameProperties.v]: what [protocol] promises.
    - [Crypto.v] ([crypto/src/error.rs]): libcrypto as an interface, the
      errors, the monad of output buffers; [Hash.v] ([crypto/src/hash.rs],
      [crypto/src/lib.rs]): [TpmHash] with digests, HMAC, [KDFa] and [KDFe],
      and [tpm_make_name]; [CryptoProperties.v]: what they promise.
    - [Text.v]: what the crates use of strings and number formatting.
    - [Policy.v] ([policy-language/src/lib.rs], [expression.rs],
      [error.rs]): contexts, the software session, [compile],
      [from_commands]; [PolicyText.v]: the tokenizer, the parser and
      [Display].
    - [PolicySpec.v]: the policy commands as a TPM executes them: their effect
      on the digest ([policy_effect], [effects]) and the sessions they need
      ([authorised], [tpm_step], [replay]); the normal form of an expression ([normalize]), and that the
      session and the compiler agree with both; [PolicyTextSpec.v]: printed
      expressions and their tokens; [PolicyParser.v]: what the parser
      returns; [PolicyProperties.v]: what the crate promises.

    - [Transport.v] ([device/src/lib.rs]): [TpmDeviceError], [TpmTransport],
      frames on byte streams, [TpmStreamTransport], the receiving loop of
      [TpmPosixDevice] over what the environment answers in each round
      ([tick]); [Device.v]: [with_device], [TpmDevice] with every query and
      operation, [TpmResponder]; [DeviceSession.v]: [TpmPolicySessionBuilder]
      and [TpmPolicySession].
    - [DeviceSpec.v], [SessionSpec.v]: their laws over an abstract transport
      and TPM; [DeviceProperties.v]: what the crate promises.

    - [VtpmPolicy.v] ([vtpm/src/policy.rs]): the policy steps of a cached
      key; [FileSystem.v]: what the cache uses of [std::fs], with its failures
      and crashes; [Vtpm.v] ([vtpm/src/lib.rs]): [VtpmKey] and [VtpmCache].
    - [VtpmPolicySpec.v]: the laws of the steps; [VtpmRecord.v]: records, file
      names, atomic writes; [VtpmSpec.v]: the invariant of the cache,
      insertion and lookup; [VtpmRemove.v]: removal with everything below;
      [VtpmAncestors.v]: the way up; [VtpmStore.v], [VtpmOpen.v],
      [VtpmOps.v]: the cache and its files, flushing, opening, and any
      sequence of operations; [VtpmProperties.v]: what the crate promises.

    - [Template.v] ([crypto/src/template.rs], the curves of [ecc.rs]):
      [TpmPublicTemplate], its text and its public area; [Openssl.v]: what
      the keys use of OpenSSL and [num-bigint]; [ExternalKey.v]
      ([crypto/src/rsa.rs], [ecc.rs]): the two external keys.
    - [TemplateSpec.v]: the language of template texts ([describes]);
      [ExternalKeySpec.v]: sampling, the seeds of an import and what a TPM
      recovers from them; [KeyPublic.v]: public areas; [KeyProperties.v]:
      what the keys promise.

    - [TpmKey.v] ([tpmkey/src]): policy commands and [TpmKeyFile];
      [TpmKeySpec.v]: valid keys ([key_valid]) and what each step accepts;
      [TpmKeyProperties.v]: what the crate promises.

    - [Handle.v] ([sh/src/handle.rs]): handle patterns; [Task.v]
      ([sh/src/task.rs], [error.rs]): [TaskState] with every method, over one
      state for the task, the device, the directory of the cache and the
      random generator ([World]); [ImportKey.v] ([sh/src/command/import.rs]):
      the duplication blob of an imported key and its template.
    - [HandleSpec.v]: which texts are patterns and what they match;
      [TaskCalls.v]: the values and calls a task uses; [TaskSpec.v]: the
      invariant of a task ([world_ok]) and that every method keeps it;
      [TaskEnd.v]: what is flushed at the end; [TaskPolicy.v]: policies from
      storing to a session; [ImportKeySpec.v]: what a parent reads in a blob
      ([tpm_unwrap]); [ShellProperties.v]: what the shell promises.

    A component's file holds its definitions first, the reference format
    next, and then the laws, which the files above it use.

    ** The theorems

    Data types.  Encoding and decoding are inverse to each other in both
    directions (C3, C4), the zero-copy views
    agree with the owned values and borrow only what they consumed
    (C5, [struct_accessors]), lengths are exact and bounded
    (C40), a short writer is reported where the writing stopped
    ([data_overflow]), no input panics (C38).  Sized structures:
    [sized_struct_exact]; attestations: [attest_magic]; response codes:
    [rc_decode], [rc_bits]; buffers and lists: [buffer_append],
    [list_append], [list_iteration].

    Frames.  What the marshallers write, the parsers read back, for all 126
    commands and responses (C1, C2,
    [command_remarshal]); [cast], the accessors and [unmarshal] accept
    exactly the reference format of a frame and return its parts
    ([command_cast_exact], [command_accessors], [command_unmarshal_exact],
    [response_unmarshal_exact], [auth_walk_exact]); what is refused and with
    which error ([command_refused], [response_refused], [header_errors],
    [failed_response_unmarshal]); no panic (C37); dispatch by
    command code ([dispatch_complete], [response_view_dispatch]).

    Crypto.  Digests and HMAC are those of the concatenated chunks
    ([digests_correct]), a MAC is accepted exactly if it is the right one
    ([hmac_verify_exact]), the key derivation loops compute the reference
    streams and terminate (C14), names are algorithm and digest
    ([name_correct]).

    Keys.  A template text is read exactly if it is in the language of
    templates (C30) and printed back (C31);
    public areas made of a key and a template give both back
    (C32).  The seed made for an ECC parent is the one its TPM
    recovers (C15), that for an RSA parent is drawn and encrypted
    as the TPM expects (C17); random numbers are uniform
    ([random_range]).

    Key files.  The files that are read are those of valid keys
    (C23), what is written is read back exactly if it is valid
    (C24), and a key built from the parts a TPM returned is
    valid if its kind allows them ([key_file_built]).

    Policies.  A TPM that executes what [compile] emits, with a session for each
    [PolicySecret] that authorises its entity, accepts every command and
    arrives at the digest [compile] returned (C6);
    [from_commands] reads the normal form of the expression back
    (C11); when [compile] succeeds ([compile_decided])
    and what a disjunction forgets (C39); the parser is
    total, returns only expressions that can be printed, and reads back what
    is printed (C12, C13); contexts ([context_build]).

    The device.  A command that fits is sent as its frame and the typed
    response or the failure code comes back (C9); a policy
    session that is opened and given the commands of [compile] with these
    sessions ends with the digest of the policy (C7), and other commands are
    refused ([policy_run_handles]).  With any peer every operation returns
    without panic (C10); with a TPM that lists its handles and
    names the queries are complete ([fetch_handles_lists],
    [find_persistent_by_name]); PCR banks: [pcr_banks_agree].  Frames survive
    a byte stream ([stream_frames]) and the character device, however it cuts
    them up (C33), which gives up after its timeout
    (C34); a responder answers every command it receives
    (C35).

    The key cache.  Whatever operations run on it after it was opened, and
    whichever calls on the file system fail, it stays well-formed, and agrees
    with its files ([cache_ok], [backed]; C18).  What was flushed
    is found again, unless it is larger than what opening reads
    (C22); a crash at any moment leaves the old or the new record of
    each key (C21).  Records are read exactly
    (C27); opening takes the good ones and deletes the unusable
    ones (C28).  Removing a key removes exactly what is below it
    (C26), a new key gets the first free handle
    ([save_transient_first_free]), the ancestors of a key are the way down
    from its root (C29), if no key is above itself
    ([ancestors_endless]).  The policy steps of a key replay to the digest of
    the commands they came from (C25).

    The shell.  Whatever a command does with its task, whatever the TPM
    replies and whichever files fail, nothing panics, what is loaded stays
    tracked, and the cache stays consistent (C19); at the end
    everything that was loaded or opened is flushed, once (C20).
    A policy that was compiled and stored with a key later opens a session
    with the digest of the policy (C8).  The blob made
    for importing a key opens, for a parent that uses AES, to that key
    (C16).  Handle patterns: C36.

    ** The file system of the key cache

    [Fs] is one directory.  [faults] says for each call whether it fails, and
    how much of a write was done; a call that fails has no other effect.
    [history] keeps the directories it went through: a crash leaves any of
    them, and of a file that was not synchronised anything ([crash]).  So a
    rename is assumed to be atomic, changes of the directory to reach the disk
    in order, and synchronised contents to stay.  [honest] excludes faults that
    pretend a file is missing.  The order of a [HashMap] or a directory is a
    class ([MapOrder]).  [tidy] says that record files have the names the cache
    gives them; [load] also takes other spellings of a handle, and a cache
    would not find such a file again to delete it.  A key of any size is saved
    ([storable]: its policy has fewer than 2^32 steps, since the length is
    written in four bytes), but one of more than 16 steps or 16 KiB is not
    read back ([fits]): the theorems about files speak of records
    ([on_disk]), and those about opening say which are found again.

    ** The TPM of the policy theorems

    [policy_effect] follows part 3 of the TPM specification.  [TPM2_PolicyPCR]
    is accepted if the digest it gives is that of the current PCR values,
    [TPM2_PolicyOR] if it lists two to eight digests and the current one is
    among them (a trial session checks neither), [TPM2_PolicySecret] if it
    comes with one session that authorises its entity ([authorises] is the
    TPM's opinion about that), the others without sessions; what is not
    accepted, and commands whose effect is not modelled, give [None].  The
    class [PolicyTpm] asks of a TPM only that it executes the commands
    [tpm_step] accepts.

    ** Bounds and fuel

    Loops over input are structural: the session walks count down
    [MAX_SESSIONS], as the source counts up to it; list loops run over the
    count the header announced.  The binary search has the length of the
    slice as fuel, and its window halves in every step ([narrow]), so the
    fuel never runs out ([binary_search_spec]).  [Tpml.collect] takes the
    number of polls as an argument, and [list_iteration] holds for every
    number that is at least the length of the list.  The key derivation loops
    have 2^32 iterations as bound, after which the [u32] counter would have
    overflowed; C14 shows that they end before.  The tokenizer has
    the number of characters, the operator loops and the recursion of the
    parser the number of tokens; each step consumes one, and running out
    would be a [Panic], which C12 excludes.  Capability queries
    have 2^32 + 1 rounds as bound, since the property, a [u32], increases in
    each; C10 excludes the [Panic] after them.  [serve] has the
    number of commands as fuel, and the receiving loop of the character device
    runs over a list of rounds: both return [None] when they have not ended,
    and C35 and C34 say that they have.
    [save_transient] runs through the 2^24 handles at most; [remove_subtree]
    has the number of keys and two as bound, since each round takes one public
    area off the queue and only a removed key puts one on it (C26
    excludes the [Panic] after them).  [fetch_ancestors] has the number of keys
    and one as fuel where no key is above itself; where one is, it does not
    return, and no fuel is enough.  The rejection sampling of
    [gen_biguint_range] has a number of draws as fuel and returns [None] only
    when all of them were rejected, as the source then draws again
    ([random_range], C15, C16).

    ** What is not modelled

    [Hash], [Debug], ordering and hexadecimal formatting of the data types;
    [tpm_byte_view!], which only generates casts that are the identity here;
    the [_mut] twins of casts and accessors, which run the same checks and
    borrow the same ranges.  Of [crypto] and [tpmkey], the comparison and
    [Display] of errors.  Of [device], opening the device file
    ([TpmPosixDeviceBuilder]), [Display], [Debug] and the trace output.  Of
    [vtpm], [Display] and the log.  Of [sh], the
    messages of errors (an error is a constructor for each message, without
    its source), the log, that the cache is saved once more when it is itself
    dropped after the task, and that a task whose creation fails is dropped;
    of [import.rs] what reads the input and writes the key file; and the other
    commands, the command line, input and output.  The task and its device
    are separate in the model, as the device is passed to every method; that
    a method is not called while the device is borrowed is not checked. *)


From Stdlib Require Import ZArith Lia.
From coqutil Require Export Byte Word.LittleEndianList.
From stdpp Require Export base tactics list countable strings numbers.
From Stdlib Require Export Strings.Byte.

Abbreviation byte := Init.Byte.byte.
Global Open Scope Z_scope.

#[global] Instance byte_eq_dec : EqDecision byte := Byte.byte_eq_dec.
#[global] Instance byte_countable : Countable byte :=
  inj_countable byte.unsigned (λ z, Some (byte.of_Z z)) (λ b, f_equal Some (byte.of_Z_unsigned b)).

Declare Scope tpm_scope.
Delimit Scope tpm_scope with tpm.
Global Open Scope tpm_scope.

(** ** Results *)

(** Outcome of a Rust call: [Ok], [Err], or [Panic] for an index out of
    range, a failed [split_at] or an arithmetic underflow. *)
Inductive result (E A : Type) : Type :=
| Ok (a : A)
| Err (e : E)
| Panic.
Arguments Ok {E A} a.
Arguments Err {E A} e.
Arguments Panic {E A}.

#[global] Instance result_eq_dec {E A} `{EqDecision E, EqDecision A} : EqDecision (result E A).
Proof. solve_decision. Defined.

Definition result_bind {E A B} (m : result E A) (k : A → result E B) : result E B :=
  match m with
  | Ok a => k a
  | Err e => Err e
  | Panic => Panic
  end.

(** [Result::map_err] *)
Definition map_err {E F A} (f : E → F) (m : result E A) : result F A :=
  match m with
  | Ok a => Ok a
  | Err e => Err (f e)
  | Panic => Panic
  end.

(** [Option::ok_or] *)
Definition ok_or {E A} (o : option A) (e : E) : result E A :=
  match o with
  | Some a => Ok a
  | None => Err e
  end.

(** A checked access whose failure is a panic (slice indexing, [unwrap]). *)
Definition or_panic {E A} (o : option A) : result E A :=
  match o with
  | Some a => Ok a
  | None => Panic
  end.

Notation "'let?' x := m 'in' k" := (result_bind m (λ x, k))
  (at level 10, x pattern, m at level 100, k at level 200) : tpm_scope.

Section result_lemmas.
Context {E A B : Type}.

Lemma result_bind_Ok_inv (m : result E A) (k : A → result E B) b :
  result_bind m k = Ok b → ∃ a, m = Ok a ∧ k a = Ok b.
Proof. destruct m; simpl; naive_solver. Qed.

Lemma result_bind_not_Panic (m : result E A) (k : A → result E B) :
  m ≠ Panic → (∀ a, m = Ok a → k a ≠ Panic) → result_bind m k ≠ Panic.
Proof. destruct m; simpl; naive_solver. Qed.

Lemma map_err_Ok_inv {F} (f : E → F) (m : result E A) a :
  map_err f m = Ok a → m = Ok a.
Proof. destruct m; simpl; naive_solver. Qed.

Lemma map_err_not_Panic {F} (f : E → F) (m : result E A) :
  m ≠ Panic → map_err f m ≠ Panic.
Proof. destruct m; simpl; naive_solver. Qed.

Lemma ok_or_Ok_inv (o : option A) (e : E) a :
  ok_or o e = Ok a → o = Some a.
Proof. destruct o; simpl; naive_solver. Qed.
End result_lemmas.

(** ** Partial correctness of a result

    [returns Q m]: [m] does not panic, and if it succeeds its value
    satisfies [Q]. *)

Definition returns {E A} (Q : A → Prop) (m : result E A) : Prop :=
  match m with
  | Ok a => Q a
  | Err _ => True
  | Panic => False
  end.

Section returns_lemmas.
Context {E A B : Type}.
Implicit Types (m : result E A) (Q : A → Prop).

Lemma returns_bind (Q : A → Prop) (R : B → Prop) m (k : A → result E B) :
  returns Q m → (∀ a, Q a → returns R (k a)) → returns R (result_bind m k).
Proof. destruct m; simpl; auto. Qed.

Lemma returns_impl Q (R : A → Prop) m : returns Q m → (∀ a, Q a → R a) → returns R m.
Proof. destruct m; simpl; auto. Qed.

Lemma returns_map_err {F} (f : E → F) Q m : returns Q m → returns Q (map_err f m).
Proof. by destruct m. Qed.

Lemma returns_ok_or (o : option A) (e : E) : returns (λ a, o = Some a) (ok_or o e).
Proof. by destruct o. Qed.

Lemma returns_iff Q m : returns Q m ↔ m ≠ Panic ∧ ∀ a, m = Ok a → Q a.
Proof. destruct m; simpl; naive_solver. Qed.

Lemma returns_eq m : m ≠ Panic → returns (λ a, m = Ok a) m.
Proof. by destruct m. Qed.
End returns_lemmas.

(** ** Machine words *)

(** [usize] on the 64-bit targets the library supports. *)
Definition usize_max : Z := 2 ^ 64 - 1.
(** No Rust object is larger than [isize::MAX] bytes. *)
Definition isize_max : Z := 2 ^ 63 - 1.
Definition u8_max : Z := 2 ^ 8 - 1.
Definition u16_max : Z := 2 ^ 16 - 1.
Definition u32_max : Z := 2 ^ 32 - 1.
Definition u64_max : Z := 2 ^ 64 - 1.

Definition checked_add (a b : Z) : option Z :=
  if a + b <=? usize_max then Some (a + b) else None.
Definition checked_mul (a b : Z) : option Z :=
  if a * b <=? usize_max then Some (a * b) else None.
Definition checked_sub (a b : Z) : option Z :=
  if b <=? a then Some (a - b) else None.
Definition saturating_add (a b : Z) : Z := (a + b) `min` usize_max.
Definition saturating_sub (a b : Z) : Z := 0 `max` (a - b).
(** Unsigned subtraction that panics on underflow. *)
Definition usub {E} (a b : Z) : result E Z := or_panic (checked_sub a b).

Lemma checked_add_Some a b : a + b ≤ usize_max → checked_add a b = Some (a + b).
Proof. intros; unfold checked_add; case_match; [done | lia]. Qed.

Lemma checked_add_Some_inv a b c : checked_add a b = Some c → c = a + b ∧ c ≤ usize_max.
Proof. unfold checked_add; case_match; intros; simplify_eq; lia. Qed.

Lemma checked_mul_Some_inv a b c : checked_mul a b = Some c → c = a * b ∧ c ≤ usize_max.
Proof. unfold checked_mul; case_match; intros; simplify_eq; lia. Qed.

Lemma checked_sub_Some a b : b ≤ a → checked_sub a b = Some (a - b).
Proof. intros; unfold checked_sub; case_match; [done | lia]. Qed.

Lemma checked_sub_Some_inv a b c : checked_sub a b = Some c → c = a - b ∧ b ≤ a.
Proof. unfold checked_sub; case_match; intros; simplify_eq; lia. Qed.

Lemma usub_Ok {E} a b : b ≤ a → usub (E:=E) a b = Ok (a - b).
Proof. intros; unfold usub; by rewrite checked_sub_Some. Qed.

(** ** Big-endian integers *)

Definition zlen {A} (l : list A) : Z := Z.of_nat (length l).

Lemma zlen_nonneg {A} (l : list A) : 0 ≤ zlen l.
Proof. unfold zlen; lia. Qed.

Lemma zlen_app {A} (l1 l2 : list A) : zlen (l1 ++ l2) = zlen l1 + zlen l2.
Proof. unfold zlen; rewrite length_app; lia. Qed.

Lemma zlen_nil_inv {A} (l : list A) : zlen l = 0 → l = [].
Proof. destruct l; unfold zlen; simpl; [done | lia]. Qed.

Definition be_encode (n : nat) (z : Z) : list byte := rev (LittleEndianList.le_split n z).
Definition be_decode (bs : list byte) : Z := LittleEndianList.le_combine (rev bs).

Lemma length_be_encode n z : length (be_encode n z) = n.
Proof. unfold be_encode; by rewrite length_rev, LittleEndianList.length_le_split. Qed.

Lemma be_decode_encode n z :
  0 ≤ z < 2 ^ (8 * Z.of_nat n) → be_decode (be_encode n z) = z.
Proof.
  intros; unfold be_decode, be_encode.
  rewrite rev_involutive, LittleEndianList.le_combine_split, Z.mul_comm.
  by apply Z.mod_small.
Qed.

Lemma be_encode_mod n z :
  be_decode (be_encode n z) = z `mod` 2 ^ (8 * Z.of_nat n).
Proof.
  unfold be_decode, be_encode.
  by rewrite rev_involutive, LittleEndianList.le_combine_split, Z.mul_comm.
Qed.

Lemma be_encode_decode n bs : length bs = n → be_encode n (be_decode bs) = bs.
Proof.
  intros <-; unfold be_decode, be_encode.
  rewrite LittleEndianList.split_le_combine' by apply length_rev.
  apply rev_involutive.
Qed.

Lemma be_decode_bound bs : 0 ≤ be_decode bs < 2 ^ (8 * zlen bs).
Proof.
  unfold be_decode, zlen. rewrite <-(length_rev bs).
  apply LittleEndianList.le_combine_bound.
Qed.

Lemma zlen_be_encode n z : zlen (be_encode n z) = Z.of_nat n.
Proof. unfold zlen. by rewrite length_be_encode. Qed.

Lemma zlen_be4 z : zlen (be_encode 4 z) = 4.
Proof. apply zlen_be_encode. Qed.

(** *** Bits *)

Lemma testbit_above n z i : 0 ≤ z < 2 ^ n → n ≤ i → Z.testbit z i = false.
Proof.
  intros Hz Hi. destruct (decide (0 ≤ n)) as [Hn|]; [|rewrite Z.pow_neg_r in Hz; lia].
  rewrite <-(Z.mod_small z (2 ^ n)) by done. by apply Z.mod_pow2_bits_high.
Qed.

(** A number whose bits from [n] on are clear fits [n] bits. *)
Lemma bits_bound n z : 0 ≤ n → (∀ i, n ≤ i → Z.testbit z i = false) → 0 ≤ z < 2 ^ n.
Proof.
  intros Hn H. replace z with (z `mod` 2 ^ n); [by apply Z.mod_pos_bound, Z.pow_pos_nonneg|].
  apply Z.bits_inj'. intros i Hi. destruct (decide (i < n)).
  - by rewrite Z.mod_pow2_bits_low.
  - rewrite Z.mod_pow2_bits_high by lia. symmetry. apply H. lia.
Qed.

(** ** Slices

    A borrowed Rust slice is an address and the bytes it gives access to;
    the address only matters to [tpm_offset] and to the zero-copy
    theorems. *)

Record slice := mk_slice { sl_addr : Z; sl_data : list byte }.

Definition sl_len (s : slice) : Z := zlen (sl_data s).
Definition sl_is_empty (s : slice) : bool := sl_len s =? 0.

(** A slice that exists in memory: no wider than [isize::MAX] and not
    wrapping around the address space. *)
Definition slice_ok (s : slice) : Prop :=
  0 ≤ sl_addr s ∧ sl_addr s + sl_len s ≤ usize_max ∧ sl_len s ≤ isize_max.

(** The first [n] bytes, and the rest. *)
Definition sl_take (n : Z) (s : slice) : slice :=
  mk_slice (sl_addr s) (take (Z.to_nat n) (sl_data s)).
Definition sl_drop (n : Z) (s : slice) : slice :=
  mk_slice (sl_addr s + n) (drop (Z.to_nat n) (sl_data s)).

(** [<[u8]>::split_at] panics when [mid > len]. *)
Definition split_at {E} (s : slice) (mid : Z) : result E (slice * slice) :=
  if mid <=? sl_len s then Ok (sl_take mid s, sl_drop mid s) else Panic.

(** [&s[from..]] *)
Definition slice_from {E} (s : slice) (from : Z) : result E slice :=
  if from <=? sl_len s then Ok (sl_drop from s) else Panic.

(** [s[i]] *)
Definition index {E} (s : slice) (i : nat) : result E byte :=
  or_panic (sl_data s !! i).

(** [v] is a sub-slice of [s]: it borrows from the same bytes. *)
Definition sub_slice (v s : slice) : Prop :=
  ∃ pre post, sl_data s = pre ++ sl_data v ++ post ∧ sl_addr v = sl_addr s + zlen pre.

(** [r] is what is left of [s] after the prefix [bs]. *)
Definition consumes (bs : list byte) (s r : slice) : Prop :=
  sl_data s = bs ++ sl_data r ∧ sl_addr r = sl_addr s + zlen bs.

(** The slice in front of [rest] that holds [bs]. *)
Definition sl_app (bs : list byte) (r : slice) : slice :=
  mk_slice (sl_addr r - zlen bs) (bs ++ sl_data r).

Section slice_lemmas.
Context {E : Type}.
Implicit Types s r v : slice.

Lemma sl_len_nonneg s : 0 ≤ sl_len s.
Proof. apply zlen_nonneg. Qed.

Lemma slice_eq s1 s2 : sl_addr s1 = sl_addr s2 → sl_data s1 = sl_data s2 → s1 = s2.
Proof. destruct s1, s2; simpl; congruence. Qed.

Lemma consumes_sl_app bs s r : consumes bs s r ↔ s = sl_app bs r.
Proof.
  unfold consumes, sl_app; split.
  - intros [? ?]; apply slice_eq; simpl; [lia | done].
  - intros ->; simpl; split; [done | lia].
Qed.

Lemma consumes_refl s : consumes [] s s.
Proof. split; [done | unfold zlen; simpl; lia]. Qed.

Lemma consumes_trans bs1 bs2 s1 s2 s3 :
  consumes bs1 s1 s2 → consumes bs2 s2 s3 → consumes (bs1 ++ bs2) s1 s3.
Proof.
  intros [H1 ?] [H2 ?]; split.
  - by rewrite H1, H2, app_assoc.
  - rewrite zlen_app; lia.
Qed.

Lemma consumes_len bs s r : consumes bs s r → sl_len s = zlen bs + sl_len r.
Proof. intros [H _]; unfold sl_len; by rewrite H, zlen_app. Qed.

Lemma consumes_det bs s r1 r2 : consumes bs s r1 → consumes bs s r2 → r1 = r2.
Proof.
  intros [H1 ?] [H2 ?]; apply slice_eq; [lia|].
  rewrite H1 in H2; by apply app_inv_head in H2.
Qed.

Lemma consumes_slice_ok bs s r : consumes bs s r → slice_ok s → slice_ok r.
Proof.
  intros H (? & ? & ?); pose proof (consumes_len _ _ _ H); destruct H as [_ H].
  pose proof (zlen_nonneg bs); repeat split; lia.
Qed.

Lemma split_at_Ok s n h t :
  0 ≤ n → split_at (E:=E) s n = Ok (h, t) →
  sl_len h = n ∧ sl_addr h = sl_addr s ∧ consumes (sl_data h) s t.
Proof.
  unfold split_at; intros Hn; case_match; [|done]; intros [= <- <-].
  unfold consumes, sl_len, zlen in *; simpl.
  rewrite take_drop, length_take. repeat split; lia.
Qed.

Lemma split_at_app s bs r :
  consumes bs s r → split_at (E:=E) s (zlen bs) = Ok (mk_slice (sl_addr s) bs, r).
Proof.
  intros Hc; pose proof (consumes_len _ _ _ Hc); destruct Hc as [H1 H2].
  pose proof (sl_len_nonneg r).
  unfold split_at; case_match; [|lia].
  unfold sl_take, sl_drop; rewrite H1; unfold zlen; rewrite Nat2Z.id.
  f_equal; f_equal; [by rewrite take_app_length|].
  apply slice_eq; simpl; [done | by rewrite drop_app_length].
Qed.

Lemma split_at_not_Panic s n : n ≤ sl_len s → split_at (E:=E) s n ≠ Panic.
Proof. unfold split_at; intros; case_match; [done | lia]. Qed.

Lemma slice_from_app s bs r :
  consumes bs s r → slice_from (E:=E) s (zlen bs) = Ok r.
Proof.
  intros Hc; pose proof (split_at_app _ _ _ Hc) as H.
  unfold split_at, slice_from in *; case_match; [|done].
  by injection H as _ ->.
Qed.

Lemma sub_slice_refl s : sub_slice s s.
Proof.
  exists [], []; rewrite app_nil_r; simpl; split; [done|].
  unfold zlen; simpl; lia.
Qed.

Lemma sub_slice_trans s1 s2 s3 : sub_slice s1 s2 → sub_slice s2 s3 → sub_slice s1 s3.
Proof.
  intros (p & q & H1 & ?) (p' & q' & H2 & ?).
  exists (p' ++ p), (q ++ q'); split; [|rewrite zlen_app; lia].
  rewrite H2, H1; by rewrite <-!app_assoc.
Qed.

Lemma consumes_sub_slice bs s r : consumes bs s r → sub_slice r s.
Proof. intros [H1 H2]; exists bs, []; by rewrite app_nil_r. Qed.

Lemma consumes_head_sub_slice bs s r :
  consumes bs s r → sub_slice (mk_slice (sl_addr s) bs) s.
Proof.
  intros [H1 H2]; exists [], (sl_data r); simpl; split; [done|].
  unfold zlen; simpl; lia.
Qed.
End slice_lemmas.

(** ** Partially initialised arrays

    [[MaybeUninit<T>; N]]: a slot is [None] until it is written. *)

Section uninit.
Context {A : Type}.

Definition uninit (n : Z) : list (option A) := replicate (Z.to_nat n) None.

(** [self.data[i].write(x)], panicking when [i] is out of range. *)
Definition arr_write {E} (a : list (option A)) (i : Z) (x : A)
    : result E (list (option A)) :=
  if (0 <=? i) && (i <? zlen a) then Ok (<[Z.to_nat i := Some x]> a) else Panic.

(** [for (dest, src) in a[from..to].iter_mut().zip(xs) { dest.write(src) }]
    with [to = from + xs.len()]. *)
Definition arr_write_all {E} (a : list (option A)) (from : Z) (xs : list A)
    : result E (list (option A)) :=
  if (0 <=? from) && (from + zlen xs <=? zlen a) then
    Ok (take (Z.to_nat from) a ++ map Some xs ++ drop (Z.to_nat (from + zlen xs)) a)
  else Panic.

(** [slice::from_raw_parts(a, n)]: the initialised values of the first
    [n] slots. *)
Definition arr_deref (a : list (option A)) (n : Z) : list A :=
  omap id (take (Z.to_nat n) a).

(** The first slots hold [xs], all the others are uninitialised. *)
Definition arr_holds (a : list (option A)) (cap : Z) (xs : list A) : Prop :=
  zlen xs ≤ cap ∧ a = map Some xs ++ uninit (cap - zlen xs).

(** The [n] values of an array whose other slots are uninitialised. *)
Fixpoint arr_init (n : nat) (a : list (option A)) : option (list A) :=
  match n, a with
  | O, _ => if forallb (λ o, match o with None => true | Some _ => false end) a then Some [] else None
  | S n, Some x :: a => cons x <$> arr_init n a
  | S _, _ => None
  end.

Lemma omap_id_map_Some (xs : list A) : omap id (map Some xs) = xs.
Proof. induction xs as [|x xs IH]; [done|]. cbn. f_equal. exact IH. Qed.

Lemma arr_holds_zlen a cap xs : arr_holds a cap xs → zlen a = cap.
Proof.
  intros [? ->]; unfold uninit, zlen in *.
  rewrite length_app, length_map, length_replicate; lia.
Qed.

Lemma arr_holds_uninit cap : 0 ≤ cap → arr_holds (uninit cap) cap [].
Proof. split; unfold zlen; simpl; [done|]. by rewrite Z.sub_0_r. Qed.

Lemma arr_holds_deref a cap xs : arr_holds a cap xs → arr_deref a (zlen xs) = xs.
Proof.
  intros [_ ->]; unfold arr_deref, zlen.
  rewrite Nat2Z.id, take_app_length' by by rewrite length_map.
  apply omap_id_map_Some.
Qed.

Lemma arr_init_Some n a xs :
  arr_init n a = Some xs ↔
  length xs = n ∧ a = map Some xs ++ replicate (length a - n) None.
Proof.
  revert a xs; induction n as [|n IH]; intros a xs; simpl.
  - rewrite Nat.sub_0_r. destruct (forallb _ a) eqn:Hf; split.
    + intros [= <-]; split; [done|]; simpl. rewrite forallb_forall in Hf.
      induction a as [|[x|] a IHa]; [done| |]; simpl.
      * by specialize (Hf (Some x) (or_introl eq_refl)).
      * f_equal; apply IHa. intros; apply Hf; by right.
    + intros [Hl%nil_length_inv _]; by subst.
    + done.
    + intros [Hl%nil_length_inv Ha]; subst; simpl in Ha. exfalso.
      rewrite Ha in Hf. clear Ha. by induction (length a).
  - destruct a as [|[x|] a]; simpl.
    + split; [done|]. intros [Hl Ha]. destruct xs; simpl in *; done.
    + split.
      * intros (ys & [? ?]%IH & ->)%fmap_Some; simpl. split; [by f_equal | by f_equal].
      * intros [Hl Ha]. destruct xs as [|y ys]; simpl in *; [done|].
        injection Ha as -> Ha. apply fmap_Some. exists ys. split; [|done].
        apply IH. split; [lia | done].
    + split; [done|]. intros [Hl Ha]. destruct xs; simpl in *; done.
Qed.

Lemma arr_holds_init a cap xs :
  0 ≤ cap → arr_holds a cap xs ↔ arr_init (Z.to_nat (zlen xs)) a = Some xs ∧ zlen a = cap.
Proof.
  intros Hc; unfold zlen at 1; rewrite Nat2Z.id, arr_init_Some. split.
  - intros Ha. pose proof (arr_holds_zlen _ _ _ Ha) as Hl. destruct Ha as [? Ha].
    split; [|done]. split; [done|]. rewrite Ha at 1. f_equal.
    unfold uninit, zlen in *. f_equal; lia.
  - intros [[_ Ha] Hl]. split.
    + rewrite <-Hl, Ha. unfold zlen. rewrite length_app, length_map; lia.
    + rewrite Ha. f_equal. unfold uninit, zlen in *. f_equal; lia.
Qed.

Lemma arr_holds_write_all {E} a cap xs ys :
  arr_holds a cap xs → zlen xs + zlen ys ≤ cap →
  ∃ a', arr_write_all (E:=E) a (zlen xs) ys = Ok a' ∧ arr_holds a' cap (xs ++ ys).
Proof.
  intros Ha Hle; pose proof (arr_holds_zlen _ _ _ Ha) as Hlen.
  unfold arr_write_all; rewrite Hlen.
  pose proof (zlen_nonneg xs).
  rewrite (proj2 (Z.leb_le _ _)), (proj2 (Z.leb_le _ _)) by done; simpl.
  eexists; split; [done|]. destruct Ha as [_ ->].
  split; [by rewrite zlen_app|]. rewrite zlen_app.
  unfold uninit, zlen in *.
  rewrite Nat2Z.id, take_app_length' by by rewrite length_map.
  rewrite map_app, <-app_assoc. do 2 f_equal.
  rewrite drop_app_ge by (rewrite length_map; lia).
  rewrite length_map, drop_replicate. f_equal; lia.
Qed.

Lemma arr_holds_write {E} a cap xs x :
  arr_holds a cap xs → zlen xs < cap →
  ∃ a', arr_write (E:=E) a (zlen xs) x = Ok a' ∧ arr_holds a' cap (xs ++ [x]).
Proof.
  intros Ha Hlt; pose proof (arr_holds_zlen _ _ _ Ha) as Hlen.
  pose proof (zlen_nonneg xs).
  unfold arr_write; rewrite Hlen.
  rewrite (proj2 (Z.leb_le _ _)), (proj2 (Z.ltb_lt _ _)) by done; simpl.
  eexists; split; [done|]. destruct Ha as [_ ->].
  split; [rewrite zlen_app; unfold zlen in *; simpl; lia|].
  rewrite zlen_app. unfold uninit, zlen in *. simpl.
  rewrite Nat2Z.id.
  replace (Z.to_nat (cap - Z.of_nat (length xs)))
    with (S (Z.to_nat (cap - (Z.of_nat (length xs) + 1)))) by lia.
  rewrite insert_app_r_alt by (rewrite length_map; lia).
  rewrite length_map, Nat.sub_diag; simpl.
  by rewrite map_app, <-app_assoc.
Qed.
End uninit.

(** ** Loops

    A [loop] whose step gives the next state or leaves with a result, with a
    bound on the number of steps. *)

Section loops.
Context {St R : Type} (step : St → St + R).

Fixpoint loop (p : positive) (s : St) : St + R :=
  match p with
  | xH => step s
  | xO p => match loop p s with inl s => loop p s | inr r => inr r end
  | xI p =>
      match step s with
      | inl s => match loop p s with inl s => loop p s | inr r => inr r end
      | inr r => inr r
      end
  end.

(** The same with a unary bound, to reason by induction. *)
Fixpoint steps (n : nat) (s : St) : St + R :=
  match n with
  | O => inl s
  | S n => match step s with inl s => steps n s | inr r => inr r end
  end.

Lemma steps_add n m s :
  steps (n + m) s = match steps n s with inl s => steps m s | inr r => inr r end.
Proof. revert s; induction n as [|n IH]; intros s; simpl; [done|]. by destruct (step s). Qed.

Lemma loop_steps p s : loop p s = steps (Pos.to_nat p) s.
Proof.
  revert s; induction p as [p IH|p IH|]; intros s; cbn [loop].
  - rewrite Pos2Nat.inj_xI. simpl. destruct (step s) as [s'|]; [|done].
    rewrite Nat.add_0_r, steps_add, IH. destruct (steps _ s') as [s''|]; [apply IH | done].
  - rewrite Pos2Nat.inj_xO. simpl. rewrite Nat.add_0_r, steps_add, IH.
    destruct (steps _ s) as [s'|]; [apply IH | done].
  - change (Pos.to_nat 1) with 1%nat. simpl. by destruct (step s).
Qed.

(** An invariant, and a measure that every step decreases and that the
    bound exceeds: the loop leaves with a result. *)
Lemma loop_result (Inv : St → Prop) (Post : R → Prop) (m : St → nat) p s :
  (∀ s, Inv s → match step s with
                | inl s' => Inv s' ∧ (m s' < m s)%nat
                | inr r => Post r
                end) →
  Inv s → (m s < Pos.to_nat p)%nat → ∃ r, loop p s = inr r ∧ Post r.
Proof.
  intros Hstep. rewrite loop_steps. generalize (Pos.to_nat p) as n. intros n.
  revert s; induction n as [|n IH]; intros s Hi Hm; [lia|]; simpl.
  pose proof (Hstep s Hi) as Hs. destruct (step s) as [s'|r]; [|by exists r].
  destruct Hs as [Hi' Hd]. apply IH; [done | lia].
Qed.
End loops.
