(* ===== verification/State.v ===== *)
(** State-passing calls: a call threads a state [X] and returns a result, and
    what it did to the state before a failure stays done.  Used for output
    buffers ([Out]) and for connections to a TPM. *)

From S2P Require Import Prelude.

Definition State (X E A : Type) : Type := X → result E A * X.

Section state.
Context {X E : Type}.

Definition st_lift {A} (r : result E A) : State X E A := λ x, (r, x).
Definition st_ret {A} (a : A) : State X E A := st_lift (Ok a).
Definition st_bind {A B} (m : State X E A) (k : A → State X E B) : State X E B := λ x,
  match m x with
  | (Ok a, x) => k a x
  | (Err e, x) => (Err e, x)
  | (Panic, x) => (Panic, x)
  end.

(** [m.map_err(f)] *)
Definition st_map_err {F A} (f : E → F) (m : State X E A) : State X F A := λ x,
  let (r, x) := m x in (map_err f r, x).

(** [while cond { body }], the body threading its variables; [bound] exceeds
    the number of iterations the body can make without a panic. *)
Definition st_while {S} (bound : positive) (cond : S → bool) (body : S → State X E S) (s : S)
    : State X E S := λ x,
  match
    loop (λ '(s, x),
      if cond s then
        match body s x with
        | (Ok s, x) => inl (s, x)
        | (Err e, x) => inr (Err e, x)
        | (Panic, x) => inr (Panic, x)
        end
      else inr (Ok s, x)) bound (s, x)
  with
  | inl (_, x) => (Panic, x)
  | inr r => r
  end.
End state.

Notation "'let*' x := m 'in' k" := (st_bind m (λ x, k))
  (at level 10, x pattern, m at level 100, k at level 200) : tpm_scope.

(** ** Specifications *)

(** [m] does not panic, its value satisfies [P] and its error [Fail]. *)
Definition outcome {E A} (Fail : E → Prop) (P : A → Prop) (m : result E A) : Prop :=
  match m with
  | Ok a => P a
  | Err e => Fail e
  | Panic => False
  end.

Section outcome_lemmas.
Context {E A B : Type}.

Lemma outcome_impl (F : E → Prop) (P Q : A → Prop) (m : result E A) :
  outcome F P m → (∀ a, P a → Q a) → outcome F Q m.
Proof. destruct m; simpl; auto. Qed.

Lemma outcome_bind (F : E → Prop) (P : A → Prop) (Q : B → Prop) (m : result E A) k :
  outcome F P m → (∀ a, P a → outcome F Q (k a)) → outcome F Q (result_bind m k).
Proof. destruct m; simpl; auto. Qed.

Lemma outcome_map_err {E'} (f : E → E') (F : E → Prop) (F' : E' → Prop) (P : A → Prop)
    (m : result E A) :
  outcome F P m → (∀ e, F e → F' (f e)) → outcome F' P (map_err f m).
Proof. destruct m; simpl; auto. Qed.

Lemma outcome_Ok (F : E → Prop) (P : A → Prop) (m : result E A) :
  outcome F P m → (∀ e, ¬ F e) → ∃ a, m = Ok a ∧ P a.
Proof. destruct m; simpl; [by eexists | naive_solver..]. Qed.
End outcome_lemmas.

(** The same for a call that threads a state: [P] and [Fail] also see the
    state it leaves. *)
Definition st_outcome {X E A} (Fail : E → X → Prop) (P : A → X → Prop) (r : result E A * X) : Prop :=
  match r with
  | (Ok a, x) => P a x
  | (Err e, x) => Fail e x
  | (Panic, _) => False
  end.

Section st_lemmas.
Context {X E A B : Type} (F : E → X → Prop).

Lemma st_outcome_bind (P : A → X → Prop) (Q : B → X → Prop) (m : State X E A) k x :
  st_outcome F P (m x) → (∀ a x, P a x → st_outcome F Q (k a x)) →
  st_outcome F Q (st_bind m k x).
Proof. unfold st_bind. destruct (m x) as [[?| |] ?]; simpl; auto. Qed.

Lemma st_outcome_lift (P : A → Prop) (Q : B → X → Prop) (r : result E A) k x :
  outcome (λ e, F e x) P r → (∀ a, P a → st_outcome F Q (k a x)) →
  st_outcome F Q (st_bind (st_lift r) k x).
Proof. unfold st_bind, st_lift. destruct r; simpl; auto. Qed.

Lemma st_bind_Ok_inv (m : State X E A) (k : A → State X E B) x b x' :
  st_bind m k x = (Ok b, x') → ∃ a x1, m x = (Ok a, x1) ∧ k a x1 = (Ok b, x').
Proof using Type.
  unfold st_bind. destruct (m x) as [[a| |] x1] eqn:Hm; [|done..]. intros Hk. by exists a, x1.
Qed.
End st_lemmas.

Lemma st_outcome_impl {X E A} (F F' : E → X → Prop) (P P' : A → X → Prop) r :
  st_outcome F P r → (∀ e x, F e x → F' e x) → (∀ a x, P a x → P' a x) → st_outcome F' P' r.
Proof. destruct r as [[?| |] ?]; simpl; auto. Qed.

(** A loop whose body keeps an invariant and decreases a measure. *)
Lemma st_while_spec {X E S} (Inv : S → X → Prop) (F : E → X → Prop)
    (m : S → nat) bound cond (body : S → State X E S) s x :
  (∀ s x, Inv s x → cond s = true →
     st_outcome F (λ s' x', Inv s' x' ∧ (m s' < m s)%nat) (body s x)) →
  Inv s x → (m s < Pos.to_nat bound)%nat →
  st_outcome F (λ s' x', Inv s' x' ∧ cond s' = false) (st_while bound cond body s x).
Proof.
  intros Hbody Hi Hm. unfold st_while.
  match goal with |- context [loop ?f _ _] => set (step := f) end.
  destruct (loop_result step (λ x, Inv x.1 x.2)
    (st_outcome F (λ s' x', Inv s' x' ∧ cond s' = false)) (λ x, m x.1) bound (s, x))
    as (r & -> & HP); [|done..].
  intros [s' x'] Hi'; simpl in *. destruct (cond s') eqn:Hc; [|done].
  specialize (Hbody s' x' Hi' Hc). by destruct (body s' x') as [[?| |] ?].
Qed.

Lemma st_outcome_total {X E A} (P : A → X → Prop) (r : result E A * X) :
  st_outcome (λ _ _, False) P r → ∃ a x, r = (Ok a, x) ∧ P a x.
Proof. destruct r as [[a| |] x]; simpl; [by exists a, x | done..]. Qed.
