(* ===== verification/Errors.v ===== *)
(** The error type of the protocol crate ([protocol/src/error.rs]):
    [TpmError], its offset, [rebase] and [Display], and [tpm_offset]. *)

From S2P Require Import Prelude.

(** [enum TpmError], each variant with the fields of the source. *)
Inductive TpmError : Type :=
| BufferOverflow (offset needed available : Z)
| IntegerTooLarge (offset value : Z)
| InvalidBoolean (offset value : Z)
| InvalidCc (offset value : Z)
| InvalidMagicNumber (offset value : Z)
| InvalidRc (offset value : Z)
| InvalidTag (offset value : Z)
| TooManyBytes (offset limit actual : Z)
| TooManyItems (offset limit actual : Z)
| TrailingData (offset actual : Z)
| UnexpectedEnd (offset needed available : Z)
| VariantNotAvailable (offset value : Z).

#[global] Instance TpmError_eq_dec : EqDecision TpmError.
Proof. solve_decision. Defined.

Abbreviation TpmResult := (result TpmError).

(** [tpm_offset(base, cursor)] *)
Definition tpm_offset (base cursor : slice) : Z :=
  saturating_sub (sl_addr cursor) (sl_addr base) `min` sl_len base.

(** [tpm_value(value)]: a [usize] widened to [u64]. *)
Definition tpm_value (value : Z) : Z := value.

(** [TpmError::offset] *)
Definition offset (e : TpmError) : Z :=
  match e with
  | BufferOverflow o _ _ | IntegerTooLarge o _ | InvalidBoolean o _
  | InvalidCc o _ | InvalidMagicNumber o _ | InvalidRc o _ | InvalidTag o _
  | TooManyBytes o _ _ | TooManyItems o _ _ | TrailingData o _
  | UnexpectedEnd o _ _ | VariantNotAvailable o _ => o
  end.

(** [TpmError::rebase] *)
Definition rebase (delta : Z) (e : TpmError) : TpmError :=
  match e with
  | BufferOverflow o n a => BufferOverflow (saturating_add o delta) n a
  | IntegerTooLarge o v => IntegerTooLarge (saturating_add o delta) v
  | InvalidBoolean o v => InvalidBoolean (saturating_add o delta) v
  | InvalidCc o v => InvalidCc (saturating_add o delta) v
  | InvalidMagicNumber o v => InvalidMagicNumber (saturating_add o delta) v
  | InvalidRc o v => InvalidRc (saturating_add o delta) v
  | InvalidTag o v => InvalidTag (saturating_add o delta) v
  | TooManyBytes o l a => TooManyBytes (saturating_add o delta) l a
  | TooManyItems o l a => TooManyItems (saturating_add o delta) l a
  | TrailingData o a => TrailingData (saturating_add o delta) a
  | UnexpectedEnd o n a => UnexpectedEnd (saturating_add o delta) n a
  | VariantNotAvailable o v => VariantNotAvailable (saturating_add o delta) v
  end.

(** [Display for TpmError] *)
Definition display (e : TpmError) : string :=
  match e with
  | BufferOverflow _ _ _ => "buffer overflow"
  | IntegerTooLarge _ _ => "integer too large"
  | InvalidBoolean _ _ => "invalid boolean"
  | InvalidCc _ _ => "invalid cc"
  | InvalidMagicNumber _ _ => "invalid magic number"
  | InvalidRc _ _ => "invalid rc"
  | InvalidTag _ _ => "invalid tag"
  | TooManyBytes _ _ _ => "too many bytes"
  | TooManyItems _ _ _ => "too many items"
  | TrailingData _ _ => "trailing data"
  | UnexpectedEnd _ _ _ => "unexpected end"
  | VariantNotAvailable _ _ => "variant not available"
  end.

(** ** Lemmas *)

Lemma saturating_add_id a : saturating_add a 0 = a ↔ a ≤ usize_max.
Proof. unfold saturating_add; lia. Qed.

Lemma saturating_add_assoc a b c :
  0 ≤ a ≤ usize_max → 0 ≤ b → 0 ≤ c →
  saturating_add (saturating_add a b) c = saturating_add a (saturating_add b c).
Proof. unfold saturating_add; lia. Qed.

Lemma offset_rebase e d : offset (rebase d e) = saturating_add (offset e) d.
Proof. by destruct e. Qed.

(** Rebasing twice is rebasing by the sum. *)
Lemma rebase_rebase e d1 d2 :
  0 ≤ offset e ≤ usize_max → 0 ≤ d1 → 0 ≤ d2 →
  rebase d2 (rebase d1 e) = rebase (saturating_add d1 d2) e.
Proof. destruct e; simpl; intros; by rewrite saturating_add_assoc. Qed.

Lemma tpm_offset_consumes bs s r :
  slice_ok s → consumes bs s r → tpm_offset s r = zlen bs.
Proof.
  intros Hok Hc; pose proof (consumes_len _ _ _ Hc).
  destruct Hc as [_ Ha]; unfold tpm_offset, saturating_sub.
  pose proof (sl_len_nonneg r); pose proof (zlen_nonneg bs); lia.
Qed.
