(* ===== verification/Writer.v ===== *)
(** [TpmWriter] and the raw wire views of [protocol/src/lib.rs].

    Marshalling code runs in the monad [W]: it threads the writer, and the
    bytes already written stay written when a later step fails.  [writes m bs]
    is the abstract contract of a marshaller: it appends exactly [bs] when
    they fit, and otherwise stops at the first write that does not. *)

From S2P Require Import Prelude Errors.

(** ** The writer *)

Record TpmWriter := mk_writer { buffer : list byte; cursor : Z }.

Definition writer_new (buf : list byte) : TpmWriter := mk_writer buf 0.
Definition writer_len (w : TpmWriter) : Z := cursor w.
Definition writer_is_empty (w : TpmWriter) : bool := cursor w =? 0.
(** [&self.buffer[..self.cursor]] *)
Definition as_bytes (w : TpmWriter) : list byte := take (Z.to_nat (cursor w)) (buffer w).

(** [TpmWriter::write_bytes] *)
Definition write_bytes_raw (bytes : list byte) (w : TpmWriter) : TpmResult () * TpmWriter :=
  match checked_add (cursor w) (zlen bytes) with
  | None => (Err (BufferOverflow (cursor w) (zlen bytes) 0), w)
  | Some end_ =>
      if zlen (buffer w) <? end_ then
        (Err (BufferOverflow (cursor w) (zlen bytes)
                (saturating_sub (zlen (buffer w)) (cursor w))), w)
      else
        (Ok (), mk_writer (take (Z.to_nat (cursor w)) (buffer w) ++ bytes ++
                           drop (Z.to_nat end_) (buffer w)) end_)
  end.

(** ** The writer monad *)

Definition W (A : Type) : Type := TpmWriter → TpmResult A * TpmWriter.

Definition w_ret {A} (a : A) : W A := λ w, (Ok a, w).
Definition w_err {A} (e : TpmError) : W A := λ w, (Err e, w).
(** A fallible computation that does not touch the writer. *)
Definition w_lift {A} (r : TpmResult A) : W A := λ w, (r, w).
(** [writer.len()] *)
Definition w_len : W Z := λ w, (Ok (writer_len w), w).
Definition w_bind {A B} (m : W A) (k : A → W B) : W B := λ w,
  match m w with
  | (Ok a, w') => k a w'
  | (Err e, w') => (Err e, w')
  | (Panic, w') => (Panic, w')
  end.
Definition write_bytes (bytes : list byte) : W () := write_bytes_raw bytes.

Notation "'let!' x := m 'in' k" := (w_bind m (λ x, k))
  (at level 10, x pattern, m at level 100, k at level 200) : tpm_scope.
Notation "m1 ;! m2" := (w_bind m1 (λ _, m2))
  (at level 100, m2 at level 200, right associativity) : tpm_scope.

(** [for x in xs { f(x)? }] *)
Fixpoint w_for {A} (f : A → W ()) (xs : list A) : W () :=
  match xs with
  | [] => w_ret ()
  | x :: xs => f x ;! w_for f xs
  end.

(** ** Contract *)

Definition capacity (w : TpmWriter) : Z := zlen (buffer w).

(** The writer's invariant: the cursor is inside a buffer that exists. *)
Definition writer_ok (w : TpmWriter) : Prop :=
  0 ≤ cursor w ≤ capacity w ∧ capacity w ≤ isize_max.

Definition room (w : TpmWriter) : Z := capacity w - cursor w.

(** The writer after [bs] has been appended. *)
Definition put (w : TpmWriter) (bs : list byte) : TpmWriter :=
  mk_writer (take (Z.to_nat (cursor w)) (buffer w) ++ bs ++
             drop (Z.to_nat (cursor w + zlen bs)) (buffer w))
            (cursor w + zlen bs).

(** [m], started in [w], fails because the part [bs2] of [bs] does not fit
    after the part [bs1] has been written. *)
Definition overflows (m : W ()) (w : TpmWriter) (bs : list byte) : Prop :=
  ∃ bs1 bs2 bs3, bs = bs1 ++ bs2 ++ bs3 ∧ zlen bs1 ≤ room w < zlen bs1 + zlen bs2 ∧
    m w = (Err (BufferOverflow (cursor w + zlen bs1) (zlen bs2) (room w - zlen bs1)),
           put w bs1).

Definition writes (m : W ()) (bs : list byte) : Prop :=
  ∀ w, writer_ok w →
    (zlen bs ≤ room w → m w = (Ok (), put w bs)) ∧
    (room w < zlen bs ≤ isize_max → overflows m w bs).

(** ** Lemmas *)

Lemma put_nil w : writer_ok w → put w [] = w.
Proof.
  intros [? ?]; destruct w as [b c]; unfold put; simpl in *.
  change (zlen []) with 0. by rewrite Z.add_0_r, take_drop.
Qed.

Lemma put_capacity w bs : writer_ok w → zlen bs ≤ room w → capacity (put w bs) = capacity w.
Proof.
  unfold writer_ok, room, capacity, put, zlen; simpl; intros.
  rewrite !length_app, length_take, length_drop; lia.
Qed.

Lemma put_ok w bs : writer_ok w → zlen bs ≤ room w → writer_ok (put w bs).
Proof.
  intros Hw Hr; unfold writer_ok; rewrite put_capacity by done.
  destruct Hw; unfold room, put in *; simpl. pose proof (zlen_nonneg bs); lia.
Qed.

Lemma put_room w bs : writer_ok w → zlen bs ≤ room w → room (put w bs) = room w - zlen bs.
Proof. intros; unfold room; rewrite put_capacity by done; simpl; lia. Qed.

Lemma put_as_bytes w bs : writer_ok w → as_bytes (put w bs) = as_bytes w ++ bs.
Proof.
  unfold writer_ok, as_bytes, put, capacity, zlen; simpl; intros.
  rewrite app_assoc, take_app_le.
  - apply take_ge. rewrite length_app, length_take; lia.
  - rewrite length_app, length_take; lia.
Qed.

Lemma put_put w bs1 bs2 :
  writer_ok w → zlen bs1 + zlen bs2 ≤ room w → put (put w bs1) bs2 = put w (bs1 ++ bs2).
Proof.
  intros Hw Hr. pose proof (put_as_bytes w bs1 Hw) as Hb.
  unfold as_bytes in Hb. unfold put at 1. rewrite Hb.
  unfold put; simpl; rewrite zlen_app, Z.add_assoc.
  f_equal. rewrite <-!app_assoc. do 3 f_equal.
  unfold writer_ok, room, capacity, zlen in *.
  rewrite app_assoc, drop_app_ge by (rewrite length_app, length_take; lia).
  rewrite drop_drop, length_app, length_take. f_equal; lia.
Qed.

Lemma writes_write_bytes bs : writes (write_bytes bs) bs.
Proof.
  intros w Hw. unfold write_bytes, write_bytes_raw.
  pose proof (zlen_nonneg bs) as Hbs.
  assert (usize_max = 2 * isize_max + 1) as Hmax by done.
  unfold overflows, writer_ok, room, capacity in *.
  split; intros Hr; rewrite checked_add_Some by lia.
  - case_match; [lia|]. done.
  - exists [], bs, []; rewrite app_nil_r; change (zlen []) with 0.
    repeat split; [lia | lia |].
    rewrite !Z.add_0_r, Z.sub_0_r, put_nil by done.
    case_match; [|lia]. unfold saturating_sub. do 3 f_equal; lia.
Qed.

Lemma writes_ret : writes (w_ret ()) [].
Proof.
  intros w Hw. split; intros Hr; [by rewrite put_nil|].
  change (zlen []) with 0 in Hr. unfold writer_ok, room in *; lia.
Qed.

Lemma overflows_app m w bs bs' : overflows m w bs → overflows m w (bs ++ bs').
Proof.
  intros (b1 & b2 & b3 & -> & ? & ?); exists b1, b2, (b3 ++ bs').
  by rewrite <-!app_assoc.
Qed.

Lemma writes_bind m1 m2 bs1 bs2 :
  writes m1 bs1 → writes m2 bs2 → writes (m1 ;! m2) (bs1 ++ bs2).
Proof.
  intros H1 H2 w Hw. rewrite zlen_app.
  pose proof (zlen_nonneg bs1); pose proof (zlen_nonneg bs2).
  destruct (H1 w Hw) as [H1o H1e]; unfold w_bind.
  destruct (Z.le_gt_cases (zlen bs1) (room w)) as [Hle|Hgt].
  - rewrite H1o by done.
    pose proof (put_ok w bs1 Hw Hle) as Hw'.
    pose proof (put_room w bs1 Hw Hle) as Hroom.
    destruct (H2 _ Hw') as [H2o H2e]. split; intros Hr.
    + rewrite H2o by lia. by rewrite put_put by (done || lia).
    + destruct H2e as (b1 & b2 & b3 & -> & Hb & Hm); [lia|].
      pose proof (zlen_nonneg b1); pose proof (zlen_nonneg b2).
      exists (bs1 ++ b1), b2, b3. rewrite !zlen_app, <-!app_assoc.
      repeat split; [lia | lia |].
      rewrite H1o, Hm, put_put, Hroom by (done || lia). simpl.
      do 3 f_equal; lia.
  - split; intros Hr; [lia|].
    assert (overflows m1 w (bs1 ++ bs2)) as (b1 & b2 & b3 & E & ? & Hm)
      by (apply overflows_app, H1e; lia).
    exists b1, b2, b3. repeat split; [done | lia | lia |]. by rewrite Hm.
Qed.

Lemma writes_ext m m' bs : (∀ w, m w = m' w) → writes m bs → writes m' bs.
Proof.
  intros E H w Hw. destruct (H w Hw) as [Ho He]. split; intros Hr.
  - rewrite <-E. by apply Ho.
  - destruct (He Hr) as (b1 & b2 & b3 & ? & ? & ?). exists b1, b2, b3. by rewrite <-E.
Qed.

(** A computation that succeeds without touching the writer can be skipped. *)
Lemma writes_lift_bind {A} (r : TpmResult A) a k bs :
  r = Ok a → writes (k a) bs → writes (w_bind (w_lift r) k) bs.
Proof. intros -> H w Hw. exact (H w Hw). Qed.

Lemma writes_len_bind k bs :
  (∀ n, writes (k n) bs) → writes (w_bind w_len k) bs.
Proof. intros H w Hw. exact (H (writer_len w) w Hw). Qed.

Lemma writes_for {A} (f : A → W ()) (xs : list A) (bss : list (list byte)) :
  Forall2 (λ x bs, writes (f x) bs) xs bss → writes (w_for f xs) (concat bss).
Proof.
  induction 1; simpl; [apply writes_ret | by apply writes_bind].
Qed.

Create HintDb writes discriminated.
#[export] Hint Resolve writes_write_bytes writes_ret writes_bind : writes.
