(* ===== verification/Codec.v ===== *)
(** The marshalling traits of [protocol/src/lib.rs] as interfaces.

    [Codec] packs [TpmSized], [TpmMarshal] and [TpmUnmarshal] of one Rust
    type, [WireType] adds its [TpmField] (borrowed view), [Tagged] is a
    union with [TpmTaggedField] and [TpmUnmarshalTagged].  The field [wire]
    is not code: it is the reference encoding of the type, a function to
    [Some] bytes on the values the wire format can carry, and the classes
    [CodecOk], [WireOk] and [TaggedOk] say that the code implements it. *)

From S2P Require Import Prelude Errors Writer.

(** ** Owned values *)

Record Codec := mk_codec {
  ty : Type;
  (** [TpmSized::SIZE] and [TpmSized::len] *)
  SIZE : Z;
  len : ty → Z;
  (** [TpmMarshal::marshal] *)
  marshal : ty → W ();
  (** [TpmUnmarshal::unmarshal] *)
  unmarshal : slice → TpmResult (ty * slice);
  (** Reference encoding, and the length of the longest one. *)
  wire : ty → option (list byte);
  wire_max : Z
}.

(** What a type promises to its clients: its encoding has the length [len]
    announces and never exceeds [SIZE]; [marshal] appends exactly the
    encoding; [unmarshal] inverts it, accepts nothing else, consumes exactly
    the encoding and never panics. *)
Class CodecOk (c : Codec) : Prop := {
  wire_max_bounds : 0 ≤ wire_max c ≤ SIZE c;
  wire_len v bs : wire c v = Some bs → len c v = zlen bs;
  wire_max_le v bs : wire c v = Some bs → zlen bs ≤ wire_max c;
  marshal_wire v bs : wire c v = Some bs → writes (marshal c v) bs;
  unmarshal_wire v bs s r :
    slice_ok s → wire c v = Some bs → consumes bs s r → unmarshal c s = Ok (v, r);
  unmarshal_sound s v r :
    slice_ok s → unmarshal c s = Ok (v, r) → ∃ bs, wire c v = Some bs ∧ consumes bs s r;
  unmarshal_no_panic s : slice_ok s → unmarshal c s ≠ Panic
}.

(** [SIZE] bounds every encoding. *)
Lemma wire_SIZE c `{!CodecOk c} v bs : wire c v = Some bs → zlen bs ≤ SIZE c.
Proof. intros H%wire_max_le. pose proof (wire_max_bounds (c:=c)); lia. Qed.

(** ** Borrowed views *)

Record WireType := mk_wire_type {
  codec :> Codec;
  (** [TpmField::View] and [TpmField::cast_prefix_field] *)
  View : Type;
  cast_prefix_field : slice → TpmResult (View * slice);
  (** The value a view denotes, and the memory it borrows from. *)
  view_of : View → ty codec → Prop;
  view_in : View → slice → Prop
}.

(** A cast accepts exactly what [unmarshal] accepts, leaves the same
    remainder, denotes the same value, and borrows only from the bytes it
    consumed. *)
Class WireOk (t : WireType) : Prop := {
  wire_codec_ok : CodecOk t;
  view_in_mono vw s s' : view_in t vw s → sub_slice s s' → view_in t vw s';
  cast_sound s vw r :
    slice_ok s → cast_prefix_field t s = Ok (vw, r) →
    ∃ v bs, wire t v = Some bs ∧ consumes bs s r ∧ view_of t vw v ∧
            view_in t vw (mk_slice (sl_addr s) bs);
  cast_complete v bs s r :
    slice_ok s → wire t v = Some bs → consumes bs s r →
    ∃ vw, cast_prefix_field t s = Ok (vw, r);
  cast_no_panic s : slice_ok s → cast_prefix_field t s ≠ Panic
}.
#[export] Existing Instance wire_codec_ok.

(** The view of a [repr(transparent)] wire structure is the slice itself. *)
Definition slice_view (c : Codec) (cast : slice → TpmResult (slice * slice)) : WireType :=
  mk_wire_type c slice cast (λ vw v, wire c v = Some (sl_data vw)) sub_slice.

(** A type whose [unmarshal] is its [cast_prefix_field] and whose view is
    the value itself. *)
Definition value_view (c : Codec) : WireType :=
  mk_wire_type c (ty c) (unmarshal c) eq (λ _ _, True).

(** ** Tagged unions *)

Record Tagged (Tag : Type) := mk_tagged {
  uty : Type;
  USIZE : Z;
  ulen : uty → Z;
  umarshal : uty → W ();
  matches_tag : uty → Tag → bool;
  (** [TpmUnmarshalTagged::unmarshal_tagged] *)
  unmarshal_tagged : Tag → slice → TpmResult (uty * slice);
  (** [TpmTaggedField::View] and [cast_tagged_prefix_field] *)
  UView : Type;
  cast_tagged : Tag → slice → TpmResult (UView * slice);
  uwire : uty → option (list byte);
  uwire_max : Z;
  uview_of : UView → uty → Prop;
  uview_in : UView → slice → Prop
}.
Arguments uty {Tag}. Arguments USIZE {Tag}. Arguments ulen {Tag}.
Arguments umarshal {Tag}. Arguments matches_tag {Tag}.
Arguments unmarshal_tagged {Tag}. Arguments UView {Tag}.
Arguments cast_tagged {Tag}. Arguments uwire {Tag}. Arguments uwire_max {Tag}.
Arguments uview_of {Tag}. Arguments uview_in {Tag}.

Class TaggedOk {Tag : Type} (u : Tagged Tag) : Prop := {
  uwire_max_bounds : 0 ≤ uwire_max u ≤ USIZE u;
  uwire_len v bs : uwire u v = Some bs → ulen u v = zlen bs;
  uwire_max_le v bs : uwire u v = Some bs → zlen bs ≤ uwire_max u;
  umarshal_wire v bs : uwire u v = Some bs → writes (umarshal u v) bs;
  unmarshal_tagged_wire tag v bs s r :
    slice_ok s → matches_tag u v tag = true → uwire u v = Some bs → consumes bs s r →
    unmarshal_tagged u tag s = Ok (v, r);
  unmarshal_tagged_sound tag s v r :
    slice_ok s → unmarshal_tagged u tag s = Ok (v, r) →
    matches_tag u v tag = true ∧ ∃ bs, uwire u v = Some bs ∧ consumes bs s r;
  unmarshal_tagged_no_panic tag s : slice_ok s → unmarshal_tagged u tag s ≠ Panic;
  uview_in_mono vw s s' : uview_in u vw s → sub_slice s s' → uview_in u vw s';
  cast_tagged_sound tag s vw r :
    slice_ok s → cast_tagged u tag s = Ok (vw, r) →
    ∃ v bs, matches_tag u v tag = true ∧ uwire u v = Some bs ∧ consumes bs s r ∧
            uview_of u vw v ∧ uview_in u vw (mk_slice (sl_addr s) bs);
  cast_tagged_complete tag v bs s r :
    slice_ok s → matches_tag u v tag = true → uwire u v = Some bs → consumes bs s r →
    ∃ vw, cast_tagged u tag s = Ok (vw, r);
  cast_tagged_no_panic tag s : slice_ok s → cast_tagged u tag s ≠ Panic
}.

(** ** Raw views: [TpmWire] and [TpmWireBytes<N>] *)

Module TpmWire.
Definition cast (buf : slice) : slice := buf.
(** [(Self::cast(buf), &buf[buf.len()..])] *)
Definition cast_prefix (buf : slice) : TpmResult (slice * slice) :=
  let? tail := slice_from buf (sl_len buf) in Ok (cast buf, tail).
Definition len (w : slice) : Z := sl_len w.
Definition is_empty (w : slice) : bool := sl_is_empty w.
End TpmWire.

Module TpmWireBytes.
Section wire_bytes.
Variable N : Z.

Definition validate_prefix (buf : slice) : TpmResult () :=
  if sl_len buf <? N then Err (UnexpectedEnd 0 N (sl_len buf)) else Ok ().

Definition validate (buf : slice) : TpmResult () :=
  let? _ := validate_prefix buf in
  if N <? sl_len buf then
    let? extra := usub (sl_len buf) N in Err (TrailingData N extra)
  else Ok ().

Definition cast (buf : slice) : TpmResult slice :=
  let? _ := validate buf in Ok buf.

Definition cast_prefix (buf : slice) : TpmResult (slice * slice) :=
  let? _ := validate_prefix buf in
  let? (head, tail) := split_at buf N in
  Ok (head, tail).

Lemma cast_prefix_Ok buf h t :
  0 ≤ N → cast_prefix buf = Ok (h, t) →
  zlen (sl_data h) = N ∧ sl_addr h = sl_addr buf ∧ consumes (sl_data h) buf t.
Proof.
  unfold cast_prefix, validate_prefix; intros HN.
  case_match; [done|]; simpl.
  intros ([h' t'] & Hs & [= -> ->])%result_bind_Ok_inv.
  by apply split_at_Ok in Hs.
Qed.

Lemma cast_prefix_consumes bs buf r :
  zlen bs = N → consumes bs buf r →
  cast_prefix buf = Ok (mk_slice (sl_addr buf) bs, r).
Proof.
  intros HN Hc; unfold cast_prefix, validate_prefix. rewrite <-HN.
  pose proof (consumes_len _ _ _ Hc); pose proof (sl_len_nonneg r).
  case_match; [lia|]; simpl. by rewrite (split_at_app _ _ _ Hc).
Qed.

Lemma cast_prefix_no_panic buf : cast_prefix buf ≠ Panic.
Proof.
  unfold cast_prefix, validate_prefix; case_match; [done|]; simpl.
  unfold split_at; case_match; [done | lia].
Qed.

(** [cast] accepts exactly the slices of [N] bytes. *)
Lemma cast_spec buf :
  (sl_len buf = N → cast buf = Ok buf) ∧
  (sl_len buf < N → cast buf = Err (UnexpectedEnd 0 N (sl_len buf))) ∧
  (N < sl_len buf → cast buf = Err (TrailingData N (sl_len buf - N))).
Proof.
  unfold cast, validate, validate_prefix; repeat split; intros;
    repeat (case_match; simpl; try lia); try done.
  rewrite usub_Ok by lia. done.
Qed.
End wire_bytes.
End TpmWireBytes.

(** ** Derived facts *)

Section codec_facts.
Context (c : Codec) `{!CodecOk c}.

(** What [marshal] writes, [unmarshal] reads back, whatever follows. *)
Lemma roundtrip v bs rest a :
  wire c v = Some bs → slice_ok (mk_slice a (bs ++ rest)) →
  unmarshal c (mk_slice a (bs ++ rest)) = Ok (v, mk_slice (a + zlen bs) rest).
Proof. intros Hv Hs. by apply (unmarshal_wire v bs). Qed.

(** What [marshal] writes into a fresh buffer that is wide enough. *)
Lemma marshal_new v bs buf :
  wire c v = Some bs → zlen bs ≤ zlen buf ≤ isize_max →
  marshal c v (writer_new buf) = (Ok (), put (writer_new buf) bs) ∧
  as_bytes (put (writer_new buf) bs) = bs.
Proof.
  intros Hw Hl. pose proof (zlen_nonneg bs).
  assert (writer_ok (writer_new buf)) as Hok by (unfold writer_ok, capacity; simpl; lia).
  split; [|by rewrite put_as_bytes].
  apply (marshal_wire v bs Hw _ Hok). unfold room, capacity. simpl. lia.
Qed.

Lemma unmarshal_wire_inj v1 v2 bs :
  zlen bs ≤ isize_max → wire c v1 = Some bs → wire c v2 = Some bs → v1 = v2.
Proof.
  intros Hb H1 H2.
  assert (slice_ok (mk_slice 0 bs)) as Hs.
  { unfold slice_ok, sl_len, isize_max, usize_max in *; simpl; lia. }
  pose proof (unmarshal_wire v1 bs (mk_slice 0 bs) (mk_slice (zlen bs) []) Hs H1).
  pose proof (unmarshal_wire v2 bs (mk_slice 0 bs) (mk_slice (zlen bs) []) Hs H2).
  assert (consumes bs (mk_slice 0 bs) (mk_slice (zlen bs) [])) as Hc
    by (split; simpl; [by rewrite app_nil_r | lia]).
  specialize (H Hc); specialize (H0 Hc). congruence.
Qed.

Lemma unmarshal_consumes s v r :
  slice_ok s → unmarshal c s = Ok (v, r) → sl_len r = sl_len s - len c v ∧ slice_ok r.
Proof.
  intros Hs Hu. destruct (unmarshal_sound s v r Hs Hu) as (bs & Hv & Hc).
  rewrite (wire_len v bs Hv), (consumes_len _ _ _ Hc).
  split; [lia | by eapply consumes_slice_ok].
Qed.
End codec_facts.

(** The view of an encoding denotes the value that was encoded. *)
Lemma cast_view (t : WireType) `{!WireOk t} v bs s r :
  slice_ok s → wire t v = Some bs → consumes bs s r →
  ∃ vw, cast_prefix_field t s = Ok (vw, r) ∧ view_of t vw v ∧
        view_in t vw (mk_slice (sl_addr s) bs).
Proof.
  intros Hok Hw Hc. destruct (cast_complete v bs s r Hok Hw Hc) as [vw Hvw].
  exists vw. split; [done|].
  destruct (cast_sound s vw r Hok Hvw) as (v' & bs' & Hw' & Hc' & Hv & Hin).
  pose proof (unmarshal_wire v bs s r Hok Hw Hc) as E.
  rewrite (unmarshal_wire v' bs' s r Hok Hw' Hc') in E. injection E as ->.
  by rewrite Hw in Hw'; injection Hw' as ->.
Qed.
