(* ===== verification/Integer.v ===== *)
(** Big-endian integers, [protocol/src/basic/integer.rs]. *)

From S2P Require Import Prelude Errors Writer Codec.

(** [TpmInt<T, N>] wraps the [N] wire bytes. *)
Module TpmInt.
Section tpm_int.
(** The wire width, and whether the native type is signed. *)
Variable (N : nat) (signed : bool).

Record t := from_be_bytes { bytes : list byte }.

Definition bits : Z := 8 * Z.of_nat N.

(** The native integer in two's complement. *)
Definition of_unsigned (z : Z) : Z :=
  if signed && (2 ^ (bits - 1) <=? z) then z - 2 ^ bits else z.
Definition to_unsigned (z : Z) : Z := z `mod` 2 ^ bits.

Definition min_value : Z := if signed then - 2 ^ (bits - 1) else 0.
Definition max_value : Z := if signed then 2 ^ (bits - 1) - 1 else 2 ^ bits - 1.
Definition in_range (z : Z) : Prop := min_value ≤ z ≤ max_value.

(** [TpmInt::new], [From<T>] and [TpmInt::value] *)
Definition new (value : Z) : t := from_be_bytes (be_encode N (to_unsigned value)).
Definition value (i : t) : Z := of_unsigned (be_decode (bytes i)).
(** [TryFrom<usize>] *)
Definition try_from (v : Z) : option t :=
  if (min_value <=? v) && (v <=? max_value) then Some (new v) else None.

Definition cast_prefix (buf : slice) : TpmResult (slice * slice) :=
  TpmWireBytes.cast_prefix (Z.of_nat N) buf.
Definition validate (buf : slice) : TpmResult () :=
  TpmWireBytes.validate (Z.of_nat N) buf.
Definition cast (buf : slice) : TpmResult slice :=
  let? _ := validate buf in Ok buf.
(** [value()] of a borrowed integer view *)
Definition view_value (vw : slice) : Z := value (from_be_bytes (sl_data vw)).

Definition size : Z := Z.of_nat N.
Definition len (_ : t) : Z := size.
Definition marshal (i : t) : W () := write_bytes (bytes i).
Definition unmarshal (buffer : slice) : TpmResult (t * slice) :=
  let? (value, remainder) := TpmWireBytes.cast_prefix (Z.of_nat N) buffer in
  Ok (from_be_bytes (sl_data value), remainder).

(** The array has [N] bytes. *)
Definition wire (i : t) : option (list byte) :=
  if decide (length (bytes i) = N) then Some (bytes i) else None.

Definition codec : Codec := mk_codec t size len marshal unmarshal wire size.
Definition wire_type : WireType := slice_view codec cast_prefix.
End tpm_int.
End TpmInt.

Definition TpmUint8 : WireType := TpmInt.wire_type 1.
Definition TpmInt8 : WireType := TpmInt.wire_type 1.
Definition TpmUint16 : WireType := TpmInt.wire_type 2.
Definition TpmUint32 : WireType := TpmInt.wire_type 4.
Definition TpmUint64 : WireType := TpmInt.wire_type 8.
Definition TpmInt32 : WireType := TpmInt.wire_type 4.
Definition TpmHandle : WireType := TpmUint32.

#[global] Instance TpmInt_eq_dec : EqDecision TpmInt.t.
Proof. solve_decision. Defined.

(** ** Native values *)

Section native.
Variable (N : nat) (signed : bool).
Hypothesis HN : (0 < N)%nat.
Local Abbreviation bits := (TpmInt.bits N).

Lemma two_pow_bits : 2 ^ bits = 2 * 2 ^ (bits - 1) ∧ 0 < 2 ^ (bits - 1).
Proof using HN.
  unfold TpmInt.bits. split; [|apply Z.pow_pos_nonneg; lia].
  rewrite <-Z.pow_succ_r by lia. f_equal; lia.
Qed.

Lemma of_to_unsigned z :
  TpmInt.in_range N signed z →
  TpmInt.of_unsigned N signed (TpmInt.to_unsigned N z) = z.
Proof using HN.
  unfold TpmInt.in_range, TpmInt.min_value, TpmInt.max_value,
    TpmInt.of_unsigned, TpmInt.to_unsigned.
  destruct two_pow_bits as [-> ?]. set (p := 2 ^ (bits - 1)) in *.
  destruct signed; simpl; intros Hz; [|apply Z.mod_small; lia].
  destruct (Z.le_gt_cases 0 z).
  - rewrite Z.mod_small by lia. case_match; lia.
  - replace (z `mod` (2 * p)) with (z + 2 * p).
    + case_match; lia.
    + rewrite <-(Z.mod_small (z + 2 * p) (2 * p)) by lia.
      rewrite <-(Z_mod_plus_full z 1 (2 * p)). f_equal; lia.
Qed.

(** [TpmInt::from(x).value() == x] for every [x] of the native type. *)
Lemma value_new z :
  TpmInt.in_range N signed z → TpmInt.value N signed (TpmInt.new N z) = z.
Proof using HN.
  intros Hz. unfold TpmInt.value, TpmInt.new; simpl.
  rewrite be_decode_encode; [by apply of_to_unsigned|].
  apply Z.mod_pos_bound. destruct two_pow_bits; lia.
Qed.

Lemma value_in_range i :
  length (TpmInt.bytes i) = N → TpmInt.in_range N signed (TpmInt.value N signed i).
Proof using HN.
  intros Hl. pose proof (be_decode_bound (TpmInt.bytes i)) as Hb.
  unfold zlen in Hb; rewrite Hl in Hb. change (8 * Z.of_nat N) with bits in Hb.
  unfold TpmInt.in_range, TpmInt.min_value, TpmInt.max_value, TpmInt.value,
    TpmInt.of_unsigned.
  destruct two_pow_bits as [E ?]. rewrite E in *.
  destruct signed; simpl; [case_match|]; lia.
Qed.

Lemma to_of_unsigned z :
  0 ≤ z < 2 ^ bits → TpmInt.to_unsigned N (TpmInt.of_unsigned N signed z) = z.
Proof using HN.
  intros Hz. unfold TpmInt.to_unsigned, TpmInt.of_unsigned.
  case_match; [|by apply Z.mod_small].
  rewrite <-(Z_mod_plus_full _ 1). rewrite Z.mul_1_l, Z.sub_add.
  by apply Z.mod_small.
Qed.

Lemma new_value i :
  length (TpmInt.bytes i) = N → TpmInt.new N (TpmInt.value N signed i) = i.
Proof using HN.
  intros Hl. unfold TpmInt.new, TpmInt.value. destruct i as [bs]; simpl in *.
  pose proof (be_decode_bound bs) as Hb. unfold zlen in Hb; rewrite Hl in Hb.
  rewrite to_of_unsigned by done. by rewrite be_encode_decode.
Qed.

Lemma int_try_from_spec v :
  TpmInt.try_from N signed v =
    if decide (TpmInt.in_range N signed v) then Some (TpmInt.new N v) else None.
Proof using Type. clear HN.
  unfold TpmInt.try_from, TpmInt.in_range.
  case_decide as Hd; case_match; try done; lia.
Qed.
End native.

Lemma in_range_u8 z : 0 ≤ z ≤ u8_max → TpmInt.in_range 1 false z.
Proof. done. Qed.
Lemma in_range_u16 z : 0 ≤ z ≤ u16_max → TpmInt.in_range 2 false z.
Proof. done. Qed.
Lemma in_range_u32 z : 0 ≤ z ≤ u32_max → TpmInt.in_range 4 false z.
Proof. done. Qed.
Lemma in_range_u64 z : 0 ≤ z ≤ u64_max → TpmInt.in_range 8 false z.
Proof. done. Qed.

Lemma in_range_u32_inv z : TpmInt.in_range 4 false z → 0 ≤ z ≤ u32_max.
Proof. done. Qed.
Lemma in_range_u16_inv z : TpmInt.in_range 2 false z → 0 ≤ z ≤ u16_max.
Proof. done. Qed.

Lemma bytes_new n z :
  0 ≤ z < 2 ^ (8 * Z.of_nat n) → TpmInt.bytes (TpmInt.new n z) = be_encode n z.
Proof. intros. simpl. unfold TpmInt.to_unsigned. by rewrite Z.mod_small. Qed.

(** ** Codec laws *)

Section int_codec.
Variable N : nat.

Lemma int_wire_Some v bs :
  TpmInt.wire N v = Some bs ↔ bs = TpmInt.bytes v ∧ length bs = N.
Proof. unfold TpmInt.wire. split; [|by intros [-> Hl]; rewrite decide_True].
  case_decide; [by intros [= <-] | done]. Qed.

Lemma length_new z : length (TpmInt.bytes (TpmInt.new N z)) = N.
Proof. apply length_be_encode. Qed.

Lemma int_wire_new z : TpmInt.wire N (TpmInt.new N z) = Some (TpmInt.bytes (TpmInt.new N z)).
Proof. apply int_wire_Some. split; [done | apply length_new]. Qed.

#[export] Instance int_codec_ok : CodecOk (TpmInt.codec N).
Proof.
  split; simpl.
  - unfold TpmInt.size; lia.
  - intros v bs [-> Hl]%int_wire_Some. unfold TpmInt.len, TpmInt.size, zlen; lia.
  - intros v bs [-> Hl]%int_wire_Some. unfold TpmInt.size, zlen; lia.
  - intros v bs [-> Hl]%int_wire_Some. apply writes_write_bytes.
  - intros [b] bs s r _ [-> Hl]%int_wire_Some Hc. unfold TpmInt.unmarshal.
    rewrite (TpmWireBytes.cast_prefix_consumes _ b _ r) by (unfold zlen; simpl in *; done || lia).
    done.
  - intros s v r _ ([h t] & Hp & [= <- <-])%result_bind_Ok_inv.
    apply TpmWireBytes.cast_prefix_Ok in Hp as (? & ? & ?); [|lia].
    exists (sl_data h); split; [|done].
    apply int_wire_Some; simpl. unfold zlen in *; split; [done | lia].
  - intros s _. apply result_bind_not_Panic; [apply TpmWireBytes.cast_prefix_no_panic|].
    by intros [? ?].
Qed.

#[export] Instance int_wire_ok : WireOk (TpmInt.wire_type N).
Proof.
  split; simpl.
  - apply _.
  - intros. by eapply sub_slice_trans.
  - intros s vw r _ Hp.
    apply TpmWireBytes.cast_prefix_Ok in Hp as (Hl & ? & ?); [|lia].
    assert (TpmInt.wire N (TpmInt.from_be_bytes (sl_data vw)) = Some (sl_data vw)) as Hw.
    { apply int_wire_Some; simpl. unfold zlen in Hl; split; [done | lia]. }
    exists (TpmInt.from_be_bytes (sl_data vw)), (sl_data vw).
    split_and!; try done. destruct vw; simpl in *; subst. apply sub_slice_refl.
  - intros v bs s r _ [-> Hl]%int_wire_Some Hc. eexists.
    by apply TpmWireBytes.cast_prefix_consumes; [unfold zlen; f_equal|].
  - intros s _. apply TpmWireBytes.cast_prefix_no_panic.
Qed.
End int_codec.

(** The value of a borrowed integer view is the value [unmarshal] returns. *)
Lemma int_view_of N vw v signed :
  view_of (TpmInt.wire_type N) vw v → TpmInt.view_value N signed vw = TpmInt.value N signed v.
Proof.
  simpl; intros [Hb _]%int_wire_Some. unfold TpmInt.view_value, TpmInt.value.
  simpl; by rewrite Hb.
Qed.

#[export] Instance TpmUint8_ok : WireOk TpmUint8 := int_wire_ok 1.
#[export] Instance TpmInt8_ok : WireOk TpmInt8 := int_wire_ok 1.
#[export] Instance TpmUint16_ok : WireOk TpmUint16 := int_wire_ok 2.
#[export] Instance TpmUint32_ok : WireOk TpmUint32 := int_wire_ok 4.
#[export] Instance TpmUint64_ok : WireOk TpmUint64 := int_wire_ok 8.
#[export] Instance TpmInt32_ok : WireOk TpmInt32 := int_wire_ok 4.
#[export] Instance TpmHandle_ok : WireOk TpmHandle := int_wire_ok 4.
