(* ===== verification/Buffer.v ===== *)
(** TPM2B byte buffers, [protocol/src/basic/buffer.rs]: the borrowed view
    [Tpm2b<CAPACITY>] and the owned [TpmBuffer<CAPACITY>]. *)

From S2P Require Import Prelude Errors Writer Codec Integer.

Definition TPM2B_SIZE_LEN : Z := SIZE TpmUint16.

(** ** The borrowed view *)

Module Tpm2b.
Section tpm2b.
Variable CAPACITY : Z.

(** [usize::from(u16::from_be_bytes([buf[0], buf[1]]))] *)
Definition read_size (buf : slice) : TpmResult Z :=
  let? b0 := index buf 0 in
  let? b1 := index buf 1 in
  Ok (be_decode [b0; b1]).

Definition validate_prefix (buf : slice) : TpmResult Z :=
  if sl_len buf <? TPM2B_SIZE_LEN then
    Err (UnexpectedEnd 0 TPM2B_SIZE_LEN (sl_len buf))
  else
    let? payload_len := read_size buf in
    if CAPACITY <? payload_len then Err (TooManyBytes 0 CAPACITY payload_len)
    else
      let? wire_len := ok_or (checked_add TPM2B_SIZE_LEN payload_len)
                         (IntegerTooLarge 0 (tpm_value payload_len)) in
      if sl_len buf <? wire_len then
        Err (UnexpectedEnd TPM2B_SIZE_LEN payload_len
               (saturating_sub (sl_len buf) TPM2B_SIZE_LEN))
      else Ok wire_len.

Definition validate (buf : slice) : TpmResult () :=
  let? wire_len := validate_prefix buf in
  if wire_len <? sl_len buf then
    let? extra := usub (sl_len buf) wire_len in Err (TrailingData wire_len extra)
  else Ok ().

Definition cast (buf : slice) : TpmResult slice :=
  let? _ := validate buf in Ok buf.

Definition cast_prefix (buf : slice) : TpmResult (slice * slice) :=
  let? wire_len := validate_prefix buf in
  let? (head, tail) := split_at buf wire_len in
  Ok (head, tail).

Definition size (vw : slice) : TpmResult Z := read_size vw.
(** [&self.0[TPM2B_SIZE_LEN..]] *)
Definition data (vw : slice) : TpmResult slice := slice_from vw TPM2B_SIZE_LEN.
Definition len (vw : slice) : Z := sl_len vw.
Definition is_empty (vw : slice) : TpmResult bool :=
  let? n := size vw in Ok (n =? 0).

(** Reference format: a 16-bit size and that many bytes. *)
Definition format (payload : list byte) : list byte :=
  be_encode 2 (zlen payload) ++ payload.
End tpm2b.
End Tpm2b.

(** ** The owned buffer *)

Module TpmBuffer.
Record t := mk { size : Z; data : list (option byte) }.

Section tpm_buffer.
Variable CAPACITY : Z.

Definition new : t := mk 0 (uninit CAPACITY).

(** [Deref]: the first [size] bytes. *)
Definition deref (b : t) : list byte := arr_deref (data b) (size b).

Definition try_push (byte : byte) (b : t) : TpmResult t :=
  if (CAPACITY <=? size b) || (size b =? u16_max) then
    Err (BufferOverflow (size b) 1 (saturating_sub CAPACITY (size b)))
  else
    let? data' := arr_write (data b) (size b) byte in
    Ok (mk (size b + 1) data').

Definition try_extend_from_slice (xs : list byte) (b : t) : TpmResult t :=
  let current_len := size b in
  let? new_len := ok_or (checked_add current_len (zlen xs))
    (BufferOverflow current_len (zlen xs) (saturating_sub CAPACITY current_len)) in
  if CAPACITY <? new_len then
    Err (BufferOverflow current_len (zlen xs) (saturating_sub CAPACITY current_len))
  else if u16_max <? new_len then
    Err (BufferOverflow current_len (zlen xs) (saturating_sub u16_max current_len))
  else
    let? data' := arr_write_all (data b) current_len xs in
    Ok (mk new_len data').

(** [TryFrom<&[u8]>] *)
Definition try_from (xs : list byte) : TpmResult t := try_extend_from_slice xs new.

Definition SIZE : Z := Codec.SIZE TpmUint16 + CAPACITY.
Definition len (b : t) : Z := Codec.SIZE TpmUint16 + size b.

Definition marshal (b : t) : W () :=
  Codec.marshal TpmUint16 (TpmInt.new 2 (size b)) ;!
  write_bytes (deref b).

Definition unmarshal (buffer : slice) : TpmResult (t * slice) :=
  let? (value, remainder) := Tpm2b.cast_prefix CAPACITY buffer in
  let? payload := Tpm2b.data value in
  let? b := try_from (sl_data payload) in
  Ok (b, remainder).

(** The buffer's invariant: [size] bytes are initialised, the others are
    not, and [size] fits its [u16]. *)
Definition holds (b : t) (xs : list byte) : Prop :=
  size b = zlen xs ∧ arr_holds (data b) CAPACITY xs ∧ zlen xs ≤ u16_max.

Definition holds_dec (b : t) : bool :=
  bool_decide (data b = map Some (deref b) ++ uninit (CAPACITY - zlen (deref b)))
  && (size b =? zlen (deref b)) && (size b <=? CAPACITY) && (size b <=? u16_max).

Definition wire (b : t) : option (list byte) :=
  if holds_dec b then Some (Tpm2b.format (deref b)) else None.

Definition codec : Codec := mk_codec t SIZE len marshal unmarshal wire SIZE.
(** [TpmField for TpmBuffer<CAPACITY>] *)
Definition wire_type : WireType := slice_view codec (Tpm2b.cast_prefix CAPACITY).
End tpm_buffer.
End TpmBuffer.

#[global] Instance TpmBuffer_eq_dec : EqDecision TpmBuffer.t.
Proof. solve_decision. Defined.

(** ** Lemmas on the view *)

Section tpm2b_lemmas.
Variable CAPACITY : Z.
Hypothesis HC : 0 ≤ CAPACITY.

Lemma TPM2B_SIZE_LEN_eq : TPM2B_SIZE_LEN = 2.
Proof using Type. done. Qed.

Lemma zlen_format xs : zlen (Tpm2b.format xs) = 2 + zlen xs.
Proof using Type.
  unfold Tpm2b.format; rewrite zlen_app. unfold zlen at 1.
  by rewrite length_be_encode.
Qed.

Lemma read_size_spec s :
  2 ≤ sl_len s → Tpm2b.read_size s = Ok (be_decode (take 2 (sl_data s))).
Proof using Type.
  unfold Tpm2b.read_size, index, sl_len, zlen.
  destruct (sl_data s) as [|b0 [|b1 l]]; simpl; intros; try lia. done.
Qed.

Lemma read_size_format xs s r :
  zlen xs ≤ u16_max → consumes (Tpm2b.format xs) s r → Tpm2b.read_size s = Ok (zlen xs).
Proof using Type.
  intros Hx Hc. pose proof (consumes_len _ _ _ Hc) as Hl.
  rewrite zlen_format in Hl. pose proof (zlen_nonneg xs); pose proof (sl_len_nonneg r).
  rewrite read_size_spec by lia. destruct Hc as [-> _].
  unfold Tpm2b.format. rewrite <-app_assoc, take_app_le by by rewrite length_be_encode.
  rewrite take_ge by by rewrite length_be_encode.
  f_equal. apply be_decode_encode. unfold u16_max in *; simpl; lia.
Qed.

Lemma tpm2b_validate_prefix_Ok s n :
  Tpm2b.validate_prefix CAPACITY s = Ok n →
  ∃ xs r, n = 2 + zlen xs ∧ zlen xs ≤ CAPACITY `min` u16_max ∧ consumes (Tpm2b.format xs) s r.
Proof using Type.
  unfold Tpm2b.validate_prefix; rewrite TPM2B_SIZE_LEN_eq.
  case_match; [done|].
  rewrite read_size_spec by lia; simpl. case_match; [done|].
  set (p := be_decode _) in *.
  destruct (checked_add 2 p) as [w|] eqn:Hw; [|done]; simpl.
  apply checked_add_Some_inv in Hw as [-> _]. case_match; [done|]. intros [= <-].
  assert (Hlen : length (take 2 (sl_data s)) = 2%nat)
    by (rewrite length_take; unfold sl_len, zlen in *; lia).
  pose proof (be_decode_bound (take 2 (sl_data s))) as Hb. fold p in Hb.
  unfold zlen in Hb; rewrite Hlen in Hb. change (2 ^ (8 * Z.of_nat 2)) with 65536 in Hb.
  exists (take (Z.to_nat p) (drop 2 (sl_data s))), (sl_drop (2 + p) s).
  assert (Hp : zlen (take (Z.to_nat p) (drop 2 (sl_data s))) = p).
  { unfold zlen, sl_len in *; rewrite length_take, length_drop. unfold zlen in *; lia. }
  rewrite Hp. split_and!; [done | unfold u16_max; lia |].
  unfold Tpm2b.format; rewrite Hp. unfold p at 1. rewrite be_encode_decode by done.
  split.
  - simpl. replace (Z.to_nat (2 + p)) with (2 + Z.to_nat p)%nat by lia.
    by rewrite <-drop_drop, <-app_assoc, !take_drop.
  - rewrite zlen_app, Hp. unfold zlen; rewrite Hlen. simpl; lia.
Qed.

Lemma tpm2b_validate_prefix_format xs s r :
  slice_ok s → zlen xs ≤ CAPACITY → zlen xs ≤ u16_max → consumes (Tpm2b.format xs) s r →
  Tpm2b.validate_prefix CAPACITY s = Ok (2 + zlen xs).
Proof using Type.
  intros Hs Hx Hx' Hc. pose proof (consumes_len _ _ _ Hc) as Hl. rewrite zlen_format in Hl.
  pose proof (zlen_nonneg xs); pose proof (sl_len_nonneg r).
  unfold Tpm2b.validate_prefix; rewrite TPM2B_SIZE_LEN_eq.
  case_match; [lia|]. rewrite (read_size_format xs s r) by done; simpl.
  case_match; [lia|].
  rewrite checked_add_Some by (unfold u16_max, usize_max in *; lia); simpl.
  case_match; [lia | done].
Qed.

Lemma tpm2b_validate_prefix_no_panic s : Tpm2b.validate_prefix CAPACITY s ≠ Panic.
Proof using Type.
  unfold Tpm2b.validate_prefix; rewrite TPM2B_SIZE_LEN_eq.
  case_match; [done|]. rewrite read_size_spec by lia; simpl.
  case_match; [done|]. destruct (checked_add _ _); simpl; [|done]. by case_match.
Qed.

Lemma tpm2b_cast_prefix_Ok s vw r :
  Tpm2b.cast_prefix CAPACITY s = Ok (vw, r) →
  ∃ xs, zlen xs ≤ CAPACITY `min` u16_max ∧ consumes (Tpm2b.format xs) s r ∧
        vw = mk_slice (sl_addr s) (Tpm2b.format xs).
Proof using Type.
  unfold Tpm2b.cast_prefix.
  intros (n & (xs & r' & -> & Hx & Hc)%tpm2b_validate_prefix_Ok & Hs)%result_bind_Ok_inv.
  rewrite <-zlen_format, (split_at_app _ _ _ Hc) in Hs. simpl in Hs.
  injection Hs as <- <-. by exists xs.
Qed.

Lemma tpm2b_cast_prefix_format xs s r :
  slice_ok s → zlen xs ≤ CAPACITY → zlen xs ≤ u16_max → consumes (Tpm2b.format xs) s r →
  Tpm2b.cast_prefix CAPACITY s = Ok (mk_slice (sl_addr s) (Tpm2b.format xs), r).
Proof using Type.
  intros. unfold Tpm2b.cast_prefix.
  rewrite (tpm2b_validate_prefix_format xs s r) by done; simpl.
  rewrite <-zlen_format. by erewrite split_at_app.
Qed.

Lemma tpm2b_cast_prefix_no_panic s : Tpm2b.cast_prefix CAPACITY s ≠ Panic.
Proof using Type.
  unfold Tpm2b.cast_prefix.
  destruct (Tpm2b.validate_prefix CAPACITY s) as [n| |] eqn:Hv; simpl; [|done|].
  - apply tpm2b_validate_prefix_Ok in Hv as (xs & r & -> & _ & Hc).
    rewrite <-zlen_format. by rewrite (split_at_app _ _ _ Hc).
  - by apply tpm2b_validate_prefix_no_panic in Hv.
Qed.

Lemma tpm2b_data_format xs a :
  Tpm2b.data (mk_slice a (Tpm2b.format xs)) = Ok (mk_slice (a + 2) xs).
Proof using Type.
  unfold Tpm2b.data, Tpm2b.format. rewrite TPM2B_SIZE_LEN_eq.
  set (h := be_encode 2 (zlen xs)).
  assert (Hh : zlen h = 2) by (unfold zlen, h; by rewrite length_be_encode).
  rewrite <-Hh. apply slice_from_app. done.
Qed.
End tpm2b_lemmas.

(** ** Lemmas on the owned buffer *)

Section tpm_buffer_lemmas.
Variable CAPACITY : Z.
Hypothesis HC : 0 ≤ CAPACITY.
Local Abbreviation holds := (TpmBuffer.holds CAPACITY).

Lemma holds_deref b xs : holds b xs → TpmBuffer.deref b = xs.
Proof using Type.
  intros (Hs & Ha & _). unfold TpmBuffer.deref. rewrite Hs.
  by eapply arr_holds_deref.
Qed.

Lemma holds_inj b1 b2 xs : holds b1 xs → holds b2 xs → b1 = b2.
Proof using Type.
  destruct b1, b2; intros (H1 & [_ H2] & _) (H3 & [_ H4] & _); simpl in *; congruence.
Qed.

Lemma new_holds : holds (TpmBuffer.new CAPACITY) [].
Proof using HC.
  split_and!; [done | by apply arr_holds_uninit | done].
Qed.

Lemma try_push_spec b xs x :
  holds b xs →
  if decide (zlen xs < CAPACITY ∧ zlen xs < u16_max) then
    ∃ b', TpmBuffer.try_push CAPACITY x b = Ok b' ∧ holds b' (xs ++ [x])
  else
    TpmBuffer.try_push CAPACITY x b = Err (BufferOverflow (zlen xs) 1 (CAPACITY - zlen xs)).
Proof using Type.
  intros (Hs & Ha & Hx). unfold TpmBuffer.try_push; rewrite Hs.
  destruct Ha as [Hle Ha']. unfold saturating_sub.
  case_decide as Hd; (case_match eqn:Hc; [|]); try lia.
  - destruct (arr_holds_write (E:=TpmError) (TpmBuffer.data b) CAPACITY xs x)
      as (a' & Hw & Ha2); [done | lia |].
    rewrite Hw; simpl. eexists; split; [done|].
    split_and!; [|done|]; rewrite ?zlen_app; unfold zlen in *; simpl in *; lia.
  - do 2 f_equal; lia.
Qed.

Lemma try_extend_spec b xs ys :
  holds b xs → zlen ys ≤ isize_max →
  if decide (zlen xs + zlen ys ≤ CAPACITY `min` u16_max) then
    ∃ b', TpmBuffer.try_extend_from_slice CAPACITY ys b = Ok b' ∧ holds b' (xs ++ ys)
  else
    TpmBuffer.try_extend_from_slice CAPACITY ys b =
      Err (BufferOverflow (zlen xs) (zlen ys)
             ((if decide (zlen xs + zlen ys ≤ CAPACITY) then u16_max else CAPACITY) - zlen xs)).
Proof using Type.
  intros (Hs & Ha & Hx) Hys. unfold TpmBuffer.try_extend_from_slice; rewrite Hs.
  rewrite checked_add_Some by (unfold u16_max, isize_max, usize_max in *; lia); simpl.
  unfold saturating_sub. pose proof Ha as [Hle _].
  case_decide as Hd.
  - case_match; [lia|]. case_match; [lia|].
    destruct (arr_holds_write_all (E:=TpmError) (TpmBuffer.data b) CAPACITY xs ys)
      as (a' & Hw & Ha2); [done | lia |].
    rewrite Hw; simpl. eexists; split; [done|].
    split_and!; [|done|]; rewrite ?zlen_app; simpl; lia.
  - case_decide; (case_match; [|]); try lia; [|do 2 f_equal; lia].
    case_match; [|lia]. do 2 f_equal; lia.
Qed.

Lemma buffer_try_from_spec xs :
  zlen xs ≤ CAPACITY → zlen xs ≤ u16_max →
  ∃ b, TpmBuffer.try_from CAPACITY xs = Ok b ∧ holds b xs.
Proof using HC.
  intros H1 H2. pose proof (try_extend_spec _ [] xs new_holds) as H.
  change (zlen []) with 0 in H. simpl in H.
  rewrite decide_True in H by lia. apply H. unfold u16_max, isize_max in *; lia.
Qed.

Lemma buffer_wire_Some b bs :
  TpmBuffer.wire CAPACITY b = Some bs ↔ ∃ xs, holds b xs ∧ bs = Tpm2b.format xs.
Proof using Type.
  unfold TpmBuffer.wire, TpmBuffer.holds_dec. split.
  - case_match eqn:Hd; [|done]; intros [= <-]. exists (TpmBuffer.deref b).
    rewrite !andb_true_iff, bool_decide_eq_true in Hd.
    destruct Hd as [[[Hd ?] ?] ?].
    split; [|done]. split_and!; [lia | | lia]. split; [lia|]. exact Hd.
  - intros (xs & Hh & ->). pose proof (holds_deref _ _ Hh) as E. rewrite E.
    destruct Hh as (Hs & [? Ha] & ?).
    rewrite bool_decide_eq_true_2 by done.
    by rewrite !(proj2 (Z.leb_le _ _)), (proj2 (Z.eqb_eq _ _)) by lia.
Qed.

#[export] Instance buffer_codec_ok : CodecOk (TpmBuffer.codec CAPACITY).
Proof using HC.
  split; simpl.
  - unfold TpmBuffer.SIZE; simpl; unfold TpmInt.size; lia.
  - intros b bs (xs & (Hs & _ & _) & ->)%buffer_wire_Some.
    rewrite zlen_format. unfold TpmBuffer.len; simpl; unfold TpmInt.size; lia.
  - intros b bs (xs & (Hs & [? _] & _) & ->)%buffer_wire_Some.
    rewrite zlen_format. unfold TpmBuffer.SIZE; simpl; unfold TpmInt.size; lia.
  - intros b bs (xs & Hh & ->)%buffer_wire_Some.
    unfold TpmBuffer.marshal. rewrite (holds_deref _ _ Hh).
    destruct Hh as (-> & _ & Hx). apply writes_bind; [|apply writes_write_bytes].
    rewrite <-bytes_new; [apply writes_write_bytes|].
    pose proof (zlen_nonneg xs). unfold u16_max in *; simpl; lia.
  - intros b bs s r Hok (xs & Hh & ->)%buffer_wire_Some Hc.
    pose proof Hh as (_ & [? _] & ?). unfold TpmBuffer.unmarshal.
    rewrite (tpm2b_cast_prefix_format CAPACITY xs s r) by done; simpl.
    rewrite tpm2b_data_format; simpl.
    destruct (buffer_try_from_spec xs) as (b' & -> & Hb'); [done..|]. simpl.
    by rewrite (holds_inj b' b xs).
  - intros s v r Hok ([vw r'] & (xs & Hx & Hc & ->)%tpm2b_cast_prefix_Ok & Hu)%result_bind_Ok_inv.
    rewrite tpm2b_data_format in Hu; simpl in Hu.
    destruct (buffer_try_from_spec xs) as (b' & E & Hb'); [lia..|].
    rewrite E in Hu; simpl in Hu; injection Hu as <- <-.
    exists (Tpm2b.format xs); split; [|done]. apply buffer_wire_Some. by exists xs.
  - intros s Hok. apply result_bind_not_Panic; [apply tpm2b_cast_prefix_no_panic|].
    intros [vw r] (xs & Hx & Hc & ->)%tpm2b_cast_prefix_Ok.
    rewrite tpm2b_data_format; simpl.
    by destruct (buffer_try_from_spec xs) as (b' & -> & Hb'); [lia..|].
Qed.

#[export] Instance buffer_wire_ok : WireOk (TpmBuffer.wire_type CAPACITY).
Proof using HC.
  split; simpl.
  - apply _.
  - intros. by eapply sub_slice_trans.
  - intros s vw r Hok (xs & Hx & Hc & ->)%tpm2b_cast_prefix_Ok.
    destruct (buffer_try_from_spec xs) as (b & _ & Hb); [lia..|].
    assert (TpmBuffer.wire CAPACITY b = Some (Tpm2b.format xs)) as Hw
      by (apply buffer_wire_Some; by exists xs).
    exists b, (Tpm2b.format xs). split_and!; try done. apply sub_slice_refl.
  - intros b bs s r Hok (xs & Hh & ->)%buffer_wire_Some Hc.
    destruct Hh as (_ & [? _] & ?). eexists.
    by apply tpm2b_cast_prefix_format.
  - intros s _. apply tpm2b_cast_prefix_no_panic.
Qed.
End tpm_buffer_lemmas.

Lemma try_from_holds CAPACITY bs b :
  0 ≤ CAPACITY ≤ u16_max → TpmBuffer.try_from CAPACITY bs = Ok b → TpmBuffer.holds CAPACITY b bs.
Proof.
  intros Hc Hd. pose proof Hd as Hd'. unfold TpmBuffer.try_from in Hd'.
  assert (zlen bs ≤ CAPACITY) as Hl.
  { unfold TpmBuffer.try_extend_from_slice in Hd'. simpl in Hd'.
    destruct (checked_add 0 (zlen bs)) as [n|] eqn:Hn; [|done]. simpl in Hd'.
    apply checked_add_Some_inv in Hn as [-> _].
    destruct (CAPACITY <? _) eqn:E; [done|]. lia. }
  destruct (buffer_try_from_spec CAPACITY ltac:(lia) bs) as (b' & Hb & Hh); [lia..|].
  rewrite Hd in Hb. by injection Hb as ->.
Qed.

Lemma try_from_deref CAPACITY bs b :
  0 ≤ CAPACITY ≤ u16_max → TpmBuffer.try_from CAPACITY bs = Ok b → TpmBuffer.deref b = bs.
Proof. intros Hc Hd%try_from_holds; [|done]. by eapply holds_deref. Qed.
