(* ===== verification/Tpml.v ===== *)
(** TPML lists, [protocol/src/basic/list.rs]: the borrowed view
    [Tpml<CAPACITY>] with its iterator, and the owned [TpmList<T, CAPACITY>]. *)

From S2P Require Import Prelude Errors Writer Codec Integer.

Definition TPML_COUNT_LEN : Z := SIZE TpmUint32.

(** ** The borrowed view *)

Module Tpml.
Section header.
Variable CAPACITY : Z.

(** [u32::from_be_bytes([buf[0], buf[1], buf[2], buf[3]]) as usize] *)
Definition read_count (buf : slice) : TpmResult Z :=
  let? b0 := index buf 0 in
  let? b1 := index buf 1 in
  let? b2 := index buf 2 in
  let? b3 := index buf 3 in
  Ok (be_decode [b0; b1; b2; b3]).

Definition validate_header (buf : slice) : TpmResult Z :=
  if sl_len buf <? TPML_COUNT_LEN then
    Err (UnexpectedEnd 0 TPML_COUNT_LEN (sl_len buf))
  else
    let? item_count := read_count buf in
    if CAPACITY <? item_count then Err (TooManyItems 0 CAPACITY item_count)
    else Ok item_count.

Definition validate (buf : slice) : TpmResult () :=
  let? _ := validate_header buf in Ok ().

Definition cast (buf : slice) : TpmResult slice :=
  let? _ := validate buf in Ok buf.

Definition count (vw : slice) : TpmResult Z := read_count vw.
Definition items_bytes (vw : slice) : TpmResult slice := slice_from vw TPML_COUNT_LEN.
Definition is_empty (vw : slice) : TpmResult bool :=
  let? n := count vw in Ok (n =? 0).
End header.

Section typed.
Variable (T : WireType) (CAPACITY : Z).

(** The loop over the item area: [count] casts, each advancing [cursor]
    and adding the item's length to [consumed]. *)
Fixpoint walk (count : nat) (cursor : slice) (consumed : Z) : TpmResult Z :=
  match count with
  | O => Ok consumed
  | S n =>
      let before := sl_len cursor in
      let? (_, tail) := cast_prefix_field T cursor in
      let? item_len := ok_or (checked_sub before (sl_len tail))
                         (IntegerTooLarge consumed (tpm_value (sl_len tail))) in
      let? consumed' := ok_or (checked_add consumed item_len)
                          (IntegerTooLarge consumed (tpm_value before)) in
      walk n tail consumed'
  end.

Definition validate_prefix_items (buf : slice) : TpmResult Z :=
  let? count := validate_header CAPACITY buf in
  let? cursor := slice_from buf TPML_COUNT_LEN in
  walk (Z.to_nat count) cursor TPML_COUNT_LEN.

Definition validate_items (buf : slice) : TpmResult () :=
  let? wire_len := validate_prefix_items buf in
  if wire_len <? sl_len buf then
    let? extra := usub (sl_len buf) wire_len in Err (TrailingData wire_len extra)
  else Ok ().

Definition cast_items (buf : slice) : TpmResult slice :=
  let? _ := validate_items buf in Ok buf.

Definition cast_prefix_items (buf : slice) : TpmResult (slice * slice) :=
  let? wire_len := validate_prefix_items buf in
  if sl_len buf <? wire_len then Err (UnexpectedEnd 0 wire_len (sl_len buf))
  else
    let? (head, tail) := split_at buf wire_len in
    Ok (head, tail).

(** [TpmField for TpmList<T, CAPACITY>] *)
Definition cast_prefix_field (buf : slice) : TpmResult (slice * slice) :=
  let? count := validate_header CAPACITY buf in
  let? cursor := slice_from buf TPML_COUNT_LEN in
  let? consumed := walk (Z.to_nat count) cursor TPML_COUNT_LEN in
  let? (head, tail) := split_at buf consumed in
  Ok (head, tail).
End typed.

(** [TpmlIter]: [static_empty] is the address of the [&[]] an error leaves
    behind. *)
Section iter.
Variable (T : WireType) (static_empty : Z).

Record iter := mk_iter { buf : slice; remaining : Z }.

Definition items (vw : slice) : TpmResult iter :=
  let? b := items_bytes vw in
  let? n := count vw in
  Ok (mk_iter b n).

(** [Iterator::next], [Panic] standing for a panicking cast. *)
Definition next (it : iter) : option (TpmResult (View T)) * iter :=
  if remaining it =? 0 then (None, it)
  else
    let remaining' := remaining it - 1 in
    match Codec.cast_prefix_field T (buf it) with
    | Ok (item, tail) => (Some (Ok item), mk_iter tail remaining')
    | Err e => (Some (Err e), mk_iter (mk_slice static_empty []) 0)
    | Panic => (Some Panic, mk_iter (buf it) remaining')
    end.

(** At most [fuel] calls of [next], collecting the items. *)
Fixpoint collect (fuel : nat) (it : iter) : list (TpmResult (View T)) :=
  match fuel with
  | O => []
  | S fuel =>
      match next it with
      | (None, _) => []
      | (Some x, it') => x :: collect fuel it'
      end
  end.
End iter.
End Tpml.

(** ** The owned list *)

Module TpmList.
Record t (A : Type) := mk { items : list (option A); len : Z }.
Arguments mk {A}. Arguments items {A}. Arguments len {A}.

Section tpm_list.
Context {A : Type}.
Variable CAPACITY : Z.

Definition new : t A := mk (uninit CAPACITY) 0.
Definition is_empty (l : t A) : bool := len l =? 0.
(** [Deref]: the first [len] items. *)
Definition deref (l : t A) : list A := arr_deref (items l) (len l).

Definition try_push (item : A) (l : t A) : TpmResult (t A) :=
  if CAPACITY <=? len l then Err (TooManyItems 0 CAPACITY (len l + 1))
  else
    let? items' := arr_write (items l) (len l) item in
    Ok (mk items' (len l + 1)).

Definition try_extend_from_slice (xs : list A) (l : t A) : TpmResult (t A) :=
  let? new_len := ok_or (checked_add (len l) (zlen xs))
                    (TooManyItems 0 CAPACITY usize_max) in
  if CAPACITY <? new_len then Err (TooManyItems 0 CAPACITY new_len)
  else
    let? items' := arr_write_all (items l) (len l) xs in
    Ok (mk items' new_len).

(** The list's invariant: it holds exactly [xs]. *)
Definition holds (l : t A) (xs : list A) : Prop :=
  len l = zlen xs ∧ arr_holds (items l) CAPACITY xs.
End tpm_list.

Section codec.
Variable (T : Codec) (CAPACITY : Z).

Definition SIZE : Z := Codec.SIZE TpmUint32 + Codec.SIZE T * CAPACITY.
Definition wire_len (l : t (ty T)) : Z :=
  Codec.SIZE TpmUint32 + foldr Z.add 0 (map (Codec.len T) (deref l)).

Definition marshal (l : t (ty T)) : W () :=
  let! n := w_lift (ok_or (TpmInt.try_from 4 false (len l))
                      (IntegerTooLarge 0 (tpm_value (len l)))) in
  Codec.marshal TpmUint32 n ;!
  w_for (Codec.marshal T) (deref l).

Fixpoint unmarshal_items (count : nat) (l : t (ty T)) (cursor : slice)
    : TpmResult (t (ty T) * slice) :=
  match count with
  | O => Ok (l, cursor)
  | S n =>
      let? (item, tail) := Codec.unmarshal T cursor in
      let? l' := try_push CAPACITY item l in
      unmarshal_items n l' tail
  end.

Definition unmarshal (buffer : slice) : TpmResult (t (ty T) * slice) :=
  let? (count, cursor) := Codec.unmarshal TpmUint32 buffer in
  let count := TpmInt.value 4 false count in
  if CAPACITY <? count then Err (TooManyItems 0 CAPACITY count)
  else unmarshal_items (Z.to_nat count) (new CAPACITY) cursor.

(** Reference format: a 32-bit count and the items' encodings. *)
Definition format (bss : list (list byte)) : list byte :=
  be_encode 4 (zlen bss) ++ concat bss.

Definition wire (l : t (ty T)) : option (list byte) :=
  if (0 <=? len l) && (zlen (items l) =? CAPACITY) then
    xs ← arr_init (Z.to_nat (len l)) (items l);
    bss ← mapM (Codec.wire T) xs;
    Some (format bss)
  else None.

Definition wire_max : Z := Codec.SIZE TpmUint32 + Codec.wire_max T * CAPACITY.

Definition codec : Codec :=
  mk_codec (t (ty T)) SIZE wire_len marshal unmarshal wire wire_max.
End codec.

Definition wire_type (T : WireType) (CAPACITY : Z) : WireType :=
  slice_view (codec T CAPACITY) (Tpml.cast_prefix_field T CAPACITY).
End TpmList.

#[global] Instance TpmList_eq_dec {A} `{EqDecision A} : EqDecision (TpmList.t A).
Proof. solve_decision. Defined.

(** ** Lemmas: the count field *)

Lemma TPML_COUNT_LEN_eq : TPML_COUNT_LEN = 4.
Proof. done. Qed.

Lemma read_count_spec s :
  4 ≤ sl_len s → Tpml.read_count s = Ok (be_decode (take 4 (sl_data s))).
Proof.
  unfold Tpml.read_count, index, sl_len, zlen.
  destruct (sl_data s) as [|b0 [|b1 [|b2 [|b3 l]]]]; simpl; intros; try lia. done.
Qed.

Lemma validate_header_app CAPACITY n bs s r :
  0 ≤ n ≤ CAPACITY → n ≤ u32_max → consumes (be_encode 4 n ++ bs) s r →
  Tpml.validate_header CAPACITY s = Ok n ∧
  slice_from (E:=TpmError) s TPML_COUNT_LEN =
    Ok (mk_slice (sl_addr s + 4) (bs ++ sl_data r)).
Proof.
  intros Hn Hn' Hc. pose proof (consumes_len _ _ _ Hc) as Hl.
  rewrite zlen_app in Hl. unfold zlen at 1 in Hl. rewrite length_be_encode in Hl.
  pose proof (zlen_nonneg bs); pose proof (sl_len_nonneg r).
  destruct Hc as [Hd Ha]. split.
  - unfold Tpml.validate_header; rewrite TPML_COUNT_LEN_eq.
    case_match; [lia|]. rewrite read_count_spec by lia; simpl.
    rewrite Hd, <-app_assoc, take_app_le, take_ge by by rewrite length_be_encode.
    rewrite be_decode_encode by (unfold u32_max in *; simpl; lia).
    case_match; [lia | done].
  - assert (zlen (be_encode 4 n) = 4) as E by (unfold zlen; by rewrite length_be_encode).
    rewrite TPML_COUNT_LEN_eq, <-E at 1.
    apply slice_from_app. split; simpl; [by rewrite Hd, <-app_assoc | by rewrite E].
Qed.

Lemma validate_header_Ok CAPACITY s n :
  Tpml.validate_header CAPACITY s = Ok n →
  ∃ c, slice_from (E:=TpmError) s TPML_COUNT_LEN = Ok c ∧
       0 ≤ n ≤ CAPACITY ∧ n ≤ u32_max ∧ consumes (be_encode 4 n) s c.
Proof.
  unfold Tpml.validate_header, slice_from; rewrite TPML_COUNT_LEN_eq.
  case_match; [done|]. case_match; [|lia].
  rewrite read_count_spec by lia; simpl. case_match; [done|]. intros [= <-].
  assert (Hlen : length (take 4 (sl_data s)) = 4%nat)
    by (rewrite length_take; unfold sl_len, zlen in *; lia).
  pose proof (be_decode_bound (take 4 (sl_data s))) as Hb.
  unfold zlen in Hb; rewrite Hlen in Hb. change (2 ^ (8 * Z.of_nat 4)) with 4294967296 in Hb.
  eexists; split_and!; [done | lia | lia | unfold u32_max; lia |].
  rewrite be_encode_decode by done. split; [symmetry; apply take_drop|].
  unfold zlen; rewrite Hlen. done.
Qed.

Lemma validate_header_no_panic CAPACITY s : Tpml.validate_header CAPACITY s ≠ Panic.
Proof.
  unfold Tpml.validate_header; rewrite TPML_COUNT_LEN_eq.
  case_match; [done|]. rewrite read_count_spec by lia; simpl. by case_match.
Qed.

(** ** Lemmas: the item loop *)

Section walk_lemmas.
Context (T : WireType) `{!WireOk T}.

Abbreviation encodes vs bss := (Forall2 (λ v bs, wire T v = Some bs) vs bss).

Lemma walk_complete vs bss cursor r consumed :
  encodes vs bss → slice_ok cursor → consumes (concat bss) cursor r → 0 ≤ consumed →
  consumed + zlen (concat bss) ≤ usize_max →
  Tpml.walk T (length bss) cursor consumed = Ok (consumed + zlen (concat bss)).
Proof.
  intros H; revert cursor consumed; induction H as [|v bs vs bss Hv _ IH];
    intros cursor consumed Hok Hc H0 Hmax; simpl in *.
  { by rewrite Z.add_0_r. }
  rewrite zlen_app in *. pose proof (zlen_nonneg (concat bss)).
  set (mid := mk_slice (sl_addr cursor + zlen bs) (concat bss ++ sl_data r)).
  assert (consumes bs cursor mid) as Hc1.
  { destruct Hc as [Hd ?]; split; simpl; [by rewrite Hd, <-app_assoc | done]. }
  assert (consumes (concat bss) mid r) as Hc2.
  { destruct Hc as [? Ha]; split; simpl; [done|]. rewrite Ha, zlen_app; lia. }
  destruct (cast_complete v bs cursor mid Hok Hv Hc1) as [vw ->]; simpl.
  pose proof (consumes_len _ _ _ Hc1) as Hl. pose proof (zlen_nonneg bs).
  rewrite checked_sub_Some by lia; simpl.
  rewrite checked_add_Some by lia; simpl.
  rewrite IH; [f_equal; lia | by eapply consumes_slice_ok | done | lia | lia].
Qed.

Lemma walk_sound n cursor consumed m :
  slice_ok cursor → Tpml.walk T n cursor consumed = Ok m →
  ∃ vs bss r, encodes vs bss ∧ length bss = n ∧ consumes (concat bss) cursor r ∧
              m = consumed + zlen (concat bss).
Proof.
  revert cursor consumed; induction n as [|n IH]; intros cursor consumed Hok; simpl.
  - intros [= <-]. exists [], [], cursor. split_and!; try done.
    + apply consumes_refl.
    + simpl. by rewrite Z.add_0_r.
  - intros ([vw tail] & Hcast & Hw)%result_bind_Ok_inv.
    apply cast_sound in Hcast as (v & bs & Hv & Hc & _); [|done].
    apply result_bind_Ok_inv in Hw as (il & Hil%ok_or_Ok_inv%checked_sub_Some_inv & Hw).
    apply result_bind_Ok_inv in Hw as (c' & Hc'%ok_or_Ok_inv%checked_add_Some_inv & Hw).
    apply IH in Hw as (vs & bss & r & Hvs & Hl & Hc2 & ->);
      [|by eapply consumes_slice_ok].
    exists (v :: vs), (bs :: bss), r; simpl. split_and!.
    + by constructor.
    + lia.
    + by eapply consumes_trans.
    + rewrite zlen_app. pose proof (consumes_len _ _ _ Hc). lia.
Qed.

Lemma walk_no_panic n cursor consumed : slice_ok cursor → Tpml.walk T n cursor consumed ≠ Panic.
Proof.
  revert cursor consumed; induction n as [|n IH]; intros cursor consumed Hok; simpl; [done|].
  apply result_bind_not_Panic; [by apply cast_no_panic|]. intros [vw tail] Hcast.
  apply cast_sound in Hcast as (v & bs & _ & Hc & _); [|done].
  destruct (checked_sub _ _); simpl; [|done]. destruct (checked_add _ _); simpl; [|done].
  apply IH. by eapply consumes_slice_ok.
Qed.
End walk_lemmas.

(** ** Lemmas: the owned list *)

Section tpm_list_lemmas.
Context {A : Type}.
Variable CAPACITY : Z.
Hypothesis HC : 0 ≤ CAPACITY.
Implicit Types l : TpmList.t A.
Local Abbreviation holds := (TpmList.holds (A:=A) CAPACITY).

Lemma list_holds_deref l xs : holds l xs → TpmList.deref l = xs.
Proof using Type.
  intros [Hl Ha]. unfold TpmList.deref. rewrite Hl. by eapply arr_holds_deref.
Qed.

Lemma list_holds_inj l1 l2 xs : holds l1 xs → holds l2 xs → l1 = l2.
Proof using Type.
  destruct l1, l2; intros [H1 [_ H2]] [H3 [_ H4]]; simpl in *; congruence.
Qed.

Lemma list_new_holds : holds (TpmList.new CAPACITY) [].
Proof using HC. split; [done | by apply arr_holds_uninit]. Qed.

Lemma list_try_push_spec l xs x :
  holds l xs →
  if decide (zlen xs < CAPACITY) then
    ∃ l', TpmList.try_push CAPACITY x l = Ok l' ∧ holds l' (xs ++ [x])
  else TpmList.try_push CAPACITY x l = Err (TooManyItems 0 CAPACITY (zlen xs + 1)).
Proof using Type.
  intros [Hl Ha]. unfold TpmList.try_push; rewrite Hl.
  case_decide; (case_match; [|]); try lia; [|done].
  destruct (arr_holds_write (E:=TpmError) (TpmList.items l) CAPACITY xs x)
    as (a' & Hw & Ha2); [done | lia |].
  rewrite Hw; simpl. eexists; split; [done|].
  split; [rewrite zlen_app; unfold zlen; simpl; lia | done].
Qed.

Lemma list_try_extend_spec l xs ys :
  holds l xs → zlen xs + zlen ys ≤ usize_max →
  if decide (zlen xs + zlen ys ≤ CAPACITY) then
    ∃ l', TpmList.try_extend_from_slice CAPACITY ys l = Ok l' ∧ holds l' (xs ++ ys)
  else TpmList.try_extend_from_slice CAPACITY ys l
       = Err (TooManyItems 0 CAPACITY (zlen xs + zlen ys)).
Proof using Type.
  intros [Hl Ha] Hmax. unfold TpmList.try_extend_from_slice; rewrite Hl.
  rewrite checked_add_Some by done; simpl.
  case_decide; (case_match; [|]); try lia; [|done].
  destruct (arr_holds_write_all (E:=TpmError) (TpmList.items l) CAPACITY xs ys)
    as (a' & Hw & Ha2); [done | lia |].
  rewrite Hw; simpl. eexists; split; [done|]. split; [by rewrite zlen_app | done].
Qed.
End tpm_list_lemmas.

Section list_codec_lemmas.
Context (T : Codec) `{!CodecOk T}.
Variable CAPACITY : Z.
Hypothesis HC : 0 ≤ CAPACITY ≤ u32_max.
Local Abbreviation holds := (TpmList.holds (A:=ty T) CAPACITY).
Local Abbreviation encodes vs bss := (Forall2 (λ v bs, wire T v = Some bs) vs bss).

Lemma list_wire_Some l bs :
  TpmList.wire T CAPACITY l = Some bs ↔
  ∃ vs bss, holds l vs ∧ encodes vs bss ∧ bs = TpmList.format bss.
Proof using HC.
  unfold TpmList.wire, TpmList.holds. split.
  - case_match eqn:Hb; [|done]. rewrite andb_true_iff in Hb. destruct Hb as [? Hl].
    intros (vs & Hi & Hm)%bind_Some.
    apply bind_Some in Hm as (bss & Hm%mapM_Some & [= <-]).
    assert (TpmList.len l = zlen vs) as E.
    { apply arr_init_Some in Hi as [Hv _]. unfold zlen; lia. }
    exists vs, bss. split_and!; try done.
    apply arr_holds_init; [lia|]. rewrite <-E. split; [done | lia].
  - intros (vs & bss & [Hl Ha] & Hm & ->).
    apply arr_holds_init in Ha as [Hi Hz]; [|lia].
    pose proof (zlen_nonneg vs).
    rewrite Hl, Hz, Z.eqb_refl, (proj2 (Z.leb_le _ _)) by lia; simpl.
    rewrite Hi; simpl. by rewrite (proj2 (mapM_Some _ _ _) Hm).
Qed.

Lemma encodes_len vs bss :
  encodes vs bss → foldr Z.add 0 (map (Codec.len T) vs) = zlen (concat bss).
Proof using CodecOk0.
  induction 1 as [|v bs vs bss Hv _ IH]; simpl; [done|].
  rewrite zlen_app, IH. by rewrite (wire_len v bs Hv).
Qed.

Lemma encodes_max vs bss : encodes vs bss → zlen (concat bss) ≤ wire_max T * zlen bss.
Proof using CodecOk0.
  induction 1 as [|v bs vs bss Hv _ IH]; simpl; [unfold zlen; simpl; lia|].
  rewrite zlen_app. apply wire_max_le in Hv. unfold zlen in *; simpl. lia.
Qed.

Lemma encodes_length vs bss : encodes vs bss → zlen bss = zlen vs.
Proof using Type. intros H%Forall2_length. unfold zlen; lia. Qed.

Lemma zlen_list_format bss : zlen (TpmList.format bss) = 4 + zlen (concat bss).
Proof using Type.
  unfold TpmList.format; rewrite zlen_app. unfold zlen at 1. by rewrite length_be_encode.
Qed.

Lemma unmarshal_items_complete vs bss xs l cursor r :
  encodes vs bss → holds l xs → slice_ok cursor → consumes (concat bss) cursor r →
  zlen xs + zlen vs ≤ CAPACITY →
  ∃ l', TpmList.unmarshal_items T CAPACITY (length vs) l cursor = Ok (l', r) ∧
        holds l' (xs ++ vs).
Proof using CodecOk0.
  intros H; revert xs l cursor; induction H as [|v bs vs bss Hv _ IH];
    intros xs l cursor Hh Hok Hc Hle; simpl in *.
  { exists l. rewrite app_nil_r. split; [|done].
    by rewrite (consumes_det _ _ _ _ (consumes_refl cursor) Hc). }
  set (mid := mk_slice (sl_addr cursor + zlen bs) (concat bss ++ sl_data r)).
  assert (consumes bs cursor mid) as Hc1.
  { destruct Hc as [Hd ?]; split; simpl; [by rewrite Hd, <-app_assoc | done]. }
  assert (consumes (concat bss) mid r) as Hc2.
  { destruct Hc as [? Ha]; split; simpl; [done|]. rewrite Ha, zlen_app; lia. }
  rewrite (unmarshal_wire v bs cursor mid) by done; simpl.
  pose proof (list_try_push_spec CAPACITY l xs v Hh) as Hp.
  rewrite decide_True in Hp by (unfold zlen in *; simpl in *; lia).
  destruct Hp as (l1 & -> & Hh1); simpl.
  destruct (IH (xs ++ [v]) l1 mid) as (l' & Hl' & Hh'); try done.
  { by eapply consumes_slice_ok. }
  { rewrite zlen_app. unfold zlen in *; simpl in *; lia. }
  exists l'. split; [done|]. by rewrite <-app_assoc in Hh'.
Qed.

Lemma unmarshal_items_sound n xs l s l' r :
  holds l xs → slice_ok s → zlen xs + Z.of_nat n ≤ CAPACITY →
  TpmList.unmarshal_items T CAPACITY n l s = Ok (l', r) →
  ∃ vs bss, length vs = n ∧ encodes vs bss ∧ consumes (concat bss) s r ∧
            holds l' (xs ++ vs).
Proof using CodecOk0.
  revert xs l s; induction n as [|n IH]; intros xs l s Hh Hok Hle; simpl.
  - intros [= <- <-]. exists [], []. rewrite app_nil_r.
    split_and!; try done. apply consumes_refl.
  - intros ([v tail] & Hu & Hw)%result_bind_Ok_inv.
    apply unmarshal_sound in Hu as (bs & Hv & Hc); [|done].
    pose proof (list_try_push_spec CAPACITY l xs v Hh) as Hp.
    rewrite decide_True in Hp by lia. destruct Hp as (l1 & E & Hh1).
    rewrite E in Hw; simpl in Hw.
    apply (IH (xs ++ [v])) in Hw as (vs & bss & Hn & Henc & Hc2 & Hh2); [|done| |].
    + exists (v :: vs), (bs :: bss); simpl. split_and!.
      * lia.
      * by constructor.
      * by eapply consumes_trans.
      * by rewrite <-app_assoc in Hh2.
    + by eapply consumes_slice_ok.
    + rewrite zlen_app. unfold zlen in *; simpl; lia.
Qed.

Lemma unmarshal_items_no_panic n xs l s :
  holds l xs → slice_ok s → TpmList.unmarshal_items T CAPACITY n l s ≠ Panic.
Proof using CodecOk0.
  revert xs l s; induction n as [|n IH]; intros xs l s Hh Hok; simpl; [done|].
  apply result_bind_not_Panic; [by apply unmarshal_no_panic|]. intros [v tail] Hu.
  apply unmarshal_sound in Hu as (bs & _ & Hc); [|done].
  pose proof (list_try_push_spec CAPACITY l xs v Hh) as Hp.
  case_decide; [destruct Hp as (l1 & -> & Hh1) | by rewrite Hp]; simpl.
  eapply IH; [done | by eapply consumes_slice_ok].
Qed.

Lemma list_count_new n :
  0 ≤ n ≤ u32_max → TpmInt.bytes (TpmInt.new 4 n) = be_encode 4 n.
Proof using Type.
  intros. apply bytes_new. unfold u32_max in *; simpl; lia.
Qed.

Lemma list_count_unmarshal n bs s r :
  slice_ok s → 0 ≤ n ≤ u32_max → consumes (be_encode 4 n ++ bs) s r →
  ∃ mid, unmarshal TpmUint32 s = Ok (TpmInt.new 4 n, mid) ∧ consumes bs mid r ∧ slice_ok mid.
Proof using Type.
  intros Hok Hn [Hd Ha].
  set (mid := mk_slice (sl_addr s + 4) (bs ++ sl_data r)).
  assert (consumes (be_encode 4 n) s mid) as Hc.
  { split; simpl; [by rewrite Hd, <-app_assoc|]. unfold zlen; by rewrite length_be_encode. }
  exists mid. split_and!.
  - apply (unmarshal_wire (c:=TpmUint32) _ (be_encode 4 n)); [done | | done].
    rewrite <-list_count_new by done. apply int_wire_new.
  - split; simpl; [done|]. rewrite Ha, zlen_app. unfold zlen at 1.
    rewrite length_be_encode; simpl; lia.
  - by eapply consumes_slice_ok.
Qed.

Lemma list_unmarshal_complete l bs s r :
  slice_ok s → TpmList.wire T CAPACITY l = Some bs → consumes bs s r →
  TpmList.unmarshal T CAPACITY s = Ok (l, r).
Proof using CodecOk0 HC.
  intros Hok (vs & bss & Hh & He & ->)%list_wire_Some Hc.
  pose proof (encodes_length _ _ He) as El. destruct (Hh) as [_ [Hle _]].
  pose proof (zlen_nonneg vs). unfold TpmList.format in Hc; rewrite El in Hc.
  destruct (list_count_unmarshal (zlen vs) (concat bss) s r Hok ltac:(lia) Hc) as (mid & Hu & Hc2 & Hok2).
  unfold TpmList.unmarshal. rewrite Hu; simpl.
  rewrite value_new by (lia || apply in_range_u32; lia).
  case_match; [lia|].
  destruct (unmarshal_items_complete vs bss [] (TpmList.new CAPACITY) mid r)
    as (l' & Hl' & Hh'); try done.
  { apply list_new_holds; lia. }
  unfold zlen at 1; rewrite Nat2Z.id, Hl'. by rewrite (list_holds_inj CAPACITY l' l vs).
Qed.

Lemma list_unmarshal_sound s l r :
  slice_ok s → TpmList.unmarshal T CAPACITY s = Ok (l, r) →
  ∃ bs, TpmList.wire T CAPACITY l = Some bs ∧ consumes bs s r.
Proof using CodecOk0 HC.
  intros Hok ([c mid] & Hu & Hi)%result_bind_Ok_inv.
  apply unmarshal_sound in Hu as (bs & Hb & Hc); [|done].
  simpl in Hb; apply int_wire_Some in Hb as [-> Hl].
  pose proof (value_in_range 4 false ltac:(lia) c Hl) as Hr.
  apply in_range_u32_inv in Hr.
  simpl in Hi. destruct (CAPACITY <? _) eqn:Hcap; [done|].
  apply (unmarshal_items_sound _ []) in Hi as (vs & bss & Hn & He & Hc2 & Hh).
  - exists (TpmInt.bytes c ++ concat bss). split; [|by eapply consumes_trans].
    apply list_wire_Some. exists vs, bss. split_and!; [done..|].
    unfold TpmList.format. f_equal.
    replace (zlen bss) with (TpmInt.value 4 false c)
      by (rewrite (encodes_length _ _ He); unfold zlen; lia).
    rewrite <-list_count_new by lia. by rewrite new_value by (done || lia).
  - apply list_new_holds; lia.
  - by eapply consumes_slice_ok.
  - change (zlen []) with 0. lia.
Qed.

#[export] Instance list_codec_ok : CodecOk (TpmList.codec T CAPACITY).
Proof using CodecOk0 HC.
  pose proof (wire_max_bounds (c:=T)) as HS.
  split; simpl.
  - unfold TpmList.SIZE, TpmList.wire_max; simpl; unfold TpmInt.size; nia.
  - intros l bs (vs & bss & Hh & He & ->)%list_wire_Some.
    unfold TpmList.wire_len. rewrite (list_holds_deref _ _ _ Hh).
    by rewrite (encodes_len _ _ He), zlen_list_format.
  - intros l bs (vs & bss & Hh & He & ->)%list_wire_Some.
    rewrite zlen_list_format. pose proof (encodes_max _ _ He).
    pose proof (encodes_length _ _ He). destruct Hh as [_ [? _]].
    unfold TpmList.wire_max; simpl; unfold TpmInt.size. nia.
  - intros l bs (vs & bss & Hh & He & ->)%list_wire_Some.
    unfold TpmList.marshal. rewrite (list_holds_deref _ _ _ Hh).
    destruct Hh as [-> [Hle _]]. pose proof (zlen_nonneg vs).
    eapply writes_lift_bind.
    + by rewrite int_try_from_spec, decide_True by (apply in_range_u32; lia).
    + unfold TpmList.format. rewrite (encodes_length _ _ He).
      apply writes_bind.
      * rewrite <-list_count_new by lia. apply writes_write_bytes.
      * apply writes_for. eapply Forall2_impl; [|exact He]. intros v bs. apply marshal_wire.
  - exact list_unmarshal_complete.
  - exact list_unmarshal_sound.
  - intros s Hok. apply result_bind_not_Panic; [by apply unmarshal_no_panic|].
    intros [c mid] Hu. apply unmarshal_sound in Hu as (bs & _ & Hc); [|done].
    simpl. destruct (CAPACITY <? _); [done|]. eapply unmarshal_items_no_panic; [by apply list_new_holds; lia|].
    by eapply consumes_slice_ok.
Qed.
End list_codec_lemmas.

Section list_wire_lemmas.
Context (T : WireType) `{!WireOk T}.
Variable CAPACITY : Z.
Hypothesis HC : 0 ≤ CAPACITY ≤ u32_max.

Local Abbreviation encodes vs bss := (Forall2 (λ v bs, wire T v = Some bs) vs bss).

Lemma list_cast_complete vs bss s r :
  zlen vs ≤ CAPACITY → slice_ok s →
  Forall2 (λ v bs, wire T v = Some bs) vs bss →
  consumes (TpmList.format bss) s r →
  Tpml.cast_prefix_field T CAPACITY s =
    Ok (mk_slice (sl_addr s) (TpmList.format bss), r).
Proof using WireOk0 HC.
  intros Hv Hok He Hc. pose proof (encodes_length T _ _ He) as El.
  pose proof (zlen_nonneg vs). unfold Tpml.cast_prefix_field.
  pose proof (consumes_len _ _ _ Hc) as Hl. rewrite zlen_list_format in Hl.
  pose proof Hok as (? & ? & ?). pose proof (sl_len_nonneg r).
  pose proof (zlen_nonneg (concat bss)).
  unfold TpmList.format in Hc; rewrite El in Hc.
  destruct (validate_header_app CAPACITY (zlen vs) (concat bss) s r) as [-> ->];
    [lia | lia | done |]; simpl.
  replace (Z.to_nat (zlen vs)) with (length bss) by (unfold zlen in *; lia).
  rewrite (walk_complete T vs bss _ r); try done.
  - simpl. rewrite TPML_COUNT_LEN_eq, <-zlen_list_format.
    unfold TpmList.format; rewrite El. by rewrite (split_at_app _ _ _ Hc).
  - unfold slice_ok, sl_len in *; simpl.
    rewrite zlen_app. unfold sl_len in *. lia.
  - split; simpl; [done|]. destruct Hc as [_ ->]. rewrite zlen_app.
    unfold zlen at 1; rewrite length_be_encode; simpl; lia.
  - rewrite TPML_COUNT_LEN_eq. unfold sl_len, isize_max, usize_max in *; lia.
Qed.

Lemma validate_prefix_items_sound s m :
  slice_ok s → Tpml.validate_prefix_items T CAPACITY s = Ok m →
  ∃ vs bss r, zlen vs ≤ CAPACITY ∧ encodes vs bss ∧ consumes (TpmList.format bss) s r ∧
    m = zlen (TpmList.format bss).
Proof using WireOk0 HC.
  intros Hok. unfold Tpml.validate_prefix_items.
  intros (n & (c & Hsl & Hn & Hn' & Hc)%validate_header_Ok & Hw)%result_bind_Ok_inv.
  rewrite Hsl in Hw; simpl in Hw.
  apply walk_sound in Hw as (vs & bss & r & He & Hl & Hc2 & ->);
    [|done|by eapply consumes_slice_ok].
  pose proof (encodes_length T _ _ He) as El.
  exists vs, bss, r. split_and!; [unfold zlen in *; lia | done | |].
  - unfold TpmList.format. replace (zlen bss) with n by (unfold zlen; lia).
    by eapply consumes_trans.
  - by rewrite TPML_COUNT_LEN_eq, zlen_list_format.
Qed.

Lemma cast_prefix_field_eq s :
  Tpml.cast_prefix_field T CAPACITY s =
  (let? m := Tpml.validate_prefix_items T CAPACITY s in split_at s m).
Proof using Type.
  unfold Tpml.cast_prefix_field, Tpml.validate_prefix_items.
  destruct (Tpml.validate_header CAPACITY s); [|done|done]. simpl.
  destruct (slice_from s TPML_COUNT_LEN); [|done|done]. simpl.
  destruct (Tpml.walk _ _ _ _); [|done|done]. simpl.
  by destruct (split_at s _) as [[]| |].
Qed.

Lemma list_cast_sound s vw r :
  slice_ok s → Tpml.cast_prefix_field T CAPACITY s = Ok (vw, r) →
  ∃ vs bss, zlen vs ≤ CAPACITY ∧ encodes vs bss ∧
    consumes (TpmList.format bss) s r ∧ vw = mk_slice (sl_addr s) (TpmList.format bss).
Proof using WireOk0 HC.
  intros Hok. rewrite cast_prefix_field_eq.
  intros (m & Hm & Hs)%result_bind_Ok_inv.
  apply validate_prefix_items_sound in Hm as (vs & bss & r' & Hv & He & Hc & ->); [|done].
  rewrite (split_at_app _ _ _ Hc) in Hs. injection Hs as <- <-. by exists vs, bss.
Qed.

(** [cast_items] accepts exactly one whole encoding, and its view is the
    slice itself. *)
Lemma cast_items_sound s vw :
  slice_ok s → Tpml.cast_items T CAPACITY s = Ok vw →
  vw = s ∧ ∃ vs bss, zlen vs ≤ CAPACITY ∧ encodes vs bss ∧ sl_data s = TpmList.format bss.
Proof using WireOk0 HC.
  intros Hok. unfold Tpml.cast_items, Tpml.validate_items.
  intros (u & (m & Hm & Ht)%result_bind_Ok_inv & [= <-])%result_bind_Ok_inv.
  split; [done|].
  apply validate_prefix_items_sound in Hm as (vs & bss & r & Hv & He & Hc & ->); [|done].
  pose proof (consumes_len _ _ _ Hc) as Hl. pose proof (sl_len_nonneg r).
  assert (sl_len r = 0) as Hr.
  { destruct (Z.ltb_spec (zlen (TpmList.format bss)) (sl_len s)); [|lia].
    rewrite usub_Ok in Ht by lia. done. }
  exists vs, bss. split_and!; [done..|]. destruct Hc as [-> _].
  unfold sl_len, zlen in Hr. by rewrite (nil_length_inv (sl_data r)), app_nil_r by lia.
Qed.

(** Iterating over an item area yields the views of its items, in order,
    and then stops. *)
Lemma collect_complete static_empty vs bss cursor r :
  encodes vs bss → slice_ok cursor → consumes (concat bss) cursor r →
  ∃ views, Forall2 (view_of T) views vs ∧
    ∀ fuel, (length vs ≤ fuel)%nat →
      Tpml.collect T static_empty fuel (Tpml.mk_iter cursor (zlen vs)) = map Ok views.
Proof using WireOk0.
  intros H; revert cursor; induction H as [|v bs vs bss Hv _ IH]; intros cursor Hok Hc.
  { exists []. split; [done|]. by intros []. }
  set (mid := mk_slice (sl_addr cursor + zlen bs) (concat bss ++ sl_data r)).
  assert (consumes bs cursor mid) as Hc1.
  { destruct Hc as [Hd ?]; split; simpl; [by rewrite Hd; simpl; rewrite <-app_assoc | done]. }
  assert (consumes (concat bss) mid r) as Hc2.
  { destruct Hc as [? Ha]; split; simpl; [done|]. rewrite Ha; simpl; rewrite zlen_app; lia. }
  destruct (cast_view T v bs cursor mid Hok Hv Hc1) as (vw & Hvw & Hview & _).
  destruct (IH mid) as (views & HF & Hcol); [by eapply consumes_slice_ok | done |].
  exists (vw :: views). split; [by constructor|].
  intros [|fuel] Hf; simpl in *; [lia|]. unfold Tpml.next; simpl.
  destruct (Z.eqb_spec (zlen (v :: vs)) 0) as [E|_]; [unfold zlen in E; simpl in E; lia|].
  rewrite Hvw; simpl. replace (zlen (v :: vs) - 1) with (zlen vs)
    by (unfold zlen; simpl; lia). by rewrite Hcol by lia.
Qed.

Lemma list_holds_exists {A} (vs : list A) :
  zlen vs ≤ CAPACITY → ∃ l, TpmList.holds CAPACITY l vs.
Proof using HC.
  intros Hle. pose proof (list_new_holds (A:=A) CAPACITY ltac:(lia)) as Hn.
  pose proof (list_try_extend_spec CAPACITY _ [] vs Hn) as H.
  change (zlen []) with 0 in H.
  rewrite decide_True in H by lia. destruct H as (l' & _ & Hh); [|by exists l'].
  unfold u32_max, usize_max in *; lia.
Qed.

#[export] Instance list_wire_ok : WireOk (TpmList.wire_type T CAPACITY).
Proof using WireOk0 HC.
  split; simpl.
  - by apply list_codec_ok; [apply _|].
  - intros. by eapply sub_slice_trans.
  - intros s vw r Hok (vs & bss & Hv & He & Hc & ->)%list_cast_sound; [|done].
    destruct (list_holds_exists vs Hv) as [l Hh].
    assert (TpmList.wire T CAPACITY l = Some (TpmList.format bss)) as Hw.
    { apply list_wire_Some; [done|]. by exists vs, bss. }
    exists l, (TpmList.format bss). split_and!; try done. apply sub_slice_refl.
  - intros l bs s r Hok (vs & bss & [_ [Hle _]] & He & ->)%list_wire_Some Hc; [|done].
    eexists. by eapply list_cast_complete.
  - intros s Hok. unfold Tpml.cast_prefix_field.
    apply result_bind_not_Panic; [apply validate_header_no_panic|].
    intros n (c & -> & Hn & Hn' & Hc)%validate_header_Ok; simpl.
    pose proof (consumes_slice_ok _ _ _ Hc Hok) as Hok'.
    apply result_bind_not_Panic; [by apply walk_no_panic|]. intros m Hw.
    apply walk_sound in Hw as (vs & bss & r' & He & Hl & Hc2 & ->); [|done|done].
    pose proof (consumes_len _ _ _ Hc) as L1. pose proof (consumes_len _ _ _ Hc2) as L2.
    pose proof (sl_len_nonneg r'). unfold zlen at 1 in L1.
    rewrite length_be_encode in L1. rewrite TPML_COUNT_LEN_eq.
    apply result_bind_not_Panic; [apply split_at_not_Panic; lia|]. by intros [? ?].
Qed.
End list_wire_lemmas.
