(* ===== verification/Struct.v ===== *)
(** The structure macros of [protocol/src/macro/struct.rs] and of
    [protocol/src/data/tpmt.rs]: [tpm_struct!] (wire form), [tpm2b_struct!]
    and [tpm_struct_tagged!].  A macro is a function from the fields it is
    applied to, to the operations it generates; each is proved once. *)

From S2P Require Import Prelude Errors Writer Codec Integer Buffer.

(** ** Field sequences *)

Abbreviation fields := (list (string * Codec)).
Abbreviation wire_fields := (list (string * WireType)).

(** The owned fields of a list of borrowable ones. *)
Definition owned (fs : wire_fields) : fields := map (λ f, (f.1, codec f.2)) fs.

Fixpoint fields_ty (fs : fields) : Type :=
  match fs with
  | [] => unit
  | f :: fs => (ty f.2 * fields_ty fs)%type
  end.

(** [0 $(+ <$field_type>::SIZE)*] *)
Fixpoint fields_SIZE (fs : fields) : Z :=
  match fs with
  | [] => 0
  | f :: fs => SIZE f.2 + fields_SIZE fs
  end.

(** [0 $(+ TpmSized::len(&self.$field_name))*] *)
Fixpoint fields_len (fs : fields) : fields_ty fs → Z :=
  match fs with
  | [] => λ _, 0
  | f :: fs => λ '(v, vs), len f.2 v + fields_len fs vs
  end.

(** [$(TpmMarshal::marshal(&self.$field_name, writer)?;)* Ok(())] *)
Fixpoint marshal_fields (fs : fields) : fields_ty fs → W () :=
  match fs with
  | [] => λ _, w_ret ()
  | f :: fs => λ '(v, vs), marshal f.2 v ;! marshal_fields fs vs
  end.

(** The generated [unmarshal]: every field error is rebased by the number of
    bytes of [start] consumed before the field. *)
Fixpoint unmarshal_fields (fs : fields) (start buffer : slice)
    : TpmResult (fields_ty fs * slice) :=
  match fs with
  | [] => Ok ((), buffer)
  | f :: fs =>
      let? offset := usub (sl_len start) (sl_len buffer) in
      let? (v, buffer) := map_err (rebase offset) (unmarshal f.2 buffer) in
      let? (vs, buffer) := unmarshal_fields fs start buffer in
      Ok ((v, vs), buffer)
  end.

(** The longest encoding of the fields. *)
Fixpoint fields_max (fs : fields) : Z :=
  match fs with
  | [] => 0
  | f :: fs => wire_max f.2 + fields_max fs
  end.

Fixpoint fields_wire (fs : fields) : fields_ty fs → option (list byte) :=
  match fs with
  | [] => λ _, Some []
  | f :: fs => λ '(v, vs),
      bs ← wire f.2 v; bs' ← fields_wire fs vs; Some (bs ++ bs')
  end.

(** The generated [validate_prefix]: casts every field, adding up lengths. *)
Fixpoint validate_fields (fs : wire_fields) (cursor : slice) (consumed : Z) : TpmResult Z :=
  match fs with
  | [] => Ok consumed
  | f :: fs =>
      let before := sl_len cursor in
      let? (_, tail) := cast_prefix_field f.2 cursor in
      let? field_len := ok_or (checked_sub before (sl_len tail))
                          (IntegerTooLarge consumed (tpm_value (sl_len tail))) in
      let? consumed' := ok_or (checked_add consumed field_len)
                          (IntegerTooLarge consumed (tpm_value before)) in
      validate_fields fs tail consumed'
  end.

(** ** [tpm_struct!], wire form *)

Module TpmStruct.
Section tpm_struct.
Variable fs : wire_fields.

Definition codec : Codec := mk_codec
  (fields_ty (owned fs)) (fields_SIZE (owned fs)) (fields_len (owned fs))
  (marshal_fields (owned fs))
  (λ buffer, unmarshal_fields (owned fs) buffer buffer)
  (fields_wire (owned fs)) (fields_max (owned fs)).

Definition validate_prefix (buf : slice) : TpmResult Z := validate_fields fs buf 0.

Definition validate (buf : slice) : TpmResult () :=
  let? wire_len := validate_prefix buf in
  if wire_len <? sl_len buf then
    let? extra := usub (sl_len buf) wire_len in Err (TrailingData wire_len extra)
  else Ok ().

Definition cast (buf : slice) : TpmResult slice :=
  let? _ := validate buf in Ok buf.

Definition cast_prefix (buf : slice) : TpmResult (slice * slice) :=
  let? wire_len := validate_prefix buf in
  if sl_len buf <? wire_len then Err (UnexpectedEnd 0 wire_len (sl_len buf))
  else
    let? (head, tail) := split_at buf wire_len in
    Ok (head, tail).

Definition wire_type : WireType := slice_view codec cast_prefix.
End tpm_struct.

(** [@wire_field_methods]: casts the preceding fields, then the field. *)
Fixpoint field (prev : wire_fields) (f : WireType) (cursor : slice) : TpmResult (View f) :=
  match prev with
  | [] => let? (value, _) := cast_prefix_field f cursor in Ok value
  | p :: prev => let? (_, tail) := cast_prefix_field p.2 cursor in field prev f tail
  end.
End TpmStruct.

Definition tpm_struct (fs : wire_fields) : WireType := TpmStruct.wire_type fs.

(** ** [tpm2b_struct!] *)

Module Tpm2bStruct.
Record t (A : Type) := mk { inner : A }.
Arguments mk {A}. Arguments inner {A}.

Section owned.
Variable I : Codec.

Definition SIZE : Z := Codec.SIZE TpmUint16 + Codec.SIZE I.
Definition len (v : t (ty I)) : Z := Codec.SIZE TpmUint16 + Codec.len I (inner v).

Definition marshal (v : t (ty I)) : W () :=
  let inner_len := Codec.len I (inner v) in
  let! at_ := w_len in
  let! len_field := w_lift (ok_or (TpmInt.try_from 2 false inner_len)
                              (IntegerTooLarge at_ (tpm_value inner_len))) in
  Codec.marshal TpmUint16 len_field ;!
  Codec.marshal I (inner v).

Definition unmarshal (buffer : slice) : TpmResult (t (ty I) * slice) :=
  let? (size, buffer) := Codec.unmarshal TpmUint16 buffer in
  let size := TpmInt.value 2 false size in
  if Codec.SIZE I <? size then
    Err (TooManyBytes (Codec.SIZE TpmUint16) (Codec.SIZE I) size)
  else if sl_len buffer <? size then
    Err (UnexpectedEnd (Codec.SIZE TpmUint16) size (sl_len buffer))
  else
    let? (inner_buffer, remainder) := split_at buffer size in
    let? (inner, tail) := map_err (rebase (Codec.SIZE TpmUint16))
                            (Codec.unmarshal I inner_buffer) in
    if negb (sl_is_empty tail) then
      Err (TrailingData (Codec.SIZE TpmUint16 + saturating_sub size (sl_len tail))
             (sl_len tail))
    else Ok (mk inner, remainder).

Definition wire (v : t (ty I)) : option (list byte) :=
  bs ← Codec.wire I (inner v);
  if zlen bs <=? u16_max then Some (Tpm2b.format bs) else None.

Definition codec : Codec := mk_codec (t (ty I)) SIZE len marshal unmarshal wire
  (Codec.SIZE TpmUint16 + Codec.wire_max I).
End owned.

Section borrowed.
Variable I : WireType.

Definition validate_prefix (buf : slice) : TpmResult Z :=
  let? (size_field, payload) := cast_prefix_field TpmUint16 buf in
  let payload_len := TpmInt.view_value 2 false size_field in
  if Codec.SIZE I <? payload_len then
    Err (TooManyBytes (tpm_offset buf payload) (Codec.SIZE I) payload_len)
  else if sl_len payload <? payload_len then
    Err (UnexpectedEnd (tpm_offset buf payload) payload_len (sl_len payload))
  else
    let? (inner_bytes, _) := split_at payload payload_len in
    let? (_, tail) := cast_prefix_field I inner_bytes in
    if negb (sl_is_empty tail) then
      Err (TrailingData (tpm_offset buf tail) (sl_len tail))
    else Ok (Codec.SIZE TpmUint16 + payload_len).

Definition validate (buf : slice) : TpmResult () :=
  let? wire_len := validate_prefix buf in
  if wire_len <? sl_len buf then
    let? extra := usub (sl_len buf) wire_len in Err (TrailingData wire_len extra)
  else Ok ().

Definition cast (buf : slice) : TpmResult slice :=
  let? _ := validate buf in Ok buf.

Definition cast_prefix (buf : slice) : TpmResult (slice * slice) :=
  let? wire_len := validate_prefix buf in
  let? (head, tail) := split_at buf wire_len in
  Ok (head, tail).

(** The [inner] accessor of the view. *)
Definition inner_view (vw : slice) : TpmResult (View I) :=
  let? inner_bytes := slice_from vw (Codec.SIZE TpmUint16) in
  let? (inner, tail) := cast_prefix_field I inner_bytes in
  if negb (sl_is_empty tail) then
    Err (TrailingData (tpm_offset vw tail) (sl_len tail))
  else Ok inner.

Definition wire_type : WireType := slice_view (codec I) cast_prefix.
End borrowed.
End Tpm2bStruct.

Definition tpm2b_struct (I : WireType) : WireType := Tpm2bStruct.wire_type I.

(** ** [tpm_struct_tagged!] *)

Module TaggedStruct.
Record t (Tag A : Type) := mk { tag_field : Tag; value_field : A }.
Arguments mk {Tag A}. Arguments tag_field {Tag A}. Arguments value_field {Tag A}.

Section tagged.
(** The tag is an enum, whose view is the value itself, and the value a
    union it selects; [tag_value] is [tag.value() as u64]. *)
Variable (E : Codec) (U : Tagged (ty E)) (tag_value : ty E → Z).

Definition SIZE : Z := Codec.SIZE E + USIZE U.
Definition len (v : t (ty E) (uty U)) : Z :=
  Codec.len E (tag_field v) + ulen U (value_field v).

Definition marshal (v : t (ty E) (uty U)) : W () :=
  if negb (matches_tag U (value_field v) (tag_field v)) then
    let! at_ := w_len in
    w_err (VariantNotAvailable at_ (tag_value (tag_field v)))
  else
    Codec.marshal E (tag_field v) ;!
    umarshal U (value_field v).

Definition unmarshal (buffer : slice) : TpmResult (t (ty E) (uty U) * slice) :=
  let? (tag, rest) := Codec.unmarshal E buffer in
  let? offset := usub (sl_len buffer) (sl_len rest) in
  let? (value, buffer) := map_err (rebase offset) (unmarshal_tagged U tag rest) in
  Ok (mk tag value, buffer).

Definition cast_prefix_field (buf : slice) : TpmResult ((ty E * UView U) * slice) :=
  let? (tag, buf) := Codec.cast_prefix_field (value_view E) buf in
  let? (value, buf) := cast_tagged U tag buf in
  Ok ((tag, value), buf).

Definition wire (v : t (ty E) (uty U)) : option (list byte) :=
  if matches_tag U (value_field v) (tag_field v) then
    bs ← Codec.wire E (tag_field v); bs' ← uwire U (value_field v); Some (bs ++ bs')
  else None.

Definition wire_type : WireType := mk_wire_type
  (mk_codec (t (ty E) (uty U)) SIZE len marshal unmarshal wire
     (Codec.wire_max E + uwire_max U))
  (ty E * UView U) cast_prefix_field
  (λ vw v, vw.1 = tag_field v ∧ uview_of U vw.2 (value_field v))
  (λ vw s, uview_in U vw.2 s).
End tagged.
End TaggedStruct.

(** ** Laws of field sequences *)

Class FieldsOk (fs : fields) : Prop := fields_ok : Forall (λ f, CodecOk f.2) fs.
Class WireFieldsOk (fs : wire_fields) : Prop := wire_fields_ok : Forall (λ f, WireOk f.2) fs.

#[export] Instance fields_ok_nil : FieldsOk [].
Proof. constructor. Qed.
#[export] Instance fields_ok_cons n c fs : CodecOk c → FieldsOk fs → FieldsOk ((n, c) :: fs).
Proof. by constructor. Qed.
#[export] Instance wire_fields_ok_nil : WireFieldsOk [].
Proof. constructor. Qed.
#[export] Instance wire_fields_ok_cons n t fs :
  WireOk t → WireFieldsOk fs → WireFieldsOk ((n, t) :: fs).
Proof. by constructor. Qed.
#[export] Instance owned_ok fs : WireFieldsOk fs → FieldsOk (owned fs).
Proof. induction 1; constructor; [simpl; apply _ | done]. Qed.

(** A prefix read twice: splitting what two encodings consume. *)
Lemma consumes_split bs1 bs2 s r :
  consumes (bs1 ++ bs2) s r → ∃ mid, consumes bs1 s mid ∧ consumes bs2 mid r.
Proof.
  intros [Hd Ha]. exists (mk_slice (sl_addr s + zlen bs1) (bs2 ++ sl_data r)).
  rewrite zlen_app in Ha. split; split; simpl; [by rewrite Hd, app_assoc | done | done | lia].
Qed.

Section fields_lemmas.
Lemma fields_max_bounds fs `{!FieldsOk fs} : 0 ≤ fields_max fs ≤ fields_SIZE fs.
Proof.
  induction FieldsOk0 as [|[n c] fs Hc Hfs IH]; simpl; [done|].
  pose proof (wire_max_bounds (c:=c)); lia.
Qed.

Lemma fields_wire_cons f fs v vs bs :
  fields_wire (f :: fs) (v, vs) = Some bs ↔
  ∃ b1 b2, wire f.2 v = Some b1 ∧ fields_wire fs vs = Some b2 ∧ bs = b1 ++ b2.
Proof.
  simpl. split.
  - intros (b1 & H1 & (b2 & H2 & [= <-])%bind_Some)%bind_Some. by exists b1, b2.
  - intros (b1 & b2 & -> & H2 & ->); simpl. by rewrite H2.
Qed.

Lemma fields_len_wire fs `{!FieldsOk fs} vs bs :
  fields_wire fs vs = Some bs → fields_len fs vs = zlen bs ∧ zlen bs ≤ fields_max fs.
Proof.
  revert vs bs; induction FieldsOk0 as [|[n c] fs Hc Hfs IH]; intros vs bs.
  - by intros [= <-].
  - destruct vs as [v vs]. intros (b1 & b2 & H1 & H2 & ->)%fields_wire_cons.
    simpl in *. rewrite zlen_app. apply IH in H2 as [-> ?].
    rewrite (wire_len v b1 H1). apply wire_max_le in H1. lia.
Qed.

Lemma marshal_fields_wire fs `{!FieldsOk fs} vs bs :
  fields_wire fs vs = Some bs → writes (marshal_fields fs vs) bs.
Proof.
  revert vs bs; induction FieldsOk0 as [|[n c] fs Hc Hfs IH]; intros vs bs.
  - intros [= <-]. apply writes_ret.
  - destruct vs as [v vs]. intros (b1 & b2 & H1 & H2 & ->)%fields_wire_cons.
    apply writes_bind; [by apply marshal_wire | by apply IH].
Qed.

Lemma unmarshal_fields_complete fs `{!FieldsOk fs} vs bs start s r :
  sl_len s ≤ sl_len start → slice_ok s → fields_wire fs vs = Some bs → consumes bs s r →
  unmarshal_fields fs start s = Ok (vs, r).
Proof.
  revert vs bs s; induction FieldsOk0 as [|[n c] fs Hc Hfs IH]; intros vs bs s Hle Hok.
  - intros [= <-] Hcs. destruct vs; simpl.
    by rewrite (consumes_det _ _ _ _ (consumes_refl s) Hcs).
  - destruct vs as [v vs]. intros (b1 & b2 & H1 & H2 & ->)%fields_wire_cons.
    intros (mid & Hc1 & Hc2)%consumes_split. simpl in *.
    rewrite usub_Ok by done; simpl. rewrite (unmarshal_wire v b1 s mid) by done; simpl.
    pose proof (consumes_len _ _ _ Hc1). pose proof (zlen_nonneg b1).
    rewrite (IH vs b2 mid); [done | lia | by eapply consumes_slice_ok | done | done].
Qed.

Lemma unmarshal_fields_sound fs `{!FieldsOk fs} start s vs r :
  slice_ok s → unmarshal_fields fs start s = Ok (vs, r) →
  ∃ bs, fields_wire fs vs = Some bs ∧ consumes bs s r.
Proof.
  revert vs s; induction FieldsOk0 as [|[n c] fs Hc Hfs IH]; intros vs s Hok; simpl.
  - intros [= <- <-]. exists []. split; [done | apply consumes_refl].
  - intros (o & _ & ([v mid] & Hu%map_err_Ok_inv & ([vs' r'] & Hus & [= <- <-])%result_bind_Ok_inv)%result_bind_Ok_inv)%result_bind_Ok_inv.
    apply unmarshal_sound in Hu as (b1 & H1 & Hc1); [|done].
    apply IH in Hus as (b2 & H2 & Hc2); [|by eapply consumes_slice_ok].
    exists (b1 ++ b2). simpl in *. rewrite H1; simpl. rewrite H2.
    split; [done | by eapply consumes_trans].
Qed.

Lemma unmarshal_fields_no_panic fs `{!FieldsOk fs} start s :
  sl_len s ≤ sl_len start → slice_ok s → unmarshal_fields fs start s ≠ Panic.
Proof.
  revert s; induction FieldsOk0 as [|[n c] fs Hc Hfs IH]; intros s Hle Hok; simpl; [done|].
  rewrite usub_Ok by done; simpl.
  apply result_bind_not_Panic; [by apply map_err_not_Panic, unmarshal_no_panic|].
  intros [v mid] Hu%map_err_Ok_inv.
  apply unmarshal_sound in Hu as (b1 & H1 & Hc1); [|done].
  pose proof (consumes_len _ _ _ Hc1). pose proof (zlen_nonneg b1).
  apply result_bind_not_Panic; [|by intros [? ?]].
  apply IH; [lia | by eapply consumes_slice_ok].
Qed.

(** When a field fails, its error is rebased by the bytes before it. *)
Lemma unmarshal_fields_error prev f post vs bs start s r e :
  FieldsOk (prev ++ f :: post) → slice_ok s → sl_len s ≤ sl_len start →
  fields_wire prev vs = Some bs → consumes bs s r → unmarshal f.2 r = Err e →
  unmarshal_fields (prev ++ f :: post) start s = Err (rebase (sl_len start - sl_len r) e).
Proof.
  intros Hfs. revert vs bs s. induction prev as [|[n c] prev IH]; intros vs bs s Hok Hle.
  - intros [= <-] Hc He. rewrite (consumes_det _ _ _ _ (consumes_refl s) Hc) in *. simpl.
    rewrite usub_Ok by done; simpl. by rewrite He.
  - destruct vs as [v vs]. intros (b1 & b2 & H1 & H2 & ->)%fields_wire_cons.
    intros (mid & Hc1 & Hc2)%consumes_split He. simpl in Hfs |- *.
    inversion_clear Hfs as [|? ? Hok1 Hfs']. simpl in *.
    rewrite usub_Ok by done; simpl. rewrite (unmarshal_wire v b1 s mid) by done; simpl.
    pose proof (consumes_len _ _ _ Hc1). pose proof (zlen_nonneg b1).
    rewrite (IH Hfs' vs b2 mid); [done | by eapply consumes_slice_ok | lia | done..].
Qed.

Lemma validate_fields_complete fs `{!WireFieldsOk fs} vs bs s r consumed :
  slice_ok s → 0 ≤ consumed → consumed + zlen bs ≤ usize_max →
  fields_wire (owned fs) vs = Some bs → consumes bs s r →
  validate_fields fs s consumed = Ok (consumed + zlen bs).
Proof.
  revert vs bs s consumed; induction WireFieldsOk0 as [|[n c] fs Hc Hfs IH];
    intros vs bs s consumed Hok H0 Hmax.
  - intros [= <-] _. simpl. by rewrite Z.add_0_r.
  - destruct vs as [v vs]. intros (b1 & b2 & H1 & H2 & ->)%fields_wire_cons.
    intros (mid & Hc1 & Hc2)%consumes_split. simpl in *.
    destruct (cast_complete v b1 s mid) as [vw ->]; [done..|]; simpl.
    rewrite zlen_app in *. pose proof (consumes_len _ _ _ Hc1).
    pose proof (zlen_nonneg b1). pose proof (zlen_nonneg b2).
    rewrite checked_sub_Some by lia; simpl. rewrite checked_add_Some by lia; simpl.
    rewrite (IH vs b2 mid); [f_equal; lia | by eapply consumes_slice_ok | lia | lia | done | done].
Qed.

Lemma validate_fields_sound fs `{!WireFieldsOk fs} s consumed m :
  slice_ok s → validate_fields fs s consumed = Ok m →
  ∃ vs bs r, fields_wire (owned fs) vs = Some bs ∧ consumes bs s r ∧ m = consumed + zlen bs.
Proof.
  revert s consumed; induction WireFieldsOk0 as [|[n c] fs Hc Hfs IH];
    intros s consumed Hok; simpl.
  - intros [= <-]. exists (), [], s. split_and!; [done | apply consumes_refl |].
    unfold zlen; simpl; lia.
  - intros ([vw tail] & Hcast & Hw)%result_bind_Ok_inv.
    apply cast_sound in Hcast as (v & b1 & H1 & Hc1 & _); [|done].
    apply result_bind_Ok_inv in Hw as (il & Hil%ok_or_Ok_inv%checked_sub_Some_inv & Hw).
    apply result_bind_Ok_inv in Hw as (c' & Hc'%ok_or_Ok_inv%checked_add_Some_inv & Hw).
    apply IH in Hw as (vs & b2 & r & H2 & Hc2 & ->); [|by eapply consumes_slice_ok].
    exists (v, vs), (b1 ++ b2), r. simpl in *. rewrite H1; simpl. rewrite H2.
    split_and!; [done | by eapply consumes_trans |].
    rewrite zlen_app. pose proof (consumes_len _ _ _ Hc1). lia.
Qed.

Lemma validate_fields_no_panic fs `{!WireFieldsOk fs} s consumed :
  slice_ok s → validate_fields fs s consumed ≠ Panic.
Proof.
  revert s consumed; induction WireFieldsOk0 as [|[n c] fs Hc Hfs IH];
    intros s consumed Hok; simpl; [done|].
  apply result_bind_not_Panic; [by apply cast_no_panic|]. intros [vw tail] Hcast.
  apply cast_sound in Hcast as (v & bs & _ & Hc1 & _); [|done].
  destruct (checked_sub _ _); simpl; [|done]. destruct (checked_add _ _); simpl; [|done].
  apply IH. by eapply consumes_slice_ok.
Qed.
End fields_lemmas.

(** ** Laws of [tpm_struct!] *)

Section tpm_struct_laws.
Context (fs : wire_fields) `{!WireFieldsOk fs}.

#[export] Instance tpm_struct_codec_ok : CodecOk (TpmStruct.codec fs).
Proof using WireFieldsOk0.
  split; simpl.
  - apply fields_max_bounds, _.
  - intros v bs H. by apply (fields_len_wire _ v bs).
  - intros v bs H. by apply (fields_len_wire _ v bs).
  - intros v bs. apply marshal_fields_wire, _.
  - intros v bs s r Hok H Hc. by apply (unmarshal_fields_complete _ v bs).
  - intros s v r Hok Hu. by apply (unmarshal_fields_sound (owned fs) s s).
  - intros s Hok. by apply (unmarshal_fields_no_panic (owned fs) s s).
Qed.

Lemma struct_cast_prefix_sound s vw r :
  slice_ok s → TpmStruct.cast_prefix fs s = Ok (vw, r) →
  ∃ v bs, fields_wire (owned fs) v = Some bs ∧ consumes bs s r ∧
          vw = mk_slice (sl_addr s) bs.
Proof using WireFieldsOk0.
  intros Hok. unfold TpmStruct.cast_prefix.
  intros (m & Hv & Hs)%result_bind_Ok_inv.
  apply validate_fields_sound in Hv as (v & bs & r' & Hw & Hc & ->); [|done..].
  pose proof (consumes_len _ _ _ Hc). pose proof (sl_len_nonneg r').
  rewrite Z.add_0_l in Hs. destruct (sl_len s <? zlen bs) eqn:?; [lia|].
  rewrite (split_at_app _ _ _ Hc) in Hs. simpl in Hs. injection Hs as <- <-.
  by exists v, bs.
Qed.

Lemma struct_cast_prefix_complete v bs s r :
  slice_ok s → fields_wire (owned fs) v = Some bs → consumes bs s r →
  TpmStruct.cast_prefix fs s = Ok (mk_slice (sl_addr s) bs, r).
Proof using WireFieldsOk0.
  intros Hok Hw Hc. unfold TpmStruct.cast_prefix, TpmStruct.validate_prefix.
  pose proof (consumes_len _ _ _ Hc). pose proof (sl_len_nonneg r).
  pose proof Hok as (? & ? & ?).
  rewrite (validate_fields_complete fs v bs s r) by (done || lia); simpl.
  rewrite Z.add_0_l. destruct (sl_len s <? zlen bs) eqn:?; [lia|].
  by rewrite (split_at_app _ _ _ Hc).
Qed.

#[export] Instance tpm_struct_ok : WireOk (tpm_struct fs).
Proof using WireFieldsOk0.
  split; simpl.
  - apply tpm_struct_codec_ok.
  - intros. by eapply sub_slice_trans.
  - intros s vw r Hok (v & bs & Hw & Hc & ->)%struct_cast_prefix_sound; [|done].
    exists v, bs. split_and!; try done. apply sub_slice_refl.
  - intros v bs s r Hok Hw Hc. eexists. by eapply struct_cast_prefix_complete.
  - intros s Hok. unfold TpmStruct.cast_prefix.
    apply result_bind_not_Panic; [by apply validate_fields_no_panic|]. intros m Hv.
    case_match; [done|].
    apply result_bind_not_Panic; [apply split_at_not_Panic; lia | by intros [? ?]].
Qed.

(** An exact cast accepts exactly one encoding, with nothing behind it. *)
Lemma struct_cast_spec s :
  slice_ok s →
  (∀ vw, TpmStruct.cast fs s = Ok vw →
     vw = s ∧ ∃ v, fields_wire (owned fs) v = Some (sl_data s)) ∧
  (∀ v, fields_wire (owned fs) v = Some (sl_data s) → TpmStruct.cast fs s = Ok s).
Proof using WireFieldsOk0.
  intros Hok. unfold TpmStruct.cast, TpmStruct.validate, TpmStruct.validate_prefix. split.
  - intros vw (u & (m & Hv & Hlt)%result_bind_Ok_inv & [= <-])%result_bind_Ok_inv.
    split; [done|].
    apply validate_fields_sound in Hv as (v & bs & r & Hw & Hc & ->); [|done..].
    exists v. pose proof (consumes_len _ _ _ Hc). pose proof (sl_len_nonneg r).
    rewrite Z.add_0_l in Hlt. destruct (zlen bs <? sl_len s) eqn:?.
    { rewrite usub_Ok in Hlt by lia. done. }
    destruct Hc as [-> _]. rewrite (zlen_nil_inv (sl_data r)) by (unfold sl_len in *; lia).
    by rewrite app_nil_r.
  - intros v Hw.
    assert (consumes (sl_data s) s (mk_slice (sl_addr s + sl_len s) [])) as Hc
      by (split; simpl; [by rewrite app_nil_r | done]).
    pose proof Hok as (? & ? & ?).
    rewrite (validate_fields_complete fs v (sl_data s) s _ 0 Hok) with (4 := Hc);
      [|lia|unfold sl_len in *; lia|done]; simpl.
    rewrite Z.add_0_l. unfold sl_len. rewrite Z.ltb_irrefl. done.
Qed.
End tpm_struct_laws.

(** The value of one field of an owned structure. *)
Fixpoint field_value (prev : wire_fields) (f : string * WireType) (post : wire_fields)
    : fields_ty (owned (prev ++ f :: post)) → ty f.2 :=
  match prev with
  | [] => λ v, v.1
  | p :: prev => λ v, field_value prev f post v.2
  end.

(** Every accessor of a cast structure succeeds: it returns a view of the
    field's value, inside the structure. *)
Lemma struct_field_complete prev f post v bs s r :
  WireFieldsOk (prev ++ f :: post) → slice_ok s →
  fields_wire (owned (prev ++ f :: post)) v = Some bs → consumes bs s r →
  ∃ vw, TpmStruct.field prev f.2 s = Ok vw ∧ view_of f.2 vw (field_value prev f post v) ∧
        view_in f.2 vw s.
Proof.
  intros Hfs. assert (WireOk f.2) as Hf by apply (Forall_elt _ _ _ Hfs).
  revert v bs s. induction prev as [|p prev IH]; intros v bs s Hok; simpl.
  - destruct f as [n t]; simpl in *. inversion_clear Hfs; simpl in *.
    destruct v as [v vs]. intros (b1 & b2 & H1 & H2 & ->)%(fields_wire_cons (n, codec t)).
    intros (mid & Hc1 & Hc2)%consumes_split.
    destruct (cast_view t v b1 s mid) as (vw & -> & Hv & Hin); [done..|]. exists vw.
    split_and!; [done..|]. eapply view_in_mono; [done|]. by eapply consumes_head_sub_slice.
  - simpl in Hfs. inversion_clear Hfs as [|? ? Hp Hrest]; cbv beta in Hp.
    destruct v as [v vs]. intros (b1 & b2 & H1 & H2 & ->)%(fields_wire_cons (p.1, codec p.2)).
    intros (mid & Hc1 & Hc2)%consumes_split.
    destruct (cast_complete v b1 s mid) as [vw ->]; [done..|]; simpl.
    destruct (IH Hrest vs b2 mid) as (vw' & -> & Hv & Hin); [by eapply consumes_slice_ok|done|done|].
    exists vw'. split_and!; [done..|]. eapply view_in_mono; [done|]. by eapply consumes_sub_slice.
Qed.

(** An encoding with bytes behind it is not an exact structure. *)
Lemma struct_cast_trailing fs `{!WireFieldsOk fs} v bs s r :
  slice_ok s → fields_wire (owned fs) v = Some bs → consumes bs s r →
  TpmStruct.cast fs s = if sl_len r =? 0 then Ok s else Err (TrailingData (zlen bs) (sl_len r)).
Proof.
  intros Hok Hw Hc. pose proof (consumes_len _ _ _ Hc). pose proof (sl_len_nonneg r).
  unfold TpmStruct.cast, TpmStruct.validate, TpmStruct.validate_prefix.
  destruct Hok as (? & ? & ?). pose proof (zlen_nonneg bs).
  rewrite (validate_fields_complete fs v bs s r 0) by (done || unfold slice_ok, isize_max, usize_max in *; lia).
  cbn [result_bind]. rewrite Z.add_0_l. destruct (zlen bs <? sl_len s) eqn:Hl.
  - rewrite usub_Ok by lia. simpl. case_match; [lia|]. do 2 f_equal. lia.
  - case_match; [done | lia].
Qed.

(** ** Laws of [tpm2b_struct!] *)

Section tpm2b_struct_laws.
Context (I : Codec) `{!CodecOk I}.

Lemma tpm2b_wire_Some v bs :
  Tpm2bStruct.wire I v = Some bs ↔
  ∃ b, wire I (Tpm2bStruct.inner v) = Some b ∧ zlen b ≤ u16_max ∧ bs = Tpm2b.format b.
Proof using Type.
  unfold Tpm2bStruct.wire. split.
  - intros (b & Hb & H)%bind_Some. case_match; [|done]. injection H as <-.
    exists b. split_and!; [done | lia | done].
  - intros (b & -> & Hb & ->); simpl. case_match; [done | lia].
Qed.

(** Reading the size field of a sized value. *)
Lemma size_field_unmarshal b s r :
  zlen b ≤ u16_max → slice_ok s → consumes (Tpm2b.format b) s r →
  ∃ mid, unmarshal TpmUint16 s = Ok (TpmInt.new 2 (zlen b), mid) ∧
         consumes b mid r ∧ slice_ok mid.
Proof using Type.
  intros Hb Hok (mid & Hc1 & Hc2)%consumes_split. pose proof (zlen_nonneg b).
  exists mid. split_and!; [|done|by eapply consumes_slice_ok].
  apply (unmarshal_wire (c:=TpmUint16) _ (be_encode 2 (zlen b))); [done | | done].
  rewrite <-bytes_new by (unfold u16_max in *; simpl; lia). apply int_wire_new.
Qed.

Lemma size_field_unmarshal_Ok s n mid :
  slice_ok s → unmarshal TpmUint16 s = Ok (n, mid) →
  0 ≤ TpmInt.value 2 false n ≤ u16_max ∧
  consumes (be_encode 2 (TpmInt.value 2 false n)) s mid ∧ slice_ok mid.
Proof using Type.
  intros Hok Hu. apply (unmarshal_sound (c:=TpmUint16)) in Hu as (bs & Hb & Hc); [|done].
  simpl in Hb. apply int_wire_Some in Hb as [-> Hl].
  pose proof (in_range_u16_inv _ (value_in_range 2 false ltac:(lia) n Hl)) as Hr.
  split_and!; [lia | lia | | by eapply consumes_slice_ok].
  rewrite <-bytes_new by (unfold u16_max in *; simpl; lia). by rewrite new_value by (lia || done).
Qed.

Lemma tpm2b_unmarshal_complete b v s r :
  slice_ok s → wire I v = Some b → zlen b ≤ u16_max → consumes (Tpm2b.format b) s r →
  Tpm2bStruct.unmarshal I s = Ok (Tpm2bStruct.mk v, r).
Proof using CodecOk0.
  intros Hok Hw Hb Hc.
  destruct (size_field_unmarshal b s r Hb Hok Hc) as (mid & Hu & Hc2 & Hok2).
  unfold Tpm2bStruct.unmarshal. rewrite Hu; simpl.
  pose proof (zlen_nonneg b). rewrite value_new by (lia || apply in_range_u16; lia).
  pose proof (wire_SIZE I _ _ Hw). pose proof (consumes_len _ _ _ Hc2).
  pose proof (sl_len_nonneg r).
  case_match; [lia|]. case_match; [lia|].
  rewrite (split_at_app _ _ _ Hc2); simpl.
  assert (consumes b (mk_slice (sl_addr mid) b) (mk_slice (sl_addr mid + zlen b) [])) as Hc3
    by (split; simpl; [by rewrite app_nil_r | done]).
  assert (slice_ok (mk_slice (sl_addr mid) b)) as Hok3.
  { destruct Hok2 as (? & ? & ?). unfold slice_ok, sl_len in *; simpl; lia. }
  by rewrite (unmarshal_wire v b _ _ Hok3 Hw Hc3).
Qed.

Lemma tpm2b_unmarshal_Ok s v r :
  slice_ok s → Tpm2bStruct.unmarshal I s = Ok (v, r) →
  ∃ b, wire I (Tpm2bStruct.inner v) = Some b ∧ zlen b ≤ u16_max ∧
       consumes (Tpm2b.format b) s r.
Proof using CodecOk0.
  intros Hok ([n mid] & Hu & H)%result_bind_Ok_inv.
  apply size_field_unmarshal_Ok in Hu as (Hn & Hc & Hok2); [|done].
  simpl in H. set (p := TpmInt.value 2 false n) in *.
  destruct (_ <? p); [done|]. destruct (_ <? p); [done|].
  apply result_bind_Ok_inv in H as ([ib rem] & Hs%split_at_Ok & H); [|lia].
  destruct Hs as (Hl & Ha & Hc2).
  apply result_bind_Ok_inv in H as ([iv tail] & Hi%map_err_Ok_inv & H).
  apply unmarshal_sound in Hi as (b & Hb & Hc3).
  2:{ destruct Hok2 as (? & ? & ?). pose proof (consumes_len _ _ _ Hc2).
      pose proof (sl_len_nonneg rem). unfold slice_ok, sl_len in *. lia. }
  destruct (negb _) eqn:Ht; [done|]. injection H as <- <-. simpl.
  unfold sl_is_empty in Ht. pose proof (consumes_len _ _ _ Hc3).
  assert (sl_data ib = b) as Eb.
  { destruct Hc3 as [-> _]. rewrite (zlen_nil_inv (sl_data tail)) by (unfold sl_len in *; lia).
    apply app_nil_r. }
  exists b. split_and!; [done | lia |].
  unfold Tpm2b.format. replace (zlen b) with p by lia. rewrite <-Eb.
  by eapply consumes_trans.
Qed.

#[export] Instance tpm2b_codec_ok : CodecOk (Tpm2bStruct.codec I).
Proof using CodecOk0.
  pose proof (wire_max_bounds (c:=I)) as HS.
  split; simpl.
  - unfold Tpm2bStruct.SIZE; simpl; unfold TpmInt.size; lia.
  - intros v bs (b & Hb & Hl & ->)%tpm2b_wire_Some. rewrite zlen_format.
    unfold Tpm2bStruct.len; simpl; unfold TpmInt.size. by rewrite (wire_len _ _ Hb).
  - intros v bs (b & Hb & Hl & ->)%tpm2b_wire_Some. rewrite zlen_format.
    apply wire_max_le in Hb. simpl; unfold TpmInt.size. lia.
  - intros v bs (b & Hb & Hl & ->)%tpm2b_wire_Some.
    unfold Tpm2bStruct.marshal. apply writes_len_bind; intros at_.
    pose proof (zlen_nonneg b). rewrite (wire_len _ _ Hb). eapply writes_lift_bind.
    + by rewrite int_try_from_spec, decide_True by (apply in_range_u16; lia).
    + unfold Tpm2b.format. apply writes_bind; [|by apply marshal_wire].
      rewrite <-bytes_new by (unfold u16_max in *; simpl; lia). apply writes_write_bytes.
  - intros [v] bs s r Hok (b & Hb & Hl & ->)%tpm2b_wire_Some Hc.
    by eapply tpm2b_unmarshal_complete.
  - intros s v r Hok (b & Hb & Hl & Hc)%tpm2b_unmarshal_Ok; [|done].
    exists (Tpm2b.format b). split; [|done]. apply tpm2b_wire_Some. by exists b.
  - intros s Hok. apply result_bind_not_Panic; [by apply unmarshal_no_panic|].
    intros [n mid] Hu. apply size_field_unmarshal_Ok in Hu as (Hn & Hc & Hok2); [|done].
    simpl. set (p := TpmInt.value 2 false n) in *.
    case_match; [done|]. case_match; [done|].
    apply result_bind_not_Panic; [apply split_at_not_Panic; lia|].
    intros [ib rem] (Hl & Ha & Hc2)%split_at_Ok; [|lia].
    apply result_bind_not_Panic; [apply map_err_not_Panic, unmarshal_no_panic|].
    + destruct Hok2 as (? & ? & ?). unfold slice_ok, sl_len in *. lia.
    + intros [iv tail] _. by case_match.
Qed.
End tpm2b_struct_laws.

Section tpm2b_struct_wire_laws.
Context (I : WireType) `{!WireOk I}.

Lemma size_field_view s vw mid :
  slice_ok s → cast_prefix_field TpmUint16 s = Ok (vw, mid) →
  ∃ n, unmarshal TpmUint16 s = Ok (n, mid) ∧
       TpmInt.view_value 2 false vw = TpmInt.value 2 false n.
Proof using Type.
  intros Hok Hc. apply cast_sound in Hc as (n & bs & Hn & Hc & Hv & _); [|done].
  exists n. split; [by apply (unmarshal_wire (c:=TpmUint16) n bs)|].
  by apply int_view_of.
Qed.

Lemma tpm2b_validate_complete b v s r :
  slice_ok s → wire I v = Some b → zlen b ≤ u16_max → consumes (Tpm2b.format b) s r →
  Tpm2bStruct.validate_prefix I s = Ok (zlen (Tpm2b.format b)).
Proof using WireOk0.
  intros Hok Hw Hb Hc. pose proof (zlen_nonneg b).
  destruct (size_field_unmarshal b s r Hb Hok Hc) as (mid & Hu & Hc2 & Hok2).
  assert (∃ vw, cast_prefix_field TpmUint16 s = Ok (vw, mid)) as [vw Hvw].
  { apply (unmarshal_sound (c:=TpmUint16)) in Hu as (nb & Hnb & Hcn); [|done].
    exact (cast_complete (t:=TpmUint16) _ nb s mid Hok Hnb Hcn). }
  destruct (size_field_view s vw mid Hok Hvw) as (n & Hu' & Hval).
  rewrite Hu in Hu'. injection Hu' as <-.
  unfold Tpm2bStruct.validate_prefix. rewrite Hvw; simpl. rewrite Hval.
  rewrite value_new by (lia || apply in_range_u16; lia).
  pose proof (wire_SIZE I _ _ Hw). pose proof (consumes_len _ _ _ Hc2).
  pose proof (sl_len_nonneg r).
  case_match; [lia|]. case_match; [lia|].
  rewrite (split_at_app _ _ _ Hc2); simpl.
  assert (consumes b (mk_slice (sl_addr mid) b) (mk_slice (sl_addr mid + zlen b) [])) as Hc3
    by (split; simpl; [by rewrite app_nil_r | done]).
  assert (slice_ok (mk_slice (sl_addr mid) b)) as Hok3.
  { destruct Hok2 as (? & ? & ?). unfold slice_ok, sl_len in *; simpl; lia. }
  destruct (cast_complete v b _ _ Hok3 Hw Hc3) as [ivw ->].
  simpl. by rewrite zlen_format.
Qed.

Lemma tpm2b_validate_Ok s m :
  slice_ok s → Tpm2bStruct.validate_prefix I s = Ok m →
  ∃ v b r, wire I v = Some b ∧ zlen b ≤ u16_max ∧ consumes (Tpm2b.format b) s r ∧
           m = zlen (Tpm2b.format b).
Proof using WireOk0.
  intros Hok ([vw mid] & Hvw & H)%result_bind_Ok_inv.
  destruct (size_field_view s vw mid Hok Hvw) as (n & Hu & Hval). rewrite Hval in H.
  apply size_field_unmarshal_Ok in Hu as (Hn & Hc & Hok2); [|done].
  simpl in H. set (p := TpmInt.value 2 false n) in *.
  destruct (_ <? p); [done|]. destruct (_ <? p); [done|].
  apply result_bind_Ok_inv in H as ([ib rem] & Hs%split_at_Ok & H); [|lia].
  destruct Hs as (Hl & Ha & Hc2).
  apply result_bind_Ok_inv in H as ([ivw tail] & Hi & H).
  apply cast_sound in Hi as (v & b & Hb & Hc3 & _).
  2:{ destruct Hok2 as (? & ? & ?). pose proof (consumes_len _ _ _ Hc2).
      pose proof (sl_len_nonneg rem). unfold slice_ok, sl_len in *. lia. }
  destruct (negb _) eqn:Ht; [done|]. injection H as <-. simpl.
  unfold sl_is_empty in Ht. pose proof (consumes_len _ _ _ Hc3).
  assert (sl_data ib = b) as Eb.
  { destruct Hc3 as [-> _]. rewrite (zlen_nil_inv (sl_data tail)) by (unfold sl_len in *; lia).
    apply app_nil_r. }
  assert (p = zlen b) as Ep by lia.
  exists v, b, rem. split_and!; [done | lia | | rewrite zlen_format, Ep; done].
  unfold Tpm2b.format. rewrite <-Ep, <-Eb. by eapply consumes_trans.
Qed.

Lemma tpm2b_validate_no_panic s : slice_ok s → Tpm2bStruct.validate_prefix I s ≠ Panic.
Proof using WireOk0.
  intros Hok. apply result_bind_not_Panic; [by apply cast_no_panic|].
  intros [vw mid] Hvw. destruct (size_field_view s vw mid Hok Hvw) as (n & Hu & ->).
  apply size_field_unmarshal_Ok in Hu as (Hn & Hc & Hok2); [|done].
  cbv zeta. set (p := TpmInt.value 2 false n) in *.
  case_match; [done|]. case_match; [done|].
  apply result_bind_not_Panic; [apply split_at_not_Panic; lia|].
  intros [ib rem] (Hl & Ha & Hc2)%split_at_Ok; [|lia].
  apply result_bind_not_Panic; [apply cast_no_panic|].
  - destruct Hok2 as (? & ? & ?). unfold slice_ok, sl_len in *. lia.
  - intros [iv tail] _. by case_match.
Qed.

#[export] Instance tpm2b_struct_ok : WireOk (tpm2b_struct I).
Proof using WireOk0.
  split; simpl.
  - apply tpm2b_codec_ok, _.
  - intros. by eapply sub_slice_trans.
  - intros s vw r Hok (m & Hv & Hs)%result_bind_Ok_inv.
    apply tpm2b_validate_Ok in Hv as (v & b & r' & Hb & Hl & Hc & ->); [|done].
    rewrite (split_at_app _ _ _ Hc) in Hs. simpl in Hs. injection Hs as <- <-.
    assert (Tpm2bStruct.wire I (Tpm2bStruct.mk v) = Some (Tpm2b.format b)) as Hw
      by (apply tpm2b_wire_Some; by exists b).
    exists (Tpm2bStruct.mk v), (Tpm2b.format b). split_and!; try done. apply sub_slice_refl.
  - intros v bs s r Hok (b & Hb & Hl & ->)%tpm2b_wire_Some Hc.
    unfold Tpm2bStruct.cast_prefix.
    rewrite (tpm2b_validate_complete b _ s r Hok Hb) by done; simpl.
    rewrite (split_at_app _ _ _ Hc). by eexists.
  - intros s Hok. unfold Tpm2bStruct.cast_prefix.
    apply result_bind_not_Panic; [by apply tpm2b_validate_no_panic|]. intros m Hv.
    apply tpm2b_validate_Ok in Hv as (v & b & r' & _ & _ & Hc & ->); [|done].
    by rewrite (split_at_app _ _ _ Hc).
Qed.
End tpm2b_struct_wire_laws.

(** ** Laws of [tpm_struct_tagged!] *)

Section tagged_laws.
Context (E : Codec) `{!WireOk (value_view E)} (U : Tagged (ty E)) `{!TaggedOk U}.
Variable tag_value : ty E → Z.
Local Instance tag_codec_ok : CodecOk E := wire_codec_ok (t:=value_view E).

Lemma tagged_wire_Some v bs :
  TaggedStruct.wire E U v = Some bs ↔
  matches_tag U (TaggedStruct.value_field v) (TaggedStruct.tag_field v) = true ∧
  ∃ b1 b2, wire E (TaggedStruct.tag_field v) = Some b1 ∧
           uwire U (TaggedStruct.value_field v) = Some b2 ∧ bs = b1 ++ b2.
Proof using Type.
  unfold TaggedStruct.wire. split.
  - case_match; [|done].
    intros (b1 & H1 & (b2 & H2 & [= <-])%bind_Some)%bind_Some. split; [done|].
    by exists b1, b2.
  - intros (-> & b1 & b2 & -> & H2 & ->); simpl. by rewrite H2.
Qed.

Lemma tagged_codec_ok : CodecOk (TaggedStruct.wire_type E U tag_value).
Proof using TaggedOk0 WireOk0.
  pose proof (wire_max_bounds (c:=E)). pose proof (uwire_max_bounds (u:=U)).
  split; simpl.
  - unfold TaggedStruct.SIZE; lia.
  - intros v bs (_ & b1 & b2 & H1 & H2 & ->)%tagged_wire_Some.
    unfold TaggedStruct.len. rewrite zlen_app.
    by rewrite (wire_len _ _ H1), (uwire_len _ _ H2).
  - intros v bs (_ & b1 & b2 & H1 & H2 & ->)%tagged_wire_Some.
    apply wire_max_le in H1. apply uwire_max_le in H2.
    rewrite zlen_app. lia.
  - intros v bs (Hm & b1 & b2 & H1 & H2 & ->)%tagged_wire_Some.
    unfold TaggedStruct.marshal. rewrite Hm; simpl.
    apply writes_bind; [by apply marshal_wire | by apply umarshal_wire].
  - intros [t v] bs s r Hok (Hm & b1 & b2 & H1 & H2 & ->)%tagged_wire_Some.
    intros (mid & Hc1 & Hc2)%consumes_split. simpl in *.
    unfold TaggedStruct.unmarshal. rewrite (unmarshal_wire t b1 s mid) by done; simpl.
    pose proof (consumes_len _ _ _ Hc1). pose proof (zlen_nonneg b1).
    rewrite usub_Ok by lia; simpl.
    rewrite (unmarshal_tagged_wire t v b2 mid r); [done | | done..].
    by eapply consumes_slice_ok.
  - intros s v r Hok ([t mid] & Hu & Hw)%result_bind_Ok_inv.
    apply unmarshal_sound in Hu as (b1 & H1 & Hc1); [|done].
    apply result_bind_Ok_inv in Hw as (o & _ & Hw).
    apply result_bind_Ok_inv in Hw as ([v' r'] & Hu%map_err_Ok_inv & [= <- <-]).
    apply unmarshal_tagged_sound in Hu as (Hm & b2 & H2 & Hc2); [|by eapply consumes_slice_ok].
    exists (b1 ++ b2). split; [|by eapply consumes_trans].
    apply tagged_wire_Some; simpl. split; [done|]. by exists b1, b2.
  - intros s Hok. apply result_bind_not_Panic; [by apply unmarshal_no_panic|].
    intros [t mid] Hu. apply unmarshal_sound in Hu as (b1 & H1 & Hc1); [|done].
    pose proof (consumes_len _ _ _ Hc1). pose proof (zlen_nonneg b1).
    rewrite usub_Ok by lia; simpl.
    apply result_bind_not_Panic; [|by intros [? ?]].
    apply map_err_not_Panic, unmarshal_tagged_no_panic. by eapply consumes_slice_ok.
Qed.

#[export] Instance tagged_ok : WireOk (TaggedStruct.wire_type E U tag_value).
Proof using TaggedOk0 WireOk0.
  split; simpl.
  - apply tagged_codec_ok.
  - intros. by eapply uview_in_mono.
  - intros s vw r Hok ([t mid] & Hu & Hw)%result_bind_Ok_inv.
    apply unmarshal_sound in Hu as (b1 & H1 & Hc1); [|done].
    apply result_bind_Ok_inv in Hw as ([uv r'] & Hu & [= <- <-]).
    apply cast_tagged_sound in Hu as (v & b2 & Hm & H2 & Hc2 & Hv & Hin);
      [|by eapply consumes_slice_ok].
    exists (TaggedStruct.mk t v), (b1 ++ b2). simpl. split_and!; try done.
    + apply tagged_wire_Some; simpl. split; [done|]. by exists b1, b2.
    + by eapply consumes_trans.
    + eapply uview_in_mono; [done|].
      exists b1, []. simpl. rewrite app_nil_r. split; [done|]. by destruct Hc1.
  - intros [t v] bs s r Hok (Hm & b1 & b2 & H1 & H2 & ->)%tagged_wire_Some.
    intros (mid & Hc1 & Hc2)%consumes_split. simpl in *.
    unfold TaggedStruct.cast_prefix_field; simpl.
    rewrite (unmarshal_wire t b1 s mid) by done; simpl.
    destruct (cast_tagged_complete t v b2 mid r) as [uv Huv];
      [by eapply consumes_slice_ok | done | done | done |].
    rewrite Huv; simpl. by eexists.
  - intros s Hok. apply result_bind_not_Panic; [by apply unmarshal_no_panic|].
    intros [t mid] Hu. apply unmarshal_sound in Hu as (b1 & H1 & Hc1); [|done].
    apply result_bind_not_Panic; [|by intros [? ?]].
    apply cast_tagged_no_panic. by eapply consumes_slice_ok.
Qed.
End tagged_laws.
