(* ===== verification/EnumMacro.v ===== *)
(** The scalar macros of [protocol/src/macro]: [tpm_enum!] ([enum.rs]),
    [tpm_bitflags!] and [tpm_bool!] ([mod.rs]). *)

From S2P Require Import Prelude Errors Writer Codec Integer.

(** ** [tpm_enum!] *)

(** What an enum declares: its wire integer, and its variants with their
    discriminants and display names, in the order of the source. *)
Class TpmEnum (T : Type) := {
  repr_width : nat;
  repr_signed : bool;
  value : T → Z;
  display : T → string;
  variants : list T
}.
#[global] Hint Mode TpmEnum ! : typeclass_instances.
Arguments repr_width T {_}. Arguments repr_signed T {_}. Arguments variants T {_}.

Section tpm_enum.
Context (T : Type) `{TpmEnum T}.

(** [TryFrom<$repr>]: the first variant with that discriminant. *)
Definition try_from (raw : Z) : TpmResult T :=
  match find (λ v, value v =? raw) (variants T) with
  | Some v => Ok v
  | None => Err (VariantNotAvailable 0 (raw `mod` 2 ^ 64))
  end.

Definition enum_wrapper : WireType := TpmInt.wire_type (repr_width T).

Definition enum_SIZE : Z := Z.of_nat (repr_width T).
Definition enum_marshal (v : T) : W () :=
  marshal enum_wrapper (TpmInt.new (repr_width T) (value v)).
Definition enum_cast_prefix_field (buf : slice) : TpmResult (T * slice) :=
  let? (v, buf) := cast_prefix_field enum_wrapper buf in
  let raw := TpmInt.view_value (repr_width T) (repr_signed T) v in
  let? enum_val := try_from raw in
  Ok (enum_val, buf).

Definition enum_wire (v : T) : option (list byte) :=
  Some (be_encode (repr_width T) (TpmInt.to_unsigned (repr_width T) (value v))).

Definition enum_codec : Codec :=
  mk_codec T enum_SIZE (λ _, enum_SIZE) enum_marshal enum_cast_prefix_field enum_wire
    enum_SIZE.
Definition tpm_enum : WireType := value_view enum_codec.
End tpm_enum.

(** What a declaration must satisfy: distinct discriminants, all listed, all
    of the declared integer type. *)
Class TpmEnumOk (T : Type) `{TpmEnum T} : Prop := {
  repr_width_pos : (0 < repr_width T)%nat;
  value_range (v : T) : TpmInt.in_range (repr_width T) (repr_signed T) (value v);
  try_from_value (v : T) : try_from T (value v) = Ok v
}.

(** Checks a concrete declaration by evaluating it at every variant. *)
Ltac solve_enum_ok :=
  split;
  [ apply Nat.ltb_lt; reflexivity
  | intros []; split; apply Z.leb_le; vm_compute; reflexivity
  | intros []; vm_compute; reflexivity ].

(** ** [tpm_bitflags!] *)

Module Bitflags.
Record t := from_bits_truncate { bits : Z }.

Definition empty : t := from_bits_truncate 0.
Definition contains (self other : t) : bool :=
  Z.land (bits self) (bits other) =? bits other.
Definition bitor (a b : t) : t := from_bits_truncate (Z.lor (bits a) (bits b)).
Definition bitand (a b : t) : t := from_bits_truncate (Z.land (bits a) (bits b)).
Definition bitxor (a b : t) : t := from_bits_truncate (Z.lxor (bits a) (bits b)).

Section bitflags.
(** Width of the underlying unsigned integer, in bytes. *)
Variable N : nat.

Definition not (a : t) : t := from_bits_truncate (Z.lxor (bits a) (Z.ones (TpmInt.bits N))).

Definition SIZE : Z := Z.of_nat N.
Definition marshal (v : t) : W () :=
  Codec.marshal (TpmInt.codec N) (TpmInt.new N (bits v)).
Definition cast_prefix_field (buf : slice) : TpmResult (t * slice) :=
  let? (value, buf) := Codec.cast_prefix_field (TpmInt.wire_type N) buf in
  Ok (from_bits_truncate (TpmInt.view_value N false value), buf).

(** The bits fit the integer. *)
Definition wire (v : t) : option (list byte) :=
  if (0 <=? bits v) && (bits v <? 2 ^ TpmInt.bits N) then Some (be_encode N (bits v)) else None.

Definition codec : Codec := mk_codec t SIZE (λ _, SIZE) marshal cast_prefix_field wire SIZE.
End bitflags.
End Bitflags.

Definition tpm_bitflags (N : nat) : WireType := value_view (Bitflags.codec N).

#[global] Instance Bitflags_eq_dec : EqDecision Bitflags.t.
Proof. solve_decision. Defined.

(** ** [tpm_bool!] *)

Module TpmBool.
Definition SIZE : Z := 1.
Definition marshal (b : bool) : W () :=
  Codec.marshal TpmUint8 (TpmInt.new 1 (if b then 1 else 0)).
Definition cast_prefix_field (buf : slice) : TpmResult (bool * slice) :=
  let? (value, buf) := Codec.cast_prefix_field TpmUint8 buf in
  match TpmInt.view_value 1 false value with
  | 0 => Ok (false, buf)
  | 1 => Ok (true, buf)
  | raw => Err (InvalidBoolean 0 raw)
  end.
Definition wire (b : bool) : option (list byte) := Some (be_encode 1 (if b then 1 else 0)).
Definition codec : Codec := mk_codec bool SIZE (λ _, SIZE) marshal cast_prefix_field wire SIZE.
End TpmBool.

Definition tpm_bool : WireType := value_view TpmBool.codec.

(** ** Laws *)

(** Scalars: a codec that reads an [N]-byte integer and converts it. *)
Lemma int_cast_Ok N signed s vw mid :
  (0 < N)%nat → slice_ok s → cast_prefix_field (TpmInt.wire_type N) s = Ok (vw, mid) →
  ∃ z, TpmInt.view_value N signed vw = z ∧ TpmInt.in_range N signed z ∧
       consumes (be_encode N (TpmInt.to_unsigned N z)) s mid.
Proof.
  intros HN Hok Hc. apply cast_sound in Hc as (n & bs & Hb & Hc & Hv & _); [|done].
  apply (int_view_of N _ _ signed) in Hv. simpl in Hb.
  apply int_wire_Some in Hb as [-> Hl].
  exists (TpmInt.value N signed n); split; [done|]. split; [by apply value_in_range|].
  change (be_encode N (TpmInt.to_unsigned N (TpmInt.value N signed n)))
    with (TpmInt.bytes (TpmInt.new N (TpmInt.value N signed n))).
  by rewrite new_value.
Qed.

Lemma int_cast_consumes N signed z s r :
  (0 < N)%nat → slice_ok s → TpmInt.in_range N signed z →
  consumes (be_encode N (TpmInt.to_unsigned N z)) s r →
  ∃ vw, cast_prefix_field (TpmInt.wire_type N) s = Ok (vw, r) ∧
        TpmInt.view_value N signed vw = z.
Proof.
  intros HN Hok Hz Hc.
  destruct (cast_complete (t:=TpmInt.wire_type N) (TpmInt.new N z) _ s r Hok
              (int_wire_new N z) Hc) as [vw Hvw].
  exists vw; split; [done|].
  destruct (int_cast_Ok N signed s vw r HN Hok Hvw) as (z' & Hz' & Hr & Hc').
  rewrite Hz'.
  assert (be_encode N (TpmInt.to_unsigned N z) = be_encode N (TpmInt.to_unsigned N z')) as E.
  { destruct Hc as [Hc _], Hc' as [Hc' _]. rewrite Hc in Hc'. by apply app_inv_tail in Hc'. }
  apply (f_equal be_decode) in E.
  assert (∀ x, 0 ≤ TpmInt.to_unsigned N x < 2 ^ (8 * Z.of_nat N)) as Hu.
  { intros x. apply Z.mod_pos_bound, Z.pow_pos_nonneg; lia. }
  rewrite !be_decode_encode in E by done.
  rewrite <-(of_to_unsigned N signed HN z), <-(of_to_unsigned N signed HN z') by done.
  by rewrite E.
Qed.

Lemma value_view_ok c : CodecOk c → WireOk (value_view c).
Proof.
  intros Hc. split; simpl; try done.
  - intros s vw r Hok Hu. apply unmarshal_sound in Hu as (bs & ? & ?); [|done]. by exists vw, bs.
  - intros v bs s r Hok Hw Hcs. exists v. by eapply unmarshal_wire.
  - intros s Hok. by apply unmarshal_no_panic.
Qed.

Section enum_laws.
Context (T : Type) `{TpmEnumOk T}.

Lemma try_from_inv raw (v : T) : try_from T raw = Ok v → value v = raw.
Proof.
  unfold try_from. destruct (find _ _) as [v'|] eqn:Hf; [|done]. intros [= ->].
  apply find_some in Hf as [_ Hf]. lia.
Qed.

Lemma value_inj (v1 v2 : T) : value v1 = value v2 → v1 = v2.
Proof.
  intros E. pose proof (try_from_value v1) as H1. rewrite E, try_from_value in H1. congruence.
Qed.

(** [try_from] is exactly the inverse of [value]. *)
Lemma enum_try_from_spec raw :
  match try_from T raw with
  | Ok v => value v = raw
  | Err e => e = VariantNotAvailable 0 (raw `mod` 2 ^ 64) ∧ ∀ v : T, value v ≠ raw
  | Panic => False
  end.
Proof.
  destruct (try_from T raw) as [v| |] eqn:Ht.
  - by apply try_from_inv.
  - split.
    + unfold try_from in Ht. destruct (find _ _); congruence.
    + intros v Hv. rewrite <-Hv, try_from_value in Ht. done.
  - unfold try_from in Ht. destruct (find _ _); congruence.
Qed.

Lemma try_from_Ok raw (v : T) : try_from T raw = Ok v ↔ value v = raw.
Proof. split; [apply try_from_inv | intros <-; apply try_from_value]. Qed.

Lemma try_from_no_panic raw : try_from T raw ≠ Panic.
Proof. pose proof (enum_try_from_spec raw). by destruct (try_from T raw). Qed.

#[export] Instance enum_eq_dec : EqDecision T :=
  λ a b, match Z.eq_dec (value a) (value b) with
         | left E => left (value_inj a b E)
         | right N => right (λ E, N (f_equal value E))
         end.

#[export] Instance enum_codec_ok : CodecOk (enum_codec T).
Proof.
  pose proof (repr_width_pos (T:=T)) as HN.
  assert (∀ z, zlen (be_encode (repr_width T) z) = Z.of_nat (repr_width T)) as Hl.
  { intros; unfold zlen; by rewrite length_be_encode. }
  split; simpl; unfold enum_wire, enum_SIZE.
  - lia.
  - intros v bs [= <-]. by rewrite Hl.
  - intros v bs [= <-]. by rewrite Hl.
  - intros v bs [= <-]. apply writes_write_bytes.
  - intros v bs s r Hok [= <-] Hc. unfold enum_cast_prefix_field.
    destruct (int_cast_consumes (repr_width T) (repr_signed T) (value v) s r) as (vw & Hvw & Hz);
      [done | done | apply value_range | done |].
    unfold enum_wrapper. rewrite Hvw; simpl. by rewrite Hz, try_from_value.
  - intros s v r Hok ([vw mid] & Hvw & Hw)%result_bind_Ok_inv.
    apply (int_cast_Ok (repr_width T) (repr_signed T)) in Hvw as (z & Hz & _ & Hc); [|done..].
    apply result_bind_Ok_inv in Hw as (v' & Ht & [= <- <-]).
    rewrite Hz in Ht. apply try_from_inv in Ht. subst z.
    eexists; split; [done|]. by rewrite Ht.
  - intros s Hok. apply result_bind_not_Panic; [by apply cast_no_panic|].
    intros [vw mid] _. unfold try_from. by destruct (find _ _).
Qed.

#[export] Instance tpm_enum_ok : WireOk (tpm_enum T) := value_view_ok _ _.
End enum_laws.

Section bitflags_laws.
Variable N : nat.
Hypothesis HN : (0 < N)%nat.

Lemma bitflags_wire_Some v bs :
  Bitflags.wire N v = Some bs ↔
  TpmInt.in_range N false (Bitflags.bits v) ∧
  bs = be_encode N (TpmInt.to_unsigned N (Bitflags.bits v)).
Proof using HN.
  unfold Bitflags.wire, TpmInt.in_range, TpmInt.min_value, TpmInt.max_value.
  destruct (two_pow_bits N HN). split.
  - case_match eqn:Hb; [|done]. intros [= <-].
    split; [lia|]. unfold TpmInt.to_unsigned. rewrite Z.mod_small; [done | lia].
  - intros [Hr ->]. case_match eqn:Hb; [|lia].
    unfold TpmInt.to_unsigned. rewrite Z.mod_small; [done | lia].
Qed.

#[export] Instance bitflags_ok : WireOk (tpm_bitflags N).
Proof using HN.
  apply value_view_ok. split; simpl; unfold Bitflags.SIZE.
  - lia.
  - intros v bs [_ ->]%bitflags_wire_Some. unfold zlen; by rewrite length_be_encode.
  - intros v bs [_ ->]%bitflags_wire_Some. unfold zlen; by rewrite length_be_encode.
  - intros v bs [_ ->]%bitflags_wire_Some. apply writes_write_bytes.
  - intros [b] bs s r Hok [Hr ->]%bitflags_wire_Some Hc. unfold Bitflags.cast_prefix_field.
    destruct (int_cast_consumes N false b s r) as (vw & -> & Hz); [done..|].
    simpl. by rewrite Hz.
  - intros s v r Hok ([vw mid] & Hvw & [= <- <-])%result_bind_Ok_inv.
    apply (int_cast_Ok N false) in Hvw as (z & -> & Hz & Hc); [|done..].
    eexists; split; [|done]. by apply bitflags_wire_Some.
  - intros s Hok. apply result_bind_not_Panic; [|by intros [? ?]].
    by apply (cast_no_panic (t:=TpmInt.wire_type N)).
Qed.

Lemma bitflags_wire_bound v :
  0 ≤ Bitflags.bits v < 2 ^ TpmInt.bits N → is_Some (Bitflags.wire N v).
Proof using Type.
  intros [H1 H2]. unfold Bitflags.wire.
  by rewrite (proj2 (Z.leb_le _ _)), (proj2 (Z.ltb_lt _ _)).
Qed.

Lemma bitflags_not_bit a i :
  0 ≤ Bitflags.bits a < 2 ^ TpmInt.bits N → 0 ≤ i →
  Z.testbit (Bitflags.bits (Bitflags.not N a)) i =
  (if i <? TpmInt.bits N then negb (Z.testbit (Bitflags.bits a) i) else false).
Proof using Type.
  clear HN. intros Ha Hi. simpl. rewrite Z.lxor_spec. destruct (Z.ltb_spec i (TpmInt.bits N)).
  - rewrite Z.ones_spec_low by lia. apply xorb_true_r.
  - rewrite Z.ones_spec_high by (unfold TpmInt.bits in *; lia).
    by rewrite (testbit_above (TpmInt.bits N)).
Qed.

Lemma bitflags_contains a b : Bitflags.contains a b = true ↔ Bitflags.bitor a b = a.
Proof using Type.
  destruct a as [a], b as [b]. unfold Bitflags.contains, Bitflags.bitor; simpl.
  rewrite Z.eqb_eq. split.
  - intros H. f_equal. rewrite <-H. apply Z.bits_inj'. intros i _.
    rewrite Z.lor_spec, Z.land_spec. by destruct (Z.testbit a i), (Z.testbit b i).
  - intros [= H]. rewrite <-H. apply Z.bits_inj'. intros i _.
    rewrite Z.land_spec, Z.lor_spec. by destruct (Z.testbit a i), (Z.testbit b i).
Qed.
End bitflags_laws.

#[export] Instance tpm_bool_ok : WireOk tpm_bool.
Proof.
  apply value_view_ok. split; simpl; unfold TpmBool.SIZE, TpmBool.wire.
  - lia.
  - by intros v bs [= <-].
  - by intros v bs [= <-].
  - intros v bs [= <-]. destruct v; apply writes_write_bytes.
  - intros v bs s r Hok [= <-] Hc. unfold TpmBool.cast_prefix_field.
    destruct (int_cast_consumes 1 false (if v then 1 else 0) s r) as (vw & Hvw & Hz);
      [lia | done | by destruct v | by destruct v |].
    unfold TpmUint8. rewrite Hvw; simpl. rewrite Hz. by destruct v.
  - intros s v r Hok ([vw mid] & Hvw & Hw)%result_bind_Ok_inv.
    apply (int_cast_Ok 1 false) in Hvw as (z & Hz & Hr & Hc); [|lia|done].
    rewrite Hz in Hw. eexists; split; [done|].
    destruct z as [|[| |]|]; try done; injection Hw as <- <-; done.
  - intros s Hok. apply result_bind_not_Panic; [by apply (cast_no_panic (t:=TpmUint8))|].
    intros [vw mid] _. by repeat case_match.
Qed.
