(* ===== verification/Enums.v ===== *)
(** The enums of [protocol/src/data/enum/mod.rs] and [data/tpmi.rs]: one
    Module per [tpm_enum!] declaration with its variants, discriminants and
    display names, and the codec the macro derives. *)

From S2P Require Import Prelude Errors Writer Codec Integer EnumMacro.

(** [enum TpmAlgId(TpmUint16)] *)
Module TpmAlgId.
Inductive t : Type :=
| Error
| Rsa
| Tdes
| Sha1
| Hmac
| Aes
| Mgf1
| KeyedHash
| Xor
| Sha256
| Sha384
| Sha512
| Null
| Sm3_256
| Sm4
| Rsassa
| Rsaes
| Rsapss
| Oaep
| Ecdsa
| Ecdh
| Ecdaa
| Sm2
| Ecschnorr
| Ecmqv
| Kdf1Sp800_56A
| Kdf2
| Kdf1Sp800_108
| Ecc
| SymCipher
| Camellia
| Sha3_256
| Sha3_384
| Sha3_512
| Shake128
| Shake256
| Shake256_192
| Shake256_256
| Shake256_512
| Cmac
| Ctr
| Ofb
| Cbc
| Cfb
| Ecb
| Ccm
| Gcm
| Kw
| Kwp
| Eax
| Eddsa
| EddsaPh
| Lms
| Xmss
| Keyedxof
| Kmacxof128
| Kmacxof256
| Kmac128
| Kmac256.

Definition value (v : t) : Z :=
  match v with
  | Error => 0x0
  | Rsa => 0x1
  | Tdes => 0x3
  | Sha1 => 0x4
  | Hmac => 0x5
  | Aes => 0x6
  | Mgf1 => 0x7
  | KeyedHash => 0x8
  | Xor => 0xa
  | Sha256 => 0xb
  | Sha384 => 0xc
  | Sha512 => 0xd
  | Null => 0x10
  | Sm3_256 => 0x12
  | Sm4 => 0x13
  | Rsassa => 0x14
  | Rsaes => 0x15
  | Rsapss => 0x16
  | Oaep => 0x17
  | Ecdsa => 0x18
  | Ecdh => 0x19
  | Ecdaa => 0x1a
  | Sm2 => 0x1b
  | Ecschnorr => 0x1c
  | Ecmqv => 0x1d
  | Kdf1Sp800_56A => 0x20
  | Kdf2 => 0x21
  | Kdf1Sp800_108 => 0x22
  | Ecc => 0x23
  | SymCipher => 0x25
  | Camellia => 0x26
  | Sha3_256 => 0x27
  | Sha3_384 => 0x28
  | Sha3_512 => 0x29
  | Shake128 => 0x2a
  | Shake256 => 0x2b
  | Shake256_192 => 0x2c
  | Shake256_256 => 0x2d
  | Shake256_512 => 0x2e
  | Cmac => 0x3f
  | Ctr => 0x40
  | Ofb => 0x41
  | Cbc => 0x42
  | Cfb => 0x43
  | Ecb => 0x44
  | Ccm => 0x50
  | Gcm => 0x51
  | Kw => 0x52
  | Kwp => 0x53
  | Eax => 0x54
  | Eddsa => 0x60
  | EddsaPh => 0x61
  | Lms => 0x70
  | Xmss => 0x71
  | Keyedxof => 0x80
  | Kmacxof128 => 0x81
  | Kmacxof256 => 0x82
  | Kmac128 => 0x90
  | Kmac256 => 0x91
  end.

Definition display (v : t) : string :=
  match v with
  | Error => "TPM_ALG_ERROR"
  | Rsa => "TPM_ALG_RSA"
  | Tdes => "TPM_ALG_TDES"
  | Sha1 => "TPM_ALG_SHA1"
  | Hmac => "TPM_ALG_HMAC"
  | Aes => "TPM_ALG_AES"
  | Mgf1 => "TPM_ALG_MGF1"
  | KeyedHash => "TPM_ALG_KEYEDHASH"
  | Xor => "TPM_ALG_XOR"
  | Sha256 => "TPM_ALG_SHA256"
  | Sha384 => "TPM_ALG_SHA384"
  | Sha512 => "TPM_ALG_SHA512"
  | Null => "TPM_ALG_NULL"
  | Sm3_256 => "TPM_ALG_SM3_256"
  | Sm4 => "TPM_ALG_SM4"
  | Rsassa => "TPM_ALG_RSASSA"
  | Rsaes => "TPM_ALG_RSAES"
  | Rsapss => "TPM_ALG_RSAPSS"
  | Oaep => "TPM_ALG_OAEP"
  | Ecdsa => "TPM_ALG_ECDSA"
  | Ecdh => "TPM_ALG_ECDH"
  | Ecdaa => "TPM_ALG_ECDAA"
  | Sm2 => "TPM_ALG_SM2"
  | Ecschnorr => "TPM_ALG_ECSCHNORR"
  | Ecmqv => "TPM_ALG_ECMQV"
  | Kdf1Sp800_56A => "TPM_ALG_KDF1_SP800_56A"
  | Kdf2 => "TPM_ALG_KDF2"
  | Kdf1Sp800_108 => "TPM_ALG_KDF1_SP800_108"
  | Ecc => "TPM_ALG_ECC"
  | SymCipher => "TPM_ALG_SYMCIPHER"
  | Camellia => "TPM_ALG_CAMELLIA"
  | Sha3_256 => "TPM_ALG_SHA3_256"
  | Sha3_384 => "TPM_ALG_SHA3_384"
  | Sha3_512 => "TPM_ALG_SHA3_512"
  | Shake128 => "TPM_ALG_SHAKE_128"
  | Shake256 => "TPM_ALG_SHAKE_256"
  | Shake256_192 => "TPM_ALG_SHAKE_256_192"
  | Shake256_256 => "TPM_ALG_SHAKE_256_256"
  | Shake256_512 => "TPM_ALG_SHAKE_256_512"
  | Cmac => "TPM_ALG_CMAC"
  | Ctr => "TPM_ALG_CTR"
  | Ofb => "TPM_ALG_OFB"
  | Cbc => "TPM_ALG_CBC"
  | Cfb => "TPM_ALG_CFB"
  | Ecb => "TPM_ALG_ECB"
  | Ccm => "TPM_ALG_CCM"
  | Gcm => "TPM_ALG_GCM"
  | Kw => "TPM_ALG_KW"
  | Kwp => "TPM_ALG_KWP"
  | Eax => "TPM_ALG_EAX"
  | Eddsa => "TPM_ALG_EDDSA"
  | EddsaPh => "TPM_ALG_EDDSA_PH"
  | Lms => "TPM_ALG_LMS"
  | Xmss => "TPM_ALG_XMSS"
  | Keyedxof => "TPM_ALG_KEYEDXOF"
  | Kmacxof128 => "TPM_ALG_KMACXOF128"
  | Kmacxof256 => "TPM_ALG_KMACXOF256"
  | Kmac128 => "TPM_ALG_KMAC128"
  | Kmac256 => "TPM_ALG_KMAC256"
  end.

(** The variants in the order of the declaration. *)
Definition variants : list t :=
  [Error; Rsa; Tdes; Sha1; Hmac; Aes; Mgf1; KeyedHash; Xor; Sha256; Sha384; Sha512; Null;
   Sm3_256; Sm4; Rsassa; Rsaes; Rsapss; Oaep; Ecdsa; Ecdh; Ecdaa; Sm2; Ecschnorr; Ecmqv;
   Kdf1Sp800_56A; Kdf2; Kdf1Sp800_108; Ecc; SymCipher; Camellia; Sha3_256; Sha3_384;
   Sha3_512; Shake128; Shake256; Shake256_192; Shake256_256; Shake256_512; Cmac; Ctr;
   Ofb; Cbc; Cfb; Ecb; Ccm; Gcm; Kw; Kwp; Eax; Eddsa; EddsaPh; Lms; Xmss; Keyedxof;
   Kmacxof128; Kmacxof256; Kmac128; Kmac256].
End TpmAlgId.

#[export] Instance TpmAlgId_enum : TpmEnum TpmAlgId.t := {|
  repr_width := 2; repr_signed := false; value := TpmAlgId.value;
  display := TpmAlgId.display; variants := TpmAlgId.variants |}.
#[export] Instance TpmAlgId_enum_ok : TpmEnumOk TpmAlgId.t.
Proof. solve_enum_ok. Qed.
Definition TpmAlgId : WireType := tpm_enum TpmAlgId.t.
#[export] Instance TpmAlgId_ok : WireOk TpmAlgId := tpm_enum_ok TpmAlgId.t.

(** [enum TpmAt(TpmUint32)] *)
Module TpmAt.
Inductive t : Type :=
| Any
| Error
| Pv1
| Vend.

Definition value (v : t) : Z :=
  match v with
  | Any => 0x0
  | Error => 0x1
  | Pv1 => 0x2
  | Vend => 0x80000000
  end.

Definition display (v : t) : string :=
  match v with
  | Any => "TPM_AT_ANY"
  | Error => "TPM_AT_ERROR"
  | Pv1 => "TPM_AT_PV1"
  | Vend => "TPM_AT_VEND"
  end.

(** The variants in the order of the declaration. *)
Definition variants : list t :=
  [Any; Error; Pv1; Vend].
End TpmAt.

#[export] Instance TpmAt_enum : TpmEnum TpmAt.t := {|
  repr_width := 4; repr_signed := false; value := TpmAt.value;
  display := TpmAt.display; variants := TpmAt.variants |}.
#[export] Instance TpmAt_enum_ok : TpmEnumOk TpmAt.t.
Proof. solve_enum_ok. Qed.
Definition TpmAt : WireType := tpm_enum TpmAt.t.
#[export] Instance TpmAt_ok : WireOk TpmAt := tpm_enum_ok TpmAt.t.

(** [enum TpmCap(TpmUint32)] *)
Module TpmCap.
Inductive t : Type :=
| Algs
| Handles
| Commands
| PpCommands
| AuditCommands
| Pcrs
| TpmProperties
| PcrProperties
| EccCurves
| AuthPolicies
| Act
| VendorProperty.

Definition value (v : t) : Z :=
  match v with
  | Algs => 0x0
  | Handles => 0x1
  | Commands => 0x2
  | PpCommands => 0x3
  | AuditCommands => 0x4
  | Pcrs => 0x5
  | TpmProperties => 0x6
  | PcrProperties => 0x7
  | EccCurves => 0x8
  | AuthPolicies => 0x9
  | Act => 0xa
  | VendorProperty => 0x100
  end.

Definition display (v : t) : string :=
  match v with
  | Algs => "TPM_CAP_ALGS"
  | Handles => "TPM_CAP_HANDLES"
  | Commands => "TPM_CAP_COMMANDS"
  | PpCommands => "TPM_CAP_PP_COMMANDS"
  | AuditCommands => "TPM_CAP_AUDIT_COMMANDS"
  | Pcrs => "TPM_CAP_PCRS"
  | TpmProperties => "TPM_CAP_TPM_PROPERTIES"
  | PcrProperties => "TPM_CAP_PCR_PROPERTIES"
  | EccCurves => "TPM_CAP_ECC_CURVES"
  | AuthPolicies => "TPM_CAP_AUTH_POLICIES"
  | Act => "TPM_CAP_ACT"
  | VendorProperty => "TPM_CAP_VENDOR_PROPERTY"
  end.

(** The variants in the order of the declaration. *)
Definition variants : list t :=
  [Algs; Handles; Commands; PpCommands; AuditCommands; Pcrs; TpmProperties;
   PcrProperties; EccCurves; AuthPolicies; Act; VendorProperty].
End TpmCap.

#[export] Instance TpmCap_enum : TpmEnum TpmCap.t := {|
  repr_width := 4; repr_signed := false; value := TpmCap.value;
  display := TpmCap.display; variants := TpmCap.variants |}.
#[export] Instance TpmCap_enum_ok : TpmEnumOk TpmCap.t.
Proof. solve_enum_ok. Qed.
Definition TpmCap : WireType := tpm_enum TpmCap.t.
#[export] Instance TpmCap_ok : WireOk TpmCap := tpm_enum_ok TpmCap.t.

(** [enum TpmCc(TpmUint32)] *)
Module TpmCc.
Inductive t : Type :=
| NvUndefineSpaceSpecial
| EvictControl
| HierarchyControl
| NvUndefineSpace
| ChangeEps
| ChangePps
| Clear
| ClearControl
| ClockSet
| HierarchyChangeAuth
| NvDefineSpace
| PcrAllocate
| PcrSetAuthPolicy
| PpCommands
| SetPrimaryPolicy
| FieldUpgradeStart
| ClockRateAdjust
| CreatePrimary
| NvGlobalWriteLock
| GetCommandAuditDigest
| NvIncrement
| NvSetBits
| NvExtend
| NvWrite
| NvWriteLock
| DictionaryAttackLockReset
| DictionaryAttackParameters
| NvChangeAuth
| PcrEvent
| PcrReset
| SequenceComplete
| SetAlgorithmSet
| SetCommandCodeAuditStatus
| FieldUpgradeData
| IncrementalSelfTest
| SelfTest
| Startup
| Shutdown
| StirRandom
| ActivateCredential
| Certify
| PolicyNv
| CertifyCreation
| Duplicate
| GetTime
| GetSessionAuditDigest
| NvRead
| NvReadLock
| ObjectChangeAuth
| PolicySecret
| Rewrap
| Create
| EcdhZGen
| Hmac
| Import
| Load
| Quote
| RsaDecrypt
| HmacStart
| SequenceUpdate
| Sign
| Unseal
| PolicySigned
| ContextLoad
| ContextSave
| EcdhKeyGen
| EncryptDecrypt
| FlushContext
| LoadExternal
| MakeCredential
| NvReadPublic
| PolicyAuthorize
| PolicyAuthValue
| PolicyCommandCode
| PolicyCounterTimer
| PolicyCpHash
| PolicyLocality
| PolicyNameHash
| PolicyOr
| PolicyTicket
| ReadPublic
| RsaEncrypt
| StartAuthSession
| VerifySignature
| EccParameters
| FirmwareRead
| GetCapability
| GetRandom
| GetTestResult
| Hash
| PcrRead
| PolicyPcr
| PolicyRestart
| ReadClock
| PcrExtend
| PcrSetAuthValue
| NvCertify
| EventSequenceComplete
| HashSequenceStart
| PolicyPhysicalPresence
| PolicyDuplicationSelect
| PolicyGetDigest
| TestParms
| Commit
| PolicyPassword
| ZGen2Phase
| EcEphemeral
| PolicyNvWritten
| PolicyTemplate
| CreateLoaded
| PolicyAuthorizeNv
| EncryptDecrypt2
| AcGetCapability
| AcSend
| PolicyAcSendSelect
| ActSetTimeout
| EccEncrypt
| EccDecrypt
| PolicyCapability
| PolicyParameters
| NvDefineSpace2
| NvReadPublic2
| SetCapability
| ReadOnlyControl
| PolicyTransportSpdm
| VendorTcgTest.

Definition value (v : t) : Z :=
  match v with
  | NvUndefineSpaceSpecial => 0x11f
  | EvictControl => 0x120
  | HierarchyControl => 0x121
  | NvUndefineSpace => 0x122
  | ChangeEps => 0x124
  | ChangePps => 0x125
  | Clear => 0x126
  | ClearControl => 0x127
  | ClockSet => 0x128
  | HierarchyChangeAuth => 0x129
  | NvDefineSpace => 0x12a
  | PcrAllocate => 0x12b
  | PcrSetAuthPolicy => 0x12c
  | PpCommands => 0x12d
  | SetPrimaryPolicy => 0x12e
  | FieldUpgradeStart => 0x12f
  | ClockRateAdjust => 0x130
  | CreatePrimary => 0x131
  | NvGlobalWriteLock => 0x132
  | GetCommandAuditDigest => 0x133
  | NvIncrement => 0x134
  | NvSetBits => 0x135
  | NvExtend => 0x136
  | NvWrite => 0x137
  | NvWriteLock => 0x138
  | DictionaryAttackLockReset => 0x139
  | DictionaryAttackParameters => 0x13a
  | NvChangeAuth => 0x13b
  | PcrEvent => 0x13c
  | PcrReset => 0x13d
  | SequenceComplete => 0x13e
  | SetAlgorithmSet => 0x13f
  | SetCommandCodeAuditStatus => 0x140
  | FieldUpgradeData => 0x141
  | IncrementalSelfTest => 0x142
  | SelfTest => 0x143
  | Startup => 0x144
  | Shutdown => 0x145
  | StirRandom => 0x146
  | ActivateCredential => 0x147
  | Certify => 0x148
  | PolicyNv => 0x149
  | CertifyCreation => 0x14a
  | Duplicate => 0x14b
  | GetTime => 0x14c
  | GetSessionAuditDigest => 0x14d
  | NvRead => 0x14e
  | NvReadLock => 0x14f
  | ObjectChangeAuth => 0x150
  | PolicySecret => 0x151
  | Rewrap => 0x152
  | Create => 0x153
  | EcdhZGen => 0x154
  | Hmac => 0x155
  | Import => 0x156
  | Load => 0x157
  | Quote => 0x158
  | RsaDecrypt => 0x159
  | HmacStart => 0x15b
  | SequenceUpdate => 0x15c
  | Sign => 0x15d
  | Unseal => 0x15e
  | PolicySigned => 0x160
  | ContextLoad => 0x161
  | ContextSave => 0x162
  | EcdhKeyGen => 0x163
  | EncryptDecrypt => 0x164
  | FlushContext => 0x165
  | LoadExternal => 0x167
  | MakeCredential => 0x168
  | NvReadPublic => 0x169
  | PolicyAuthorize => 0x16a
  | PolicyAuthValue => 0x16b
  | PolicyCommandCode => 0x16c
  | PolicyCounterTimer => 0x16d
  | PolicyCpHash => 0x16e
  | PolicyLocality => 0x16f
  | PolicyNameHash => 0x170
  | PolicyOr => 0x171
  | PolicyTicket => 0x172
  | ReadPublic => 0x173
  | RsaEncrypt => 0x174
  | StartAuthSession => 0x176
  | VerifySignature => 0x177
  | EccParameters => 0x178
  | FirmwareRead => 0x179
  | GetCapability => 0x17a
  | GetRandom => 0x17b
  | GetTestResult => 0x17c
  | Hash => 0x17d
  | PcrRead => 0x17e
  | PolicyPcr => 0x17f
  | PolicyRestart => 0x180
  | ReadClock => 0x181
  | PcrExtend => 0x182
  | PcrSetAuthValue => 0x183
  | NvCertify => 0x184
  | EventSequenceComplete => 0x185
  | HashSequenceStart => 0x186
  | PolicyPhysicalPresence => 0x187
  | PolicyDuplicationSelect => 0x188
  | PolicyGetDigest => 0x189
  | TestParms => 0x18a
  | Commit => 0x18b
  | PolicyPassword => 0x18c
  | ZGen2Phase => 0x18d
  | EcEphemeral => 0x18e
  | PolicyNvWritten => 0x18f
  | PolicyTemplate => 0x190
  | CreateLoaded => 0x191
  | PolicyAuthorizeNv => 0x192
  | EncryptDecrypt2 => 0x193
  | AcGetCapability => 0x194
  | AcSend => 0x195
  | PolicyAcSendSelect => 0x196
  | ActSetTimeout => 0x198
  | EccEncrypt => 0x199
  | EccDecrypt => 0x19a
  | PolicyCapability => 0x19b
  | PolicyParameters => 0x19c
  | NvDefineSpace2 => 0x19d
  | NvReadPublic2 => 0x19e
  | SetCapability => 0x19f
  | ReadOnlyControl => 0x1a0
  | PolicyTransportSpdm => 0x1a1
  | VendorTcgTest => 0x20000000
  end.

Definition display (v : t) : string :=
  match v with
  | NvUndefineSpaceSpecial => "TPM_CC_NV_UndefineSpaceSpecial"
  | EvictControl => "TPM_CC_EvictControl"
  | HierarchyControl => "TPM_CC_HierarchyControl"
  | NvUndefineSpace => "TPM_CC_NV_UndefineSpace"
  | ChangeEps => "TPM_CC_ChangeEPS"
  | ChangePps => "TPM_CC_ChangePPS"
  | Clear => "TPM_CC_Clear"
  | ClearControl => "TPM_CC_ClearControl"
  | ClockSet => "TPM_CC_ClockSet"
  | HierarchyChangeAuth => "TPM_CC_HierarchyChangeAuth"
  | NvDefineSpace => "TPM_CC_NV_DefineSpace"
  | PcrAllocate => "TPM_CC_PCR_Allocate"
  | PcrSetAuthPolicy => "TPM_CC_PCR_SetAuthPolicy"
  | PpCommands => "TPM_CC_PP_Commands"
  | SetPrimaryPolicy => "TPM_CC_SetPrimaryPolicy"
  | FieldUpgradeStart => "TPM_CC_FieldUpgradeStart"
  | ClockRateAdjust => "TPM_CC_ClockRateAdjust"
  | CreatePrimary => "TPM_CC_CreatePrimary"
  | NvGlobalWriteLock => "TPM_CC_NV_GlobalWriteLock"
  | GetCommandAuditDigest => "TPM_CC_GetCommandAuditDigest"
  | NvIncrement => "TPM_CC_NV_Increment"
  | NvSetBits => "TPM_CC_NV_SetBits"
  | NvExtend => "TPM_CC_NV_Extend"
  | NvWrite => "TPM_CC_NV_Write"
  | NvWriteLock => "TPM_CC_NV_WriteLock"
  | DictionaryAttackLockReset => "TPM_CC_DictionaryAttackLockReset"
  | DictionaryAttackParameters => "TPM_CC_DictionaryAttackParameters"
  | NvChangeAuth => "TPM_CC_NV_ChangeAuth"
  | PcrEvent => "TPM_CC_PCR_Event"
  | PcrReset => "TPM_CC_PCR_Reset"
  | SequenceComplete => "TPM_CC_SequenceComplete"
  | SetAlgorithmSet => "TPM_CC_SetAlgorithmSet"
  | SetCommandCodeAuditStatus => "TPM_CC_SetCommandCodeAuditStatus"
  | FieldUpgradeData => "TPM_CC_FieldUpgradeData"
  | IncrementalSelfTest => "TPM_CC_IncrementalSelfTest"
  | SelfTest => "TPM_CC_SelfTest"
  | Startup => "TPM_CC_Startup"
  | Shutdown => "TPM_CC_Shutdown"
  | StirRandom => "TPM_CC_StirRandom"
  | ActivateCredential => "TPM_CC_ActivateCredential"
  | Certify => "TPM_CC_Certify"
  | PolicyNv => "TPM_CC_PolicyNV"
  | CertifyCreation => "TPM_CC_CertifyCreation"
  | Duplicate => "TPM_CC_Duplicate"
  | GetTime => "TPM_CC_GetTime"
  | GetSessionAuditDigest => "TPM_CC_GetSessionAuditDigest"
  | NvRead => "TPM_CC_NV_Read"
  | NvReadLock => "TPM_CC_NV_ReadLock"
  | ObjectChangeAuth => "TPM_CC_ObjectChangeAuth"
  | PolicySecret => "TPM_CC_PolicySecret"
  | Rewrap => "TPM_CC_Rewrap"
  | Create => "TPM_CC_Create"
  | EcdhZGen => "TPM_CC_ECDH_ZGen"
  | Hmac => "TPM_CC_HMAC"
  | Import => "TPM_CC_Import"
  | Load => "TPM_CC_Load"
  | Quote => "TPM_CC_Quote"
  | RsaDecrypt => "TPM_CC_RSA_Decrypt"
  | HmacStart => "TPM_CC_HMAC_Start"
  | SequenceUpdate => "TPM_CC_SequenceUpdate"
  | Sign => "TPM_CC_Sign"
  | Unseal => "TPM_CC_Unseal"
  | PolicySigned => "TPM_CC_PolicySigned"
  | ContextLoad => "TPM_CC_ContextLoad"
  | ContextSave => "TPM_CC_ContextSave"
  | EcdhKeyGen => "TPM_CC_ECDH_KeyGen"
  | EncryptDecrypt => "TPM_CC_EncryptDecrypt"
  | FlushContext => "TPM_CC_FlushContext"
  | LoadExternal => "TPM_CC_LoadExternal"
  | MakeCredential => "TPM_CC_MakeCredential"
  | NvReadPublic => "TPM_CC_NV_ReadPublic"
  | PolicyAuthorize => "TPM_CC_PolicyAuthorize"
  | PolicyAuthValue => "TPM_CC_PolicyAuthValue"
  | PolicyCommandCode => "TPM_CC_PolicyCommandCode"
  | PolicyCounterTimer => "TPM_CC_PolicyCounterTimer"
  | PolicyCpHash => "TPM_CC_PolicyCpHash"
  | PolicyLocality => "TPM_CC_PolicyLocality"
  | PolicyNameHash => "TPM_CC_PolicyNameHash"
  | PolicyOr => "TPM_CC_PolicyOr"
  | PolicyTicket => "TPM_CC_PolicyTicket"
  | ReadPublic => "TPM_CC_ReadPublic"
  | RsaEncrypt => "TPM_CC_RSA_Encrypt"
  | StartAuthSession => "TPM_CC_StartAuthSession"
  | VerifySignature => "TPM_CC_VerifySignature"
  | EccParameters => "TPM_CC_ECC_Parameters"
  | FirmwareRead => "TPM_CC_FirmwareRead"
  | GetCapability => "TPM_CC_GetCapability"
  | GetRandom => "TPM_CC_GetRandom"
  | GetTestResult => "TPM_CC_GetTestResult"
  | Hash => "TPM_CC_Hash"
  | PcrRead => "TPM_CC_PCR_Read"
  | PolicyPcr => "TPM_CC_PolicyPCR"
  | PolicyRestart => "TPM_CC_PolicyRestart"
  | ReadClock => "TPM_CC_ReadClock"
  | PcrExtend => "TPM_CC_PCR_Extend"
  | PcrSetAuthValue => "TPM_CC_PCR_SetAuthValue"
  | NvCertify => "TPM_CC_NV_Certify"
  | EventSequenceComplete => "TPM_CC_EventSequenceComplete"
  | HashSequenceStart => "TPM_CC_HashSequenceStart"
  | PolicyPhysicalPresence => "TPM_CC_PolicyPhysicalPresence"
  | PolicyDuplicationSelect => "TPM_CC_PolicyDuplicationSelect"
  | PolicyGetDigest => "TPM_CC_PolicyGetDigest"
  | TestParms => "TPM_CC_TestParms"
  | Commit => "TPM_CC_Commit"
  | PolicyPassword => "TPM_CC_PolicyPassword"
  | ZGen2Phase => "TPM_CC_ZGen_2Phase"
  | EcEphemeral => "TPM_CC_EC_Ephemeral"
  | PolicyNvWritten => "TPM_CC_PolicyNvWritten"
  | PolicyTemplate => "TPM_CC_PolicyTemplate"
  | CreateLoaded => "TPM_CC_CreateLoaded"
  | PolicyAuthorizeNv => "TPM_CC_PolicyAuthorizeNV"
  | EncryptDecrypt2 => "TPM_CC_EncryptDecrypt2"
  | AcGetCapability => "TPM_CC_AcGetCapability"
  | AcSend => "TPM_CC_AcSend"
  | PolicyAcSendSelect => "TPM_CC_Policy_AC_SendSelect"
  | ActSetTimeout => "TPM2_ACT_SetTimeout"
  | EccEncrypt => "TPM_CC_ECC_Encrypt"
  | EccDecrypt => "TPM_CC_ECC_Decrypt"
  | PolicyCapability => "TPM_CC_PolicyCapability"
  | PolicyParameters => "TPM_CC_PolicyParameters"
  | NvDefineSpace2 => "TPM_CC_NV_DefineSpace2"
  | NvReadPublic2 => "TPM_CC_NV_ReadPublic2"
  | SetCapability => "TPM_CC_SetCapability"
  | ReadOnlyControl => "TPM_CC_ReadOnlyControl"
  | PolicyTransportSpdm => "TPM_CC_Policy_TransportSPDM"
  | VendorTcgTest => "TPM_CC_Vendor_TCG_Test"
  end.

(** The variants in the order of the declaration. *)
Definition variants : list t :=
  [NvUndefineSpaceSpecial; EvictControl; HierarchyControl; NvUndefineSpace; ChangeEps;
   ChangePps; Clear; ClearControl; ClockSet; HierarchyChangeAuth; NvDefineSpace;
   PcrAllocate; PcrSetAuthPolicy; PpCommands; SetPrimaryPolicy; FieldUpgradeStart;
   ClockRateAdjust; CreatePrimary; NvGlobalWriteLock; GetCommandAuditDigest; NvIncrement;
   NvSetBits; NvExtend; NvWrite; NvWriteLock; DictionaryAttackLockReset;
   DictionaryAttackParameters; NvChangeAuth; PcrEvent; PcrReset; SequenceComplete;
   SetAlgorithmSet; SetCommandCodeAuditStatus; FieldUpgradeData; IncrementalSelfTest;
   SelfTest; Startup; Shutdown; StirRandom; ActivateCredential; Certify; PolicyNv;
   CertifyCreation; Duplicate; GetTime; GetSessionAuditDigest; NvRead; NvReadLock;
   ObjectChangeAuth; PolicySecret; Rewrap; Create; EcdhZGen; Hmac; Import; Load; Quote;
   RsaDecrypt; HmacStart; SequenceUpdate; Sign; Unseal; PolicySigned; ContextLoad;
   ContextSave; EcdhKeyGen; EncryptDecrypt; FlushContext; LoadExternal; MakeCredential;
   NvReadPublic; PolicyAuthorize; PolicyAuthValue; PolicyCommandCode; PolicyCounterTimer;
   PolicyCpHash; PolicyLocality; PolicyNameHash; PolicyOr; PolicyTicket; ReadPublic;
   RsaEncrypt; StartAuthSession; VerifySignature; EccParameters; FirmwareRead;
   GetCapability; GetRandom; GetTestResult; Hash; PcrRead; PolicyPcr; PolicyRestart;
   ReadClock; PcrExtend; PcrSetAuthValue; NvCertify; EventSequenceComplete;
   HashSequenceStart; PolicyPhysicalPresence; PolicyDuplicationSelect; PolicyGetDigest;
   TestParms; Commit; PolicyPassword; ZGen2Phase; EcEphemeral; PolicyNvWritten;
   PolicyTemplate; CreateLoaded; PolicyAuthorizeNv; EncryptDecrypt2; AcGetCapability;
   AcSend; PolicyAcSendSelect; ActSetTimeout; EccEncrypt; EccDecrypt; PolicyCapability;
   PolicyParameters; NvDefineSpace2; NvReadPublic2; SetCapability; ReadOnlyControl;
   PolicyTransportSpdm; VendorTcgTest].
End TpmCc.

#[export] Instance TpmCc_enum : TpmEnum TpmCc.t := {|
  repr_width := 4; repr_signed := false; value := TpmCc.value;
  display := TpmCc.display; variants := TpmCc.variants |}.
#[export] Instance TpmCc_enum_ok : TpmEnumOk TpmCc.t.
Proof. solve_enum_ok. Qed.
Definition TpmCc : WireType := tpm_enum TpmCc.t.
#[export] Instance TpmCc_ok : WireOk TpmCc := tpm_enum_ok TpmCc.t.

(** [enum TpmClockAdjust(TpmInt8)] *)
Module TpmClockAdjust.
Inductive t : Type :=
| CoarseSlower
| MediumSlower
| FineSlower
| NoChange
| FineFaster
| MediumFaster
| CoarseFaster.

Definition value (v : t) : Z :=
  match v with
  | CoarseSlower => (-0x3)
  | MediumSlower => (-0x2)
  | FineSlower => (-0x1)
  | NoChange => 0x0
  | FineFaster => 0x1
  | MediumFaster => 0x2
  | CoarseFaster => 0x3
  end.

Definition display (v : t) : string :=
  match v with
  | CoarseSlower => "TPM_CLOCK_COARSE_SLOWER"
  | MediumSlower => "TPM_CLOCK_MEDIUM_SLOWER"
  | FineSlower => "TPM_CLOCK_FINE_SLOWER"
  | NoChange => "TPM_CLOCK_NO_CHANGE"
  | FineFaster => "TPM_CLOCK_FINE_FASTER"
  | MediumFaster => "TPM_CLOCK_MEDIUM_FASTER"
  | CoarseFaster => "TPM_CLOCK_COARSE_FASTER"
  end.

(** The variants in the order of the declaration. *)
Definition variants : list t :=
  [CoarseSlower; MediumSlower; FineSlower; NoChange; FineFaster; MediumFaster;
   CoarseFaster].
End TpmClockAdjust.

#[export] Instance TpmClockAdjust_enum : TpmEnum TpmClockAdjust.t := {|
  repr_width := 1; repr_signed := true; value := TpmClockAdjust.value;
  display := TpmClockAdjust.display; variants := TpmClockAdjust.variants |}.
#[export] Instance TpmClockAdjust_enum_ok : TpmEnumOk TpmClockAdjust.t.
Proof. solve_enum_ok. Qed.
Definition TpmClockAdjust : WireType := tpm_enum TpmClockAdjust.t.
#[export] Instance TpmClockAdjust_ok : WireOk TpmClockAdjust := tpm_enum_ok TpmClockAdjust.t.

(** [enum TpmEo(TpmUint16)] *)
Module TpmEo.
Inductive t : Type :=
| Eq
| Neq
| SignedGt
| UnsignedGt
| SignedLt
| UnsignedLt
| SignedGe
| UnsignedGe
| SignedLe
| UnsignedLe
| Bitset
| Bitclear.

Definition value (v : t) : Z :=
  match v with
  | Eq => 0x0
  | Neq => 0x1
  | SignedGt => 0x2
  | UnsignedGt => 0x3
  | SignedLt => 0x4
  | UnsignedLt => 0x5
  | SignedGe => 0x6
  | UnsignedGe => 0x7
  | SignedLe => 0x8
  | UnsignedLe => 0x9
  | Bitset => 0xa
  | Bitclear => 0xb
  end.

Definition display (v : t) : string :=
  match v with
  | Eq => "TPM_EO_EQ"
  | Neq => "TPM_EO_NEQ"
  | SignedGt => "TPM_EO_SIGNED_GT"
  | UnsignedGt => "TPM_EO_UNSIGNED_GT"
  | SignedLt => "TPM_EO_SIGNED_LT"
  | UnsignedLt => "TPM_EO_UNSIGNED_LT"
  | SignedGe => "TPM_EO_SIGNED_GE"
  | UnsignedGe => "TPM_EO_UNSIGNED_GE"
  | SignedLe => "TPM_EO_SIGNED_LE"
  | UnsignedLe => "TPM_EO_UNSIGNED_LE"
  | Bitset => "TPM_EO_BITSET"
  | Bitclear => "TPM_EO_BITCLEAR"
  end.

(** The variants in the order of the declaration. *)
Definition variants : list t :=
  [Eq; Neq; SignedGt; UnsignedGt; SignedLt; UnsignedLt; SignedGe; UnsignedGe; SignedLe;
   UnsignedLe; Bitset; Bitclear].
End TpmEo.

#[export] Instance TpmEo_enum : TpmEnum TpmEo.t := {|
  repr_width := 2; repr_signed := false; value := TpmEo.value;
  display := TpmEo.display; variants := TpmEo.variants |}.
#[export] Instance TpmEo_enum_ok : TpmEnumOk TpmEo.t.
Proof. solve_enum_ok. Qed.
Definition TpmEo : WireType := tpm_enum TpmEo.t.
#[export] Instance TpmEo_ok : WireOk TpmEo := tpm_enum_ok TpmEo.t.

(** [enum TpmEccCurve(TpmUint16)] *)
Module TpmEccCurve.
Inductive t : Type :=
| None_
| NistP192
| NistP224
| NistP256
| NistP384
| NistP521
| BnP256
| BnP638
| Sm2P256
| BpP256R1
| BpP384R1
| BpP512R1
| Curve25519
| Curve448.

Definition value (v : t) : Z :=
  match v with
  | None_ => 0x0
  | NistP192 => 0x1
  | NistP224 => 0x2
  | NistP256 => 0x3
  | NistP384 => 0x4
  | NistP521 => 0x5
  | BnP256 => 0x10
  | BnP638 => 0x11
  | Sm2P256 => 0x20
  | BpP256R1 => 0x30
  | BpP384R1 => 0x31
  | BpP512R1 => 0x32
  | Curve25519 => 0x40
  | Curve448 => 0x41
  end.

Definition display (v : t) : string :=
  match v with
  | None_ => "TPM_ECC_NONE"
  | NistP192 => "TPM_ECC_NIST_P192"
  | NistP224 => "TPM_ECC_NIST_P224"
  | NistP256 => "TPM_ECC_NIST_P256"
  | NistP384 => "TPM_ECC_NIST_P384"
  | NistP521 => "TPM_ECC_NIST_P521"
  | BnP256 => "TPM_ECC_BN_P256"
  | BnP638 => "TPM_ECC_BN_P638"
  | Sm2P256 => "TPM_ECC_SM2_P256"
  | BpP256R1 => "TPM_ECC_BP_P256_R1"
  | BpP384R1 => "TPM_ECC_BP_P384_R1"
  | BpP512R1 => "TPM_ECC_BP_P512_R1"
  | Curve25519 => "TPM_ECC_CURVE_25519"
  | Curve448 => "TPM_ECC_CURVE_448"
  end.

(** The variants in the order of the declaration. *)
Definition variants : list t :=
  [None_; NistP192; NistP224; NistP256; NistP384; NistP521; BnP256; BnP638; Sm2P256;
   BpP256R1; BpP384R1; BpP512R1; Curve25519; Curve448].
End TpmEccCurve.

#[export] Instance TpmEccCurve_enum : TpmEnum TpmEccCurve.t := {|
  repr_width := 2; repr_signed := false; value := TpmEccCurve.value;
  display := TpmEccCurve.display; variants := TpmEccCurve.variants |}.
#[export] Instance TpmEccCurve_enum_ok : TpmEnumOk TpmEccCurve.t.
Proof. solve_enum_ok. Qed.
Definition TpmEccCurve : WireType := tpm_enum TpmEccCurve.t.
#[export] Instance TpmEccCurve_ok : WireOk TpmEccCurve := tpm_enum_ok TpmEccCurve.t.

(** [enum TpmHt(TpmUint8)] *)
Module TpmHt.
Inductive t : Type :=
| Pcr
| NvIndex
| HmacSession
| PolicySession
| ExternalNv
| PermanentNv
| Permanent
| Transient
| Persistent
| Ac.

Definition value (v : t) : Z :=
  match v with
  | Pcr => 0x0
  | NvIndex => 0x1
  | HmacSession => 0x2
  | PolicySession => 0x3
  | ExternalNv => 0x11
  | PermanentNv => 0x12
  | Permanent => 0x40
  | Transient => 0x80
  | Persistent => 0x81
  | Ac => 0x90
  end.

Definition display (v : t) : string :=
  match v with
  | Pcr => "TPM_HT_PCR"
  | NvIndex => "TPM_HT_NV_INDEX"
  | HmacSession => "TPM_HT_HMAC_SESSION"
  | PolicySession => "TPM_HT_POLICY_SESSION"
  | ExternalNv => "TPM_HT_EXTERNAL_NV"
  | PermanentNv => "TPM_HT_PERMANENT_NV"
  | Permanent => "TPM_HT_PERMANENT"
  | Transient => "TPM_HT_TRANSIENT"
  | Persistent => "TPM_HT_PERSISTENT"
  | Ac => "TPM_HT_AC"
  end.

(** The variants in the order of the declaration. *)
Definition variants : list t :=
  [Pcr; NvIndex; HmacSession; PolicySession; ExternalNv; PermanentNv; Permanent;
   Transient; Persistent; Ac].
End TpmHt.

#[export] Instance TpmHt_enum : TpmEnum TpmHt.t := {|
  repr_width := 1; repr_signed := false; value := TpmHt.value;
  display := TpmHt.display; variants := TpmHt.variants |}.
#[export] Instance TpmHt_enum_ok : TpmEnumOk TpmHt.t.
Proof. solve_enum_ok. Qed.
Definition TpmHt : WireType := tpm_enum TpmHt.t.
#[export] Instance TpmHt_ok : WireOk TpmHt := tpm_enum_ok TpmHt.t.

(** [enum TpmPt(TpmUint32)] *)
Module TpmPt.
Inductive t : Type :=
| FamilyIndicator
| Level
| Revision
| DayOfYear
| Year
| Manufacturer
| VendorString1
| VendorString2
| VendorString3
| VendorString4
| VendorTpmType
| FirmwareVersion1
| FirmwareVersion2
| InputBuffer
| HrTransientMin
| HrPersistentMin
| HrLoadedMin
| ActiveSessionsMax
| PcrCount
| PcrSelectMin
| ContextGapMax
| NvCountersMax
| NvIndexMax
| Memory
| ClockUpdate
| ContextHash
| ContextSym
| ContextSymSize
| OrderlyCount
| MaxCommandSize
| MaxResponseSize
| MaxDigest
| MaxObjectContext
| MaxSessionContext
| PsFamilyIndicator
| PsLevel
| PsRevision
| PsDayOfYear
| PsYear
| SplitMax
| TotalCommands
| LibraryCommands
| VendorCommands
| NvBufferMax
| Modes
| MaxCapBuffer
| Permanent
| StartupClear
| HrNvIndex
| HrLoaded
| HrLoadedAvail
| HrActive
| HrActiveAvail
| HrTransientAvail
| HrPersistent
| HrPersistentAvail
| NvCounters
| NvCountersAvail
| AlgorithmSet
| LoadedCurves
| LockoutCounter
| MaxAuthFail
| LockoutInterval
| LockoutRecovery
| NvWriteRecovery
| AuditCounter0
| AuditCounter1.

Definition value (v : t) : Z :=
  match v with
  | FamilyIndicator => 0x100
  | Level => 0x101
  | Revision => 0x102
  | DayOfYear => 0x103
  | Year => 0x104
  | Manufacturer => 0x105
  | VendorString1 => 0x106
  | VendorString2 => 0x107
  | VendorString3 => 0x108
  | VendorString4 => 0x109
  | VendorTpmType => 0x10a
  | FirmwareVersion1 => 0x10b
  | FirmwareVersion2 => 0x10c
  | InputBuffer => 0x10d
  | HrTransientMin => 0x10e
  | HrPersistentMin => 0x10f
  | HrLoadedMin => 0x110
  | ActiveSessionsMax => 0x111
  | PcrCount => 0x112
  | PcrSelectMin => 0x113
  | ContextGapMax => 0x114
  | NvCountersMax => 0x116
  | NvIndexMax => 0x117
  | Memory => 0x118
  | ClockUpdate => 0x119
  | ContextHash => 0x11a
  | ContextSym => 0x11b
  | ContextSymSize => 0x11c
  | OrderlyCount => 0x11d
  | MaxCommandSize => 0x11e
  | MaxResponseSize => 0x11f
  | MaxDigest => 0x120
  | MaxObjectContext => 0x121
  | MaxSessionContext => 0x122
  | PsFamilyIndicator => 0x123
  | PsLevel => 0x124
  | PsRevision => 0x125
  | PsDayOfYear => 0x126
  | PsYear => 0x127
  | SplitMax => 0x128
  | TotalCommands => 0x129
  | LibraryCommands => 0x12a
  | VendorCommands => 0x12b
  | NvBufferMax => 0x12c
  | Modes => 0x12d
  | MaxCapBuffer => 0x12e
  | Permanent => 0x200
  | StartupClear => 0x201
  | HrNvIndex => 0x202
  | HrLoaded => 0x203
  | HrLoadedAvail => 0x204
  | HrActive => 0x205
  | HrActiveAvail => 0x206
  | HrTransientAvail => 0x207
  | HrPersistent => 0x208
  | HrPersistentAvail => 0x209
  | NvCounters => 0x20a
  | NvCountersAvail => 0x20b
  | AlgorithmSet => 0x20c
  | LoadedCurves => 0x20d
  | LockoutCounter => 0x20e
  | MaxAuthFail => 0x20f
  | LockoutInterval => 0x210
  | LockoutRecovery => 0x211
  | NvWriteRecovery => 0x212
  | AuditCounter0 => 0x213
  | AuditCounter1 => 0x214
  end.

Definition display (v : t) : string :=
  match v with
  | FamilyIndicator => "TPM_PT_FAMILY_INDICATOR"
  | Level => "TPM_PT_LEVEL"
  | Revision => "TPM_PT_REVISION"
  | DayOfYear => "TPM_PT_DAY_OF_YEAR"
  | Year => "TPM_PT_YEAR"
  | Manufacturer => "TPM_PT_MANUFACTURER"
  | VendorString1 => "TPM_PT_VENDOR_STRING_1"
  | VendorString2 => "TPM_PT_VENDOR_STRING_2"
  | VendorString3 => "TPM_PT_VENDOR_STRING_3"
  | VendorString4 => "TPM_PT_VENDOR_STRING_4"
  | VendorTpmType => "TPM_PT_VENDOR_TPM_TYPE"
  | FirmwareVersion1 => "TPM_PT_FIRMWARE_VERSION_1"
  | FirmwareVersion2 => "TPM_PT_FIRMWARE_VERSION_2"
  | InputBuffer => "TPM_PT_INPUT_BUFFER"
  | HrTransientMin => "TPM_PT_HR_TRANSIENT_MIN"
  | HrPersistentMin => "TPM_PT_HR_PERSISTENT_MIN"
  | HrLoadedMin => "TPM_PT_HR_LOADED_MIN"
  | ActiveSessionsMax => "TPM_PT_ACTIVE_SESSIONS_MAX"
  | PcrCount => "TPM_PT_PCR_COUNT"
  | PcrSelectMin => "TPM_PT_PCR_SELECT_MIN"
  | ContextGapMax => "TPM_PT_CONTEXT_GAP_MAX"
  | NvCountersMax => "TPM_PT_NV_COUNTERS_MAX"
  | NvIndexMax => "TPM_PT_NV_INDEX_MAX"
  | Memory => "TPM_PT_MEMORY"
  | ClockUpdate => "TPM_PT_CLOCK_UPDATE"
  | ContextHash => "TPM_PT_CONTEXT_HASH"
  | ContextSym => "TPM_PT_CONTEXT_SYM"
  | ContextSymSize => "TPM_PT_CONTEXT_SYM_SIZE"
  | OrderlyCount => "TPM_PT_ORDERLY_COUNT"
  | MaxCommandSize => "TPM_PT_MAX_COMMAND_SIZE"
  | MaxResponseSize => "TPM_PT_MAX_RESPONSE_SIZE"
  | MaxDigest => "TPM_PT_MAX_DIGEST"
  | MaxObjectContext => "TPM_PT_MAX_OBJECT_CONTEXT"
  | MaxSessionContext => "TPM_PT_MAX_SESSION_CONTEXT"
  | PsFamilyIndicator => "TPM_PT_PS_FAMILY_INDICATOR"
  | PsLevel => "TPM_PT_PS_LEVEL"
  | PsRevision => "TPM_PT_PS_REVISION"
  | PsDayOfYear => "TPM_PT_PS_DAY_OF_YEAR"
  | PsYear => "TPM_PT_PS_YEAR"
  | SplitMax => "TPM_PT_SPLIT_MAX"
  | TotalCommands => "TPM_PT_TOTAL_COMMANDS"
  | LibraryCommands => "TPM_PT_LIBRARY_COMMANDS"
  | VendorCommands => "TPM_PT_VENDOR_COMMANDS"
  | NvBufferMax => "TPM_PT_NV_BUFFER_MAX"
  | Modes => "TPM_PT_MODES"
  | MaxCapBuffer => "TPM_PT_MAX_CAP_BUFFER"
  | Permanent => "TPM_PT_PERMANENT"
  | StartupClear => "TPM_PT_STARTUP_CLEAR"
  | HrNvIndex => "TPM_PT_HR_NV_INDEX"
  | HrLoaded => "TPM_PT_HR_LOADED"
  | HrLoadedAvail => "TPM_PT_HR_LOADED_AVAIL"
  | HrActive => "TPM_PT_HR_ACTIVE"
  | HrActiveAvail => "TPM_PT_HR_ACTIVE_AVAIL"
  | HrTransientAvail => "TPM_PT_HR_TRANSIENT_AVAIL"
  | HrPersistent => "TPM_PT_HR_PERSISTENT"
  | HrPersistentAvail => "TPM_PT_HR_PERSISTENT_AVAIL"
  | NvCounters => "TPM_PT_NV_COUNTERS"
  | NvCountersAvail => "TPM_PT_NV_COUNTERS_AVAIL"
  | AlgorithmSet => "TPM_PT_ALGORITHM_SET"
  | LoadedCurves => "TPM_PT_LOADED_CURVES"
  | LockoutCounter => "TPM_PT_LOCKOUT_COUNTER"
  | MaxAuthFail => "TPM_PT_MAX_AUTH_FAIL"
  | LockoutInterval => "TPM_PT_LOCKOUT_INTERVAL"
  | LockoutRecovery => "TPM_PT_LOCKOUT_RECOVERY"
  | NvWriteRecovery => "TPM_PT_NV_WRITE_RECOVERY"
  | AuditCounter0 => "TPM_PT_AUDIT_COUNTER_0"
  | AuditCounter1 => "TPM_PT_AUDIT_COUNTER_1"
  end.

(** The variants in the order of the declaration. *)
Definition variants : list t :=
  [FamilyIndicator; Level; Revision; DayOfYear; Year; Manufacturer; VendorString1;
   VendorString2; VendorString3; VendorString4; VendorTpmType; FirmwareVersion1;
   FirmwareVersion2; InputBuffer; HrTransientMin; HrPersistentMin; HrLoadedMin;
   ActiveSessionsMax; PcrCount; PcrSelectMin; ContextGapMax; NvCountersMax; NvIndexMax;
   Memory; ClockUpdate; ContextHash; ContextSym; ContextSymSize; OrderlyCount;
   MaxCommandSize; MaxResponseSize; MaxDigest; MaxObjectContext; MaxSessionContext;
   PsFamilyIndicator; PsLevel; PsRevision; PsDayOfYear; PsYear; SplitMax; TotalCommands;
   LibraryCommands; VendorCommands; NvBufferMax; Modes; MaxCapBuffer; Permanent;
   StartupClear; HrNvIndex; HrLoaded; HrLoadedAvail; HrActive; HrActiveAvail;
   HrTransientAvail; HrPersistent; HrPersistentAvail; NvCounters; NvCountersAvail;
   AlgorithmSet; LoadedCurves; LockoutCounter; MaxAuthFail; LockoutInterval;
   LockoutRecovery; NvWriteRecovery; AuditCounter0; AuditCounter1].
End TpmPt.

#[export] Instance TpmPt_enum : TpmEnum TpmPt.t := {|
  repr_width := 4; repr_signed := false; value := TpmPt.value;
  display := TpmPt.display; variants := TpmPt.variants |}.
#[export] Instance TpmPt_enum_ok : TpmEnumOk TpmPt.t.
Proof. solve_enum_ok. Qed.
Definition TpmPt : WireType := tpm_enum TpmPt.t.
#[export] Instance TpmPt_ok : WireOk TpmPt := tpm_enum_ok TpmPt.t.

(** [enum TpmRh(TpmUint32)] *)
Module TpmRh.
Inductive t : Type :=
| Srk
| Owner
| Revoke
| Transport
| Operator
| Admin
| Ek
| Null
| Unassigned
| Pw
| Lockout
| Endorsement
| Platform
| PlatformNv
| FwOwner
| FwEndorsement
| FwPlatform
| FwNull
| SvnOwnerBase
| SvnEndorsementBase
| SvnPlatformBase
| SvnNullBase.

Definition value (v : t) : Z :=
  match v with
  | Srk => 0x40000000
  | Owner => 0x40000001
  | Revoke => 0x40000002
  | Transport => 0x40000003
  | Operator => 0x40000004
  | Admin => 0x40000005
  | Ek => 0x40000006
  | Null => 0x40000007
  | Unassigned => 0x40000008
  | Pw => 0x40000009
  | Lockout => 0x4000000a
  | Endorsement => 0x4000000b
  | Platform => 0x4000000c
  | PlatformNv => 0x4000000d
  | FwOwner => 0x40000140
  | FwEndorsement => 0x40000141
  | FwPlatform => 0x40000142
  | FwNull => 0x40000143
  | SvnOwnerBase => 0x40010000
  | SvnEndorsementBase => 0x40020000
  | SvnPlatformBase => 0x40030000
  | SvnNullBase => 0x40040000
  end.

Definition display (v : t) : string :=
  match v with
  | Srk => "TPM_RH_SRK"
  | Owner => "TPM_RH_OWNER"
  | Revoke => "TPM_RH_REVOKE"
  | Transport => "TPM_RH_TRANSPORT"
  | Operator => "TPM_RH_OPERATOR"
  | Admin => "TPM_RH_ADMIN"
  | Ek => "TPM_RH_EK"
  | Null => "TPM_RH_NULL"
  | Unassigned => "TPM_RH_UNASSIGNED"
  | Pw => "TPM_RS_PW"
  | Lockout => "TPM_RH_LOCKOUT"
  | Endorsement => "TPM_RH_ENDORSEMENT"
  | Platform => "TPM_RH_PLATFORM"
  | PlatformNv => "TPM_RH_PLATFORM_NV"
  | FwOwner => "TPM_RH_FW_OWNER"
  | FwEndorsement => "TPM_RH_FW_ENDORSEMENT"
  | FwPlatform => "TPM_RH_FW_PLATFORM"
  | FwNull => "TPM_RH_FW_NULL"
  | SvnOwnerBase => "TPM_RH_SVN_OWNER_BASE"
  | SvnEndorsementBase => "TPM_RH_SVN_ENDORSEMENT_BASE"
  | SvnPlatformBase => "TPM_RH_SVN_PLATFORM_BASE"
  | SvnNullBase => "TPM_RH_SVN_NULL_BASE"
  end.

(** The variants in the order of the declaration. *)
Definition variants : list t :=
  [Srk; Owner; Revoke; Transport; Operator; Admin; Ek; Null; Unassigned; Pw; Lockout;
   Endorsement; Platform; PlatformNv; FwOwner; FwEndorsement; FwPlatform; FwNull;
   SvnOwnerBase; SvnEndorsementBase; SvnPlatformBase; SvnNullBase].
End TpmRh.

#[export] Instance TpmRh_enum : TpmEnum TpmRh.t := {|
  repr_width := 4; repr_signed := false; value := TpmRh.value;
  display := TpmRh.display; variants := TpmRh.variants |}.
#[export] Instance TpmRh_enum_ok : TpmEnumOk TpmRh.t.
Proof. solve_enum_ok. Qed.
Definition TpmRh : WireType := tpm_enum TpmRh.t.
#[export] Instance TpmRh_ok : WireOk TpmRh := tpm_enum_ok TpmRh.t.

(** [enum TpmSe(TpmUint8)] *)
Module TpmSe.
Inductive t : Type :=
| Hmac
| Policy
| Trial.

Definition value (v : t) : Z :=
  match v with
  | Hmac => 0x0
  | Policy => 0x1
  | Trial => 0x3
  end.

Definition display (v : t) : string :=
  match v with
  | Hmac => "TPM_SE_HMAC"
  | Policy => "TPM_SE_POLICY"
  | Trial => "TPM_SE_TRIAL"
  end.

(** The variants in the order of the declaration. *)
Definition variants : list t :=
  [Hmac; Policy; Trial].
End TpmSe.

#[export] Instance TpmSe_enum : TpmEnum TpmSe.t := {|
  repr_width := 1; repr_signed := false; value := TpmSe.value;
  display := TpmSe.display; variants := TpmSe.variants |}.
#[export] Instance TpmSe_enum_ok : TpmEnumOk TpmSe.t.
Proof. solve_enum_ok. Qed.
Definition TpmSe : WireType := tpm_enum TpmSe.t.
#[export] Instance TpmSe_ok : WireOk TpmSe := tpm_enum_ok TpmSe.t.

(** [enum TpmSt(TpmUint16)] *)
Module TpmSt.
Inductive t : Type :=
| RspCommand
| Null
| NoSessions
| Sessions
| AttestNv
| AttestCommandAudit
| AttestSessionAudit
| AttestCertify
| AttestQuote
| AttestTime
| AttestCreation
| AttestNvDigest
| Creation
| Verified
| AuthSecret
| HashCheck
| AuthSigned.

Definition value (v : t) : Z :=
  match v with
  | RspCommand => 0xc4
  | Null => 0x8000
  | NoSessions => 0x8001
  | Sessions => 0x8002
  | AttestNv => 0x8014
  | AttestCommandAudit => 0x8015
  | AttestSessionAudit => 0x8016
  | AttestCertify => 0x8017
  | AttestQuote => 0x8018
  | AttestTime => 0x8019
  | AttestCreation => 0x801a
  | AttestNvDigest => 0x801c
  | Creation => 0x8021
  | Verified => 0x8022
  | AuthSecret => 0x8023
  | HashCheck => 0x8024
  | AuthSigned => 0x8025
  end.

Definition display (v : t) : string :=
  match v with
  | RspCommand => "TPM_ST_RSP_COMMAND"
  | Null => "TPM_ST_NULL"
  | NoSessions => "TPM_ST_NO_SESSIONS"
  | Sessions => "TPM_ST_SESSIONS"
  | AttestNv => "TPM_ST_ATTEST_NV"
  | AttestCommandAudit => "TPM_ST_ATTEST_COMMAND_AUDIT"
  | AttestSessionAudit => "TPM_ST_ATTEST_SESSION_AUDIT"
  | AttestCertify => "TPM_ST_ATTEST_CERTIFY"
  | AttestQuote => "TPM_ST_ATTEST_QUOTE"
  | AttestTime => "TPM_ST_ATTEST_TIME"
  | AttestCreation => "TPM_ST_ATTEST_CREATION"
  | AttestNvDigest => "TPM_ST_ATTEST_NV_DIGEST"
  | Creation => "TPM_ST_CREATION"
  | Verified => "TPM_ST_VERIFIED"
  | AuthSecret => "TPM_ST_AUTH_SECRET"
  | HashCheck => "TPM_ST_HASHCHECK"
  | AuthSigned => "TPM_ST_AUTH_SIGNED"
  end.

(** The variants in the order of the declaration. *)
Definition variants : list t :=
  [RspCommand; Null; NoSessions; Sessions; AttestNv; AttestCommandAudit;
   AttestSessionAudit; AttestCertify; AttestQuote; AttestTime; AttestCreation;
   AttestNvDigest; Creation; Verified; AuthSecret; HashCheck; AuthSigned].
End TpmSt.

#[export] Instance TpmSt_enum : TpmEnum TpmSt.t := {|
  repr_width := 2; repr_signed := false; value := TpmSt.value;
  display := TpmSt.display; variants := TpmSt.variants |}.
#[export] Instance TpmSt_enum_ok : TpmEnumOk TpmSt.t.
Proof. solve_enum_ok. Qed.
Definition TpmSt : WireType := tpm_enum TpmSt.t.
#[export] Instance TpmSt_ok : WireOk TpmSt := tpm_enum_ok TpmSt.t.

(** [enum TpmSu(TpmUint16)] *)
Module TpmSu.
Inductive t : Type :=
| Clear
| State.

Definition value (v : t) : Z :=
  match v with
  | Clear => 0x0
  | State => 0x1
  end.

Definition display (v : t) : string :=
  match v with
  | Clear => "TPM_SU_CLEAR"
  | State => "TPM_SU_STATE"
  end.

(** The variants in the order of the declaration. *)
Definition variants : list t :=
  [Clear; State].
End TpmSu.

#[export] Instance TpmSu_enum : TpmEnum TpmSu.t := {|
  repr_width := 2; repr_signed := false; value := TpmSu.value;
  display := TpmSu.display; variants := TpmSu.variants |}.
#[export] Instance TpmSu_enum_ok : TpmEnumOk TpmSu.t.
Proof. solve_enum_ok. Qed.
Definition TpmSu : WireType := tpm_enum TpmSu.t.
#[export] Instance TpmSu_ok : WireOk TpmSu := tpm_enum_ok TpmSu.t.

(** [enum TpmiEccKeyExchange(TpmUint16)] *)
Module TpmiEccKeyExchange.
Inductive t : Type :=
| None_
| Ecdh
| Ecmqv
| Sm2.

Definition value (v : t) : Z :=
  match v with
  | None_ => 0x0
  | Ecdh => 0x19
  | Ecmqv => 0x1d
  | Sm2 => 0x1b
  end.

Definition display (v : t) : string :=
  match v with
  | None_ => "TPM_ECC_NONE"
  | Ecdh => "TPM_ALG_ECDH"
  | Ecmqv => "TPM_ALG_ECMQV"
  | Sm2 => "TPM_ALG_SM2"
  end.

(** The variants in the order of the declaration. *)
Definition variants : list t :=
  [None_; Ecdh; Ecmqv; Sm2].
End TpmiEccKeyExchange.

#[export] Instance TpmiEccKeyExchange_enum : TpmEnum TpmiEccKeyExchange.t := {|
  repr_width := 2; repr_signed := false; value := TpmiEccKeyExchange.value;
  display := TpmiEccKeyExchange.display; variants := TpmiEccKeyExchange.variants |}.
#[export] Instance TpmiEccKeyExchange_enum_ok : TpmEnumOk TpmiEccKeyExchange.t.
Proof. solve_enum_ok. Qed.
Definition TpmiEccKeyExchange : WireType := tpm_enum TpmiEccKeyExchange.t.
#[export] Instance TpmiEccKeyExchange_ok : WireOk TpmiEccKeyExchange := tpm_enum_ok TpmiEccKeyExchange.t.

(** [TpmHt::LOADED_SESSION] and [TpmHt::SAVED_SESSION] *)
Definition LOADED_SESSION : TpmHt.t := TpmHt.HmacSession.
Definition SAVED_SESSION : TpmHt.t := TpmHt.PolicySession.

(** Type aliases of [data/enum/mod.rs] and [data/tpmi.rs]. *)
Definition TpmiAlgCipherMode : WireType := TpmAlgId.
Definition TpmiAlgHash : WireType := TpmAlgId.
Definition TpmiAlgSymObject : WireType := TpmAlgId.
Definition TpmiStCommandTag : WireType := TpmSt.
Definition TpmiYesNo : WireType := tpm_bool.
Definition TpmiDhObject : WireType := TpmHandle.
Definition TpmiDhParent : WireType := TpmHandle.
Definition TpmiDhPcr : WireType := TpmHandle.
Definition TpmiShAuthSession : WireType := TpmHandle.
Definition TpmiRhHierarchy : WireType := TpmHandle.
Definition TpmiRhNvExpIndex : WireType := TpmHandle.
#[export] Instance TpmiAlgHash_ok : WireOk TpmiAlgHash := TpmAlgId_ok.
#[export] Instance TpmiYesNo_ok : WireOk TpmiYesNo := tpm_bool_ok.
#[export] Instance TpmiDhObject_ok : WireOk TpmiDhObject := TpmHandle_ok.
#[export] Instance TpmiDhParent_ok : WireOk TpmiDhParent := TpmHandle_ok.
#[export] Instance TpmiDhPcr_ok : WireOk TpmiDhPcr := TpmHandle_ok.
#[export] Instance TpmiShAuthSession_ok : WireOk TpmiShAuthSession := TpmHandle_ok.
#[export] Instance TpmiRhHierarchy_ok : WireOk TpmiRhHierarchy := TpmHandle_ok.
#[export] Instance TpmiRhNvExpIndex_ok : WireOk TpmiRhNvExpIndex := TpmHandle_ok.
