(* ===== verification/Rc.v ===== *)
(** TPM response codes, [protocol/src/data/enum/rc.rs]. *)

From stdpp Require Import pretty.
From S2P Require Import Prelude Errors Writer Codec Integer EnumMacro.

Definition TPM_RC_VER1 : Z := 0x0100.
Definition TPM_RC_FMT1 : Z := 0x0080.
Definition TPM_RC_WARN : Z := 0x0900.
Definition TPM_RC_P_BIT : Z := Z.shiftl 1 6.
Definition TPM_RC_N_SHIFT : Z := 8.
Definition TPM_RC_FMT1_ERROR_MASK : Z := 0x003F.
Definition TPM_RC_N_MASK : Z := 0x000F.
Definition TPM_RC_FMT1_VALID_MASK : Z :=
  Z.lor (Z.lor (Z.lor TPM_RC_FMT1 TPM_RC_P_BIT) TPM_RC_FMT1_ERROR_MASK)
        (Z.shiftl TPM_RC_N_MASK TPM_RC_N_SHIFT).
Definition MAX_HANDLE_INDEX : Z := 7.
Definition SESSION_INDEX_OFFSET : Z := 8.

(** [enum TpmRcBase(TpmUint32)] *)
Module TpmRcBase.
Inductive t : Type :=
| Success
| BadTag
| Initialize
| Failure
| Sequence
| Private
| Hmac
| Disabled
| Exclusive
| AuthType
| AuthMissing
| Policy
| Pcr
| PcrChanged
| Upgrade
| TooManyContexts
| AuthUnavailable
| Reboot
| Unbalanced
| CommandSize
| CommandCode
| AuthSize
| AuthContext
| NvRange
| NvSize
| NvLocked
| NvAuthorization
| NvUninitialized
| NvSpace
| NvDefined
| BadContext
| CpHash
| Parent
| NeedsTest
| NoResult
| Sensitive
| ReadOnly
| Asymmetric
| Attributes
| Hash
| Value
| Hierarchy
| KeySize
| Mgf
| Mode
| Type_
| Handle
| Kdf
| Range
| AuthFail
| Nonce
| Pp
| Scheme
| Size
| Symmetric
| Tag
| Selector
| Insufficient
| Signature
| Key
| PolicyFail
| Integrity
| Ticket
| ReservedBits
| BadAuth
| Expired
| PolicyCc
| Binding
| Curve
| EccPoint
| FwLimited
| SvnLimited
| Channel
| ChannelKey
| ContextGap
| ObjectMemory
| SessionMemory
| Memory
| SessionHandles
| ObjectHandles
| Locality
| Yielded
| Canceled
| Testing
| ReferenceH0
| ReferenceH1
| ReferenceH2
| ReferenceH3
| ReferenceH4
| ReferenceH5
| ReferenceH6
| ReferenceS0
| ReferenceS1
| ReferenceS2
| ReferenceS3
| ReferenceS4
| ReferenceS5
| ReferenceS6
| NvRate
| Lockout
| Retry
| NvUnavailable
| NotUsed.

Definition value (v : t) : Z :=
  match v with
  | Success => 0x0
  | BadTag => 0x1e
  | Initialize => TPM_RC_VER1
  | Failure => Z.lor TPM_RC_VER1 0x1
  | Sequence => Z.lor TPM_RC_VER1 0x3
  | Private => Z.lor TPM_RC_VER1 0xb
  | Hmac => Z.lor TPM_RC_VER1 0x19
  | Disabled => Z.lor TPM_RC_VER1 0x20
  | Exclusive => Z.lor TPM_RC_VER1 0x21
  | AuthType => Z.lor TPM_RC_VER1 0x24
  | AuthMissing => Z.lor TPM_RC_VER1 0x25
  | Policy => Z.lor TPM_RC_VER1 0x26
  | Pcr => Z.lor TPM_RC_VER1 0x27
  | PcrChanged => Z.lor TPM_RC_VER1 0x28
  | Upgrade => Z.lor TPM_RC_VER1 0x2d
  | TooManyContexts => Z.lor TPM_RC_VER1 0x2e
  | AuthUnavailable => Z.lor TPM_RC_VER1 0x2f
  | Reboot => Z.lor TPM_RC_VER1 0x30
  | Unbalanced => Z.lor TPM_RC_VER1 0x31
  | CommandSize => Z.lor TPM_RC_VER1 0x42
  | CommandCode => Z.lor TPM_RC_VER1 0x43
  | AuthSize => Z.lor TPM_RC_VER1 0x44
  | AuthContext => Z.lor TPM_RC_VER1 0x45
  | NvRange => Z.lor TPM_RC_VER1 0x46
  | NvSize => Z.lor TPM_RC_VER1 0x47
  | NvLocked => Z.lor TPM_RC_VER1 0x48
  | NvAuthorization => Z.lor TPM_RC_VER1 0x49
  | NvUninitialized => Z.lor TPM_RC_VER1 0x4a
  | NvSpace => Z.lor TPM_RC_VER1 0x4b
  | NvDefined => Z.lor TPM_RC_VER1 0x4c
  | BadContext => Z.lor TPM_RC_VER1 0x50
  | CpHash => Z.lor TPM_RC_VER1 0x51
  | Parent => Z.lor TPM_RC_VER1 0x52
  | NeedsTest => Z.lor TPM_RC_VER1 0x53
  | NoResult => Z.lor TPM_RC_VER1 0x54
  | Sensitive => Z.lor TPM_RC_VER1 0x55
  | ReadOnly => Z.lor TPM_RC_VER1 0x56
  | Asymmetric => Z.lor TPM_RC_FMT1 0x1
  | Attributes => Z.lor TPM_RC_FMT1 0x2
  | Hash => Z.lor TPM_RC_FMT1 0x3
  | Value => Z.lor TPM_RC_FMT1 0x4
  | Hierarchy => Z.lor TPM_RC_FMT1 0x5
  | KeySize => Z.lor TPM_RC_FMT1 0x7
  | Mgf => Z.lor TPM_RC_FMT1 0x8
  | Mode => Z.lor TPM_RC_FMT1 0x9
  | Type_ => Z.lor TPM_RC_FMT1 0xa
  | Handle => Z.lor TPM_RC_FMT1 0xb
  | Kdf => Z.lor TPM_RC_FMT1 0xc
  | Range => Z.lor TPM_RC_FMT1 0xd
  | AuthFail => Z.lor TPM_RC_FMT1 0xe
  | Nonce => Z.lor TPM_RC_FMT1 0xf
  | Pp => Z.lor TPM_RC_FMT1 0x10
  | Scheme => Z.lor TPM_RC_FMT1 0x12
  | Size => Z.lor TPM_RC_FMT1 0x15
  | Symmetric => Z.lor TPM_RC_FMT1 0x16
  | Tag => Z.lor TPM_RC_FMT1 0x17
  | Selector => Z.lor TPM_RC_FMT1 0x18
  | Insufficient => Z.lor TPM_RC_FMT1 0x1a
  | Signature => Z.lor TPM_RC_FMT1 0x1b
  | Key => Z.lor TPM_RC_FMT1 0x1c
  | PolicyFail => Z.lor TPM_RC_FMT1 0x1d
  | Integrity => Z.lor TPM_RC_FMT1 0x1f
  | Ticket => Z.lor TPM_RC_FMT1 0x20
  | ReservedBits => Z.lor TPM_RC_FMT1 0x21
  | BadAuth => Z.lor TPM_RC_FMT1 0x22
  | Expired => Z.lor TPM_RC_FMT1 0x23
  | PolicyCc => Z.lor TPM_RC_FMT1 0x24
  | Binding => Z.lor TPM_RC_FMT1 0x25
  | Curve => Z.lor TPM_RC_FMT1 0x26
  | EccPoint => Z.lor TPM_RC_FMT1 0x27
  | FwLimited => Z.lor TPM_RC_FMT1 0x28
  | SvnLimited => Z.lor TPM_RC_FMT1 0x29
  | Channel => Z.lor TPM_RC_FMT1 0x30
  | ChannelKey => Z.lor TPM_RC_FMT1 0x31
  | ContextGap => Z.lor TPM_RC_WARN 0x1
  | ObjectMemory => Z.lor TPM_RC_WARN 0x2
  | SessionMemory => Z.lor TPM_RC_WARN 0x3
  | Memory => Z.lor TPM_RC_WARN 0x4
  | SessionHandles => Z.lor TPM_RC_WARN 0x5
  | ObjectHandles => Z.lor TPM_RC_WARN 0x6
  | Locality => Z.lor TPM_RC_WARN 0x7
  | Yielded => Z.lor TPM_RC_WARN 0x8
  | Canceled => Z.lor TPM_RC_WARN 0x9
  | Testing => Z.lor TPM_RC_WARN 0xa
  | ReferenceH0 => Z.lor TPM_RC_WARN 0x10
  | ReferenceH1 => Z.lor TPM_RC_WARN 0x11
  | ReferenceH2 => Z.lor TPM_RC_WARN 0x12
  | ReferenceH3 => Z.lor TPM_RC_WARN 0x13
  | ReferenceH4 => Z.lor TPM_RC_WARN 0x14
  | ReferenceH5 => Z.lor TPM_RC_WARN 0x15
  | ReferenceH6 => Z.lor TPM_RC_WARN 0x16
  | ReferenceS0 => Z.lor TPM_RC_WARN 0x18
  | ReferenceS1 => Z.lor TPM_RC_WARN 0x19
  | ReferenceS2 => Z.lor TPM_RC_WARN 0x1a
  | ReferenceS3 => Z.lor TPM_RC_WARN 0x1b
  | ReferenceS4 => Z.lor TPM_RC_WARN 0x1c
  | ReferenceS5 => Z.lor TPM_RC_WARN 0x1d
  | ReferenceS6 => Z.lor TPM_RC_WARN 0x1e
  | NvRate => Z.lor TPM_RC_WARN 0x20
  | Lockout => Z.lor TPM_RC_WARN 0x21
  | Retry => Z.lor TPM_RC_WARN 0x22
  | NvUnavailable => Z.lor TPM_RC_WARN 0x23
  | NotUsed => 0xffffffff
  end.

Definition display (v : t) : string :=
  match v with
  | Success => "TPM_RC_SUCCESS"
  | BadTag => "TPM_RC_BAD_TAG"
  | Initialize => "TPM_RC_INITIALIZE"
  | Failure => "TPM_RC_FAILURE"
  | Sequence => "TPM_RC_SEQUENCE"
  | Private => "TPM_RC_PRIVATE"
  | Hmac => "TPM_RC_HMAC"
  | Disabled => "TPM_RC_DISABLED"
  | Exclusive => "TPM_RC_EXCLUSIVE"
  | AuthType => "TPM_RC_AUTH_TYPE"
  | AuthMissing => "TPM_RC_AUTH_MISSING"
  | Policy => "TPM_RC_POLICY"
  | Pcr => "TPM_RC_PCR"
  | PcrChanged => "TPM_RC_PCR_CHANGED"
  | Upgrade => "TPM_RC_UPGRADE"
  | TooManyContexts => "TPM_RC_TOO_MANY_CONTEXTS"
  | AuthUnavailable => "TPM_RC_AUTH_UNAVAILABLE"
  | Reboot => "TPM_RC_REBOOT"
  | Unbalanced => "TPM_RC_UNBALANCED"
  | CommandSize => "TPM_RC_COMMAND_SIZE"
  | CommandCode => "TPM_RC_COMMAND_CODE"
  | AuthSize => "TPM_RC_AUTHSIZE"
  | AuthContext => "TPM_RC_AUTH_CONTEXT"
  | NvRange => "TPM_RC_NV_RANGE"
  | NvSize => "TPM_RC_NV_SIZE"
  | NvLocked => "TPM_RC_NV_LOCKED"
  | NvAuthorization => "TPM_RC_NV_AUTHORIZATION"
  | NvUninitialized => "TPM_RC_NV_UNINITIALIZED"
  | NvSpace => "TPM_RC_NV_SPACE"
  | NvDefined => "TPM_RC_NV_DEFINED"
  | BadContext => "TPM_RC_BAD_CONTEXT"
  | CpHash => "TPM_RC_CPHASH"
  | Parent => "TPM_RC_PARENT"
  | NeedsTest => "TPM_RC_NEEDS_TEST"
  | NoResult => "TPM_RC_NO_RESULT"
  | Sensitive => "TPM_RC_SENSITIVE"
  | ReadOnly => "TPM_RC_READ_ONLY"
  | Asymmetric => "TPM_RC_ASYMMETRIC"
  | Attributes => "TPM_RC_ATTRIBUTES"
  | Hash => "TPM_RC_HASH"
  | Value => "TPM_RC_VALUE"
  | Hierarchy => "TPM_RC_HIERARCHY"
  | KeySize => "TPM_RC_KEY_SIZE"
  | Mgf => "TPM_RC_MGF"
  | Mode => "TPM_RC_MODE"
  | Type_ => "TPM_RC_TYPE"
  | Handle => "TPM_RC_HANDLE"
  | Kdf => "TPM_RC_KDF"
  | Range => "TPM_RC_RANGE"
  | AuthFail => "TPM_RC_AUTH_FAIL"
  | Nonce => "TPM_RC_NONCE"
  | Pp => "TPM_RC_PP"
  | Scheme => "TPM_RC_SCHEME"
  | Size => "TPM_RC_SIZE"
  | Symmetric => "TPM_RC_SYMMETRIC"
  | Tag => "TPM_RC_TAG"
  | Selector => "TPM_RC_SELECTOR"
  | Insufficient => "TPM_RC_INSUFFICIENT"
  | Signature => "TPM_RC_SIGNATURE"
  | Key => "TPM_RC_KEY"
  | PolicyFail => "TPM_RC_POLICY_FAIL"
  | Integrity => "TPM_RC_INTEGRITY"
  | Ticket => "TPM_RC_TICKET"
  | ReservedBits => "TPM_RC_RESERVED_BITS"
  | BadAuth => "TPM_RC_BAD_AUTH"
  | Expired => "TPM_RC_EXPIRED"
  | PolicyCc => "TPM_RC_POLICY_CC"
  | Binding => "TPM_RC_BINDING"
  | Curve => "TPM_RC_CURVE"
  | EccPoint => "TPM_RC_ECC_POINT"
  | FwLimited => "TPM_RC_FW_LIMITED"
  | SvnLimited => "TPM_RC_SVN_LIMITED"
  | Channel => "TPM_RC_CHANNEL"
  | ChannelKey => "TPM_RC_CHANNEL_KEY"
  | ContextGap => "TPM_RC_CONTEXT_GAP"
  | ObjectMemory => "TPM_RC_OBJECT_MEMORY"
  | SessionMemory => "TPM_RC_SESSION_MEMORY"
  | Memory => "TPM_RC_MEMORY"
  | SessionHandles => "TPM_RC_SESSION_HANDLES"
  | ObjectHandles => "TPM_RC_OBJECT_HANDLES"
  | Locality => "TPM_RC_LOCALITY"
  | Yielded => "TPM_RC_YIELDED"
  | Canceled => "TPM_RC_CANCELED"
  | Testing => "TPM_RC_TESTING"
  | ReferenceH0 => "TPM_RC_REFERENCE_H0"
  | ReferenceH1 => "TPM_RC_REFERENCE_H1"
  | ReferenceH2 => "TPM_RC_REFERENCE_H2"
  | ReferenceH3 => "TPM_RC_REFERENCE_H3"
  | ReferenceH4 => "TPM_RC_REFERENCE_H4"
  | ReferenceH5 => "TPM_RC_REFERENCE_H5"
  | ReferenceH6 => "TPM_RC_REFERENCE_H6"
  | ReferenceS0 => "TPM_RC_REFERENCE_S0"
  | ReferenceS1 => "TPM_RC_REFERENCE_S1"
  | ReferenceS2 => "TPM_RC_REFERENCE_S2"
  | ReferenceS3 => "TPM_RC_REFERENCE_S3"
  | ReferenceS4 => "TPM_RC_REFERENCE_S4"
  | ReferenceS5 => "TPM_RC_REFERENCE_S5"
  | ReferenceS6 => "TPM_RC_REFERENCE_S6"
  | NvRate => "TPM_RC_NV_RATE"
  | Lockout => "TPM_RC_LOCKOUT"
  | Retry => "TPM_RC_RETRY"
  | NvUnavailable => "TPM_RC_NV_UNAVAILABLE"
  | NotUsed => "TPM_RC_NOT_USED"
  end.

(** The variants in the order of the declaration. *)
Definition variants : list t :=
  [Success; BadTag; Initialize; Failure; Sequence; Private; Hmac; Disabled; Exclusive;
   AuthType; AuthMissing; Policy; Pcr; PcrChanged; Upgrade; TooManyContexts;
   AuthUnavailable; Reboot; Unbalanced; CommandSize; CommandCode; AuthSize; AuthContext;
   NvRange; NvSize; NvLocked; NvAuthorization; NvUninitialized; NvSpace; NvDefined;
   BadContext; CpHash; Parent; NeedsTest; NoResult; Sensitive; ReadOnly; Asymmetric;
   Attributes; Hash; Value; Hierarchy; KeySize; Mgf; Mode; Type_; Handle; Kdf; Range;
   AuthFail; Nonce; Pp; Scheme; Size; Symmetric; Tag; Selector; Insufficient; Signature;
   Key; PolicyFail; Integrity; Ticket; ReservedBits; BadAuth; Expired; PolicyCc; Binding;
   Curve; EccPoint; FwLimited; SvnLimited; Channel; ChannelKey; ContextGap; ObjectMemory;
   SessionMemory; Memory; SessionHandles; ObjectHandles; Locality; Yielded; Canceled;
   Testing; ReferenceH0; ReferenceH1; ReferenceH2; ReferenceH3; ReferenceH4; ReferenceH5;
   ReferenceH6; ReferenceS0; ReferenceS1; ReferenceS2; ReferenceS3; ReferenceS4;
   ReferenceS5; ReferenceS6; NvRate; Lockout; Retry; NvUnavailable; NotUsed].
End TpmRcBase.

#[export] Instance TpmRcBase_enum : TpmEnum TpmRcBase.t := {|
  repr_width := 4; repr_signed := false; value := TpmRcBase.value;
  display := TpmRcBase.display; variants := TpmRcBase.variants |}.
#[export] Instance TpmRcBase_enum_ok : TpmEnumOk TpmRcBase.t.
Proof. solve_enum_ok. Qed.
Definition TpmRcBase : WireType := tpm_enum TpmRcBase.t.
#[export] Instance TpmRcBase_ok : WireOk TpmRcBase := tpm_enum_ok TpmRcBase.t.

(** [enum TpmRcIndex], each carrying a [u8]. *)
Module TpmRcIndex.
Inductive t : Type :=
| Parameter_ (n : Z)
| Handle (n : Z)
| Session (n : Z).

Definition display (i : t) : string :=
  match i with
  | Parameter_ n => "parameter[" +:+ pretty n +:+ "]"
  | Handle n => "handle[" +:+ pretty n +:+ "]"
  | Session n => "session[" +:+ pretty n +:+ "]"
  end.
End TpmRcIndex.

#[global] Instance TpmRcIndex_eq_dec : EqDecision TpmRcIndex.t.
Proof. solve_decision. Defined.

Record TpmRcFmt1 := mk_fmt1 { fmt1_base : TpmRcBase.t; fmt1_index : option TpmRcIndex.t }.

#[global] Instance TpmRcFmt1_eq_dec : EqDecision TpmRcFmt1.
Proof. solve_decision. Defined.

Module TpmRc.
Inductive t : Type :=
| Fmt0 (base : TpmRcBase.t)
| Fmt1 (fmt1 : TpmRcFmt1)
| Warn (base : TpmRcBase.t).

#[global] Instance eq_dec : EqDecision t.
Proof. solve_decision. Defined.

(** [TpmRc::value] *)
Definition value (rc : t) : Z :=
  match rc with
  | Fmt0 base | Warn base => TpmRcBase.value base
  | Fmt1 fmt1 =>
      let value := TpmRcBase.value (fmt1_base fmt1) in
      match fmt1_index fmt1 with
      | None => value
      | Some index =>
          let '(is_parameter, num) :=
            match index with
            | TpmRcIndex.Parameter_ n => (true, n)
            | TpmRcIndex.Handle n => (false, n)
            | TpmRcIndex.Session n => (false, n + SESSION_INDEX_OFFSET)
            end in
          let value := if (is_parameter : bool) then Z.lor value TPM_RC_P_BIT else value in
          Z.lor value (Z.shiftl (Z.land num TPM_RC_N_MASK) TPM_RC_N_SHIFT)
      end
  end.

(** [TpmRc::base] *)
Definition base (rc : t) : TpmRcBase.t :=
  match rc with
  | Fmt0 base | Warn base => base
  | Fmt1 fmt1 => fmt1_base fmt1
  end.

(** The complement of a [u32]. *)
Definition not32 (z : Z) : Z := Z.lxor z (Z.ones 32).

(** [TryFrom<u32>] *)
Definition try_from (value : Z) : TpmResult t :=
  let invalid_rc := InvalidRc 0 value in
  if negb (Z.land value TPM_RC_FMT1 =? 0) then
    if negb (Z.land value (not32 TPM_RC_FMT1_VALID_MASK) =? 0) then Err invalid_rc
    else
      let? base := map_err (λ _, invalid_rc)
        (EnumMacro.try_from TpmRcBase.t
           (Z.lor TPM_RC_FMT1 (Z.land value TPM_RC_FMT1_ERROR_MASK))) in
      let is_parameter := negb (Z.land value TPM_RC_P_BIT =? 0) in
      let n := Z.land (Z.shiftr value TPM_RC_N_SHIFT) TPM_RC_N_MASK in
      let? index :=
        match is_parameter, n with
        | true, 0 => Err invalid_rc
        | false, 0 => Ok None
        | true, num => Ok (Some (TpmRcIndex.Parameter_ num))
        | false, num =>
            if (1 <=? num) && (num <=? MAX_HANDLE_INDEX) then
              Ok (Some (TpmRcIndex.Handle num))
            else
              let? num' := usub num SESSION_INDEX_OFFSET in
              Ok (Some (TpmRcIndex.Session num'))
        end in
      Ok (Fmt1 (mk_fmt1 base index))
  else
    let? base := map_err (λ _, invalid_rc) (EnumMacro.try_from TpmRcBase.t value) in
    if Z.land value TPM_RC_WARN =? TPM_RC_WARN then Ok (Warn base) else Ok (Fmt0 base).

Definition display (rc : t) : string :=
  match rc with
  | Fmt0 base | Warn base => TpmRcBase.display base
  | Fmt1 fmt1 =>
      match fmt1_index fmt1 with
      | Some index =>
          "[" +:+ TpmRcBase.display (fmt1_base fmt1) +:+ ", " +:+
          TpmRcIndex.display index +:+ "]"
      | None => TpmRcBase.display (fmt1_base fmt1)
      end
  end.

Definition SIZE : Z := 4.
Definition marshal (rc : t) : W () := Codec.marshal TpmUint32 (TpmInt.new 4 (value rc)).
Definition unmarshal (buffer : slice) : TpmResult (t * slice) :=
  let? (value, remainder) := Codec.unmarshal TpmUint32 buffer in
  let? rc := try_from (TpmInt.value 4 false value) in
  Ok (rc, remainder).

(** The response codes the wire format can express: a Format-1 base with
    an index in the range of its kind, a warning base under [Warn], any
    other base without bit 7 under [Fmt0]. *)
Definition index_ok (i : TpmRcIndex.t) : bool :=
  match i with
  | TpmRcIndex.Parameter_ n => (1 <=? n) && (n <=? 15)
  | TpmRcIndex.Handle n => (1 <=? n) && (n <=? 7)
  | TpmRcIndex.Session n => (0 <=? n) && (n <=? 7)
  end.
Definition is_fmt1 (b : TpmRcBase.t) : bool :=
  (TPM_RC_FMT1 <=? TpmRcBase.value b) && (TpmRcBase.value b <? 0xC0).
Definition is_warn (b : TpmRcBase.t) : bool :=
  (TPM_RC_WARN <=? TpmRcBase.value b) && (TpmRcBase.value b <? 0x980).
Definition well_formed (rc : t) : bool :=
  match rc with
  | Fmt1 f => is_fmt1 (fmt1_base f) && match fmt1_index f with None => true | Some i => index_ok i end
  | Warn b => is_warn b
  | Fmt0 b => negb (is_warn b) && (TpmRcBase.value b <? 0x180) && negb (is_fmt1 b)
  end.

Definition wire (rc : t) : option (list byte) :=
  if well_formed rc then Some (be_encode 4 (value rc)) else None.

Definition codec : Codec := mk_codec t SIZE (λ _, SIZE) marshal unmarshal wire SIZE.
End TpmRc.

(** [TpmField for TpmRc]: the cast is [unmarshal]. *)
Definition TpmRc : WireType := value_view TpmRc.codec.

(** ** Lemmas *)

Lemma land_high_zero z :
  0 ≤ z ≤ u32_max → Z.land z (TpmRc.not32 TPM_RC_FMT1_VALID_MASK) = 0 → z < 4096.
Proof.
  intros Hz. change (TpmRc.not32 TPM_RC_FMT1_VALID_MASK) with (Z.shiftl (Z.ones 20) 12).
  intros Hl. apply (f_equal (λ x, Z.shiftr x 12)) in Hl.
  rewrite Z.shiftr_land, Z.shiftr_shiftl_l, Z.shiftl_0_r, Z.land_ones, Z.shiftr_div_pow2 in Hl by lia.
  unfold u32_max in Hz. rewrite Z.mod_small in Hl; [|split].
  - change (Z.shiftr 0 12) with 0 in Hl. apply Z.div_small_iff in Hl; lia.
  - apply Z.div_pos; lia.
  - apply Z.div_lt_upper_bound; lia.
Qed.

(** Format 1 codes have at most twelve bits: they are checked one by one. *)
Definition fmt1_decode_ok (z : Z) : bool :=
  match TpmRc.try_from z with
  | Ok rc => TpmRc.well_formed rc && (TpmRc.value rc =? z)
  | Err e => bool_decide (e = InvalidRc 0 z)
  | Panic => false
  end.

Lemma fmt1_decode_all : forallb (λ n, fmt1_decode_ok (Z.of_nat n)) (seq 0 4096) = true.
Proof. vm_cast_no_check (eq_refl true). Qed.

Lemma rc_decode_small z : 0 ≤ z < 4096 → fmt1_decode_ok z = true.
Proof.
  intros Hz. pose proof (proj1 (forallb_forall _ _) fmt1_decode_all (Z.to_nat z)) as H.
  cbv beta in H. rewrite Z2Nat.id in H by lia. apply H, in_seq. lia.
Qed.

Lemma rc_base_values : forallb (λ b, (TpmRcBase.value b <? 4096) ||
  bool_decide (b = TpmRcBase.NotUsed)) TpmRcBase.variants = true.
Proof. vm_compute. reflexivity. Qed.

Lemma rc_try_from_big z :
  4096 ≤ z ≤ u32_max → TpmRc.try_from z = Err (InvalidRc 0 z).
Proof.
  intros Hz. unfold TpmRc.try_from. cbv zeta.
  destruct (Z.land z (TpmRc.not32 TPM_RC_FMT1_VALID_MASK) =? 0) eqn:Hm.
  { apply Z.eqb_eq in Hm. apply land_high_zero in Hm; lia. }
  destruct (Z.land z TPM_RC_FMT1 =? 0) eqn:H7; simpl; [|done].
  pose proof (enum_try_from_spec TpmRcBase.t z) as Hs.
  destruct (EnumMacro.try_from _ z) as [b| |]; simpl; [|done|done].
  exfalso. assert (TpmRcBase.value b < 4096 ∨ b = TpmRcBase.NotUsed) as [Hb| ->].
  { clear. destruct b; vm_compute; auto. }
  - change (TpmRcBase.value b) with (value b) in Hb. lia.
  - rewrite <-Hs in H7. vm_compute in H7. done.
Qed.

(** [try_from] on every [u32]: it decodes only to well-formed codes, of which
    [value] is the inverse, and otherwise returns [InvalidRc]. *)
Lemma rc_try_from_spec z :
  0 ≤ z ≤ u32_max →
  match TpmRc.try_from z with
  | Ok rc => TpmRc.well_formed rc = true ∧ TpmRc.value rc = z
  | Err e => e = InvalidRc 0 z
  | Panic => False
  end.
Proof.
  intros Hz. destruct (Z.lt_ge_cases z 4096).
  - pose proof (rc_decode_small z ltac:(lia)) as H'. unfold fmt1_decode_ok in H'.
    destruct (TpmRc.try_from z); [|by apply bool_decide_eq_true in H'|done].
    apply andb_true_iff in H' as [? ?]. split; [done | lia].
  - by rewrite rc_try_from_big by lia.
Qed.

Definition rc_indexes : list (option TpmRcIndex.t) :=
  None :: map (λ n, Some (TpmRcIndex.Parameter_ (Z.of_nat n))) (seq 1 15) ++
  map (λ n, Some (TpmRcIndex.Handle (Z.of_nat n))) (seq 1 7) ++
  map (λ n, Some (TpmRcIndex.Session (Z.of_nat n))) (seq 0 8).

Lemma rc_indexes_complete i :
  match i with None => true | Some i => TpmRc.index_ok i end = true → In i rc_indexes.
Proof.
  unfold rc_indexes. destruct i as [[n|n|n]|]; simpl TpmRc.index_ok; intros H; [| | |by left];
    right; rewrite !in_app_iff, !in_map_iff.
  - left. exists (Z.to_nat n). rewrite Z2Nat.id, in_seq by lia. split; [done | lia].
  - right; left. exists (Z.to_nat n). rewrite Z2Nat.id, in_seq by lia. split; [done | lia].
  - right; right. exists (Z.to_nat n). rewrite Z2Nat.id, in_seq by lia. split; [done | lia].
Qed.

Definition rc_roundtrips (rc : TpmRc.t) : bool :=
  implb (TpmRc.well_formed rc)
    (match TpmRc.try_from (TpmRc.value rc) with
     | Ok rc' => bool_decide (rc' = rc) | _ => false end
     && (0 <=? TpmRc.value rc) && (TpmRc.value rc <=? u32_max)).

Definition rc_all_ok (b : TpmRcBase.t) : bool :=
  rc_roundtrips (TpmRc.Fmt0 b) && rc_roundtrips (TpmRc.Warn b) &&
  forallb (λ i, rc_roundtrips (TpmRc.Fmt1 (mk_fmt1 b i))) rc_indexes.

Lemma rc_encode_all b : rc_all_ok b = true.
Proof. destruct b; vm_cast_no_check (eq_refl true). Qed.

(** Every well-formed code decodes back to itself. *)
Lemma rc_value_spec rc :
  TpmRc.well_formed rc = true →
  TpmRc.try_from (TpmRc.value rc) = Ok rc ∧ 0 ≤ TpmRc.value rc ≤ u32_max.
Proof.
  intros Hw. pose proof (rc_encode_all (TpmRc.base rc)) as Ha. unfold rc_all_ok in Ha.
  rewrite !andb_true_iff in Ha. destruct Ha as [[H0 H1] H2].
  assert (rc_roundtrips rc = true) as Hrc.
  { destruct rc as [b|[b i]|b]; [exact H0 | | exact H1]. simpl in Hw.
    rewrite forallb_forall in H2. apply H2, rc_indexes_complete.
    by apply andb_true_iff in Hw as [_ ?]. }
  unfold rc_roundtrips in Hrc. rewrite Hw in Hrc. simpl in Hrc. rewrite !andb_true_iff in Hrc. destruct Hrc as [[Hd ?] ?].
  destruct (TpmRc.try_from _); [|done..]. apply bool_decide_eq_true in Hd as ->.
  split; [done | lia].
Qed.

#[export] Instance TpmRc_codec_ok : CodecOk TpmRc.codec.
Proof.
  split; simpl; unfold TpmRc.SIZE, TpmRc.wire.
  - lia.
  - intros v bs. case_match; [|done]. intros [= <-]. unfold zlen; by rewrite length_be_encode.
  - intros v bs. case_match; [|done]. intros [= <-]. unfold zlen; by rewrite length_be_encode.
  - intros v bs. case_match eqn:Hw; [|done]. intros [= <-]. apply rc_value_spec in Hw as [_ ?].
    rewrite <-bytes_new by (unfold u32_max in *; simpl; lia). apply writes_write_bytes.
  - intros v bs s r Hok. case_match eqn:Hw; [|done]. intros [= <-] Hc.
    apply rc_value_spec in Hw as [Ht ?].
    rewrite <-bytes_new in Hc by (unfold u32_max in *; simpl; lia).
    unfold TpmRc.unmarshal.
    rewrite (unmarshal_wire (c:=TpmUint32) _ _ s r Hok (int_wire_new 4 (TpmRc.value v)) Hc); simpl.
    rewrite value_new by (lia || by apply in_range_u32). by rewrite Ht.
  - intros s v r Hok ([n mid] & Hu & Hw)%result_bind_Ok_inv.
    apply (unmarshal_sound (c:=TpmUint32)) in Hu as (bs & Hb & Hc); [|done].
    simpl in Hb. apply int_wire_Some in Hb as [-> Hl].
    pose proof (in_range_u32_inv _ (value_in_range 4 false ltac:(lia) n Hl)) as Hr.
    apply result_bind_Ok_inv in Hw as (rc & Ht & [= <- <-]).
    pose proof (rc_try_from_spec _ Hr) as Hs. rewrite Ht in Hs. destruct Hs as [-> Hv].
    eexists; split; [done|]. rewrite Hv.
    rewrite <-bytes_new by (unfold u32_max in *; simpl; lia). by rewrite new_value by (lia || done).
  - intros s Hok. apply result_bind_not_Panic; [by apply (unmarshal_no_panic (c:=TpmUint32))|].
    intros [n mid] Hu. apply (unmarshal_sound (c:=TpmUint32)) in Hu as (bs & Hb & _); [|done].
    simpl in Hb. apply int_wire_Some in Hb as [-> Hl].
    pose proof (in_range_u32_inv _ (value_in_range 4 false ltac:(lia) n Hl)) as Hr.
    pose proof (rc_try_from_spec _ Hr) as Hs. by destruct (TpmRc.try_from _).
Qed.

#[export] Instance TpmRc_ok : WireOk TpmRc := value_view_ok _ _.
