(* ===== verification/Attributes.v ===== *)
(** Attribute words, [protocol/src/data/tpma.rs]: the named bits of every
    [tpm_bitflags!] declaration and its codec. *)

From S2P Require Import Prelude Errors Writer Codec Integer EnumMacro.

(** [struct TpmaAct(TpmUint32)] *)
Module TpmaAct.
Definition SIGNALED : Bitflags.t := Bitflags.from_bits_truncate 0x1.
Definition PRESERVE_SIGNALED : Bitflags.t := Bitflags.from_bits_truncate 0x2.
(** The flags of the declaration with their names. *)
Definition flags : list (Bitflags.t * string) :=
  [(SIGNALED, "SIGNALED");
   (PRESERVE_SIGNALED, "PRESERVE_SIGNALED")].
End TpmaAct.
Definition TpmaAct : WireType := tpm_bitflags 4.
#[export] Instance TpmaAct_ok : WireOk TpmaAct := bitflags_ok 4 ltac:(lia).

(** [struct TpmaAlgorithm(TpmUint32)] *)
Module TpmaAlgorithm.
Definition ASYMMETRIC : Bitflags.t := Bitflags.from_bits_truncate 0x1.
Definition SYMMETRIC : Bitflags.t := Bitflags.from_bits_truncate 0x2.
Definition HASH : Bitflags.t := Bitflags.from_bits_truncate 0x4.
Definition OBJECT : Bitflags.t := Bitflags.from_bits_truncate 0x8.
Definition SIGNING : Bitflags.t := Bitflags.from_bits_truncate 0x100.
Definition ENCRYPTING : Bitflags.t := Bitflags.from_bits_truncate 0x200.
Definition METHOD : Bitflags.t := Bitflags.from_bits_truncate 0x400.
(** The flags of the declaration with their names. *)
Definition flags : list (Bitflags.t * string) :=
  [(ASYMMETRIC, "ASYMMETRIC");
   (SYMMETRIC, "SYMMETRIC");
   (HASH, "HASH");
   (OBJECT, "OBJECT");
   (SIGNING, "SIGNING");
   (ENCRYPTING, "ENCRYPTING");
   (METHOD, "METHOD")].
End TpmaAlgorithm.
Definition TpmaAlgorithm : WireType := tpm_bitflags 4.
#[export] Instance TpmaAlgorithm_ok : WireOk TpmaAlgorithm := bitflags_ok 4 ltac:(lia).

(** [struct TpmaCc(TpmUint32)] *)
Module TpmaCc.
Definition NV : Bitflags.t := Bitflags.from_bits_truncate 0x400000.
Definition EXTENSIVE : Bitflags.t := Bitflags.from_bits_truncate 0x800000.
Definition FLUSHED : Bitflags.t := Bitflags.from_bits_truncate 0x1000000.
Definition R_HANDLE : Bitflags.t := Bitflags.from_bits_truncate 0x10000000.
Definition V : Bitflags.t := Bitflags.from_bits_truncate 0x20000000.
(** The flags of the declaration with their names. *)
Definition flags : list (Bitflags.t * string) :=
  [(NV, "NV");
   (EXTENSIVE, "EXTENSIVE");
   (FLUSHED, "FLUSHED");
   (R_HANDLE, "R_HANDLE");
   (V, "V")].

(** [TpmaCc::command_index] and [TpmaCc::c_handles] *)
Definition command_index (a : Bitflags.t) : Z := Z.land (Bitflags.bits a) 0xFFFF.
Definition c_handles (a : Bitflags.t) : Z := Z.land (Z.shiftr (Bitflags.bits a) 25) 0x7.
End TpmaCc.
Definition TpmaCc : WireType := tpm_bitflags 4.
#[export] Instance TpmaCc_ok : WireOk TpmaCc := bitflags_ok 4 ltac:(lia).

(** [struct TpmaLocality(TpmUint8)] *)
Module TpmaLocality.
Definition LOC_ZERO : Bitflags.t := Bitflags.from_bits_truncate 0x1.
Definition LOC_ONE : Bitflags.t := Bitflags.from_bits_truncate 0x2.
Definition LOC_TWO : Bitflags.t := Bitflags.from_bits_truncate 0x4.
Definition LOC_THREE : Bitflags.t := Bitflags.from_bits_truncate 0x8.
Definition LOC_FOUR : Bitflags.t := Bitflags.from_bits_truncate 0x10.
(** The flags of the declaration with their names. *)
Definition flags : list (Bitflags.t * string) :=
  [(LOC_ZERO, "LOC_ZERO");
   (LOC_ONE, "LOC_ONE");
   (LOC_TWO, "LOC_TWO");
   (LOC_THREE, "LOC_THREE");
   (LOC_FOUR, "LOC_FOUR")].

(** [TpmaLocality::extended] *)
Definition extended (a : Bitflags.t) : Z := Z.land (Z.shiftr (Bitflags.bits a) 5) 0x7.
End TpmaLocality.
Definition TpmaLocality : WireType := tpm_bitflags 1.
#[export] Instance TpmaLocality_ok : WireOk TpmaLocality := bitflags_ok 1 ltac:(lia).

(** [struct TpmaNv(TpmUint32)] *)
Module TpmaNv.
Definition PPWRITE : Bitflags.t := Bitflags.from_bits_truncate 0x1.
Definition OWNERWRITE : Bitflags.t := Bitflags.from_bits_truncate 0x2.
Definition AUTHWRITE : Bitflags.t := Bitflags.from_bits_truncate 0x4.
Definition POLICYWRITE : Bitflags.t := Bitflags.from_bits_truncate 0x8.
Definition COUNTER : Bitflags.t := Bitflags.from_bits_truncate 0x10.
Definition BITS : Bitflags.t := Bitflags.from_bits_truncate 0x20.
Definition EXTEND : Bitflags.t := Bitflags.from_bits_truncate 0x40.
Definition POLICY_DELETE : Bitflags.t := Bitflags.from_bits_truncate 0x400.
Definition WRITELOCKED : Bitflags.t := Bitflags.from_bits_truncate 0x800.
Definition WRITEALL : Bitflags.t := Bitflags.from_bits_truncate 0x1000.
Definition WRITEDEFINE : Bitflags.t := Bitflags.from_bits_truncate 0x2000.
Definition WRITE_STCLEAR : Bitflags.t := Bitflags.from_bits_truncate 0x4000.
Definition GLOBALLOCK : Bitflags.t := Bitflags.from_bits_truncate 0x8000.
Definition PPREAD : Bitflags.t := Bitflags.from_bits_truncate 0x10000.
Definition OWNERREAD : Bitflags.t := Bitflags.from_bits_truncate 0x20000.
Definition AUTHREAD : Bitflags.t := Bitflags.from_bits_truncate 0x40000.
Definition POLICYREAD : Bitflags.t := Bitflags.from_bits_truncate 0x80000.
Definition NO_DA : Bitflags.t := Bitflags.from_bits_truncate 0x2000000.
Definition ORDERLY : Bitflags.t := Bitflags.from_bits_truncate 0x4000000.
Definition CLEAR_STCLEAR : Bitflags.t := Bitflags.from_bits_truncate 0x8000000.
Definition READLOCKED : Bitflags.t := Bitflags.from_bits_truncate 0x10000000.
Definition WRITTEN : Bitflags.t := Bitflags.from_bits_truncate 0x20000000.
Definition PLATFORMCREATE : Bitflags.t := Bitflags.from_bits_truncate 0x40000000.
Definition READ_STCLEAR : Bitflags.t := Bitflags.from_bits_truncate 0x80000000.
(** The flags of the declaration with their names. *)
Definition flags : list (Bitflags.t * string) :=
  [(PPWRITE, "PPWRITE");
   (OWNERWRITE, "OWNERWRITE");
   (AUTHWRITE, "AUTHWRITE");
   (POLICYWRITE, "POLICYWRITE");
   (COUNTER, "COUNTER");
   (BITS, "BITS");
   (EXTEND, "EXTEND");
   (POLICY_DELETE, "POLICY_DELETE");
   (WRITELOCKED, "WRITELOCKED");
   (WRITEALL, "WRITEALL");
   (WRITEDEFINE, "WRITEDEFINE");
   (WRITE_STCLEAR, "WRITE_STCLEAR");
   (GLOBALLOCK, "GLOBALLOCK");
   (PPREAD, "PPREAD");
   (OWNERREAD, "OWNERREAD");
   (AUTHREAD, "AUTHREAD");
   (POLICYREAD, "POLICYREAD");
   (NO_DA, "NO_DA");
   (ORDERLY, "ORDERLY");
   (CLEAR_STCLEAR, "CLEAR_STCLEAR");
   (READLOCKED, "READLOCKED");
   (WRITTEN, "WRITTEN");
   (PLATFORMCREATE, "PLATFORMCREATE");
   (READ_STCLEAR, "READ_STCLEAR")].
End TpmaNv.
Definition TpmaNv : WireType := tpm_bitflags 4.
#[export] Instance TpmaNv_ok : WireOk TpmaNv := bitflags_ok 4 ltac:(lia).

(** [struct TpmaNvExp(TpmUint64)] *)
Module TpmaNvExp.
Definition ENCRYPTION : Bitflags.t := Bitflags.from_bits_truncate 0x100000000.
Definition INTEGRITY : Bitflags.t := Bitflags.from_bits_truncate 0x200000000.
Definition ANTIROLLBACK : Bitflags.t := Bitflags.from_bits_truncate 0x400000000.
(** The flags of the declaration with their names. *)
Definition flags : list (Bitflags.t * string) :=
  [(ENCRYPTION, "ENCRYPTION");
   (INTEGRITY, "INTEGRITY");
   (ANTIROLLBACK, "ANTIROLLBACK")].
End TpmaNvExp.
Definition TpmaNvExp : WireType := tpm_bitflags 8.
#[export] Instance TpmaNvExp_ok : WireOk TpmaNvExp := bitflags_ok 8 ltac:(lia).

(** [struct TpmaObject(TpmUint32)] *)
Module TpmaObject.
Definition FIXED_TPM : Bitflags.t := Bitflags.from_bits_truncate 0x2.
Definition ST_CLEAR : Bitflags.t := Bitflags.from_bits_truncate 0x4.
Definition FIXED_PARENT : Bitflags.t := Bitflags.from_bits_truncate 0x10.
Definition SENSITIVE_DATA_ORIGIN : Bitflags.t := Bitflags.from_bits_truncate 0x20.
Definition USER_WITH_AUTH : Bitflags.t := Bitflags.from_bits_truncate 0x40.
Definition ADMIN_WITH_POLICY : Bitflags.t := Bitflags.from_bits_truncate 0x80.
Definition NO_DA : Bitflags.t := Bitflags.from_bits_truncate 0x400.
Definition ENCRYPTED_DUPLICATION : Bitflags.t := Bitflags.from_bits_truncate 0x800.
Definition RESTRICTED : Bitflags.t := Bitflags.from_bits_truncate 0x10000.
Definition DECRYPT : Bitflags.t := Bitflags.from_bits_truncate 0x20000.
Definition SIGN_ENCRYPT : Bitflags.t := Bitflags.from_bits_truncate 0x40000.
(** The flags of the declaration with their names. *)
Definition flags : list (Bitflags.t * string) :=
  [(FIXED_TPM, "FIXED_TPM");
   (ST_CLEAR, "ST_CLEAR");
   (FIXED_PARENT, "FIXED_PARENT");
   (SENSITIVE_DATA_ORIGIN, "SENSITIVE_DATA_ORIGIN");
   (USER_WITH_AUTH, "USER_WITH_AUTH");
   (ADMIN_WITH_POLICY, "ADMIN_WITH_POLICY");
   (NO_DA, "NO_DA");
   (ENCRYPTED_DUPLICATION, "ENCRYPTED_DUPLICATION");
   (RESTRICTED, "RESTRICTED");
   (DECRYPT, "DECRYPT");
   (SIGN_ENCRYPT, "SIGN_ENCRYPT")].
End TpmaObject.
Definition TpmaObject : WireType := tpm_bitflags 4.
#[export] Instance TpmaObject_ok : WireOk TpmaObject := bitflags_ok 4 ltac:(lia).

(** [struct TpmaSession(TpmUint8)] *)
Module TpmaSession.
Definition CONTINUE_SESSION : Bitflags.t := Bitflags.from_bits_truncate 0x1.
Definition AUDIT_EXCLUSIVE : Bitflags.t := Bitflags.from_bits_truncate 0x2.
Definition AUDIT_RESET : Bitflags.t := Bitflags.from_bits_truncate 0x4.
Definition DECRYPT : Bitflags.t := Bitflags.from_bits_truncate 0x20.
Definition ENCRYPT : Bitflags.t := Bitflags.from_bits_truncate 0x40.
Definition AUDIT : Bitflags.t := Bitflags.from_bits_truncate 0x80.
(** The flags of the declaration with their names. *)
Definition flags : list (Bitflags.t * string) :=
  [(CONTINUE_SESSION, "CONTINUE_SESSION");
   (AUDIT_EXCLUSIVE, "AUDIT_EXCLUSIVE");
   (AUDIT_RESET, "AUDIT_RESET");
   (DECRYPT, "DECRYPT");
   (ENCRYPT, "ENCRYPT");
   (AUDIT, "AUDIT")].
End TpmaSession.
Definition TpmaSession : WireType := tpm_bitflags 1.
#[export] Instance TpmaSession_ok : WireOk TpmaSession := bitflags_ok 1 ltac:(lia).
