(* ===== verification/Union.v ===== *)
(** Proof automation for the types whose operations are written out by hand
    in the source: the [tpmu_view!] unions of [data/tpmu.rs] and the
    structures of [data/tpms.rs] and [data/tpmt.rs] that do not use
    [tpm_struct!]. *)

From S2P Require Import Prelude Errors Writer Codec Integer Buffer Struct EnumMacro.

(** Concatenation of two encodings. *)
Definition wcat (o1 o2 : option (list byte)) : option (list byte) :=
  b1 ← o1; b2 ← o2; Some (b1 ++ b2).
Infix "+++" := wcat (at level 60, right associativity) : tpm_scope.

Lemma wcat_Some o1 o2 bs :
  o1 +++ o2 = Some bs ↔ ∃ b1 b2, o1 = Some b1 ∧ o2 = Some b2 ∧ bs = b1 ++ b2.
Proof.
  unfold wcat. split.
  - intros (b1 & -> & (b2 & -> & [= <-])%bind_Some)%bind_Some. by exists b1, b2.
  - by intros (b1 & b2 & -> & -> & ->).
Qed.

(** The slice at an address that holds exactly [bs]. *)
Lemma sub_slice_app_l a b1 b2 : sub_slice (mk_slice a b1) (mk_slice a (b1 ++ b2)).
Proof. exists [], b2; split; [done|]. unfold zlen; simpl; lia. Qed.

Lemma sub_slice_app_r a b1 b2 :
  sub_slice (mk_slice (a + zlen b1) b2) (mk_slice a (b1 ++ b2)).
Proof. exists b1, []; simpl. by rewrite app_nil_r. Qed.

(** Splits every encoding that is a concatenation. *)
Ltac wire_inv :=
  repeat match goal with
  | H : _ +++ _ = Some _ |- _ =>
      let b1 := fresh "b" in let b2 := fresh "b" in
      apply wcat_Some in H as (b1 & b2 & ? & H & ->)
  | H : Some _ = Some _ |- _ => injection H as H
  end.

(** Runs one [unmarshal] or cast on a slice known to start with an encoding. *)
Ltac read_step :=
  match goal with
  | Hc : consumes (_ ++ _) _ _ |- _ =>
      let mid := fresh "mid" in let H1 := fresh in let H2 := fresh in
      apply consumes_split in Hc as (mid & H1 & H2)
  | H : consumes _ ?s ?r, Hs : slice_ok ?s |- _ =>
      lazymatch goal with
      | _ : slice_ok r |- _ => fail
      | _ => pose proof (consumes_slice_ok _ _ _ H Hs)
      end
  | Hok : slice_ok ?s, Hw : Codec.wire ?c ?v = Some ?b, Hc : consumes ?b ?s ?r
    |- context [Codec.unmarshal ?c ?s] =>
      rewrite (unmarshal_wire (c:=c) v b s r Hok Hw Hc); cbn [result_bind]
  | Hok : slice_ok ?s, Hw : Codec.wire _ ?v = Some ?b, Hc : consumes ?b ?s ?r
    |- context [Codec.cast_prefix_field ?t ?s] =>
      let vw := fresh "vw" in let E := fresh in
      destruct (cast_complete (t:=t) v b s r Hok Hw Hc) as [vw E];
      rewrite E; cbn [result_bind]
  end.

(** Inverts one successful [unmarshal] or cast. *)
Ltac read_inv :=
  match goal with
  | H : result_bind _ _ = Ok _ |- _ =>
      let x := fresh "x" in let r := fresh "r" in let E := fresh in
      apply result_bind_Ok_inv in H as ([x r] & E & H); cbv beta iota in H
  | H : Codec.unmarshal ?c ?s = Ok (?v, ?r), Hok : slice_ok ?s |- _ =>
      let b := fresh "b" in let Hb := fresh in let Hc := fresh in
      apply (unmarshal_sound (c:=c) s v r Hok) in H as (b & Hb & Hc);
      pose proof (consumes_slice_ok _ _ _ Hc Hok)
  | H : Codec.cast_prefix_field ?t ?s = Ok (?v, ?r), Hok : slice_ok ?s |- _ =>
      let y := fresh "y" in let b := fresh "b" in let Hb := fresh in
      let Hc := fresh in let Hv := fresh in let Hin := fresh in
      apply (cast_sound (t:=t) s v r Hok) in H as (y & b & Hb & Hc & Hv & Hin);
      pose proof (consumes_slice_ok _ _ _ Hc Hok)
  | H : Codec.unmarshal_tagged ?u ?tag ?s = Ok (?v, ?r), Hok : slice_ok ?s |- _ =>
      let Hm := fresh in let b := fresh "b" in let Hb := fresh in let Hc := fresh in
      apply (unmarshal_tagged_sound (u:=u) tag s v r Hok) in H as (Hm & b & Hb & Hc);
      pose proof (consumes_slice_ok _ _ _ Hc Hok)
  | H : Codec.cast_tagged ?u ?tag ?s = Ok (?v, ?r), Hok : slice_ok ?s |- _ =>
      let y := fresh "y" in let Hm := fresh in let b := fresh "b" in let Hb := fresh in
      let Hc := fresh in let Hv := fresh in let Hin := fresh in
      apply (cast_tagged_sound (u:=u) tag s v r Hok) in H as (y & b & Hm & Hb & Hc & Hv & Hin);
      pose proof (consumes_slice_ok _ _ _ Hc Hok)
  end.

(** The same for the payload of a union selected by a tag. *)
Ltac tagged_step :=
  match goal with
  | Hok : slice_ok ?s, Hm : matches_tag ?u ?v ?tag = true, Hw : uwire ?u ?v = Some ?b,
    Hc : consumes ?b ?s ?r |- context [Codec.unmarshal_tagged ?u ?tag ?s] =>
      rewrite (unmarshal_tagged_wire (u:=u) tag v b s r Hok Hm Hw Hc); cbn [result_bind]
  | Hok : slice_ok ?s, Hm : matches_tag ?u ?v ?tag = true, Hw : uwire ?u ?v = Some ?b,
    Hc : consumes ?b ?s ?r |- context [Codec.cast_tagged ?u ?tag ?s] =>
      let vw := fresh "vw" in let E := fresh in
      destruct (cast_tagged_complete (u:=u) tag v b s r Hok Hm Hw Hc) as [vw E];
      rewrite E; cbn [result_bind]
  end.

(** One step of a no-panic proof through a sequence of reads. *)
Ltac no_panic_step :=
  match goal with
  | |- result_bind _ _ ≠ Panic =>
      apply result_bind_not_Panic;
      [ first [ lazymatch goal with
                | |- Codec.unmarshal ?c _ ≠ _ => by apply (unmarshal_no_panic (c:=c)) end
              | by apply unmarshal_no_panic | by apply cast_no_panic
              | by apply unmarshal_tagged_no_panic | by apply cast_tagged_no_panic ]
      | intros [? ?] ?; cbv beta iota; repeat read_inv ]
  | |- Ok _ ≠ Panic => discriminate
  | |- Err _ ≠ Panic => discriminate
  end.

(** Bounds every encoding in sight. *)
Ltac bound_inv :=
  repeat match goal with
  | H : Codec.wire _ _ = Some _ |- _ => apply wire_max_le in H
  | H : uwire _ _ = Some _ |- _ => apply uwire_max_le in H
  end.

(** A sequence of marshalled fields. *)
Ltac solve_writes :=
  repeat apply writes_bind; first [by apply marshal_wire | by apply umarshal_wire].

(** The bytes consumed by a sequence of reads, and the encoding they form. *)
Ltac consume_all :=
  repeat first [eassumption | eapply consumes_trans; [eassumption|]].
Ltac solve_wcat :=
  repeat first [eassumption | apply wcat_Some; eexists _, _; split; [eassumption|split; [|reflexivity]]].

(** A slice read after others lies inside the bytes they consumed together. *)
Ltac sub_slice_inside :=
  repeat match goal with
  | |- sub_slice (mk_slice (sl_addr ?s) ?b) (mk_slice (sl_addr ?s) ?b) => apply sub_slice_refl
  | |- sub_slice (mk_slice (sl_addr ?s) ?b) (mk_slice (sl_addr ?s) (?b ++ _)) =>
      apply sub_slice_app_l
  | H : consumes ?b ?s ?r |- sub_slice (mk_slice (sl_addr ?s') _) (mk_slice (sl_addr ?s) (?b ++ _)) =>
      eapply sub_slice_trans; [|apply sub_slice_app_r];
      let Ha := fresh in pose proof (proj2 H) as Ha; rewrite <-Ha; clear Ha
  end.

(** The laws of a [tpmu_view!] union, by cases on the variant and the tag. *)
Ltac union_size :=
  match goal with
  | Hw : Codec.wire ?c _ = Some _ |- _ ≤ _ =>
      eapply Z.le_trans; [by eapply (wire_max_le (c:=c)) | by apply Z.leb_le; vm_compute]
  | _ => by apply Z.leb_le; vm_compute
  end.

Ltac union_case :=
  match goal with
  | H : Err _ = Ok _ |- _ => discriminate H
  | H : Some _ = Some _ |- _ => injection H as <-
  | H : Ok _ = Ok _ |- _ => injection H as <- <-
  end.

Ltac union_cast_case :=
  match goal with
  | Hb : Codec.wire _ ?y = Some ?b |- _ =>
      once (unshelve eexists; [constructor; exact y | exists b; split_and!; done])
  | s : slice |- _ =>
      once (unshelve eexists;
            [constructor | exists []; split_and!; first [done | apply consumes_refl]])
  end.

Ltac solve_tagged :=
  split;
  [ split; by apply Z.leb_le; vm_compute
  | intros [] ? Hw; cbn in *; try union_case; [.. | try done]; first [by eapply wire_len | done]
  | intros [] ? Hw; cbn in *; try union_case; union_size
  | intros [] ? Hw; cbn in *; try union_case;
    first [by apply marshal_wire | apply writes_ret]
  | intros tag [] bs s r Hok Hm Hw Hc; destruct tag; try discriminate Hm; cbn in *;
    first [ by repeat read_step
          | injection Hw as <-; by rewrite (consumes_det _ _ _ _ (consumes_refl s) Hc) ]
  | intros tag s v r Hok Hu; destruct tag; cbn in Hu; try discriminate Hu;
    repeat read_inv; union_case; (split; [done|]);
    first [ by eexists | exists []; split; [done | apply consumes_refl] ]
  | intros tag s Hok; destruct tag; cbn; repeat no_panic_step
  | intros [] s s' Hin Hsub; cbn in *; first [by eapply view_in_mono | done]
  | intros tag s vw r Hok Hu; destruct tag; cbn in Hu; try discriminate Hu;
    repeat read_inv; union_case; union_cast_case
  | intros tag [] bs s r Hok Hm Hw Hc; destruct tag; try discriminate Hm; cbn in *;
    first [repeat read_step; by eexists
          | injection Hw as <-; rewrite (consumes_det _ _ _ _ (consumes_refl s) Hc); by eexists]
  | intros tag s Hok; destruct tag; cbn; repeat no_panic_step ].
