(* ===== verification/BasicTypes.v ===== *)
(** The sized buffers and the hand-written PCR selection types of
    [protocol/src/data/mod.rs] and [data/tpms.rs], with the constants of
    [constant.rs]. *)

From S2P Require Import Prelude Errors Writer Codec Integer Buffer Tpml Struct EnumMacro Enums Attributes Union.

(** Constants of [protocol/src/constant.rs]. *)
Definition MAX_BUFFER_SIZE : Z := 1024.
Definition MAX_DIGEST_SIZE : Z := 64.
Definition MAX_DATA_SIZE : Z := MAX_DIGEST_SIZE + 2.
Definition MAX_ECC_KEY_BYTES : Z := 66.
Definition MAX_EVENT_SIZE : Z := 1024.
Definition MAX_HANDLES : Z := 8.
Definition MAX_NV_BUFFER_SIZE : Z := 1024.
Definition MAX_PRIVATE_SIZE : Z := 1408.
Definition MAX_RSA_KEY_BYTES : Z := 512.
Definition MAX_SENSITIVE_DATA : Z := 256.
Definition MAX_SESSIONS : Z := 8.
Definition MAX_SYM_KEY_BYTES : Z := 32.
Definition TPM_GENERATED_VALUE : Z := 0xFF544347.
Definition TPM_MAX_COMMAND_SIZE : Z := 4096.
Definition TPM_PCR_SELECT_MAX : Z := 4.

(** ** [tpm2b!] *)

Definition Tpm2b : WireType := TpmBuffer.wire_type TPM_MAX_COMMAND_SIZE.
#[export] Instance Tpm2b_ok : WireOk Tpm2b.
Proof. by apply buffer_wire_ok. Qed.

Definition Tpm2bAuth : WireType := TpmBuffer.wire_type MAX_DIGEST_SIZE.
#[export] Instance Tpm2bAuth_ok : WireOk Tpm2bAuth.
Proof. by apply buffer_wire_ok. Qed.

Definition Tpm2bDigest : WireType := TpmBuffer.wire_type MAX_DIGEST_SIZE.
#[export] Instance Tpm2bDigest_ok : WireOk Tpm2bDigest.
Proof. by apply buffer_wire_ok. Qed.

Definition Tpm2bEccParameter : WireType := TpmBuffer.wire_type MAX_ECC_KEY_BYTES.
#[export] Instance Tpm2bEccParameter_ok : WireOk Tpm2bEccParameter.
Proof. by apply buffer_wire_ok. Qed.

Definition Tpm2bEncryptedSecret : WireType := TpmBuffer.wire_type MAX_RSA_KEY_BYTES.
#[export] Instance Tpm2bEncryptedSecret_ok : WireOk Tpm2bEncryptedSecret.
Proof. by apply buffer_wire_ok. Qed.

Definition Tpm2bEvent : WireType := TpmBuffer.wire_type MAX_EVENT_SIZE.
#[export] Instance Tpm2bEvent_ok : WireOk Tpm2bEvent.
Proof. by apply buffer_wire_ok. Qed.

Definition Tpm2bMaxBuffer : WireType := TpmBuffer.wire_type MAX_BUFFER_SIZE.
#[export] Instance Tpm2bMaxBuffer_ok : WireOk Tpm2bMaxBuffer.
Proof. by apply buffer_wire_ok. Qed.

Definition Tpm2bMaxNvBuffer : WireType := TpmBuffer.wire_type MAX_NV_BUFFER_SIZE.
#[export] Instance Tpm2bMaxNvBuffer_ok : WireOk Tpm2bMaxNvBuffer.
Proof. by apply buffer_wire_ok. Qed.

Definition Tpm2bName : WireType := TpmBuffer.wire_type (MAX_DIGEST_SIZE + 2).
#[export] Instance Tpm2bName_ok : WireOk Tpm2bName.
Proof. by apply buffer_wire_ok. Qed.

Definition Tpm2bNonce : WireType := TpmBuffer.wire_type MAX_DIGEST_SIZE.
#[export] Instance Tpm2bNonce_ok : WireOk Tpm2bNonce.
Proof. by apply buffer_wire_ok. Qed.

Definition Tpm2bOperand : WireType := TpmBuffer.wire_type MAX_DIGEST_SIZE.
#[export] Instance Tpm2bOperand_ok : WireOk Tpm2bOperand.
Proof. by apply buffer_wire_ok. Qed.

Definition Tpm2bPrivate : WireType := TpmBuffer.wire_type MAX_PRIVATE_SIZE.
#[export] Instance Tpm2bPrivate_ok : WireOk Tpm2bPrivate.
Proof. by apply buffer_wire_ok. Qed.

Definition Tpm2bPrivateKeyRsa : WireType := TpmBuffer.wire_type (MAX_RSA_KEY_BYTES / 2).
#[export] Instance Tpm2bPrivateKeyRsa_ok : WireOk Tpm2bPrivateKeyRsa.
Proof. by apply buffer_wire_ok. Qed.

Definition Tpm2bPublicKeyRsa : WireType := TpmBuffer.wire_type MAX_RSA_KEY_BYTES.
#[export] Instance Tpm2bPublicKeyRsa_ok : WireOk Tpm2bPublicKeyRsa.
Proof. by apply buffer_wire_ok. Qed.

Definition Tpm2bSensitiveData : WireType := TpmBuffer.wire_type MAX_SENSITIVE_DATA.
#[export] Instance Tpm2bSensitiveData_ok : WireOk Tpm2bSensitiveData.
Proof. by apply buffer_wire_ok. Qed.

Definition Tpm2bSymKey : WireType := TpmBuffer.wire_type MAX_SYM_KEY_BYTES.
#[export] Instance Tpm2bSymKey_ok : WireOk Tpm2bSymKey.
Proof. by apply buffer_wire_ok. Qed.

Definition Tpm2bData : WireType := TpmBuffer.wire_type MAX_DATA_SIZE.
#[export] Instance Tpm2bData_ok : WireOk Tpm2bData.
Proof. by apply buffer_wire_ok. Qed.

Definition Tpm2bTimeout : WireType := TpmBuffer.wire_type 8.
#[export] Instance Tpm2bTimeout_ok : WireOk Tpm2bTimeout.
Proof. by apply buffer_wire_ok. Qed.

Definition Tpm2bIv : WireType := TpmBuffer.wire_type 16.
#[export] Instance Tpm2bIv_ok : WireOk Tpm2bIv.
Proof. by apply buffer_wire_ok. Qed.

(** ** PCR selections *)

(** [struct TpmsPcrSelect] *)
Module TpmsPcrSelect.
Record t := mk { size : TpmInt.t; data : list byte }.

#[global] Instance eq_dec : EqDecision t.
Proof. solve_decision. Defined.

Definition new : t := mk (TpmInt.new 1 0) (replicate (Z.to_nat TPM_PCR_SELECT_MAX) x00).

(** [&self.data[..u8::from(self.size) as usize]], which panics out of range *)
Definition deref (p : t) : TpmResult (list byte) :=
  let n := TpmInt.value 1 false (size p) in
  if n <=? zlen (data p) then Ok (take (Z.to_nat n) (data p)) else Panic.

(** [TryFrom<&[u8]>] *)
Definition try_from (xs : list byte) : TpmResult t :=
  if TPM_PCR_SELECT_MAX <? zlen xs then
    Err (TooManyItems 0 TPM_PCR_SELECT_MAX (zlen xs))
  else
    let? len_u8 := ok_or (if zlen xs <=? u8_max then Some (zlen xs) else None)
                     (IntegerTooLarge 0 (tpm_value (zlen xs))) in
    Ok (mk (TpmInt.new 1 len_u8) (xs ++ drop (length xs) (data new))).

Definition SIZE : Z := Codec.SIZE TpmUint8 + TPM_PCR_SELECT_MAX.
Definition len (p : t) : Z := Codec.SIZE TpmUint8 + TpmInt.value 1 false (size p).

Definition marshal (p : t) : W () :=
  Codec.marshal TpmUint8 (size p) ;!
  let! bytes := w_lift (deref p) in
  write_bytes bytes.

Definition cast_prefix_field (buf : slice) : TpmResult (slice * slice) :=
  let? (size, remainder) := Codec.cast_prefix_field TpmUint8 buf in
  let size := TpmInt.view_value 1 false size in
  if TPM_PCR_SELECT_MAX <? size then Err (TooManyItems 0 TPM_PCR_SELECT_MAX size)
  else if sl_len remainder <? size then
    Err (UnexpectedEnd (Codec.SIZE TpmUint8) size (sl_len remainder))
  else
    let? (pcr_select, remainder) := split_at remainder size in
    Ok (pcr_select, remainder).

Definition unmarshal (buffer : slice) : TpmResult (t * slice) :=
  let? (value, remainder) := cast_prefix_field buffer in
  let? v := try_from (sl_data value) in
  Ok (v, remainder).

(** The selection holds [xs], zero-padded. *)
Definition holds (p : t) (xs : list byte) : Prop :=
  zlen xs ≤ TPM_PCR_SELECT_MAX ∧ try_from xs = Ok p.

Definition wire (p : t) : option (list byte) :=
  match deref p with
  | Ok xs =>
      if bool_decide (try_from xs = Ok p) then Some (be_encode 1 (zlen xs) ++ xs) else None
  | _ => None
  end.

Definition codec : Codec := mk_codec t SIZE len marshal unmarshal wire SIZE.
(** The view is the selection bytes. *)
Definition wire_type : WireType := mk_wire_type codec slice cast_prefix_field
  (λ vw v, deref v = Ok (sl_data vw)) sub_slice.
End TpmsPcrSelect.

Lemma pcr_try_from_Ok xs :
  zlen xs ≤ TPM_PCR_SELECT_MAX →
  ∃ p, TpmsPcrSelect.try_from xs = Ok p ∧ TpmsPcrSelect.size p = TpmInt.new 1 (zlen xs) ∧
       TpmsPcrSelect.deref p = Ok xs.
Proof.
  intros Hx. pose proof (zlen_nonneg xs). unfold TpmsPcrSelect.try_from.
  unfold TPM_PCR_SELECT_MAX in *. case_match; [lia|].
  rewrite (proj2 (Z.leb_le (zlen xs) u8_max)) by (unfold u8_max; lia); simpl.
  eexists; split_and!; [done..|]. unfold TpmsPcrSelect.deref; simpl.
  rewrite value_new by (lia || apply in_range_u8; unfold u8_max; lia).
  case_match eqn:Hl.
  - f_equal. unfold zlen. rewrite Nat2Z.id. apply take_app_length.
  - rewrite zlen_app in Hl. match goal with H : _ = false |- _ => revert H end.
    pose proof (zlen_nonneg (drop (length xs) [x00; x00; x00; x00])). lia.
Qed.

Lemma pcr_try_from_bound xs p :
  TpmsPcrSelect.try_from xs = Ok p → zlen xs ≤ TPM_PCR_SELECT_MAX.
Proof. unfold TpmsPcrSelect.try_from. case_match; [done | lia]. Qed.

Lemma pcr_wire_Some p bs :
  TpmsPcrSelect.wire p = Some bs ↔
  ∃ xs, TpmsPcrSelect.try_from xs = Ok p ∧ bs = be_encode 1 (zlen xs) ++ xs.
Proof.
  unfold TpmsPcrSelect.wire. split.
  - destruct (TpmsPcrSelect.deref p) as [xs| |] eqn:Hd; [|done..].
    case_bool_decide as Ht; [|done]. intros [= <-]. by exists xs.
  - intros (xs & Ht & ->). pose proof (pcr_try_from_bound _ _ Ht) as Hb.
    destruct (pcr_try_from_Ok xs Hb) as (p' & Ht' & _ & Hd).
    rewrite Ht in Ht'. injection Ht' as <-. rewrite Hd. by rewrite bool_decide_eq_true_2.
Qed.

Lemma zlen_pcr xs : zlen (be_encode 1 (zlen xs) ++ xs) = 1 + zlen xs.
Proof. rewrite zlen_app. unfold zlen at 1. by rewrite length_be_encode. Qed.

Lemma pcr_cast_complete xs s r :
  slice_ok s → zlen xs ≤ TPM_PCR_SELECT_MAX → consumes (be_encode 1 (zlen xs) ++ xs) s r →
  TpmsPcrSelect.cast_prefix_field s = Ok (mk_slice (sl_addr s + 1) xs, r).
Proof.
  intros Hok Hx (mid & Hc1 & Hc2)%consumes_split. pose proof (zlen_nonneg xs).
  unfold TPM_PCR_SELECT_MAX in *.
  assert (TpmInt.in_range 1 false (zlen xs)) as Hr by (apply in_range_u8; unfold u8_max; lia).
  destruct (int_cast_consumes 1 false (zlen xs) s mid) as (vw & Hvw & Hz);
    [lia | done | done | |].
  { unfold TpmInt.to_unsigned. rewrite Z.mod_small; [done|]. unfold TpmInt.bits; simpl; lia. }
  unfold TpmsPcrSelect.cast_prefix_field, TpmUint8. rewrite Hvw; cbn [result_bind].
  rewrite Hz. unfold TPM_PCR_SELECT_MAX. pose proof (consumes_len _ _ _ Hc2).
  pose proof (sl_len_nonneg r). case_match; [lia|]. case_match; [lia|].
  rewrite (split_at_app _ _ _ Hc2). by destruct Hc1 as [_ ->].
Qed.

Lemma pcr_cast_Ok s vw r :
  slice_ok s → TpmsPcrSelect.cast_prefix_field s = Ok (vw, r) →
  zlen (sl_data vw) ≤ TPM_PCR_SELECT_MAX ∧
  consumes (be_encode 1 (zlen (sl_data vw)) ++ sl_data vw) s r ∧ sl_addr vw = sl_addr s + 1.
Proof.
  intros Hok ([n mid] & Hn & Hw)%result_bind_Ok_inv.
  apply (int_cast_Ok 1 false) in Hn as (z & Hz & Hr & Hc); [|lia|done].
  rewrite Hz in Hw. cbv zeta in Hw. destruct (TPM_PCR_SELECT_MAX <? z) eqn:H1; [done|].
  destruct (sl_len mid <? z) eqn:H2; [done|].
  apply result_bind_Ok_inv in Hw as ([h t] & Hs & [= <- <-]).
  assert (0 ≤ z ≤ u8_max) as Hz' by done.
  apply split_at_Ok in Hs as (Hl & Ha & Hc2); [|lia].
  unfold sl_len in Hl. rewrite Hl. split_and!; [lia | |].
  - eapply consumes_trans; [|done].
    unfold TpmInt.to_unsigned in Hc. rewrite Z.mod_small in Hc; [done|].
    unfold u8_max, TpmInt.bits in *; simpl; lia.
  - rewrite Ha. destruct Hc as [_ ->]. unfold zlen. by rewrite length_be_encode.
Qed.

Lemma pcr_cast_no_panic s : slice_ok s → TpmsPcrSelect.cast_prefix_field s ≠ Panic.
Proof.
  intros Hok. apply result_bind_not_Panic; [by apply (cast_no_panic (t:=TpmUint8))|].
  intros [n mid] _. cbv zeta. case_match; [done|]. case_match; [done|].
  apply result_bind_not_Panic; [apply split_at_not_Panic; lia | by intros [? ?]].
Qed.

#[export] Instance TpmsPcrSelect_codec_ok : CodecOk TpmsPcrSelect.codec.
Proof.
  split; simpl.
  - done.
  - intros p bs (xs & Ht & ->)%pcr_wire_Some. rewrite zlen_pcr.
    pose proof (pcr_try_from_bound _ _ Ht) as Hb. pose proof (zlen_nonneg xs).
    destruct (pcr_try_from_Ok xs Hb) as (p' & Ht' & Hs & _).
    rewrite Ht in Ht'. injection Ht' as <-. unfold TpmsPcrSelect.len. rewrite Hs.
    unfold TPM_PCR_SELECT_MAX in *.
    by rewrite value_new by (lia || apply in_range_u8; unfold u8_max; lia).
  - intros p bs (xs & Ht & ->)%pcr_wire_Some. rewrite zlen_pcr.
    apply pcr_try_from_bound in Ht. unfold TpmsPcrSelect.SIZE; simpl; unfold TpmInt.size; lia.
  - intros p bs (xs & Ht & ->)%pcr_wire_Some. pose proof (zlen_nonneg xs).
    pose proof (pcr_try_from_bound _ _ Ht) as Hb.
    destruct (pcr_try_from_Ok xs Hb) as (p' & Ht' & Hs & Hd).
    rewrite Ht in Ht'. injection Ht' as <-. unfold TpmsPcrSelect.marshal. rewrite Hs.
    apply writes_bind; [|by eapply writes_lift_bind; [|apply writes_write_bytes]].
    rewrite <-bytes_new; [apply writes_write_bytes|].
    unfold TPM_PCR_SELECT_MAX in *; simpl; lia.
  - intros p bs s r Hok (xs & Ht & ->)%pcr_wire_Some Hc. unfold TpmsPcrSelect.unmarshal.
    pose proof (pcr_try_from_bound _ _ Ht) as Hb.
    rewrite (pcr_cast_complete xs s r) by done; cbn [result_bind sl_data]. by rewrite Ht.
  - intros s p r Hok ([vw r'] & Hcast & Hw)%result_bind_Ok_inv.
    apply pcr_cast_Ok in Hcast as (Hl & Hc & Ha); [|done].
    apply result_bind_Ok_inv in Hw as (p' & Ht & [= <- <-]).
    eexists; split; [|exact Hc]. apply pcr_wire_Some. by exists (sl_data vw).
  - intros s Hok. apply result_bind_not_Panic; [by apply pcr_cast_no_panic|].
    intros [vw r] Hcast. apply pcr_cast_Ok in Hcast as (Hl & Hc & Ha); [|done].
    by destruct (pcr_try_from_Ok _ Hl) as (p & -> & _).
Qed.

Definition TpmsPcrSelect : WireType := TpmsPcrSelect.wire_type.

#[export] Instance TpmsPcrSelect_ok : WireOk TpmsPcrSelect.
Proof.
  split; simpl.
  - apply _.
  - intros. by eapply sub_slice_trans.
  - intros s vw r Hok (Hl & Hc & Ha)%pcr_cast_Ok; [|done].
    destruct (pcr_try_from_Ok _ Hl) as (p & Ht & _ & Hd).
    exists p, (be_encode 1 (zlen (sl_data vw)) ++ sl_data vw). split_and!; [|done..|].
    + apply pcr_wire_Some. by exists (sl_data vw).
    + destruct vw as [a d]; simpl in *. rewrite Ha.
      replace 1 with (zlen (be_encode 1 (zlen d))) by (unfold zlen; by rewrite length_be_encode).
      apply sub_slice_app_r.
  - intros p bs s r Hok (xs & Ht & ->)%pcr_wire_Some Hc. apply pcr_try_from_bound in Ht.
    eexists. by apply pcr_cast_complete.
  - apply pcr_cast_no_panic.
Qed.

(** [struct TpmsPcrSelection] *)
Module TpmsPcrSelection.
Record t := mk { hash : TpmAlgId.t; pcr_select : TpmsPcrSelect.t }.

Definition SIZE : Z := Codec.SIZE TpmAlgId + 1 + TPM_PCR_SELECT_MAX.
Definition len (v : t) : Z :=
  Codec.len TpmAlgId (hash v) + Codec.len TpmsPcrSelect (pcr_select v).
Definition marshal (v : t) : W () :=
  Codec.marshal TpmAlgId (hash v) ;!
  Codec.marshal TpmsPcrSelect (pcr_select v).
Definition cast_prefix_field (buf : slice) : TpmResult ((TpmAlgId.t * slice) * slice) :=
  let? (hash, buf) := Codec.cast_prefix_field TpmAlgId buf in
  let? (pcr_select, buf) := Codec.cast_prefix_field TpmsPcrSelect buf in
  Ok ((hash, pcr_select), buf).
Definition unmarshal (buffer : slice) : TpmResult (t * slice) :=
  let? (hash, buffer) := Codec.unmarshal TpmAlgId buffer in
  let? (pcr_select, buffer) := Codec.unmarshal TpmsPcrSelect buffer in
  Ok (mk hash pcr_select, buffer).

Definition wire (v : t) : option (list byte) :=
  Codec.wire TpmAlgId (hash v) +++ Codec.wire TpmsPcrSelect (pcr_select v).

Definition wire_type : WireType := mk_wire_type
  (mk_codec t SIZE len marshal unmarshal wire SIZE) (TpmAlgId.t * slice) cast_prefix_field
  (λ vw v, vw.1 = hash v ∧ Codec.view_of TpmsPcrSelect vw.2 (pcr_select v))
  (λ vw s, Codec.view_in TpmsPcrSelect vw.2 s).
End TpmsPcrSelection.
Definition TpmsPcrSelection : WireType := TpmsPcrSelection.wire_type.

Lemma TpmsPcrSelection_codec_ok : CodecOk TpmsPcrSelection.
Proof.
  split; cbn -[TpmAlgId TpmsPcrSelect].
  - split; by apply Z.leb_le; vm_compute.
  - intros v bs Hw. unfold TpmsPcrSelection.wire in Hw. wire_inv.
    unfold TpmsPcrSelection.len. rewrite zlen_app.
    by erewrite !wire_len by done.
  - intros v bs Hw. unfold TpmsPcrSelection.wire in Hw. wire_inv. rewrite zlen_app.
    apply wire_max_le in H, Hw. unfold TpmsPcrSelection.SIZE.
    change (wire_max TpmsPcrSelect) with (1 + TPM_PCR_SELECT_MAX) in Hw.
    change (wire_max TpmAlgId) with (SIZE TpmAlgId) in H. lia.
  - intros v bs Hw. unfold TpmsPcrSelection.wire in Hw. wire_inv.
    apply writes_bind; by apply marshal_wire.
  - intros [h p] bs s r Hok Hw Hc. unfold TpmsPcrSelection.wire in Hw.
    cbn [TpmsPcrSelection.hash TpmsPcrSelection.pcr_select] in Hw. wire_inv.
    unfold TpmsPcrSelection.unmarshal. repeat read_step. done.
  - intros s v r Hok Hu. unfold TpmsPcrSelection.unmarshal in Hu. repeat read_inv.
    union_case. eexists; split; [|by eapply consumes_trans].
    apply wcat_Some. by eexists _, _.
  - intros s Hok. unfold TpmsPcrSelection.unmarshal. repeat no_panic_step.
Qed.

#[export] Instance TpmsPcrSelection_ok : WireOk TpmsPcrSelection.
Proof.
  split; cbn -[TpmAlgId TpmsPcrSelect].
  - apply TpmsPcrSelection_codec_ok.
  - intros. by eapply sub_slice_trans.
  - intros s vw r Hok Hu. unfold TpmsPcrSelection.cast_prefix_field in Hu. repeat read_inv.
    union_case. eexists (TpmsPcrSelection.mk _ _), _. split_and!.
    + apply wcat_Some. eexists _, _. split_and!; [done | done | reflexivity].
    + by eapply consumes_trans.
    + done.
    + done.
    + cbn in *. eapply sub_slice_trans; [done|].
      match goal with H : consumes _ s ?r |- context [sl_addr ?r] => destruct H as [_ ->] end.
      apply sub_slice_app_r.
  - intros [h p] bs s r Hok Hw Hc. unfold TpmsPcrSelection.wire in Hw.
    cbn [TpmsPcrSelection.hash TpmsPcrSelection.pcr_select] in Hw. wire_inv.
    unfold TpmsPcrSelection.cast_prefix_field. repeat read_step. by eexists.
  - intros s Hok. unfold TpmsPcrSelection.cast_prefix_field. repeat no_panic_step.
Qed.
