(* ===== verification/Schemes.v ===== *)
(** Algorithm parameters of [protocol/src/data]: the scheme, key-size and
    signature unions of [tpmu.rs] with the tagged structures of [tpmt.rs]
    and the parameter structures of [tpms.rs] built from them. *)

From S2P Require Import Prelude Errors Writer Codec Integer Buffer Tpml Struct EnumMacro Enums Attributes Union BasicTypes.

(** The operations of a field's codec are only used
    through their laws. *)
#[local] Arguments Codec.SIZE : simpl never.
#[local] Arguments Codec.len : simpl never.
#[local] Arguments Codec.marshal : simpl never.
#[local] Arguments Codec.unmarshal : simpl never.
#[local] Arguments Codec.wire : simpl never.
#[local] Arguments Codec.cast_prefix_field : simpl never.
#[local] Arguments Codec.codec : simpl never.
#[local] Arguments Codec.View : simpl never.
#[local] Arguments Codec.view_of : simpl never.
#[local] Arguments Codec.view_in : simpl never.

(** ** Hash, key-derivation and keyed-hash schemes *)

Definition TpmsSchemeHash : WireType := tpm_struct
  [("hash_alg", TpmiAlgHash)].
#[export] Instance TpmsSchemeHash_ok : WireOk TpmsSchemeHash := tpm_struct_ok _.

Definition TpmsSchemeHmac : WireType := TpmsSchemeHash.
#[export] Instance TpmsSchemeHmac_ok : WireOk TpmsSchemeHmac := TpmsSchemeHash_ok.

(** [enum TpmuKdfScheme] *)
Module TpmuKdfScheme.
Inductive t : Type :=
| Mgf1 (v : ty TpmsSchemeHash)
| Kdf1Sp800_56a (v : ty TpmsSchemeHash)
| Kdf2 (v : ty TpmsSchemeHash)
| Kdf1Sp800_108 (v : ty TpmsSchemeHash)
| Null.

Definition SIZE : Z := TPM_MAX_COMMAND_SIZE.
Definition len (u : t) : Z :=
  match u with
  | Mgf1 v => Codec.len TpmsSchemeHash v
  | Kdf1Sp800_56a v => Codec.len TpmsSchemeHash v
  | Kdf2 v => Codec.len TpmsSchemeHash v
  | Kdf1Sp800_108 v => Codec.len TpmsSchemeHash v
  | Null => 0
  end.
Definition marshal (u : t) : W () :=
  match u with
  | Mgf1 v => Codec.marshal TpmsSchemeHash v
  | Kdf1Sp800_56a v => Codec.marshal TpmsSchemeHash v
  | Kdf2 v => Codec.marshal TpmsSchemeHash v
  | Kdf1Sp800_108 v => Codec.marshal TpmsSchemeHash v
  | Null => w_ret ()
  end.
Definition wire (u : t) : option (list byte) :=
  match u with
  | Mgf1 v => Codec.wire TpmsSchemeHash v
  | Kdf1Sp800_56a v => Codec.wire TpmsSchemeHash v
  | Kdf2 v => Codec.wire TpmsSchemeHash v
  | Kdf1Sp800_108 v => Codec.wire TpmsSchemeHash v
  | Null => Some []
  end.
Definition wire_max : Z :=
  Codec.wire_max TpmsSchemeHash.

Definition matches_tag (u : t) (tag : TpmAlgId.t) : bool :=
  match u, tag with
  | Mgf1 _, TpmAlgId.Mgf1 => true
  | Kdf1Sp800_56a _, TpmAlgId.Kdf1Sp800_56A => true
  | Kdf2 _, TpmAlgId.Kdf2 => true
  | Kdf1Sp800_108 _, TpmAlgId.Kdf1Sp800_108 => true
  | Null, TpmAlgId.Null => true
  | _, _ => false
  end.

Inductive view : Type :=
| Mgf1_view (v : View TpmsSchemeHash)
| Kdf1Sp800_56a_view (v : View TpmsSchemeHash)
| Kdf2_view (v : View TpmsSchemeHash)
| Kdf1Sp800_108_view (v : View TpmsSchemeHash)
| Null_view.

Definition cast_tagged (tag : TpmAlgId.t) (buf : slice) : TpmResult (view * slice) :=
  match tag with
  | TpmAlgId.Mgf1 =>
      let? (value, buf) := cast_prefix_field TpmsSchemeHash buf in Ok (Mgf1_view value, buf)
  | TpmAlgId.Kdf1Sp800_56A =>
      let? (value, buf) := cast_prefix_field TpmsSchemeHash buf in Ok (Kdf1Sp800_56a_view value, buf)
  | TpmAlgId.Kdf2 =>
      let? (value, buf) := cast_prefix_field TpmsSchemeHash buf in Ok (Kdf2_view value, buf)
  | TpmAlgId.Kdf1Sp800_108 =>
      let? (value, buf) := cast_prefix_field TpmsSchemeHash buf in Ok (Kdf1Sp800_108_view value, buf)
  | TpmAlgId.Null => Ok (Null_view, buf)
  | _ => Err (VariantNotAvailable 0 (TpmAlgId.value tag))
  end.

Definition unmarshal_tagged (tag : TpmAlgId.t) (buffer : slice) : TpmResult (t * slice) :=
  match tag with
  | TpmAlgId.Mgf1 =>
      let? (value, buffer) := Codec.unmarshal TpmsSchemeHash buffer in Ok (Mgf1 value, buffer)
  | TpmAlgId.Kdf1Sp800_56A =>
      let? (value, buffer) := Codec.unmarshal TpmsSchemeHash buffer in Ok (Kdf1Sp800_56a value, buffer)
  | TpmAlgId.Kdf2 =>
      let? (value, buffer) := Codec.unmarshal TpmsSchemeHash buffer in Ok (Kdf2 value, buffer)
  | TpmAlgId.Kdf1Sp800_108 =>
      let? (value, buffer) := Codec.unmarshal TpmsSchemeHash buffer in Ok (Kdf1Sp800_108 value, buffer)
  | TpmAlgId.Null => Ok (Null, buffer)
  | _ => Err (VariantNotAvailable 0 (TpmAlgId.value tag))
  end.

Definition view_of (vw : view) (u : t) : Prop :=
  match vw, u with
  | Mgf1_view x, Mgf1 y => Codec.view_of TpmsSchemeHash x y
  | Kdf1Sp800_56a_view x, Kdf1Sp800_56a y => Codec.view_of TpmsSchemeHash x y
  | Kdf2_view x, Kdf2 y => Codec.view_of TpmsSchemeHash x y
  | Kdf1Sp800_108_view x, Kdf1Sp800_108 y => Codec.view_of TpmsSchemeHash x y
  | Null_view, Null => True
  | _, _ => False
  end.
Definition view_in (vw : view) (s : slice) : Prop :=
  match vw with
  | Mgf1_view x => Codec.view_in TpmsSchemeHash x s
  | Kdf1Sp800_56a_view x => Codec.view_in TpmsSchemeHash x s
  | Kdf2_view x => Codec.view_in TpmsSchemeHash x s
  | Kdf1Sp800_108_view x => Codec.view_in TpmsSchemeHash x s
  | Null_view => True
  end.

Definition tagged : Tagged TpmAlgId.t := mk_tagged TpmAlgId.t t SIZE len marshal matches_tag
  unmarshal_tagged view cast_tagged wire wire_max view_of view_in.
End TpmuKdfScheme.
Definition TpmuKdfScheme : Tagged TpmAlgId.t := TpmuKdfScheme.tagged.
#[export] Instance TpmuKdfScheme_ok : TaggedOk TpmuKdfScheme.
Proof. solve_tagged. Qed.

Definition TpmtKdfScheme : WireType :=
  TaggedStruct.wire_type (enum_codec TpmAlgId.t) TpmuKdfScheme TpmAlgId.value.
#[export] Instance TpmtKdfScheme_ok : WireOk TpmtKdfScheme := tagged_ok _ _ _.
(** [TpmtKdfScheme::default()] *)
Definition kdf_scheme_default : ty TpmtKdfScheme := TaggedStruct.mk TpmAlgId.Null TpmuKdfScheme.Null.

Definition TpmsSchemeXor : WireType := tpm_struct
  [("hash_alg", TpmiAlgHash);
   ("kdf", TpmtKdfScheme)].
#[export] Instance TpmsSchemeXor_ok : WireOk TpmsSchemeXor := tpm_struct_ok _.

(** [enum TpmuKeyedhashScheme] *)
Module TpmuKeyedhashScheme.
Inductive t : Type :=
| Hmac (v : ty TpmsSchemeHash)
| Xor (v : ty TpmsSchemeXor)
| Null.

Definition SIZE : Z := TPM_MAX_COMMAND_SIZE.
Definition len (u : t) : Z :=
  match u with
  | Hmac v => Codec.len TpmsSchemeHash v
  | Xor v => Codec.len TpmsSchemeXor v
  | Null => 0
  end.
Definition marshal (u : t) : W () :=
  match u with
  | Hmac v => Codec.marshal TpmsSchemeHash v
  | Xor v => Codec.marshal TpmsSchemeXor v
  | Null => w_ret ()
  end.
Definition wire (u : t) : option (list byte) :=
  match u with
  | Hmac v => Codec.wire TpmsSchemeHash v
  | Xor v => Codec.wire TpmsSchemeXor v
  | Null => Some []
  end.
Definition wire_max : Z :=
  Codec.wire_max TpmsSchemeHash `max`
  (Codec.wire_max TpmsSchemeXor).

Definition matches_tag (u : t) (tag : TpmAlgId.t) : bool :=
  match u, tag with
  | Hmac _, TpmAlgId.Hmac => true
  | Xor _, TpmAlgId.Xor => true
  | Null, TpmAlgId.Null => true
  | _, _ => false
  end.

Inductive view : Type :=
| Hmac_view (v : View TpmsSchemeHash)
| Xor_view (v : View TpmsSchemeXor)
| Null_view.

Definition cast_tagged (tag : TpmAlgId.t) (buf : slice) : TpmResult (view * slice) :=
  match tag with
  | TpmAlgId.Hmac =>
      let? (value, buf) := cast_prefix_field TpmsSchemeHash buf in Ok (Hmac_view value, buf)
  | TpmAlgId.Xor =>
      let? (value, buf) := cast_prefix_field TpmsSchemeXor buf in Ok (Xor_view value, buf)
  | TpmAlgId.Null => Ok (Null_view, buf)
  | _ => Err (VariantNotAvailable 0 (TpmAlgId.value tag))
  end.

Definition unmarshal_tagged (tag : TpmAlgId.t) (buffer : slice) : TpmResult (t * slice) :=
  match tag with
  | TpmAlgId.Hmac =>
      let? (value, buffer) := Codec.unmarshal TpmsSchemeHash buffer in Ok (Hmac value, buffer)
  | TpmAlgId.Xor =>
      let? (value, buffer) := Codec.unmarshal TpmsSchemeXor buffer in Ok (Xor value, buffer)
  | TpmAlgId.Null => Ok (Null, buffer)
  | _ => Err (VariantNotAvailable 0 (TpmAlgId.value tag))
  end.

Definition view_of (vw : view) (u : t) : Prop :=
  match vw, u with
  | Hmac_view x, Hmac y => Codec.view_of TpmsSchemeHash x y
  | Xor_view x, Xor y => Codec.view_of TpmsSchemeXor x y
  | Null_view, Null => True
  | _, _ => False
  end.
Definition view_in (vw : view) (s : slice) : Prop :=
  match vw with
  | Hmac_view x => Codec.view_in TpmsSchemeHash x s
  | Xor_view x => Codec.view_in TpmsSchemeXor x s
  | Null_view => True
  end.

Definition tagged : Tagged TpmAlgId.t := mk_tagged TpmAlgId.t t SIZE len marshal matches_tag
  unmarshal_tagged view cast_tagged wire wire_max view_of view_in.
End TpmuKeyedhashScheme.
Definition TpmuKeyedhashScheme : Tagged TpmAlgId.t := TpmuKeyedhashScheme.tagged.
#[export] Instance TpmuKeyedhashScheme_ok : TaggedOk TpmuKeyedhashScheme.
Proof. solve_tagged. Qed.

Definition TpmtKeyedhashScheme : WireType :=
  TaggedStruct.wire_type (enum_codec TpmAlgId.t) TpmuKeyedhashScheme TpmAlgId.value.
#[export] Instance TpmtKeyedhashScheme_ok : WireOk TpmtKeyedhashScheme := tagged_ok _ _ _.

Definition TpmsKeyedhashParms : WireType := tpm_struct
  [("scheme", TpmtKeyedhashScheme)].
#[export] Instance TpmsKeyedhashParms_ok : WireOk TpmsKeyedhashParms := tpm_struct_ok _.

(** ** Signing and encryption schemes *)

(** [enum TpmuAsymScheme] *)
Module TpmuAsymScheme.
Inductive t : Type :=
| Hash (v : ty TpmsSchemeHash)
| Null.

Definition SIZE : Z := TPM_MAX_COMMAND_SIZE.
Definition len (u : t) : Z :=
  match u with
  | Hash v => Codec.len TpmsSchemeHash v
  | Null => 0
  end.
Definition marshal (u : t) : W () :=
  match u with
  | Hash v => Codec.marshal TpmsSchemeHash v
  | Null => w_ret ()
  end.
Definition wire (u : t) : option (list byte) :=
  match u with
  | Hash v => Codec.wire TpmsSchemeHash v
  | Null => Some []
  end.
Definition wire_max : Z :=
  Codec.wire_max TpmsSchemeHash.

Definition matches_tag (u : t) (tag : TpmAlgId.t) : bool :=
  match u, tag with
  | Hash _, (TpmAlgId.Rsassa | TpmAlgId.Rsapss | TpmAlgId.Ecdsa | TpmAlgId.Ecdaa |
      TpmAlgId.Sm2 | TpmAlgId.Ecschnorr | TpmAlgId.Oaep | TpmAlgId.Ecdh |
      TpmAlgId.Ecmqv) => true
  | Null, (TpmAlgId.Rsaes | TpmAlgId.Null) => true
  | _, _ => false
  end.

Inductive view : Type :=
| Hash_view (v : View TpmsSchemeHash)
| Null_view.

Definition cast_tagged (tag : TpmAlgId.t) (buf : slice) : TpmResult (view * slice) :=
  match tag with
  | (TpmAlgId.Rsassa | TpmAlgId.Rsapss | TpmAlgId.Ecdsa | TpmAlgId.Ecdaa | TpmAlgId.Sm2 |
    TpmAlgId.Ecschnorr | TpmAlgId.Oaep | TpmAlgId.Ecdh | TpmAlgId.Ecmqv) =>
      let? (value, buf) := cast_prefix_field TpmsSchemeHash buf in Ok (Hash_view value, buf)
  | (TpmAlgId.Rsaes | TpmAlgId.Null) => Ok (Null_view, buf)
  | _ => Err (VariantNotAvailable 0 (TpmAlgId.value tag))
  end.

Definition unmarshal_tagged (tag : TpmAlgId.t) (buffer : slice) : TpmResult (t * slice) :=
  match tag with
  | (TpmAlgId.Rsassa | TpmAlgId.Rsapss | TpmAlgId.Ecdsa | TpmAlgId.Ecdaa | TpmAlgId.Sm2 |
    TpmAlgId.Ecschnorr | TpmAlgId.Oaep | TpmAlgId.Ecdh | TpmAlgId.Ecmqv) =>
      let? (value, buffer) := Codec.unmarshal TpmsSchemeHash buffer in Ok (Hash value, buffer)
  | (TpmAlgId.Rsaes | TpmAlgId.Null) => Ok (Null, buffer)
  | _ => Err (VariantNotAvailable 0 (TpmAlgId.value tag))
  end.

Definition view_of (vw : view) (u : t) : Prop :=
  match vw, u with
  | Hash_view x, Hash y => Codec.view_of TpmsSchemeHash x y
  | Null_view, Null => True
  | _, _ => False
  end.
Definition view_in (vw : view) (s : slice) : Prop :=
  match vw with
  | Hash_view x => Codec.view_in TpmsSchemeHash x s
  | Null_view => True
  end.

Definition tagged : Tagged TpmAlgId.t := mk_tagged TpmAlgId.t t SIZE len marshal matches_tag
  unmarshal_tagged view cast_tagged wire wire_max view_of view_in.
End TpmuAsymScheme.
Definition TpmuAsymScheme : Tagged TpmAlgId.t := TpmuAsymScheme.tagged.
#[export] Instance TpmuAsymScheme_ok : TaggedOk TpmuAsymScheme.
Proof. solve_tagged. Qed.

Definition TpmtRsaScheme : WireType :=
  TaggedStruct.wire_type (enum_codec TpmAlgId.t) TpmuAsymScheme TpmAlgId.value.
#[export] Instance TpmtRsaScheme_ok : WireOk TpmtRsaScheme := tagged_ok _ _ _.

Definition TpmtEccScheme : WireType :=
  TaggedStruct.wire_type (enum_codec TpmAlgId.t) TpmuAsymScheme TpmAlgId.value.
#[export] Instance TpmtEccScheme_ok : WireOk TpmtEccScheme := tagged_ok _ _ _.

Definition TpmtRsaDecrypt : WireType :=
  TaggedStruct.wire_type (enum_codec TpmAlgId.t) TpmuAsymScheme TpmAlgId.value.
#[export] Instance TpmtRsaDecrypt_ok : WireOk TpmtRsaDecrypt := tagged_ok _ _ _.

(** [enum TpmuSigScheme] *)
Module TpmuSigScheme.
Inductive t : Type :=
| Hash (v : ty TpmsSchemeHash)
| Hmac (v : ty TpmsSchemeHmac)
| Null.

Definition SIZE : Z := TPM_MAX_COMMAND_SIZE.
Definition len (u : t) : Z :=
  match u with
  | Hash v => Codec.len TpmsSchemeHash v
  | Hmac v => Codec.len TpmsSchemeHmac v
  | Null => 0
  end.
Definition marshal (u : t) : W () :=
  match u with
  | Hash v => Codec.marshal TpmsSchemeHash v
  | Hmac v => Codec.marshal TpmsSchemeHmac v
  | Null => w_ret ()
  end.
Definition wire (u : t) : option (list byte) :=
  match u with
  | Hash v => Codec.wire TpmsSchemeHash v
  | Hmac v => Codec.wire TpmsSchemeHmac v
  | Null => Some []
  end.
Definition wire_max : Z :=
  Codec.wire_max TpmsSchemeHash `max`
  (Codec.wire_max TpmsSchemeHmac).

Definition matches_tag (u : t) (tag : TpmAlgId.t) : bool :=
  match u, tag with
  | Hmac _, TpmAlgId.Hmac => true
  | Hash _, (TpmAlgId.Rsassa | TpmAlgId.Rsapss | TpmAlgId.Ecdsa | TpmAlgId.Ecdaa |
      TpmAlgId.Sm2 | TpmAlgId.Ecschnorr) => true
  | Null, TpmAlgId.Null => true
  | _, _ => false
  end.

Inductive view : Type :=
| Hmac_view (v : View TpmsSchemeHmac)
| Hash_view (v : View TpmsSchemeHash)
| Null_view.

Definition cast_tagged (tag : TpmAlgId.t) (buf : slice) : TpmResult (view * slice) :=
  match tag with
  | TpmAlgId.Hmac =>
      let? (value, buf) := cast_prefix_field TpmsSchemeHmac buf in Ok (Hmac_view value, buf)
  | (TpmAlgId.Rsassa | TpmAlgId.Rsapss | TpmAlgId.Ecdsa | TpmAlgId.Ecdaa | TpmAlgId.Sm2 |
    TpmAlgId.Ecschnorr) =>
      let? (value, buf) := cast_prefix_field TpmsSchemeHash buf in Ok (Hash_view value, buf)
  | TpmAlgId.Null => Ok (Null_view, buf)
  | _ => Err (VariantNotAvailable 0 (TpmAlgId.value tag))
  end.

Definition unmarshal_tagged (tag : TpmAlgId.t) (buffer : slice) : TpmResult (t * slice) :=
  match tag with
  | TpmAlgId.Hmac =>
      let? (value, buffer) := Codec.unmarshal TpmsSchemeHmac buffer in Ok (Hmac value, buffer)
  | (TpmAlgId.Rsassa | TpmAlgId.Rsapss | TpmAlgId.Ecdsa | TpmAlgId.Ecdaa | TpmAlgId.Sm2 |
    TpmAlgId.Ecschnorr) =>
      let? (value, buffer) := Codec.unmarshal TpmsSchemeHash buffer in Ok (Hash value, buffer)
  | TpmAlgId.Null => Ok (Null, buffer)
  | _ => Err (VariantNotAvailable 0 (TpmAlgId.value tag))
  end.

Definition view_of (vw : view) (u : t) : Prop :=
  match vw, u with
  | Hmac_view x, Hmac y => Codec.view_of TpmsSchemeHmac x y
  | Hash_view x, Hash y => Codec.view_of TpmsSchemeHash x y
  | Null_view, Null => True
  | _, _ => False
  end.
Definition view_in (vw : view) (s : slice) : Prop :=
  match vw with
  | Hmac_view x => Codec.view_in TpmsSchemeHmac x s
  | Hash_view x => Codec.view_in TpmsSchemeHash x s
  | Null_view => True
  end.

Definition tagged : Tagged TpmAlgId.t := mk_tagged TpmAlgId.t t SIZE len marshal matches_tag
  unmarshal_tagged view cast_tagged wire wire_max view_of view_in.
End TpmuSigScheme.
Definition TpmuSigScheme : Tagged TpmAlgId.t := TpmuSigScheme.tagged.
#[export] Instance TpmuSigScheme_ok : TaggedOk TpmuSigScheme.
Proof. solve_tagged. Qed.

Definition TpmtSigScheme : WireType :=
  TaggedStruct.wire_type (enum_codec TpmAlgId.t) TpmuSigScheme TpmAlgId.value.
#[export] Instance TpmtSigScheme_ok : WireOk TpmtSigScheme := tagged_ok _ _ _.

(** ** Symmetric definitions *)

(** [enum TpmuSymKeyBits] *)
Module TpmuSymKeyBits.
Inductive t : Type :=
| Aes (v : ty TpmUint16)
| Sm4 (v : ty TpmUint16)
| Camellia (v : ty TpmUint16)
| Xor (v : ty TpmAlgId)
| Null.

Definition SIZE : Z := Codec.SIZE TpmUint16.
Definition len (u : t) : Z :=
  match u with
  | Aes v => Codec.len TpmUint16 v
  | Sm4 v => Codec.len TpmUint16 v
  | Camellia v => Codec.len TpmUint16 v
  | Xor v => Codec.len TpmAlgId v
  | Null => 0
  end.
Definition marshal (u : t) : W () :=
  match u with
  | Aes v => Codec.marshal TpmUint16 v
  | Sm4 v => Codec.marshal TpmUint16 v
  | Camellia v => Codec.marshal TpmUint16 v
  | Xor v => Codec.marshal TpmAlgId v
  | Null => w_ret ()
  end.
Definition wire (u : t) : option (list byte) :=
  match u with
  | Aes v => Codec.wire TpmUint16 v
  | Sm4 v => Codec.wire TpmUint16 v
  | Camellia v => Codec.wire TpmUint16 v
  | Xor v => Codec.wire TpmAlgId v
  | Null => Some []
  end.
Definition wire_max : Z :=
  Codec.wire_max TpmUint16 `max`
  (Codec.wire_max TpmAlgId).

Definition matches_tag (u : t) (tag : TpmAlgId.t) : bool :=
  match u, tag with
  | Aes _, TpmAlgId.Aes => true
  | Sm4 _, TpmAlgId.Sm4 => true
  | Camellia _, TpmAlgId.Camellia => true
  | Xor _, TpmAlgId.Xor => true
  | Null, TpmAlgId.Null => true
  | _, _ => false
  end.

Inductive view : Type :=
| Aes_view (v : View TpmUint16)
| Sm4_view (v : View TpmUint16)
| Camellia_view (v : View TpmUint16)
| Xor_view (v : View TpmAlgId)
| Null_view.

Definition cast_tagged (tag : TpmAlgId.t) (buf : slice) : TpmResult (view * slice) :=
  match tag with
  | TpmAlgId.Aes =>
      let? (value, buf) := cast_prefix_field TpmUint16 buf in Ok (Aes_view value, buf)
  | TpmAlgId.Sm4 =>
      let? (value, buf) := cast_prefix_field TpmUint16 buf in Ok (Sm4_view value, buf)
  | TpmAlgId.Camellia =>
      let? (value, buf) := cast_prefix_field TpmUint16 buf in Ok (Camellia_view value, buf)
  | TpmAlgId.Xor =>
      let? (value, buf) := cast_prefix_field TpmAlgId buf in Ok (Xor_view value, buf)
  | TpmAlgId.Null => Ok (Null_view, buf)
  | _ => Err (VariantNotAvailable 0 (TpmAlgId.value tag))
  end.

Definition unmarshal_tagged (tag : TpmAlgId.t) (buffer : slice) : TpmResult (t * slice) :=
  match tag with
  | TpmAlgId.Aes =>
      let? (value, buffer) := Codec.unmarshal TpmUint16 buffer in Ok (Aes value, buffer)
  | TpmAlgId.Sm4 =>
      let? (value, buffer) := Codec.unmarshal TpmUint16 buffer in Ok (Sm4 value, buffer)
  | TpmAlgId.Camellia =>
      let? (value, buffer) := Codec.unmarshal TpmUint16 buffer in Ok (Camellia value, buffer)
  | TpmAlgId.Xor =>
      let? (value, buffer) := Codec.unmarshal TpmAlgId buffer in Ok (Xor value, buffer)
  | TpmAlgId.Null => Ok (Null, buffer)
  | _ => Err (VariantNotAvailable 0 (TpmAlgId.value tag))
  end.

Definition view_of (vw : view) (u : t) : Prop :=
  match vw, u with
  | Aes_view x, Aes y => Codec.view_of TpmUint16 x y
  | Sm4_view x, Sm4 y => Codec.view_of TpmUint16 x y
  | Camellia_view x, Camellia y => Codec.view_of TpmUint16 x y
  | Xor_view x, Xor y => Codec.view_of TpmAlgId x y
  | Null_view, Null => True
  | _, _ => False
  end.
Definition view_in (vw : view) (s : slice) : Prop :=
  match vw with
  | Aes_view x => Codec.view_in TpmUint16 x s
  | Sm4_view x => Codec.view_in TpmUint16 x s
  | Camellia_view x => Codec.view_in TpmUint16 x s
  | Xor_view x => Codec.view_in TpmAlgId x s
  | Null_view => True
  end.

Definition tagged : Tagged TpmAlgId.t := mk_tagged TpmAlgId.t t SIZE len marshal matches_tag
  unmarshal_tagged view cast_tagged wire wire_max view_of view_in.
End TpmuSymKeyBits.
Definition TpmuSymKeyBits : Tagged TpmAlgId.t := TpmuSymKeyBits.tagged.
#[export] Instance TpmuSymKeyBits_ok : TaggedOk TpmuSymKeyBits.
Proof. solve_tagged. Qed.

(** [enum TpmuSymMode] *)
Module TpmuSymMode.
Inductive t : Type :=
| Aes (v : ty TpmAlgId)
| Sm4 (v : ty TpmAlgId)
| Camellia (v : ty TpmAlgId)
| Xor (v : ty TpmAlgId)
| Null.

Definition SIZE : Z := Codec.SIZE TpmUint16.
Definition len (u : t) : Z :=
  match u with
  | Aes v => Codec.len TpmAlgId v
  | Sm4 v => Codec.len TpmAlgId v
  | Camellia v => Codec.len TpmAlgId v
  | Xor v => Codec.len TpmAlgId v
  | Null => 0
  end.
Definition marshal (u : t) : W () :=
  match u with
  | Aes v => Codec.marshal TpmAlgId v
  | Sm4 v => Codec.marshal TpmAlgId v
  | Camellia v => Codec.marshal TpmAlgId v
  | Xor v => Codec.marshal TpmAlgId v
  | Null => w_ret ()
  end.
Definition wire (u : t) : option (list byte) :=
  match u with
  | Aes v => Codec.wire TpmAlgId v
  | Sm4 v => Codec.wire TpmAlgId v
  | Camellia v => Codec.wire TpmAlgId v
  | Xor v => Codec.wire TpmAlgId v
  | Null => Some []
  end.
Definition wire_max : Z :=
  Codec.wire_max TpmAlgId.

Definition matches_tag (u : t) (tag : TpmAlgId.t) : bool :=
  match u, tag with
  | Aes _, TpmAlgId.Aes => true
  | Sm4 _, TpmAlgId.Sm4 => true
  | Camellia _, TpmAlgId.Camellia => true
  | Xor _, TpmAlgId.Xor => true
  | Null, TpmAlgId.Null => true
  | _, _ => false
  end.

Inductive view : Type :=
| Aes_view (v : View TpmAlgId)
| Sm4_view (v : View TpmAlgId)
| Camellia_view (v : View TpmAlgId)
| Xor_view (v : View TpmAlgId)
| Null_view.

Definition cast_tagged (tag : TpmAlgId.t) (buf : slice) : TpmResult (view * slice) :=
  match tag with
  | TpmAlgId.Aes =>
      let? (value, buf) := cast_prefix_field TpmAlgId buf in Ok (Aes_view value, buf)
  | TpmAlgId.Sm4 =>
      let? (value, buf) := cast_prefix_field TpmAlgId buf in Ok (Sm4_view value, buf)
  | TpmAlgId.Camellia =>
      let? (value, buf) := cast_prefix_field TpmAlgId buf in Ok (Camellia_view value, buf)
  | TpmAlgId.Xor =>
      let? (value, buf) := cast_prefix_field TpmAlgId buf in Ok (Xor_view value, buf)
  | TpmAlgId.Null => Ok (Null_view, buf)
  | _ => Err (VariantNotAvailable 0 (TpmAlgId.value tag))
  end.

Definition unmarshal_tagged (tag : TpmAlgId.t) (buffer : slice) : TpmResult (t * slice) :=
  match tag with
  | TpmAlgId.Aes =>
      let? (value, buffer) := Codec.unmarshal TpmAlgId buffer in Ok (Aes value, buffer)
  | TpmAlgId.Sm4 =>
      let? (value, buffer) := Codec.unmarshal TpmAlgId buffer in Ok (Sm4 value, buffer)
  | TpmAlgId.Camellia =>
      let? (value, buffer) := Codec.unmarshal TpmAlgId buffer in Ok (Camellia value, buffer)
  | TpmAlgId.Xor =>
      let? (value, buffer) := Codec.unmarshal TpmAlgId buffer in Ok (Xor value, buffer)
  | TpmAlgId.Null => Ok (Null, buffer)
  | _ => Err (VariantNotAvailable 0 (TpmAlgId.value tag))
  end.

Definition view_of (vw : view) (u : t) : Prop :=
  match vw, u with
  | Aes_view x, Aes y => Codec.view_of TpmAlgId x y
  | Sm4_view x, Sm4 y => Codec.view_of TpmAlgId x y
  | Camellia_view x, Camellia y => Codec.view_of TpmAlgId x y
  | Xor_view x, Xor y => Codec.view_of TpmAlgId x y
  | Null_view, Null => True
  | _, _ => False
  end.
Definition view_in (vw : view) (s : slice) : Prop :=
  match vw with
  | Aes_view x => Codec.view_in TpmAlgId x s
  | Sm4_view x => Codec.view_in TpmAlgId x s
  | Camellia_view x => Codec.view_in TpmAlgId x s
  | Xor_view x => Codec.view_in TpmAlgId x s
  | Null_view => True
  end.

Definition tagged : Tagged TpmAlgId.t := mk_tagged TpmAlgId.t t SIZE len marshal matches_tag
  unmarshal_tagged view cast_tagged wire wire_max view_of view_in.
End TpmuSymMode.
Definition TpmuSymMode : Tagged TpmAlgId.t := TpmuSymMode.tagged.
#[export] Instance TpmuSymMode_ok : TaggedOk TpmuSymMode.
Proof. solve_tagged. Qed.

(** [struct TpmtSymDef]: a null algorithm has neither key size nor mode. *)
Module TpmtSymDef.
Record t := mk { algorithm : TpmAlgId.t; key_bits : TpmuSymKeyBits.t; mode : TpmuSymMode.t }.

Definition SIZE : Z := Codec.SIZE TpmAlgId + USIZE TpmuSymKeyBits + Codec.SIZE TpmAlgId.
Definition len (v : t) : Z :=
  if bool_decide (algorithm v = TpmAlgId.Null) then Codec.len TpmAlgId (algorithm v)
  else Codec.len TpmAlgId (algorithm v) + ulen TpmuSymKeyBits (key_bits v) +
       ulen TpmuSymMode (mode v).

Definition marshal (v : t) : W () :=
  if negb (bool_decide (algorithm v = TpmAlgId.Null)) &&
     (negb (matches_tag TpmuSymKeyBits (key_bits v) (algorithm v)) ||
      negb (matches_tag TpmuSymMode (mode v) (algorithm v)))
  then
    let! at_ := w_len in
    w_err (VariantNotAvailable at_ (TpmAlgId.value (algorithm v)))
  else
    Codec.marshal TpmAlgId (algorithm v) ;!
    if negb (bool_decide (algorithm v = TpmAlgId.Null)) then
      umarshal TpmuSymKeyBits (key_bits v) ;!
      umarshal TpmuSymMode (mode v) ;!
      w_ret ()
    else w_ret ().

Definition unmarshal (buffer : slice) : TpmResult (t * slice) :=
  let? (algorithm, buffer) := Codec.unmarshal TpmAlgId buffer in
  if bool_decide (algorithm = TpmAlgId.Null) then
    Ok (mk algorithm TpmuSymKeyBits.Null TpmuSymMode.Null, buffer)
  else
    let? (key_bits, buffer) := Codec.unmarshal_tagged TpmuSymKeyBits algorithm buffer in
    let? (mode, buffer) := Codec.unmarshal_tagged TpmuSymMode algorithm buffer in
    Ok (mk algorithm key_bits mode, buffer).

Inductive view : Type :=
| Null_view
| Value_view (algorithm : TpmAlgId.t) (key_bits : UView TpmuSymKeyBits)
    (mode : UView TpmuSymMode).

Definition cast_prefix_field (buf : slice) : TpmResult (view * slice) :=
  let? (algorithm, buf) := Codec.cast_prefix_field TpmAlgId buf in
  if bool_decide (algorithm = TpmAlgId.Null) then Ok (Null_view, buf)
  else
    let? (key_bits, buf) := Codec.cast_tagged TpmuSymKeyBits algorithm buf in
    let? (mode, buf) := Codec.cast_tagged TpmuSymMode algorithm buf in
    Ok (Value_view algorithm key_bits mode, buf).

(** A null definition carries no key size and no mode. *)
Definition wire (v : t) : option (list byte) :=
  if bool_decide (algorithm v = TpmAlgId.Null) then
    match key_bits v, mode v with
    | TpmuSymKeyBits.Null, TpmuSymMode.Null => Codec.wire TpmAlgId (algorithm v)
    | _, _ => None
    end
  else if matches_tag TpmuSymKeyBits (key_bits v) (algorithm v) &&
          matches_tag TpmuSymMode (mode v) (algorithm v) then
    Codec.wire TpmAlgId (algorithm v) +++
    uwire TpmuSymKeyBits (key_bits v) +++ uwire TpmuSymMode (mode v)
  else None.

Definition view_of (vw : view) (v : t) : Prop :=
  match vw with
  | Null_view => v = mk TpmAlgId.Null TpmuSymKeyBits.Null TpmuSymMode.Null
  | Value_view a k m =>
      a = algorithm v ∧ uview_of TpmuSymKeyBits k (key_bits v) ∧
      uview_of TpmuSymMode m (mode v)
  end.
Definition view_in (vw : view) (s : slice) : Prop :=
  match vw with
  | Null_view => True
  | Value_view _ k m => uview_in TpmuSymKeyBits k s ∧ uview_in TpmuSymMode m s
  end.

Definition wire_type : WireType := mk_wire_type
  (mk_codec t SIZE len marshal unmarshal wire SIZE) view cast_prefix_field view_of view_in.
End TpmtSymDef.
Definition TpmtSymDef : WireType := TpmtSymDef.wire_type.

Lemma symdef_wire_Some v bs :
  TpmtSymDef.wire v = Some bs ↔
  (v = TpmtSymDef.mk TpmAlgId.Null TpmuSymKeyBits.Null TpmuSymMode.Null ∧
   wire TpmAlgId TpmAlgId.Null = Some bs) ∨
  (TpmtSymDef.algorithm v ≠ TpmAlgId.Null ∧
   matches_tag TpmuSymKeyBits (TpmtSymDef.key_bits v) (TpmtSymDef.algorithm v) = true ∧
   matches_tag TpmuSymMode (TpmtSymDef.mode v) (TpmtSymDef.algorithm v) = true ∧
   wire TpmAlgId (TpmtSymDef.algorithm v) +++
   uwire TpmuSymKeyBits (TpmtSymDef.key_bits v) +++
   uwire TpmuSymMode (TpmtSymDef.mode v) = Some bs).
Proof.
  unfold TpmtSymDef.wire. destruct v as [a k m];
    cbn [TpmtSymDef.algorithm TpmtSymDef.key_bits TpmtSymDef.mode].
  case_bool_decide as Ha.
  - split.
    + intros Hw. left. subst a. destruct k, m; try done.
    + intros [[[= -> -> ->] ?]|[? _]]; done.
  - destruct (_ && _) eqn:Hm.
    + apply andb_true_iff in Hm as [? ?]. split.
      * intros. right. done.
      * intros [[[= -> -> ->] ?]|(? & ? & ? & ?)]; done.
    + split; [done|]. intros [[[= -> -> ->] ?]|(? & H1 & H2 & ?)]; [done|].
      rewrite H1, H2 in Hm. done.
Qed.

Lemma TpmtSymDef_codec_ok : CodecOk TpmtSymDef.
Proof.
  split; lazy [TpmtSymDef TpmtSymDef.wire_type codec ty SIZE len marshal unmarshal wire wire_max].
  - split; by apply Z.leb_le; vm_compute.
  - intros v bs [[-> Hw]|(Ha & Hk & Hm & Hw)]%symdef_wire_Some; unfold TpmtSymDef.len.
    + rewrite bool_decide_eq_true_2 by done. by apply wire_len.
    + rewrite bool_decide_eq_false_2 by done. wire_inv. rewrite !zlen_app.
      erewrite wire_len, !uwire_len by done. lia.
  - intros v bs [[-> Hw]|(Ha & Hk & Hm & Hw)]%symdef_wire_Some; unfold TpmtSymDef.SIZE.
    + apply wire_max_le in Hw. change (USIZE TpmuSymKeyBits) with 2.
      change (SIZE TpmAlgId) with 2. change (wire_max TpmAlgId) with 2 in Hw. lia.
    + wire_inv. rewrite !zlen_app. apply wire_max_le in H. apply uwire_max_le in H0, Hw.
      change (uwire_max TpmuSymMode) with 2 in Hw. change (wire_max TpmAlgId) with 2 in H.
      change (uwire_max TpmuSymKeyBits) with 2 in H0. change (USIZE TpmuSymKeyBits) with 2.
      change (SIZE TpmAlgId) with 2. lia.
  - intros v bs [[-> Hw]|(Ha & Hk & Hm & Hw)]%symdef_wire_Some; unfold TpmtSymDef.marshal.
    + rewrite bool_decide_eq_true_2 by done. cbn [negb andb TpmtSymDef.algorithm].
      rewrite <-(app_nil_r bs). apply writes_bind; [by apply marshal_wire | apply writes_ret].
    + rewrite bool_decide_eq_false_2 by done. rewrite Hk, Hm. cbn [negb andb orb].
      wire_inv. apply writes_bind; [by apply marshal_wire|].
      apply writes_bind; [by apply umarshal_wire|].
      rewrite <-(app_nil_r b2). apply writes_bind; [by apply umarshal_wire | apply writes_ret].
  - intros v bs s r Hok [[-> Hw]|(Ha & Hk & Hm & Hw)]%symdef_wire_Some Hc;
      unfold TpmtSymDef.unmarshal.
    + repeat read_step. by rewrite bool_decide_eq_true_2.
    + destruct v as [a k m]; cbn [TpmtSymDef.algorithm TpmtSymDef.key_bits TpmtSymDef.mode] in *.
      wire_inv. repeat read_step. rewrite bool_decide_eq_false_2 by done.
      repeat tagged_step. done.
  - intros s v r Hok Hu. unfold TpmtSymDef.unmarshal in Hu. read_inv. read_inv.
    case_bool_decide as Ha.
    + injection Hu as <- <-. subst x. eexists; split; [|done]. apply symdef_wire_Some. by left.
    + repeat read_inv. union_case. eexists; split; [|by do 2 (eapply consumes_trans; [done|])].
      apply symdef_wire_Some. right. cbn. split_and!; [done..|].
      apply wcat_Some. eexists _, _. split_and!; [done | | done].
      apply wcat_Some. by eexists _, _.
  - intros s Hok. unfold TpmtSymDef.unmarshal. no_panic_step. case_bool_decide; [done|].
    repeat no_panic_step.
Qed.

#[export] Instance TpmtSymDef_ok : WireOk TpmtSymDef.
Proof.
  split; [apply TpmtSymDef_codec_ok|..];
    lazy [TpmtSymDef TpmtSymDef.wire_type codec ty View cast_prefix_field wire view_in view_of].
  - intros [] s s' Hin Hs; [done|]. destruct Hin. split; by eapply uview_in_mono.
  - intros s vw r Hok Hu. unfold TpmtSymDef.cast_prefix_field in Hu.
    change (Codec.cast_prefix_field TpmAlgId) with (Codec.unmarshal TpmAlgId) in Hu. read_inv. read_inv.
    case_bool_decide as Ha.
    + injection Hu as <- <-. cbn in *. subst.
      exists (TpmtSymDef.mk TpmAlgId.Null TpmuSymKeyBits.Null TpmuSymMode.Null), b.
      split_and!; [|done..]. apply symdef_wire_Some. by left.
    + repeat read_inv. union_case. subst.
      eexists (TpmtSymDef.mk _ _ _), _. split; [|split; [|split]].
      * apply symdef_wire_Some. right. cbn. split_and!; [done..|].
        apply wcat_Some. eexists _, _. split_and!; [done | | done].
        apply wcat_Some. by eexists _, _.
      * by do 2 (eapply consumes_trans; [done|]).
      * by split; [|split].
      * split; [eapply (uview_in_mono (u:=TpmuSymKeyBits)); [done|]; eapply sub_slice_trans; [apply sub_slice_app_l|];
          match goal with H : consumes _ s ?r0 |- context [sl_addr ?r0] => destruct H as [_ ->] end;
          apply sub_slice_app_r|].
        eapply (uview_in_mono (u:=TpmuSymMode)); [done|].
        match goal with H : consumes _ ?r0 ?r1 |- context [sl_addr ?r1] => destruct H as [_ ->] end.
        eapply sub_slice_trans; [apply sub_slice_app_r|].
        match goal with H : consumes _ s ?r0 |- context [sl_addr ?r0] => destruct H as [_ ->] end.
        apply sub_slice_app_r.
  - intros v bs s r Hok [[-> Hw]|(Ha & Hk & Hm & Hw)]%symdef_wire_Some Hc;
      unfold TpmtSymDef.cast_prefix_field;
      change (Codec.cast_prefix_field TpmAlgId) with (Codec.unmarshal TpmAlgId).
    + repeat read_step. rewrite bool_decide_eq_true_2 by done. by eexists.
    + destruct v as [a k m]; cbn [TpmtSymDef.algorithm TpmtSymDef.key_bits TpmtSymDef.mode] in *.
      wire_inv. repeat read_step. rewrite bool_decide_eq_false_2 by done.
      repeat tagged_step. by eexists.
  - intros s Hok. unfold TpmtSymDef.cast_prefix_field.
    change (Codec.cast_prefix_field TpmAlgId) with (Codec.unmarshal TpmAlgId). no_panic_step.
    case_bool_decide; [done|]. repeat no_panic_step.
Qed.

Definition TpmtSymDefObject : WireType := TpmtSymDef.
#[export] Instance TpmtSymDefObject_ok : WireOk TpmtSymDefObject := TpmtSymDef_ok.
(** [TpmtSymDefObject::default()] *)
Definition sym_def_default : TpmtSymDef.t :=
  TpmtSymDef.mk TpmAlgId.Null TpmuSymKeyBits.Null TpmuSymMode.Null.

Definition TpmsSymcipherParms : WireType := tpm_struct
  [("sym", TpmtSymDefObject)].
#[export] Instance TpmsSymcipherParms_ok : WireOk TpmsSymcipherParms := tpm_struct_ok _.

Definition TpmsRsaParms : WireType := tpm_struct
  [("symmetric", TpmtSymDefObject);
   ("scheme", TpmtRsaScheme);
   ("key_bits", TpmUint16);
   ("exponent", TpmUint32)].
#[export] Instance TpmsRsaParms_ok : WireOk TpmsRsaParms := tpm_struct_ok _.

Definition TpmsEccParms : WireType := tpm_struct
  [("symmetric", TpmtSymDefObject);
   ("scheme", TpmtEccScheme);
   ("curve_id", TpmEccCurve);
   ("kdf", TpmtKdfScheme)].
#[export] Instance TpmsEccParms_ok : WireOk TpmsEccParms := tpm_struct_ok _.

(** ** Digests and signatures *)

(** [enum TpmuHa]: a bare digest, its length given by the algorithm. *)
Module TpmuHa.
Inductive t : Type :=
| Null
| Digest (d : TpmBuffer.t).

Definition SIZE : Z := MAX_DIGEST_SIZE.

Definition deref (u : t) : list byte :=
  match u with
  | Null => []
  | Digest d => TpmBuffer.deref d
  end.

Definition len (u : t) : Z :=
  match u with
  | Null => 0
  | Digest d => zlen (TpmBuffer.deref d)
  end.
Definition marshal (u : t) : W () :=
  match u with
  | Null => w_ret ()
  | Digest d => write_bytes (TpmBuffer.deref d)
  end.
Definition wire (u : t) : option (list byte) :=
  match u with
  | Null => Some []
  | Digest d =>
      if TpmBuffer.holds_dec MAX_DIGEST_SIZE d then Some (TpmBuffer.deref d) else None
  end.

Definition digest_size (tag : TpmAlgId.t) : option Z :=
  match tag with
  | TpmAlgId.Sha1 => Some 20
  | TpmAlgId.Shake256_192 => Some 24
  | TpmAlgId.Sha256 | TpmAlgId.Sm3_256 | TpmAlgId.Sha3_256 | TpmAlgId.Shake256_256 => Some 32
  | TpmAlgId.Sha384 | TpmAlgId.Sha3_384 => Some 48
  | TpmAlgId.Sha512 | TpmAlgId.Sha3_512 | TpmAlgId.Shake256_512 => Some 64
  | _ => None
  end.

Definition matches_tag (u : t) (tag : TpmAlgId.t) : bool :=
  match u, tag with
  | Null, TpmAlgId.Null => true
  | Digest digest, tag =>
      match digest_size tag with
      | Some size => zlen (TpmBuffer.deref digest) =? size
      | None => false
      end
  | _, _ => false
  end.

Inductive view : Type :=
| Null_view
| Digest_view (d : slice).

Definition cast_tagged (tag : TpmAlgId.t) (buf : slice) : TpmResult (view * slice) :=
  match digest_size tag with
  | None =>
      if bool_decide (tag = TpmAlgId.Null) then Ok (Null_view, buf)
      else Err (VariantNotAvailable 0 (TpmAlgId.value tag))
  | Some digest_size =>
      if sl_len buf <? digest_size then Err (UnexpectedEnd 0 digest_size (sl_len buf))
      else
        let? (digest, buf) := split_at buf digest_size in
        Ok (Digest_view digest, buf)
  end.

Definition unmarshal_tagged (tag : TpmAlgId.t) (buffer : slice) : TpmResult (t * slice) :=
  let? (view, buffer) := cast_tagged tag buffer in
  let? value :=
    match view with
    | Null_view => Ok Null
    | Digest_view digest =>
        let? d := TpmBuffer.try_from MAX_DIGEST_SIZE (sl_data digest) in Ok (Digest d)
    end in
  Ok (value, buffer).

Definition view_of (vw : view) (u : t) : Prop :=
  match vw, u with
  | Null_view, Null => True
  | Digest_view s, Digest d => TpmBuffer.deref d = sl_data s
  | _, _ => False
  end.
Definition view_in (vw : view) (s : slice) : Prop :=
  match vw with
  | Null_view => True
  | Digest_view d => sub_slice d s
  end.

Definition tagged : Tagged TpmAlgId.t := mk_tagged TpmAlgId.t t SIZE len marshal matches_tag
  unmarshal_tagged view cast_tagged wire SIZE view_of view_in.
End TpmuHa.
Definition TpmuHa : Tagged TpmAlgId.t := TpmuHa.tagged.

Lemma digest_size_bound tag n : TpmuHa.digest_size tag = Some n → 0 ≤ n ≤ MAX_DIGEST_SIZE.
Proof. destruct tag; simpl; intros [= <-] || intros; try done; unfold MAX_DIGEST_SIZE; lia. Qed.

Lemma ha_wire_Some u bs :
  TpmuHa.wire u = Some bs ↔
  (u = TpmuHa.Null ∧ bs = []) ∨
  ∃ d, u = TpmuHa.Digest d ∧ TpmBuffer.holds MAX_DIGEST_SIZE d bs.
Proof.
  destruct u as [|d]; simpl.
  - split; [intros [= <-]; by left | by intros [[_ ->]|(d & [=] & _)]].
  - assert (TpmBuffer.wire MAX_DIGEST_SIZE d = Tpm2b.format <$>
      if TpmBuffer.holds_dec MAX_DIGEST_SIZE d then Some (TpmBuffer.deref d) else None) as E.
    { unfold TpmBuffer.wire. by case_match. }
    split.
    + intros H. right. exists d. split; [done|]. rewrite H in E; simpl in E.
      apply buffer_wire_Some in E as (xs & Hh & _). case_match; [|done].
      injection H as <-. pose proof (holds_deref MAX_DIGEST_SIZE _ _ Hh) as ->. done.
    + intros [[[=] _]|(d' & [= <-] & Hh)].
      assert (TpmBuffer.wire MAX_DIGEST_SIZE d = Some (Tpm2b.format bs)) as Hw
        by (apply buffer_wire_Some; by exists bs).
      rewrite Hw in E. case_match; [|done]. f_equal. by apply (holds_deref MAX_DIGEST_SIZE).
Qed.

Lemma ha_matches_digest d bs tag :
  TpmBuffer.holds MAX_DIGEST_SIZE d bs →
  TpmuHa.matches_tag (TpmuHa.Digest d) tag = true ↔ TpmuHa.digest_size tag = Some (zlen bs).
Proof.
  intros Hh. pose proof (holds_deref MAX_DIGEST_SIZE _ _ Hh) as Hd. cbn. rewrite Hd.
  destruct (TpmuHa.digest_size tag) as [n|]; [|done]. rewrite Z.eqb_eq. naive_solver.
Qed.

Lemma ha_cast_Ok tag s vw r :
  TpmuHa.cast_tagged tag s = Ok (vw, r) →
  (tag = TpmAlgId.Null ∧ vw = TpmuHa.Null_view ∧ r = s) ∨
  ∃ d, vw = TpmuHa.Digest_view d ∧ TpmuHa.digest_size tag = Some (zlen (sl_data d)) ∧
       sl_addr d = sl_addr s ∧ consumes (sl_data d) s r.
Proof.
  unfold TpmuHa.cast_tagged. destruct (TpmuHa.digest_size tag) as [n|] eqn:Hn.
  - case_match; [done|]. intros ([h t] & Hs & [= <- <-])%result_bind_Ok_inv.
    pose proof (digest_size_bound _ _ Hn). apply split_at_Ok in Hs as (<- & ? & ?); [|lia].
    right. by exists h.
  - case_bool_decide; [|done]. intros [= <- <-]. by left.
Qed.

(** A digest fits its buffer. *)
Lemma ha_buffer bs :
  zlen bs ≤ MAX_DIGEST_SIZE →
  ∃ d, TpmBuffer.try_from MAX_DIGEST_SIZE bs = Ok d ∧ TpmBuffer.holds MAX_DIGEST_SIZE d bs.
Proof.
  intros H. apply (buffer_try_from_spec MAX_DIGEST_SIZE ltac:(done) bs H).
  unfold MAX_DIGEST_SIZE, u16_max in *; lia.
Qed.

Lemma ha_cast_complete tag u bs s r :
  TpmuHa.matches_tag u tag = true → TpmuHa.wire u = Some bs → consumes bs s r →
  ∃ vw, TpmuHa.cast_tagged tag s = Ok (vw, r) ∧
    match u with
    | TpmuHa.Null => vw = TpmuHa.Null_view
    | TpmuHa.Digest d => vw = TpmuHa.Digest_view (mk_slice (sl_addr s) bs) ∧
        TpmBuffer.holds MAX_DIGEST_SIZE d bs
    end.
Proof.
  intros Hm [[-> ->]|(d & -> & Hh)]%ha_wire_Some Hc; unfold TpmuHa.cast_tagged.
  - destruct tag; try discriminate Hm. cbn.
    rewrite (consumes_det _ _ _ _ (consumes_refl s) Hc). by eexists.
  - apply (ha_matches_digest _ _ _ Hh) in Hm as ->.
    pose proof (consumes_len _ _ _ Hc). pose proof (sl_len_nonneg r).
    case_match; [lia|]. rewrite (split_at_app _ _ _ Hc). by eexists.
Qed.

Lemma ha_cast_no_panic tag s : TpmuHa.cast_tagged tag s ≠ Panic.
Proof.
  unfold TpmuHa.cast_tagged. repeat case_match; try done.
  apply result_bind_not_Panic; [apply split_at_not_Panic; lia | by intros [? ?]].
Qed.

#[export] Instance TpmuHa_ok : TaggedOk TpmuHa.
Proof.
  split; lazy [TpmuHa TpmuHa.tagged uty USIZE ulen umarshal Codec.matches_tag
    Codec.unmarshal_tagged UView Codec.cast_tagged uwire uwire_max uview_of uview_in].
  - split; by apply Z.leb_le; vm_compute.
  - intros v bs [[-> ->]|(d & -> & Hh)]%ha_wire_Some; [done|].
    by rewrite <-(holds_deref MAX_DIGEST_SIZE _ _ Hh).
  - intros v bs [[-> ->]|(d & -> & (_ & [? _] & _))]%ha_wire_Some; [done|]. done.
  - intros v bs [[-> ->]|(d & -> & Hh)]%ha_wire_Some; simpl; [apply writes_ret|].
    rewrite (holds_deref MAX_DIGEST_SIZE _ _ Hh). apply writes_write_bytes.
  - intros tag v bs s r Hok Hm Hw Hc.
    destruct (ha_cast_complete tag v bs s r Hm Hw Hc) as (vw & Hvw & Hv).
    unfold TpmuHa.unmarshal_tagged. rewrite Hvw. destruct v as [|d]; [by subst|].
    destruct Hv as [-> Hh]. pose proof Hh as (_ & [Hl _] & _).
    destruct (ha_buffer bs Hl) as (d' & E & Hh'). cbn. rewrite E. cbn.
    by rewrite (holds_inj MAX_DIGEST_SIZE d' d bs Hh').
  - intros tag s v r Hok ([vw r'] & Hcast & Hw)%result_bind_Ok_inv.
    apply ha_cast_Ok in Hcast as [(-> & -> & ->)|(d & -> & Hn & _ & Hc)]; cbn in Hw.
    + injection Hw as <- <-. split; [done|]. exists []. split; [done | apply consumes_refl].
    + destruct (ha_buffer (sl_data d)) as (d' & E & Hh); [by apply (digest_size_bound tag)|].
      rewrite E in Hw. cbn in Hw. injection Hw as <- <-.
      split; [by apply (ha_matches_digest _ _ _ Hh)|].
      exists (sl_data d). split; [|done]. apply ha_wire_Some. right. by exists d'.
  - intros tag s Hok. apply result_bind_not_Panic; [apply ha_cast_no_panic|].
    intros [vw r] [(-> & -> & ->)|(d & -> & Hn & _ & Hc)]%ha_cast_Ok; [done|].
    destruct (ha_buffer (sl_data d)) as (d' & E & Hh); [by apply (digest_size_bound tag)|].
    cbn. by rewrite E.
  - intros [|d] s s' Hin Hs; [done|]. by eapply sub_slice_trans.
  - intros tag s vw r Hok [(-> & -> & ->)|(d & -> & Hn & Ha & Hc)]%ha_cast_Ok.
    + exists TpmuHa.Null, []. split_and!; try done. apply consumes_refl.
    + destruct (ha_buffer (sl_data d)) as (d' & _ & Hh); [by apply (digest_size_bound tag)|].
      exists (TpmuHa.Digest d'), (sl_data d). split_and!; try done.
      * by apply (ha_matches_digest _ _ _ Hh).
      * apply ha_wire_Some. right. by exists d'.
      * cbn. by apply (holds_deref MAX_DIGEST_SIZE).
      * cbn. destruct d; simpl in *; subst. apply sub_slice_refl.
  - intros tag v bs s r Hok Hm Hw Hc.
    destruct (ha_cast_complete tag v bs s r Hm Hw Hc) as (vw & Hvw & _). by exists vw.
  - intros tag s Hok. apply ha_cast_no_panic.
Qed.

Definition TpmtHa : WireType :=
  TaggedStruct.wire_type (enum_codec TpmAlgId.t) TpmuHa TpmAlgId.value.
#[export] Instance TpmtHa_ok : WireOk TpmtHa := tagged_ok _ _ _.

Definition TpmsSignatureRsa : WireType := tpm_struct
  [("hash", TpmAlgId);
   ("sig", Tpm2bPublicKeyRsa)].
#[export] Instance TpmsSignatureRsa_ok : WireOk TpmsSignatureRsa := tpm_struct_ok _.

Definition TpmsSignatureEcc : WireType := tpm_struct
  [("hash", TpmAlgId);
   ("signature_r", Tpm2bEccParameter);
   ("signature_s", Tpm2bEccParameter)].
#[export] Instance TpmsSignatureEcc_ok : WireOk TpmsSignatureEcc := tpm_struct_ok _.

(** [enum TpmuSignature] *)
Module TpmuSignature.
Inductive t : Type :=
| Rsassa (v : ty TpmsSignatureRsa)
| Rsapss (v : ty TpmsSignatureRsa)
| Ecdsa (v : ty TpmsSignatureEcc)
| Ecdaa (v : ty TpmsSignatureEcc)
| Sm2 (v : ty TpmsSignatureEcc)
| Ecschnorr (v : ty TpmsSignatureEcc)
| Hmac (v : ty TpmtHa)
| Null.

Definition SIZE : Z := TPM_MAX_COMMAND_SIZE.
Definition len (u : t) : Z :=
  match u with
  | Rsassa v => Codec.len TpmsSignatureRsa v
  | Rsapss v => Codec.len TpmsSignatureRsa v
  | Ecdsa v => Codec.len TpmsSignatureEcc v
  | Ecdaa v => Codec.len TpmsSignatureEcc v
  | Sm2 v => Codec.len TpmsSignatureEcc v
  | Ecschnorr v => Codec.len TpmsSignatureEcc v
  | Hmac v => Codec.len TpmtHa v
  | Null => 0
  end.
Definition marshal (u : t) : W () :=
  match u with
  | Rsassa v => Codec.marshal TpmsSignatureRsa v
  | Rsapss v => Codec.marshal TpmsSignatureRsa v
  | Ecdsa v => Codec.marshal TpmsSignatureEcc v
  | Ecdaa v => Codec.marshal TpmsSignatureEcc v
  | Sm2 v => Codec.marshal TpmsSignatureEcc v
  | Ecschnorr v => Codec.marshal TpmsSignatureEcc v
  | Hmac v => Codec.marshal TpmtHa v
  | Null => w_ret ()
  end.
Definition wire (u : t) : option (list byte) :=
  match u with
  | Rsassa v => Codec.wire TpmsSignatureRsa v
  | Rsapss v => Codec.wire TpmsSignatureRsa v
  | Ecdsa v => Codec.wire TpmsSignatureEcc v
  | Ecdaa v => Codec.wire TpmsSignatureEcc v
  | Sm2 v => Codec.wire TpmsSignatureEcc v
  | Ecschnorr v => Codec.wire TpmsSignatureEcc v
  | Hmac v => Codec.wire TpmtHa v
  | Null => Some []
  end.
Definition wire_max : Z :=
  Codec.wire_max TpmsSignatureRsa `max`
  (Codec.wire_max TpmsSignatureEcc `max`
  (Codec.wire_max TpmtHa)).

Definition matches_tag (u : t) (tag : TpmAlgId.t) : bool :=
  match u, tag with
  | Rsassa _, TpmAlgId.Rsassa => true
  | Rsapss _, TpmAlgId.Rsapss => true
  | Ecdsa _, TpmAlgId.Ecdsa => true
  | Ecdaa _, TpmAlgId.Ecdaa => true
  | Sm2 _, TpmAlgId.Sm2 => true
  | Ecschnorr _, TpmAlgId.Ecschnorr => true
  | Hmac _, TpmAlgId.Hmac => true
  | Null, TpmAlgId.Null => true
  | _, _ => false
  end.

Inductive view : Type :=
| Rsassa_view (v : View TpmsSignatureRsa)
| Rsapss_view (v : View TpmsSignatureRsa)
| Ecdsa_view (v : View TpmsSignatureEcc)
| Ecdaa_view (v : View TpmsSignatureEcc)
| Sm2_view (v : View TpmsSignatureEcc)
| Ecschnorr_view (v : View TpmsSignatureEcc)
| Hmac_view (v : View TpmtHa)
| Null_view.

Definition cast_tagged (tag : TpmAlgId.t) (buf : slice) : TpmResult (view * slice) :=
  match tag with
  | TpmAlgId.Rsassa =>
      let? (value, buf) := cast_prefix_field TpmsSignatureRsa buf in Ok (Rsassa_view value, buf)
  | TpmAlgId.Rsapss =>
      let? (value, buf) := cast_prefix_field TpmsSignatureRsa buf in Ok (Rsapss_view value, buf)
  | TpmAlgId.Ecdsa =>
      let? (value, buf) := cast_prefix_field TpmsSignatureEcc buf in Ok (Ecdsa_view value, buf)
  | TpmAlgId.Ecdaa =>
      let? (value, buf) := cast_prefix_field TpmsSignatureEcc buf in Ok (Ecdaa_view value, buf)
  | TpmAlgId.Sm2 =>
      let? (value, buf) := cast_prefix_field TpmsSignatureEcc buf in Ok (Sm2_view value, buf)
  | TpmAlgId.Ecschnorr =>
      let? (value, buf) := cast_prefix_field TpmsSignatureEcc buf in Ok (Ecschnorr_view value, buf)
  | TpmAlgId.Hmac =>
      let? (value, buf) := cast_prefix_field TpmtHa buf in Ok (Hmac_view value, buf)
  | TpmAlgId.Null => Ok (Null_view, buf)
  | _ => Err (VariantNotAvailable 0 (TpmAlgId.value tag))
  end.

Definition unmarshal_tagged (tag : TpmAlgId.t) (buffer : slice) : TpmResult (t * slice) :=
  match tag with
  | TpmAlgId.Rsassa =>
      let? (value, buffer) := Codec.unmarshal TpmsSignatureRsa buffer in Ok (Rsassa value, buffer)
  | TpmAlgId.Rsapss =>
      let? (value, buffer) := Codec.unmarshal TpmsSignatureRsa buffer in Ok (Rsapss value, buffer)
  | TpmAlgId.Ecdsa =>
      let? (value, buffer) := Codec.unmarshal TpmsSignatureEcc buffer in Ok (Ecdsa value, buffer)
  | TpmAlgId.Ecdaa =>
      let? (value, buffer) := Codec.unmarshal TpmsSignatureEcc buffer in Ok (Ecdaa value, buffer)
  | TpmAlgId.Sm2 =>
      let? (value, buffer) := Codec.unmarshal TpmsSignatureEcc buffer in Ok (Sm2 value, buffer)
  | TpmAlgId.Ecschnorr =>
      let? (value, buffer) := Codec.unmarshal TpmsSignatureEcc buffer in Ok (Ecschnorr value, buffer)
  | TpmAlgId.Hmac =>
      let? (value, buffer) := Codec.unmarshal TpmtHa buffer in Ok (Hmac value, buffer)
  | TpmAlgId.Null => Ok (Null, buffer)
  | _ => Err (VariantNotAvailable 0 (TpmAlgId.value tag))
  end.

Definition view_of (vw : view) (u : t) : Prop :=
  match vw, u with
  | Rsassa_view x, Rsassa y => Codec.view_of TpmsSignatureRsa x y
  | Rsapss_view x, Rsapss y => Codec.view_of TpmsSignatureRsa x y
  | Ecdsa_view x, Ecdsa y => Codec.view_of TpmsSignatureEcc x y
  | Ecdaa_view x, Ecdaa y => Codec.view_of TpmsSignatureEcc x y
  | Sm2_view x, Sm2 y => Codec.view_of TpmsSignatureEcc x y
  | Ecschnorr_view x, Ecschnorr y => Codec.view_of TpmsSignatureEcc x y
  | Hmac_view x, Hmac y => Codec.view_of TpmtHa x y
  | Null_view, Null => True
  | _, _ => False
  end.
Definition view_in (vw : view) (s : slice) : Prop :=
  match vw with
  | Rsassa_view x => Codec.view_in TpmsSignatureRsa x s
  | Rsapss_view x => Codec.view_in TpmsSignatureRsa x s
  | Ecdsa_view x => Codec.view_in TpmsSignatureEcc x s
  | Ecdaa_view x => Codec.view_in TpmsSignatureEcc x s
  | Sm2_view x => Codec.view_in TpmsSignatureEcc x s
  | Ecschnorr_view x => Codec.view_in TpmsSignatureEcc x s
  | Hmac_view x => Codec.view_in TpmtHa x s
  | Null_view => True
  end.

Definition tagged : Tagged TpmAlgId.t := mk_tagged TpmAlgId.t t SIZE len marshal matches_tag
  unmarshal_tagged view cast_tagged wire wire_max view_of view_in.
End TpmuSignature.
Definition TpmuSignature : Tagged TpmAlgId.t := TpmuSignature.tagged.
#[export] Instance TpmuSignature_ok : TaggedOk TpmuSignature.
Proof. solve_tagged. Qed.

Definition TpmtSignature : WireType :=
  TaggedStruct.wire_type (enum_codec TpmAlgId.t) TpmuSignature TpmAlgId.value.
#[export] Instance TpmtSignature_ok : WireOk TpmtSignature := tagged_ok _ _ _.
