(* ===== verification/Structures.v ===== *)
(** The structures of [protocol/src/data] built from scalars, buffers and
    schemes: the [tpm_struct!] types of [tpms.rs] and [tpmt.rs], the lists
    and sized structures of [mod.rs], and the public, sensitive, capability
    and attestation areas. *)

From S2P Require Import Prelude Errors Writer Codec Integer Buffer Tpml Struct EnumMacro Enums Attributes Union BasicTypes Schemes.

(** The operations of a field's codec are only used
    through their laws. *)
#[local] Arguments Codec.SIZE : simpl never.
#[local] Arguments Codec.len : simpl never.
#[local] Arguments Codec.marshal : simpl never.
#[local] Arguments Codec.unmarshal : simpl never.
#[local] Arguments Codec.wire : simpl never.
#[local] Arguments Codec.cast_prefix_field : simpl never.
#[local] Arguments Codec.codec : simpl never.
#[local] Arguments Codec.View : simpl never.
#[local] Arguments Codec.view_of : simpl never.
#[local] Arguments Codec.view_in : simpl never.

(** ** Plain structures *)

Definition TpmsAcOutput : WireType := tpm_struct
  [("tag", TpmAt);
   ("data", TpmUint32)].
#[export] Instance TpmsAcOutput_ok : WireOk TpmsAcOutput := tpm_struct_ok _.

Definition TpmsActData : WireType := tpm_struct
  [("handle", TpmHandle);
   ("timeout", TpmUint32);
   ("attributes", TpmaAct)].
#[export] Instance TpmsActData_ok : WireOk TpmsActData := tpm_struct_ok _.

Definition TpmsAlgProperty : WireType := tpm_struct
  [("alg", TpmAlgId);
   ("alg_properties", TpmaAlgorithm)].
#[export] Instance TpmsAlgProperty_ok : WireOk TpmsAlgProperty := tpm_struct_ok _.

Definition TpmsAuthCommand : WireType := tpm_struct
  [("session_handle", TpmHandle);
   ("nonce", Tpm2bNonce);
   ("session_attributes", TpmaSession);
   ("hmac", Tpm2bAuth)].
#[export] Instance TpmsAuthCommand_ok : WireOk TpmsAuthCommand := tpm_struct_ok _.

Definition TpmsAuthResponse : WireType := tpm_struct
  [("nonce", Tpm2bNonce);
   ("session_attributes", TpmaSession);
   ("hmac", Tpm2bAuth)].
#[export] Instance TpmsAuthResponse_ok : WireOk TpmsAuthResponse := tpm_struct_ok _.

Definition TpmsClockInfo : WireType := tpm_struct
  [("clock", TpmUint64);
   ("reset_count", TpmUint32);
   ("restart_count", TpmUint32);
   ("safe", TpmiYesNo)].
#[export] Instance TpmsClockInfo_ok : WireOk TpmsClockInfo := tpm_struct_ok _.

Definition TpmsContext : WireType := tpm_struct
  [("sequence", TpmUint64);
   ("saved_handle", TpmHandle);
   ("hierarchy", TpmRh);
   ("context_blob", Tpm2b)].
#[export] Instance TpmsContext_ok : WireOk TpmsContext := tpm_struct_ok _.

Definition TpmsEccPoint : WireType := tpm_struct
  [("x", Tpm2bEccParameter);
   ("y", Tpm2bEccParameter)].
#[export] Instance TpmsEccPoint_ok : WireOk TpmsEccPoint := tpm_struct_ok _.

Definition TpmsEmpty : WireType := tpm_struct
  [].
#[export] Instance TpmsEmpty_ok : WireOk TpmsEmpty := tpm_struct_ok _.

Definition TpmsNvPublic : WireType := tpm_struct
  [("nv_index", TpmHandle);
   ("name_alg", TpmAlgId);
   ("attributes", TpmaNv);
   ("auth_policy", Tpm2bDigest);
   ("data_size", TpmUint16)].
#[export] Instance TpmsNvPublic_ok : WireOk TpmsNvPublic := tpm_struct_ok _.

Definition TpmsNvPublicExpAttr : WireType := tpm_struct
  [("nv_index", TpmiRhNvExpIndex);
   ("name_alg", TpmAlgId);
   ("attributes", TpmaNvExp);
   ("auth_policy", Tpm2bDigest);
   ("data_size", TpmUint16)].
#[export] Instance TpmsNvPublicExpAttr_ok : WireOk TpmsNvPublicExpAttr := tpm_struct_ok _.

Definition TpmsSensitiveCreate : WireType := tpm_struct
  [("user_auth", Tpm2bAuth);
   ("data", Tpm2bSensitiveData)].
#[export] Instance TpmsSensitiveCreate_ok : WireOk TpmsSensitiveCreate := tpm_struct_ok _.

Definition TpmsIdObject : WireType := tpm_struct
  [("integrity_hmac", Tpm2bDigest);
   ("enc_identity", Tpm2bDigest)].
#[export] Instance TpmsIdObject_ok : WireOk TpmsIdObject := tpm_struct_ok _.

Definition TpmsTaggedProperty : WireType := tpm_struct
  [("property", TpmPt);
   ("value", TpmUint32)].
#[export] Instance TpmsTaggedProperty_ok : WireOk TpmsTaggedProperty := tpm_struct_ok _.

Definition TpmsTaggedPolicy : WireType := tpm_struct
  [("handle", TpmHandle);
   ("policy_hash", TpmtHa)].
#[export] Instance TpmsTaggedPolicy_ok : WireOk TpmsTaggedPolicy := tpm_struct_ok _.

Definition TpmsTimeInfo : WireType := tpm_struct
  [("time", TpmUint64);
   ("clock_info", TpmsClockInfo)].
#[export] Instance TpmsTimeInfo_ok : WireOk TpmsTimeInfo := tpm_struct_ok _.

Definition TpmtTkCreation : WireType := tpm_struct
  [("tag", TpmSt);
   ("hierarchy", TpmRh);
   ("digest", Tpm2bDigest)].
#[export] Instance TpmtTkCreation_ok : WireOk TpmtTkCreation := tpm_struct_ok _.

Definition TpmtTkVerified : WireType := tpm_struct
  [("tag", TpmSt);
   ("hierarchy", TpmRh);
   ("digest", Tpm2bDigest)].
#[export] Instance TpmtTkVerified_ok : WireOk TpmtTkVerified := tpm_struct_ok _.

Definition TpmtTkAuth : WireType := tpm_struct
  [("tag", TpmSt);
   ("hierarchy", TpmRh);
   ("digest", Tpm2bDigest)].
#[export] Instance TpmtTkAuth_ok : WireOk TpmtTkAuth := tpm_struct_ok _.

Definition TpmtTkHashcheck : WireType := tpm_struct
  [("tag", TpmSt);
   ("hierarchy", TpmRh);
   ("digest", Tpm2bDigest)].
#[export] Instance TpmtTkHashcheck_ok : WireOk TpmtTkHashcheck := tpm_struct_ok _.

Definition TpmsAlgorithmDetailEcc : WireType := tpm_struct
  [("curve_id", TpmEccCurve);
   ("key_size", TpmUint16);
   ("kdf", TpmtKdfScheme);
   ("sign", TpmtEccScheme);
   ("p", Tpm2bEccParameter);
   ("a", Tpm2bEccParameter);
   ("b", Tpm2bEccParameter);
   ("gx", Tpm2bEccParameter);
   ("gy", Tpm2bEccParameter);
   ("n", Tpm2bEccParameter);
   ("h", Tpm2bEccParameter)].
#[export] Instance TpmsAlgorithmDetailEcc_ok : WireOk TpmsAlgorithmDetailEcc := tpm_struct_ok _.

(** ** Lists *)

Definition TpmlAcCapabilities : WireType := TpmList.wire_type TpmsAcOutput 64.
#[export] Instance TpmlAcCapabilities_ok : WireOk TpmlAcCapabilities.
Proof. apply list_wire_ok; [apply _ | by split]. Qed.

Definition TpmlAlgProperty : WireType := TpmList.wire_type TpmsAlgProperty 64.
#[export] Instance TpmlAlgProperty_ok : WireOk TpmlAlgProperty.
Proof. apply list_wire_ok; [apply _ | by split]. Qed.

Definition TpmlAlg : WireType := TpmList.wire_type TpmAlgId 64.
#[export] Instance TpmlAlg_ok : WireOk TpmlAlg.
Proof. apply list_wire_ok; [apply _ | by split]. Qed.

Definition TpmlCc : WireType := TpmList.wire_type TpmCc 256.
#[export] Instance TpmlCc_ok : WireOk TpmlCc.
Proof. apply list_wire_ok; [apply _ | by split]. Qed.

Definition TpmlCca : WireType := TpmList.wire_type TpmaCc 256.
#[export] Instance TpmlCca_ok : WireOk TpmlCca.
Proof. apply list_wire_ok; [apply _ | by split]. Qed.

Definition TpmlDigest : WireType := TpmList.wire_type Tpm2bDigest 8.
#[export] Instance TpmlDigest_ok : WireOk TpmlDigest.
Proof. apply list_wire_ok; [apply _ | by split]. Qed.

Definition TpmlDigestValues : WireType := TpmList.wire_type TpmtHa 8.
#[export] Instance TpmlDigestValues_ok : WireOk TpmlDigestValues.
Proof. apply list_wire_ok; [apply _ | by split]. Qed.

Definition TpmlHandle : WireType := TpmList.wire_type TpmUint32 128.
#[export] Instance TpmlHandle_ok : WireOk TpmlHandle.
Proof. apply list_wire_ok; [apply _ | by split]. Qed.

Definition TpmlPcrSelection : WireType := TpmList.wire_type TpmsPcrSelection 8.
#[export] Instance TpmlPcrSelection_ok : WireOk TpmlPcrSelection.
Proof. apply list_wire_ok; [apply _ | by split]. Qed.

Definition TpmlEccCurve : WireType := TpmList.wire_type TpmEccCurve 64.
#[export] Instance TpmlEccCurve_ok : WireOk TpmlEccCurve.
Proof. apply list_wire_ok; [apply _ | by split]. Qed.

Definition TpmlTaggedTpmProperty : WireType := TpmList.wire_type TpmsTaggedProperty 64.
#[export] Instance TpmlTaggedTpmProperty_ok : WireOk TpmlTaggedTpmProperty.
Proof. apply list_wire_ok; [apply _ | by split]. Qed.

Definition TpmlTaggedPolicy : WireType := TpmList.wire_type TpmsTaggedPolicy 8.
#[export] Instance TpmlTaggedPolicy_ok : WireOk TpmlTaggedPolicy.
Proof. apply list_wire_ok; [apply _ | by split]. Qed.

Definition TpmlActData : WireType := TpmList.wire_type TpmsActData 8.
#[export] Instance TpmlActData_ok : WireOk TpmlActData.
Proof. apply list_wire_ok; [apply _ | by split]. Qed.

(** ** Attestation bodies *)

Definition TpmsCreationData : WireType := tpm_struct
  [("pcr_select", TpmlPcrSelection);
   ("pcr_digest", Tpm2bDigest);
   ("locality", TpmaLocality);
   ("parent_name_alg", TpmAlgId);
   ("parent_name", Tpm2bName);
   ("parent_qualified_name", Tpm2bName);
   ("outside_info", Tpm2bData)].
#[export] Instance TpmsCreationData_ok : WireOk TpmsCreationData := tpm_struct_ok _.

Definition TpmsTimeAttestInfo : WireType := tpm_struct
  [("time", TpmsTimeInfo);
   ("firmware_version", TpmUint64)].
#[export] Instance TpmsTimeAttestInfo_ok : WireOk TpmsTimeAttestInfo := tpm_struct_ok _.

Definition TpmsCertifyInfo : WireType := tpm_struct
  [("name", Tpm2bName);
   ("qualified_name", Tpm2bName)].
#[export] Instance TpmsCertifyInfo_ok : WireOk TpmsCertifyInfo := tpm_struct_ok _.

Definition TpmsQuoteInfo : WireType := tpm_struct
  [("pcr_select", TpmlPcrSelection);
   ("pcr_digest", Tpm2bDigest)].
#[export] Instance TpmsQuoteInfo_ok : WireOk TpmsQuoteInfo := tpm_struct_ok _.

Definition TpmsCommandAuditInfo : WireType := tpm_struct
  [("audit_counter", TpmUint64);
   ("digest_alg", TpmAlgId);
   ("audit_digest", Tpm2bDigest);
   ("command_digest", Tpm2bDigest)].
#[export] Instance TpmsCommandAuditInfo_ok : WireOk TpmsCommandAuditInfo := tpm_struct_ok _.

Definition TpmsSessionAuditInfo : WireType := tpm_struct
  [("exclusive_session", TpmiYesNo);
   ("session_digest", Tpm2bDigest)].
#[export] Instance TpmsSessionAuditInfo_ok : WireOk TpmsSessionAuditInfo := tpm_struct_ok _.

Definition TpmsCreationInfo : WireType := tpm_struct
  [("object_name", Tpm2bName);
   ("creation_hash", Tpm2bDigest)].
#[export] Instance TpmsCreationInfo_ok : WireOk TpmsCreationInfo := tpm_struct_ok _.

Definition TpmsNvCertifyInfo : WireType := tpm_struct
  [("index_name", Tpm2bName);
   ("offset", TpmUint16);
   ("nv_contents", Tpm2bMaxNvBuffer)].
#[export] Instance TpmsNvCertifyInfo_ok : WireOk TpmsNvCertifyInfo := tpm_struct_ok _.

Definition TpmsNvDigestCertifyInfo : WireType := tpm_struct
  [("index_name", Tpm2bName);
   ("nv_digest", Tpm2bDigest)].
#[export] Instance TpmsNvDigestCertifyInfo_ok : WireOk TpmsNvDigestCertifyInfo := tpm_struct_ok _.

(** [enum TpmuAttest] *)
Module TpmuAttest.
Inductive t : Type :=
| Certify (v : ty TpmsCertifyInfo)
| Creation (v : ty TpmsCreationInfo)
| Quote (v : ty TpmsQuoteInfo)
| CommandAudit (v : ty TpmsCommandAuditInfo)
| SessionAudit (v : ty TpmsSessionAuditInfo)
| Time (v : ty TpmsTimeAttestInfo)
| Nv (v : ty TpmsNvCertifyInfo)
| NvDigest (v : ty TpmsNvDigestCertifyInfo).

Definition SIZE : Z := TPM_MAX_COMMAND_SIZE.
Definition len (u : t) : Z :=
  match u with
  | Certify v => Codec.len TpmsCertifyInfo v
  | Creation v => Codec.len TpmsCreationInfo v
  | Quote v => Codec.len TpmsQuoteInfo v
  | CommandAudit v => Codec.len TpmsCommandAuditInfo v
  | SessionAudit v => Codec.len TpmsSessionAuditInfo v
  | Time v => Codec.len TpmsTimeAttestInfo v
  | Nv v => Codec.len TpmsNvCertifyInfo v
  | NvDigest v => Codec.len TpmsNvDigestCertifyInfo v
  end.
Definition marshal (u : t) : W () :=
  match u with
  | Certify v => Codec.marshal TpmsCertifyInfo v
  | Creation v => Codec.marshal TpmsCreationInfo v
  | Quote v => Codec.marshal TpmsQuoteInfo v
  | CommandAudit v => Codec.marshal TpmsCommandAuditInfo v
  | SessionAudit v => Codec.marshal TpmsSessionAuditInfo v
  | Time v => Codec.marshal TpmsTimeAttestInfo v
  | Nv v => Codec.marshal TpmsNvCertifyInfo v
  | NvDigest v => Codec.marshal TpmsNvDigestCertifyInfo v
  end.
Definition wire (u : t) : option (list byte) :=
  match u with
  | Certify v => Codec.wire TpmsCertifyInfo v
  | Creation v => Codec.wire TpmsCreationInfo v
  | Quote v => Codec.wire TpmsQuoteInfo v
  | CommandAudit v => Codec.wire TpmsCommandAuditInfo v
  | SessionAudit v => Codec.wire TpmsSessionAuditInfo v
  | Time v => Codec.wire TpmsTimeAttestInfo v
  | Nv v => Codec.wire TpmsNvCertifyInfo v
  | NvDigest v => Codec.wire TpmsNvDigestCertifyInfo v
  end.
Definition wire_max : Z :=
  Codec.wire_max TpmsCertifyInfo `max`
  (Codec.wire_max TpmsCreationInfo `max`
  (Codec.wire_max TpmsQuoteInfo `max`
  (Codec.wire_max TpmsCommandAuditInfo `max`
  (Codec.wire_max TpmsSessionAuditInfo `max`
  (Codec.wire_max TpmsTimeAttestInfo `max`
  (Codec.wire_max TpmsNvCertifyInfo `max`
  (Codec.wire_max TpmsNvDigestCertifyInfo))))))).

Definition matches_tag (u : t) (tag : TpmSt.t) : bool :=
  match u, tag with
  | Certify _, TpmSt.AttestCertify => true
  | Creation _, TpmSt.AttestCreation => true
  | Quote _, TpmSt.AttestQuote => true
  | CommandAudit _, TpmSt.AttestCommandAudit => true
  | SessionAudit _, TpmSt.AttestSessionAudit => true
  | Time _, TpmSt.AttestTime => true
  | Nv _, TpmSt.AttestNv => true
  | NvDigest _, TpmSt.AttestNvDigest => true
  | _, _ => false
  end.

Inductive view : Type :=
| Certify_view (v : View TpmsCertifyInfo)
| Creation_view (v : View TpmsCreationInfo)
| Quote_view (v : View TpmsQuoteInfo)
| CommandAudit_view (v : View TpmsCommandAuditInfo)
| SessionAudit_view (v : View TpmsSessionAuditInfo)
| Time_view (v : View TpmsTimeAttestInfo)
| Nv_view (v : View TpmsNvCertifyInfo)
| NvDigest_view (v : View TpmsNvDigestCertifyInfo).

Definition cast_tagged (tag : TpmSt.t) (buf : slice) : TpmResult (view * slice) :=
  match tag with
  | TpmSt.AttestCertify =>
      let? (value, buf) := cast_prefix_field TpmsCertifyInfo buf in Ok (Certify_view value, buf)
  | TpmSt.AttestCreation =>
      let? (value, buf) := cast_prefix_field TpmsCreationInfo buf in Ok (Creation_view value, buf)
  | TpmSt.AttestQuote =>
      let? (value, buf) := cast_prefix_field TpmsQuoteInfo buf in Ok (Quote_view value, buf)
  | TpmSt.AttestCommandAudit =>
      let? (value, buf) := cast_prefix_field TpmsCommandAuditInfo buf in Ok (CommandAudit_view value, buf)
  | TpmSt.AttestSessionAudit =>
      let? (value, buf) := cast_prefix_field TpmsSessionAuditInfo buf in Ok (SessionAudit_view value, buf)
  | TpmSt.AttestTime =>
      let? (value, buf) := cast_prefix_field TpmsTimeAttestInfo buf in Ok (Time_view value, buf)
  | TpmSt.AttestNv =>
      let? (value, buf) := cast_prefix_field TpmsNvCertifyInfo buf in Ok (Nv_view value, buf)
  | TpmSt.AttestNvDigest =>
      let? (value, buf) := cast_prefix_field TpmsNvDigestCertifyInfo buf in Ok (NvDigest_view value, buf)
  | _ => Err (VariantNotAvailable 0 (TpmSt.value tag))
  end.

Definition unmarshal_tagged (tag : TpmSt.t) (buffer : slice) : TpmResult (t * slice) :=
  match tag with
  | TpmSt.AttestCertify =>
      let? (value, buffer) := Codec.unmarshal TpmsCertifyInfo buffer in Ok (Certify value, buffer)
  | TpmSt.AttestCreation =>
      let? (value, buffer) := Codec.unmarshal TpmsCreationInfo buffer in Ok (Creation value, buffer)
  | TpmSt.AttestQuote =>
      let? (value, buffer) := Codec.unmarshal TpmsQuoteInfo buffer in Ok (Quote value, buffer)
  | TpmSt.AttestCommandAudit =>
      let? (value, buffer) := Codec.unmarshal TpmsCommandAuditInfo buffer in Ok (CommandAudit value, buffer)
  | TpmSt.AttestSessionAudit =>
      let? (value, buffer) := Codec.unmarshal TpmsSessionAuditInfo buffer in Ok (SessionAudit value, buffer)
  | TpmSt.AttestTime =>
      let? (value, buffer) := Codec.unmarshal TpmsTimeAttestInfo buffer in Ok (Time value, buffer)
  | TpmSt.AttestNv =>
      let? (value, buffer) := Codec.unmarshal TpmsNvCertifyInfo buffer in Ok (Nv value, buffer)
  | TpmSt.AttestNvDigest =>
      let? (value, buffer) := Codec.unmarshal TpmsNvDigestCertifyInfo buffer in Ok (NvDigest value, buffer)
  | _ => Err (VariantNotAvailable 0 (TpmSt.value tag))
  end.

Definition view_of (vw : view) (u : t) : Prop :=
  match vw, u with
  | Certify_view x, Certify y => Codec.view_of TpmsCertifyInfo x y
  | Creation_view x, Creation y => Codec.view_of TpmsCreationInfo x y
  | Quote_view x, Quote y => Codec.view_of TpmsQuoteInfo x y
  | CommandAudit_view x, CommandAudit y => Codec.view_of TpmsCommandAuditInfo x y
  | SessionAudit_view x, SessionAudit y => Codec.view_of TpmsSessionAuditInfo x y
  | Time_view x, Time y => Codec.view_of TpmsTimeAttestInfo x y
  | Nv_view x, Nv y => Codec.view_of TpmsNvCertifyInfo x y
  | NvDigest_view x, NvDigest y => Codec.view_of TpmsNvDigestCertifyInfo x y
  | _, _ => False
  end.
Definition view_in (vw : view) (s : slice) : Prop :=
  match vw with
  | Certify_view x => Codec.view_in TpmsCertifyInfo x s
  | Creation_view x => Codec.view_in TpmsCreationInfo x s
  | Quote_view x => Codec.view_in TpmsQuoteInfo x s
  | CommandAudit_view x => Codec.view_in TpmsCommandAuditInfo x s
  | SessionAudit_view x => Codec.view_in TpmsSessionAuditInfo x s
  | Time_view x => Codec.view_in TpmsTimeAttestInfo x s
  | Nv_view x => Codec.view_in TpmsNvCertifyInfo x s
  | NvDigest_view x => Codec.view_in TpmsNvDigestCertifyInfo x s
  end.

Definition tagged : Tagged TpmSt.t := mk_tagged TpmSt.t t SIZE len marshal matches_tag
  unmarshal_tagged view cast_tagged wire wire_max view_of view_in.
End TpmuAttest.
Definition TpmuAttest : Tagged TpmSt.t := TpmuAttest.tagged.
#[export] Instance TpmuAttest_ok : TaggedOk TpmuAttest.
Proof. solve_tagged. Qed.
(** [struct TpmsAttest], preceded on the wire by [TPM_GENERATED_VALUE]. *)
Module TpmsAttest.
Record t := mk {
  attest_type : TpmSt.t;
  qualified_signer : TpmBuffer.t;
  extra_data : TpmBuffer.t;
  clock_info : ty TpmsClockInfo;
  firmware_version : TpmInt.t;
  attested : TpmuAttest.t
}.

Definition SIZE : Z :=
  Codec.SIZE TpmUint32 + Codec.SIZE TpmSt + Codec.SIZE Tpm2bName + Codec.SIZE Tpm2bData +
  Codec.SIZE TpmsClockInfo + Codec.SIZE TpmUint64 + USIZE TpmuAttest.
Definition len (v : t) : Z :=
  Codec.SIZE TpmUint32 + Codec.len TpmSt (attest_type v) +
  Codec.len Tpm2bName (qualified_signer v) + Codec.len Tpm2bData (extra_data v) +
  Codec.len TpmsClockInfo (clock_info v) + Codec.SIZE TpmUint64 + ulen TpmuAttest (attested v).

Definition magic : TpmInt.t := TpmInt.new 4 TPM_GENERATED_VALUE.

Definition marshal (v : t) : W () :=
  Codec.marshal TpmUint32 magic ;!
  Codec.marshal TpmSt (attest_type v) ;!
  Codec.marshal Tpm2bName (qualified_signer v) ;!
  Codec.marshal Tpm2bData (extra_data v) ;!
  Codec.marshal TpmsClockInfo (clock_info v) ;!
  Codec.marshal TpmUint64 (firmware_version v) ;!
  umarshal TpmuAttest (attested v).

Definition unmarshal (buffer : slice) : TpmResult (t * slice) :=
  let? (magic, buffer) := Codec.unmarshal TpmUint32 buffer in
  if negb (TpmInt.value 4 false magic =? TPM_GENERATED_VALUE) then
    Err (InvalidMagicNumber 0 (TpmInt.value 4 false magic))
  else
    let? (attest_type, buffer) := Codec.unmarshal TpmSt buffer in
    let? (qualified_signer, buffer) := Codec.unmarshal Tpm2bName buffer in
    let? (extra_data, buffer) := Codec.unmarshal Tpm2bData buffer in
    let? (clock_info, buffer) := Codec.unmarshal TpmsClockInfo buffer in
    let? (firmware_version, buffer) := Codec.unmarshal TpmUint64 buffer in
    let? (attested, buffer) := Codec.unmarshal_tagged TpmuAttest attest_type buffer in
    Ok (mk attest_type qualified_signer extra_data clock_info firmware_version attested, buffer).

(** [struct TpmsAttestView] *)
Record view := mk_view {
  v_attest_type : TpmSt.t;
  v_qualified_signer : View Tpm2bName;
  v_extra_data : View Tpm2bData;
  v_clock_info : View TpmsClockInfo;
  v_firmware_version : Z;
  v_attested : UView TpmuAttest
}.

Definition cast_prefix_field (buf : slice) : TpmResult (view * slice) :=
  let? (magic, buf) := Codec.cast_prefix_field TpmUint32 buf in
  if negb (TpmInt.view_value 4 false magic =? TPM_GENERATED_VALUE) then
    Err (InvalidMagicNumber 0 (TpmInt.view_value 4 false magic))
  else
    let? (attest_type, buf) := Codec.cast_prefix_field TpmSt buf in
    let? (qualified_signer, buf) := Codec.cast_prefix_field Tpm2bName buf in
    let? (extra_data, buf) := Codec.cast_prefix_field Tpm2bData buf in
    let? (clock_info, buf) := Codec.cast_prefix_field TpmsClockInfo buf in
    let? (firmware_version, buf) := Codec.cast_prefix_field TpmUint64 buf in
    let? (attested, buf) := Codec.cast_tagged TpmuAttest attest_type buf in
    Ok (mk_view attest_type qualified_signer extra_data clock_info
          (TpmInt.view_value 8 false firmware_version) attested, buf).

Definition wire (v : t) : option (list byte) :=
  if matches_tag TpmuAttest (attested v) (attest_type v) then
    Codec.wire TpmUint32 magic +++ Codec.wire TpmSt (attest_type v) +++
    Codec.wire Tpm2bName (qualified_signer v) +++ Codec.wire Tpm2bData (extra_data v) +++
    Codec.wire TpmsClockInfo (clock_info v) +++ Codec.wire TpmUint64 (firmware_version v) +++
    uwire TpmuAttest (attested v)
  else None.
Definition wire_max : Z :=
  Codec.wire_max TpmUint32 + Codec.wire_max TpmSt + Codec.wire_max Tpm2bName +
  Codec.wire_max Tpm2bData + Codec.wire_max TpmsClockInfo + Codec.wire_max TpmUint64 +
  uwire_max TpmuAttest.

Definition view_of (vw : view) (v : t) : Prop :=
  v_attest_type vw = attest_type v ∧
  Codec.view_of Tpm2bName (v_qualified_signer vw) (qualified_signer v) ∧
  Codec.view_of Tpm2bData (v_extra_data vw) (extra_data v) ∧
  Codec.view_of TpmsClockInfo (v_clock_info vw) (clock_info v) ∧
  v_firmware_version vw = TpmInt.value 8 false (firmware_version v) ∧
  uview_of TpmuAttest (v_attested vw) (attested v).
Definition view_in (vw : view) (s : slice) : Prop :=
  Codec.view_in Tpm2bName (v_qualified_signer vw) s ∧
  Codec.view_in Tpm2bData (v_extra_data vw) s ∧
  Codec.view_in TpmsClockInfo (v_clock_info vw) s ∧
  uview_in TpmuAttest (v_attested vw) s.

Definition wire_type : WireType := mk_wire_type
  (mk_codec t SIZE len marshal unmarshal wire wire_max) view cast_prefix_field view_of view_in.
End TpmsAttest.
Definition TpmsAttest : WireType := TpmsAttest.wire_type.

Lemma attest_wire_Some v bs :
  TpmsAttest.wire v = Some bs ↔
  matches_tag TpmuAttest (TpmsAttest.attested v) (TpmsAttest.attest_type v) = true ∧
  wire TpmUint32 TpmsAttest.magic +++ wire TpmSt (TpmsAttest.attest_type v) +++
  wire Tpm2bName (TpmsAttest.qualified_signer v) +++ wire Tpm2bData (TpmsAttest.extra_data v) +++
  wire TpmsClockInfo (TpmsAttest.clock_info v) +++
  wire TpmUint64 (TpmsAttest.firmware_version v) +++
  uwire TpmuAttest (TpmsAttest.attested v) = Some bs.
Proof. unfold TpmsAttest.wire. destruct (matches_tag _ _ _); [|by split; [|intros [? _]]]. by split; [|intros [_ ?]]. Qed.

Lemma magic_inj i bs :
  wire TpmUint32 i = Some bs → TpmInt.value 4 false i = TPM_GENERATED_VALUE →
  i = TpmsAttest.magic.
Proof.
  intros [-> Hl]%int_wire_Some Hv. unfold TpmsAttest.magic. rewrite <-Hv.
  by rewrite new_value by (lia || done).
Qed.

(** The view of the magic number's encoding is the magic number. *)
Lemma magic_view s w bs r :
  slice_ok s → wire TpmUint32 TpmsAttest.magic = Some bs → consumes bs s r →
  cast_prefix_field TpmUint32 s = Ok (w, r) →
  TpmInt.view_value 4 false w = TPM_GENERATED_VALUE.
Proof.
  intros Hok Hw Hc (v & bs' & Hw' & Hc' & Hv & _)%cast_sound; [|done].
  pose proof (unmarshal_wire (c:=TpmUint32) _ _ s r Hok Hw Hc) as E.
  rewrite (unmarshal_wire (c:=TpmUint32) _ _ s r Hok Hw' Hc') in E. injection E as ->.
  rewrite (int_view_of 4 w _ false Hv). by vm_compute.
Qed.

Lemma TpmsAttest_codec_ok : CodecOk TpmsAttest.
Proof.
  split; lazy [TpmsAttest TpmsAttest.wire_type codec ty SIZE len marshal unmarshal wire wire_max].
  - split; by apply Z.leb_le; vm_compute.
  - intros v bs (_ & Hw)%attest_wire_Some. wire_inv. unfold TpmsAttest.len.
    rewrite !zlen_app. erewrite (uwire_len (u:=TpmuAttest)) by done.
    repeat match goal with H : Codec.wire _ _ = Some _ |- _ => apply wire_len in H as <- end.
    assert (∀ i, Codec.len TpmUint32 i = Codec.SIZE TpmUint32) as -> by done.
    assert (∀ i, Codec.len TpmUint64 i = Codec.SIZE TpmUint64) as -> by done. lia.
  - intros v bs (_ & Hw)%attest_wire_Some. wire_inv. unfold TpmsAttest.wire_max.
    rewrite !zlen_app. bound_inv. lia.
  - intros v bs (Hp & Hw)%attest_wire_Some. unfold TpmsAttest.marshal. wire_inv. solve_writes.
  - intros [] bs s r Hok (Hp & Hw)%attest_wire_Some Hc.
    cbn [TpmsAttest.attest_type TpmsAttest.qualified_signer TpmsAttest.extra_data
      TpmsAttest.clock_info TpmsAttest.firmware_version TpmsAttest.attested] in *.
    wire_inv. unfold TpmsAttest.unmarshal. repeat read_step.
    change (negb _) with false. cbv iota. repeat read_step. repeat tagged_step. done.
  - intros s v r Hok Hu. unfold TpmsAttest.unmarshal in Hu. read_inv.
    destruct (TpmInt.value 4 false x =? TPM_GENERATED_VALUE) eqn:Hm; [|done].
    cbn [negb] in Hu. repeat read_inv. union_case. apply Z.eqb_eq in Hm.
    eapply magic_inj in Hm; [|done]. subst x.
    eexists; split; [|consume_all]. apply attest_wire_Some. split; [done|]. solve_wcat.
  - intros s Hok. unfold TpmsAttest.unmarshal. no_panic_step.
    destruct (negb _); repeat no_panic_step.
Qed.

#[export] Instance TpmsAttest_ok : WireOk TpmsAttest.
Proof.
  split; [apply TpmsAttest_codec_ok|..];
    lazy [TpmsAttest TpmsAttest.wire_type codec ty View cast_prefix_field wire view_in view_of];
    unfold TpmsAttest.cast_prefix_field;
    change (Codec.cast_prefix_field TpmSt) with (Codec.unmarshal TpmSt).
  - intros vw s s' (H1 & H2 & H3 & H4) Hs. split_and!.
    + by eapply (view_in_mono (t:=Tpm2bName)).
    + by eapply (view_in_mono (t:=Tpm2bData)).
    + by eapply (view_in_mono (t:=TpmsClockInfo)).
    + by eapply (uview_in_mono (u:=TpmuAttest)).
  - intros s vw r Hok Hu. read_inv. read_inv.
    match goal with H : view_of TpmUint32 ?x ?y |- _ =>
      pose proof (int_view_of 4 x y false H) as Ev end. rewrite Ev in Hu.
    destruct (TpmInt.value 4 false y =? TPM_GENERATED_VALUE) eqn:Hm; [|done].
    cbn [negb] in Hu. repeat read_inv. union_case. apply Z.eqb_eq in Hm.
    eapply magic_inj in Hm; [|done]. subst y.
    match goal with
    | _ : matches_tag TpmuAttest _ ?t = _, _ : view_of Tpm2bName _ ?q, _ : view_of Tpm2bData _ ?e,
      _ : view_of TpmsClockInfo _ ?c, _ : view_of TpmUint64 _ ?f,
      _ : uview_of TpmuAttest _ ?a |- _ => exists (TpmsAttest.mk t q e c f a)
    end.
    eexists. split; [|split; [consume_all|split]].
    + apply attest_wire_Some. split; [done|]. solve_wcat.
    + do 4 (split; [first [eassumption | done]|]). split; [by apply int_view_of | eassumption].
    + split; [|split; [|split]];
        [ eapply (view_in_mono (t:=Tpm2bName)) | eapply (view_in_mono (t:=Tpm2bData))
        | eapply (view_in_mono (t:=TpmsClockInfo)) | eapply (uview_in_mono (u:=TpmuAttest)) ];
        first [eassumption | sub_slice_inside].
  - intros [] bs s r Hok (Hp & Hw)%attest_wire_Some Hc.
    cbn [TpmsAttest.attest_type TpmsAttest.qualified_signer TpmsAttest.extra_data
      TpmsAttest.clock_info TpmsAttest.firmware_version TpmsAttest.attested] in *.
    wire_inv. repeat read_step.
    match goal with H : Codec.cast_prefix_field TpmUint32 s = Ok (?w, ?r'), _ : consumes ?b s ?r' |- _ =>
      assert (TpmInt.view_value 4 false w = TPM_GENERATED_VALUE) as Ev
        by by eapply (magic_view s w b r') end.
    rewrite Ev. change (negb _) with false. cbv iota. repeat read_step. repeat tagged_step. by eexists.
  - intros s Hok. no_panic_step. destruct (negb _); repeat no_panic_step.
Qed.


(** ** Public areas *)

(** [enum TpmuPublicParms] *)
Module TpmuPublicParms.
Inductive t : Type :=
| KeyedHash (v : ty TpmsKeyedhashParms)
| SymCipher (v : ty TpmsSymcipherParms)
| Rsa (v : ty TpmsRsaParms)
| Ecc (v : ty TpmsEccParms)
| Null.

Definition SIZE : Z := TPM_MAX_COMMAND_SIZE.
Definition len (u : t) : Z :=
  match u with
  | KeyedHash v => Codec.len TpmsKeyedhashParms v
  | SymCipher v => Codec.len TpmsSymcipherParms v
  | Rsa v => Codec.len TpmsRsaParms v
  | Ecc v => Codec.len TpmsEccParms v
  | Null => 0
  end.
Definition marshal (u : t) : W () :=
  match u with
  | KeyedHash v => Codec.marshal TpmsKeyedhashParms v
  | SymCipher v => Codec.marshal TpmsSymcipherParms v
  | Rsa v => Codec.marshal TpmsRsaParms v
  | Ecc v => Codec.marshal TpmsEccParms v
  | Null => w_ret ()
  end.
Definition wire (u : t) : option (list byte) :=
  match u with
  | KeyedHash v => Codec.wire TpmsKeyedhashParms v
  | SymCipher v => Codec.wire TpmsSymcipherParms v
  | Rsa v => Codec.wire TpmsRsaParms v
  | Ecc v => Codec.wire TpmsEccParms v
  | Null => Some []
  end.
Definition wire_max : Z :=
  Codec.wire_max TpmsKeyedhashParms `max`
  (Codec.wire_max TpmsSymcipherParms `max`
  (Codec.wire_max TpmsRsaParms `max`
  (Codec.wire_max TpmsEccParms))).

Definition matches_tag (u : t) (tag : TpmAlgId.t) : bool :=
  match u, tag with
  | KeyedHash _, TpmAlgId.KeyedHash => true
  | SymCipher _, TpmAlgId.SymCipher => true
  | Rsa _, TpmAlgId.Rsa => true
  | Ecc _, TpmAlgId.Ecc => true
  | Null, TpmAlgId.Null => true
  | _, _ => false
  end.

Inductive view : Type :=
| KeyedHash_view (v : View TpmsKeyedhashParms)
| SymCipher_view (v : View TpmsSymcipherParms)
| Rsa_view (v : View TpmsRsaParms)
| Ecc_view (v : View TpmsEccParms)
| Null_view.

Definition cast_tagged (tag : TpmAlgId.t) (buf : slice) : TpmResult (view * slice) :=
  match tag with
  | TpmAlgId.KeyedHash =>
      let? (value, buf) := cast_prefix_field TpmsKeyedhashParms buf in Ok (KeyedHash_view value, buf)
  | TpmAlgId.SymCipher =>
      let? (value, buf) := cast_prefix_field TpmsSymcipherParms buf in Ok (SymCipher_view value, buf)
  | TpmAlgId.Rsa =>
      let? (value, buf) := cast_prefix_field TpmsRsaParms buf in Ok (Rsa_view value, buf)
  | TpmAlgId.Ecc =>
      let? (value, buf) := cast_prefix_field TpmsEccParms buf in Ok (Ecc_view value, buf)
  | TpmAlgId.Null => Ok (Null_view, buf)
  | _ => Err (VariantNotAvailable 0 (TpmAlgId.value tag))
  end.

Definition unmarshal_tagged (tag : TpmAlgId.t) (buffer : slice) : TpmResult (t * slice) :=
  match tag with
  | TpmAlgId.KeyedHash =>
      let? (value, buffer) := Codec.unmarshal TpmsKeyedhashParms buffer in Ok (KeyedHash value, buffer)
  | TpmAlgId.SymCipher =>
      let? (value, buffer) := Codec.unmarshal TpmsSymcipherParms buffer in Ok (SymCipher value, buffer)
  | TpmAlgId.Rsa =>
      let? (value, buffer) := Codec.unmarshal TpmsRsaParms buffer in Ok (Rsa value, buffer)
  | TpmAlgId.Ecc =>
      let? (value, buffer) := Codec.unmarshal TpmsEccParms buffer in Ok (Ecc value, buffer)
  | TpmAlgId.Null => Ok (Null, buffer)
  | _ => Err (VariantNotAvailable 0 (TpmAlgId.value tag))
  end.

Definition view_of (vw : view) (u : t) : Prop :=
  match vw, u with
  | KeyedHash_view x, KeyedHash y => Codec.view_of TpmsKeyedhashParms x y
  | SymCipher_view x, SymCipher y => Codec.view_of TpmsSymcipherParms x y
  | Rsa_view x, Rsa y => Codec.view_of TpmsRsaParms x y
  | Ecc_view x, Ecc y => Codec.view_of TpmsEccParms x y
  | Null_view, Null => True
  | _, _ => False
  end.
Definition view_in (vw : view) (s : slice) : Prop :=
  match vw with
  | KeyedHash_view x => Codec.view_in TpmsKeyedhashParms x s
  | SymCipher_view x => Codec.view_in TpmsSymcipherParms x s
  | Rsa_view x => Codec.view_in TpmsRsaParms x s
  | Ecc_view x => Codec.view_in TpmsEccParms x s
  | Null_view => True
  end.

Definition tagged : Tagged TpmAlgId.t := mk_tagged TpmAlgId.t t SIZE len marshal matches_tag
  unmarshal_tagged view cast_tagged wire wire_max view_of view_in.
End TpmuPublicParms.
Definition TpmuPublicParms : Tagged TpmAlgId.t := TpmuPublicParms.tagged.
#[export] Instance TpmuPublicParms_ok : TaggedOk TpmuPublicParms.
Proof. solve_tagged. Qed.

(** [enum TpmuPublicId] *)
Module TpmuPublicId.
Inductive t : Type :=
| KeyedHash (v : ty Tpm2bDigest)
| SymCipher (v : ty Tpm2bSymKey)
| Rsa (v : ty Tpm2bPublicKeyRsa)
| Ecc (v : ty TpmsEccPoint)
| Null.

Definition SIZE : Z := TPM_MAX_COMMAND_SIZE.
Definition len (u : t) : Z :=
  match u with
  | KeyedHash v => Codec.len Tpm2bDigest v
  | SymCipher v => Codec.len Tpm2bSymKey v
  | Rsa v => Codec.len Tpm2bPublicKeyRsa v
  | Ecc v => Codec.len TpmsEccPoint v
  | Null => 0
  end.
Definition marshal (u : t) : W () :=
  match u with
  | KeyedHash v => Codec.marshal Tpm2bDigest v
  | SymCipher v => Codec.marshal Tpm2bSymKey v
  | Rsa v => Codec.marshal Tpm2bPublicKeyRsa v
  | Ecc v => Codec.marshal TpmsEccPoint v
  | Null => w_ret ()
  end.
Definition wire (u : t) : option (list byte) :=
  match u with
  | KeyedHash v => Codec.wire Tpm2bDigest v
  | SymCipher v => Codec.wire Tpm2bSymKey v
  | Rsa v => Codec.wire Tpm2bPublicKeyRsa v
  | Ecc v => Codec.wire TpmsEccPoint v
  | Null => Some []
  end.
Definition wire_max : Z :=
  Codec.wire_max Tpm2bDigest `max`
  (Codec.wire_max Tpm2bSymKey `max`
  (Codec.wire_max Tpm2bPublicKeyRsa `max`
  (Codec.wire_max TpmsEccPoint))).

Definition matches_tag (u : t) (tag : TpmAlgId.t) : bool :=
  match u, tag with
  | KeyedHash _, TpmAlgId.KeyedHash => true
  | SymCipher _, TpmAlgId.SymCipher => true
  | Rsa _, TpmAlgId.Rsa => true
  | Ecc _, TpmAlgId.Ecc => true
  | Null, TpmAlgId.Null => true
  | _, _ => false
  end.

Inductive view : Type :=
| KeyedHash_view (v : View Tpm2bDigest)
| SymCipher_view (v : View Tpm2bSymKey)
| Rsa_view (v : View Tpm2bPublicKeyRsa)
| Ecc_view (v : View TpmsEccPoint)
| Null_view.

Definition cast_tagged (tag : TpmAlgId.t) (buf : slice) : TpmResult (view * slice) :=
  match tag with
  | TpmAlgId.KeyedHash =>
      let? (value, buf) := cast_prefix_field Tpm2bDigest buf in Ok (KeyedHash_view value, buf)
  | TpmAlgId.SymCipher =>
      let? (value, buf) := cast_prefix_field Tpm2bSymKey buf in Ok (SymCipher_view value, buf)
  | TpmAlgId.Rsa =>
      let? (value, buf) := cast_prefix_field Tpm2bPublicKeyRsa buf in Ok (Rsa_view value, buf)
  | TpmAlgId.Ecc =>
      let? (value, buf) := cast_prefix_field TpmsEccPoint buf in Ok (Ecc_view value, buf)
  | TpmAlgId.Null => Ok (Null_view, buf)
  | _ => Err (VariantNotAvailable 0 (TpmAlgId.value tag))
  end.

Definition unmarshal_tagged (tag : TpmAlgId.t) (buffer : slice) : TpmResult (t * slice) :=
  match tag with
  | TpmAlgId.KeyedHash =>
      let? (value, buffer) := Codec.unmarshal Tpm2bDigest buffer in Ok (KeyedHash value, buffer)
  | TpmAlgId.SymCipher =>
      let? (value, buffer) := Codec.unmarshal Tpm2bSymKey buffer in Ok (SymCipher value, buffer)
  | TpmAlgId.Rsa =>
      let? (value, buffer) := Codec.unmarshal Tpm2bPublicKeyRsa buffer in Ok (Rsa value, buffer)
  | TpmAlgId.Ecc =>
      let? (value, buffer) := Codec.unmarshal TpmsEccPoint buffer in Ok (Ecc value, buffer)
  | TpmAlgId.Null => Ok (Null, buffer)
  | _ => Err (VariantNotAvailable 0 (TpmAlgId.value tag))
  end.

Definition view_of (vw : view) (u : t) : Prop :=
  match vw, u with
  | KeyedHash_view x, KeyedHash y => Codec.view_of Tpm2bDigest x y
  | SymCipher_view x, SymCipher y => Codec.view_of Tpm2bSymKey x y
  | Rsa_view x, Rsa y => Codec.view_of Tpm2bPublicKeyRsa x y
  | Ecc_view x, Ecc y => Codec.view_of TpmsEccPoint x y
  | Null_view, Null => True
  | _, _ => False
  end.
Definition view_in (vw : view) (s : slice) : Prop :=
  match vw with
  | KeyedHash_view x => Codec.view_in Tpm2bDigest x s
  | SymCipher_view x => Codec.view_in Tpm2bSymKey x s
  | Rsa_view x => Codec.view_in Tpm2bPublicKeyRsa x s
  | Ecc_view x => Codec.view_in TpmsEccPoint x s
  | Null_view => True
  end.

Definition tagged : Tagged TpmAlgId.t := mk_tagged TpmAlgId.t t SIZE len marshal matches_tag
  unmarshal_tagged view cast_tagged wire wire_max view_of view_in.
End TpmuPublicId.
Definition TpmuPublicId : Tagged TpmAlgId.t := TpmuPublicId.tagged.
#[export] Instance TpmuPublicId_ok : TaggedOk TpmuPublicId.
Proof. solve_tagged. Qed.

Definition TpmtPublicParms : WireType :=
  TaggedStruct.wire_type (enum_codec TpmAlgId.t) TpmuPublicParms TpmAlgId.value.
#[export] Instance TpmtPublicParms_ok : WireOk TpmtPublicParms := tagged_ok _ _ _.
(** [struct TpmtPublic] *)
Module TpmtPublic.
Record t := mk {
  object_type : TpmAlgId.t;
  name_alg : TpmAlgId.t;
  object_attributes : Bitflags.t;
  auth_policy : TpmBuffer.t;
  parameters : TpmuPublicParms.t;
  unique : TpmuPublicId.t
}.

Definition SIZE : Z := TPM_MAX_COMMAND_SIZE.
Definition len (v : t) : Z :=
  Codec.len TpmAlgId (object_type v) + Codec.len TpmAlgId (name_alg v) +
  Codec.len TpmaObject (object_attributes v) + Codec.len Tpm2bDigest (auth_policy v) +
  ulen TpmuPublicParms (parameters v) + ulen TpmuPublicId (unique v).

Definition marshal (v : t) : W () :=
  if negb (matches_tag TpmuPublicParms (parameters v) (object_type v)) ||
     negb (matches_tag TpmuPublicId (unique v) (object_type v))
  then
    let! at_ := w_len in
    w_err (VariantNotAvailable at_ (TpmAlgId.value (object_type v)))
  else
    Codec.marshal TpmAlgId (object_type v) ;!
    Codec.marshal TpmAlgId (name_alg v) ;!
    Codec.marshal TpmaObject (object_attributes v) ;!
    Codec.marshal Tpm2bDigest (auth_policy v) ;!
    umarshal TpmuPublicParms (parameters v) ;!
    umarshal TpmuPublicId (unique v).

Definition unmarshal (buffer : slice) : TpmResult (t * slice) :=
  let? (object_type, buffer) := Codec.unmarshal TpmAlgId buffer in
  let? (name_alg, buffer) := Codec.unmarshal TpmAlgId buffer in
  let? (object_attributes, buffer) := Codec.unmarshal TpmaObject buffer in
  let? (auth_policy, buffer) := Codec.unmarshal Tpm2bDigest buffer in
  let? (parameters, buffer) := Codec.unmarshal_tagged TpmuPublicParms object_type buffer in
  let? (unique, buffer) := Codec.unmarshal_tagged TpmuPublicId object_type buffer in
  Ok (mk object_type name_alg object_attributes auth_policy parameters unique, buffer).

(** [struct TpmtPublicView] *)
Record view := mk_view {
  v_object_type : TpmAlgId.t;
  v_name_alg : TpmAlgId.t;
  v_object_attributes : Bitflags.t;
  v_auth_policy : View Tpm2bDigest;
  v_parameters : UView TpmuPublicParms;
  v_unique : UView TpmuPublicId
}.

Definition cast_prefix_field (buf : slice) : TpmResult (view * slice) :=
  let? (object_type, buf) := Codec.cast_prefix_field TpmAlgId buf in
  let? (name_alg, buf) := Codec.cast_prefix_field TpmAlgId buf in
  let? (object_attributes, buf) := Codec.cast_prefix_field TpmaObject buf in
  let? (auth_policy, buf) := Codec.cast_prefix_field Tpm2bDigest buf in
  let? (parameters, buf) := Codec.cast_tagged TpmuPublicParms object_type buf in
  let? (unique, buf) := Codec.cast_tagged TpmuPublicId object_type buf in
  Ok (mk_view object_type name_alg object_attributes auth_policy parameters unique, buf).

Definition wire (v : t) : option (list byte) :=
  if matches_tag TpmuPublicParms (parameters v) (object_type v) &&
     matches_tag TpmuPublicId (unique v) (object_type v)
  then
    Codec.wire TpmAlgId (object_type v) +++ Codec.wire TpmAlgId (name_alg v) +++
    Codec.wire TpmaObject (object_attributes v) +++ Codec.wire Tpm2bDigest (auth_policy v) +++
    uwire TpmuPublicParms (parameters v) +++ uwire TpmuPublicId (unique v)
  else None.
Definition wire_max : Z :=
  Codec.wire_max TpmAlgId + Codec.wire_max TpmAlgId + Codec.wire_max TpmaObject +
  Codec.wire_max Tpm2bDigest + uwire_max TpmuPublicParms + uwire_max TpmuPublicId.

Definition view_of (vw : view) (v : t) : Prop :=
  v_object_type vw = object_type v ∧ v_name_alg vw = name_alg v ∧
  v_object_attributes vw = object_attributes v ∧
  Codec.view_of Tpm2bDigest (v_auth_policy vw) (auth_policy v) ∧
  uview_of TpmuPublicParms (v_parameters vw) (parameters v) ∧
  uview_of TpmuPublicId (v_unique vw) (unique v).
Definition view_in (vw : view) (s : slice) : Prop :=
  Codec.view_in Tpm2bDigest (v_auth_policy vw) s ∧
  uview_in TpmuPublicParms (v_parameters vw) s ∧ uview_in TpmuPublicId (v_unique vw) s.

Definition wire_type : WireType := mk_wire_type
  (mk_codec t SIZE len marshal unmarshal wire wire_max) view cast_prefix_field view_of view_in.
End TpmtPublic.
Definition TpmtPublic : WireType := TpmtPublic.wire_type.

Lemma public_wire_Some v bs :
  TpmtPublic.wire v = Some bs ↔
  matches_tag TpmuPublicParms (TpmtPublic.parameters v) (TpmtPublic.object_type v) = true ∧
  matches_tag TpmuPublicId (TpmtPublic.unique v) (TpmtPublic.object_type v) = true ∧
  wire TpmAlgId (TpmtPublic.object_type v) +++ wire TpmAlgId (TpmtPublic.name_alg v) +++
  wire TpmaObject (TpmtPublic.object_attributes v) +++
  wire Tpm2bDigest (TpmtPublic.auth_policy v) +++
  uwire TpmuPublicParms (TpmtPublic.parameters v) +++
  uwire TpmuPublicId (TpmtPublic.unique v) = Some bs.
Proof.
  unfold TpmtPublic.wire. destruct (_ && _) eqn:Hm.
  - apply andb_true_iff in Hm as [-> ->]. split; [by split|]. by intros (_ & _ & ?).
  - split; [done|]. intros (H1 & H2 & _). by rewrite H1, H2 in Hm.
Qed.

Lemma TpmtPublic_codec_ok : CodecOk TpmtPublic.
Proof.
  split; lazy [TpmtPublic TpmtPublic.wire_type codec ty SIZE len marshal unmarshal wire wire_max].
  - split; by apply Z.leb_le; vm_compute.
  - intros v bs (_ & _ & Hw)%public_wire_Some. wire_inv. unfold TpmtPublic.len.
    rewrite !zlen_app. erewrite !wire_len, !uwire_len by done. lia.
  - intros v bs (_ & _ & Hw)%public_wire_Some. wire_inv. unfold TpmtPublic.wire_max.
    rewrite !zlen_app. bound_inv. lia.
  - intros v bs (Hp & Hu & Hw)%public_wire_Some. unfold TpmtPublic.marshal.
    rewrite Hp, Hu. cbn [negb orb]. wire_inv. solve_writes.
  - intros [] bs s r Hok (Hp & Hu & Hw)%public_wire_Some Hc.
    cbn [TpmtPublic.object_type TpmtPublic.name_alg TpmtPublic.object_attributes
      TpmtPublic.auth_policy TpmtPublic.parameters TpmtPublic.unique] in *.
    wire_inv. unfold TpmtPublic.unmarshal. repeat read_step. repeat tagged_step. done.
  - intros s v r Hok Hu. unfold TpmtPublic.unmarshal in Hu. repeat read_inv. union_case.
    eexists; split; [|consume_all]. apply public_wire_Some. split; [done|]. split; [done|].
    solve_wcat.
  - intros s Hok. unfold TpmtPublic.unmarshal. repeat no_panic_step.
Qed.

#[export] Instance TpmtPublic_ok : WireOk TpmtPublic.
Proof.
  split; [apply TpmtPublic_codec_ok|..];
    lazy [TpmtPublic TpmtPublic.wire_type codec ty View cast_prefix_field wire view_in view_of];
    unfold TpmtPublic.cast_prefix_field;
    change (Codec.cast_prefix_field TpmAlgId) with (Codec.unmarshal TpmAlgId);
    change (Codec.cast_prefix_field TpmaObject) with (Codec.unmarshal TpmaObject).
  - intros vw s s' (H1 & H2 & H3) Hs. split_and!.
    + by eapply (view_in_mono (t:=Tpm2bDigest)).
    + by eapply (uview_in_mono (u:=TpmuPublicParms)).
    + by eapply (uview_in_mono (u:=TpmuPublicId)).
  - intros s vw r Hok Hu. repeat read_inv. union_case.
    eexists (TpmtPublic.mk _ _ _ _ _ _), _. split; [|split; [consume_all|split]].
    + apply public_wire_Some. split; [done|]. split; [done|]. solve_wcat.
    + by repeat split.
    + split; [|split]; [eapply (view_in_mono (t:=Tpm2bDigest))
        | eapply (uview_in_mono (u:=TpmuPublicParms)) | eapply (uview_in_mono (u:=TpmuPublicId))];
        first [eassumption | sub_slice_inside].
  - intros [] bs s r Hok (Hp & Hu & Hw)%public_wire_Some Hc.
    cbn [TpmtPublic.object_type TpmtPublic.name_alg TpmtPublic.object_attributes
      TpmtPublic.auth_policy TpmtPublic.parameters TpmtPublic.unique] in *.
    wire_inv. repeat read_step. repeat tagged_step. by eexists.
  - intros s Hok. repeat no_panic_step.
Qed.


(** ** Sensitive areas *)

(** [enum TpmuSensitiveComposite] *)
Module TpmuSensitiveComposite.
Inductive t : Type :=
| Rsa (v : ty Tpm2bPrivateKeyRsa)
| Ecc (v : ty Tpm2bEccParameter)
| Bits (v : ty Tpm2bSensitiveData)
| Sym (v : ty Tpm2bSymKey).

Definition SIZE : Z := TPM_MAX_COMMAND_SIZE.
Definition len (u : t) : Z :=
  match u with
  | Rsa v => Codec.len Tpm2bPrivateKeyRsa v
  | Ecc v => Codec.len Tpm2bEccParameter v
  | Bits v => Codec.len Tpm2bSensitiveData v
  | Sym v => Codec.len Tpm2bSymKey v
  end.
Definition marshal (u : t) : W () :=
  match u with
  | Rsa v => Codec.marshal Tpm2bPrivateKeyRsa v
  | Ecc v => Codec.marshal Tpm2bEccParameter v
  | Bits v => Codec.marshal Tpm2bSensitiveData v
  | Sym v => Codec.marshal Tpm2bSymKey v
  end.
Definition wire (u : t) : option (list byte) :=
  match u with
  | Rsa v => Codec.wire Tpm2bPrivateKeyRsa v
  | Ecc v => Codec.wire Tpm2bEccParameter v
  | Bits v => Codec.wire Tpm2bSensitiveData v
  | Sym v => Codec.wire Tpm2bSymKey v
  end.
Definition wire_max : Z :=
  Codec.wire_max Tpm2bPrivateKeyRsa `max`
  (Codec.wire_max Tpm2bEccParameter `max`
  (Codec.wire_max Tpm2bSensitiveData `max`
  (Codec.wire_max Tpm2bSymKey))).

Definition matches_tag (u : t) (tag : TpmAlgId.t) : bool :=
  match u, tag with
  | Rsa _, TpmAlgId.Rsa => true
  | Ecc _, TpmAlgId.Ecc => true
  | Bits _, TpmAlgId.KeyedHash => true
  | Sym _, TpmAlgId.SymCipher => true
  | _, _ => false
  end.

Inductive view : Type :=
| Rsa_view (v : View Tpm2bPrivateKeyRsa)
| Ecc_view (v : View Tpm2bEccParameter)
| Bits_view (v : View Tpm2bSensitiveData)
| Sym_view (v : View Tpm2bSymKey).

Definition cast_tagged (tag : TpmAlgId.t) (buf : slice) : TpmResult (view * slice) :=
  match tag with
  | TpmAlgId.Rsa =>
      let? (value, buf) := cast_prefix_field Tpm2bPrivateKeyRsa buf in Ok (Rsa_view value, buf)
  | TpmAlgId.Ecc =>
      let? (value, buf) := cast_prefix_field Tpm2bEccParameter buf in Ok (Ecc_view value, buf)
  | TpmAlgId.KeyedHash =>
      let? (value, buf) := cast_prefix_field Tpm2bSensitiveData buf in Ok (Bits_view value, buf)
  | TpmAlgId.SymCipher =>
      let? (value, buf) := cast_prefix_field Tpm2bSymKey buf in Ok (Sym_view value, buf)
  | _ => Err (VariantNotAvailable 0 (TpmAlgId.value tag))
  end.

Definition unmarshal_tagged (tag : TpmAlgId.t) (buffer : slice) : TpmResult (t * slice) :=
  match tag with
  | TpmAlgId.Rsa =>
      let? (value, buffer) := Codec.unmarshal Tpm2bPrivateKeyRsa buffer in Ok (Rsa value, buffer)
  | TpmAlgId.Ecc =>
      let? (value, buffer) := Codec.unmarshal Tpm2bEccParameter buffer in Ok (Ecc value, buffer)
  | TpmAlgId.KeyedHash =>
      let? (value, buffer) := Codec.unmarshal Tpm2bSensitiveData buffer in Ok (Bits value, buffer)
  | TpmAlgId.SymCipher =>
      let? (value, buffer) := Codec.unmarshal Tpm2bSymKey buffer in Ok (Sym value, buffer)
  | _ => Err (VariantNotAvailable 0 (TpmAlgId.value tag))
  end.

Definition view_of (vw : view) (u : t) : Prop :=
  match vw, u with
  | Rsa_view x, Rsa y => Codec.view_of Tpm2bPrivateKeyRsa x y
  | Ecc_view x, Ecc y => Codec.view_of Tpm2bEccParameter x y
  | Bits_view x, Bits y => Codec.view_of Tpm2bSensitiveData x y
  | Sym_view x, Sym y => Codec.view_of Tpm2bSymKey x y
  | _, _ => False
  end.
Definition view_in (vw : view) (s : slice) : Prop :=
  match vw with
  | Rsa_view x => Codec.view_in Tpm2bPrivateKeyRsa x s
  | Ecc_view x => Codec.view_in Tpm2bEccParameter x s
  | Bits_view x => Codec.view_in Tpm2bSensitiveData x s
  | Sym_view x => Codec.view_in Tpm2bSymKey x s
  end.

Definition tagged : Tagged TpmAlgId.t := mk_tagged TpmAlgId.t t SIZE len marshal matches_tag
  unmarshal_tagged view cast_tagged wire wire_max view_of view_in.
End TpmuSensitiveComposite.
Definition TpmuSensitiveComposite : Tagged TpmAlgId.t := TpmuSensitiveComposite.tagged.
#[export] Instance TpmuSensitiveComposite_ok : TaggedOk TpmuSensitiveComposite.
Proof. solve_tagged. Qed.
(** [struct TpmtSensitive], which has no borrowed view. *)
Module TpmtSensitive.
Record t := mk {
  sensitive_type : TpmAlgId.t;
  auth_value : TpmBuffer.t;
  seed_value : TpmBuffer.t;
  sensitive : TpmuSensitiveComposite.t
}.

Definition SIZE : Z :=
  Codec.SIZE TpmAlgId + Codec.SIZE Tpm2bAuth + Codec.SIZE Tpm2bDigest +
  USIZE TpmuSensitiveComposite.
Definition len (v : t) : Z :=
  Codec.len TpmAlgId (sensitive_type v) + Codec.len Tpm2bAuth (auth_value v) +
  Codec.len Tpm2bDigest (seed_value v) + ulen TpmuSensitiveComposite (sensitive v).

Definition marshal (v : t) : W () :=
  if negb (matches_tag TpmuSensitiveComposite (sensitive v) (sensitive_type v)) then
    let! at_ := w_len in
    w_err (VariantNotAvailable at_ (TpmAlgId.value (sensitive_type v)))
  else
    Codec.marshal TpmAlgId (sensitive_type v) ;!
    Codec.marshal Tpm2bAuth (auth_value v) ;!
    Codec.marshal Tpm2bDigest (seed_value v) ;!
    umarshal TpmuSensitiveComposite (sensitive v).

Definition unmarshal (buffer : slice) : TpmResult (t * slice) :=
  let? (sensitive_type, buffer) := Codec.unmarshal TpmAlgId buffer in
  let? (auth_value, buffer) := Codec.unmarshal Tpm2bAuth buffer in
  let? (seed_value, buffer) := Codec.unmarshal Tpm2bDigest buffer in
  let? (sensitive, buffer) :=
    Codec.unmarshal_tagged TpmuSensitiveComposite sensitive_type buffer in
  Ok (mk sensitive_type auth_value seed_value sensitive, buffer).

Definition wire (v : t) : option (list byte) :=
  if matches_tag TpmuSensitiveComposite (sensitive v) (sensitive_type v) then
    Codec.wire TpmAlgId (sensitive_type v) +++ Codec.wire Tpm2bAuth (auth_value v) +++
    Codec.wire Tpm2bDigest (seed_value v) +++ uwire TpmuSensitiveComposite (sensitive v)
  else None.
Definition wire_max : Z :=
  Codec.wire_max TpmAlgId + Codec.wire_max Tpm2bAuth + Codec.wire_max Tpm2bDigest +
  uwire_max TpmuSensitiveComposite.
End TpmtSensitive.
Definition TpmtSensitive : Codec :=
  mk_codec TpmtSensitive.t TpmtSensitive.SIZE TpmtSensitive.len TpmtSensitive.marshal
    TpmtSensitive.unmarshal TpmtSensitive.wire TpmtSensitive.wire_max.

Lemma sensitive_wire_Some v bs :
  TpmtSensitive.wire v = Some bs ↔
  matches_tag TpmuSensitiveComposite (TpmtSensitive.sensitive v)
    (TpmtSensitive.sensitive_type v) = true ∧
  wire TpmAlgId (TpmtSensitive.sensitive_type v) +++ wire Tpm2bAuth (TpmtSensitive.auth_value v) +++
  wire Tpm2bDigest (TpmtSensitive.seed_value v) +++
  uwire TpmuSensitiveComposite (TpmtSensitive.sensitive v) = Some bs.
Proof. unfold TpmtSensitive.wire. destruct (matches_tag _ _ _); (split; [|by intros [? ?]]); [by split | done]. Qed.

#[export] Instance TpmtSensitive_ok : CodecOk TpmtSensitive.
Proof.
  split; lazy [TpmtSensitive codec ty SIZE len marshal unmarshal wire wire_max].
  - split; by apply Z.leb_le; vm_compute.
  - intros v bs (_ & Hw)%sensitive_wire_Some. wire_inv. unfold TpmtSensitive.len.
    rewrite !zlen_app. erewrite !wire_len, !uwire_len by done. lia.
  - intros v bs (_ & Hw)%sensitive_wire_Some. wire_inv. unfold TpmtSensitive.wire_max.
    rewrite !zlen_app. bound_inv. lia.
  - intros v bs (Hp & Hw)%sensitive_wire_Some. unfold TpmtSensitive.marshal.
    rewrite Hp. cbn [negb]. wire_inv. solve_writes.
  - intros [] bs s r Hok (Hp & Hw)%sensitive_wire_Some Hc.
    cbn [TpmtSensitive.sensitive_type TpmtSensitive.auth_value TpmtSensitive.seed_value
      TpmtSensitive.sensitive] in *.
    wire_inv. unfold TpmtSensitive.unmarshal. repeat read_step. repeat tagged_step. done.
  - intros s v r Hok Hu. unfold TpmtSensitive.unmarshal in Hu. repeat read_inv. union_case.
    eexists; split; [|consume_all]. apply sensitive_wire_Some. split; [done|]. solve_wcat.
  - intros s Hok. unfold TpmtSensitive.unmarshal. repeat no_panic_step.
Qed.


(** ** Capabilities and NV areas *)

(** [enum TpmuCapabilities] *)
Module TpmuCapabilities.
Inductive t : Type :=
| Algs (v : ty TpmlAlgProperty)
| Handles (v : ty TpmlHandle)
| Pcrs (v : ty TpmlPcrSelection)
| Commands (v : ty TpmlCca)
| PpCommands (v : ty TpmlCc)
| AuditCommands (v : ty TpmlCc)
| TpmProperties (v : ty TpmlTaggedTpmProperty)
| EccCurves (v : ty TpmlEccCurve)
| AuthPolicies (v : ty TpmlTaggedPolicy)
| Act (v : ty TpmlActData).

Definition SIZE : Z := TPM_MAX_COMMAND_SIZE.
Definition len (u : t) : Z :=
  match u with
  | Algs v => Codec.len TpmlAlgProperty v
  | Handles v => Codec.len TpmlHandle v
  | Pcrs v => Codec.len TpmlPcrSelection v
  | Commands v => Codec.len TpmlCca v
  | PpCommands v => Codec.len TpmlCc v
  | AuditCommands v => Codec.len TpmlCc v
  | TpmProperties v => Codec.len TpmlTaggedTpmProperty v
  | EccCurves v => Codec.len TpmlEccCurve v
  | AuthPolicies v => Codec.len TpmlTaggedPolicy v
  | Act v => Codec.len TpmlActData v
  end.
Definition marshal (u : t) : W () :=
  match u with
  | Algs v => Codec.marshal TpmlAlgProperty v
  | Handles v => Codec.marshal TpmlHandle v
  | Pcrs v => Codec.marshal TpmlPcrSelection v
  | Commands v => Codec.marshal TpmlCca v
  | PpCommands v => Codec.marshal TpmlCc v
  | AuditCommands v => Codec.marshal TpmlCc v
  | TpmProperties v => Codec.marshal TpmlTaggedTpmProperty v
  | EccCurves v => Codec.marshal TpmlEccCurve v
  | AuthPolicies v => Codec.marshal TpmlTaggedPolicy v
  | Act v => Codec.marshal TpmlActData v
  end.
Definition wire (u : t) : option (list byte) :=
  match u with
  | Algs v => Codec.wire TpmlAlgProperty v
  | Handles v => Codec.wire TpmlHandle v
  | Pcrs v => Codec.wire TpmlPcrSelection v
  | Commands v => Codec.wire TpmlCca v
  | PpCommands v => Codec.wire TpmlCc v
  | AuditCommands v => Codec.wire TpmlCc v
  | TpmProperties v => Codec.wire TpmlTaggedTpmProperty v
  | EccCurves v => Codec.wire TpmlEccCurve v
  | AuthPolicies v => Codec.wire TpmlTaggedPolicy v
  | Act v => Codec.wire TpmlActData v
  end.
Definition wire_max : Z :=
  Codec.wire_max TpmlAlgProperty `max`
  (Codec.wire_max TpmlHandle `max`
  (Codec.wire_max TpmlPcrSelection `max`
  (Codec.wire_max TpmlCca `max`
  (Codec.wire_max TpmlCc `max`
  (Codec.wire_max TpmlTaggedTpmProperty `max`
  (Codec.wire_max TpmlEccCurve `max`
  (Codec.wire_max TpmlTaggedPolicy `max`
  (Codec.wire_max TpmlActData)))))))).

Definition matches_tag (u : t) (tag : TpmCap.t) : bool :=
  match u, tag with
  | Algs _, TpmCap.Algs => true
  | Handles _, TpmCap.Handles => true
  | Pcrs _, TpmCap.Pcrs => true
  | Commands _, TpmCap.Commands => true
  | PpCommands _, TpmCap.PpCommands => true
  | AuditCommands _, TpmCap.AuditCommands => true
  | TpmProperties _, TpmCap.TpmProperties => true
  | EccCurves _, TpmCap.EccCurves => true
  | AuthPolicies _, TpmCap.AuthPolicies => true
  | Act _, TpmCap.Act => true
  | _, _ => false
  end.

Inductive view : Type :=
| Algs_view (v : View TpmlAlgProperty)
| Handles_view (v : View TpmlHandle)
| Pcrs_view (v : View TpmlPcrSelection)
| Commands_view (v : View TpmlCca)
| PpCommands_view (v : View TpmlCc)
| AuditCommands_view (v : View TpmlCc)
| TpmProperties_view (v : View TpmlTaggedTpmProperty)
| EccCurves_view (v : View TpmlEccCurve)
| AuthPolicies_view (v : View TpmlTaggedPolicy)
| Act_view (v : View TpmlActData).

Definition cast_tagged (tag : TpmCap.t) (buf : slice) : TpmResult (view * slice) :=
  match tag with
  | TpmCap.Algs =>
      let? (value, buf) := cast_prefix_field TpmlAlgProperty buf in Ok (Algs_view value, buf)
  | TpmCap.Handles =>
      let? (value, buf) := cast_prefix_field TpmlHandle buf in Ok (Handles_view value, buf)
  | TpmCap.Pcrs =>
      let? (value, buf) := cast_prefix_field TpmlPcrSelection buf in Ok (Pcrs_view value, buf)
  | TpmCap.Commands =>
      let? (value, buf) := cast_prefix_field TpmlCca buf in Ok (Commands_view value, buf)
  | TpmCap.PpCommands =>
      let? (value, buf) := cast_prefix_field TpmlCc buf in Ok (PpCommands_view value, buf)
  | TpmCap.AuditCommands =>
      let? (value, buf) := cast_prefix_field TpmlCc buf in Ok (AuditCommands_view value, buf)
  | TpmCap.TpmProperties =>
      let? (value, buf) := cast_prefix_field TpmlTaggedTpmProperty buf in Ok (TpmProperties_view value, buf)
  | TpmCap.EccCurves =>
      let? (value, buf) := cast_prefix_field TpmlEccCurve buf in Ok (EccCurves_view value, buf)
  | TpmCap.AuthPolicies =>
      let? (value, buf) := cast_prefix_field TpmlTaggedPolicy buf in Ok (AuthPolicies_view value, buf)
  | TpmCap.Act =>
      let? (value, buf) := cast_prefix_field TpmlActData buf in Ok (Act_view value, buf)
  | _ => Err (VariantNotAvailable 0 (TpmCap.value tag))
  end.

Definition unmarshal_tagged (tag : TpmCap.t) (buffer : slice) : TpmResult (t * slice) :=
  match tag with
  | TpmCap.Algs =>
      let? (value, buffer) := Codec.unmarshal TpmlAlgProperty buffer in Ok (Algs value, buffer)
  | TpmCap.Handles =>
      let? (value, buffer) := Codec.unmarshal TpmlHandle buffer in Ok (Handles value, buffer)
  | TpmCap.Pcrs =>
      let? (value, buffer) := Codec.unmarshal TpmlPcrSelection buffer in Ok (Pcrs value, buffer)
  | TpmCap.Commands =>
      let? (value, buffer) := Codec.unmarshal TpmlCca buffer in Ok (Commands value, buffer)
  | TpmCap.PpCommands =>
      let? (value, buffer) := Codec.unmarshal TpmlCc buffer in Ok (PpCommands value, buffer)
  | TpmCap.AuditCommands =>
      let? (value, buffer) := Codec.unmarshal TpmlCc buffer in Ok (AuditCommands value, buffer)
  | TpmCap.TpmProperties =>
      let? (value, buffer) := Codec.unmarshal TpmlTaggedTpmProperty buffer in Ok (TpmProperties value, buffer)
  | TpmCap.EccCurves =>
      let? (value, buffer) := Codec.unmarshal TpmlEccCurve buffer in Ok (EccCurves value, buffer)
  | TpmCap.AuthPolicies =>
      let? (value, buffer) := Codec.unmarshal TpmlTaggedPolicy buffer in Ok (AuthPolicies value, buffer)
  | TpmCap.Act =>
      let? (value, buffer) := Codec.unmarshal TpmlActData buffer in Ok (Act value, buffer)
  | _ => Err (VariantNotAvailable 0 (TpmCap.value tag))
  end.

Definition view_of (vw : view) (u : t) : Prop :=
  match vw, u with
  | Algs_view x, Algs y => Codec.view_of TpmlAlgProperty x y
  | Handles_view x, Handles y => Codec.view_of TpmlHandle x y
  | Pcrs_view x, Pcrs y => Codec.view_of TpmlPcrSelection x y
  | Commands_view x, Commands y => Codec.view_of TpmlCca x y
  | PpCommands_view x, PpCommands y => Codec.view_of TpmlCc x y
  | AuditCommands_view x, AuditCommands y => Codec.view_of TpmlCc x y
  | TpmProperties_view x, TpmProperties y => Codec.view_of TpmlTaggedTpmProperty x y
  | EccCurves_view x, EccCurves y => Codec.view_of TpmlEccCurve x y
  | AuthPolicies_view x, AuthPolicies y => Codec.view_of TpmlTaggedPolicy x y
  | Act_view x, Act y => Codec.view_of TpmlActData x y
  | _, _ => False
  end.
Definition view_in (vw : view) (s : slice) : Prop :=
  match vw with
  | Algs_view x => Codec.view_in TpmlAlgProperty x s
  | Handles_view x => Codec.view_in TpmlHandle x s
  | Pcrs_view x => Codec.view_in TpmlPcrSelection x s
  | Commands_view x => Codec.view_in TpmlCca x s
  | PpCommands_view x => Codec.view_in TpmlCc x s
  | AuditCommands_view x => Codec.view_in TpmlCc x s
  | TpmProperties_view x => Codec.view_in TpmlTaggedTpmProperty x s
  | EccCurves_view x => Codec.view_in TpmlEccCurve x s
  | AuthPolicies_view x => Codec.view_in TpmlTaggedPolicy x s
  | Act_view x => Codec.view_in TpmlActData x s
  end.

Definition tagged : Tagged TpmCap.t := mk_tagged TpmCap.t t SIZE len marshal matches_tag
  unmarshal_tagged view cast_tagged wire wire_max view_of view_in.
End TpmuCapabilities.
Definition TpmuCapabilities : Tagged TpmCap.t := TpmuCapabilities.tagged.
#[export] Instance TpmuCapabilities_ok : TaggedOk TpmuCapabilities.
Proof. solve_tagged. Qed.
(** [struct TpmsCapabilityData], which has no borrowed view.  Its [marshal]
    does not compare [capability] with the variant of [data]. *)
Module TpmsCapabilityData.
Record t := mk { capability : TpmCap.t; data : TpmuCapabilities.t }.

Definition SIZE : Z := 4 + USIZE TpmuCapabilities.
Definition len (v : t) : Z := Codec.len TpmCap (capability v) + ulen TpmuCapabilities (data v).
Definition marshal (v : t) : W () :=
  Codec.marshal TpmCap (capability v) ;!
  umarshal TpmuCapabilities (data v).
Definition unmarshal (buffer : slice) : TpmResult (t * slice) :=
  let? (capability, buffer) := Codec.unmarshal TpmCap buffer in
  let? (data, buffer) := Codec.unmarshal_tagged TpmuCapabilities capability buffer in
  Ok (mk capability data, buffer).

Definition wire (v : t) : option (list byte) :=
  if matches_tag TpmuCapabilities (data v) (capability v) then
    Codec.wire TpmCap (capability v) +++ uwire TpmuCapabilities (data v)
  else None.
Definition wire_max : Z := Codec.wire_max TpmCap + uwire_max TpmuCapabilities.
End TpmsCapabilityData.
Definition TpmsCapabilityData : Codec :=
  mk_codec TpmsCapabilityData.t TpmsCapabilityData.SIZE TpmsCapabilityData.len
    TpmsCapabilityData.marshal TpmsCapabilityData.unmarshal TpmsCapabilityData.wire
    TpmsCapabilityData.wire_max.

Lemma capability_wire_Some v bs :
  TpmsCapabilityData.wire v = Some bs ↔
  matches_tag TpmuCapabilities (TpmsCapabilityData.data v)
    (TpmsCapabilityData.capability v) = true ∧
  wire TpmCap (TpmsCapabilityData.capability v) +++
  uwire TpmuCapabilities (TpmsCapabilityData.data v) = Some bs.
Proof. unfold TpmsCapabilityData.wire. destruct (matches_tag _ _ _); (split; [|by intros [? ?]]); [by split | done]. Qed.

#[export] Instance TpmsCapabilityData_ok : CodecOk TpmsCapabilityData.
Proof.
  split; lazy [TpmsCapabilityData codec ty SIZE len marshal unmarshal wire wire_max].
  - split; by apply Z.leb_le; vm_compute.
  - intros v bs (_ & Hw)%capability_wire_Some. wire_inv. unfold TpmsCapabilityData.len.
    rewrite !zlen_app. erewrite !wire_len, !uwire_len by done. lia.
  - intros v bs (_ & Hw)%capability_wire_Some. wire_inv. unfold TpmsCapabilityData.wire_max.
    rewrite !zlen_app. bound_inv. lia.
  - intros v bs (Hp & Hw)%capability_wire_Some. unfold TpmsCapabilityData.marshal.
    wire_inv. solve_writes.
  - intros [] bs s r Hok (Hp & Hw)%capability_wire_Some Hc.
    cbn [TpmsCapabilityData.capability TpmsCapabilityData.data] in *.
    wire_inv. unfold TpmsCapabilityData.unmarshal. repeat read_step. repeat tagged_step. done.
  - intros s v r Hok Hu. unfold TpmsCapabilityData.unmarshal in Hu. repeat read_inv. union_case.
    eexists; split; [|consume_all]. apply capability_wire_Some. split; [done|]. solve_wcat.
  - intros s Hok. unfold TpmsCapabilityData.unmarshal. repeat no_panic_step.
Qed.

(** [enum TpmuNvPublic2] *)
Module TpmuNvPublic2.
Inductive t : Type :=
| NvIndex (v : ty TpmsNvPublic)
| ExternalNv (v : ty TpmsNvPublicExpAttr)
| PermanentNv (v : ty TpmsNvPublic).

Definition SIZE : Z := TPM_MAX_COMMAND_SIZE.
Definition len (u : t) : Z :=
  match u with
  | NvIndex v => Codec.len TpmsNvPublic v
  | ExternalNv v => Codec.len TpmsNvPublicExpAttr v
  | PermanentNv v => Codec.len TpmsNvPublic v
  end.
Definition marshal (u : t) : W () :=
  match u with
  | NvIndex v => Codec.marshal TpmsNvPublic v
  | ExternalNv v => Codec.marshal TpmsNvPublicExpAttr v
  | PermanentNv v => Codec.marshal TpmsNvPublic v
  end.
Definition wire (u : t) : option (list byte) :=
  match u with
  | NvIndex v => Codec.wire TpmsNvPublic v
  | ExternalNv v => Codec.wire TpmsNvPublicExpAttr v
  | PermanentNv v => Codec.wire TpmsNvPublic v
  end.
Definition wire_max : Z :=
  Codec.wire_max TpmsNvPublic `max`
  (Codec.wire_max TpmsNvPublicExpAttr).

Definition matches_tag (u : t) (tag : TpmHt.t) : bool :=
  match u, tag with
  | NvIndex _, TpmHt.NvIndex => true
  | ExternalNv _, TpmHt.ExternalNv => true
  | PermanentNv _, TpmHt.PermanentNv => true
  | _, _ => false
  end.

Inductive view : Type :=
| NvIndex_view (v : View TpmsNvPublic)
| ExternalNv_view (v : View TpmsNvPublicExpAttr)
| PermanentNv_view (v : View TpmsNvPublic).

Definition cast_tagged (tag : TpmHt.t) (buf : slice) : TpmResult (view * slice) :=
  match tag with
  | TpmHt.NvIndex =>
      let? (value, buf) := cast_prefix_field TpmsNvPublic buf in Ok (NvIndex_view value, buf)
  | TpmHt.ExternalNv =>
      let? (value, buf) := cast_prefix_field TpmsNvPublicExpAttr buf in Ok (ExternalNv_view value, buf)
  | TpmHt.PermanentNv =>
      let? (value, buf) := cast_prefix_field TpmsNvPublic buf in Ok (PermanentNv_view value, buf)
  | _ => Err (VariantNotAvailable 0 (TpmHt.value tag))
  end.

Definition unmarshal_tagged (tag : TpmHt.t) (buffer : slice) : TpmResult (t * slice) :=
  match tag with
  | TpmHt.NvIndex =>
      let? (value, buffer) := Codec.unmarshal TpmsNvPublic buffer in Ok (NvIndex value, buffer)
  | TpmHt.ExternalNv =>
      let? (value, buffer) := Codec.unmarshal TpmsNvPublicExpAttr buffer in Ok (ExternalNv value, buffer)
  | TpmHt.PermanentNv =>
      let? (value, buffer) := Codec.unmarshal TpmsNvPublic buffer in Ok (PermanentNv value, buffer)
  | _ => Err (VariantNotAvailable 0 (TpmHt.value tag))
  end.

Definition view_of (vw : view) (u : t) : Prop :=
  match vw, u with
  | NvIndex_view x, NvIndex y => Codec.view_of TpmsNvPublic x y
  | ExternalNv_view x, ExternalNv y => Codec.view_of TpmsNvPublicExpAttr x y
  | PermanentNv_view x, PermanentNv y => Codec.view_of TpmsNvPublic x y
  | _, _ => False
  end.
Definition view_in (vw : view) (s : slice) : Prop :=
  match vw with
  | NvIndex_view x => Codec.view_in TpmsNvPublic x s
  | ExternalNv_view x => Codec.view_in TpmsNvPublicExpAttr x s
  | PermanentNv_view x => Codec.view_in TpmsNvPublic x s
  end.

Definition tagged : Tagged TpmHt.t := mk_tagged TpmHt.t t SIZE len marshal matches_tag
  unmarshal_tagged view cast_tagged wire wire_max view_of view_in.
End TpmuNvPublic2.
Definition TpmuNvPublic2 : Tagged TpmHt.t := TpmuNvPublic2.tagged.
#[export] Instance TpmuNvPublic2_ok : TaggedOk TpmuNvPublic2.
Proof. solve_tagged. Qed.

Definition TpmtNvPublic2 : WireType :=
  TaggedStruct.wire_type (enum_codec TpmHt.t) TpmuNvPublic2 TpmHt.value.
#[export] Instance TpmtNvPublic2_ok : WireOk TpmtNvPublic2 := tagged_ok _ _ _.

(** ** Sized structures *)

Definition Tpm2bPublic : WireType := tpm2b_struct TpmtPublic.
#[export] Instance Tpm2bPublic_ok : WireOk Tpm2bPublic := tpm2b_struct_ok _.

Definition Tpm2bSensitiveCreate : WireType := tpm2b_struct TpmsSensitiveCreate.
#[export] Instance Tpm2bSensitiveCreate_ok : WireOk Tpm2bSensitiveCreate := tpm2b_struct_ok _.

Definition Tpm2bCreationData : WireType := tpm2b_struct TpmsCreationData.
#[export] Instance Tpm2bCreationData_ok : WireOk Tpm2bCreationData := tpm2b_struct_ok _.

Definition Tpm2bAttest : WireType := tpm2b_struct TpmsAttest.
#[export] Instance Tpm2bAttest_ok : WireOk Tpm2bAttest := tpm2b_struct_ok _.

Definition Tpm2bNvPublic : WireType := tpm2b_struct TpmsNvPublic.
#[export] Instance Tpm2bNvPublic_ok : WireOk Tpm2bNvPublic := tpm2b_struct_ok _.

Definition Tpm2bIdObject : WireType := tpm2b_struct TpmsIdObject.
#[export] Instance Tpm2bIdObject_ok : WireOk Tpm2bIdObject := tpm2b_struct_ok _.

Definition Tpm2bEccPoint : WireType := tpm2b_struct TpmsEccPoint.
#[export] Instance Tpm2bEccPoint_ok : WireOk Tpm2bEccPoint := tpm2b_struct_ok _.

Definition Tpm2bNvPublic2 : WireType := tpm2b_struct TpmtNvPublic2.
#[export] Instance Tpm2bNvPublic2_ok : WireOk Tpm2bNvPublic2 := tpm2b_struct_ok _.

Definition Tpm2bTemplate : WireType := Tpm2bPublic.
#[export] Instance Tpm2bTemplate_ok : WireOk Tpm2bTemplate := Tpm2bPublic_ok.

Definition Tpm2bSensitive : Codec := Tpm2bStruct.codec TpmtSensitive.
#[export] Instance Tpm2bSensitive_ok : CodecOk Tpm2bSensitive := tpm2b_codec_ok _.
