(* ===== verification/Types.v ===== *)
(** The data types of the protocol crate, in one list, and the proof that all
    of them implement their interface. *)

From S2P Require Import Prelude Codec Integer Struct EnumMacro Enums Rc Attributes.
From S2P Require Import BasicTypes Schemes Structures.

(** Every type with a borrowed view. *)
Definition wire_types : list WireType :=
  [TpmUint8; TpmInt8; TpmUint16; TpmUint32;
   TpmUint64; TpmInt32; TpmHandle; TpmAlgId;
   TpmAt; TpmCap; TpmCc; TpmClockAdjust;
   TpmEo; TpmEccCurve; TpmHt; TpmPt;
   TpmRh; TpmSe; TpmSt; TpmSu;
   TpmiEccKeyExchange; TpmiAlgCipherMode; TpmiAlgHash; TpmiAlgSymObject;
   TpmiStCommandTag; TpmiYesNo; TpmiDhObject; TpmiDhParent;
   TpmiDhPcr; TpmiShAuthSession; TpmiRhHierarchy; TpmiRhNvExpIndex;
   TpmRcBase; TpmRc; TpmaAct; TpmaAlgorithm;
   TpmaCc; TpmaLocality; TpmaNv; TpmaNvExp;
   TpmaObject; TpmaSession; Tpm2b; Tpm2bAuth;
   Tpm2bDigest; Tpm2bEccParameter; Tpm2bEncryptedSecret; Tpm2bEvent;
   Tpm2bMaxBuffer; Tpm2bMaxNvBuffer; Tpm2bName; Tpm2bNonce;
   Tpm2bOperand; Tpm2bPrivate; Tpm2bPrivateKeyRsa; Tpm2bPublicKeyRsa;
   Tpm2bSensitiveData; Tpm2bSymKey; Tpm2bData; Tpm2bTimeout;
   Tpm2bIv; TpmsPcrSelect; TpmsPcrSelection; TpmsSchemeHash;
   TpmsSchemeHmac; TpmtKdfScheme; TpmsSchemeXor; TpmtKeyedhashScheme;
   TpmsKeyedhashParms; TpmtRsaScheme; TpmtEccScheme; TpmtRsaDecrypt;
   TpmtSigScheme; TpmtSymDef; TpmtSymDefObject; TpmsSymcipherParms;
   TpmsRsaParms; TpmsEccParms; TpmtHa; TpmsSignatureRsa;
   TpmsSignatureEcc; TpmtSignature; TpmsAcOutput; TpmsActData;
   TpmsAlgProperty; TpmsAuthCommand; TpmsAuthResponse; TpmsClockInfo;
   TpmsContext; TpmsEccPoint; TpmsEmpty; TpmsNvPublic;
   TpmsNvPublicExpAttr; TpmsSensitiveCreate; TpmsIdObject; TpmsTaggedProperty;
   TpmsTaggedPolicy; TpmsTimeInfo; TpmtTkCreation; TpmtTkVerified;
   TpmtTkAuth; TpmtTkHashcheck; TpmsAlgorithmDetailEcc; TpmlAcCapabilities;
   TpmlAlgProperty; TpmlAlg; TpmlCc; TpmlCca;
   TpmlDigest; TpmlDigestValues; TpmlHandle; TpmlPcrSelection;
   TpmlEccCurve; TpmlTaggedTpmProperty; TpmlTaggedPolicy; TpmlActData;
   TpmsCreationData; TpmsTimeAttestInfo; TpmsCertifyInfo; TpmsQuoteInfo;
   TpmsCommandAuditInfo; TpmsSessionAuditInfo; TpmsCreationInfo; TpmsNvCertifyInfo;
   TpmsNvDigestCertifyInfo; TpmsAttest; TpmtPublicParms; TpmtPublic;
   TpmtNvPublic2; Tpm2bPublic; Tpm2bSensitiveCreate; Tpm2bCreationData;
   Tpm2bAttest; Tpm2bNvPublic; Tpm2bIdObject; Tpm2bEccPoint;
   Tpm2bNvPublic2; Tpm2bTemplate].

(** Every type that is marshalled: these, and the three that have no view. *)
Definition data_types : list Codec :=
  map codec wire_types ++ [TpmtSensitive; TpmsCapabilityData; Tpm2bSensitive].

Lemma wire_types_ok : Forall WireOk wire_types.
Proof. unfold wire_types. repeat (apply Forall_cons_2; [apply _|]). by apply Forall_nil. Qed.

Lemma data_types_ok : Forall CodecOk data_types.
Proof.
  unfold data_types. apply Forall_app. split.
  - apply Forall_forall. intros c (t & <- & Ht)%in_map_iff.
    apply (proj1 (Forall_forall _ _) wire_types_ok) in Ht. apply _.
  - repeat (apply Forall_cons_2; [apply _|]). by apply Forall_nil.
Qed.

Lemma data_type_ok c : c ∈ data_types → CodecOk c.
Proof. rewrite list_elem_of_In. by apply Forall_forall, data_types_ok. Qed.
Lemma wire_type_ok t : t ∈ wire_types → WireOk t.
Proof. rewrite list_elem_of_In. by apply Forall_forall, wire_types_ok. Qed.

(** A type is in the list when it stands at a position of it. *)
Lemma data_type_at n c : data_types !! n = Some c → c ∈ data_types.
Proof. apply list_elem_of_lookup_2. Qed.
Lemma wire_type_at n t : wire_types !! n = Some t → t ∈ wire_types.
Proof. apply list_elem_of_lookup_2. Qed.
