(* ===== verification/Body.v ===== *)
(** Command and response bodies: the [kind: Command] and [kind: Response]
    forms of [tpm_struct!] ([protocol/src/macro/struct.rs]) and the body
    traits of [protocol/src/frame/mod.rs].

    A body declaration is data (its command code, handle count and
    parameters); the macro is the set of functions below, proved once for
    every declaration.  [TpmFrame] is the trait object the frame marshallers
    work on and [FrameOk] what a frame body promises them. *)

From S2P Require Import Prelude Errors Writer Codec Integer Struct Enums.

Inductive kind := Command | Response.

(** One [tpm_struct! { kind, name, cc, handles, parameters }] declaration. *)
Record Body := mk_body {
  body_kind : kind;
  (** [TpmHeader::CC] and [TpmHeader::HANDLES] *)
  CC : TpmCc.t;
  HANDLES : nat;
  parameters : fields
}.
Abbreviation param := (@pair string Codec).

(** The generated structure: the handle array and the parameters. *)
Record body (B : Body) := mk { handles : list TpmInt.t; params : fields_ty (parameters B) }.
Arguments mk {B}. Arguments handles {B}. Arguments params {B}.

(** ** [trait TpmFrame: TpmMarshalBody] *)

Record TpmFrame := mk_frame {
  frame_cc : TpmCc.t;
  frame_handles : Z;
  frame_len : Z;
  marshal_handles : W ();
  marshal_parameters : W ()
}.

(** The contract of a frame body: the two areas it writes, whose sizes are
    the ones it announces. *)
Class FrameOk (f : TpmFrame) (hs ps : list byte) : Prop := {
  frame_handles_wire : zlen hs = frame_handles f * 4;
  frame_len_wire : frame_len f = zlen hs + zlen ps;
  frame_len_bound : frame_len f ≤ isize_max;
  frame_marshal_handles : writes (marshal_handles f) hs;
  frame_marshal_parameters : writes (marshal_parameters f) ps
}.

(** ** Sequences of values of one type *)

(** Their encodings, one after the other. *)
Fixpoint seq_wire (c : Codec) (vs : list (ty c)) : option (list byte) :=
  match vs with
  | [] => Some []
  | v :: vs => b1 ← wire c v; b2 ← seq_wire c vs; Some (b1 ++ b2)
  end.

(** ** [frame/mod.rs]: reading bodies *)

(** The loop of [unmarshal_handle_area], over the [n] slots of the array. *)
Fixpoint unmarshal_handles (n : nat) (buffer : slice) : TpmResult (list TpmInt.t * slice) :=
  match n with
  | O => Ok ([], buffer)
  | S n =>
      let? (handle, tail) := unmarshal TpmHandle buffer in
      let? (handles, buffer) := unmarshal_handles n tail in
      Ok (handle :: handles, buffer)
  end.

Definition ensure_consumed (buffer : slice) : TpmResult () :=
  if sl_is_empty buffer then Ok () else Err (TrailingData 0 (sl_len buffer)).

Definition unmarshal_handle_area (n : nat) (buffer : slice) : TpmResult (list TpmInt.t) :=
  let? (handles, buffer) := unmarshal_handles n buffer in
  let? _ := ensure_consumed buffer in
  Ok handles.

(** ** [tpm_struct!], body form *)

Module TpmBody.
Section tpm_body.
Variable B : Body.

Definition SIZE : Z := Z.of_nat (HANDLES B) * Codec.SIZE TpmHandle + fields_SIZE (parameters B).
Definition len (v : body B) : Z :=
  zlen (handles v) * Codec.SIZE TpmHandle + fields_len (parameters B) (params v).

Definition marshal_handles (v : body B) : W () := w_for (Codec.marshal TpmHandle) (handles v).
Definition marshal_parameters (v : body B) : W () := marshal_fields (parameters B) (params v).
Definition marshal (v : body B) : W () := marshal_handles v ;! marshal_parameters v.

(** [TpmUnmarshalBody::unmarshal_body] *)
Definition unmarshal_body (handles parameters : slice) : TpmResult (body B) :=
  let? handles := unmarshal_handle_area (HANDLES B) handles in
  let? (params, parameters) := unmarshal_fields (Body.parameters B) parameters parameters in
  let? _ := ensure_consumed parameters in
  Ok (mk handles params).

(** [impl TpmFrame for $name] *)
Definition frame (v : body B) : TpmFrame :=
  mk_frame (CC B) (Z.of_nat (HANDLES B)) (len v) (marshal_handles v) (marshal_parameters v).

(** Reference encoding: the bytes of the handle area and of the
    parameter area. *)
Definition wire (v : body B) : option (list byte * list byte) :=
  if zlen (handles v) =? Z.of_nat (HANDLES B) then
    hs ← seq_wire TpmHandle (handles v);
    ps ← fields_wire (parameters B) (params v);
    Some (hs, ps)
  else None.
End tpm_body.
End TpmBody.

(** ** Laws *)

Section seq_lemmas.
Context (c : Codec) `{!CodecOk c}.
Implicit Types vs : list (ty c).

Lemma seq_wire_cons v vs bs :
  seq_wire c (v :: vs) = Some bs ↔
  ∃ b1 b2, wire c v = Some b1 ∧ seq_wire c vs = Some b2 ∧ bs = b1 ++ b2.
Proof using Type.
  simpl. split.
  - intros (b1 & H1 & (b2 & H2 & [= <-])%bind_Some)%bind_Some. by exists b1, b2.
  - intros (b1 & b2 & -> & H2 & ->); simpl. by rewrite H2.
Qed.

Lemma seq_writes vs bs : seq_wire c vs = Some bs → writes (w_for (marshal c) vs) bs.
Proof using CodecOk0.
  revert bs; induction vs as [|v vs IH]; intros bs.
  - intros [= <-]. apply writes_ret.
  - intros (b1 & b2 & H1 & H2 & ->)%seq_wire_cons.
    apply writes_bind; [by apply marshal_wire | by apply IH].
Qed.

Lemma seq_len vs bs : seq_wire c vs = Some bs → foldr Z.add 0 (map (len c) vs) = zlen bs.
Proof using CodecOk0.
  revert bs; induction vs as [|v vs IH]; intros bs.
  - by intros [= <-].
  - intros (b1 & b2 & H1 & H2 & ->)%seq_wire_cons. simpl.
    by rewrite (wire_len v b1 H1), (IH b2 H2), zlen_app.
Qed.

Lemma seq_len_const k vs :
  (∀ v, len c v = k) → foldr Z.add 0 (map (len c) vs) = zlen vs * k.
Proof using Type.
  intros Hk. induction vs as [|v vs IH]; [done|]. simpl. rewrite IH, Hk.
  unfold zlen; simpl. lia.
Qed.

Lemma seq_max vs bs : seq_wire c vs = Some bs → zlen bs ≤ wire_max c * zlen vs.
Proof using CodecOk0.
  revert bs; induction vs as [|v vs IH]; intros bs.
  - intros [= <-]. change (zlen []) with 0. lia.
  - intros (b1 & b2 & H1%wire_max_le & H2%IH & ->)%seq_wire_cons.
    rewrite zlen_app. unfold zlen in *; simpl. lia.
Qed.
End seq_lemmas.

Lemma ensure_consumed_Ok s : ensure_consumed s = Ok () ↔ sl_data s = [].
Proof.
  unfold ensure_consumed, sl_is_empty, sl_len. by destruct (sl_data s).
Qed.

Lemma ensure_consumed_no_panic s : ensure_consumed s ≠ Panic.
Proof. unfold ensure_consumed. by case_match. Qed.

(** A slice consumed to its end. *)
Lemma consumes_all s r : consumes (sl_data s) s r ↔ r = mk_slice (sl_addr s + sl_len s) [].
Proof.
  unfold consumes. split.
  - intros [Hd Ha]. apply slice_eq; simpl; [done|].
    apply (app_inv_head (sl_data s)). by rewrite app_nil_r.
  - intros ->. simpl. by rewrite app_nil_r.
Qed.

Lemma consumes_nil_r bs s r : consumes bs s r → sl_data r = [] → bs = sl_data s.
Proof. intros [-> _] ->. by rewrite app_nil_r. Qed.

Section handles_lemmas.
Implicit Types hs : list TpmInt.t.

Lemma unmarshal_handles_complete hs bs s r :
  slice_ok s → seq_wire TpmHandle hs = Some bs → consumes bs s r →
  unmarshal_handles (length hs) s = Ok (hs, r).
Proof.
  revert bs s; induction hs as [|h hs IH]; intros bs s Hok.
  - intros [= <-] Hc. simpl. by rewrite (consumes_det _ _ _ _ (consumes_refl s) Hc).
  - intros (b1 & b2 & H1 & H2 & ->)%seq_wire_cons (mid & Hc1 & Hc2)%consumes_split.
    cbn [length unmarshal_handles].
    rewrite (unmarshal_wire (c:=TpmHandle) h b1 s mid) by done; cbn [result_bind].
    rewrite (IH b2 mid); [done | by eapply consumes_slice_ok | done | done].
Qed.

Lemma unmarshal_handles_sound n hs s r :
  slice_ok s → unmarshal_handles n s = Ok (hs, r) →
  length hs = n ∧ ∃ bs, seq_wire TpmHandle hs = Some bs ∧ consumes bs s r.
Proof.
  revert hs s; induction n as [|n IH]; intros hs s Hok; cbn [unmarshal_handles].
  - intros [= <- <-]. split; [done|]. exists []. split; [done | apply consumes_refl].
  - intros ([h mid] & Hu & Hw)%result_bind_Ok_inv.
    apply (unmarshal_sound (c:=TpmHandle)) in Hu as (b1 & H1 & Hc1); [|done].
    apply result_bind_Ok_inv in Hw as ([hs' r'] & Hu & [= <- <-]).
    apply IH in Hu as (<- & b2 & H2 & Hc2); [|by eapply consumes_slice_ok].
    split; [done|]. exists (b1 ++ b2). split; [|by eapply consumes_trans].
    apply seq_wire_cons. by exists b1, b2.
Qed.

Lemma unmarshal_handles_no_panic n s : slice_ok s → unmarshal_handles n s ≠ Panic.
Proof.
  revert s; induction n as [|n IH]; intros s Hok; cbn [unmarshal_handles]; [done|].
  apply result_bind_not_Panic; [by apply (unmarshal_no_panic (c:=TpmHandle))|].
  intros [h mid] Hu. apply (unmarshal_sound (c:=TpmHandle)) in Hu as (b1 & _ & Hc1); [|done].
  apply result_bind_not_Panic; [|by intros [? ?]]. apply IH. by eapply consumes_slice_ok.
Qed.

(** The handle area reader accepts exactly the encodings of [n] handles. *)
Lemma unmarshal_handle_area_spec n s hs :
  slice_ok s →
  unmarshal_handle_area n s = Ok hs ↔
  length hs = n ∧ seq_wire TpmHandle hs = Some (sl_data s).
Proof.
  intros Hok. unfold unmarshal_handle_area. split.
  - intros ([hs' r] & Hu & Hw)%result_bind_Ok_inv.
    apply result_bind_Ok_inv in Hw as ([] & He%ensure_consumed_Ok & [= <-]).
    apply unmarshal_handles_sound in Hu as (? & bs & Hb & Hc); [|done].
    split; [done|]. by rewrite <-(consumes_nil_r _ _ _ Hc He).
  - intros [<- Hw].
    rewrite (unmarshal_handles_complete hs _ s _ Hok Hw) by by apply consumes_all.
    done.
Qed.
End handles_lemmas.

Section body_laws.
Context (B : Body) `{!FieldsOk (parameters B)}.

Lemma body_wire_Some v hs ps :
  TpmBody.wire B v = Some (hs, ps) ↔
  length (handles v) = HANDLES B ∧ seq_wire TpmHandle (handles v) = Some hs ∧
  fields_wire (parameters B) (params v) = Some ps.
Proof using Type.
  unfold TpmBody.wire, zlen. split.
  - destruct (_ =? _) eqn:Hl; [|done].
    intros (h & Hh & (p & Hp & [= <- <-])%bind_Some)%bind_Some. split; [lia | done].
  - intros (-> & -> & Hp). rewrite Z.eqb_refl. simpl. by rewrite Hp.
Qed.

Lemma handle_area_len (hs : list TpmInt.t) bs :
  seq_wire TpmHandle hs = Some bs → zlen bs = zlen hs * 4.
Proof using Type.
  intros H. by rewrite <-(seq_len TpmHandle hs bs H), (seq_len_const TpmHandle 4).
Qed.

(** The announced length is the length of what is written, and [SIZE]
    bounds it. *)
Lemma body_len v hs ps :
  TpmBody.wire B v = Some (hs, ps) →
  zlen hs = Z.of_nat (HANDLES B) * 4 ∧ TpmBody.len B v = zlen hs + zlen ps ∧
  zlen hs + zlen ps ≤ TpmBody.SIZE B.
Proof using FieldsOk0.
  intros (Hl & Hh%handle_area_len & Hp%fields_len_wire)%body_wire_Some; [|apply _].
  unfold TpmBody.len, TpmBody.SIZE, zlen in *. change (SIZE TpmHandle) with 4.
  pose proof (fields_max_bounds (parameters B)). lia.
Qed.

#[export] Instance body_frame_ok v hs ps :
  TpmBody.wire B v = Some (hs, ps) → zlen hs + zlen ps ≤ isize_max →
  FrameOk (TpmBody.frame B v) hs ps.
Proof using FieldsOk0.
  intros Hw Hb. destruct (body_len v hs ps Hw) as (H1 & H2 & H3).
  apply body_wire_Some in Hw as (Hl & Hh & Hp).
  split; simpl; [done | done | lia | by apply (seq_writes TpmHandle)
    | by apply marshal_fields_wire; [apply _|]].
Qed.

(** [marshal] writes the handle area and then the parameter area. *)
Lemma body_marshal_wire v hs ps :
  TpmBody.wire B v = Some (hs, ps) → writes (TpmBody.marshal B v) (hs ++ ps).
Proof using FieldsOk0.
  intros (_ & Hh & Hp)%body_wire_Some.
  apply writes_bind; [by apply (seq_writes TpmHandle) | by apply marshal_fields_wire; [apply _|]].
Qed.

(** [unmarshal_body] accepts exactly the two areas of a body's encoding. *)
Lemma unmarshal_body_spec sh sp v :
  slice_ok sh → slice_ok sp →
  TpmBody.unmarshal_body B sh sp = Ok v ↔ TpmBody.wire B v = Some (sl_data sh, sl_data sp).
Proof using FieldsOk0.
  intros Hsh Hsp. rewrite body_wire_Some. unfold TpmBody.unmarshal_body. split.
  - intros (hs & Hh%unmarshal_handle_area_spec & Hw)%result_bind_Ok_inv; [|done].
    apply result_bind_Ok_inv in Hw as ([ps r] & Hu & Hw).
    apply result_bind_Ok_inv in Hw as ([] & He%ensure_consumed_Ok & [= <-]).
    apply unmarshal_fields_sound in Hu as (bs & Hb & Hc); [|apply _|done].
    destruct Hh. split_and!; [done..|]. simpl. by rewrite <-(consumes_nil_r _ _ _ Hc He).
  - intros (Hl & Hh & Hp). destruct v as [hs ps]; simpl in *.
    rewrite (proj2 (unmarshal_handle_area_spec _ sh hs Hsh)) by done. cbn [result_bind].
    rewrite (unmarshal_fields_complete _ ps _ sp sp _ (Z.le_refl _) Hsp Hp)
      by by apply consumes_all.
    done.
Qed.

Lemma unmarshal_body_no_panic sh sp :
  slice_ok sh → slice_ok sp → TpmBody.unmarshal_body B sh sp ≠ Panic.
Proof using FieldsOk0.
  intros Hsh Hsp. apply result_bind_not_Panic.
  - apply result_bind_not_Panic; [by apply unmarshal_handles_no_panic|].
    intros [hs r] _. apply result_bind_not_Panic; [apply ensure_consumed_no_panic | done].
  - intros hs _. apply result_bind_not_Panic; [by apply unmarshal_fields_no_panic; [apply _|..]|].
    intros [ps r] _. apply result_bind_not_Panic; [apply ensure_consumed_no_panic | done].
Qed.
End body_laws.
