(* ===== verification/FrameData.v ===== *)
(** The 126 command and 126 response bodies of [protocol/src/frame/data.rs],
    one declaration per [tpm_struct!], in the order of the source. *)

From S2P Require Import Prelude Codec Integer Struct EnumMacro Enums Rc Attributes.
From S2P Require Import BasicTypes Schemes Structures Body.

Definition TpmAcGetCapabilityCommand : Body := mk_body Command TpmCc.AcGetCapability 1
  [param "capability" TpmAt;
   param "count" TpmUint32].
Definition TpmAcGetCapabilityResponse : Body := mk_body Response TpmCc.AcGetCapability 0
  [param "more_data" TpmiYesNo;
   param "capabilities_data" TpmlAcCapabilities].
Definition TpmAcSendCommand : Body := mk_body Command TpmCc.AcSend 3
  [param "ac_data_in" Tpm2bMaxBuffer].
Definition TpmAcSendResponse : Body := mk_body Response TpmCc.AcSend 0
  [param "ac_data_out" TpmsAcOutput].
Definition TpmActivateCredentialCommand : Body := mk_body Command TpmCc.ActivateCredential 2
  [param "credential_blob" Tpm2bIdObject;
   param "secret" Tpm2bEncryptedSecret].
Definition TpmActivateCredentialResponse : Body := mk_body Response TpmCc.ActivateCredential 0
  [param "cert_info" Tpm2bDigest].
Definition TpmActSetTimeoutCommand : Body := mk_body Command TpmCc.ActSetTimeout 1
  [param "start_timeout" TpmUint32].
Definition TpmActSetTimeoutResponse : Body := mk_body Response TpmCc.ActSetTimeout 0 [].
Definition TpmChangeEpsCommand : Body := mk_body Command TpmCc.ChangeEps 1 [].
Definition TpmChangeEpsResponse : Body := mk_body Response TpmCc.ChangeEps 0 [].
Definition TpmChangePpsCommand : Body := mk_body Command TpmCc.ChangePps 1 [].
Definition TpmChangePpsResponse : Body := mk_body Response TpmCc.ChangePps 0 [].
Definition TpmCertifyCommand : Body := mk_body Command TpmCc.Certify 2
  [param "qualifying_data" Tpm2bData;
   param "in_scheme" TpmtSigScheme].
Definition TpmCertifyResponse : Body := mk_body Response TpmCc.Certify 0
  [param "certify_info" Tpm2bAttest;
   param "signature" TpmtSignature].
Definition TpmCertifyCreationCommand : Body := mk_body Command TpmCc.CertifyCreation 2
  [param "qualifying_data" Tpm2bData;
   param "creation_hash" Tpm2bDigest;
   param "in_scheme" TpmtSigScheme;
   param "creation_ticket" TpmtTkCreation].
Definition TpmCertifyCreationResponse : Body := mk_body Response TpmCc.CertifyCreation 0
  [param "certify_info" Tpm2bAttest;
   param "signature" TpmtSignature].
Definition TpmClearCommand : Body := mk_body Command TpmCc.Clear 1 [].
Definition TpmClearResponse : Body := mk_body Response TpmCc.Clear 0 [].
Definition TpmClearControlCommand : Body := mk_body Command TpmCc.ClearControl 1
  [param "disable" TpmiYesNo].
Definition TpmClearControlResponse : Body := mk_body Response TpmCc.ClearControl 0 [].
Definition TpmClockRateAdjustCommand : Body := mk_body Command TpmCc.ClockRateAdjust 1
  [param "rate_adjust" TpmClockAdjust].
Definition TpmClockRateAdjustResponse : Body := mk_body Response TpmCc.ClockRateAdjust 0 [].
Definition TpmClockSetCommand : Body := mk_body Command TpmCc.ClockSet 1
  [param "new_time" TpmUint64].
Definition TpmClockSetResponse : Body := mk_body Response TpmCc.ClockSet 0 [].
Definition TpmCommitCommand : Body := mk_body Command TpmCc.Commit 1
  [param "p1" Tpm2bEccPoint;
   param "s2" Tpm2bSensitiveData;
   param "y2" Tpm2bEccParameter].
Definition TpmCommitResponse : Body := mk_body Response TpmCc.Commit 0
  [param "k" Tpm2bEccPoint;
   param "l" Tpm2bEccPoint;
   param "e" Tpm2bEccPoint;
   param "counter" TpmUint16].
Definition TpmContextLoadCommand : Body := mk_body Command TpmCc.ContextLoad 0
  [param "context" TpmsContext].
Definition TpmContextLoadResponse : Body := mk_body Response TpmCc.ContextLoad 1 [].
Definition TpmContextSaveCommand : Body := mk_body Command TpmCc.ContextSave 1 [].
Definition TpmContextSaveResponse : Body := mk_body Response TpmCc.ContextSave 0
  [param "context" TpmsContext].
Definition TpmCreateCommand : Body := mk_body Command TpmCc.Create 1
  [param "in_sensitive" Tpm2bSensitiveCreate;
   param "in_public" Tpm2bPublic;
   param "outside_info" Tpm2bData;
   param "creation_pcr" TpmlPcrSelection].
Definition TpmCreateResponse : Body := mk_body Response TpmCc.Create 0
  [param "out_private" Tpm2bPrivate;
   param "out_public" Tpm2bPublic;
   param "creation_data" Tpm2bCreationData;
   param "creation_hash" Tpm2bDigest;
   param "creation_ticket" TpmtTkCreation].
Definition TpmCreateLoadedCommand : Body := mk_body Command TpmCc.CreateLoaded 1
  [param "in_sensitive" Tpm2bSensitiveCreate;
   param "in_public" Tpm2bTemplate].
Definition TpmCreateLoadedResponse : Body := mk_body Response TpmCc.CreateLoaded 1
  [param "out_private" Tpm2bPrivate;
   param "out_public" Tpm2bPublic;
   param "name" Tpm2bName].
Definition TpmCreatePrimaryCommand : Body := mk_body Command TpmCc.CreatePrimary 1
  [param "in_sensitive" Tpm2bSensitiveCreate;
   param "in_public" Tpm2bPublic;
   param "outside_info" Tpm2bData;
   param "creation_pcr" TpmlPcrSelection].
Definition TpmCreatePrimaryResponse : Body := mk_body Response TpmCc.CreatePrimary 1
  [param "out_public" Tpm2bPublic;
   param "creation_data" Tpm2bCreationData;
   param "creation_hash" Tpm2bDigest;
   param "creation_ticket" TpmtTkCreation;
   param "name" Tpm2bName].
Definition TpmDictionaryAttackLockResetCommand : Body := mk_body Command TpmCc.DictionaryAttackLockReset 1 [].
Definition TpmDictionaryAttackLockResetResponse : Body := mk_body Response TpmCc.DictionaryAttackLockReset 0 [].
Definition TpmDictionaryAttackParametersCommand : Body := mk_body Command TpmCc.DictionaryAttackParameters 1
  [param "new_max_tries" TpmUint32;
   param "new_recovery_time" TpmUint32;
   param "lockout_recovery" TpmUint32].
Definition TpmDictionaryAttackParametersResponse : Body := mk_body Response TpmCc.DictionaryAttackParameters 0 [].
Definition TpmDuplicateCommand : Body := mk_body Command TpmCc.Duplicate 2
  [param "encryption_key_in" Tpm2bData;
   param "symmetric_alg" TpmtSymDefObject].
Definition TpmDuplicateResponse : Body := mk_body Response TpmCc.Duplicate 0
  [param "encryption_key_out" Tpm2bData;
   param "duplicate" Tpm2bPrivate;
   param "out_sym_seed" Tpm2bEncryptedSecret].
Definition TpmEccDecryptCommand : Body := mk_body Command TpmCc.EccDecrypt 1
  [param "c1" Tpm2bEccPoint;
   param "c2" Tpm2bMaxBuffer;
   param "c3" Tpm2bDigest;
   param "in_scheme" TpmtKdfScheme].
Definition TpmEccDecryptResponse : Body := mk_body Response TpmCc.EccDecrypt 0
  [param "plaintext" Tpm2bMaxBuffer].
Definition TpmEcEphemeralCommand : Body := mk_body Command TpmCc.EcEphemeral 0
  [param "curve_id" TpmEccCurve].
Definition TpmEcEphemeralResponse : Body := mk_body Response TpmCc.EcEphemeral 0
  [param "q" Tpm2bEccPoint;
   param "counter" TpmUint16].
Definition TpmEccEncryptCommand : Body := mk_body Command TpmCc.EccEncrypt 1
  [param "plaintext" Tpm2bMaxBuffer;
   param "in_scheme" TpmtKdfScheme].
Definition TpmEccEncryptResponse : Body := mk_body Response TpmCc.EccEncrypt 0
  [param "c1" Tpm2bEccPoint;
   param "c2" Tpm2bMaxBuffer;
   param "c3" Tpm2bDigest].
Definition TpmEccParametersCommand : Body := mk_body Command TpmCc.EccParameters 0
  [param "curve_id" TpmEccCurve].
Definition TpmEccParametersResponse : Body := mk_body Response TpmCc.EccParameters 0
  [param "parameters" TpmsAlgorithmDetailEcc].
Definition TpmEcdhKeyGenCommand : Body := mk_body Command TpmCc.EcdhKeyGen 1 [].
Definition TpmEcdhKeyGenResponse : Body := mk_body Response TpmCc.EcdhKeyGen 0
  [param "z_point" Tpm2bEccPoint;
   param "pub_point" Tpm2bEccPoint].
Definition TpmEcdhZGenCommand : Body := mk_body Command TpmCc.EcdhZGen 1
  [param "in_point" Tpm2bEccPoint].
Definition TpmEcdhZGenResponse : Body := mk_body Response TpmCc.EcdhZGen 0
  [param "out_point" Tpm2bEccPoint].
Definition TpmEncryptDecryptCommand : Body := mk_body Command TpmCc.EncryptDecrypt 1
  [param "decrypt" TpmiYesNo;
   param "mode" TpmiAlgCipherMode;
   param "iv_in" Tpm2bIv;
   param "in_data" Tpm2bMaxBuffer].
Definition TpmEncryptDecryptResponse : Body := mk_body Response TpmCc.EncryptDecrypt 0
  [param "out_data" Tpm2bMaxBuffer;
   param "iv_out" Tpm2bIv].
Definition TpmEncryptDecrypt2Command : Body := mk_body Command TpmCc.EncryptDecrypt2 1
  [param "in_data" Tpm2bMaxBuffer;
   param "decrypt" TpmiYesNo;
   param "mode" TpmAlgId;
   param "iv_in" Tpm2bIv].
Definition TpmEncryptDecrypt2Response : Body := mk_body Response TpmCc.EncryptDecrypt2 0
  [param "out_data" Tpm2bMaxBuffer;
   param "iv_out" Tpm2bIv].
Definition TpmEventSequenceCompleteCommand : Body := mk_body Command TpmCc.EventSequenceComplete 2
  [param "buffer" Tpm2bMaxBuffer].
Definition TpmEventSequenceCompleteResponse : Body := mk_body Response TpmCc.EventSequenceComplete 0
  [param "results" TpmlDigestValues].
Definition TpmEvictControlCommand : Body := mk_body Command TpmCc.EvictControl 2
  [param "persistent_handle" TpmHandle].
Definition TpmEvictControlResponse : Body := mk_body Response TpmCc.EvictControl 0 [].
Definition TpmFieldUpgradeDataCommand : Body := mk_body Command TpmCc.FieldUpgradeData 0
  [param "fu_data" Tpm2bMaxBuffer].
Definition TpmFieldUpgradeDataResponse : Body := mk_body Response TpmCc.FieldUpgradeData 0
  [param "next_digest" TpmtHa;
   param "first_digest" TpmtHa].
Definition TpmFieldUpgradeStartCommand : Body := mk_body Command TpmCc.FieldUpgradeStart 2
  [param "fu_digest" Tpm2bDigest;
   param "manifest_signature" TpmtSignature].
Definition TpmFieldUpgradeStartResponse : Body := mk_body Response TpmCc.FieldUpgradeStart 0 [].
Definition TpmFirmwareReadCommand : Body := mk_body Command TpmCc.FirmwareRead 0
  [param "sequence_number" TpmUint32].
Definition TpmFirmwareReadResponse : Body := mk_body Response TpmCc.FirmwareRead 0
  [param "fu_data" Tpm2bMaxBuffer].
Definition TpmFlushContextCommand : Body := mk_body Command TpmCc.FlushContext 0
  [param "flush_handle" TpmHandle].
Definition TpmFlushContextResponse : Body := mk_body Response TpmCc.FlushContext 0 [].
Definition TpmGetCapabilityCommand : Body := mk_body Command TpmCc.GetCapability 0
  [param "cap" TpmCap;
   param "property" TpmUint32;
   param "property_count" TpmUint32].
Definition TpmGetCapabilityResponse : Body := mk_body Response TpmCc.GetCapability 0
  [param "more_data" TpmiYesNo;
   param "capability_data" TpmsCapabilityData].
Definition TpmGetCommandAuditDigestCommand : Body := mk_body Command TpmCc.GetCommandAuditDigest 2
  [param "qualifying_data" Tpm2bData;
   param "in_scheme" TpmtSigScheme].
Definition TpmGetCommandAuditDigestResponse : Body := mk_body Response TpmCc.GetCommandAuditDigest 0
  [param "audit_info" Tpm2bAttest;
   param "signature" TpmtSignature].
Definition TpmGetRandomCommand : Body := mk_body Command TpmCc.GetRandom 0
  [param "bytes_requested" TpmUint16].
Definition TpmGetRandomResponse : Body := mk_body Response TpmCc.GetRandom 0
  [param "random_bytes" Tpm2bDigest].
Definition TpmGetSessionAuditDigestCommand : Body := mk_body Command TpmCc.GetSessionAuditDigest 3
  [param "qualifying_data" Tpm2bData;
   param "in_scheme" TpmtSigScheme].
Definition TpmGetSessionAuditDigestResponse : Body := mk_body Response TpmCc.GetSessionAuditDigest 0
  [param "audit_info" Tpm2bAttest;
   param "signature" TpmtSignature].
Definition TpmGetTestResultCommand : Body := mk_body Command TpmCc.GetTestResult 0 [].
Definition TpmGetTestResultResponse : Body := mk_body Response TpmCc.GetTestResult 0
  [param "out_data" Tpm2bMaxBuffer;
   param "test_result" TpmRc].
Definition TpmGetTimeCommand : Body := mk_body Command TpmCc.GetTime 2
  [param "qualifying_data" Tpm2bData;
   param "in_scheme" TpmtSigScheme].
Definition TpmGetTimeResponse : Body := mk_body Response TpmCc.GetTime 0
  [param "time_info" Tpm2bAttest;
   param "signature" TpmtSignature].
Definition TpmHashCommand : Body := mk_body Command TpmCc.Hash 0
  [param "data" Tpm2bMaxBuffer;
   param "hash_alg" TpmAlgId;
   param "hierarchy" TpmRh].
Definition TpmHashResponse : Body := mk_body Response TpmCc.Hash 0
  [param "out_hash" Tpm2bDigest;
   param "validation" TpmtTkHashcheck].
Definition TpmHashSequenceStartCommand : Body := mk_body Command TpmCc.HashSequenceStart 0
  [param "auth" Tpm2bAuth;
   param "hash_alg" TpmAlgId].
Definition TpmHashSequenceStartResponse : Body := mk_body Response TpmCc.HashSequenceStart 1 [].
Definition TpmHierarchyChangeAuthCommand : Body := mk_body Command TpmCc.HierarchyChangeAuth 1
  [param "new_auth" Tpm2bAuth].
Definition TpmHierarchyChangeAuthResponse : Body := mk_body Response TpmCc.HierarchyChangeAuth 0 [].
Definition TpmHierarchyControlCommand : Body := mk_body Command TpmCc.HierarchyControl 1
  [param "enable" TpmRh;
   param "state" TpmiYesNo].
Definition TpmHierarchyControlResponse : Body := mk_body Response TpmCc.HierarchyControl 0 [].
Definition TpmHmacCommand : Body := mk_body Command TpmCc.Hmac 1
  [param "buffer" Tpm2bMaxBuffer;
   param "hash_alg" TpmiAlgHash].
Definition TpmHmacResponse : Body := mk_body Response TpmCc.Hmac 0
  [param "out_hmac" Tpm2bDigest].
Definition TpmHmacStartCommand : Body := mk_body Command TpmCc.HmacStart 1
  [param "auth" Tpm2bAuth;
   param "hash_alg" TpmAlgId].
Definition TpmHmacStartResponse : Body := mk_body Response TpmCc.HmacStart 1 [].
Definition TpmImportCommand : Body := mk_body Command TpmCc.Import 1
  [param "encryption_key" Tpm2bData;
   param "object_public" Tpm2bPublic;
   param "duplicate" Tpm2bPrivate;
   param "in_sym_seed" Tpm2bEncryptedSecret;
   param "symmetric_alg" TpmtSymDef].
Definition TpmImportResponse : Body := mk_body Response TpmCc.Import 0
  [param "out_private" Tpm2bPrivate].
Definition TpmIncrementalSelfTestCommand : Body := mk_body Command TpmCc.IncrementalSelfTest 0
  [param "to_test" TpmlAlg].
Definition TpmIncrementalSelfTestResponse : Body := mk_body Response TpmCc.IncrementalSelfTest 0
  [param "to_do_list" TpmlAlg].
Definition TpmLoadCommand : Body := mk_body Command TpmCc.Load 1
  [param "in_private" Tpm2bPrivate;
   param "in_public" Tpm2bPublic].
Definition TpmLoadResponse : Body := mk_body Response TpmCc.Load 1
  [param "name" Tpm2bName].
Definition TpmLoadExternalCommand : Body := mk_body Command TpmCc.LoadExternal 0
  [param "in_private" Tpm2bSensitive;
   param "in_public" Tpm2bPublic;
   param "hierarchy" TpmRh].
Definition TpmLoadExternalResponse : Body := mk_body Response TpmCc.LoadExternal 1
  [param "name" Tpm2bName].
Definition TpmMakeCredentialCommand : Body := mk_body Command TpmCc.MakeCredential 1
  [param "credential" Tpm2bDigest;
   param "object_name" Tpm2bName].
Definition TpmMakeCredentialResponse : Body := mk_body Response TpmCc.MakeCredential 0
  [param "credential_blob" Tpm2bIdObject;
   param "secret" Tpm2bEncryptedSecret].
Definition TpmNvCertifyCommand : Body := mk_body Command TpmCc.NvCertify 3
  [param "qualifying_data" Tpm2bData;
   param "in_scheme" TpmtSigScheme;
   param "size" TpmUint16;
   param "offset" TpmUint16].
Definition TpmNvCertifyResponse : Body := mk_body Response TpmCc.NvCertify 0
  [param "certify_info" Tpm2bAttest;
   param "signature" TpmtSignature].
Definition TpmNvChangeAuthCommand : Body := mk_body Command TpmCc.NvChangeAuth 1
  [param "new_auth" Tpm2bAuth].
Definition TpmNvChangeAuthResponse : Body := mk_body Response TpmCc.NvChangeAuth 0 [].
Definition TpmNvDefineSpaceCommand : Body := mk_body Command TpmCc.NvDefineSpace 1
  [param "auth" Tpm2bAuth;
   param "public_info" Tpm2bNvPublic].
Definition TpmNvDefineSpaceResponse : Body := mk_body Response TpmCc.NvDefineSpace 0 [].
Definition TpmNvDefineSpace2Command : Body := mk_body Command TpmCc.NvDefineSpace2 1
  [param "auth" Tpm2bAuth;
   param "public_info" Tpm2bNvPublic2].
Definition TpmNvDefineSpace2Response : Body := mk_body Response TpmCc.NvDefineSpace2 0 [].
Definition TpmNvExtendCommand : Body := mk_body Command TpmCc.NvExtend 2
  [param "data" Tpm2bMaxNvBuffer].
Definition TpmNvExtendResponse : Body := mk_body Response TpmCc.NvExtend 0 [].
Definition TpmNvGlobalWriteLockCommand : Body := mk_body Command TpmCc.NvGlobalWriteLock 1 [].
Definition TpmNvGlobalWriteLockResponse : Body := mk_body Response TpmCc.NvGlobalWriteLock 0 [].
Definition TpmNvIncrementCommand : Body := mk_body Command TpmCc.NvIncrement 2 [].
Definition TpmNvIncrementResponse : Body := mk_body Response TpmCc.NvIncrement 0 [].
Definition TpmNvReadCommand : Body := mk_body Command TpmCc.NvRead 2
  [param "size" TpmUint16;
   param "offset" TpmUint16].
Definition TpmNvReadResponse : Body := mk_body Response TpmCc.NvRead 0
  [param "data" Tpm2bMaxNvBuffer].
Definition TpmNvReadLockCommand : Body := mk_body Command TpmCc.NvReadLock 2 [].
Definition TpmNvReadLockResponse : Body := mk_body Response TpmCc.NvReadLock 0 [].
Definition TpmNvReadPublicCommand : Body := mk_body Command TpmCc.NvReadPublic 1 [].
Definition TpmNvReadPublicResponse : Body := mk_body Response TpmCc.NvReadPublic 0
  [param "nv_public" Tpm2bNvPublic;
   param "nv_name" Tpm2bName].
Definition TpmNvReadPublic2Command : Body := mk_body Command TpmCc.NvReadPublic2 1 [].
Definition TpmNvReadPublic2Response : Body := mk_body Response TpmCc.NvReadPublic2 0
  [param "nv_public" Tpm2bNvPublic2;
   param "nv_name" Tpm2bName].
Definition TpmNvSetBitsCommand : Body := mk_body Command TpmCc.NvSetBits 2
  [param "bits" TpmUint64].
Definition TpmNvSetBitsResponse : Body := mk_body Response TpmCc.NvSetBits 0 [].
Definition TpmNvUndefineSpaceCommand : Body := mk_body Command TpmCc.NvUndefineSpace 2 [].
Definition TpmNvUndefineSpaceResponse : Body := mk_body Response TpmCc.NvUndefineSpace 0 [].
Definition TpmNvUndefineSpaceSpecialCommand : Body := mk_body Command TpmCc.NvUndefineSpaceSpecial 2 [].
Definition TpmNvUndefineSpaceSpecialResponse : Body := mk_body Response TpmCc.NvUndefineSpaceSpecial 0 [].
Definition TpmNvWriteCommand : Body := mk_body Command TpmCc.NvWrite 2
  [param "data" Tpm2bMaxNvBuffer;
   param "offset" TpmUint16].
Definition TpmNvWriteResponse : Body := mk_body Response TpmCc.NvWrite 0 [].
Definition TpmNvWriteLockCommand : Body := mk_body Command TpmCc.NvWriteLock 2 [].
Definition TpmNvWriteLockResponse : Body := mk_body Response TpmCc.NvWriteLock 0 [].
Definition TpmObjectChangeAuthCommand : Body := mk_body Command TpmCc.ObjectChangeAuth 2
  [param "new_auth" Tpm2bAuth].
Definition TpmObjectChangeAuthResponse : Body := mk_body Response TpmCc.ObjectChangeAuth 0
  [param "out_private" Tpm2bPrivate].
Definition TpmPcrAllocateCommand : Body := mk_body Command TpmCc.PcrAllocate 1
  [param "pcr_allocation" TpmlPcrSelection].
Definition TpmPcrAllocateResponse : Body := mk_body Response TpmCc.PcrAllocate 0
  [param "allocation_success" TpmiYesNo;
   param "max_pcr" TpmUint32;
   param "size_needed" TpmUint32;
   param "size_available" TpmUint32].
Definition TpmPcrEventCommand : Body := mk_body Command TpmCc.PcrEvent 1
  [param "event_data" Tpm2bEvent].
Definition TpmPcrEventResponse : Body := mk_body Response TpmCc.PcrEvent 0
  [param "digests" TpmlDigestValues].
Definition TpmPcrExtendCommand : Body := mk_body Command TpmCc.PcrExtend 1
  [param "digests" TpmlDigestValues].
Definition TpmPcrExtendResponse : Body := mk_body Response TpmCc.PcrExtend 0 [].
Definition TpmPcrResetCommand : Body := mk_body Command TpmCc.PcrReset 1 [].
Definition TpmPcrResetResponse : Body := mk_body Response TpmCc.PcrReset 0 [].
Definition TpmPcrReadCommand : Body := mk_body Command TpmCc.PcrRead 0
  [param "pcr_selection_in" TpmlPcrSelection].
Definition TpmPcrReadResponse : Body := mk_body Response TpmCc.PcrRead 0
  [param "pcr_update_counter" TpmUint32;
   param "pcr_selection_out" TpmlPcrSelection;
   param "pcr_values" TpmlDigest].
Definition TpmPcrSetAuthPolicyCommand : Body := mk_body Command TpmCc.PcrSetAuthPolicy 1
  [param "auth_policy" Tpm2bDigest;
   param "hash_alg" TpmAlgId;
   param "pcr_num" TpmiDhPcr].
Definition TpmPcrSetAuthPolicyResponse : Body := mk_body Response TpmCc.PcrSetAuthPolicy 0 [].
Definition TpmPcrSetAuthValueCommand : Body := mk_body Command TpmCc.PcrSetAuthValue 1
  [param "auth" Tpm2bDigest].
Definition TpmPcrSetAuthValueResponse : Body := mk_body Response TpmCc.PcrSetAuthValue 0 [].
Definition TpmPolicyAcSendSelectCommand : Body := mk_body Command TpmCc.PolicyAcSendSelect 3
  [param "object_name" Tpm2bName;
   param "auth_handle_name" Tpm2bName;
   param "ac_name" Tpm2bName;
   param "include_object" TpmiYesNo].
Definition TpmPolicyAcSendSelectResponse : Body := mk_body Response TpmCc.PolicyAcSendSelect 0 [].
Definition TpmPolicyAuthorizeCommand : Body := mk_body Command TpmCc.PolicyAuthorize 1
  [param "approved_policy" Tpm2bDigest;
   param "policy_ref" Tpm2bNonce;
   param "key_sign" Tpm2bName;
   param "check_ticket" TpmtTkVerified].
Definition TpmPolicyAuthorizeResponse : Body := mk_body Response TpmCc.PolicyAuthorize 0 [].
Definition TpmPolicyAuthorizeNvCommand : Body := mk_body Command TpmCc.PolicyAuthorizeNv 3 [].
Definition TpmPolicyAuthorizeNvResponse : Body := mk_body Response TpmCc.PolicyAuthorizeNv 0 [].
Definition TpmPolicyAuthValueCommand : Body := mk_body Command TpmCc.PolicyAuthValue 1 [].
Definition TpmPolicyAuthValueResponse : Body := mk_body Response TpmCc.PolicyAuthValue 0 [].
Definition TpmPolicyCapabilityCommand : Body := mk_body Command TpmCc.PolicyCapability 1
  [param "capability" TpmCap;
   param "property" TpmUint32;
   param "op" TpmEo;
   param "operand_b" Tpm2bMaxBuffer].
Definition TpmPolicyCapabilityResponse : Body := mk_body Response TpmCc.PolicyCapability 0 [].
Definition TpmPolicyCommandCodeCommand : Body := mk_body Command TpmCc.PolicyCommandCode 1
  [param "code" TpmCc].
Definition TpmPolicyCommandCodeResponse : Body := mk_body Response TpmCc.PolicyCommandCode 0 [].
Definition TpmPolicyCounterTimerCommand : Body := mk_body Command TpmCc.PolicyCounterTimer 1
  [param "operand_b" Tpm2bMaxBuffer;
   param "offset" TpmUint16;
   param "operation" TpmEo].
Definition TpmPolicyCounterTimerResponse : Body := mk_body Response TpmCc.PolicyCounterTimer 0 [].
Definition TpmPolicyCpHashCommand : Body := mk_body Command TpmCc.PolicyCpHash 1
  [param "cp_hash_a" Tpm2bDigest].
Definition TpmPolicyCpHashResponse : Body := mk_body Response TpmCc.PolicyCpHash 0 [].
Definition TpmPolicyDuplicationSelectCommand : Body := mk_body Command TpmCc.PolicyDuplicationSelect 1
  [param "object_name" Tpm2bName;
   param "new_parent_name" Tpm2bName;
   param "include_object" TpmiYesNo].
Definition TpmPolicyDuplicationSelectResponse : Body := mk_body Response TpmCc.PolicyDuplicationSelect 0 [].
Definition TpmPolicyGetDigestCommand : Body := mk_body Command TpmCc.PolicyGetDigest 1 [].
Definition TpmPolicyGetDigestResponse : Body := mk_body Response TpmCc.PolicyGetDigest 0
  [param "policy_digest" Tpm2bDigest].
Definition TpmPolicyLocalityCommand : Body := mk_body Command TpmCc.PolicyLocality 1
  [param "locality" TpmaLocality].
Definition TpmPolicyLocalityResponse : Body := mk_body Response TpmCc.PolicyLocality 0 [].
Definition TpmPolicyNameHashCommand : Body := mk_body Command TpmCc.PolicyNameHash 1
  [param "name_hash" Tpm2bDigest].
Definition TpmPolicyNameHashResponse : Body := mk_body Response TpmCc.PolicyNameHash 0 [].
Definition TpmPolicyNvCommand : Body := mk_body Command TpmCc.PolicyNv 3
  [param "operand_b" Tpm2bMaxBuffer;
   param "offset" TpmUint16;
   param "operation" TpmEo].
Definition TpmPolicyNvResponse : Body := mk_body Response TpmCc.PolicyNv 0 [].
Definition TpmPolicyNvWrittenCommand : Body := mk_body Command TpmCc.PolicyNvWritten 1
  [param "written_set" TpmiYesNo].
Definition TpmPolicyNvWrittenResponse : Body := mk_body Response TpmCc.PolicyNvWritten 0 [].
Definition TpmPolicyOrCommand : Body := mk_body Command TpmCc.PolicyOr 1
  [param "p_hash_list" TpmlDigest].
Definition TpmPolicyOrResponse : Body := mk_body Response TpmCc.PolicyOr 0 [].
Definition TpmPolicyParametersCommand : Body := mk_body Command TpmCc.PolicyParameters 1
  [param "p_hash" Tpm2bDigest].
Definition TpmPolicyParametersResponse : Body := mk_body Response TpmCc.PolicyParameters 0 [].
Definition TpmPolicyPasswordCommand : Body := mk_body Command TpmCc.PolicyPassword 1 [].
Definition TpmPolicyPasswordResponse : Body := mk_body Response TpmCc.PolicyPassword 0 [].
Definition TpmPolicyPhysicalPresenceCommand : Body := mk_body Command TpmCc.PolicyPhysicalPresence 1 [].
Definition TpmPolicyPhysicalPresenceResponse : Body := mk_body Response TpmCc.PolicyPhysicalPresence 0 [].
Definition TpmPolicyPcrCommand : Body := mk_body Command TpmCc.PolicyPcr 1
  [param "pcr_digest" Tpm2bDigest;
   param "pcrs" TpmlPcrSelection].
Definition TpmPolicyPcrResponse : Body := mk_body Response TpmCc.PolicyPcr 0 [].
Definition TpmPolicyRestartCommand : Body := mk_body Command TpmCc.PolicyRestart 1 [].
Definition TpmPolicyRestartResponse : Body := mk_body Response TpmCc.PolicyRestart 0 [].
Definition TpmPolicySecretCommand : Body := mk_body Command TpmCc.PolicySecret 2
  [param "nonce_tpm" Tpm2bNonce;
   param "cp_hash_a" Tpm2bDigest;
   param "policy_ref" Tpm2bNonce;
   param "expiration" TpmInt32].
Definition TpmPolicySecretResponse : Body := mk_body Response TpmCc.PolicySecret 0
  [param "timeout" Tpm2bTimeout;
   param "policy_ticket" TpmtTkAuth].
Definition TpmPolicySignedCommand : Body := mk_body Command TpmCc.PolicySigned 2
  [param "nonce_tpm" Tpm2bNonce;
   param "cp_hash_a" Tpm2bDigest;
   param "policy_ref" Tpm2bNonce;
   param "expiration" TpmInt32;
   param "auth" TpmtSignature].
Definition TpmPolicySignedResponse : Body := mk_body Response TpmCc.PolicySigned 0
  [param "timeout" Tpm2bTimeout;
   param "policy_ticket" TpmtTkAuth].
Definition TpmPolicyTemplateCommand : Body := mk_body Command TpmCc.PolicyTemplate 1
  [param "template_hash" Tpm2bDigest].
Definition TpmPolicyTemplateResponse : Body := mk_body Response TpmCc.PolicyTemplate 0 [].
Definition TpmPolicyTicketCommand : Body := mk_body Command TpmCc.PolicyTicket 1
  [param "timeout" Tpm2bTimeout;
   param "cp_hash_a" Tpm2bDigest;
   param "policy_ref" Tpm2bNonce;
   param "auth_name" Tpm2bName;
   param "ticket" TpmtTkAuth].
Definition TpmPolicyTicketResponse : Body := mk_body Response TpmCc.PolicyTicket 0 [].
Definition TpmPolicyTransportSpdmCommand : Body := mk_body Command TpmCc.PolicyTransportSpdm 1
  [param "req_key_name" Tpm2bName;
   param "tpm_key_name" Tpm2bName].
Definition TpmPolicyTransportSpdmResponse : Body := mk_body Response TpmCc.PolicyTransportSpdm 0 [].
Definition TpmPpCommandsCommand : Body := mk_body Command TpmCc.PpCommands 1
  [param "set_list" TpmlCc;
   param "clear_list" TpmlCc].
Definition TpmPpCommandsResponse : Body := mk_body Response TpmCc.PpCommands 0 [].
Definition TpmQuoteCommand : Body := mk_body Command TpmCc.Quote 1
  [param "qualifying_data" Tpm2bData;
   param "in_scheme" TpmtSigScheme;
   param "pcr_select" TpmlPcrSelection].
Definition TpmQuoteResponse : Body := mk_body Response TpmCc.Quote 0
  [param "quoted" Tpm2bAttest;
   param "signature" TpmtSignature].
Definition TpmReadClockCommand : Body := mk_body Command TpmCc.ReadClock 0 [].
Definition TpmReadClockResponse : Body := mk_body Response TpmCc.ReadClock 0
  [param "current_time" TpmsTimeInfo].
Definition TpmReadOnlyControlCommand : Body := mk_body Command TpmCc.ReadOnlyControl 1
  [param "state" TpmiYesNo].
Definition TpmReadOnlyControlResponse : Body := mk_body Response TpmCc.ReadOnlyControl 0 [].
Definition TpmReadPublicCommand : Body := mk_body Command TpmCc.ReadPublic 1 [].
Definition TpmReadPublicResponse : Body := mk_body Response TpmCc.ReadPublic 0
  [param "out_public" Tpm2bPublic;
   param "name" Tpm2bName;
   param "qualified_name" Tpm2bName].
Definition TpmRewrapCommand : Body := mk_body Command TpmCc.Rewrap 2
  [param "in_duplicate" Tpm2bPrivate;
   param "name" Tpm2bName;
   param "in_sym_seed" Tpm2bEncryptedSecret].
Definition TpmRewrapResponse : Body := mk_body Response TpmCc.Rewrap 0
  [param "out_duplicate" Tpm2bPrivate;
   param "out_sym_seed" Tpm2bEncryptedSecret].
Definition TpmRsaDecryptCommand : Body := mk_body Command TpmCc.RsaDecrypt 1
  [param "cipher_text" Tpm2bPublicKeyRsa;
   param "in_scheme" TpmtRsaDecrypt;
   param "label" Tpm2bData].
Definition TpmRsaDecryptResponse : Body := mk_body Response TpmCc.RsaDecrypt 0
  [param "message" Tpm2bPublicKeyRsa].
Definition TpmRsaEncryptCommand : Body := mk_body Command TpmCc.RsaEncrypt 1
  [param "message" Tpm2bPublicKeyRsa;
   param "in_scheme" TpmtRsaDecrypt;
   param "label" Tpm2bData].
Definition TpmRsaEncryptResponse : Body := mk_body Response TpmCc.RsaEncrypt 0
  [param "out_data" Tpm2bPublicKeyRsa].
Definition TpmSelfTestCommand : Body := mk_body Command TpmCc.SelfTest 0
  [param "full_test" TpmiYesNo].
Definition TpmSelfTestResponse : Body := mk_body Response TpmCc.SelfTest 0 [].
Definition TpmSequenceCompleteCommand : Body := mk_body Command TpmCc.SequenceComplete 1
  [param "buffer" Tpm2bMaxBuffer;
   param "hierarchy" TpmRh].
Definition TpmSequenceCompleteResponse : Body := mk_body Response TpmCc.SequenceComplete 0
  [param "result" Tpm2bDigest;
   param "validation" TpmtTkHashcheck].
Definition TpmSequenceUpdateCommand : Body := mk_body Command TpmCc.SequenceUpdate 1
  [param "buffer" Tpm2bMaxBuffer].
Definition TpmSequenceUpdateResponse : Body := mk_body Response TpmCc.SequenceUpdate 0 [].
Definition TpmSetAlgorithmSetCommand : Body := mk_body Command TpmCc.SetAlgorithmSet 1
  [param "algorithm_set" TpmUint32].
Definition TpmSetAlgorithmSetResponse : Body := mk_body Response TpmCc.SetAlgorithmSet 0 [].
Definition TpmSetCapabilityCommand : Body := mk_body Command TpmCc.SetCapability 1
  [param "set_data" TpmsCapabilityData].
Definition TpmSetCapabilityResponse : Body := mk_body Response TpmCc.SetCapability 0 [].
Definition TpmSetCommandCodeAuditStatusCommand : Body := mk_body Command TpmCc.SetCommandCodeAuditStatus 1
  [param "audit_alg" TpmiAlgHash;
   param "set_list" TpmlCc;
   param "clear_list" TpmlCc].
Definition TpmSetCommandCodeAuditStatusResponse : Body := mk_body Response TpmCc.SetCommandCodeAuditStatus 0 [].
Definition TpmSetPrimaryPolicyCommand : Body := mk_body Command TpmCc.SetPrimaryPolicy 1
  [param "auth_policy" Tpm2bDigest;
   param "hash_alg" TpmAlgId].
Definition TpmSetPrimaryPolicyResponse : Body := mk_body Response TpmCc.SetPrimaryPolicy 0 [].
Definition TpmShutdownCommand : Body := mk_body Command TpmCc.Shutdown 0
  [param "shutdown_type" TpmSu].
Definition TpmShutdownResponse : Body := mk_body Response TpmCc.Shutdown 0 [].
Definition TpmSignCommand : Body := mk_body Command TpmCc.Sign 1
  [param "digest" Tpm2bDigest;
   param "in_scheme" TpmtSigScheme;
   param "validation" TpmtTkHashcheck].
Definition TpmSignResponse : Body := mk_body Response TpmCc.Sign 0
  [param "signature" TpmtSignature].
Definition TpmStartAuthSessionCommand : Body := mk_body Command TpmCc.StartAuthSession 2
  [param "nonce_caller" Tpm2bNonce;
   param "encrypted_salt" Tpm2bEncryptedSecret;
   param "session_type" TpmSe;
   param "symmetric" TpmtSymDefObject;
   param "auth_hash" TpmAlgId].
Definition TpmStartAuthSessionResponse : Body := mk_body Response TpmCc.StartAuthSession 1
  [param "nonce_tpm" Tpm2bNonce].
Definition TpmStartupCommand : Body := mk_body Command TpmCc.Startup 0
  [param "startup_type" TpmSu].
Definition TpmStartupResponse : Body := mk_body Response TpmCc.Startup 0 [].
Definition TpmStirRandomCommand : Body := mk_body Command TpmCc.StirRandom 0
  [param "in_data" Tpm2bSensitiveData].
Definition TpmStirRandomResponse : Body := mk_body Response TpmCc.StirRandom 0 [].
Definition TpmTestParmsCommand : Body := mk_body Command TpmCc.TestParms 0
  [param "parameters" TpmtPublicParms].
Definition TpmTestParmsResponse : Body := mk_body Response TpmCc.TestParms 0 [].
Definition TpmUnsealCommand : Body := mk_body Command TpmCc.Unseal 1 [].
Definition TpmUnsealResponse : Body := mk_body Response TpmCc.Unseal 0
  [param "out_data" Tpm2bSensitiveData].
Definition TpmVendorTcgTestCommand : Body := mk_body Command TpmCc.VendorTcgTest 0
  [param "input_data" Tpm2bData].
Definition TpmVendorTcgTestResponse : Body := mk_body Response TpmCc.VendorTcgTest 0
  [param "output_data" Tpm2bData].
Definition TpmVerifySignatureCommand : Body := mk_body Command TpmCc.VerifySignature 1
  [param "digest" Tpm2bDigest;
   param "signature" TpmtSignature].
Definition TpmVerifySignatureResponse : Body := mk_body Response TpmCc.VerifySignature 0
  [param "validation" TpmtTkVerified].
Definition TpmZGen2PhaseCommand : Body := mk_body Command TpmCc.ZGen2Phase 1
  [param "in_qsb" Tpm2bEccPoint;
   param "in_qeb" Tpm2bEccPoint;
   param "in_scheme" TpmiEccKeyExchange;
   param "counter" TpmUint16].
Definition TpmZGen2PhaseResponse : Body := mk_body Response TpmCc.ZGen2Phase 0
  [param "out_z1" Tpm2bEccPoint;
   param "out_z2" Tpm2bEccPoint].
