(* ===== verification/Dispatch.v ===== *)
(** Dispatch by command code: the [tpm_dispatch!] table of
    [protocol/src/frame/mod.rs] with what the macro
    ([protocol/src/macro/mod.rs]) generates from it, [TpmDispatch]
    ([frame/unmarshal.rs]) and the lookup [dispatch_for] of
    [frame/wire.rs]. *)

From S2P Require Import Prelude Errors Writer Codec Integer Struct EnumMacro Enums BasicTypes.
From S2P Require Import Rc Attributes Schemes Structures Body FrameData.

(** ** Binary search *)

(** [<[T]>::binary_search_by_key] of the standard library: [size] bounds the
    window that starts at [base]; the last comparison decides. *)
Section binary_search.
Context {A : Type} (key : A → Z) (k : Z).

Fixpoint narrow (fuel : nat) (xs : list A) (size base : nat) : nat :=
  match fuel with
  | O => base
  | S fuel =>
      if (size <=? 1)%nat then base
      else
        let half := (size / 2)%nat in
        let mid := (base + half)%nat in
        let base := match xs !! mid with
                    | Some x => if k <? key x then base else mid
                    | None => base
                    end in
        narrow fuel xs (size - half) base
  end.

Definition binary_search_by_key (xs : list A) : option nat :=
  match xs with
  | [] => None
  | _ =>
      let base := narrow (length xs) xs (length xs) 0 in
      match xs !! base with
      | Some x => if key x =? k then Some base else None
      | None => None
      end
  end.
End binary_search.

(** ** The table *)

(** The variants of the dispatch, in the order of the [tpm_dispatch!]
    invocation of [frame/mod.rs]: each is named after its command code. *)
Definition dispatch_variants : list TpmCc.t :=
  [TpmCc.NvUndefineSpaceSpecial;
   TpmCc.EvictControl;
   TpmCc.HierarchyControl;
   TpmCc.NvUndefineSpace;
   TpmCc.ChangeEps;
   TpmCc.ChangePps;
   TpmCc.Clear;
   TpmCc.ClearControl;
   TpmCc.ClockSet;
   TpmCc.HierarchyChangeAuth;
   TpmCc.NvDefineSpace;
   TpmCc.PcrAllocate;
   TpmCc.PcrSetAuthPolicy;
   TpmCc.PpCommands;
   TpmCc.SetPrimaryPolicy;
   TpmCc.FieldUpgradeStart;
   TpmCc.ClockRateAdjust;
   TpmCc.CreatePrimary;
   TpmCc.NvGlobalWriteLock;
   TpmCc.GetCommandAuditDigest;
   TpmCc.NvIncrement;
   TpmCc.NvSetBits;
   TpmCc.NvExtend;
   TpmCc.NvWrite;
   TpmCc.NvWriteLock;
   TpmCc.DictionaryAttackLockReset;
   TpmCc.DictionaryAttackParameters;
   TpmCc.NvChangeAuth;
   TpmCc.PcrEvent;
   TpmCc.PcrReset;
   TpmCc.SequenceComplete;
   TpmCc.SetAlgorithmSet;
   TpmCc.SetCommandCodeAuditStatus;
   TpmCc.FieldUpgradeData;
   TpmCc.IncrementalSelfTest;
   TpmCc.SelfTest;
   TpmCc.Startup;
   TpmCc.Shutdown;
   TpmCc.StirRandom;
   TpmCc.ActivateCredential;
   TpmCc.Certify;
   TpmCc.PolicyNv;
   TpmCc.CertifyCreation;
   TpmCc.Duplicate;
   TpmCc.GetTime;
   TpmCc.GetSessionAuditDigest;
   TpmCc.NvRead;
   TpmCc.NvReadLock;
   TpmCc.ObjectChangeAuth;
   TpmCc.PolicySecret;
   TpmCc.Rewrap;
   TpmCc.Create;
   TpmCc.EcdhZGen;
   TpmCc.Hmac;
   TpmCc.Import;
   TpmCc.Load;
   TpmCc.Quote;
   TpmCc.RsaDecrypt;
   TpmCc.HmacStart;
   TpmCc.SequenceUpdate;
   TpmCc.Sign;
   TpmCc.Unseal;
   TpmCc.PolicySigned;
   TpmCc.ContextLoad;
   TpmCc.ContextSave;
   TpmCc.EcdhKeyGen;
   TpmCc.EncryptDecrypt;
   TpmCc.FlushContext;
   TpmCc.LoadExternal;
   TpmCc.MakeCredential;
   TpmCc.NvReadPublic;
   TpmCc.PolicyAuthorize;
   TpmCc.PolicyAuthValue;
   TpmCc.PolicyCommandCode;
   TpmCc.PolicyCounterTimer;
   TpmCc.PolicyCpHash;
   TpmCc.PolicyLocality;
   TpmCc.PolicyNameHash;
   TpmCc.PolicyOr;
   TpmCc.PolicyTicket;
   TpmCc.ReadPublic;
   TpmCc.RsaEncrypt;
   TpmCc.StartAuthSession;
   TpmCc.VerifySignature;
   TpmCc.EccParameters;
   TpmCc.FirmwareRead;
   TpmCc.GetCapability;
   TpmCc.GetRandom;
   TpmCc.GetTestResult;
   TpmCc.Hash;
   TpmCc.PcrRead;
   TpmCc.PolicyPcr;
   TpmCc.PolicyRestart;
   TpmCc.ReadClock;
   TpmCc.PcrExtend;
   TpmCc.PcrSetAuthValue;
   TpmCc.NvCertify;
   TpmCc.EventSequenceComplete;
   TpmCc.HashSequenceStart;
   TpmCc.PolicyPhysicalPresence;
   TpmCc.PolicyDuplicationSelect;
   TpmCc.PolicyGetDigest;
   TpmCc.TestParms;
   TpmCc.Commit;
   TpmCc.PolicyPassword;
   TpmCc.ZGen2Phase;
   TpmCc.EcEphemeral;
   TpmCc.PolicyNvWritten;
   TpmCc.PolicyTemplate;
   TpmCc.CreateLoaded;
   TpmCc.PolicyAuthorizeNv;
   TpmCc.EncryptDecrypt2;
   TpmCc.AcGetCapability;
   TpmCc.AcSend;
   TpmCc.PolicyAcSendSelect;
   TpmCc.ActSetTimeout;
   TpmCc.EccEncrypt;
   TpmCc.EccDecrypt;
   TpmCc.PolicyCapability;
   TpmCc.PolicyParameters;
   TpmCc.NvDefineSpace2;
   TpmCc.NvReadPublic2;
   TpmCc.SetCapability;
   TpmCc.ReadOnlyControl;
   TpmCc.PolicyTransportSpdm;
   TpmCc.VendorTcgTest].

(** The command and the response of a variant. *)
Definition command (variant : TpmCc.t) : Body :=
  match variant with
  | TpmCc.NvUndefineSpaceSpecial => TpmNvUndefineSpaceSpecialCommand
  | TpmCc.EvictControl => TpmEvictControlCommand
  | TpmCc.HierarchyControl => TpmHierarchyControlCommand
  | TpmCc.NvUndefineSpace => TpmNvUndefineSpaceCommand
  | TpmCc.ChangeEps => TpmChangeEpsCommand
  | TpmCc.ChangePps => TpmChangePpsCommand
  | TpmCc.Clear => TpmClearCommand
  | TpmCc.ClearControl => TpmClearControlCommand
  | TpmCc.ClockSet => TpmClockSetCommand
  | TpmCc.HierarchyChangeAuth => TpmHierarchyChangeAuthCommand
  | TpmCc.NvDefineSpace => TpmNvDefineSpaceCommand
  | TpmCc.PcrAllocate => TpmPcrAllocateCommand
  | TpmCc.PcrSetAuthPolicy => TpmPcrSetAuthPolicyCommand
  | TpmCc.PpCommands => TpmPpCommandsCommand
  | TpmCc.SetPrimaryPolicy => TpmSetPrimaryPolicyCommand
  | TpmCc.FieldUpgradeStart => TpmFieldUpgradeStartCommand
  | TpmCc.ClockRateAdjust => TpmClockRateAdjustCommand
  | TpmCc.CreatePrimary => TpmCreatePrimaryCommand
  | TpmCc.NvGlobalWriteLock => TpmNvGlobalWriteLockCommand
  | TpmCc.GetCommandAuditDigest => TpmGetCommandAuditDigestCommand
  | TpmCc.NvIncrement => TpmNvIncrementCommand
  | TpmCc.NvSetBits => TpmNvSetBitsCommand
  | TpmCc.NvExtend => TpmNvExtendCommand
  | TpmCc.NvWrite => TpmNvWriteCommand
  | TpmCc.NvWriteLock => TpmNvWriteLockCommand
  | TpmCc.DictionaryAttackLockReset => TpmDictionaryAttackLockResetCommand
  | TpmCc.DictionaryAttackParameters => TpmDictionaryAttackParametersCommand
  | TpmCc.NvChangeAuth => TpmNvChangeAuthCommand
  | TpmCc.PcrEvent => TpmPcrEventCommand
  | TpmCc.PcrReset => TpmPcrResetCommand
  | TpmCc.SequenceComplete => TpmSequenceCompleteCommand
  | TpmCc.SetAlgorithmSet => TpmSetAlgorithmSetCommand
  | TpmCc.SetCommandCodeAuditStatus => TpmSetCommandCodeAuditStatusCommand
  | TpmCc.FieldUpgradeData => TpmFieldUpgradeDataCommand
  | TpmCc.IncrementalSelfTest => TpmIncrementalSelfTestCommand
  | TpmCc.SelfTest => TpmSelfTestCommand
  | TpmCc.Startup => TpmStartupCommand
  | TpmCc.Shutdown => TpmShutdownCommand
  | TpmCc.StirRandom => TpmStirRandomCommand
  | TpmCc.ActivateCredential => TpmActivateCredentialCommand
  | TpmCc.Certify => TpmCertifyCommand
  | TpmCc.PolicyNv => TpmPolicyNvCommand
  | TpmCc.CertifyCreation => TpmCertifyCreationCommand
  | TpmCc.Duplicate => TpmDuplicateCommand
  | TpmCc.GetTime => TpmGetTimeCommand
  | TpmCc.GetSessionAuditDigest => TpmGetSessionAuditDigestCommand
  | TpmCc.NvRead => TpmNvReadCommand
  | TpmCc.NvReadLock => TpmNvReadLockCommand
  | TpmCc.ObjectChangeAuth => TpmObjectChangeAuthCommand
  | TpmCc.PolicySecret => TpmPolicySecretCommand
  | TpmCc.Rewrap => TpmRewrapCommand
  | TpmCc.Create => TpmCreateCommand
  | TpmCc.EcdhZGen => TpmEcdhZGenCommand
  | TpmCc.Hmac => TpmHmacCommand
  | TpmCc.Import => TpmImportCommand
  | TpmCc.Load => TpmLoadCommand
  | TpmCc.Quote => TpmQuoteCommand
  | TpmCc.RsaDecrypt => TpmRsaDecryptCommand
  | TpmCc.HmacStart => TpmHmacStartCommand
  | TpmCc.SequenceUpdate => TpmSequenceUpdateCommand
  | TpmCc.Sign => TpmSignCommand
  | TpmCc.Unseal => TpmUnsealCommand
  | TpmCc.PolicySigned => TpmPolicySignedCommand
  | TpmCc.ContextLoad => TpmContextLoadCommand
  | TpmCc.ContextSave => TpmContextSaveCommand
  | TpmCc.EcdhKeyGen => TpmEcdhKeyGenCommand
  | TpmCc.EncryptDecrypt => TpmEncryptDecryptCommand
  | TpmCc.FlushContext => TpmFlushContextCommand
  | TpmCc.LoadExternal => TpmLoadExternalCommand
  | TpmCc.MakeCredential => TpmMakeCredentialCommand
  | TpmCc.NvReadPublic => TpmNvReadPublicCommand
  | TpmCc.PolicyAuthorize => TpmPolicyAuthorizeCommand
  | TpmCc.PolicyAuthValue => TpmPolicyAuthValueCommand
  | TpmCc.PolicyCommandCode => TpmPolicyCommandCodeCommand
  | TpmCc.PolicyCounterTimer => TpmPolicyCounterTimerCommand
  | TpmCc.PolicyCpHash => TpmPolicyCpHashCommand
  | TpmCc.PolicyLocality => TpmPolicyLocalityCommand
  | TpmCc.PolicyNameHash => TpmPolicyNameHashCommand
  | TpmCc.PolicyOr => TpmPolicyOrCommand
  | TpmCc.PolicyTicket => TpmPolicyTicketCommand
  | TpmCc.ReadPublic => TpmReadPublicCommand
  | TpmCc.RsaEncrypt => TpmRsaEncryptCommand
  | TpmCc.StartAuthSession => TpmStartAuthSessionCommand
  | TpmCc.VerifySignature => TpmVerifySignatureCommand
  | TpmCc.EccParameters => TpmEccParametersCommand
  | TpmCc.FirmwareRead => TpmFirmwareReadCommand
  | TpmCc.GetCapability => TpmGetCapabilityCommand
  | TpmCc.GetRandom => TpmGetRandomCommand
  | TpmCc.GetTestResult => TpmGetTestResultCommand
  | TpmCc.Hash => TpmHashCommand
  | TpmCc.PcrRead => TpmPcrReadCommand
  | TpmCc.PolicyPcr => TpmPolicyPcrCommand
  | TpmCc.PolicyRestart => TpmPolicyRestartCommand
  | TpmCc.ReadClock => TpmReadClockCommand
  | TpmCc.PcrExtend => TpmPcrExtendCommand
  | TpmCc.PcrSetAuthValue => TpmPcrSetAuthValueCommand
  | TpmCc.NvCertify => TpmNvCertifyCommand
  | TpmCc.EventSequenceComplete => TpmEventSequenceCompleteCommand
  | TpmCc.HashSequenceStart => TpmHashSequenceStartCommand
  | TpmCc.PolicyPhysicalPresence => TpmPolicyPhysicalPresenceCommand
  | TpmCc.PolicyDuplicationSelect => TpmPolicyDuplicationSelectCommand
  | TpmCc.PolicyGetDigest => TpmPolicyGetDigestCommand
  | TpmCc.TestParms => TpmTestParmsCommand
  | TpmCc.Commit => TpmCommitCommand
  | TpmCc.PolicyPassword => TpmPolicyPasswordCommand
  | TpmCc.ZGen2Phase => TpmZGen2PhaseCommand
  | TpmCc.EcEphemeral => TpmEcEphemeralCommand
  | TpmCc.PolicyNvWritten => TpmPolicyNvWrittenCommand
  | TpmCc.PolicyTemplate => TpmPolicyTemplateCommand
  | TpmCc.CreateLoaded => TpmCreateLoadedCommand
  | TpmCc.PolicyAuthorizeNv => TpmPolicyAuthorizeNvCommand
  | TpmCc.EncryptDecrypt2 => TpmEncryptDecrypt2Command
  | TpmCc.AcGetCapability => TpmAcGetCapabilityCommand
  | TpmCc.AcSend => TpmAcSendCommand
  | TpmCc.PolicyAcSendSelect => TpmPolicyAcSendSelectCommand
  | TpmCc.ActSetTimeout => TpmActSetTimeoutCommand
  | TpmCc.EccEncrypt => TpmEccEncryptCommand
  | TpmCc.EccDecrypt => TpmEccDecryptCommand
  | TpmCc.PolicyCapability => TpmPolicyCapabilityCommand
  | TpmCc.PolicyParameters => TpmPolicyParametersCommand
  | TpmCc.NvDefineSpace2 => TpmNvDefineSpace2Command
  | TpmCc.NvReadPublic2 => TpmNvReadPublic2Command
  | TpmCc.SetCapability => TpmSetCapabilityCommand
  | TpmCc.ReadOnlyControl => TpmReadOnlyControlCommand
  | TpmCc.PolicyTransportSpdm => TpmPolicyTransportSpdmCommand
  | TpmCc.VendorTcgTest => TpmVendorTcgTestCommand
  end.

Definition response (variant : TpmCc.t) : Body :=
  match variant with
  | TpmCc.NvUndefineSpaceSpecial => TpmNvUndefineSpaceSpecialResponse
  | TpmCc.EvictControl => TpmEvictControlResponse
  | TpmCc.HierarchyControl => TpmHierarchyControlResponse
  | TpmCc.NvUndefineSpace => TpmNvUndefineSpaceResponse
  | TpmCc.ChangeEps => TpmChangeEpsResponse
  | TpmCc.ChangePps => TpmChangePpsResponse
  | TpmCc.Clear => TpmClearResponse
  | TpmCc.ClearControl => TpmClearControlResponse
  | TpmCc.ClockSet => TpmClockSetResponse
  | TpmCc.HierarchyChangeAuth => TpmHierarchyChangeAuthResponse
  | TpmCc.NvDefineSpace => TpmNvDefineSpaceResponse
  | TpmCc.PcrAllocate => TpmPcrAllocateResponse
  | TpmCc.PcrSetAuthPolicy => TpmPcrSetAuthPolicyResponse
  | TpmCc.PpCommands => TpmPpCommandsResponse
  | TpmCc.SetPrimaryPolicy => TpmSetPrimaryPolicyResponse
  | TpmCc.FieldUpgradeStart => TpmFieldUpgradeStartResponse
  | TpmCc.ClockRateAdjust => TpmClockRateAdjustResponse
  | TpmCc.CreatePrimary => TpmCreatePrimaryResponse
  | TpmCc.NvGlobalWriteLock => TpmNvGlobalWriteLockResponse
  | TpmCc.GetCommandAuditDigest => TpmGetCommandAuditDigestResponse
  | TpmCc.NvIncrement => TpmNvIncrementResponse
  | TpmCc.NvSetBits => TpmNvSetBitsResponse
  | TpmCc.NvExtend => TpmNvExtendResponse
  | TpmCc.NvWrite => TpmNvWriteResponse
  | TpmCc.NvWriteLock => TpmNvWriteLockResponse
  | TpmCc.DictionaryAttackLockReset => TpmDictionaryAttackLockResetResponse
  | TpmCc.DictionaryAttackParameters => TpmDictionaryAttackParametersResponse
  | TpmCc.NvChangeAuth => TpmNvChangeAuthResponse
  | TpmCc.PcrEvent => TpmPcrEventResponse
  | TpmCc.PcrReset => TpmPcrResetResponse
  | TpmCc.SequenceComplete => TpmSequenceCompleteResponse
  | TpmCc.SetAlgorithmSet => TpmSetAlgorithmSetResponse
  | TpmCc.SetCommandCodeAuditStatus => TpmSetCommandCodeAuditStatusResponse
  | TpmCc.FieldUpgradeData => TpmFieldUpgradeDataResponse
  | TpmCc.IncrementalSelfTest => TpmIncrementalSelfTestResponse
  | TpmCc.SelfTest => TpmSelfTestResponse
  | TpmCc.Startup => TpmStartupResponse
  | TpmCc.Shutdown => TpmShutdownResponse
  | TpmCc.StirRandom => TpmStirRandomResponse
  | TpmCc.ActivateCredential => TpmActivateCredentialResponse
  | TpmCc.Certify => TpmCertifyResponse
  | TpmCc.PolicyNv => TpmPolicyNvResponse
  | TpmCc.CertifyCreation => TpmCertifyCreationResponse
  | TpmCc.Duplicate => TpmDuplicateResponse
  | TpmCc.GetTime => TpmGetTimeResponse
  | TpmCc.GetSessionAuditDigest => TpmGetSessionAuditDigestResponse
  | TpmCc.NvRead => TpmNvReadResponse
  | TpmCc.NvReadLock => TpmNvReadLockResponse
  | TpmCc.ObjectChangeAuth => TpmObjectChangeAuthResponse
  | TpmCc.PolicySecret => TpmPolicySecretResponse
  | TpmCc.Rewrap => TpmRewrapResponse
  | TpmCc.Create => TpmCreateResponse
  | TpmCc.EcdhZGen => TpmEcdhZGenResponse
  | TpmCc.Hmac => TpmHmacResponse
  | TpmCc.Import => TpmImportResponse
  | TpmCc.Load => TpmLoadResponse
  | TpmCc.Quote => TpmQuoteResponse
  | TpmCc.RsaDecrypt => TpmRsaDecryptResponse
  | TpmCc.HmacStart => TpmHmacStartResponse
  | TpmCc.SequenceUpdate => TpmSequenceUpdateResponse
  | TpmCc.Sign => TpmSignResponse
  | TpmCc.Unseal => TpmUnsealResponse
  | TpmCc.PolicySigned => TpmPolicySignedResponse
  | TpmCc.ContextLoad => TpmContextLoadResponse
  | TpmCc.ContextSave => TpmContextSaveResponse
  | TpmCc.EcdhKeyGen => TpmEcdhKeyGenResponse
  | TpmCc.EncryptDecrypt => TpmEncryptDecryptResponse
  | TpmCc.FlushContext => TpmFlushContextResponse
  | TpmCc.LoadExternal => TpmLoadExternalResponse
  | TpmCc.MakeCredential => TpmMakeCredentialResponse
  | TpmCc.NvReadPublic => TpmNvReadPublicResponse
  | TpmCc.PolicyAuthorize => TpmPolicyAuthorizeResponse
  | TpmCc.PolicyAuthValue => TpmPolicyAuthValueResponse
  | TpmCc.PolicyCommandCode => TpmPolicyCommandCodeResponse
  | TpmCc.PolicyCounterTimer => TpmPolicyCounterTimerResponse
  | TpmCc.PolicyCpHash => TpmPolicyCpHashResponse
  | TpmCc.PolicyLocality => TpmPolicyLocalityResponse
  | TpmCc.PolicyNameHash => TpmPolicyNameHashResponse
  | TpmCc.PolicyOr => TpmPolicyOrResponse
  | TpmCc.PolicyTicket => TpmPolicyTicketResponse
  | TpmCc.ReadPublic => TpmReadPublicResponse
  | TpmCc.RsaEncrypt => TpmRsaEncryptResponse
  | TpmCc.StartAuthSession => TpmStartAuthSessionResponse
  | TpmCc.VerifySignature => TpmVerifySignatureResponse
  | TpmCc.EccParameters => TpmEccParametersResponse
  | TpmCc.FirmwareRead => TpmFirmwareReadResponse
  | TpmCc.GetCapability => TpmGetCapabilityResponse
  | TpmCc.GetRandom => TpmGetRandomResponse
  | TpmCc.GetTestResult => TpmGetTestResultResponse
  | TpmCc.Hash => TpmHashResponse
  | TpmCc.PcrRead => TpmPcrReadResponse
  | TpmCc.PolicyPcr => TpmPolicyPcrResponse
  | TpmCc.PolicyRestart => TpmPolicyRestartResponse
  | TpmCc.ReadClock => TpmReadClockResponse
  | TpmCc.PcrExtend => TpmPcrExtendResponse
  | TpmCc.PcrSetAuthValue => TpmPcrSetAuthValueResponse
  | TpmCc.NvCertify => TpmNvCertifyResponse
  | TpmCc.EventSequenceComplete => TpmEventSequenceCompleteResponse
  | TpmCc.HashSequenceStart => TpmHashSequenceStartResponse
  | TpmCc.PolicyPhysicalPresence => TpmPolicyPhysicalPresenceResponse
  | TpmCc.PolicyDuplicationSelect => TpmPolicyDuplicationSelectResponse
  | TpmCc.PolicyGetDigest => TpmPolicyGetDigestResponse
  | TpmCc.TestParms => TpmTestParmsResponse
  | TpmCc.Commit => TpmCommitResponse
  | TpmCc.PolicyPassword => TpmPolicyPasswordResponse
  | TpmCc.ZGen2Phase => TpmZGen2PhaseResponse
  | TpmCc.EcEphemeral => TpmEcEphemeralResponse
  | TpmCc.PolicyNvWritten => TpmPolicyNvWrittenResponse
  | TpmCc.PolicyTemplate => TpmPolicyTemplateResponse
  | TpmCc.CreateLoaded => TpmCreateLoadedResponse
  | TpmCc.PolicyAuthorizeNv => TpmPolicyAuthorizeNvResponse
  | TpmCc.EncryptDecrypt2 => TpmEncryptDecrypt2Response
  | TpmCc.AcGetCapability => TpmAcGetCapabilityResponse
  | TpmCc.AcSend => TpmAcSendResponse
  | TpmCc.PolicyAcSendSelect => TpmPolicyAcSendSelectResponse
  | TpmCc.ActSetTimeout => TpmActSetTimeoutResponse
  | TpmCc.EccEncrypt => TpmEccEncryptResponse
  | TpmCc.EccDecrypt => TpmEccDecryptResponse
  | TpmCc.PolicyCapability => TpmPolicyCapabilityResponse
  | TpmCc.PolicyParameters => TpmPolicyParametersResponse
  | TpmCc.NvDefineSpace2 => TpmNvDefineSpace2Response
  | TpmCc.NvReadPublic2 => TpmNvReadPublic2Response
  | TpmCc.SetCapability => TpmSetCapabilityResponse
  | TpmCc.ReadOnlyControl => TpmReadOnlyControlResponse
  | TpmCc.PolicyTransportSpdm => TpmPolicyTransportSpdmResponse
  | TpmCc.VendorTcgTest => TpmVendorTcgTestResponse
  end.

(** [struct TpmDispatch] *)
Record TpmDispatch := mk_dispatch {
  dispatch_cc : TpmCc.t;
  dispatch_handles : nat;
  dispatch_response_handles : nat
}.

(** [TPM_DISPATCH_TABLE] *)
Definition TPM_DISPATCH_TABLE : list TpmDispatch :=
  map (λ v, mk_dispatch (CC (command v)) (HANDLES (command v)) (HANDLES (response v)))
    dispatch_variants.

(** The [const_check_sorted] assertions. *)
Fixpoint const_check_sorted (ccs : list TpmCc.t) : bool :=
  match ccs with
  | prev :: ((current :: _) as rest) =>
      (value prev <=? value current) && const_check_sorted rest
  | _ => true
  end.

(** [dispatch_for(cc)] *)
Definition dispatch_for (cc : TpmCc.t) : TpmResult TpmDispatch :=
  match binary_search_by_key (λ d, value (dispatch_cc d)) (value cc) TPM_DISPATCH_TABLE with
  | Some index => or_panic (TPM_DISPATCH_TABLE !! index)
  | None => Err (InvalidCc 0 (value cc))
  end.

(** ** [TpmCommandValue] and [TpmResponseValue]

    A value is a variant with a body of its type; every generated method
    matches on the variant and calls the method of the body. *)

Record TpmCommandValue := command_value { cv_variant : TpmCc.t; cv_body : body (command cv_variant) }.
Record TpmResponseValue := response_value { rv_variant : TpmCc.t; rv_body : body (response rv_variant) }.

Module TpmCommandValue.
Definition SIZE : Z := TPM_MAX_COMMAND_SIZE.
Definition len (c : TpmCommandValue) : Z := TpmBody.len _ (cv_body c).
Definition marshal_handles (c : TpmCommandValue) : W () := TpmBody.marshal_handles _ (cv_body c).
Definition marshal_parameters (c : TpmCommandValue) : W () :=
  TpmBody.marshal_parameters _ (cv_body c).
Definition marshal (c : TpmCommandValue) : W () := TpmBody.marshal _ (cv_body c).
Definition cc (c : TpmCommandValue) : TpmCc.t := CC (command (cv_variant c)).
Definition handles (c : TpmCommandValue) : Z := Z.of_nat (HANDLES (command (cv_variant c))).
Definition frame (c : TpmCommandValue) : TpmFrame :=
  mk_frame (cc c) (handles c) (len c) (marshal_handles c) (marshal_parameters c).
End TpmCommandValue.

Module TpmResponseValue.
Definition SIZE : Z := TPM_MAX_COMMAND_SIZE.
Definition len (r : TpmResponseValue) : Z := TpmBody.len _ (rv_body r).
Definition marshal_handles (r : TpmResponseValue) : W () := TpmBody.marshal_handles _ (rv_body r).
Definition marshal_parameters (r : TpmResponseValue) : W () :=
  TpmBody.marshal_parameters _ (rv_body r).
Definition marshal (r : TpmResponseValue) : W () := TpmBody.marshal _ (rv_body r).
Definition cc (r : TpmResponseValue) : TpmCc.t := CC (response (rv_variant r)).
Definition handles (r : TpmResponseValue) : Z := Z.of_nat (HANDLES (response (rv_variant r))).
Definition frame (r : TpmResponseValue) : TpmFrame :=
  mk_frame (cc r) (handles r) (len r) (marshal_handles r) (marshal_parameters r).

(** [TryFrom<TpmResponseValue> for $resp]: the body, or the value back. *)
Definition try_from (variant : TpmCc.t) (value : TpmResponseValue)
    : result TpmResponseValue (body (response variant)) :=
  match decide (rv_variant value = variant) with
  | left e => Ok (eq_rect _ (λ v, body (response v)) (rv_body value) _ e)
  | right _ => Err value
  end.
End TpmResponseValue.

(** ** Laws *)

Section binary_search_laws.
Context {A : Type} (key : A → Z) (k : Z) (xs : list A).

Definition ascending : Prop := ∀ i j x y, (i ≤ j)%nat → xs !! i = Some x → xs !! j = Some y → key x ≤ key y.

(** Where the search stands: keys after the window are too large, and the
    key at its start is not, unless it is the first. *)
Definition window (size base : nat) : Prop :=
  (base < length xs)%nat ∧
  (∀ i x, (base + size ≤ i)%nat → xs !! i = Some x → k < key x) ∧
  (base = 0%nat ∨ ∀ x, xs !! base = Some x → key x ≤ k).

Lemma narrow_window fuel size base :
  ascending → (size ≤ fuel)%nat → (0 < size)%nat → (base + size ≤ length xs)%nat →
  window size base → window 1 (narrow key k fuel xs size base).
Proof using Type.
  intros Hasc. revert size base; induction fuel as [|fuel IH]; intros size base Hf Hs Hb Hw; [lia|].
  cbn [narrow]. destruct (size <=? 1)%nat eqn:H1.
  { apply Nat.leb_le in H1. by replace 1%nat with size by lia. }
  apply Nat.leb_gt in H1.
  assert (1 ≤ size / 2 < size)%nat as [Hh1 Hh2]
    by (split; [apply Nat.div_le_lower_bound; lia | apply Nat.div_lt; lia]).
  pose proof (Nat.div_mod_eq size 2).
  destruct (lookup_lt_is_Some_2 xs (base + size / 2)) as [x Hx]; [lia|]. rewrite Hx.
  destruct Hw as (Hw1 & Hw2 & Hw3).
  destruct (k <? key x) eqn:Hk; apply IH; try lia.
  - apply Z.ltb_lt in Hk. split_and!; [done | | done]. intros i y Hi Hy.
    destruct (decide (base + size / 2 ≤ i)%nat) as [Hle|]; [|lia].
    pose proof (Hasc _ _ _ _ Hle Hx Hy). lia.
  - apply Z.ltb_ge in Hk. split_and!; [lia | | right; intros y ?; simplify_eq; lia].
    intros i y Hi. apply Hw2. lia.
Qed.

(** The search finds the key, or the key is not there. *)
Lemma binary_search_spec :
  ascending →
  match binary_search_by_key key k xs with
  | Some i => ∃ x, xs !! i = Some x ∧ key x = k
  | None => ∀ x, x ∈ xs → key x ≠ k
  end.
Proof using Type.
  intros Hasc. unfold binary_search_by_key. destruct xs as [|x0 xs'] eqn:Exs.
  { by intros x ?%elem_of_nil. }
  rewrite <-Exs in *. clear xs' Exs x0.
  destruct (decide (length xs = 0)%nat) as [H0|H0].
  { apply nil_length_inv in H0. rewrite H0. by intros x ?%elem_of_nil. }
  destruct (narrow_window (length xs) (length xs) 0) as (Hb & Hgt & Hle); [done|lia..| |].
  { split_and!; [lia | | by left]. intros i x Hi Hx%lookup_lt_Some. lia. }
  set (base := narrow key k (length xs) xs (length xs) 0) in *.
  destruct (lookup_lt_is_Some_2 xs base Hb) as [b Eb]. rewrite Eb.
  destruct (key b =? k) eqn:Ek; [apply Z.eqb_eq in Ek; by exists b|].
  apply Z.eqb_neq in Ek. intros y [j Hj]%list_elem_of_lookup Hy.
  destruct (decide (j ≤ base)%nat) as [Hjb|]; [|specialize (Hgt j y ltac:(lia) Hj); lia].
  pose proof (Hasc _ _ _ _ Hjb Hj Eb) as Hyb.
  destruct Hle as [Hz|Hle]; [|specialize (Hle b Eb); lia].
  assert (j = base) by lia. congruence.
Qed.
End binary_search_laws.

Lemma command_CC v : CC (command v) = v.
Proof. by destruct v. Qed.
Lemma response_CC v : CC (response v) = v.
Proof. by destruct v. Qed.

Ltac solve_body_ok f :=
  unfold f; lazymatch goal with |- FieldsOk (parameters ?b) => unfold b end;
  cbn [parameters]; apply _.

#[export] Instance command_ok v : FieldsOk (parameters (command v)).
Proof. destruct v; solve_body_ok command. Qed.
#[export] Instance response_ok v : FieldsOk (parameters (response v)).
Proof. destruct v; solve_body_ok response. Qed.

Lemma dispatch_variants_complete v : v ∈ dispatch_variants.
Proof.
  change dispatch_variants with (variants TpmCc.t).
  pose proof (try_from_value v) as H. unfold try_from in H.
  destruct (find _ _) as [v'|] eqn:Hf; [|done]. injection H as ->.
  apply find_some in Hf as [Hf _]. by apply list_elem_of_In.
Qed.

(** The compile-time assertions make the table ascending. *)
Lemma sorted_ascending (ds : list TpmDispatch) :
  const_check_sorted (map dispatch_cc ds) = true → ascending (λ d, value (dispatch_cc d)) ds.
Proof.
  induction ds as [|d [|d' ds] IH]; intros Hs i j x y Hij Hi Hj.
  - done.
  - destruct i, j; simplify_eq/=; done.
  - cbn in Hs. apply andb_true_iff in Hs as [Hd%Z.leb_le Hs]. specialize (IH Hs).
    destruct i as [|i], j as [|j]; simplify_eq/=; [done | | lia | by eapply (IH i j); [lia|..]].
    etransitivity; [exact Hd|]. by eapply (IH 0%nat j); [lia|..].
Qed.

Lemma table_sorted : const_check_sorted (map dispatch_cc TPM_DISPATCH_TABLE) = true.
Proof. by vm_compute. Qed.

Lemma table_entry d : d ∈ TPM_DISPATCH_TABLE →
  d = mk_dispatch (dispatch_cc d) (HANDLES (command (dispatch_cc d)))
        (HANDLES (response (dispatch_cc d))).
Proof.
  unfold TPM_DISPATCH_TABLE. intros (v & -> & _)%list_elem_of_fmap. simpl. by rewrite command_CC.
Qed.

(** Every command code is found, with the handle counts of its command and
    of its response. *)
Lemma dispatch_for_Ok cc :
  dispatch_for cc = Ok (mk_dispatch cc (HANDLES (command cc)) (HANDLES (response cc))).
Proof.
  unfold dispatch_for.
  pose proof (binary_search_spec (λ d, value (dispatch_cc d)) (value cc) TPM_DISPATCH_TABLE
                (sorted_ascending _ table_sorted)) as H.
  destruct (binary_search_by_key _ _ _) as [i|].
  - destruct H as (d & Hd & Hv). rewrite Hd; simpl.
    assert (dispatch_cc d = cc) as <- by exact (value_inj TpmCc.t _ _ Hv).
    by rewrite <-table_entry by by eapply list_elem_of_lookup_2.
  - exfalso. eapply (H (mk_dispatch (CC (command cc)) (HANDLES (command cc)) (HANDLES (response cc)))).
    + apply (list_elem_of_fmap_2 (λ v, mk_dispatch (CC (command v)) (HANDLES (command v))
               (HANDLES (response v)))), dispatch_variants_complete.
    + simpl. by rewrite command_CC.
Qed.

Lemma rv_try_from_spec variant r :
  (∀ b, r = response_value variant b → TpmResponseValue.try_from variant r = Ok b) ∧
  (rv_variant r ≠ variant → TpmResponseValue.try_from variant r = Err r).
Proof.
  unfold TpmResponseValue.try_from. split.
  - intros b ->. simpl. destruct (decide _) as [e|]; [|done].
    by rewrite (proof_irrel e eq_refl).
  - intros Hne. by destruct (decide _).
Qed.
