(* ===== verification/Envelope.v ===== *)
(** The frame helpers of [protocol/src/frame/wire.rs]: big-endian reads and
    writes at a fixed offset, the size field of a frame, and the structural
    walk over an authorization area. *)

From S2P Require Import Prelude Errors Writer Codec Integer Buffer Struct EnumMacro Enums.
From S2P Require Import BasicTypes Body Dispatch.

Definition HEADER_SIZE : Z := 10.
Definition TAG_OFFSET : nat := 0.
Definition SIZE_OFFSET : nat := 2.
Definition CODE_OFFSET : nat := 6.

(** [&s[start..end]] *)
Definition slice_range {E} (s : slice) (start end_ : Z) : result E slice :=
  if (start <=? end_) && (end_ <=? sl_len s) then Ok (sl_take (end_ - start) (sl_drop start s))
  else Panic.

(** [read_u16(buf, offset)] and [read_u32(buf, offset)] *)
Definition read_u16 (buf : slice) (offset : nat) : TpmResult Z :=
  let? b0 := index buf offset in
  let? b1 := index buf (offset + 1) in
  Ok (be_decode [b0; b1]).
Definition read_u32 (buf : slice) (offset : nat) : TpmResult Z :=
  let? b0 := index buf offset in
  let? b1 := index buf (offset + 1) in
  let? b2 := index buf (offset + 2) in
  let? b3 := index buf (offset + 3) in
  Ok (be_decode [b0; b1; b2; b3]).

(** [buf[offset..offset + n].copy_from_slice(bytes)]: the buffer after it. *)
Definition copy_at (buf : slice) (offset : nat) (bytes : list byte) : TpmResult slice :=
  if Z.of_nat offset + zlen bytes <=? sl_len buf then
    Ok (mk_slice (sl_addr buf)
          (take offset (sl_data buf) ++ bytes ++ drop (offset + length bytes) (sl_data buf)))
  else Panic.
Definition write_u16 (buf : slice) (offset : nat) (value : Z) : TpmResult slice :=
  copy_at buf offset (be_encode 2 value).
Definition write_u32 (buf : slice) (offset : nat) (value : Z) : TpmResult slice :=
  copy_at buf offset (be_encode 4 value).

Definition frame_prefix_size (buf : slice) : TpmResult Z :=
  if sl_len buf <? HEADER_SIZE then Err (UnexpectedEnd 0 HEADER_SIZE (sl_len buf))
  else
    let? size := read_u32 buf SIZE_OFFSET in
    if size <? HEADER_SIZE then Err (UnexpectedEnd (Z.of_nat SIZE_OFFSET) HEADER_SIZE size)
    else if sl_len buf <? size then
      let? needed := usub size (sl_len buf) in
      Err (UnexpectedEnd (sl_len buf) needed 0)
    else Ok size.

Definition validate_frame_size (buf : slice) : TpmResult () :=
  let? size := frame_prefix_size buf in
  if size <? sl_len buf then
    let? extra := usub (sl_len buf) size in Err (TrailingData size extra)
  else Ok ().

(** [handle_area_size(handles, offset)] *)
Definition handle_area_size (handles : Z) (offset : Z) : TpmResult Z :=
  ok_or (checked_mul handles 4) (IntegerTooLarge offset (tpm_value handles)).

Definition read_tag (buf : slice) : TpmResult TpmSt.t :=
  let? raw := read_u16 buf TAG_OFFSET in
  map_err (λ _, InvalidTag (Z.of_nat TAG_OFFSET) raw) (try_from TpmSt.t raw).

Definition command_code (buf : slice) : TpmResult TpmCc.t :=
  let? raw := read_u32 buf CODE_OFFSET in
  map_err (λ _, InvalidCc (Z.of_nat CODE_OFFSET) raw) (try_from TpmCc.t raw).

(** [skip_tpm2b(base, buf)] *)
Definition skip_tpm2b (base buf : slice) : TpmResult slice :=
  if sl_len buf <? 2 then Err (UnexpectedEnd (tpm_offset base buf) 2 (sl_len buf))
  else
    let? size := read_u16 buf 0 in
    let? end_ := ok_or (checked_add 2 size) (IntegerTooLarge (tpm_offset base buf) (tpm_value size)) in
    if sl_len buf <? end_ then Err (UnexpectedEnd (tpm_offset base buf) end_ (sl_len buf))
    else slice_from buf end_.

(** [validate_auth_commands(base, buf)]: [remaining] is how many sessions may
    still follow, [MAX_SESSIONS - count]. *)
Fixpoint auth_commands_loop (remaining : nat) (base buf : slice) : TpmResult () :=
  if sl_is_empty buf then Ok ()
  else
    match remaining with
    | O => Err (TooManyItems (tpm_offset base buf) MAX_SESSIONS (MAX_SESSIONS + 1))
    | S remaining =>
        if sl_len buf <? 4 then Err (UnexpectedEnd (tpm_offset base buf) 4 (sl_len buf))
        else
          let? buf := slice_from buf 4 in
          let? buf := skip_tpm2b base buf in
          if sl_is_empty buf then Err (UnexpectedEnd (tpm_offset base buf) 1 0)
          else
            let? buf := slice_from buf 1 in
            let? buf := skip_tpm2b base buf in
            auth_commands_loop remaining base buf
    end.
Definition validate_auth_commands (base buf : slice) : TpmResult () :=
  auth_commands_loop (Z.to_nat MAX_SESSIONS) base buf.

(** [validate_auth_responses(base, buf)] *)
Fixpoint auth_responses_loop (remaining : nat) (base buf : slice) : TpmResult () :=
  if sl_is_empty buf then Ok ()
  else
    match remaining with
    | O => Err (TooManyItems (tpm_offset base buf) MAX_SESSIONS (MAX_SESSIONS + 1))
    | S remaining =>
        let? buf := skip_tpm2b base buf in
        if sl_is_empty buf then Err (UnexpectedEnd (tpm_offset base buf) 1 0)
        else
          let? buf := slice_from buf 1 in
          let? buf := skip_tpm2b base buf in
          auth_responses_loop remaining base buf
    end.
Definition validate_auth_responses (base buf : slice) : TpmResult () :=
  auth_responses_loop (Z.to_nat MAX_SESSIONS) base buf.

(** ** Reference format of authorization areas *)

(** One session as the walk sees it: the fixed-size bytes in front (the
    handle of a command session, nothing in a response), the nonce, the
    attribute byte and the HMAC. *)
Record session_bytes := mk_session {
  sb_front : list byte; sb_nonce : list byte; sb_attributes : byte; sb_hmac : list byte }.

Definition session_format (s : session_bytes) : list byte :=
  sb_front s ++ Tpm2b.format (sb_nonce s) ++ [sb_attributes s] ++ Tpm2b.format (sb_hmac s).
Definition session_ok (front : nat) (s : session_bytes) : Prop :=
  length (sb_front s) = front ∧ zlen (sb_nonce s) ≤ u16_max ∧ zlen (sb_hmac s) ≤ u16_max.

(** An authorization area of at most [n] sessions. *)
Definition auth_format (front n : nat) (bs : list byte) : Prop :=
  ∃ ss, (length ss ≤ n)%nat ∧ Forall (session_ok front) ss ∧
        bs = concat (map session_format ss).

(** ** Laws *)

Lemma index_app s (l1 : list byte) b l2 :
  sl_data s = l1 ++ b :: l2 → index (E:=TpmError) s (length l1) = Ok b.
Proof. intros H. unfold index. rewrite H, list_lookup_middle by done. done. Qed.

Lemma read_u16_app s l1 v l2 :
  sl_data s = l1 ++ v ++ l2 → length v = 2%nat → read_u16 s (length l1) = Ok (be_decode v).
Proof.
  intros H Hv. destruct v as [|b0 [|b1 [|? ?]]]; try done. unfold read_u16.
  rewrite (index_app s l1 b0 (b1 :: l2)) by done. cbn [result_bind].
  replace (length l1 + 1)%nat with (length (l1 ++ [b0])) by (rewrite length_app; done).
  rewrite (index_app s (l1 ++ [b0]) b1 l2); [done|]. by rewrite H, <-app_assoc.
Qed.

Lemma read_u16_0 s v l2 :
  sl_data s = v ++ l2 → length v = 2%nat → read_u16 s 0 = Ok (be_decode v).
Proof. exact (read_u16_app s [] v l2). Qed.

Lemma read_u32_app s l1 v l2 :
  sl_data s = l1 ++ v ++ l2 → length v = 4%nat → read_u32 s (length l1) = Ok (be_decode v).
Proof.
  intros H Hv. destruct v as [|b0 [|b1 [|b2 [|b3 [|? ?]]]]]; try done. unfold read_u32.
  rewrite (index_app s l1 b0 (b1 :: b2 :: b3 :: l2)) by done. cbn [result_bind].
  replace (length l1 + 1)%nat with (length (l1 ++ [b0])) by (rewrite length_app; done).
  rewrite (index_app s (l1 ++ [b0]) b1 (b2 :: b3 :: l2)) by by rewrite H, <-app_assoc.
  cbn [result_bind].
  replace (length l1 + 2)%nat with (length (l1 ++ [b0; b1])) by (rewrite length_app; done).
  rewrite (index_app s (l1 ++ [b0; b1]) b2 (b3 :: l2)) by by rewrite H, <-app_assoc.
  cbn [result_bind].
  replace (length l1 + 3)%nat with (length (l1 ++ [b0; b1; b2])) by (rewrite length_app; done).
  by rewrite (index_app s (l1 ++ [b0; b1; b2]) b3 l2) by by rewrite H, <-app_assoc.
Qed.

Lemma read_u32_0 s v l2 :
  sl_data s = v ++ l2 → length v = 4%nat → read_u32 s 0 = Ok (be_decode v).
Proof. exact (read_u32_app s [] v l2). Qed.

Lemma be_decode_range n bs : length bs = n → 0 ≤ be_decode bs < 2 ^ (8 * Z.of_nat n).
Proof. intros <-. pose proof (be_decode_bound bs) as H. by unfold zlen in H. Qed.

(** *** Frames *)

(** A frame is its tag, size and code fields and its body. *)
Definition frame_bytes (tag size code : Z) (body : list byte) : list byte :=
  be_encode 2 tag ++ be_encode 4 size ++ be_encode 4 code ++ body.

Definition header_ok (tag size code : Z) : Prop :=
  0 ≤ tag ≤ u16_max ∧ 0 ≤ size ≤ u32_max ∧ 0 ≤ code ≤ u32_max.

Lemma zlen_frame_bytes t z c b : zlen (frame_bytes t z c b) = 10 + zlen b.
Proof. unfold frame_bytes. rewrite !zlen_app, !zlen_be_encode. lia. Qed.

Lemma split_prefix {A} n (l : list A) :
  Z.of_nat n ≤ zlen l → ∃ h t, l = h ++ t ∧ length h = n.
Proof.
  intros H. exists (take n l), (drop n l). rewrite take_drop, length_take.
  unfold zlen in H. split; [done | lia].
Qed.

(** An [n]-byte field is the encoding of its value. *)
Lemma field_value n (bs : list byte) :
  length bs = n → ∃ z, 0 ≤ z < 2 ^ (8 * Z.of_nat n) ∧ bs = be_encode n z.
Proof.
  intros H. exists (be_decode bs). split; [by apply be_decode_range|].
  by rewrite be_encode_decode.
Qed.

(** Every slice of ten bytes or more has a header. *)
Lemma header_split s :
  HEADER_SIZE ≤ sl_len s →
  ∃ t z c b, header_ok t z c ∧ sl_data s = frame_bytes t z c b.
Proof.
  unfold HEADER_SIZE, sl_len. intros H.
  destruct (split_prefix 2 (sl_data s)) as (h1 & d1 & E1 & H1); [lia|].
  rewrite E1 in *. rewrite zlen_app in H. unfold zlen in H at 1. rewrite H1 in H.
  destruct (split_prefix 4 d1) as (h2 & d2 & -> & H2); [lia|].
  rewrite zlen_app in H. unfold zlen in H at 1. rewrite H2 in H.
  destruct (split_prefix 4 d2) as (h3 & d3 & -> & H3); [lia|].
  apply field_value in H1 as (t & Ht & ->), H2 as (z & Hz & ->), H3 as (c & Hc & ->).
  exists t, z, c, d3. split; [|done]. unfold header_ok, u16_max, u32_max; simpl in *. lia.
Qed.

Section header_reads.
Context (s : slice) (t z c : Z) (b : list byte).
Hypothesis Hd : sl_data s = frame_bytes t z c b.
Hypothesis Hh : header_ok t z c.

Lemma read_tag_field : read_u16 s TAG_OFFSET = Ok t.
Proof using Hd Hh.
  unfold TAG_OFFSET. rewrite (read_u16_0 s (be_encode 2 t) (be_encode 4 z ++ be_encode 4 c ++ b))
    by (done || apply length_be_encode).
  destruct Hh as (? & _). rewrite be_decode_encode; [done|]. unfold u16_max in *; simpl; lia.
Qed.
Lemma read_size_field : read_u32 s SIZE_OFFSET = Ok z.
Proof using Hd Hh.
  change SIZE_OFFSET with 2%nat. rewrite <-(length_be_encode 2 t).
  rewrite (read_u32_app s (be_encode 2 t) (be_encode 4 z) (be_encode 4 c ++ b))
    by (done || apply length_be_encode).
  destruct Hh as (_ & ? & _). rewrite be_decode_encode; [done|]. unfold u32_max in *; simpl; lia.
Qed.
Lemma read_code_field : read_u32 s CODE_OFFSET = Ok c.
Proof using Hd Hh.
  assert (CODE_OFFSET = length (be_encode 2 t ++ be_encode 4 z)) as ->
    by by rewrite length_app, !length_be_encode.
  rewrite (read_u32_app s _ (be_encode 4 c) b)
    by (apply length_be_encode || by rewrite Hd, <-app_assoc).
  destruct Hh as (_ & _ & ?). rewrite be_decode_encode; [done|]. unfold u32_max in *; simpl; lia.
Qed.

Lemma frame_prefix_size_field :
  frame_prefix_size s =
    if z <? HEADER_SIZE then Err (UnexpectedEnd 2 HEADER_SIZE z)
    else if sl_len s <? z then Err (UnexpectedEnd (sl_len s) (z - sl_len s) 0)
    else Ok z.
Proof using Hd Hh.
  unfold frame_prefix_size. destruct (sl_len s <? HEADER_SIZE) eqn:Hl.
  { unfold sl_len in Hl. rewrite Hd, zlen_frame_bytes in Hl. pose proof (zlen_nonneg b).
    unfold HEADER_SIZE in Hl. lia. }
  rewrite read_size_field. cbn [result_bind].
  case_match; [done|]. case_match; [|done]. by rewrite usub_Ok by lia.
Qed.

Lemma validate_frame_size_field :
  validate_frame_size s =
    if z <? HEADER_SIZE then Err (UnexpectedEnd 2 HEADER_SIZE z)
    else if sl_len s <? z then Err (UnexpectedEnd (sl_len s) (z - sl_len s) 0)
    else if z <? sl_len s then Err (TrailingData z (sl_len s - z))
    else Ok ().
Proof using Hd Hh.
  unfold validate_frame_size. rewrite frame_prefix_size_field.
  case_match; [done|]. case_match; [done|]. cbn [result_bind].
  case_match; [|done]. by rewrite usub_Ok by lia.
Qed.
End header_reads.

Lemma validate_frame_size_short s :
  sl_len s < HEADER_SIZE →
  validate_frame_size s = Err (UnexpectedEnd 0 HEADER_SIZE (sl_len s)).
Proof.
  intros H. unfold validate_frame_size, frame_prefix_size.
  by rewrite (proj2 (Z.ltb_lt _ _) H).
Qed.

Lemma frame_prefix_size_spec s n :
  frame_prefix_size s = Ok n ↔
  10 ≤ n ≤ sl_len s ∧ ∃ t c b, header_ok t n c ∧ sl_data s = frame_bytes t n c b.
Proof.
  destruct (Z.lt_ge_cases (sl_len s) HEADER_SIZE) as [Hl|Hl].
  { unfold frame_prefix_size. rewrite (proj2 (Z.ltb_lt _ _) Hl). unfold HEADER_SIZE in Hl.
    split; [done | intros [? _]; lia]. }
  destruct (header_split s Hl) as (t & z & c & b & Hh & Hd).
  rewrite (frame_prefix_size_field s t z c b Hd Hh). unfold HEADER_SIZE in *. split.
  - case_match; [done|]. case_match; [done|]. intros [= ->]. split; [lia|]. by exists t, c, b.
  - intros (Hn & t' & c' & b' & Hh' & Hd').
    pose proof (read_size_field s t z c b Hd Hh) as E.
    rewrite (read_size_field s t' n c' b' Hd' Hh') in E. injection E as ->.
    case_match; [lia|]. case_match; [lia|]. done.
Qed.

Lemma frame_prefix_size_no_panic s : frame_prefix_size s ≠ Panic.
Proof.
  destruct (Z.lt_ge_cases (sl_len s) HEADER_SIZE) as [Hl|Hl].
  { unfold frame_prefix_size. by rewrite (proj2 (Z.ltb_lt _ _) Hl). }
  destruct (header_split s Hl) as (t & z & c & b & Hh & Hd).
  rewrite (frame_prefix_size_field s t z c b Hd Hh). by repeat case_match.
Qed.

(** The size check accepts exactly the frames whose size field is their
    length. *)
Lemma validate_frame_size_spec s :
  validate_frame_size s = Ok () ↔
  ∃ t c b, header_ok t (10 + zlen b) c ∧ sl_data s = frame_bytes t (10 + zlen b) c b.
Proof.
  unfold validate_frame_size. split.
  - intros (n & (Hn & t & c & b & Hh & Hd)%frame_prefix_size_spec & H)%result_bind_Ok_inv.
    destruct (n <? sl_len s) eqn:Hlt.
    { rewrite usub_Ok in H by lia. done. }
    assert (n = 10 + zlen b) as ->.
    { unfold sl_len in *. rewrite Hd, zlen_frame_bytes in *. lia. }
    by exists t, c, b.
  - intros (t & c & b & Hh & Hd). pose proof (zlen_nonneg b).
    assert (sl_len s = 10 + zlen b) as Hl by (unfold sl_len; by rewrite Hd, zlen_frame_bytes).
    rewrite (proj2 (frame_prefix_size_spec s (10 + zlen b))); [|split; [lia | by exists t, c, b]].
    cbn [result_bind]. case_match; [lia | done].
Qed.

Lemma validate_frame_size_no_panic s : validate_frame_size s ≠ Panic.
Proof.
  apply result_bind_not_Panic; [apply frame_prefix_size_no_panic|]. intros n _.
  case_match; [|done]. by rewrite usub_Ok by lia.
Qed.

(** *** Authorization areas *)

Lemma slice_from_spec {E} s n r :
  0 ≤ n → slice_from (E:=E) s n = Ok r ↔ ∃ bs, zlen bs = n ∧ consumes bs s r.
Proof.
  intros Hn. split.
  - unfold slice_from. case_match; [|done]. intros [= <-].
    exists (take (Z.to_nat n) (sl_data s)).
    assert (zlen (take (Z.to_nat n) (sl_data s)) = n) as Hl
      by (unfold zlen, sl_len, zlen in *; rewrite length_take; lia).
    split; [done|]. unfold consumes, sl_drop; simpl. by rewrite take_drop, Hl.
  - intros (bs & <- & Hc). by apply slice_from_app.
Qed.

Lemma slice_from_not_Panic {E} s n : n ≤ sl_len s → slice_from (E:=E) s n ≠ Panic.
Proof. unfold slice_from. intros. by rewrite (proj2 (Z.leb_le _ _)). Qed.

(** [skip_tpm2b] skips exactly one size-prefixed buffer. *)
Lemma skip_tpm2b_spec base s r :
  skip_tpm2b base s = Ok r ↔ ∃ b, zlen b ≤ u16_max ∧ consumes (Tpm2b.format b) s r.
Proof.
  unfold skip_tpm2b. destruct (sl_len s <? 2) eqn:Hl.
  { split; [done|]. intros (b & _ & Hc). pose proof (consumes_len _ _ _ Hc) as H.
    rewrite zlen_format in H. pose proof (zlen_nonneg b). pose proof (sl_len_nonneg r). lia. }
  destruct (split_prefix 2 (sl_data s)) as (h & d & Hd & Hh); [unfold sl_len in Hl; lia|].
  apply field_value in Hh as (z & Hz & ->). simpl in Hz.
  assert (read_u16 s 0 = Ok z) as ->.
  { rewrite (read_u16_0 s (be_encode 2 z) d) by (done || apply length_be_encode).
    by rewrite be_decode_encode. }
  cbn [result_bind]. rewrite checked_add_Some by (unfold usize_max; lia). cbn [ok_or result_bind].
  assert (sl_len s = 2 + zlen d) as Hlen
    by (unfold sl_len; rewrite Hd, zlen_app, zlen_be_encode; lia).
  split.
  - case_match; [done|]. intros (bs & Hbs & [Hc Ha])%slice_from_spec; [|lia].
    destruct (split_prefix 2 bs) as (h' & b & -> & Hh'); [lia|].
    rewrite zlen_app in Hbs. unfold zlen in Hbs at 1. rewrite Hh' in Hbs.
    rewrite Hd, <-app_assoc in Hc.
    apply app_inj_1 in Hc as [<- ->]; [|by rewrite Hh', length_be_encode].
    exists b. split; [unfold u16_max; lia|]. unfold Tpm2b.format. replace (zlen b) with z by lia.
    split; [by rewrite <-app_assoc|done].
  - intros (b & Hb & Hc). pose proof (zlen_nonneg b). pose proof (consumes_len _ _ _ Hc) as Hcl.
    rewrite zlen_format in Hcl. pose proof (sl_len_nonneg r).
    assert (z = zlen b) as ->.
    { destruct Hc as [Hc _]. rewrite Hd in Hc. unfold Tpm2b.format in Hc. rewrite <-app_assoc in Hc.
      apply app_inj_1 in Hc as [E _]; [|by rewrite !length_be_encode].
      apply (f_equal be_decode) in E. rewrite !be_decode_encode in E; [done|..];
        unfold u16_max in *; simpl; lia. }
    case_match; [lia|]. apply slice_from_spec; [lia|].
    exists (Tpm2b.format b). by rewrite zlen_format.
Qed.

Lemma skip_tpm2b_no_panic base s : skip_tpm2b base s ≠ Panic.
Proof.
  unfold skip_tpm2b. destruct (sl_len s <? 2) eqn:Hl; [done|].
  destruct (split_prefix 2 (sl_data s)) as (h & d & Hd & Hh); [unfold sl_len in Hl; lia|].
  rewrite (read_u16_0 s h d) by done. cbn [result_bind].
  destruct (checked_add _ _); cbn [ok_or result_bind]; [|done].
  case_match; [done|]. apply slice_from_not_Panic. lia.
Qed.

(** The part of a session both loops share: nonce, attributes, HMAC. *)
Definition session_tail (base buf : slice) (k : slice → TpmResult ()) : TpmResult () :=
  let? buf := skip_tpm2b base buf in
  if sl_is_empty buf then Err (UnexpectedEnd (tpm_offset base buf) 1 0)
  else
    let? buf := slice_from buf 1 in
    let? buf := skip_tpm2b base buf in
    k buf.

Lemma session_tail_spec base s k :
  session_tail base s k = Ok () ↔
  ∃ nonce a hmac r, zlen nonce ≤ u16_max ∧ zlen hmac ≤ u16_max ∧
    consumes (Tpm2b.format nonce ++ [a] ++ Tpm2b.format hmac) s r ∧ k r = Ok ().
Proof.
  unfold session_tail. split.
  - intros (s1 & (n & Hn & Hc1)%skip_tpm2b_spec & H)%result_bind_Ok_inv.
    destruct (sl_is_empty s1); [done|].
    apply result_bind_Ok_inv in H as (s2 & (a & Ha & Hc2)%slice_from_spec & H); [|lia].
    apply result_bind_Ok_inv in H as (s3 & (h & Hh & Hc3)%skip_tpm2b_spec & H).
    destruct a as [|a [|? ?]]; unfold zlen in Ha; simpl in Ha; try lia.
    exists n, a, h, s3. split_and!; try done.
    by do 2 (eapply consumes_trans; [done|]).
  - intros (n & a & h & r & Hn & Hh & Hc & Hk).
    apply consumes_split in Hc as (s1 & Hc1 & Hc).
    apply consumes_split in Hc as (s2 & Hc2 & Hc3).
    rewrite (proj2 (skip_tpm2b_spec base s s1)) by by exists n. cbn [result_bind].
    assert (sl_is_empty s1 = false) as ->.
    { unfold sl_is_empty. pose proof (consumes_len _ _ _ Hc2) as Hl.
      pose proof (sl_len_nonneg s2). change (zlen [a]) with 1 in Hl. lia. }
    rewrite (proj2 (slice_from_spec s1 1 s2 ltac:(lia))) by by exists [a]. cbn [result_bind].
    rewrite (proj2 (skip_tpm2b_spec base s2 r)) by by exists h. done.
Qed.

Lemma session_tail_no_panic base s k :
  (∀ r, k r ≠ Panic) → session_tail base s k ≠ Panic.
Proof.
  intros Hk. apply result_bind_not_Panic; [apply skip_tpm2b_no_panic|]. intros s1 _.
  destruct (sl_is_empty s1) eqn:He; [done|].
  apply result_bind_not_Panic.
  { apply slice_from_not_Panic. unfold sl_is_empty in He. pose proof (sl_len_nonneg s1). lia. }
  intros s2 _. apply result_bind_not_Panic; [apply skip_tpm2b_no_panic | done].
Qed.

Lemma sl_is_empty_nil s : sl_is_empty s = true ↔ sl_data s = [].
Proof. unfold sl_is_empty, sl_len, zlen. by destruct (sl_data s). Qed.

Lemma auth_format_nil front n : auth_format front n [].
Proof. exists []. split_and!; [simpl; lia | done | done]. Qed.

(** An area is empty or starts with a session. *)
Lemma auth_format_unfold front n bs :
  auth_format front n bs ↔
  bs = [] ∨ ∃ n' f nonce a hmac rest, n = S n' ∧ length f = front ∧
    zlen nonce ≤ u16_max ∧ zlen hmac ≤ u16_max ∧
    bs = f ++ (Tpm2b.format nonce ++ [a] ++ Tpm2b.format hmac) ++ rest ∧
    auth_format front n' rest.
Proof.
  split.
  - intros ([|s ss] & Hl & Hs & ->); [by left|]. right.
    inversion_clear Hs as [|? ? (Hf & Hn & Hh) Hss]. destruct n as [|n]; simpl in Hl; [lia|].
    exists n, (sb_front s), (sb_nonce s), (sb_attributes s), (sb_hmac s), (concat (map session_format ss)).
    split_and!; try done.
    + simpl. unfold session_format. by rewrite <-!app_assoc.
    + exists ss. split_and!; [lia | done | done].
  - intros [->|(n' & f & nonce & a & hmac & rest & -> & Hf & Hn & Hh & -> & ss & Hl & Hs & ->)];
      [apply auth_format_nil|].
    exists (mk_session f nonce a hmac :: ss). split_and!; [simpl; lia | by constructor |].
    cbn [map concat]. unfold session_format at 2. cbn [sb_front sb_nonce sb_attributes sb_hmac].
    by rewrite <-!app_assoc.
Qed.

(** [validate_auth_commands] accepts exactly the areas of at most
    [MAX_SESSIONS] command sessions. *)
Lemma auth_commands_spec n base s :
  auth_commands_loop n base s = Ok () ↔ auth_format 4 n (sl_data s).
Proof.
  revert s; induction n as [|n IH]; intros s; rewrite auth_format_unfold; cbn [auth_commands_loop];
    destruct (sl_is_empty s) eqn:He.
  - apply sl_is_empty_nil in He. split; [by left | done].
  - split; [done|]. intros [E|(? & ? & ? & ? & ? & ? & [=] & _)].
    by rewrite (proj2 (sl_is_empty_nil s) E) in He.
  - apply sl_is_empty_nil in He. split; [by left | done].
  - split.
    + destruct (sl_len s <? 4); [done|].
      intros (s1 & (f & Hf & Hc1)%slice_from_spec & H)%result_bind_Ok_inv; [|lia].
      apply session_tail_spec in H as (nonce & a & hmac & r & Hn & Hh & Hc2 & Hk%IH).
      right. exists n, f, nonce, a, hmac, (sl_data r). unfold zlen in Hf.
      split_and!; [done | lia | done | done | | done].
      destruct (consumes_trans _ _ _ _ _ Hc1 Hc2) as [-> _]. by rewrite <-!app_assoc.
    + intros [E|(n' & f & nonce & a & hmac & rest & [= <-] & Hf & Hn & Hh & Hd & Hr)].
      { by rewrite (proj2 (sl_is_empty_nil s) E) in He. }
      assert (zlen f = 4) as Hf4 by (unfold zlen; lia).
      assert (sl_len s <? 4 = false) as ->.
      { unfold sl_len. rewrite Hd, zlen_app, Hf4.
        match goal with |- context [4 + zlen ?x] => pose proof (zlen_nonneg x) end. lia. }
      destruct (consumes_split f ((Tpm2b.format nonce ++ [a] ++ Tpm2b.format hmac)) s
        (mk_slice (sl_addr s + zlen (f ++ Tpm2b.format nonce ++ [a] ++ Tpm2b.format hmac)) rest))
        as (s1 & Hc1 & Hc2); [split; [by rewrite Hd, <-!app_assoc | done]|].
      rewrite (proj2 (slice_from_spec s 4 s1 ltac:(lia))) by by exists f. cbn [result_bind].
      apply session_tail_spec. eexists nonce, a, hmac, _. split_and!; [done..|]. by apply IH.
Qed.

Lemma auth_responses_spec n base s :
  auth_responses_loop n base s = Ok () ↔ auth_format 0 n (sl_data s).
Proof.
  revert s; induction n as [|n IH]; intros s; rewrite auth_format_unfold; cbn [auth_responses_loop];
    destruct (sl_is_empty s) eqn:He.
  - apply sl_is_empty_nil in He. split; [by left | done].
  - split; [done|]. intros [E|(? & ? & ? & ? & ? & ? & [=] & _)].
    by rewrite (proj2 (sl_is_empty_nil s) E) in He.
  - apply sl_is_empty_nil in He. split; [by left | done].
  - rewrite (session_tail_spec base s (auth_responses_loop n base)). split.
    + intros (nonce & a & hmac & r & Hn & Hh & [Hd _] & Hk%IH). right.
      exists n, [], nonce, a, hmac, (sl_data r). by split_and!.
    + intros [E|(n' & f & nonce & a & hmac & rest & [= <-] & Hf%nil_length_inv & Hn & Hh & Hd & Hr)].
      { by rewrite (proj2 (sl_is_empty_nil s) E) in He. }
      subst f. eexists nonce, a, hmac, (mk_slice _ rest). split_and!; [done..| |by apply IH].
      by split.
Qed.

Lemma auth_commands_no_panic n base s : auth_commands_loop n base s ≠ Panic.
Proof.
  revert s; induction n as [|n IH]; intros s; cbn [auth_commands_loop];
    destruct (sl_is_empty s); [done..|].
  destruct (sl_len s <? 4) eqn:Hl; [done|].
  apply result_bind_not_Panic; [apply slice_from_not_Panic; lia|]. intros s1 _.
  by apply (session_tail_no_panic base s1).
Qed.

Lemma auth_responses_no_panic n base s : auth_responses_loop n base s ≠ Panic.
Proof.
  revert s; induction n as [|n IH]; intros s; cbn [auth_responses_loop];
    destruct (sl_is_empty s); [done..|].
  by apply (session_tail_no_panic base s).
Qed.

(** *** Ranges and typed header fields *)

Lemma slice_range_app {E} s pre mid post :
  sl_data s = pre ++ mid ++ post →
  slice_range (E:=E) s (zlen pre) (zlen pre + zlen mid) = Ok (mk_slice (sl_addr s + zlen pre) mid).
Proof.
  intros Hd. pose proof (zlen_nonneg pre). pose proof (zlen_nonneg mid). pose proof (zlen_nonneg post).
  unfold slice_range, sl_len. rewrite Hd, !zlen_app.
  rewrite (proj2 (Z.leb_le _ _)), (proj2 (Z.leb_le _ _)) by lia. cbn [andb].
  unfold sl_take, sl_drop; simpl. rewrite Hd. do 2 f_equal.
  unfold zlen. rewrite Nat2Z.id, drop_app_length.
  replace (Z.to_nat _) with (length mid) by lia. by rewrite take_app_length.
Qed.

Lemma slice_range_not_Panic {E} s a b : a ≤ b ≤ sl_len s → slice_range (E:=E) s a b ≠ Panic.
Proof. intros []. unfold slice_range. by rewrite !(proj2 (Z.leb_le _ _)). Qed.

Lemma slice_ok_sub s pre mid post :
  slice_ok s → sl_data s = pre ++ mid ++ post → slice_ok (mk_slice (sl_addr s + zlen pre) mid).
Proof.
  unfold slice_ok, sl_len. intros (? & ? & ?) Hd. rewrite Hd, !zlen_app in *. simpl.
  pose proof (zlen_nonneg pre). pose proof (zlen_nonneg mid). pose proof (zlen_nonneg post). lia.
Qed.

Lemma handles_bound v : (HANDLES (command v) ≤ 3)%nat ∧ (HANDLES (response v) ≤ 3)%nat.
Proof. split; destruct v; apply Nat.leb_le; reflexivity. Qed.

Lemma handle_area_size_Ok n o : (n ≤ 3)%nat → handle_area_size (Z.of_nat n) o = Ok (Z.of_nat n * 4).
Proof.
  intros H. unfold handle_area_size, checked_mul.
  rewrite (proj2 (Z.leb_le _ _)); [done | unfold usize_max; lia].
Qed.

Section typed_header.
Context (s : slice) (t z c : Z) (b : list byte).
Hypothesis Hd : sl_data s = frame_bytes t z c b.
Hypothesis Hh : header_ok t z c.

Lemma command_code_Ok cc : command_code s = Ok cc ↔ value cc = c.
Proof using Hd Hh.
  unfold command_code. rewrite (read_code_field s t z c b Hd Hh). cbn [result_bind].
  rewrite <-(try_from_Ok TpmCc.t c cc). destruct (try_from TpmCc.t c); split; simpl; congruence.
Qed.
Lemma read_tag_Ok tag : read_tag s = Ok tag ↔ value tag = t.
Proof using Hd Hh.
  unfold read_tag. rewrite (read_tag_field s t z c b Hd Hh). cbn [result_bind].
  rewrite <-(try_from_Ok TpmSt.t t tag). destruct (try_from TpmSt.t t); split; simpl; congruence.
Qed.
Lemma command_code_no_panic : command_code s ≠ Panic.
Proof using Hd Hh.
  unfold command_code. rewrite (read_code_field s t z c b Hd Hh). cbn [result_bind].
  apply map_err_not_Panic, (try_from_no_panic TpmCc.t).
Qed.
Lemma read_tag_no_panic : read_tag s ≠ Panic.
Proof using Hd Hh.
  unfold read_tag. rewrite (read_tag_field s t z c b Hd Hh). cbn [result_bind].
  apply map_err_not_Panic, (try_from_no_panic TpmSt.t).
Qed.
End typed_header.

Lemma st_value_range (tag : TpmSt.t) : 0 ≤ value tag ≤ u16_max.
Proof. exact (in_range_u16_inv (value tag) (value_range tag)). Qed.
Lemma cc_value_range (cc : TpmCc.t) : 0 ≤ value cc ≤ u32_max.
Proof. exact (in_range_u32_inv (value cc) (value_range cc)). Qed.

(** A 32-bit size in front of an area. *)
Lemma sized_area_split s :
  4 ≤ sl_len s →
  ∃ n rest, 0 ≤ n ≤ u32_max ∧ sl_data s = be_encode 4 n ++ rest ∧
            sl_len s = 4 + zlen rest ∧ read_u32 s 0 = Ok n.
Proof.
  intros H. destruct (split_prefix 4 (sl_data s)) as (h & d & Hd & Hh); [done|].
  pose proof Hh as Hl. apply field_value in Hh as (n & Hn & ->). simpl in Hn.
  exists n, d. split_and!; [unfold u32_max; lia | unfold u32_max; lia | done | |].
  - unfold sl_len. rewrite Hd, zlen_app, zlen_be_encode. lia.
  - rewrite (read_u32_0 s _ d Hd Hl), be_decode_encode; done.
Qed.

Lemma read_u32_sized s n rest :
  0 ≤ n ≤ u32_max → sl_data s = be_encode 4 n ++ rest → read_u32 s 0 = Ok n.
Proof.
  intros Hn Hd. rewrite (read_u32_0 s _ rest Hd) by apply length_be_encode.
  rewrite be_decode_encode; [done|]. unfold u32_max in Hn; simpl; lia.
Qed.

(** The tag check of both envelopes. *)
Section tag_check.
Context {A : Type} (k : TpmSt.t → TpmResult A).
Definition tag_check (raw : Z) : TpmResult A :=
  let? tag := map_err (λ _, InvalidTag (Z.of_nat TAG_OFFSET) raw) (try_from TpmSt.t raw) in
  if bool_decide (tag ≠ TpmSt.NoSessions) && bool_decide (tag ≠ TpmSt.Sessions) then
    Err (InvalidTag (Z.of_nat TAG_OFFSET) raw)
  else k tag.

Lemma tag_check_bad raw :
  raw ≠ value TpmSt.NoSessions → raw ≠ value TpmSt.Sessions → tag_check raw = Err (InvalidTag 0 raw).
Proof using Type.
  intros H1 H2. unfold tag_check. pose proof (enum_try_from_spec TpmSt.t raw) as Hs.
  destruct (try_from TpmSt.t raw) as [tag| |]; [|done|done]. cbn [map_err result_bind]. subst raw.
  rewrite !bool_decide_true; [done | by intros -> | by intros ->].
Qed.

Lemma tag_check_good tag :
  tag = TpmSt.NoSessions ∨ tag = TpmSt.Sessions → tag_check (value tag) = k tag.
Proof using Type.
  intros H. unfold tag_check. rewrite (proj2 (try_from_Ok TpmSt.t _ _) eq_refl).
  cbn [map_err result_bind]. by destruct H as [-> | ->].
Qed.
End tag_check.

Lemma body_slice s t z c b :
  sl_data s = frame_bytes t z c b →
  slice_from (E:=TpmError) s HEADER_SIZE = Ok (mk_slice (sl_addr s + HEADER_SIZE) b) ∧
  sl_len s = 10 + zlen b.
Proof.
  intros Hd. split; [|unfold sl_len; by rewrite Hd, zlen_frame_bytes].
  apply slice_from_spec; [done|]. exists (be_encode 2 t ++ be_encode 4 z ++ be_encode 4 c).
  rewrite !zlen_app, !zlen_be_encode. split; [done|]. split; cbn [sl_data sl_addr].
  - rewrite Hd. unfold frame_bytes. by rewrite <-!app_assoc.
  - by rewrite !zlen_app, !zlen_be_encode.
Qed.

(** *** Writes *)

Lemma copy_at_app s pre old bytes post :
  sl_data s = pre ++ old ++ post → length old = length bytes →
  copy_at s (length pre) bytes = Ok (mk_slice (sl_addr s) (pre ++ bytes ++ post)).
Proof.
  intros Hd Hl. unfold copy_at, sl_len. rewrite Hd, !zlen_app. pose proof (zlen_nonneg post).
  rewrite (proj2 (Z.leb_le _ _)) by (unfold zlen in *; lia).
  rewrite take_app_length.
  replace (length pre + length bytes)%nat with (length (pre ++ old)) by (rewrite length_app; lia).
  by rewrite (app_assoc pre old post), drop_app_length.
Qed.

Lemma write_tag_field s t z c b v :
  sl_data s = frame_bytes t z c b →
  write_u16 s TAG_OFFSET v = Ok (mk_slice (sl_addr s) (frame_bytes v z c b)).
Proof.
  intros Hd. apply (copy_at_app s [] (be_encode 2 t)); [exact Hd | by rewrite !length_be_encode].
Qed.

Lemma write_code_field s t z c b v :
  sl_data s = frame_bytes t z c b →
  write_u32 s CODE_OFFSET v = Ok (mk_slice (sl_addr s) (frame_bytes t z v b)).
Proof.
  intros Hd. unfold write_u32.
  assert (CODE_OFFSET = length (be_encode 2 t ++ be_encode 4 z)) as ->
    by by rewrite length_app, !length_be_encode.
  rewrite (copy_at_app s _ (be_encode 4 c) _ b).
  - unfold frame_bytes. by rewrite <-app_assoc.
  - rewrite Hd. unfold frame_bytes. by rewrite <-app_assoc.
  - by rewrite !length_be_encode.
Qed.
