(* ===== verification/Command.v ===== *)
(** [TpmCommand], the zero-copy command frame of [protocol/src/frame/wire.rs],
    the borrowed dispatch [TpmCommandView] and the typed [cast_frame] of a
    command body.

    A frame is the slice it borrows.  Operations on [&mut self] return the
    slice after the write. *)

From S2P Require Import Prelude Errors Writer Codec Integer Buffer Struct EnumMacro Enums.
From S2P Require Import BasicTypes Body Dispatch Envelope.

Module TpmCommand.
(** [validate_envelope]: the part after the size check. *)
Definition validate_body (buf : slice) (tag : TpmSt.t) : TpmResult () :=
  let? cc := command_code buf in
  let? dispatch := dispatch_for cc in
  let? body := slice_from buf HEADER_SIZE in
  let? handle_area_size := handle_area_size (Z.of_nat (dispatch_handles dispatch)) HEADER_SIZE in
  if sl_len body <? handle_area_size then
    Err (UnexpectedEnd HEADER_SIZE handle_area_size (sl_len body))
  else if bool_decide (tag = TpmSt.Sessions) then
    let? after_handles := slice_from body handle_area_size in
    if sl_len after_handles <? 4 then
      Err (UnexpectedEnd (HEADER_SIZE + handle_area_size) 4 (sl_len after_handles))
    else
      let? auth_size := read_u32 after_handles 0 in
      let? auth_end := ok_or (checked_add 4 auth_size)
        (IntegerTooLarge (HEADER_SIZE + handle_area_size) (tpm_value auth_size)) in
      if sl_len after_handles <? auth_end then
        Err (UnexpectedEnd (HEADER_SIZE + handle_area_size + 4) auth_size
               (saturating_sub (sl_len after_handles) 4))
      else Ok ()
  else Ok ().

Definition validate_envelope (buf : slice) : TpmResult () :=
  let? _ := validate_frame_size buf in
  let? raw_tag := read_u16 buf TAG_OFFSET in
  let? tag := map_err (λ _, InvalidTag (Z.of_nat TAG_OFFSET) raw_tag) (try_from TpmSt.t raw_tag) in
  if bool_decide (tag ≠ TpmSt.NoSessions) && bool_decide (tag ≠ TpmSt.Sessions) then
    Err (InvalidTag (Z.of_nat TAG_OFFSET) raw_tag)
  else validate_body buf tag.

(** [cast] and [cast_mut]; [cast_prefix] and [cast_prefix_mut]. *)
Definition cast (buf : slice) : TpmResult slice :=
  let? _ := validate_envelope buf in Ok buf.
Definition cast_prefix (buf : slice) : TpmResult (slice * slice) :=
  let? frame_len := frame_prefix_size buf in
  let? (frame, tail) := split_at buf frame_len in
  let? _ := validate_envelope frame in
  Ok (frame, tail).

Definition tag (self : slice) : TpmResult TpmSt.t := read_tag self.
Definition size (self : slice) : TpmResult Z := read_u32 self SIZE_OFFSET.
Definition cc (self : slice) : TpmResult TpmCc.t := command_code self.

Definition set_tag (self : slice) (tag : TpmSt.t) : TpmResult slice :=
  write_u16 self TAG_OFFSET (value tag).
Definition set_cc (self : slice) (cc : TpmCc.t) : TpmResult slice :=
  let? _ := dispatch_for cc in
  write_u32 self CODE_OFFSET (value cc).

Definition handle_area_range (self : slice) : TpmResult (Z * Z) :=
  let? cc := cc self in
  let? dispatch := dispatch_for cc in
  let? handle_area_size := handle_area_size (Z.of_nat (dispatch_handles dispatch)) HEADER_SIZE in
  let? handle_area_end := ok_or (checked_add HEADER_SIZE handle_area_size)
    (IntegerTooLarge HEADER_SIZE (tpm_value handle_area_size)) in
  if sl_len self <? handle_area_end then
    Err (UnexpectedEnd HEADER_SIZE handle_area_size (saturating_sub (sl_len self) HEADER_SIZE))
  else Ok (HEADER_SIZE, handle_area_end).

Definition session_and_parameter_ranges (self : slice) : TpmResult ((Z * Z) * (Z * Z)) :=
  let? handle_area := handle_area_range self in
  let? tag := tag self in
  let after_handles_start := handle_area.2 in
  if bool_decide (tag ≠ TpmSt.Sessions) then
    Ok ((after_handles_start, after_handles_start), (after_handles_start, sl_len self))
  else
    let? after_handles := slice_from self after_handles_start in
    if sl_len after_handles <? 4 then
      Err (UnexpectedEnd after_handles_start 4 (sl_len after_handles))
    else
      let? auth_size := read_u32 after_handles 0 in
      let? auth_end := ok_or (checked_add 4 auth_size)
        (IntegerTooLarge after_handles_start (tpm_value auth_size)) in
      if sl_len after_handles <? auth_end then
        Err (UnexpectedEnd (after_handles_start + 4) auth_size
               (saturating_sub (sl_len after_handles) 4))
      else
        let auth_start := after_handles_start + 4 in
        let auth_end := after_handles_start + auth_end in
        Ok ((auth_start, auth_end), (auth_end, sl_len self)).

(** [handles], [auth_area], [parameters] and their [_mut] forms: the
    sub-slice that is borrowed. *)
Definition handles (self : slice) : TpmResult slice :=
  let? range := handle_area_range self in
  slice_range self range.1 range.2.
Definition auth_area (self : slice) : TpmResult slice :=
  let? (auth_area, _) := session_and_parameter_ranges self in
  slice_range self auth_area.1 auth_area.2.
Definition parameters (self : slice) : TpmResult slice :=
  let? (_, parameters) := session_and_parameter_ranges self in
  slice_range self parameters.1 parameters.2.

Definition validate (self : slice) : TpmResult () :=
  let? _ := validate_envelope self in
  let? auth_area := auth_area self in
  validate_auth_commands self auth_area.

(** [unmarshal::<R>] *)
Definition unmarshal (R : Body) (self : slice) : TpmResult (body R) :=
  let? _ := validate self in
  let? cc := cc self in
  if bool_decide (cc ≠ CC R) then Err (InvalidCc (Z.of_nat CODE_OFFSET) (value cc))
  else
    let? handles := handles self in
    let? parameters := parameters self in
    TpmBody.unmarshal_body R handles parameters.

(** [cast_frame] of a command body, generated by [tpm_struct!]. *)
Definition cast_frame (R : Body) (buf : slice) : TpmResult slice :=
  let? command := cast buf in
  let? cc := cc command in
  if bool_decide (cc ≠ CC R) then Err (InvalidCc 6 (value cc)) else Ok command.
End TpmCommand.

(** [enum TpmCommandView]: a variant and the frame. *)
Module TpmCommandView.
Record t := mk { variant : TpmCc.t; command : slice }.

(** The match of [cast] on the command code, arm by arm. *)
Fixpoint select (arms : list TpmCc.t) (cc : TpmCc.t) (command : slice) : TpmResult t :=
  match arms with
  | [] => Err (InvalidCc 6 (value cc))
  | v :: arms =>
      if bool_decide (cc = CC (Dispatch.command v)) then Ok (mk v command)
      else select arms cc command
  end.

Definition cast (command : slice) : TpmResult t :=
  let? _ := TpmCommand.validate command in
  let? cc := TpmCommand.cc command in
  select dispatch_variants cc command.
Definition cast_frame (buf : slice) : TpmResult t :=
  let? command := TpmCommand.cast buf in
  cast command.
Definition cc (self : t) : TpmCc.t := CC (Dispatch.command (variant self)).
End TpmCommandView.

(** ** Reference format *)

Record command_parts := mk_command {
  cp_tag : TpmSt.t;
  cp_cc : TpmCc.t;
  cp_handles : list byte;
  cp_auth : list byte;
  cp_params : list byte
}.

(** What follows the handle area: with sessions, the size of the
    authorization area in front of it. *)
Definition auth_bytes (tag : TpmSt.t) (auth : list byte) : list byte :=
  if bool_decide (tag = TpmSt.Sessions) then be_encode 4 (zlen auth) ++ auth else [].

Definition command_body (p : command_parts) : list byte :=
  cp_handles p ++ auth_bytes (cp_tag p) (cp_auth p) ++ cp_params p.

Definition command_format (p : command_parts) : list byte :=
  frame_bytes (value (cp_tag p)) (10 + zlen (command_body p)) (value (cp_cc p)) (command_body p).

(** Where the authorization area and the parameters start. *)
Definition auth_offset (p : command_parts) : Z :=
  10 + zlen (cp_handles p) + if bool_decide (cp_tag p = TpmSt.Sessions) then 4 else 0.
Definition params_offset (p : command_parts) : Z := auth_offset p + zlen (cp_auth p).

Definition command_parts_ok (p : command_parts) : Prop :=
  (cp_tag p = TpmSt.NoSessions ∧ cp_auth p = [] ∨ cp_tag p = TpmSt.Sessions) ∧
  zlen (cp_handles p) = Z.of_nat (HANDLES (command (cp_cc p))) * 4 ∧
  10 + zlen (command_body p) ≤ u32_max.

(** ** Laws *)

Lemma zlen_auth_bytes tag a :
  zlen (auth_bytes tag a) = if bool_decide (tag = TpmSt.Sessions) then 4 + zlen a else 0.
Proof. unfold auth_bytes. case_bool_decide; [|done]. by rewrite zlen_app, zlen_be_encode. Qed.

Lemma validate_body_spec s tag t z c body :
  sl_data s = frame_bytes t z c body → header_ok t z c →
  TpmCommand.validate_body s tag = Ok () ↔
  ∃ cc h a ps, value cc = c ∧ zlen h = Z.of_nat (HANDLES (command cc)) * 4 ∧
    zlen a ≤ u32_max ∧ (tag ≠ TpmSt.Sessions → a = []) ∧ body = h ++ auth_bytes tag a ++ ps.
Proof.
  intros Hd Hh. unfold TpmCommand.validate_body.
  destruct (body_slice s t z c body Hd) as [Hb _]. split.
  - intros (cc & Hcc%(command_code_Ok s t z c body Hd Hh) & H)%result_bind_Ok_inv.
    rewrite dispatch_for_Ok in H. cbn [result_bind] in H. rewrite Hb in H. cbn [result_bind] in H.
    rewrite handle_area_size_Ok in H by apply handles_bound. cbn [result_bind dispatch_handles] in H.
    set (n := HANDLES (command cc)) in *. unfold sl_len in H at 1; cbn [sl_data] in H.
    destruct (zlen body <? Z.of_nat n * 4) eqn:Hl; [done|].
    destruct (split_prefix (n * 4) body) as (h & rest & -> & Hn); [lia|].
    assert (zlen h = Z.of_nat n * 4) as Hzn by (unfold zlen; lia).
    case_bool_decide as Htag.
    + rewrite <-Hzn in H.
      rewrite (slice_from_app _ h (mk_slice (sl_addr s + HEADER_SIZE + zlen h) rest)) in H by done.
      cbn [result_bind] in H. destruct (_ <? 4) eqn:H4; [done|].
      destruct (sized_area_split _ (proj1 (Z.ltb_ge _ _) H4)) as (m & d & Hm & Hmd & Hml & Hr).
      rewrite Hr in H. cbn [result_bind] in H.
      rewrite checked_add_Some in H by (unfold u32_max, usize_max in *; lia).
      cbn [ok_or result_bind] in H. rewrite Hml in H. cbn [sl_data] in Hmd.
      destruct (4 + zlen d <? 4 + m) eqn:Hdm; [done|].
      destruct (split_prefix (Z.to_nat m) d) as (a & ps & -> & Ha); [lia|].
      assert (zlen a = m) as <- by (unfold zlen; lia).
      exists cc, h, a, ps. split_and!; [done | done | lia | by intros ? |].
      unfold auth_bytes. rewrite bool_decide_true by done. by rewrite Hmd, <-app_assoc.
    + exists cc, h, [], rest. split_and!; [done | done | done | done |].
      unfold auth_bytes. by rewrite bool_decide_false.
  - intros (cc & h & a & ps & Hcc & Hn & Ha & Ht & ->).
    rewrite (proj2 (command_code_Ok s t z c _ Hd Hh cc) Hcc). cbn [result_bind].
    rewrite dispatch_for_Ok. cbn [result_bind]. rewrite Hb. cbn [result_bind dispatch_handles].
    rewrite handle_area_size_Ok by apply handles_bound. cbn [result_bind].
    rewrite <-Hn. unfold sl_len at 1; cbn [sl_data]. rewrite !zlen_app, zlen_auth_bytes.
    pose proof (zlen_nonneg a). pose proof (zlen_nonneg ps).
    case_bool_decide as Htag; (case_match; [lia|]); [|done].
    rewrite (slice_from_app _ h (mk_slice (sl_addr s + HEADER_SIZE + zlen h) (auth_bytes tag a ++ ps)))
      by done.
    cbn [result_bind]. unfold sl_len; cbn [sl_data].
    rewrite zlen_app, zlen_auth_bytes, bool_decide_true by done.
    case_match; [lia|].
    rewrite (read_u32_sized _ (zlen a) (a ++ ps)); [|lia|].
    2:{ cbn [sl_data]. unfold auth_bytes. by rewrite bool_decide_true, <-app_assoc by done. }
    cbn [result_bind]. rewrite checked_add_Some by (unfold u32_max, usize_max in *; lia).
    cbn [ok_or result_bind]. case_match; [lia | done].
Qed.

Lemma command_header_ok p :
  command_parts_ok p →
  header_ok (value (cp_tag p)) (10 + zlen (command_body p)) (value (cp_cc p)).
Proof.
  intros (_ & _ & Hl). pose proof (zlen_nonneg (command_body p)).
  split; [apply st_value_range|]. split; [lia | apply cc_value_range].
Qed.

(** The checks of the envelope, in order. *)
Lemma command_envelope_field s t z c body :
  sl_data s = frame_bytes t z c body → header_ok t z c →
  TpmCommand.validate_envelope s =
    (let? _ := validate_frame_size s in tag_check (TpmCommand.validate_body s) t).
Proof.
  intros Hd Hh. unfold TpmCommand.validate_envelope.
  destruct (validate_frame_size s); [|done|done]. cbn [result_bind].
  by rewrite (read_tag_field s t z c body Hd Hh).
Qed.

Lemma validate_body_bad_cc s tag t z c body :
  sl_data s = frame_bytes t z c body → header_ok t z c → (∀ cc : TpmCc.t, value cc ≠ c) →
  TpmCommand.validate_body s tag = Err (InvalidCc 6 c).
Proof.
  intros Hd Hh Hc. unfold TpmCommand.validate_body, command_code.
  rewrite (read_code_field s t z c body Hd Hh). cbn [result_bind].
  pose proof (enum_try_from_spec TpmCc.t c) as Hs.
  destruct (try_from TpmCc.t c) as [cc| |]; [by destruct (Hc cc) | done | done].
Qed.

Lemma validate_body_short s tag t z cc body :
  sl_data s = frame_bytes t z (value cc) body → header_ok t z (value cc) →
  zlen body < Z.of_nat (HANDLES (command cc)) * 4 →
  TpmCommand.validate_body s tag =
    Err (UnexpectedEnd 10 (Z.of_nat (HANDLES (command cc)) * 4) (zlen body)).
Proof.
  intros Hd Hh Hl. unfold TpmCommand.validate_body.
  rewrite (proj2 (command_code_Ok s t z _ body Hd Hh cc) eq_refl). cbn [result_bind].
  rewrite dispatch_for_Ok. cbn [result_bind dispatch_handles].
  destruct (body_slice s t z _ body Hd) as [-> _]. cbn [result_bind].
  rewrite handle_area_size_Ok by apply handles_bound. cbn [result_bind].
  unfold sl_len; cbn [sl_data]. by rewrite (proj2 (Z.ltb_lt _ _) Hl).
Qed.

(** [validate_envelope], hence [cast], accepts exactly the command frames. *)
Lemma command_envelope_spec s :
  TpmCommand.validate_envelope s = Ok () ↔
  ∃ p, command_parts_ok p ∧ sl_data s = command_format p.
Proof.
  unfold TpmCommand.validate_envelope. split.
  - intros ([] & (t & c & b & Hh & Hd)%validate_frame_size_spec & H)%result_bind_Ok_inv.
    rewrite (read_tag_field s _ _ _ b Hd Hh) in H. cbn [result_bind] in H.
    apply result_bind_Ok_inv in H as (tag & Ht%map_err_Ok_inv & H).
    apply (try_from_Ok TpmSt.t) in Ht as <-.
    destruct (_ && _) eqn:Htag in H; [done|].
    apply (validate_body_spec s tag _ _ _ b Hd Hh) in H as (cc & h & a & ps & <- & Hn & Ha & Hna & ->).
    exists (mk_command tag cc h a ps). split; [|done]. split_and!; cbn.
    + apply andb_false_iff in Htag.
      rewrite !bool_decide_eq_false in Htag. destruct (decide (tag = TpmSt.Sessions)) as [->|Hs].
      * by right.
      * left. split; [|by apply Hna]. destruct Htag as [Htag|Htag]; by apply dec_stable.
    + done.
    + destruct Hh as (_ & ? & _). unfold command_body; cbn. lia.
  - intros (p & Hp & Hd). pose proof (command_header_ok p Hp) as Hh.
    destruct Hp as (Htag & Hn & Hl). destruct p as [tag cc h a ps].
    cbn [cp_tag cp_cc cp_handles cp_auth cp_params] in *.
    unfold command_format in Hd. cbn [cp_tag cp_cc] in Hd.
    set (b := command_body _) in *.
    rewrite (proj2 (validate_frame_size_spec s)) by (eexists _, _, b; split; [exact Hh | exact Hd]). cbn [result_bind].
    rewrite (read_tag_field s _ _ _ b Hd Hh). cbn [result_bind].
    rewrite (try_from_value tag). cbn [map_err result_bind].
    assert (bool_decide (tag ≠ TpmSt.NoSessions) && bool_decide (tag ≠ TpmSt.Sessions) = false) as ->.
    { destruct Htag as [[-> _] | ->]; reflexivity. }
    apply (validate_body_spec s tag _ _ _ b Hd Hh). exists cc, h, a, ps. split_and!; try done.
    + unfold b, command_body in Hl; cbn [cp_tag cp_cc cp_handles cp_auth cp_params] in Hl. rewrite !zlen_app, zlen_auth_bytes in Hl.
      pose proof (zlen_nonneg h). pose proof (zlen_nonneg ps). unfold u32_max.
      destruct Htag as [[_ ->] | ->]; [done|]. rewrite bool_decide_true in Hl by done.
      unfold u32_max in Hl. lia.
    + intros Hs. by destruct Htag as [[_ ?]|?].
Qed.

Lemma validate_body_no_panic s tag t z c body :
  sl_data s = frame_bytes t z c body → header_ok t z c →
  TpmCommand.validate_body s tag ≠ Panic.
Proof.
  intros Hd Hh. unfold TpmCommand.validate_body.
  apply result_bind_not_Panic; [by eapply command_code_no_panic|]. intros cc _.
  rewrite dispatch_for_Ok. cbn [result_bind].
  destruct (body_slice s t z c body Hd) as [-> _]. cbn [result_bind dispatch_handles].
  rewrite handle_area_size_Ok by apply handles_bound. cbn [result_bind].
  case_match; [done|]. case_match; [|done].
  apply result_bind_not_Panic; [apply slice_from_not_Panic; lia|]. intros after _.
  destruct (sl_len after <? 4) eqn:H4; [done|].
  destruct (sized_area_split after) as (n & rest & _ & _ & _ & ->); [lia|]. cbn [result_bind].
  destruct (checked_add _ _); cbn [ok_or result_bind]; [|done]. by case_match.
Qed.

Lemma command_envelope_no_panic s : TpmCommand.validate_envelope s ≠ Panic.
Proof.
  apply result_bind_not_Panic; [apply validate_frame_size_no_panic|].
  intros [] (t & c & b & Hh & Hd)%validate_frame_size_spec.
  rewrite (read_tag_field s _ _ _ b Hd Hh). cbn [result_bind].
  apply result_bind_not_Panic; [apply map_err_not_Panic, (try_from_no_panic TpmSt.t)|].
  intros tag _. case_match; [done|]. by eapply validate_body_no_panic.
Qed.

Lemma zlen_command_format p : zlen (command_format p) = 10 + zlen (command_body p).
Proof. unfold command_format. by rewrite zlen_frame_bytes. Qed.

(** The accessors return the parts of the frame, borrowed from it. *)
Section command_accessors.
Context (s : slice) (p : command_parts).
Hypothesis Hp : command_parts_ok p.
Hypothesis Hd : sl_data s = command_format p.

Lemma frame_prefix :
  ∃ hd, zlen hd = 10 ∧ sl_data s = hd ++ cp_handles p ++ auth_bytes (cp_tag p) (cp_auth p) ++ cp_params p.
Proof using Hd.
  exists (be_encode 2 (value (cp_tag p)) ++ be_encode 4 (10 + zlen (command_body p)) ++
          be_encode 4 (value (cp_cc p))).
  rewrite !zlen_app, !zlen_be_encode. split; [done|].
  rewrite Hd. unfold command_format, frame_bytes, command_body. by rewrite <-!app_assoc.
Qed.

Lemma frame_len_format :
  sl_len s = 10 + zlen (cp_handles p) + zlen (auth_bytes (cp_tag p) (cp_auth p)) + zlen (cp_params p).
Proof using Hd.
  destruct frame_prefix as (hd & Hl & E). unfold sl_len. rewrite E, !zlen_app. lia.
Qed.

Lemma handle_area_range_format : TpmCommand.handle_area_range s = Ok (10, 10 + zlen (cp_handles p)).
Proof using Hp Hd.
  destruct Hp as (Htag & Hn & Hl). pose proof (command_header_ok p Hp) as Hh.
  unfold TpmCommand.handle_area_range, TpmCommand.cc.
  rewrite (proj2 (command_code_Ok s _ _ _ _ Hd Hh (cp_cc p)) eq_refl). cbn [result_bind].
  rewrite dispatch_for_Ok. cbn [result_bind dispatch_handles].
  rewrite handle_area_size_Ok by apply handles_bound. cbn [result_bind].
  rewrite <-Hn. pose proof (handles_bound (cp_cc p)).
  rewrite checked_add_Some by (unfold HEADER_SIZE, usize_max; lia). cbn [ok_or result_bind].
  rewrite frame_len_format. pose proof (zlen_nonneg (auth_bytes (cp_tag p) (cp_auth p))).
  pose proof (zlen_nonneg (cp_params p)). unfold HEADER_SIZE. case_match; [lia | done].
Qed.

Lemma ranges_format :
  TpmCommand.session_and_parameter_ranges s =
    Ok ((auth_offset p, params_offset p), (params_offset p, sl_len s)).
Proof using Hp Hd.
  unfold TpmCommand.session_and_parameter_ranges. rewrite handle_area_range_format.
  cbn [result_bind snd]. destruct Hp as (Htag & Hn & Hl).
  pose proof (command_header_ok p Hp) as Hh. unfold TpmCommand.tag.
  rewrite (proj2 (read_tag_Ok s _ _ _ _ Hd Hh (cp_tag p)) eq_refl). cbn [result_bind].
  pose proof frame_len_format as Hlen. rewrite zlen_auth_bytes in Hlen.
  unfold params_offset, auth_offset.
  case_bool_decide as Hs; case_bool_decide as Hs'; try done;
    [|destruct Htag as [[_ ->]|?]; [change (zlen []) with 0; by rewrite !Z.add_0_r | done]].
  - destruct frame_prefix as (hd & Hhd & E). rewrite app_assoc in E.
    rewrite <-Hhd. rewrite <-zlen_app.
    rewrite (slice_from_app s (hd ++ cp_handles p) (mk_slice (sl_addr s + zlen (hd ++ cp_handles p))
      (auth_bytes (cp_tag p) (cp_auth p) ++ cp_params p))) by by split.
    cbn [result_bind]. unfold sl_len at 1 2 3 4; cbn [sl_data].
    pose proof (zlen_nonneg (cp_auth p)). pose proof (zlen_nonneg (cp_params p)).
    unfold command_body in Hl. rewrite !zlen_app, zlen_auth_bytes, bool_decide_true in Hl |- * by done.
    pose proof (zlen_nonneg (cp_handles p)). unfold u32_max in Hl.
    case_match; [lia|].
    rewrite (read_u32_sized _ (zlen (cp_auth p)) (cp_auth p ++ cp_params p)); [|unfold u32_max; lia|].
    2:{ cbn [sl_data]. unfold auth_bytes. by rewrite bool_decide_true, <-app_assoc by done. }
    cbn [result_bind]. rewrite checked_add_Some by (unfold usize_max in *; lia).
    cbn [ok_or result_bind]. case_match; [lia|]. by rewrite Z.add_assoc.
Qed.

Lemma tag_format : TpmCommand.tag s = Ok (cp_tag p).
Proof using Hp Hd. by apply (read_tag_Ok s _ _ _ _ Hd (command_header_ok p Hp)). Qed.
Lemma cc_format : TpmCommand.cc s = Ok (cp_cc p).
Proof using Hp Hd. by apply (command_code_Ok s _ _ _ _ Hd (command_header_ok p Hp)). Qed.
Lemma size_format : TpmCommand.size s = Ok (sl_len s).
Proof using Hp Hd.
  unfold TpmCommand.size. rewrite (read_size_field s _ _ _ _ Hd (command_header_ok p Hp)).
  by rewrite (proj2 (body_slice s _ _ _ _ Hd)).
Qed.

Lemma handles_format : TpmCommand.handles s = Ok (mk_slice (sl_addr s + 10) (cp_handles p)).
Proof using Hp Hd.
  unfold TpmCommand.handles. rewrite handle_area_range_format. cbn [result_bind fst snd].
  destruct frame_prefix as (hd & Hhd & E). rewrite <-Hhd. by eapply slice_range_app.
Qed.

Lemma auth_split :
  ∃ pre, zlen pre = auth_offset p ∧ sl_data s = pre ++ cp_auth p ++ cp_params p.
Proof using Hp Hd.
  destruct frame_prefix as (hd & Hhd & E). destruct Hp as (Htag & _).
  unfold auth_offset, auth_bytes in *. case_bool_decide as Hs.
  - exists (hd ++ cp_handles p ++ be_encode 4 (zlen (cp_auth p))).
    rewrite E, !zlen_app, zlen_be_encode, <-!app_assoc. split; [lia | done].
  - destruct Htag as [[_ ->]|?]; [|done]. exists (hd ++ cp_handles p).
    rewrite E, zlen_app, <-!app_assoc. split; [lia | done].
Qed.

Lemma auth_area_format :
  TpmCommand.auth_area s = Ok (mk_slice (sl_addr s + auth_offset p) (cp_auth p)).
Proof using Hp Hd.
  unfold TpmCommand.auth_area. rewrite ranges_format. cbn [result_bind fst snd].
  destruct auth_split as (pre & Hpre & E). unfold params_offset. rewrite <-Hpre.
  by eapply slice_range_app.
Qed.

Lemma parameters_format :
  TpmCommand.parameters s = Ok (mk_slice (sl_addr s + params_offset p) (cp_params p)).
Proof using Hp Hd.
  unfold TpmCommand.parameters. rewrite ranges_format. cbn [result_bind fst snd].
  destruct auth_split as (pre & Hpre & E). rewrite app_assoc in E.
  unfold params_offset. rewrite <-Hpre, <-zlen_app.
  assert (sl_len s = zlen (pre ++ cp_auth p) + zlen (cp_params p)) as ->
    by (unfold sl_len; rewrite E, (zlen_app (pre ++ _)); done).
  apply (slice_range_app s (pre ++ cp_auth p) (cp_params p) []). by rewrite app_nil_r.
Qed.

Lemma parts_slice_ok :
  slice_ok s →
  slice_ok (mk_slice (sl_addr s + 10) (cp_handles p)) ∧
  slice_ok (mk_slice (sl_addr s + auth_offset p) (cp_auth p)) ∧
  slice_ok (mk_slice (sl_addr s + params_offset p) (cp_params p)).
Proof using Hp Hd.
  intros Hok. destruct frame_prefix as (hd & Hhd & E). destruct auth_split as (pre & Hpre & E').
  split_and!.
  - rewrite <-Hhd. by eapply slice_ok_sub.
  - rewrite <-Hpre. by eapply slice_ok_sub.
  - unfold params_offset. rewrite <-Hpre, <-zlen_app.
    apply (slice_ok_sub s (pre ++ cp_auth p) (cp_params p) []); [done|].
    by rewrite app_nil_r, <-app_assoc.
Qed.

(** [validate] adds the walk over the authorization area. *)
Lemma command_validate_format :
  TpmCommand.validate s = Ok () ↔ auth_format 4 (Z.to_nat MAX_SESSIONS) (cp_auth p).
Proof using Hp Hd.
  unfold TpmCommand.validate. rewrite (proj2 (command_envelope_spec s)) by by exists p.
  cbn [result_bind]. rewrite auth_area_format. cbn [result_bind].
  unfold validate_auth_commands. by rewrite auth_commands_spec.
Qed.
End command_accessors.

Lemma command_cast_spec s s' :
  TpmCommand.cast s = Ok s' ↔ s' = s ∧ ∃ p, command_parts_ok p ∧ sl_data s = command_format p.
Proof.
  rewrite <-command_envelope_spec. unfold TpmCommand.cast.
  destruct (TpmCommand.validate_envelope s) as [[]| |]; simpl; split; try done.
  - by intros [= <-].
  - by intros [-> _].
  - by intros [_ ?].
  - by intros [_ ?].
Qed.

(** [unmarshal] accepts exactly the valid frames of [R]'s command code whose
    areas are the encoding of a body. *)
Lemma command_unmarshal_spec R `{!FieldsOk (Body.parameters R)} s v :
  slice_ok s →
  TpmCommand.unmarshal R s = Ok v ↔
  ∃ p, command_parts_ok p ∧ sl_data s = command_format p ∧ cp_cc p = CC R ∧
       auth_format 4 (Z.to_nat MAX_SESSIONS) (cp_auth p) ∧
       TpmBody.wire R v = Some (cp_handles p, cp_params p).
Proof.
  intros Hok. unfold TpmCommand.unmarshal. split.
  - intros ([] & Hv & H)%result_bind_Ok_inv. pose proof Hv as He.
    apply result_bind_Ok_inv in He as ([] & (p & Hp & Hd)%command_envelope_spec & _).
    exists p. apply (command_validate_format s p Hp Hd) in Hv.
    rewrite (cc_format s p Hp Hd) in H. cbn [result_bind] in H.
    case_bool_decide as Hcc; [done|].
    rewrite (handles_format s p Hp Hd), (parameters_format s p Hp Hd) in H. cbn [result_bind] in H.
    destruct (parts_slice_ok s p Hp Hd Hok) as (H1 & H2 & H3).
    by apply unmarshal_body_spec in H.
  - intros (p & Hp & Hd & Hcc & Ha & Hw).
    rewrite (proj2 (command_validate_format s p Hp Hd) Ha). cbn [result_bind].
    rewrite (cc_format s p Hp Hd). cbn [result_bind]. rewrite bool_decide_false by by intros [].
    rewrite (handles_format s p Hp Hd), (parameters_format s p Hp Hd). cbn [result_bind].
    destruct (parts_slice_ok s p Hp Hd Hok) as (H1 & H2 & H3).
    by apply unmarshal_body_spec.
Qed.

(** *** Frames whose bytes have changed since the cast

    [set_tag], [set_cc] and the [_mut] accessors may leave any bytes of the
    same length; the operations still do not panic. *)

Section command_no_panic.
Context (s : slice).
Hypothesis Hs : HEADER_SIZE ≤ sl_len s.

Lemma command_tag_no_panic : TpmCommand.tag s ≠ Panic.
Proof using Hs.
  destruct (header_split s Hs) as (t & z & c & b & Hh & Hd). by eapply read_tag_no_panic.
Qed.
Lemma command_cc_no_panic : TpmCommand.cc s ≠ Panic.
Proof using Hs.
  destruct (header_split s Hs) as (t & z & c & b & Hh & Hd). by eapply command_code_no_panic.
Qed.

Lemma handle_area_range_bounds r :
  TpmCommand.handle_area_range s = Ok r → r.1 = 10 ∧ 10 ≤ r.2 ≤ sl_len s.
Proof using Type.
  unfold TpmCommand.handle_area_range. intros (cc & _ & H)%result_bind_Ok_inv.
  rewrite dispatch_for_Ok in H. cbn [result_bind dispatch_handles] in H.
  rewrite handle_area_size_Ok in H by apply handles_bound. cbn [result_bind] in H.
  pose proof (handles_bound cc).
  rewrite checked_add_Some in H by (unfold HEADER_SIZE, usize_max; lia). cbn [ok_or result_bind] in H.
  destruct (_ <? _) eqn:Hl in H; [done|]. injection H as <-. unfold HEADER_SIZE in *; simpl. lia.
Qed.

Lemma handle_area_range_no_panic : TpmCommand.handle_area_range s ≠ Panic.
Proof using Hs.
  apply result_bind_not_Panic; [apply command_cc_no_panic|]. intros cc _.
  rewrite dispatch_for_Ok. cbn [result_bind dispatch_handles].
  rewrite handle_area_size_Ok by apply handles_bound. cbn [result_bind].
  destruct (checked_add _ _); cbn [ok_or result_bind]; [|done]. by case_match.
Qed.

Lemma ranges_bounds a ps :
  TpmCommand.session_and_parameter_ranges s = Ok (a, ps) →
  10 ≤ a.1 ≤ a.2 ∧ a.2 = ps.1 ∧ ps.1 ≤ ps.2 ∧ ps.2 = sl_len s.
Proof using Type.
  unfold TpmCommand.session_and_parameter_ranges.
  intros (r & Hr%handle_area_range_bounds & H)%result_bind_Ok_inv.
  apply result_bind_Ok_inv in H as (tag & _ & H). cbv zeta in H.
  case_bool_decide; [injection H as <- <-; simpl; lia|].
  apply result_bind_Ok_inv in H as (after & (pre & Hpre & Hc)%slice_from_spec & H); [|lia].
  destruct (_ <? 4) eqn:H4 in H; [done|].
  destruct (sized_area_split after) as (n & rest & Hn & _ & Hl & E); [lia|].
  rewrite E in H. cbn [result_bind] in H.
  apply result_bind_Ok_inv in H as (e & [-> _]%ok_or_Ok_inv%checked_add_Some_inv & H).
  destruct (_ <? 4 + n) eqn:Hln in H; [done|]. injection H as <- <-. simpl.
  pose proof (consumes_len _ _ _ Hc). lia.
Qed.

Lemma ranges_no_panic : TpmCommand.session_and_parameter_ranges s ≠ Panic.
Proof using Hs.
  apply result_bind_not_Panic; [apply handle_area_range_no_panic|].
  intros r Hr%handle_area_range_bounds.
  apply result_bind_not_Panic; [apply command_tag_no_panic|]. intros tag _. cbv zeta.
  case_match; [done|].
  apply result_bind_not_Panic; [apply slice_from_not_Panic; lia|]. intros after _.
  destruct (_ <? 4) eqn:H4; [done|].
  destruct (sized_area_split after) as (n & rest & _ & _ & _ & ->); [lia|]. cbn [result_bind].
  destruct (checked_add _ _); cbn [ok_or result_bind]; [|done]. by case_match.
Qed.

Lemma command_areas_no_panic :
  TpmCommand.handles s ≠ Panic ∧ TpmCommand.auth_area s ≠ Panic ∧
  TpmCommand.parameters s ≠ Panic.
Proof using Hs.
  split_and!; (apply result_bind_not_Panic;
    [first [apply handle_area_range_no_panic | apply ranges_no_panic]|]).
  - intros r Hr%handle_area_range_bounds. apply slice_range_not_Panic. lia.
  - intros [a ps] Hr%ranges_bounds. apply slice_range_not_Panic. lia.
  - intros [a ps] Hr%ranges_bounds. apply slice_range_not_Panic. lia.
Qed.

Lemma command_validate_no_panic : TpmCommand.validate s ≠ Panic.
Proof using Hs.
  apply result_bind_not_Panic; [apply command_envelope_no_panic|]. intros _ _.
  apply result_bind_not_Panic; [apply command_areas_no_panic|]. intros a _.
  apply auth_commands_no_panic.
Qed.

Lemma command_unmarshal_no_panic R `{!FieldsOk (Body.parameters R)} :
  slice_ok s → TpmCommand.unmarshal R s ≠ Panic.
Proof using Hs.
  intros Hok. apply result_bind_not_Panic; [apply command_validate_no_panic|]. intros [] Hv.
  apply result_bind_Ok_inv in Hv as ([] & (p & Hp & Hd)%command_envelope_spec & _).
  rewrite (cc_format s p Hp Hd). cbn [result_bind]. case_match; [done|].
  rewrite (handles_format s p Hp Hd), (parameters_format s p Hp Hd). cbn [result_bind].
  destruct (parts_slice_ok s p Hp Hd Hok) as (H1 & H2 & H3). by apply unmarshal_body_no_panic.
Qed.
End command_no_panic.

(** The setters overwrite their field and nothing else. *)
Lemma set_tag_spec s t z c b tag :
  sl_data s = frame_bytes t z c b →
  TpmCommand.set_tag s tag = Ok (mk_slice (sl_addr s) (frame_bytes (value tag) z c b)).
Proof.
  intros Hd. by eapply write_tag_field.
Qed.

Lemma set_cc_spec s t z c b cc :
  sl_data s = frame_bytes t z c b →
  TpmCommand.set_cc s cc = Ok (mk_slice (sl_addr s) (frame_bytes t z (value cc) b)).
Proof.
  intros Hd. unfold TpmCommand.set_cc. rewrite dispatch_for_Ok. cbn [result_bind].
  by eapply write_code_field.
Qed.

(** ** [cast_prefix] *)

Lemma command_cast_prefix_spec s f r :
  TpmCommand.cast_prefix s = Ok (f, r) ↔
  ∃ p, command_parts_ok p ∧ f = mk_slice (sl_addr s) (command_format p) ∧
       consumes (command_format p) s r.
Proof.
  unfold TpmCommand.cast_prefix. split.
  - intros (n & (Hn & t & c & b & Hh & Hd)%frame_prefix_size_spec & H)%result_bind_Ok_inv.
    apply result_bind_Ok_inv in H as ([f' r'] & (Hl & Ha & Hc)%split_at_Ok & H); [|lia].
    apply result_bind_Ok_inv in H as ([] & (p & Hp & Hd')%command_envelope_spec & [= <- <-]).
    exists p. rewrite <-Hd'. split_and!; [done | by apply slice_eq | done].
  - intros (p & Hp & -> & Hc). pose proof (command_header_ok p Hp) as Hh.
    pose proof (consumes_len _ _ _ Hc) as Hl. pose proof (sl_len_nonneg r).
    pose proof (zlen_nonneg (command_body p)). pose proof (zlen_command_format p) as Hf.
    rewrite (proj2 (frame_prefix_size_spec s (10 + zlen (command_body p)))).
    + cbn [result_bind]. rewrite <-Hf, (split_at_app _ _ _ Hc). cbn [result_bind].
      rewrite (proj2 (command_envelope_spec _)); [reflexivity|]. exists p. split; [exact Hp | reflexivity].
    + split; [lia|]. eexists _, _, (command_body p ++ sl_data r). split; [exact Hh|].
      destruct Hc as [-> _]. unfold command_format, frame_bytes. by rewrite <-!app_assoc.
Qed.

Lemma command_cast_prefix_no_panic s : TpmCommand.cast_prefix s ≠ Panic.
Proof.
  apply result_bind_not_Panic; [apply frame_prefix_size_no_panic|].
  intros n (Hn & _)%frame_prefix_size_spec.
  apply result_bind_not_Panic; [apply split_at_not_Panic; lia|]. intros [f r] _.
  apply result_bind_not_Panic; [apply command_envelope_no_panic | done].
Qed.

(** ** Borrowed dispatch *)

(** Every command code selects the variant of its own name. *)
Lemma command_select_Ok cc s :
  TpmCommandView.select dispatch_variants cc s = Ok (TpmCommandView.mk cc s).
Proof.
  pose proof (dispatch_variants_complete cc) as Hin. induction dispatch_variants as [|v vs IH].
  { by apply elem_of_nil in Hin. }
  cbn [TpmCommandView.select]. rewrite command_CC. case_bool_decide as E; [by subst|].
  apply IH. by apply elem_of_cons in Hin as [?|?].
Qed.

Lemma command_view_spec s vw :
  TpmCommandView.cast s = Ok vw ↔
  TpmCommand.validate s = Ok () ∧ ∃ cc, TpmCommand.cc s = Ok cc ∧ vw = TpmCommandView.mk cc s.
Proof.
  unfold TpmCommandView.cast. split.
  - intros ([] & Hv & H)%result_bind_Ok_inv. split; [done|].
    apply result_bind_Ok_inv in H as (cc & Hcc & H). rewrite command_select_Ok in H.
    injection H as <-. by exists cc.
  - intros (-> & cc & Hcc & ->). cbn [result_bind]. rewrite Hcc. cbn [result_bind].
    apply command_select_Ok.
Qed.
