(* ===== verification/Response.v ===== *)
(** [TpmResponse], the zero-copy response frame of
    [protocol/src/frame/wire.rs], and the borrowed dispatch
    [TpmResponseView] with its outcome. *)

From S2P Require Import Prelude Errors Writer Codec Integer Buffer Struct EnumMacro Enums Rc.
From S2P Require Import BasicTypes Union Body Dispatch Envelope.

(** [matches!(rc, TpmRc::Fmt0(TpmRcBase::Success))] *)
Definition is_success (rc : TpmRc.t) : bool :=
  match rc with TpmRc.Fmt0 TpmRcBase.Success => true | _ => false end.

Module TpmResponse.
Definition rc (self : slice) : TpmResult TpmRc.t :=
  let? raw := read_u32 self CODE_OFFSET in
  map_err (λ _, InvalidRc (Z.of_nat CODE_OFFSET) raw) (TpmRc.try_from raw).

Definition validate_envelope (buf : slice) : TpmResult () :=
  let? _ := validate_frame_size buf in
  let? raw_tag := read_u16 buf TAG_OFFSET in
  let? tag := map_err (λ _, InvalidTag (Z.of_nat TAG_OFFSET) raw_tag) (try_from TpmSt.t raw_tag) in
  if bool_decide (tag ≠ TpmSt.NoSessions) && bool_decide (tag ≠ TpmSt.Sessions) then
    Err (InvalidTag (Z.of_nat TAG_OFFSET) raw_tag)
  else
    let? raw_rc := read_u32 buf CODE_OFFSET in
    let? _ := map_err (λ _, InvalidRc (Z.of_nat CODE_OFFSET) raw_rc) (TpmRc.try_from raw_rc) in
    Ok ().

(** [cast] and [cast_mut]; [cast_prefix] and [cast_prefix_mut]. *)
Definition cast (buf : slice) : TpmResult slice :=
  let? _ := validate_envelope buf in Ok buf.
Definition cast_prefix (buf : slice) : TpmResult (slice * slice) :=
  let? frame_len := frame_prefix_size buf in
  let? (frame, tail) := split_at buf frame_len in
  let? _ := validate_envelope frame in
  Ok (frame, tail).

Definition tag (self : slice) : TpmResult TpmSt.t := read_tag self.
Definition size (self : slice) : TpmResult Z := read_u32 self SIZE_OFFSET.

Definition set_tag (self : slice) (tag : TpmSt.t) : TpmResult slice :=
  write_u16 self TAG_OFFSET (value tag).
Definition set_rc (self : slice) (rc : TpmRc.t) : TpmResult slice :=
  write_u32 self CODE_OFFSET (TpmRc.value rc).

(** [body] and [body_mut] *)
Definition body (self : slice) : TpmResult slice := slice_from self HEADER_SIZE.

Definition validate (self : slice) (cc : TpmCc.t) : TpmResult () :=
  let? _ := validate_envelope self in
  let? dispatch := dispatch_for cc in
  let? tag := tag self in
  let? rc := rc self in
  if negb (is_success rc) then
    if bool_decide (tag ≠ TpmSt.NoSessions) then
      Err (InvalidTag (Z.of_nat TAG_OFFSET) (value tag))
    else if negb (sl_len self =? HEADER_SIZE) then
      Err (TrailingData HEADER_SIZE (saturating_sub (sl_len self) HEADER_SIZE))
    else Ok ()
  else
    let? handle_area_size :=
      handle_area_size (Z.of_nat (dispatch_response_handles dispatch)) HEADER_SIZE in
    let? body := body self in
    if sl_len body <? handle_area_size then
      Err (UnexpectedEnd HEADER_SIZE handle_area_size (sl_len body))
    else if bool_decide (tag ≠ TpmSt.Sessions) then Ok ()
    else
      let? after_handles := slice_from body handle_area_size in
      if sl_len after_handles <? 4 then
        Err (UnexpectedEnd (HEADER_SIZE + handle_area_size) 4 (sl_len after_handles))
      else
        let? params_len := read_u32 after_handles 0 in
        let? sessions_start := ok_or (checked_add 4 params_len)
          (IntegerTooLarge (HEADER_SIZE + handle_area_size) (tpm_value params_len)) in
        if sl_len after_handles <? sessions_start then
          Err (UnexpectedEnd (HEADER_SIZE + handle_area_size + 4) params_len
                 (saturating_sub (sl_len after_handles) 4))
        else
          let? sessions := slice_from after_handles sessions_start in
          validate_auth_responses self sessions.

(** [body_parts::<R>] *)
Definition body_parts (R : Body) (self : slice) : TpmResult (slice * slice) :=
  let? handle_area_size := handle_area_size (Z.of_nat (HANDLES R)) HEADER_SIZE in
  let? body := body self in
  if sl_len body <? handle_area_size then
    Err (UnexpectedEnd HEADER_SIZE handle_area_size (sl_len body))
  else
    let? (handles, after_handles) := split_at body handle_area_size in
    let? tag := tag self in
    if bool_decide (tag ≠ TpmSt.Sessions) then Ok (handles, after_handles)
    else
      let? (parameter_size, after_size) := Codec.unmarshal TpmUint32 after_handles in
      let parameter_size := TpmInt.value 4 false parameter_size in
      if sl_len after_size <? parameter_size then
        Err (UnexpectedEnd (HEADER_SIZE + handle_area_size + 4) parameter_size (sl_len after_size))
      else
        let? parameters := slice_range after_size 0 parameter_size in
        Ok (handles, parameters).

(** [unmarshal::<R>] *)
Definition unmarshal (R : Body) (self : slice) : TpmResult (Body.body R) :=
  let? _ := validate self (CC R) in
  let? (handles, parameters) := body_parts R self in
  TpmBody.unmarshal_body R handles parameters.

(** [cast_frame] of a response body, generated by [tpm_struct!]. *)
Definition cast_frame (buf : slice) : TpmResult slice := cast buf.
End TpmResponse.

(** [enum TpmResponseView] and [enum TpmResponseOutcome] *)
Module TpmResponseView.
Record t := mk { variant : TpmCc.t; response : slice }.

Inductive outcome :=
| Dispatched (view : t)
| Rejected (rc : TpmRc.t).

(** The match of [cast] on the command code, arm by arm. *)
Fixpoint select (arms : list TpmCc.t) (cc : TpmCc.t) (response : slice) : TpmResult outcome :=
  match arms with
  | [] => Err (InvalidCc 0 (value cc))
  | v :: arms =>
      if bool_decide (cc = CC (Dispatch.command v)) then Ok (Dispatched (mk v response))
      else select arms cc response
  end.

Definition cast (cc : TpmCc.t) (response : slice) : TpmResult outcome :=
  let? rc := TpmResponse.rc response in
  if negb (is_success rc) then Ok (Rejected rc)
  else
    let? _ := TpmResponse.validate response cc in
    select dispatch_variants cc response.
Definition cast_frame (cc : TpmCc.t) (buf : slice) : TpmResult outcome :=
  let? response := TpmResponse.cast buf in
  cast cc response.
Definition cc (self : t) : TpmCc.t := CC (Dispatch.command (variant self)).
End TpmResponseView.

(** ** Reference format *)

(** What the envelope fixes: the tag, a response code and the body. *)
Record response_envelope := mk_envelope {
  re_tag : TpmSt.t; re_rc : TpmRc.t; re_body : list byte }.

Definition envelope_format (p : response_envelope) : list byte :=
  frame_bytes (value (re_tag p)) (10 + zlen (re_body p)) (TpmRc.value (re_rc p)) (re_body p).

Definition envelope_ok (p : response_envelope) : Prop :=
  (re_tag p = TpmSt.NoSessions ∨ re_tag p = TpmSt.Sessions) ∧
  TpmRc.well_formed (re_rc p) = true ∧ 10 + zlen (re_body p) ≤ u32_max.

(** The body of a successful response: with sessions, the parameters are
    preceded by their size and followed by the authorization area. *)
Definition success_body (tag : TpmSt.t) (handles params auth : list byte) : list byte :=
  if bool_decide (tag = TpmSt.Sessions) then handles ++ be_encode 4 (zlen params) ++ params ++ auth
  else handles ++ params.

(** ** Laws *)

Lemma rc_try_from_Ok raw rc :
  0 ≤ raw ≤ u32_max →
  TpmRc.try_from raw = Ok rc ↔ TpmRc.well_formed rc = true ∧ TpmRc.value rc = raw.
Proof.
  intros Hr. split.
  - intros H. pose proof (rc_try_from_spec raw Hr) as Hs. by rewrite H in Hs.
  - intros [Hw <-]. by apply rc_value_spec.
Qed.

Lemma rc_try_from_no_panic raw : 0 ≤ raw ≤ u32_max → TpmRc.try_from raw ≠ Panic.
Proof. intros Hr H. pose proof (rc_try_from_spec raw Hr) as Hs. by rewrite H in Hs. Qed.

Lemma envelope_header_ok p :
  envelope_ok p → header_ok (value (re_tag p)) (10 + zlen (re_body p)) (TpmRc.value (re_rc p)).
Proof.
  intros (_ & Hw & Hl). pose proof (zlen_nonneg (re_body p)).
  split; [apply st_value_range|]. split; [lia|]. by apply rc_value_spec.
Qed.

Lemma response_rc_Ok s t z c b rc :
  sl_data s = frame_bytes t z c b → header_ok t z c →
  TpmResponse.rc s = Ok rc ↔ TpmRc.well_formed rc = true ∧ TpmRc.value rc = c.
Proof.
  intros Hd Hh. unfold TpmResponse.rc. rewrite (read_code_field s t z c b Hd Hh). cbn [result_bind].
  destruct Hh as (_ & _ & Hc). rewrite <-(rc_try_from_Ok c rc Hc).
  destruct (TpmRc.try_from c); split; simpl; congruence.
Qed.

(** The checks of the envelope, in order. *)
Lemma response_envelope_field s t z c b :
  sl_data s = frame_bytes t z c b → header_ok t z c →
  TpmResponse.validate_envelope s =
    (let? _ := validate_frame_size s in
     tag_check (λ _, let? _ := map_err (λ _, InvalidRc 6 c) (TpmRc.try_from c) in Ok ()) t).
Proof.
  intros Hd Hh. unfold TpmResponse.validate_envelope.
  destruct (validate_frame_size s); [|done|done]. cbn [result_bind].
  rewrite (read_tag_field s t z c b Hd Hh). cbn [result_bind].
  by rewrite (read_code_field s t z c b Hd Hh).
Qed.

Lemma rc_try_from_undefined c :
  0 ≤ c ≤ u32_max → (∀ rc, TpmRc.well_formed rc = true → TpmRc.value rc ≠ c) →
  TpmRc.try_from c = Err (InvalidRc 0 c).
Proof.
  intros Hc Hn. pose proof (rc_try_from_spec c Hc) as Hs.
  destruct (TpmRc.try_from c) as [rc|e|]; [|by subst|done].
  destruct Hs as [Hw Hv]. by destruct (Hn rc Hw).
Qed.

(** [validate_envelope], hence [cast], accepts exactly the frames with a
    session tag and a defined response code. *)
Lemma response_envelope_spec s :
  TpmResponse.validate_envelope s = Ok () ↔ ∃ p, envelope_ok p ∧ sl_data s = envelope_format p.
Proof.
  unfold TpmResponse.validate_envelope. split.
  - intros ([] & (t & c & b & Hh & Hd)%validate_frame_size_spec & H)%result_bind_Ok_inv.
    rewrite (read_tag_field s _ _ _ b Hd Hh) in H. cbn [result_bind] in H.
    apply result_bind_Ok_inv in H as (tag & Ht%map_err_Ok_inv & H).
    apply (try_from_Ok TpmSt.t) in Ht as <-.
    destruct (_ && _) eqn:Htag in H; [done|].
    rewrite (read_code_field s _ _ _ b Hd Hh) in H. cbn [result_bind] in H.
    apply result_bind_Ok_inv in H as (rc & Hrc%map_err_Ok_inv & _).
    pose proof Hh as (_ & Hz & Hc).
    apply (rc_try_from_Ok c rc Hc) in Hrc as [Hw <-].
    exists (mk_envelope tag rc b). split; [|done]. split_and!; cbn; [|done|lia].
    apply andb_false_iff in Htag. rewrite !bool_decide_eq_false in Htag.
    destruct Htag as [Htag|Htag]; apply dec_stable in Htag; auto.
  - intros (p & Hp & Hd). pose proof (envelope_header_ok p Hp) as Hh.
    destruct Hp as (Htag & Hw & Hl).
    rewrite (proj2 (validate_frame_size_spec s))
      by (eexists _, _, (re_body p); split; [exact Hh | exact Hd]). cbn [result_bind].
    rewrite (read_tag_field s _ _ _ _ Hd Hh). cbn [result_bind].
    rewrite (try_from_value (re_tag p)). cbn [map_err result_bind].
    assert (bool_decide (re_tag p ≠ TpmSt.NoSessions) && bool_decide (re_tag p ≠ TpmSt.Sessions) = false) as ->
      by (destruct Htag as [-> | ->]; reflexivity).
    rewrite (read_code_field s _ _ _ _ Hd Hh). cbn [result_bind].
    by rewrite (proj1 (rc_value_spec _ Hw)).
Qed.

Lemma response_envelope_no_panic s : TpmResponse.validate_envelope s ≠ Panic.
Proof.
  apply result_bind_not_Panic; [apply validate_frame_size_no_panic|].
  intros [] (t & c & b & Hh & Hd)%validate_frame_size_spec.
  rewrite (read_tag_field s _ _ _ b Hd Hh). cbn [result_bind].
  apply result_bind_not_Panic; [apply map_err_not_Panic, (try_from_no_panic TpmSt.t)|].
  intros tag _. case_match; [done|].
  rewrite (read_code_field s _ _ _ b Hd Hh). cbn [result_bind].
  apply result_bind_not_Panic; [|done]. apply map_err_not_Panic, rc_try_from_no_panic, Hh.
Qed.

Lemma response_cast_spec s s' :
  TpmResponse.cast s = Ok s' ↔ s' = s ∧ ∃ p, envelope_ok p ∧ sl_data s = envelope_format p.
Proof.
  rewrite <-response_envelope_spec. unfold TpmResponse.cast.
  destruct (TpmResponse.validate_envelope s) as [[]| |]; simpl; split; try done.
  - by intros [= <-].
  - by intros [-> _].
  - by intros [_ ?].
  - by intros [_ ?].
Qed.

Section response_accessors.
Context (s : slice) (p : response_envelope).
Hypothesis Hp : envelope_ok p.
Hypothesis Hd : sl_data s = envelope_format p.

Lemma response_tag_format : TpmResponse.tag s = Ok (re_tag p).
Proof using Hp Hd. by apply (read_tag_Ok s _ _ _ _ Hd (envelope_header_ok p Hp)). Qed.
Lemma response_rc_format : TpmResponse.rc s = Ok (re_rc p).
Proof using Hp Hd.
  apply (response_rc_Ok s _ _ _ _ _ Hd (envelope_header_ok p Hp)). split; [apply Hp | done].
Qed.
Lemma response_size_format : TpmResponse.size s = Ok (sl_len s).
Proof using Hp Hd.
  unfold TpmResponse.size. rewrite (read_size_field s _ _ _ _ Hd (envelope_header_ok p Hp)).
  by rewrite (proj2 (body_slice s _ _ _ _ Hd)).
Qed.
Lemma response_body_format :
  TpmResponse.body s = Ok (mk_slice (sl_addr s + HEADER_SIZE) (re_body p)).
Proof using Hd. by apply (body_slice s _ _ _ _ Hd). Qed.

(** A failed response is a bare header. *)
Lemma response_validate_error cc :
  is_success (re_rc p) = false →
  TpmResponse.validate s cc = Ok () ↔ re_tag p = TpmSt.NoSessions ∧ re_body p = [].
Proof using Hp Hd.
  intros He. unfold TpmResponse.validate.
  rewrite (proj2 (response_envelope_spec s)) by by exists p. cbn [result_bind].
  rewrite dispatch_for_Ok, response_tag_format, response_rc_format. cbn [result_bind].
  rewrite He. cbn [negb]. destruct (body_slice s _ _ _ _ Hd) as [_ ->].
  case_bool_decide as Ht; [split; [done|]; by intros [? _]|].
  split; [|by intros [_ ->]].
  destruct (_ =? _) eqn:Hl; [|done]. intros _. split; [done|].
  apply Z.eqb_eq in Hl. unfold HEADER_SIZE in Hl. apply zlen_nil_inv. lia.
Qed.
End response_accessors.

(** The parts of a successful response's body. *)
Definition success_parts (n : nat) (p : response_envelope) (h ps a : list byte) : Prop :=
  re_body p = success_body (re_tag p) h ps a ∧ zlen h = Z.of_nat n * 4 ∧
  auth_format 0 (Z.to_nat MAX_SESSIONS) a ∧ (re_tag p ≠ TpmSt.Sessions → a = []).

Lemma success_parts_nil p :
  re_tag p = TpmSt.NoSessions → re_body p = [] → success_parts 0 p [] [] [].
Proof.
  intros Ht Hb. split_and!; [|done|apply auth_format_nil|done].
  unfold success_body. by rewrite Ht, Hb.
Qed.

(** Where the parameters of a response start. *)
Definition response_params_offset (tag : TpmSt.t) (h : list byte) : Z :=
  10 + zlen h + if bool_decide (tag = TpmSt.Sessions) then 4 else 0.

Section response_success.
Context (s : slice) (p : response_envelope).
Hypothesis Hp : envelope_ok p.
Hypothesis Hd : sl_data s = envelope_format p.

(** The parts of a body with sessions are determined by it. *)
Lemma sized_parts_inj h rest m d h' ps a :
  re_body p = h ++ rest → 0 ≤ m ≤ u32_max → rest = be_encode 4 m ++ d → zlen h' = zlen h →
  re_body p = h' ++ be_encode 4 (zlen ps) ++ ps ++ a → m = zlen ps ∧ d = ps ++ a.
Proof using Hp.
  intros Eb Hm Hmd Hh' E. pose proof Hp as (_ & _ & Hlen). rewrite E, !zlen_app in Hlen.
  pose proof (zlen_nonneg h'). pose proof (zlen_nonneg a). pose proof (zlen_nonneg ps).
  pose proof (zlen_nonneg (be_encode 4 (zlen ps))).
  rewrite Eb in E. apply app_inj_1 in E as [-> E]; [|unfold zlen in *; lia].
  rewrite Hmd in E. apply app_inj_1 in E as [E <-]; [|by rewrite !length_be_encode].
  split; [|done]. apply (f_equal be_decode) in E.
  by rewrite !be_decode_encode in E by (unfold u32_max in *; simpl; lia).
Qed.

(** What [validate] does behind the handles of a response with sessions. *)
Lemma response_sessions_spec h rest (body := mk_slice (sl_addr s + HEADER_SIZE + zlen h) rest) :
  re_body p = h ++ rest →
  (if sl_len body <? 4 then
     Err (UnexpectedEnd (HEADER_SIZE + zlen h) 4 (sl_len body))
   else
     let? params_len := read_u32 body 0 in
     let? sessions_start := ok_or (checked_add 4 params_len)
       (IntegerTooLarge (HEADER_SIZE + zlen h) (tpm_value params_len)) in
     if sl_len body <? sessions_start then
       Err (UnexpectedEnd (HEADER_SIZE + zlen h + 4) params_len (saturating_sub (sl_len body) 4))
     else
       let? sessions := slice_from body sessions_start in
       validate_auth_responses s sessions) = Ok () ↔
  ∃ h' ps a, re_body p = h' ++ be_encode 4 (zlen ps) ++ ps ++ a ∧ zlen h' = zlen h ∧
    auth_format 0 (Z.to_nat MAX_SESSIONS) a.
Proof using Hp.
  intros Eb. destruct (sl_len body <? 4) eqn:H4.
  { split; [done|]. intros (h' & ps & a & E & Hn' & _). rewrite Eb in E.
    apply app_inj_1 in E as [_ E]; [|unfold zlen in *; lia].
    apply Z.ltb_lt in H4. unfold sl_len, body in H4; cbn [sl_data] in H4.
    rewrite E, !zlen_app, zlen_be4 in H4. pose proof (zlen_nonneg ps). pose proof (zlen_nonneg a). lia. }
  destruct (sized_area_split _ (proj1 (Z.ltb_ge _ _) H4)) as (m & d & Hm & Hmd & Hml & ->).
  cbn [result_bind]. rewrite checked_add_Some by (unfold u32_max, usize_max in *; lia).
  cbn [ok_or result_bind]. rewrite Hml. change (sl_data body) with rest in Hmd.
  pose proof (sized_parts_inj h rest m d) as Hinv.
  destruct (4 + zlen d <? 4 + m) eqn:Hdm.
  { split; [done|]. intros (h' & ps & a & E & Hn' & _).
    destruct (Hinv h' ps a Eb Hm Hmd Hn' E) as [-> ->]. apply Z.ltb_lt in Hdm. rewrite zlen_app in Hdm.
    pose proof (zlen_nonneg a). lia. }
  destruct (split_prefix (Z.to_nat m) d) as (ps & a & -> & Hps); [lia|].
  assert (zlen ps = m) as <- by (unfold zlen; lia).
  assert (consumes (be_encode 4 (zlen ps) ++ ps) body
    (mk_slice (sl_addr s + HEADER_SIZE + zlen h + (4 + zlen ps)) a)) as Hc.
  { split; cbn [body sl_data sl_addr]; [by rewrite Hmd, <-app_assoc | by rewrite zlen_app, zlen_be4]. }
  apply (slice_from_app (E:=TpmError)) in Hc. rewrite zlen_app, zlen_be4 in Hc. rewrite Hc.
  cbn [result_bind]. unfold validate_auth_responses. rewrite auth_responses_spec. cbn [sl_data].
  split.
  - intros Ha. exists h, ps, a. split_and!; [by rewrite Eb, Hmd | done | done].
  - intros (h' & ps' & a' & E & Hn' & Ha).
    destruct (Hinv h' ps' a' Eb Hm Hmd Hn' E) as [El E2].
    apply app_inj_1 in E2 as [_ ->]; [done|]. unfold zlen in El; lia.
Qed.

Lemma response_validate_success cc :
  is_success (re_rc p) = true →
  TpmResponse.validate s cc = Ok () ↔ ∃ h ps a, success_parts (HANDLES (response cc)) p h ps a.
Proof using Hp Hd.
  intros He. unfold TpmResponse.validate.
  rewrite (proj2 (response_envelope_spec s)) by by exists p. cbn [result_bind].
  rewrite dispatch_for_Ok, (response_tag_format s p), (response_rc_format s p) by done.
  cbn [result_bind]. rewrite He. cbn [negb dispatch_response_handles].
  rewrite handle_area_size_Ok by apply handles_bound. cbn [result_bind].
  rewrite (response_body_format s p) by done. cbn [result_bind]. unfold sl_len at 1 2; cbn [sl_data].
  set (n := HANDLES (response cc)). unfold success_parts, success_body.
  destruct (zlen (re_body p) <? Z.of_nat n * 4) eqn:Hl.
  { split; [done|]. intros (h & ps & a & E & Hn & _). rewrite E in Hl. apply Z.ltb_lt in Hl.
    case_bool_decide; rewrite !zlen_app, ?zlen_be4 in Hl;
      pose proof (zlen_nonneg ps); pose proof (zlen_nonneg a); lia. }
  destruct (split_prefix (n * 4) (re_body p)) as (h & rest & Eb & Hn); [lia|].
  assert (zlen h = Z.of_nat n * 4) as Hzn by (unfold zlen; lia).
  case_bool_decide as Ht; case_bool_decide as Ht'; try done.
  - split; [|done]. intros _. exists h, rest, []. split_and!; [done | done | apply auth_format_nil | done].
  - rewrite <-Hzn.
    rewrite (slice_from_app _ h (mk_slice (sl_addr s + HEADER_SIZE + zlen h) rest))
      by by (split; cbn [sl_data sl_addr]).
    cbn [result_bind]. rewrite (response_sessions_spec h rest Eb).
    split; intros (h' & ps & a & H); exists h', ps, a; tauto.
Qed.

Lemma body_parts_format R h ps a :
  slice_ok s → (HANDLES R ≤ 3)%nat → success_parts (HANDLES R) p h ps a →
  TpmResponse.body_parts R s =
    Ok (mk_slice (sl_addr s + 10) h,
        mk_slice (sl_addr s + response_params_offset (re_tag p) h) ps).
Proof using Hp Hd.
  intros Hok HR (Eb & Hn & Ha & Hna). unfold TpmResponse.body_parts.
  rewrite handle_area_size_Ok by done. cbn [result_bind].
  rewrite (response_body_format s p) by done. cbn [result_bind]. rewrite <-Hn, Eb.
  pose proof (zlen_nonneg ps). pose proof (zlen_nonneg a).
  assert (slice_ok (mk_slice (sl_addr s + HEADER_SIZE) (re_body p))) as Hokb.
  { destruct (body_slice s _ _ _ _ Hd) as [_ Hl]. destruct Hok as (? & ? & ?).
    pose proof (zlen_nonneg (re_body p)). unfold slice_ok, HEADER_SIZE, sl_len in *; cbn [sl_addr sl_data].
    lia. }
  rewrite Eb in Hokb. unfold success_body, response_params_offset in *.
  case_bool_decide as Ht.
  - unfold sl_len at 1; cbn [sl_data]. rewrite !zlen_app, zlen_be4. case_match; [lia|].
    set (rest := be_encode 4 (zlen ps) ++ ps ++ a) in *.
    assert (consumes h (mk_slice (sl_addr s + HEADER_SIZE) (h ++ rest))
      (mk_slice (sl_addr s + HEADER_SIZE + zlen h) rest)) as Hc by done.
    rewrite (split_at_app _ _ _ Hc). cbn [result_bind sl_addr].
    rewrite (response_tag_format s p) by done. cbn [result_bind].
    rewrite bool_decide_false by (intros Hx; by apply Hx).
    assert (zlen ps ≤ u32_max) as Hps.
    { destruct Hp as (_ & _ & Hl). rewrite Eb in Hl. unfold rest in Hl. rewrite !zlen_app, zlen_be4 in Hl.
      pose proof (zlen_nonneg h). lia. }
    assert (0 ≤ zlen ps < 2 ^ (8 * Z.of_nat 4)) as Hpr by (unfold u32_max in Hps; simpl; lia).
    rewrite (unmarshal_wire (c:=TpmUint32) (TpmInt.new 4 (zlen ps)) (be_encode 4 (zlen ps)) _
      (mk_slice (sl_addr s + HEADER_SIZE + zlen h + 4) (ps ++ a))).
    + cbn [result_bind]. rewrite value_new by (lia || by apply in_range_u32).
      unfold sl_len; cbn [sl_data]. rewrite zlen_app. case_match; [lia|].
      pose proof (slice_range_app (E:=TpmError) (mk_slice (sl_addr s + HEADER_SIZE + zlen h + 4) (ps ++ a))
        [] ps a eq_refl) as Hr.
      change (zlen []) with 0 in Hr. rewrite Z.add_0_l in Hr. rewrite Hr. cbn [result_bind sl_addr].
      unfold HEADER_SIZE. do 3 f_equal. lia.
    + by eapply consumes_slice_ok.
    + rewrite <-bytes_new by done. apply int_wire_new.
    + split; cbn [sl_data sl_addr]; [done | by rewrite zlen_be4].
  - unfold sl_len at 1; cbn [sl_data]. rewrite !zlen_app. case_match; [lia|].
    assert (consumes h (mk_slice (sl_addr s + HEADER_SIZE) (h ++ ps))
      (mk_slice (sl_addr s + HEADER_SIZE + zlen h) ps)) as Hc by done.
    rewrite (split_at_app _ _ _ Hc). cbn [result_bind sl_addr].
    rewrite (response_tag_format s p) by done. cbn [result_bind].
    rewrite bool_decide_true by done. unfold HEADER_SIZE. do 3 f_equal. lia.
Qed.

Lemma success_parts_ok n h ps a :
  slice_ok s → success_parts n p h ps a →
  slice_ok (mk_slice (sl_addr s + 10) h) ∧
  slice_ok (mk_slice (sl_addr s + response_params_offset (re_tag p) h) ps).
Proof using Hd.
  intros Hok (Eb & _). unfold success_body, response_params_offset in *.
  destruct (body_slice s _ _ _ _ Hd) as [_ Hl]. rewrite Eb in Hl.
  destruct Hok as (? & ? & ?). pose proof (zlen_nonneg h). pose proof (zlen_nonneg ps).
  pose proof (zlen_nonneg a).
  case_bool_decide; rewrite !zlen_app, ?zlen_be4 in Hl;
    unfold slice_ok, sl_len in *; cbn [sl_addr sl_data]; lia.
Qed.
End response_success.

(** *** [unmarshal] *)

Lemma success_rc_value rc : is_success rc = true → rc = TpmRc.Fmt0 TpmRcBase.Success.
Proof. by destruct rc as [[]| |]. Qed.

Section response_unmarshal.
Context (R : Body) `{!FieldsOk (Body.parameters R)}.
(** [R] is a response body: its handle count is the table's. *)
Hypothesis HR : HANDLES R = HANDLES (response (CC R)).

Lemma HANDLES_bound : (HANDLES R ≤ 3)%nat.
Proof using HR. rewrite HR. apply handles_bound. Qed.

(** On a successful frame [unmarshal] accepts exactly the encodings of a
    body followed by at most [MAX_SESSIONS] sessions. *)
Lemma response_unmarshal_spec s p v :
  slice_ok s → envelope_ok p → sl_data s = envelope_format p → is_success (re_rc p) = true →
  TpmResponse.unmarshal R s = Ok v ↔
  ∃ h ps a, success_parts (HANDLES R) p h ps a ∧ TpmBody.wire R v = Some (h, ps).
Proof using All.
  intros Hok Hp Hd He. unfold TpmResponse.unmarshal. split.
  - intros ([] & Hv & H)%result_bind_Ok_inv.
    apply (response_validate_success s p Hp Hd) in Hv as (h & ps & a & Hs); [|done].
    rewrite <-HR in Hs. exists h, ps, a. split; [done|].
    rewrite (body_parts_format s p Hp Hd R h ps a Hok HANDLES_bound Hs) in H. cbn [result_bind] in H.
    destruct (success_parts_ok s p Hd _ h ps a Hok Hs) as [H1 H2].
    by apply unmarshal_body_spec in H.
  - intros (h & ps & a & Hs & Hw).
    rewrite (proj2 (response_validate_success s p Hp Hd (CC R) He))
      by (exists h, ps, a; by rewrite <-HR).
    cbn [result_bind]. rewrite (body_parts_format s p Hp Hd R h ps a Hok HANDLES_bound Hs).
    cbn [result_bind]. destruct (success_parts_ok s p Hd _ h ps a Hok Hs) as [H1 H2].
    by apply unmarshal_body_spec.
Qed.

(** On a failed frame it returns the body of an empty frame, when [R] has
    one: neither handles nor parameters with a non-empty encoding. *)
Lemma response_unmarshal_failed s p v :
  slice_ok s → envelope_ok p → sl_data s = envelope_format p → is_success (re_rc p) = false →
  TpmResponse.unmarshal R s = Ok v ↔
  re_tag p = TpmSt.NoSessions ∧ re_body p = [] ∧ TpmBody.wire R v = Some ([], []).
Proof using All.
  intros Hok Hp Hd He. unfold TpmResponse.unmarshal.
  pose proof (response_validate_error s p Hp Hd (CC R) He) as Hv.
  assert (re_tag p = TpmSt.NoSessions → re_body p = [] → HANDLES R = 0%nat →
    TpmResponse.body_parts R s = Ok (mk_slice (sl_addr s + 10) [],
      mk_slice (sl_addr s + response_params_offset (re_tag p) []) [])) as Hbp.
  { intros Ht Hb H0. apply (body_parts_format s p Hp Hd R [] [] []); [done|apply HANDLES_bound|].
    rewrite H0. by apply success_parts_nil. }
  split.
  - intros ([] & [Ht Hb]%Hv & H)%result_bind_Ok_inv.
    destruct (decide (HANDLES R = 0%nat)) as [H0|H0].
    + rewrite (Hbp Ht Hb H0) in H. cbn [result_bind] in H.
      pose proof (success_parts_nil p Ht Hb) as Hs. rewrite <-H0 in Hs.
      destruct (success_parts_ok s p Hd _ [] [] [] Hok Hs) as [H1 H2].
      by apply unmarshal_body_spec in H.
    + exfalso. apply result_bind_Ok_inv in H as ([h ps] & H & _).
      unfold TpmResponse.body_parts in H. rewrite handle_area_size_Ok in H by apply HANDLES_bound.
      cbn [result_bind] in H. rewrite (response_body_format s p) in H by done. cbn [result_bind] in H.
      rewrite Hb in H. unfold sl_len in H at 1; cbn [sl_data] in H. change (zlen []) with 0 in H.
      rewrite (proj2 (Z.ltb_lt _ _)) in H by lia. done.
  - intros (Ht & Hb & Hw). rewrite (proj2 Hv) by done. cbn [result_bind].
    assert (HANDLES R = 0%nat) as H0.
    { apply (body_len R) in Hw as (Hz & _). change (zlen []) with 0 in Hz. lia. }
    rewrite (Hbp Ht Hb H0). cbn [result_bind].
    pose proof (success_parts_nil p Ht Hb) as Hs. rewrite <-H0 in Hs.
    destruct (success_parts_ok s p Hd _ [] [] [] Hok Hs) as [H1 H2].
    by apply unmarshal_body_spec.
Qed.
End response_unmarshal.

(** *** No panic, setters, [cast_prefix] and dispatch *)

Section response_no_panic.
Context (s : slice).
Hypothesis Hs : HEADER_SIZE ≤ sl_len s.

Lemma response_tag_no_panic : TpmResponse.tag s ≠ Panic.
Proof using Hs.
  destruct (header_split s Hs) as (t & z & c & b & Hh & Hd). by eapply read_tag_no_panic.
Qed.
Lemma response_rc_no_panic : TpmResponse.rc s ≠ Panic.
Proof using Hs.
  destruct (header_split s Hs) as (t & z & c & b & Hh & Hd). unfold TpmResponse.rc.
  rewrite (read_code_field s t z c b Hd Hh). cbn [result_bind].
  apply map_err_not_Panic, rc_try_from_no_panic, Hh.
Qed.
Lemma response_body_no_panic : TpmResponse.body s ≠ Panic.
Proof using Hs. by apply slice_from_not_Panic. Qed.

Lemma response_validate_no_panic cc : TpmResponse.validate s cc ≠ Panic.
Proof using Hs.
  apply result_bind_not_Panic; [apply response_envelope_no_panic|]. intros _ _.
  rewrite dispatch_for_Ok. cbn [result_bind dispatch_response_handles].
  apply result_bind_not_Panic; [apply response_tag_no_panic|]. intros tag _.
  apply result_bind_not_Panic; [apply response_rc_no_panic|]. intros rc _.
  case_match; [by repeat case_match|].
  rewrite handle_area_size_Ok by apply handles_bound. cbn [result_bind].
  apply result_bind_not_Panic; [apply response_body_no_panic|]. intros body _.
  case_match; [done|]. case_match; [done|].
  apply result_bind_not_Panic; [apply slice_from_not_Panic; lia|]. intros after _.
  destruct (sl_len after <? 4) eqn:H4; [done|].
  destruct (sized_area_split after) as (n & rest & _ & _ & _ & ->); [lia|]. cbn [result_bind].
  destruct (checked_add _ _); cbn [ok_or result_bind]; [|done]. case_match; [done|].
  apply result_bind_not_Panic; [apply slice_from_not_Panic; lia|]. intros sessions _.
  apply auth_responses_no_panic.
Qed.

Lemma body_parts_no_panic R :
  slice_ok s → TpmResponse.body_parts R s ≠ Panic.
Proof using Hs.
  intros Hok. apply result_bind_not_Panic; [unfold handle_area_size; by destruct (checked_mul _ _)|].
  intros n [-> Hn]%ok_or_Ok_inv%checked_mul_Some_inv.
  apply result_bind_not_Panic; [apply response_body_no_panic|].
  intros b (pre & Hpre & Hcb)%slice_from_spec; [|done]. case_match; [done|].
  apply result_bind_not_Panic; [apply split_at_not_Panic; lia|].
  intros [h after] (_ & _ & Hc)%split_at_Ok; [|lia].
  apply result_bind_not_Panic; [apply response_tag_no_panic|]. intros tag _.
  case_match; [done|].
  assert (slice_ok after) as Hoka by (do 2 (eapply consumes_slice_ok; [eassumption|]); done).
  apply result_bind_not_Panic; [by apply (unmarshal_no_panic (c:=TpmUint32))|].
  intros [z rest] Hu. apply (unmarshal_sound (c:=TpmUint32)) in Hu as (bs & Hw & _); [|done].
  simpl in Hw. apply int_wire_Some in Hw as [-> Hl].
  pose proof (in_range_u32_inv _ (value_in_range 4 false ltac:(lia) z Hl)) as Hr.
  cbv zeta. case_match; [done|].
  apply result_bind_not_Panic; [apply slice_range_not_Panic; lia | done].
Qed.

Lemma response_unmarshal_no_panic R `{!FieldsOk (Body.parameters R)} :
  HANDLES R = HANDLES (response (CC R)) → slice_ok s → TpmResponse.unmarshal R s ≠ Panic.
Proof using Hs.
  intros HR Hok. apply result_bind_not_Panic; [apply response_validate_no_panic|].
  intros [] Hv. apply result_bind_not_Panic; [by apply body_parts_no_panic|].
  intros [h ps] Hb. apply result_bind_Ok_inv in Hv as ([] & (p & Hp & Hd)%response_envelope_spec & _).
  enough (slice_ok h ∧ slice_ok ps) as [] by by apply unmarshal_body_no_panic.
  unfold TpmResponse.body_parts in Hb.
  apply result_bind_Ok_inv in Hb as (n & [-> Hn]%ok_or_Ok_inv%checked_mul_Some_inv & Hb).
  apply result_bind_Ok_inv in Hb as (b & (pre & Hpre & Hcb)%slice_from_spec & Hb); [|done].
  destruct (_ <? _) eqn:Hl in Hb; [done|].
  apply result_bind_Ok_inv in Hb as ([h' after] & (Hh & Ha & Hc)%split_at_Ok & Hb); [|lia].
  assert (slice_ok b) as Hokb by by eapply consumes_slice_ok.
  assert (slice_ok h') as Hokh.
  { unfold slice_ok in *. rewrite Ha, Hh. pose proof (consumes_len _ _ _ Hc).
    pose proof (sl_len_nonneg after). unfold sl_len in *. lia. }
  assert (slice_ok after) as Hoka by by eapply consumes_slice_ok.
  apply result_bind_Ok_inv in Hb as (tag & _ & Hb).
  case_bool_decide; [by injection Hb as <- <-|].
  apply result_bind_Ok_inv in Hb as ([z rest] & Hu & Hb).
  apply (unmarshal_sound (c:=TpmUint32)) in Hu as (bs & Hw & Hcr); [|done].
  assert (slice_ok rest) as Hokr by by eapply consumes_slice_ok.
  cbv zeta in Hb. destruct (_ <? _) eqn:Hlr in Hb; [done|].
  apply result_bind_Ok_inv in Hb as (ps' & Hr & [= <- <-]). split; [done|].
  unfold slice_range in Hr. case_match; [|done]. injection Hr as <-.
  unfold slice_ok, sl_take, sl_drop, sl_len, zlen in *; cbn [sl_addr sl_data] in *.
  rewrite length_take, length_drop. lia.
Qed.
End response_no_panic.

Lemma response_set_tag_spec s t z c b tag :
  sl_data s = frame_bytes t z c b →
  TpmResponse.set_tag s tag = Ok (mk_slice (sl_addr s) (frame_bytes (value tag) z c b)).
Proof. intros Hd. by eapply write_tag_field. Qed.

Lemma response_set_rc_spec s t z c b rc :
  sl_data s = frame_bytes t z c b →
  TpmResponse.set_rc s rc = Ok (mk_slice (sl_addr s) (frame_bytes t z (TpmRc.value rc) b)).
Proof. intros Hd. by eapply write_code_field. Qed.

Lemma zlen_envelope_format p : zlen (envelope_format p) = 10 + zlen (re_body p).
Proof. unfold envelope_format. by rewrite zlen_frame_bytes. Qed.

Lemma response_cast_prefix_spec s f r :
  TpmResponse.cast_prefix s = Ok (f, r) ↔
  ∃ p, envelope_ok p ∧ f = mk_slice (sl_addr s) (envelope_format p) ∧
       consumes (envelope_format p) s r.
Proof.
  unfold TpmResponse.cast_prefix. split.
  - intros (n & (Hn & t & c & b & Hh & Hd)%frame_prefix_size_spec & H)%result_bind_Ok_inv.
    apply result_bind_Ok_inv in H as ([f' r'] & (Hl & Ha & Hc)%split_at_Ok & H); [|lia].
    apply result_bind_Ok_inv in H as ([] & (p & Hp & Hd')%response_envelope_spec & [= <- <-]).
    exists p. rewrite <-Hd'. split_and!; [done | by apply slice_eq | done].
  - intros (p & Hp & -> & Hc). pose proof (envelope_header_ok p Hp) as Hh.
    pose proof (consumes_len _ _ _ Hc) as Hl. pose proof (sl_len_nonneg r).
    pose proof (zlen_nonneg (re_body p)). pose proof (zlen_envelope_format p) as Hf.
    rewrite (proj2 (frame_prefix_size_spec s (10 + zlen (re_body p)))).
    + cbn [result_bind]. rewrite <-Hf, (split_at_app _ _ _ Hc). cbn [result_bind].
      rewrite (proj2 (response_envelope_spec _)); [reflexivity|]. exists p. split; [exact Hp | reflexivity].
    + split; [lia|]. eexists _, _, (re_body p ++ sl_data r). split; [exact Hh|].
      destruct Hc as [-> _]. unfold envelope_format, frame_bytes. by rewrite <-!app_assoc.
Qed.

Lemma response_cast_prefix_no_panic s : TpmResponse.cast_prefix s ≠ Panic.
Proof.
  apply result_bind_not_Panic; [apply frame_prefix_size_no_panic|].
  intros n (Hn & _)%frame_prefix_size_spec.
  apply result_bind_not_Panic; [apply split_at_not_Panic; lia|]. intros [f r] _.
  apply result_bind_not_Panic; [apply response_envelope_no_panic | done].
Qed.

Lemma response_select_Ok cc s :
  TpmResponseView.select dispatch_variants cc s =
    Ok (TpmResponseView.Dispatched (TpmResponseView.mk cc s)).
Proof.
  pose proof (dispatch_variants_complete cc) as Hin. induction dispatch_variants as [|v vs IH].
  { by apply elem_of_nil in Hin. }
  cbn [TpmResponseView.select]. rewrite command_CC. case_bool_decide as E; [by subst|].
  apply IH. by apply elem_of_cons in Hin as [?|?].
Qed.

(** A failed response is [Rejected] with its code; a successful one is
    dispatched to the variant of [cc] when it is valid for it. *)
Lemma response_view_spec cc s o :
  TpmResponseView.cast cc s = Ok o ↔
  ∃ rc, TpmResponse.rc s = Ok rc ∧
    if is_success rc
    then TpmResponse.validate s cc = Ok () ∧ o = TpmResponseView.Dispatched (TpmResponseView.mk cc s)
    else o = TpmResponseView.Rejected rc.
Proof.
  unfold TpmResponseView.cast. split.
  - intros (rc & Hrc & H)%result_bind_Ok_inv. exists rc. split; [done|].
    destruct (is_success rc); cbn [negb] in H; [|by injection H as <-].
    apply result_bind_Ok_inv in H as ([] & Hv & H). rewrite response_select_Ok in H.
    by injection H as <-.
  - intros (rc & -> & H). cbn [result_bind]. destruct (is_success rc); cbn [negb].
    + destruct H as [-> ->]. cbn [result_bind]. apply response_select_Ok.
    + by subst.
Qed.
