(* ===== verification/Marshal.v ===== *)
(** Frame marshalling: [tpm_marshal_command] and [tpm_marshal_response] of
    [protocol/src/frame/marshal.rs] over any [TpmFrame], and the round trip
    with the frame views.

    A session slice is a list of [TpmsAuthCommand] or [TpmsAuthResponse]
    values. *)

From S2P Require Import Prelude Errors Writer Codec Integer Buffer Struct EnumMacro Enums Rc.
From S2P Require Import Attributes BasicTypes Schemes Structures.
From S2P Require Import Body Dispatch Envelope Command Response.

(** [handle_area_size(frame, offset)] *)
Definition frame_handle_area_size (frame : TpmFrame) (offset : Z) : TpmResult Z :=
  ok_or (checked_mul (frame_handles frame) 4)
    (IntegerTooLarge offset (tpm_value (frame_handles frame))).

Definition body_areas (frame : TpmFrame) (offset : Z) : TpmResult (Z * Z) :=
  let? handle_area_size := frame_handle_area_size frame offset in
  let? param_area_size := ok_or (checked_sub (frame_len frame) handle_area_size)
    (UnexpectedEnd offset handle_area_size (frame_len frame)) in
  Ok (handle_area_size, param_area_size).

(** [sessions.iter().try_fold(0, |total, session| total.checked_add(..))] *)
Fixpoint sessions_fold (S : Codec) (total : Z) (sessions : list (ty S)) (offset : Z) : TpmResult Z :=
  match sessions with
  | [] => Ok total
  | session :: sessions =>
      let? total := ok_or (checked_add total (len S session))
        (IntegerTooLarge offset (tpm_value total)) in
      sessions_fold S total sessions offset
  end.
Definition sessions_len (S : Codec) (sessions : list (ty S)) (offset : Z) : TpmResult Z :=
  sessions_fold S 0 sessions offset.

Definition check_session_count {A} (sessions : list A) (offset : Z) : TpmResult () :=
  if MAX_SESSIONS <? zlen sessions then Err (TooManyItems offset MAX_SESSIONS (zlen sessions))
  else Ok ().

(** [checked_add(lhs, rhs, offset)] *)
Definition checked_len_add (lhs rhs offset : Z) : TpmResult Z :=
  ok_or (checked_add lhs rhs) (IntegerTooLarge offset (tpm_value lhs)).

(** [TpmUint32::try_from(size).map_err(..)]: the reported value may differ
    from the converted one. *)
Definition size_field (size reported offset : Z) : TpmResult TpmInt.t :=
  ok_or (TpmInt.try_from 4 false size) (IntegerTooLarge offset (tpm_value reported)).

Definition nil_b {A} (l : list A) : bool := match l with [] => true | _ => false end.

(** ** [tpm_marshal_command] *)

Section marshal_command.
Context (command : TpmFrame) (tag : TpmSt.t) (sessions : list (ty TpmsAuthCommand)).
Let with_sessions : bool := bool_decide (tag = TpmSt.Sessions).

(** The checks and size computations, at writer position [offset]: the
    size of the authorization area and the frame's size field. *)
Definition command_sizes (offset : Z) : TpmResult (Z * TpmInt.t) :=
  let? (handle_area_size, param_area_size) := body_areas command offset in
  let? auth_area_size :=
    if with_sessions then
      let? n := sessions_len TpmsAuthCommand sessions offset in
      checked_len_add 4 n offset
    else Ok 0 in
  let? sum := checked_len_add handle_area_size auth_area_size offset in
  let? total_body_len := checked_len_add sum param_area_size offset in
  let? command_size_usize := checked_len_add 10 total_body_len offset in
  let? command_size := size_field command_size_usize command_size_usize offset in
  Ok (auth_area_size, command_size).

Definition tpm_marshal_command : W () :=
  let! at_ := w_len in
  if bool_decide (tag ≠ TpmSt.NoSessions) && bool_decide (tag ≠ TpmSt.Sessions) then
    w_err (InvalidTag at_ (value tag))
  else if Bool.eqb with_sessions (nil_b sessions) then w_err (InvalidTag at_ (value tag))
  else
    w_lift (check_session_count sessions at_) ;!
    let! offset := w_len in
    let! sizes := w_lift (command_sizes offset) in
    marshal TpmSt tag ;!
    marshal TpmUint32 sizes.2 ;!
    marshal TpmCc (frame_cc command) ;!
    marshal_handles command ;!
    (if with_sessions then
       let! auth_len := w_lift (usub sizes.1 4) in
       let! sessions_len := w_lift (size_field auth_len sizes.1 offset) in
       marshal TpmUint32 sessions_len ;!
       w_for (marshal TpmsAuthCommand) sessions
     else w_ret ()) ;!
    marshal_parameters command.
End marshal_command.

(** ** [tpm_marshal_response] *)

Section marshal_response.
Context (response : TpmFrame) (rc : TpmRc.t) (sessions : list (ty TpmsAuthResponse)).

(** The size of the parameter area and the frame's size field. *)
Definition response_sizes (tag : TpmSt.t) (offset : Z) : TpmResult (Z * TpmInt.t) :=
  let? (handle_area_size, param_area_size) := body_areas response offset in
  let? sessions_len := sessions_len TpmsAuthResponse sessions offset in
  let parameter_area_size_field_len := if bool_decide (tag = TpmSt.Sessions) then 4 else 0 in
  let? sum := checked_len_add handle_area_size parameter_area_size_field_len offset in
  let? sum := checked_len_add sum param_area_size offset in
  let? total_body_len := checked_len_add sum sessions_len offset in
  let? response_size_usize := checked_len_add 10 total_body_len offset in
  let? response_size := size_field response_size_usize response_size_usize offset in
  Ok (param_area_size, response_size).

Definition tpm_marshal_response : W () :=
  let! at_ := w_len in
  w_lift (check_session_count sessions at_) ;!
  if negb (is_success rc) then
    if negb (nil_b sessions) then
      let! at_ := w_len in w_err (InvalidTag at_ (value TpmSt.Sessions))
    else
      marshal TpmSt TpmSt.NoSessions ;!
      marshal TpmUint32 (TpmInt.new 4 10) ;!
      marshal TpmRc rc
  else
    let tag := if nil_b sessions then TpmSt.NoSessions else TpmSt.Sessions in
    let! offset := w_len in
    let! sizes := w_lift (response_sizes tag offset) in
    marshal TpmSt tag ;!
    marshal TpmUint32 sizes.2 ;!
    marshal TpmRc rc ;!
    marshal_handles response ;!
    (if bool_decide (tag = TpmSt.Sessions) then
       let! params_len := w_lift (size_field sizes.1 sizes.1 offset) in
       marshal TpmUint32 params_len
     else w_ret ()) ;!
    marshal_parameters response ;!
    (if bool_decide (tag = TpmSt.Sessions) then w_for (marshal TpmsAuthResponse) sessions
     else w_ret ()).
End marshal_response.

(** [TpmCommandValue::marshal_frame] and [TpmResponseValue::marshal_frame] *)
Definition command_marshal_frame (c : TpmCommandValue) (tag : TpmSt.t)
    (sessions : list (ty TpmsAuthCommand)) : W () :=
  tpm_marshal_command (TpmBody.frame _ (cv_body c)) tag sessions.
Definition response_marshal_frame (r : TpmResponseValue) (rc : TpmRc.t)
    (sessions : list (ty TpmsAuthResponse)) : W () :=
  tpm_marshal_response (TpmBody.frame _ (rv_body r)) rc sessions.

(** ** Laws *)

Lemma st_wire (tag : TpmSt.t) : wire TpmSt tag = Some (be_encode 2 (value tag)).
Proof.
  change (wire TpmSt tag) with (Some (be_encode 2 (TpmInt.to_unsigned 2 (value tag)))).
  unfold TpmInt.to_unsigned. pose proof (st_value_range tag).
  rewrite Z.mod_small; [done|]. change (2 ^ TpmInt.bits 2) with (u16_max + 1). lia.
Qed.

Lemma cc_wire (cc : TpmCc.t) : wire TpmCc cc = Some (be_encode 4 (value cc)).
Proof.
  change (wire TpmCc cc) with (Some (be_encode 4 (TpmInt.to_unsigned 4 (value cc)))).
  unfold TpmInt.to_unsigned. pose proof (cc_value_range cc).
  rewrite Z.mod_small; [done|]. change (2 ^ TpmInt.bits 4) with (u32_max + 1). lia.
Qed.

Lemma rc_wire rc : TpmRc.well_formed rc = true → wire TpmRc rc = Some (be_encode 4 (TpmRc.value rc)).
Proof. intros H. simpl. unfold TpmRc.wire. by rewrite H. Qed.

Lemma u32_wire z : 0 ≤ z ≤ u32_max → wire TpmUint32 (TpmInt.new 4 z) = Some (be_encode 4 z).
Proof.
  intros H. rewrite <-bytes_new by (unfold u32_max in *; simpl; lia). apply int_wire_new.
Qed.

Lemma size_field_Ok size reported offset :
  0 ≤ size ≤ u32_max → size_field size reported offset = Ok (TpmInt.new 4 size).
Proof.
  intros H. unfold size_field.
  by rewrite int_try_from_spec, decide_True by by apply in_range_u32.
Qed.

Lemma size_field_too_large size reported offset :
  u32_max < size → size_field size reported offset = Err (IntegerTooLarge offset reported).
Proof.
  intros H. unfold size_field. rewrite int_try_from_spec, decide_False; [done|].
  intros ?%in_range_u32_inv. lia.
Qed.

Lemma checked_len_add_Ok a b o : a + b ≤ usize_max → checked_len_add a b o = Ok (a + b).
Proof. intros H. unfold checked_len_add. by rewrite checked_add_Some. Qed.

Lemma nil_b_spec {A} (l : list A) : nil_b l = bool_decide (l = []).
Proof. by destruct l. Qed.

Section frame_laws.
Context (f : TpmFrame) (hs ps : list byte) `{!FrameOk f hs ps}.

Lemma body_areas_Ok offset : body_areas f offset = Ok (zlen hs, zlen ps).
Proof using All.
  pose proof (frame_handles_wire (f:=f) (hs:=hs) (ps:=ps)).
  pose proof (frame_len_wire (f:=f) (hs:=hs) (ps:=ps)).
  pose proof (frame_len_bound (f:=f) (hs:=hs) (ps:=ps)).
  pose proof (zlen_nonneg hs). pose proof (zlen_nonneg ps).
  unfold body_areas, frame_handle_area_size, checked_mul.
  rewrite (proj2 (Z.leb_le _ _)) by (unfold isize_max, usize_max in *; lia).
  cbn [ok_or result_bind]. rewrite checked_sub_Some by lia. cbn [ok_or result_bind].
  do 2 f_equal; lia.
Qed.
End frame_laws.

Lemma sessions_fold_Ok S `{!CodecOk S} total vs bs offset :
  seq_wire S vs = Some bs → 0 ≤ total → total + zlen bs ≤ usize_max →
  sessions_fold S total vs offset = Ok (total + zlen bs).
Proof.
  revert total bs; induction vs as [|v vs IH]; intros total bs.
  - intros [= <-] _ _. simpl. by rewrite Z.add_0_r.
  - intros (b1 & b2 & H1 & H2 & ->)%seq_wire_cons H0. rewrite zlen_app. intros Hle.
    pose proof (zlen_nonneg b1). pose proof (zlen_nonneg b2). cbn [sessions_fold].
    rewrite (wire_len v b1 H1), checked_add_Some by lia. cbn [ok_or result_bind].
    rewrite (IH _ b2 H2) by lia. f_equal; lia.
Qed.

(** Eight sessions take little room. *)
Lemma sessions_small S `{!CodecOk S} vs bs :
  wire_max S ≤ 200 → seq_wire S vs = Some bs → zlen vs ≤ MAX_SESSIONS → zlen bs ≤ 1600.
Proof.
  intros Hm Hw%(seq_max S) Hl. unfold MAX_SESSIONS in Hl. pose proof (zlen_nonneg vs).
  pose proof (wire_max_bounds (c:=S)). nia.
Qed.

Lemma auth_command_max : wire_max TpmsAuthCommand ≤ 200.
Proof. by apply Z.leb_le. Qed.
Lemma auth_response_max : wire_max TpmsAuthResponse ≤ 200.
Proof. by apply Z.leb_le. Qed.

Lemma check_session_count_Ok {A} (l : list A) o :
  zlen l ≤ MAX_SESSIONS → check_session_count l o = Ok ().
Proof. unfold check_session_count. intros. case_match; [lia | done]. Qed.

(** *** Commands *)

Section command_laws.
Context (f : TpmFrame) (hs ps : list byte) `{!FrameOk f hs ps}.
Context (tag : TpmSt.t) (sessions : list (ty TpmsAuthCommand)) (ab : list byte).
Hypothesis Hsess : seq_wire TpmsAuthCommand sessions = Some ab.
Hypothesis Hcount : zlen sessions ≤ MAX_SESSIONS.
Hypothesis Hnone : tag ≠ TpmSt.Sessions → ab = [].

Let p : command_parts := mk_command tag (frame_cc f) hs ab ps.

Lemma command_sizes_spec offset :
  command_sizes f tag sessions offset =
    if 10 + zlen (command_body p) <=? u32_max
    then Ok (zlen (auth_bytes tag ab), TpmInt.new 4 (10 + zlen (command_body p)))
    else Err (IntegerTooLarge offset (10 + zlen (command_body p))).
Proof using All.
  pose proof (sessions_small TpmsAuthCommand sessions ab auth_command_max Hsess Hcount) as Hab.
  pose proof (frame_len_wire (f:=f) (hs:=hs) (ps:=ps)).
  pose proof (frame_len_bound (f:=f) (hs:=hs) (ps:=ps)). pose proof (zlen_nonneg ab).
  pose proof (zlen_nonneg hs). pose proof (zlen_nonneg ps). unfold isize_max in *.
  assert ((if bool_decide (tag = TpmSt.Sessions)
           then let? n := sessions_len TpmsAuthCommand sessions offset in checked_len_add 4 n offset
           else Ok 0) = Ok (zlen (auth_bytes tag ab))) as Ea.
  { rewrite zlen_auth_bytes. case_bool_decide; [|done].
    unfold sessions_len. rewrite (sessions_fold_Ok _ 0 _ ab) by (done || unfold usize_max; lia).
    cbn [result_bind]. rewrite checked_len_add_Ok by (unfold usize_max; lia). f_equal; lia. }
  unfold command_sizes. rewrite (body_areas_Ok f hs ps). cbn [result_bind]. rewrite Ea.
  cbn [result_bind]. clear Ea. pose proof (zlen_auth_bytes tag ab) as Hz.
  unfold p, command_body; cbn [cp_handles cp_tag cp_auth cp_params]. rewrite !zlen_app.
  assert (0 ≤ zlen (auth_bytes tag ab) ≤ 1604) as Hz' by (rewrite Hz; case_bool_decide; lia).
  clear Hz. set (n := zlen (auth_bytes tag ab)) in *.
  rewrite checked_len_add_Ok by (unfold usize_max; lia). cbn [result_bind].
  rewrite checked_len_add_Ok by (unfold usize_max; lia). cbn [result_bind].
  rewrite checked_len_add_Ok by (unfold usize_max; lia). cbn [result_bind].
  replace (10 + (zlen hs + n + zlen ps)) with (10 + (zlen hs + (n + zlen ps))) by lia.
  destruct (_ <=? u32_max) eqn:Hle; [apply Z.leb_le in Hle | apply Z.leb_gt in Hle].
  - by rewrite size_field_Ok by lia.
  - by rewrite size_field_too_large by lia.
Qed.

Hypothesis Htag : tag = TpmSt.NoSessions ∨ tag = TpmSt.Sessions.
Hypothesis Hmatch : tag = TpmSt.Sessions ↔ sessions ≠ [].
Hypothesis Hsize : 10 + zlen (command_body p) ≤ u32_max.

(** The guards let a well-formed request through. *)
Lemma command_guards :
  bool_decide (tag ≠ TpmSt.NoSessions) && bool_decide (tag ≠ TpmSt.Sessions) = false ∧
  Bool.eqb (bool_decide (tag = TpmSt.Sessions)) (nil_b sessions) = false.
Proof using Htag Hmatch.
  clear -Htag Hmatch. rewrite nil_b_spec. split; [by destruct Htag as [-> | ->]|].
  destruct (decide (tag = TpmSt.Sessions)) as [E|E], (decide (sessions = [])) as [E'|E'];
    rewrite ?(bool_decide_true _ E), ?(bool_decide_false _ E), ?(bool_decide_true _ E'),
      ?(bool_decide_false _ E'); tauto.
Qed.

(** The marshaller writes the reference frame. *)
Lemma marshal_command_writes : writes (tpm_marshal_command f tag sessions) (command_format p).
Proof using All.
  pose proof (zlen_nonneg (command_body p)).
  unfold tpm_marshal_command. apply writes_len_bind; intros at_.
  destruct command_guards as [-> ->]. eapply writes_lift_bind; [by apply check_session_count_Ok|].
  apply writes_len_bind; intros offset. eapply writes_lift_bind.
  { rewrite command_sizes_spec. by rewrite (proj2 (Z.leb_le _ _) Hsize). }
  unfold command_format, frame_bytes. cbn [fst snd].
  apply writes_bind; [apply marshal_wire, st_wire|].
  apply writes_bind; [apply marshal_wire, u32_wire; lia|].
  apply writes_bind; [apply marshal_wire, cc_wire|].
  unfold command_body. apply writes_bind; [apply frame_marshal_handles|].
  apply writes_bind; [|apply frame_marshal_parameters].
  unfold auth_bytes; cbn [cp_tag cp_auth p]. case_bool_decide; [|apply writes_ret].
  rewrite zlen_app, zlen_be4.
  pose proof (sessions_small TpmsAuthCommand sessions ab auth_command_max Hsess Hcount) as Hab.
  pose proof (zlen_nonneg ab).
  eapply writes_lift_bind; [by apply usub_Ok; lia|].
  eapply writes_lift_bind; [apply size_field_Ok; unfold u32_max; lia|].
  replace (4 + zlen ab - 4) with (zlen ab) by lia.
  apply writes_bind; [apply marshal_wire, u32_wire; unfold u32_max; lia|].
  by apply (seq_writes TpmsAuthCommand).
Qed.
End command_laws.

(** Requests that are rejected before anything is written. *)
Section command_errors.
Context (f : TpmFrame) (tag : TpmSt.t) (sessions : list (ty TpmsAuthCommand)) (w : TpmWriter).

Lemma marshal_command_bad_tag :
  tag ≠ TpmSt.NoSessions → tag ≠ TpmSt.Sessions →
  tpm_marshal_command f tag sessions w = (Err (InvalidTag (cursor w) (value tag)), w).
Proof using Type.
  intros H1 H2. unfold tpm_marshal_command, w_bind, w_len.
  by rewrite (bool_decide_true _ H1), (bool_decide_true _ H2).
Qed.

Lemma marshal_command_mismatch :
  (tag = TpmSt.Sessions ∧ sessions = []) ∨ (tag = TpmSt.NoSessions ∧ sessions ≠ []) →
  tpm_marshal_command f tag sessions w = (Err (InvalidTag (cursor w) (value tag)), w).
Proof using Type. by destruct sessions; intros [[-> ?]|[-> ?]]. Qed.

Lemma marshal_command_too_many :
  tag = TpmSt.Sessions → MAX_SESSIONS < zlen sessions →
  tpm_marshal_command f tag sessions w =
    (Err (TooManyItems (cursor w) MAX_SESSIONS (zlen sessions)), w).
Proof using Type.
  intros -> H. unfold tpm_marshal_command, w_bind, w_len, w_lift, check_session_count, writer_len.
  rewrite (proj2 (Z.ltb_lt _ _) H). by destruct sessions.
Qed.
End command_errors.

Lemma marshal_command_too_large f hs ps `{!FrameOk f hs ps} tag sessions ab w :
  seq_wire TpmsAuthCommand sessions = Some ab → zlen sessions ≤ MAX_SESSIONS →
  (tag ≠ TpmSt.Sessions → ab = []) → (tag = TpmSt.NoSessions ∨ tag = TpmSt.Sessions) →
  (tag = TpmSt.Sessions ↔ sessions ≠ []) →
  let size := 10 + zlen (command_body (mk_command tag (frame_cc f) hs ab ps)) in
  u32_max < size → tpm_marshal_command f tag sessions w = (Err (IntegerTooLarge (cursor w) size), w).
Proof.
  intros Hs Hc Hn Ht Hm size Hsize. unfold tpm_marshal_command, w_bind, w_len, w_lift, writer_len.
  destruct (command_guards tag sessions Ht Hm) as [-> ->].
  rewrite check_session_count_Ok, (command_sizes_spec f hs ps tag sessions ab) by done.
  subst size. by rewrite (proj2 (Z.leb_gt _ _) Hsize).
Qed.

(** *** Sessions *)

Lemma buffer_bytes cap b bs :
  cap ≤ u16_max → wire (TpmBuffer.wire_type cap) b = Some bs →
  ∃ xs, zlen xs ≤ u16_max ∧ bs = Tpm2b.format xs.
Proof.
  intros Hc (xs & (_ & [? _] & _) & ->)%buffer_wire_Some. exists xs. split; [lia | done].
Qed.

Lemma attribute_byte v bs : wire TpmaSession v = Some bs → ∃ b, bs = [b].
Proof.
  intros H. apply (wire_len (c:=TpmaSession)) in H. change (len TpmaSession v) with 1 in H.
  destruct bs as [|b [|? ?]]; unfold zlen in H; simpl in H; try lia. by exists b.
Qed.

(** An encoded session has the shape the structural walk accepts. *)
Lemma auth_command_bytes v bs :
  wire TpmsAuthCommand v = Some bs → ∃ s, session_ok 4 s ∧ bs = session_format s.
Proof.
  destruct v as (h & n & a & m & []).
  intros (b1 & ? & H1 & (b2 & ? & H2 & (b3 & ? & H3 & (b4 & ? & H4 & [= <-] & ->)%fields_wire_cons & ->)%fields_wire_cons & ->)%fields_wire_cons & ->)%fields_wire_cons.
  cbn [snd] in *. apply (buffer_bytes MAX_DIGEST_SIZE) in H2 as (xs & Hxs & ->), H4 as (ys & Hys & ->);
    [|done..].
  apply attribute_byte in H3 as [x ->]. exists (mk_session b1 xs x ys).
  apply (wire_len (c:=TpmHandle)) in H1. change (len TpmHandle h) with 4 in H1.
  split; [split_and!; [unfold zlen in H1; cbn; lia | done | done]|].
  unfold session_format; cbn [sb_front sb_nonce sb_attributes sb_hmac]. by rewrite app_nil_r.
Qed.

Lemma auth_response_bytes v bs :
  wire TpmsAuthResponse v = Some bs → ∃ s, session_ok 0 s ∧ bs = session_format s.
Proof.
  destruct v as (n & a & m & []).
  intros (b2 & ? & H2 & (b3 & ? & H3 & (b4 & ? & H4 & [= <-] & ->)%fields_wire_cons & ->)%fields_wire_cons & ->)%fields_wire_cons.
  cbn [snd] in *. apply (buffer_bytes MAX_DIGEST_SIZE) in H2 as (xs & Hxs & ->), H4 as (ys & Hys & ->);
    [|done..].
  apply attribute_byte in H3 as [x ->]. exists (mk_session [] xs x ys).
  split; [by split_and!|].
  unfold session_format; cbn [sb_front sb_nonce sb_attributes sb_hmac app]. by rewrite app_nil_r.
Qed.

Lemma seq_auth_format (S : Codec) front vs bs :
  (∀ v b, wire S v = Some b → ∃ s, session_ok front s ∧ b = session_format s) →
  seq_wire S vs = Some bs → zlen vs ≤ MAX_SESSIONS → auth_format front (Z.to_nat MAX_SESSIONS) bs.
Proof.
  intros HS Hw Hl.
  assert (∃ ss, length ss = length vs ∧ Forall (session_ok front) ss ∧
                bs = concat (map session_format ss)) as (ss & Hlen & Hss & ->).
  { revert bs Hw; clear Hl; induction vs as [|v vs IH]; intros bs.
    - intros [= <-]. by exists [].
    - intros (b1 & b2 & (s & Hs & ->)%HS & (ss & Hlen & Hss & ->)%IH & ->)%seq_wire_cons.
      exists (s :: ss). split_and!; [by simpl; f_equal | by constructor | done]. }
  exists ss. split_and!; [|done|done]. unfold zlen, MAX_SESSIONS in *. lia.
Qed.

(** *** Round trips *)

Section command_roundtrip.
Context (R : Body) `{!FieldsOk (Body.parameters R)}.
Hypothesis HR : HANDLES R = HANDLES (command (CC R)).
Context (v : body R) (hs ps : list byte).
Hypothesis Hv : TpmBody.wire R v = Some (hs, ps).
Context (tag : TpmSt.t) (sessions : list (ty TpmsAuthCommand)) (ab : list byte).
Hypothesis Hsess : seq_wire TpmsAuthCommand sessions = Some ab.
Hypothesis Hcount : zlen sessions ≤ MAX_SESSIONS.
Hypothesis Htag : tag = TpmSt.NoSessions ∧ sessions = [] ∨ tag = TpmSt.Sessions ∧ sessions ≠ [].

Let p : command_parts := mk_command tag (CC R) hs ab ps.
Hypothesis Hsize : 10 + zlen (command_body p) ≤ u32_max.

Lemma roundtrip_frame_ok : FrameOk (TpmBody.frame R v) hs ps.
Proof using All.
  apply body_frame_ok; [done..|]. unfold command_body in Hsize. rewrite !zlen_app in Hsize.
  cbn [cp_handles cp_params p] in Hsize.
  pose proof (zlen_nonneg (auth_bytes (cp_tag p) (cp_auth p))).
  unfold isize_max, u32_max in *. lia.
Qed.

Lemma roundtrip_no_auth : tag ≠ TpmSt.Sessions → ab = [].
Proof using All.
  intros Hn. destruct Htag as [[_ E]|[? _]]; [|done]. rewrite E in Hsess. by injection Hsess.
Qed.

Lemma roundtrip_parts_ok : command_parts_ok p.
Proof using All.
  split_and!; [|cbn|done].
  - cbn [cp_tag cp_auth p]. destruct Htag as [[E1 E2]|[E _]]; [left|by right]. split; [done|].
    apply roundtrip_no_auth. by rewrite E1.
  - rewrite <-HR. by apply (body_len R v hs ps).
Qed.

(** What is marshalled. *)
Lemma command_frame_writes :
  writes (tpm_marshal_command (TpmBody.frame R v) tag sessions) (command_format p).
Proof using All.
  pose proof roundtrip_frame_ok. apply (marshal_command_writes (TpmBody.frame R v) hs ps); try done.
  - apply roundtrip_no_auth.
  - destruct Htag as [[? _]|[? _]]; auto.
  - destruct Htag as [[-> ->]|[-> ?]]; [split; [done | by intros []] | done].
Qed.

(** What is read back from it, wherever it is stored. *)
Lemma command_frame_reads s :
  slice_ok s → sl_data s = command_format p →
  TpmCommand.cast s = Ok s ∧ TpmCommand.validate s = Ok () ∧
  TpmCommand.unmarshal R s = Ok v ∧ TpmCommand.tag s = Ok tag ∧
  TpmCommand.size s = Ok (sl_len s) ∧
  TpmCommand.auth_area s = Ok (mk_slice (sl_addr s + auth_offset p) ab).
Proof using All.
  intros Hok Hd. pose proof roundtrip_parts_ok as Hp.
  assert (auth_format 4 (Z.to_nat MAX_SESSIONS) ab) as Ha
    by (by eapply (seq_auth_format TpmsAuthCommand); [apply auth_command_bytes|..]).
  split_and!.
  - apply command_cast_spec. split; [done|]. by exists p.
  - by apply (command_validate_format s p Hp Hd).
  - apply command_unmarshal_spec; [done..|]. by exists p.
  - by apply (tag_format s p Hp Hd).
  - by apply (size_format s p Hp Hd).
  - by apply (auth_area_format s p Hp Hd).
Qed.
End command_roundtrip.

(** *** Responses *)

Section response_laws.
Context (f : TpmFrame) (hs ps : list byte) `{!FrameOk f hs ps}.
Context (rc : TpmRc.t) (sessions : list (ty TpmsAuthResponse)) (ab : list byte).
Hypothesis Hrc : is_success rc = true.
Hypothesis Hsess : seq_wire TpmsAuthResponse sessions = Some ab.
Hypothesis Hcount : zlen sessions ≤ MAX_SESSIONS.

Definition response_tag : TpmSt.t := if nil_b sessions then TpmSt.NoSessions else TpmSt.Sessions.
Let p : response_envelope := mk_envelope response_tag rc (success_body response_tag hs ps ab).

Lemma no_sessions_no_bytes : response_tag ≠ TpmSt.Sessions → ab = [].
Proof using Hsess.
  clear -Hsess. unfold response_tag. destruct sessions; [by injection Hsess | done].
Qed.

Lemma response_sizes_spec offset :
  response_sizes f sessions response_tag offset =
    if 10 + zlen (re_body p) <=? u32_max then Ok (zlen ps, TpmInt.new 4 (10 + zlen (re_body p)))
    else Err (IntegerTooLarge offset (10 + zlen (re_body p))).
Proof using All.
  pose proof (sessions_small TpmsAuthResponse sessions ab auth_response_max Hsess Hcount) as Hab.
  pose proof (frame_len_wire (f:=f) (hs:=hs) (ps:=ps)).
  pose proof (frame_len_bound (f:=f) (hs:=hs) (ps:=ps)).
  pose proof (zlen_nonneg ab). pose proof (zlen_nonneg hs). pose proof (zlen_nonneg ps).
  unfold isize_max in *. unfold response_sizes, sessions_len.
  rewrite (body_areas_Ok f hs ps). cbn [result_bind].
  rewrite (sessions_fold_Ok _ 0 _ ab) by (done || unfold usize_max; lia). cbn [result_bind].
  rewrite Z.add_0_l. set (k := if bool_decide (response_tag = TpmSt.Sessions) then 4 else 0).
  assert (0 ≤ k ≤ 4) by (unfold k; case_bool_decide; lia).
  assert (zlen (re_body p) = zlen hs + k + zlen ps + zlen ab) as ->.
  { cbn [re_body p]. unfold success_body, k. case_bool_decide as E.
    - rewrite !zlen_app, zlen_be4. lia.
    - rewrite no_sessions_no_bytes by done. rewrite zlen_app. change (zlen []) with 0. lia. }
  do 4 (rewrite checked_len_add_Ok by (unfold usize_max; lia); cbn [result_bind]).
  destruct (_ <=? u32_max) eqn:Hle; [apply Z.leb_le in Hle | apply Z.leb_gt in Hle].
  - rewrite size_field_Ok; [done|]. unfold k in *. case_bool_decide; lia.
  - by rewrite size_field_too_large by lia.
Qed.

Hypothesis Hsize : 10 + zlen (re_body p) ≤ u32_max.

Lemma marshal_response_writes : writes (tpm_marshal_response f rc sessions) (envelope_format p).
Proof using All.
  pose proof (zlen_nonneg (re_body p)). assert (TpmRc.well_formed rc = true) as Hwf by by rewrite (success_rc_value rc Hrc).
  unfold tpm_marshal_response. apply writes_len_bind; intros at_.
  eapply writes_lift_bind; [by apply check_session_count_Ok|].
  rewrite Hrc. cbn [negb]. cbv zeta. fold response_tag.
  apply writes_len_bind; intros offset. eapply writes_lift_bind.
  { rewrite response_sizes_spec. by rewrite (proj2 (Z.leb_le _ _) Hsize). }
  unfold envelope_format, frame_bytes. cbn [fst snd].
  apply writes_bind; [apply marshal_wire, st_wire|].
  apply writes_bind; [apply marshal_wire, u32_wire; lia|].
  apply writes_bind; [apply marshal_wire, rc_wire; exact Hwf|].
  pose proof no_sessions_no_bytes as Hnone.
  assert (zlen ps ≤ u32_max) as Hps.
  { cbn [re_body p] in Hsize. unfold success_body in Hsize.
    pose proof (zlen_nonneg hs). pose proof (zlen_nonneg ab).
    case_bool_decide; rewrite !zlen_app, ?zlen_be4 in Hsize; lia. }
  pose proof (zlen_nonneg ps). cbn [re_body p]. unfold success_body. case_bool_decide as E.
  - apply writes_bind; [apply frame_marshal_handles|].
    apply writes_bind.
    { eapply writes_lift_bind; [by apply size_field_Ok|]. by apply marshal_wire, u32_wire. }
    apply writes_bind; [apply frame_marshal_parameters|].
    by apply (seq_writes TpmsAuthResponse).
  - apply writes_bind; [apply frame_marshal_handles|].
    rewrite <-(app_nil_l ps). apply writes_bind; [apply writes_ret|].
    rewrite <-(app_nil_r ps). apply writes_bind; [apply frame_marshal_parameters | apply writes_ret].
Qed.
End response_laws.

(** A failed response is a bare header, whatever the body. *)
Lemma marshal_response_failed f rc :
  is_success rc = false → TpmRc.well_formed rc = true →
  writes (tpm_marshal_response f rc []) (envelope_format (mk_envelope TpmSt.NoSessions rc [])).
Proof.
  intros He Hw. unfold tpm_marshal_response. apply writes_len_bind; intros at_.
  eapply writes_lift_bind; [by apply check_session_count_Ok|]. rewrite He. cbn [negb nil_b].
  unfold envelope_format, frame_bytes; cbn [re_tag re_rc re_body].
  apply writes_bind; [apply marshal_wire, st_wire|].
  apply writes_bind; [by apply marshal_wire, u32_wire|].
  rewrite app_nil_r. by apply marshal_wire, rc_wire.
Qed.

Section response_errors.
Context (f : TpmFrame) (rc : TpmRc.t) (sessions : list (ty TpmsAuthResponse)) (w : TpmWriter).

Lemma marshal_response_too_many :
  MAX_SESSIONS < zlen sessions →
  tpm_marshal_response f rc sessions w =
    (Err (TooManyItems (cursor w) MAX_SESSIONS (zlen sessions)), w).
Proof using Type.
  intros H. unfold tpm_marshal_response, w_bind, w_len, w_lift, check_session_count, writer_len.
  by rewrite (proj2 (Z.ltb_lt _ _) H).
Qed.

Lemma marshal_response_failed_sessions :
  is_success rc = false → sessions ≠ [] → zlen sessions ≤ MAX_SESSIONS →
  tpm_marshal_response f rc sessions w =
    (Err (InvalidTag (cursor w) (value TpmSt.Sessions)), w).
Proof using Type.
  intros He Hs Hc. unfold tpm_marshal_response, w_bind, w_len, w_lift, writer_len.
  rewrite check_session_count_Ok, He by done. by destruct sessions.
Qed.
End response_errors.

Lemma marshal_response_too_large f hs ps `{!FrameOk f hs ps} rc sessions ab w :
  is_success rc = true → seq_wire TpmsAuthResponse sessions = Some ab →
  zlen sessions ≤ MAX_SESSIONS →
  let size := 10 + zlen (success_body (response_tag sessions) hs ps ab) in
  u32_max < size → tpm_marshal_response f rc sessions w = (Err (IntegerTooLarge (cursor w) size), w).
Proof.
  intros He Hs Hc size Hsize. unfold tpm_marshal_response, w_bind, w_len, w_lift, writer_len.
  rewrite check_session_count_Ok, He by done. cbn [negb]. cbv zeta. fold (response_tag sessions).
  rewrite (response_sizes_spec f hs ps rc sessions ab) by done. cbn [re_body].
  subst size. by rewrite (proj2 (Z.leb_gt _ _) Hsize).
Qed.

Section response_roundtrip.
Context (R : Body) `{!FieldsOk (Body.parameters R)}.
Hypothesis HR : HANDLES R = HANDLES (response (CC R)).
Context (v : body R) (hs ps : list byte).
Hypothesis Hv : TpmBody.wire R v = Some (hs, ps).
Context (sessions : list (ty TpmsAuthResponse)) (ab : list byte).
Hypothesis Hsess : seq_wire TpmsAuthResponse sessions = Some ab.
Hypothesis Hcount : zlen sessions ≤ MAX_SESSIONS.

Let tag : TpmSt.t := response_tag sessions.
Let p : response_envelope :=
  mk_envelope tag (TpmRc.Fmt0 TpmRcBase.Success) (success_body tag hs ps ab).
Hypothesis Hsize : 10 + zlen (re_body p) ≤ u32_max.

Lemma response_frame_writes :
  writes (tpm_marshal_response (TpmBody.frame R v) (TpmRc.Fmt0 TpmRcBase.Success) sessions)
    (envelope_format p).
Proof using All.
  assert (FrameOk (TpmBody.frame R v) hs ps).
  { apply body_frame_ok; [done..|]. cbn [re_body p] in Hsize. unfold success_body in Hsize.
    pose proof (zlen_nonneg ps). pose proof (zlen_nonneg ab). unfold isize_max, u32_max in *.
    case_bool_decide; rewrite !zlen_app, ?zlen_be4 in Hsize; lia. }
  by apply (marshal_response_writes (TpmBody.frame R v) hs ps).
Qed.

Lemma response_frame_reads s :
  slice_ok s → sl_data s = envelope_format p →
  TpmResponse.cast s = Ok s ∧ TpmResponse.validate s (CC R) = Ok () ∧
  TpmResponse.unmarshal R s = Ok v ∧ TpmResponse.rc s = Ok (TpmRc.Fmt0 TpmRcBase.Success) ∧
  TpmResponse.size s = Ok (sl_len s).
Proof using All.
  intros Hok Hd.
  assert (envelope_ok p) as Hp.
  { split_and!; [|done|done]. unfold p, tag, response_tag; cbn [re_tag]. destruct (nil_b sessions); [by left | by right]. }
  assert (success_parts (HANDLES R) p hs ps ab) as Hs.
  { split_and!; [done | by apply (body_len R v hs ps) | |].
    - by eapply (seq_auth_format TpmsAuthResponse); [apply auth_response_bytes|..].
    - by apply no_sessions_no_bytes. }
  split_and!.
  - apply response_cast_spec. split; [done|]. by exists p.
  - apply (response_validate_success s p Hp Hd (CC R) eq_refl). exists hs, ps, ab. by rewrite <-HR.
  - apply (response_unmarshal_spec R HR s p v Hok Hp Hd eq_refl). by exists hs, ps, ab.
  - by apply (response_rc_format s p Hp Hd).
  - by apply (response_size_format s p Hp Hd).
Qed.
End response_roundtrip.
