(* ===== verification/DataProperties.v ===== *)
(** What the data layer promises: properties of every data type of
    [Types.v], and of the macros and primitives they are built from. *)

From S2P Require Import Prelude Errors Writer Codec Integer Buffer Tpml Struct EnumMacro Enums.
From S2P Require Import Rc Attributes Union BasicTypes Schemes Structures Types.

(** ** Concrete values for the witnesses *)

(** An empty buffer of a capacity, and a public area that uses it: a keyed
    hash object without a scheme. *)
Definition sample_public : ty TpmtPublic :=
  TpmtPublic.mk TpmAlgId.KeyedHash TpmAlgId.Sha256 (Bitflags.from_bits_truncate 0x20040)
    (TpmBuffer.new 64)
    (TpmuPublicParms.KeyedHash
       (TaggedStruct.mk TpmAlgId.Null TpmuKeyedhashScheme.Null, ()))
    (TpmuPublicId.KeyedHash (TpmBuffer.new 64)).
Definition sample_public_bytes : list byte :=
  be_encode 2 8 ++ be_encode 2 11 ++ be_encode 4 0x20040 ++ be_encode 2 0 ++ be_encode 2 16 ++
  be_encode 2 0.
Definition sample_writer (n : nat) : TpmWriter := writer_new (replicate n Byte.x00).

(** ** Every data type *)

(** C3.  Round trip of every data type: marshalling a value into a writer
    with room appends exactly its encoding to what was written before, and
    unmarshalling that encoding, whatever follows it and wherever it is
    stored, returns the value and the bytes that follow. *)
Theorem data_roundtrip (c : Codec) (v : ty c) (bs rest : list byte) (w : TpmWriter) (a : Z) :
  c ∈ data_types → wire c v = Some bs → writer_ok w → zlen bs ≤ room w →
  slice_ok (mk_slice a (bs ++ rest)) →
  (∃ w', marshal c v w = (Ok (), w') ∧ as_bytes w' = as_bytes w ++ bs ∧ capacity w' = capacity w) ∧
  unmarshal c (mk_slice a (bs ++ rest)) = Ok (v, mk_slice (a + zlen bs) rest).
Proof.
  intros Hc%data_type_ok Hv Hw Hr Hs. split; [|by apply roundtrip].
  exists (put w bs). split_and!; [|by apply put_as_bytes | by apply put_capacity].
  by apply (marshal_wire v bs Hv).
Qed.

Lemma data_roundtrip_witness :
  (∃ w', marshal TpmtPublic sample_public (sample_writer 32) = (Ok (), w') ∧
     as_bytes w' = [] ++ sample_public_bytes ∧ capacity w' = 32) ∧
  unmarshal TpmtPublic (mk_slice 4096 (sample_public_bytes ++ [Byte.x01])) =
    Ok (sample_public, mk_slice (4096 + 14) [Byte.x01]).
Proof.
  apply (data_roundtrip TpmtPublic sample_public sample_public_bytes [Byte.x01] (sample_writer 32) 4096).
  - by apply (data_type_at 127).
  - vm_compute. reflexivity.
  - vm_compute. intuition discriminate.
  - vm_compute. discriminate.
  - vm_compute. intuition discriminate.
Defined.

(** C4.  Decoding is canonical for every data type: whatever bytes
    [unmarshal] accepts, it consumed a prefix of its input, and marshalling
    the value it returned writes exactly those bytes again; so no two byte
    strings decode to the same value. *)
Theorem data_canonical (c : Codec) (s r : slice) (v : ty c) (w : TpmWriter) :
  c ∈ data_types → slice_ok s → unmarshal c s = Ok (v, r) → writer_ok w → sl_len s ≤ room w →
  ∃ bs, sl_data s = bs ++ sl_data r ∧ sl_addr r = sl_addr s + zlen bs ∧
    ∃ w', marshal c v w = (Ok (), w') ∧ as_bytes w' = as_bytes w ++ bs.
Proof.
  intros Hc%data_type_ok Hs Hu Hw Hr.
  destruct (unmarshal_sound s v r Hs Hu) as (bs & Hv & Hcs).
  pose proof (consumes_len _ _ _ Hcs). pose proof (sl_len_nonneg r). destruct Hcs as [Hd Ha].
  exists bs. split_and!; [done..|]. exists (put w bs). split; [|by apply put_as_bytes].
  apply (marshal_wire v bs Hv); [done | lia].
Qed.

Lemma data_canonical_witness :
  ∃ bs, sample_public_bytes = bs ++ [] ∧ 14 = 0 + zlen bs ∧
    ∃ w', marshal TpmtPublic sample_public (sample_writer 32) = (Ok (), w') ∧ as_bytes w' = [] ++ bs.
Proof.
  apply (data_canonical TpmtPublic (mk_slice 0 sample_public_bytes) (mk_slice 14 []) sample_public
           (sample_writer 32)).
  - by apply (data_type_at 127).
  - vm_compute. intuition discriminate.
  - vm_compute. reflexivity.
  - vm_compute. intuition discriminate.
  - vm_compute. discriminate.
Defined.

(** C5.  The zero-copy views agree with the owned values: [cast_prefix_field]
    accepts exactly the inputs [unmarshal] accepts and leaves the same
    remainder; the view denotes the value [unmarshal] returns and borrows
    only from the bytes that were consumed. *)
Theorem view_agrees (t : WireType) (s r : slice) :
  t ∈ wire_types → slice_ok s →
  (∀ vw, cast_prefix_field t s = Ok (vw, r) →
     ∃ v bs, unmarshal t s = Ok (v, r) ∧ view_of t vw v ∧
       consumes bs s r ∧ view_in t vw (mk_slice (sl_addr s) bs)) ∧
  (∀ v, unmarshal t s = Ok (v, r) →
     ∃ vw, cast_prefix_field t s = Ok (vw, r) ∧ view_of t vw v).
Proof.
  intros Ht%wire_type_ok Hs. split.
  - intros vw (v & bs & Hw & Hc & Hv & Hin)%cast_sound; [|done]. exists v, bs.
    split_and!; try done. by eapply unmarshal_wire.
  - intros v (bs & Hw & Hc)%unmarshal_sound; [|done].
    destruct (cast_view t v bs s r Hs Hw Hc) as (vw & Hvw & Hv & _). by exists vw.
Qed.

Lemma view_agrees_witness :
  ∃ vw, cast_prefix_field TpmtPublic (mk_slice 0 (sample_public_bytes ++ [Byte.x01])) =
          Ok (vw, mk_slice 14 [Byte.x01]) ∧ view_of TpmtPublic vw sample_public.
Proof.
  apply (view_agrees TpmtPublic (mk_slice 0 (sample_public_bytes ++ [Byte.x01])) (mk_slice 14 [Byte.x01])).
  - by apply (wire_type_at 127).
  - vm_compute. intuition discriminate.
  - vm_compute. reflexivity.
Defined.

(** C38.  No data type panics: neither [unmarshal] nor a cast fails an index,
    a split or a subtraction on any input, however malformed. *)
Theorem data_no_panic (s : slice) :
  slice_ok s →
  (∀ c, c ∈ data_types → unmarshal c s ≠ Panic) ∧
  (∀ t, t ∈ wire_types → cast_prefix_field t s ≠ Panic).
Proof.
  intros Hs. split.
  - intros c Hc%data_type_ok. by apply unmarshal_no_panic.
  - intros t Ht%wire_type_ok. by apply cast_no_panic.
Qed.

Lemma data_no_panic_witness :
  (∀ c, c ∈ data_types → unmarshal c (mk_slice 0 [Byte.x00; Byte.xff]) ≠ Panic) ∧
  (∀ t, t ∈ wire_types → cast_prefix_field t (mk_slice 0 [Byte.x00; Byte.xff]) ≠ Panic).
Proof. apply data_no_panic. vm_compute. intuition discriminate. Defined.

(** A writer that is too small: marshalling stops at the first write
    that does not fit and reports [BufferOverflow] with the position, size
    and remaining room of that write; the fields in front of it stay
    written, and nothing else is touched. *)
Theorem data_overflow (c : Codec) (v : ty c) (bs : list byte) (w : TpmWriter) :
  c ∈ data_types → wire c v = Some bs → writer_ok w → room w < zlen bs ≤ isize_max →
  ∃ done_ part rest w',
    bs = done_ ++ part ++ rest ∧ zlen done_ ≤ room w < zlen done_ + zlen part ∧
    marshal c v w =
      (Err (BufferOverflow (cursor w + zlen done_) (zlen part) (room w - zlen done_)), w') ∧
    as_bytes w' = as_bytes w ++ done_ ∧ capacity w' = capacity w.
Proof.
  intros Hc%data_type_ok Hv Hw Hr.
  destruct (proj2 (marshal_wire v bs Hv w Hw) Hr) as (b1 & b2 & b3 & -> & Hb & Hm).
  exists b1, b2, b3, (put w b1). split_and!; try done; try lia.
  - by apply put_as_bytes.
  - apply put_capacity; [done | lia].
Qed.

Lemma data_overflow_witness :
  ∃ done_ part rest w',
    sample_public_bytes = done_ ++ part ++ rest ∧ zlen done_ ≤ 9 < zlen done_ + zlen part ∧
    marshal TpmtPublic sample_public (sample_writer 9) =
      (Err (BufferOverflow (0 + zlen done_) (zlen part) (9 - zlen done_)), w') ∧
    as_bytes w' = [] ++ done_ ∧ capacity w' = 9.
Proof.
  apply (data_overflow TpmtPublic sample_public sample_public_bytes (sample_writer 9)).
  - by apply (data_type_at 127).
  - vm_compute. reflexivity.
  - vm_compute. intuition discriminate.
  - vm_compute. intuition discriminate.
Defined.

(** C40.  [TpmSized]: the length a value announces is the length of its
    encoding, and [SIZE] bounds it. *)
Theorem data_sized (c : Codec) (v : ty c) (bs : list byte) :
  c ∈ data_types → wire c v = Some bs → len c v = zlen bs ∧ 0 ≤ len c v ≤ SIZE c.
Proof.
  intros Hc%data_type_ok Hv. rewrite (wire_len v bs Hv). pose proof (zlen_nonneg bs).
  pose proof (wire_SIZE c v bs Hv). lia.
Qed.

Lemma data_sized_witness : len TpmtPublic sample_public = 14 ∧ 0 ≤ len TpmtPublic sample_public ≤ SIZE TpmtPublic.
Proof.
  apply (data_sized TpmtPublic sample_public sample_public_bytes).
  - by apply (data_type_at 127).
  - vm_compute. reflexivity.
Defined.

(** ** Response codes, enums and integers *)

(** [TpmRc::try_from] on every [u32]: it returns exactly the
    well-formed code whose value is [raw], and when there is none the error
    [InvalidRc] with [raw]; a well-formed code always decodes back from its
    value. *)
Theorem rc_decode (raw : Z) :
  0 ≤ raw ≤ u32_max →
  (∀ rc, TpmRc.try_from raw = Ok rc ↔ TpmRc.well_formed rc = true ∧ TpmRc.value rc = raw) ∧
  ((∀ rc, TpmRc.well_formed rc = true → TpmRc.value rc ≠ raw) →
     TpmRc.try_from raw = Err (InvalidRc 0 raw)).
Proof.
  intros Hr. pose proof (rc_try_from_spec raw Hr) as Hs. split.
  - intros rc. split; [intros E; by rewrite E in Hs|]. intros [Hw <-]. by apply rc_value_spec.
  - intros Hn. destruct (TpmRc.try_from raw) as [rc|e|]; [|by subst|done].
    destruct Hs as [Hw Hv]. by destruct (Hn rc Hw).
Qed.

Lemma rc_decode_witness :
  TpmRc.try_from 0x1C1 =
    Ok (TpmRc.Fmt1 (mk_fmt1 TpmRcBase.Asymmetric (Some (TpmRcIndex.Parameter_ 1)))).
Proof.
  apply (rc_decode 0x1C1).
  - vm_compute. intuition discriminate.
  - split; vm_compute; reflexivity.
Defined.

(** The fields of a code, checked against the bits of its value. *)
Definition rc_bits_ok (raw : Z) : bool :=
  match TpmRc.try_from raw with
  | Ok (TpmRc.Fmt1 f) =>
      Z.testbit raw 7 && (Z.land raw 0xBF =? TpmRcBase.value (fmt1_base f)) &&
      match fmt1_index f with
      | None => (Z.shiftr raw 8 =? 0) && negb (Z.testbit raw 6)
      | Some (TpmRcIndex.Parameter_ n) => Z.testbit raw 6 && (Z.shiftr raw 8 =? n) && (1 <=? n) && (n <=? 15)
      | Some (TpmRcIndex.Handle n) => negb (Z.testbit raw 6) && (Z.shiftr raw 8 =? n) && (1 <=? n) && (n <=? 7)
      | Some (TpmRcIndex.Session n) => negb (Z.testbit raw 6) && (Z.shiftr raw 8 =? n + 8) && (0 <=? n) && (n <=? 7)
      end
  | Ok (TpmRc.Warn b) => negb (Z.testbit raw 7) && (Z.land raw 0x900 =? 0x900) && (raw =? TpmRcBase.value b)
  | Ok (TpmRc.Fmt0 b) => negb (Z.testbit raw 7) && negb (Z.land raw 0x900 =? 0x900) && (raw =? TpmRcBase.value b)
  | Err _ => true
  | Panic => false
  end.

Lemma rc_bits_small : forallb (λ n, rc_bits_ok (Z.of_nat n)) (seq 0 4096) = true.
Proof. vm_cast_no_check (eq_refl true). Qed.

(** A decoded response code is what its bits say: bit 7 selects
    Format 1, whose bits 0-5 are the error, bit 6 tells parameters from
    handles and sessions, and bits 8-11 number them (sessions from 8); without
    bit 7 the severity bits 0x900 tell warnings from Format 0 errors. *)
Theorem rc_bits (raw : Z) : 0 ≤ raw ≤ u32_max → rc_bits_ok raw = true.
Proof.
  intros Hr. destruct (Z.lt_ge_cases raw 4096) as [Hs|Hb].
  - pose proof (proj1 (forallb_forall _ _) rc_bits_small (Z.to_nat raw)) as H.
    cbv beta in H. rewrite Z2Nat.id in H by lia. apply H, in_seq. lia.
  - unfold rc_bits_ok. by rewrite rc_try_from_big by lia.
Qed.

Lemma rc_bits_witness : rc_bits_ok 0x922 = true.
Proof. apply (rc_bits 0x922). vm_compute. intuition discriminate. Defined.

(** [try_from] of a [tpm_enum!] type is exactly the inverse of [value]
    on the declared variants and returns [VariantNotAvailable] everywhere
    else, with the raw value sign-extended to 64 bits. *)
Theorem enum_try_from (T : Type) `{TpmEnumOk T} (raw : Z) :
  (∀ v : T, try_from T raw = Ok v ↔ value v = raw) ∧
  ((∀ v : T, value v ≠ raw) → try_from T raw = Err (VariantNotAvailable 0 (raw `mod` 2 ^ 64))).
Proof.
  split; [intros v; exact (try_from_Ok T raw v)|]. intros Hn. pose proof (enum_try_from_spec T raw) as Hs.
  destruct (try_from T raw) as [v|e|]; [by destruct (Hn v) | by destruct Hs as [-> _] | done].
Qed.

Lemma enum_try_from_witness :
  try_from TpmAlgId.t 0x000B = Ok TpmAlgId.Sha256 ∧
  try_from TpmClockAdjust.t (-5) = Err (VariantNotAvailable 0 (2 ^ 64 - 5)).
Proof.
  split.
  - apply (enum_try_from TpmAlgId.t 0x000B). reflexivity.
  - apply (enum_try_from TpmClockAdjust.t (-5)). intros []; discriminate.
Defined.

(** The wire integers: [TryFrom<usize>] succeeds exactly on the values
    of the native type, and converting to the big-endian bytes and back is
    the identity both ways, for signed and unsigned integers of every width. *)
Theorem int_conversions (N : nat) (signed : bool) (z : Z) (i : TpmInt.t) :
  (0 < N)%nat →
  (TpmInt.try_from N signed z = Some i ↔ TpmInt.in_range N signed z ∧ i = TpmInt.new N z) ∧
  (TpmInt.in_range N signed z → TpmInt.value N signed (TpmInt.new N z) = z) ∧
  (length (TpmInt.bytes i) = N →
     TpmInt.in_range N signed (TpmInt.value N signed i) ∧
     TpmInt.new N (TpmInt.value N signed i) = i).
Proof.
  intros HN. split_and!.
  - rewrite int_try_from_spec by done. case_decide; [|by split; [|intros [? _]]].
    split; [by intros [= <-] | by intros [_ ->]].
  - by apply value_new.
  - intros Hl. split; [by apply value_in_range | by apply new_value].
Qed.

Lemma int_conversions_witness :
  TpmInt.value 4 true (TpmInt.new 4 (-2)) = -2 ∧
  TpmInt.try_from 2 false 0xBEEF = Some (TpmInt.from_be_bytes [Byte.xbe; Byte.xef]).
Proof.
  split.
  - apply (int_conversions 4 true (-2) (TpmInt.new 4 0)); [lia|]. vm_compute. intuition discriminate.
  - apply (int_conversions 2 false 0xBEEF); [lia|]. split; [vm_compute; intuition discriminate | reflexivity].
Defined.

(** ** Buffers and lists *)

(** The owned byte buffer, representation included: pushing or
    extending appends to the contents as long as both the capacity and the
    16-bit size allow it; otherwise the buffer is refused with
    [BufferOverflow] at the current length. *)
Theorem buffer_append (cap : Z) (b : TpmBuffer.t) (xs ys : list byte) (x : byte) :
  TpmBuffer.holds cap b xs → zlen ys ≤ isize_max →
  (if decide (zlen xs + zlen ys ≤ cap `min` u16_max) then
     ∃ b', TpmBuffer.try_extend_from_slice cap ys b = Ok b' ∧
           TpmBuffer.holds cap b' (xs ++ ys) ∧ TpmBuffer.deref b' = xs ++ ys
   else ∃ room, TpmBuffer.try_extend_from_slice cap ys b = Err (BufferOverflow (zlen xs) (zlen ys) room)) ∧
  (if decide (zlen xs < cap ∧ zlen xs < u16_max) then
     ∃ b', TpmBuffer.try_push cap x b = Ok b' ∧
           TpmBuffer.holds cap b' (xs ++ [x]) ∧ TpmBuffer.deref b' = xs ++ [x]
   else TpmBuffer.try_push cap x b = Err (BufferOverflow (zlen xs) 1 (cap - zlen xs))).
Proof.
  intros Hb Hy. split.
  - pose proof (try_extend_spec cap b xs ys Hb Hy) as H. case_decide.
    + destruct H as (b' & E & Hb'). exists b'. split_and!; [done..|]. by apply (holds_deref cap).
    + by eexists.
  - pose proof (try_push_spec cap b xs x Hb) as H. case_decide; [|done].
    destruct H as (b' & E & Hb'). exists b'. split_and!; [done..|]. by apply (holds_deref cap).
Qed.

Lemma buffer_append_witness :
  ∃ b', TpmBuffer.try_extend_from_slice 4 [Byte.x01; Byte.x02] (TpmBuffer.new 4) = Ok b' ∧
        TpmBuffer.holds 4 b' [Byte.x01; Byte.x02] ∧ TpmBuffer.deref b' = [Byte.x01; Byte.x02].
Proof.
  apply (buffer_append 4 (TpmBuffer.new 4) [] [Byte.x01; Byte.x02] Byte.x00).
  - split; [reflexivity|]. split; [|vm_compute; discriminate]. split; [vm_compute; discriminate | reflexivity].
  - vm_compute. discriminate.
Defined.

(** The owned lists: the same for [TpmList], whose capacity errors are
    [TooManyItems] with the count that would have been reached. *)
Theorem list_append (A : Type) (cap : Z) (l : TpmList.t A) (xs ys : list A) (x : A) :
  TpmList.holds cap l xs → zlen xs + zlen ys ≤ usize_max →
  (if decide (zlen xs + zlen ys ≤ cap) then
     ∃ l', TpmList.try_extend_from_slice cap ys l = Ok l' ∧
           TpmList.holds cap l' (xs ++ ys) ∧ TpmList.deref l' = xs ++ ys
   else TpmList.try_extend_from_slice cap ys l = Err (TooManyItems 0 cap (zlen xs + zlen ys))) ∧
  (if decide (zlen xs < cap) then
     ∃ l', TpmList.try_push cap x l = Ok l' ∧
           TpmList.holds cap l' (xs ++ [x]) ∧ TpmList.deref l' = xs ++ [x]
   else TpmList.try_push cap x l = Err (TooManyItems 0 cap (zlen xs + 1))).
Proof.
  assert (∀ (l : TpmList.t A) xs, TpmList.holds cap l xs → TpmList.deref l = xs) as Hd.
  { intros l0 xs0 [Hl Ha]. unfold TpmList.deref. rewrite Hl. by eapply arr_holds_deref. }
  intros Hl Hy. split.
  - pose proof (list_try_extend_spec cap l xs ys Hl Hy) as H. case_decide; [|done].
    destruct H as (l' & E & Hl'). exists l'. split_and!; [done..|]. by apply Hd.
  - pose proof (list_try_push_spec cap l xs x Hl) as H. case_decide; [|done].
    destruct H as (l' & E & Hl'). exists l'. split_and!; [done..|]. by apply Hd.
Qed.

Lemma list_append_witness :
  ∃ l', TpmList.try_extend_from_slice 3 [7; 8] (TpmList.new 3) = Ok l' ∧
        TpmList.holds 3 l' [7; 8] ∧ TpmList.deref l' = [7; 8].
Proof.
  apply (list_append Z 3 (TpmList.new 3) [] [7; 8] 9).
  - split; [reflexivity|]. split; [vm_compute; discriminate | reflexivity].
  - vm_compute. discriminate.
Defined.

(** Iterating over a cast list: once [cast_items] has accepted the
    bytes of a TPML, the iterator of [items] yields exactly one view per
    item of the decoded list, in order, each denoting its item, and then
    ends: it neither fails nor stops early, however often it is polled. *)
Theorem list_iteration (T : WireType) (cap static_empty : Z) (s vw : slice) :
  WireOk T → 0 ≤ cap ≤ u32_max → slice_ok s → Tpml.cast_items T cap s = Ok vw →
  ∃ l views it,
    unmarshal (TpmList.wire_type T cap) s = Ok (l, mk_slice (sl_addr s + sl_len s) []) ∧
    Forall2 (view_of T) views (TpmList.deref l) ∧
    Tpml.items vw = Ok it ∧
    ∀ polls, (length views ≤ polls)%nat → Tpml.collect T static_empty polls it = map Ok views.
Proof.
  intros HT Hcap Hs Hc.
  pose proof (list_codec_ok T cap Hcap) as Hok.
  apply (cast_items_sound T cap Hcap) in Hc as (-> & vs & bss & Hv & He & Hd); [|done].
  destruct (list_holds_exists cap Hcap vs Hv) as [l Hl].
  assert (consumes (TpmList.format bss) s (mk_slice (sl_addr s + sl_len s) [])) as Hcs
    by (split; simpl; [by rewrite app_nil_r | by rewrite <-Hd]).
  pose proof (encodes_length T _ _ He) as El. pose proof (zlen_nonneg vs).
  unfold TpmList.format in Hcs; rewrite El in Hcs.
  destruct (validate_header_app cap (zlen vs) (concat bss) s _ ltac:(lia) ltac:(lia) Hcs)
    as [Hh Hi].
  destruct (collect_complete T static_empty vs bss (mk_slice (sl_addr s + 4) (concat bss ++ []))
              (mk_slice (sl_addr s + 4 + zlen (concat bss)) []) He) as (views & HF & Hcol).
  - pose proof (consumes_len _ _ _ Hcs) as L. rewrite zlen_app, zlen_be4 in L.
    unfold slice_ok, sl_len in *; simpl in *. rewrite app_nil_r.
    change (zlen []) with 0 in L. pose proof (zlen_nonneg (concat bss)); lia.
  - by split.
  - exists l, views, (Tpml.mk_iter (mk_slice (sl_addr s + 4) (concat bss ++ [])) (zlen vs)).
    split_and!.
    + apply (unmarshal_wire (c:=TpmList.codec T cap) l (TpmList.format bss)); [done| |].
      * apply list_wire_Some; [done|]. by exists vs, bss.
      * unfold TpmList.format; by rewrite El.
    + by rewrite (list_holds_deref cap l vs Hl).
    + unfold Tpml.items, Tpml.items_bytes, Tpml.count. rewrite Hi; simpl.
      unfold Tpml.validate_header in Hh. case_match; [done|].
      apply result_bind_Ok_inv in Hh as (n & Hn & Hh). rewrite Hn; simpl.
      case_match; [done|]. by injection Hh as ->.
    + intros polls. rewrite (Forall2_length HF). apply Hcol.
Qed.

Definition sample_alg_list : slice :=
  mk_slice 64 (be_encode 4 2 ++ be_encode 2 0x000B ++ be_encode 2 0x0023).

Lemma list_iteration_witness :
  ∃ l views it,
    unmarshal TpmlAlg sample_alg_list = Ok (l, mk_slice (64 + 8) []) ∧
    Forall2 (view_of TpmAlgId) views (TpmList.deref l) ∧
    Tpml.items sample_alg_list = Ok it ∧
    ∀ polls, (length views ≤ polls)%nat → Tpml.collect TpmAlgId 8 polls it = map Ok views.
Proof.
  apply (list_iteration TpmAlgId 64 8 sample_alg_list sample_alg_list).
  - apply _.
  - vm_compute. intuition discriminate.
  - vm_compute. intuition discriminate.
  - reflexivity.
Defined.

(** The bit operations of [tpm_bitflags!]: each acts on every bit on
    its own, complement within the width of the underlying integer, so no
    operation leaves that integer, and [contains] is the subset test. *)
Theorem bitflags_ops (N : nat) (a b : Bitflags.t) (i : Z) :
  0 ≤ Bitflags.bits a < 2 ^ TpmInt.bits N → 0 ≤ Bitflags.bits b < 2 ^ TpmInt.bits N → 0 ≤ i →
  let bit x := Z.testbit (Bitflags.bits x) i in
  bit (Bitflags.bitor a b) = bit a || bit b ∧
  bit (Bitflags.bitand a b) = bit a && bit b ∧
  bit (Bitflags.bitxor a b) = xorb (bit a) (bit b) ∧
  bit (Bitflags.not N a) = (if i <? TpmInt.bits N then negb (bit a) else false) ∧
  (Bitflags.contains a b = true ↔ Bitflags.bitor a b = a) ∧
  Forall (λ x, is_Some (Bitflags.wire N x))
    [Bitflags.bitor a b; Bitflags.bitand a b; Bitflags.bitxor a b; Bitflags.not N a].
Proof.
  intros Ha Hb Hi bit.
  assert (0 ≤ TpmInt.bits N) as HN by (unfold TpmInt.bits; lia).
  split_and!.
  - apply Z.lor_spec.
  - apply Z.land_spec.
  - apply Z.lxor_spec.
  - by apply bitflags_not_bit.
  - apply bitflags_contains.
  - repeat constructor; apply bitflags_wire_bound, bits_bound; try done; intros j Hj.
    + simpl. by rewrite Z.lor_spec, !(testbit_above (TpmInt.bits N)).
    + simpl. by rewrite Z.land_spec, !(testbit_above (TpmInt.bits N)).
    + simpl. by rewrite Z.lxor_spec, !(testbit_above (TpmInt.bits N)).
    + rewrite bitflags_not_bit by (done || lia). by rewrite (proj2 (Z.ltb_ge _ _)).
Qed.

Lemma bitflags_ops_witness :
  Bitflags.not 1 (Bitflags.from_bits_truncate 0x0F) = Bitflags.from_bits_truncate 0xF0 ∧
  Bitflags.contains TpmaNv.AUTHREAD TpmaNv.AUTHREAD = true.
Proof.
  split.
  - reflexivity.
  - apply (bitflags_ops 4 TpmaNv.AUTHREAD TpmaNv.AUTHREAD 0).
    + vm_compute. intuition discriminate.
    + vm_compute. intuition discriminate.
    + lia.
    + reflexivity.
Defined.

(** ** Structures *)

(** Field accessors of a cast structure: once [cast] has accepted the
    bytes of a [tpm_struct!], the accessor of every field succeeds, returns
    a view of that field's value in the decoded structure, and the view
    borrows from the structure's bytes. *)
Theorem struct_accessors (prev post : wire_fields) (f : string * WireType) (s vw : slice) :
  WireFieldsOk (prev ++ f :: post) → slice_ok s → TpmStruct.cast (prev ++ f :: post) s = Ok vw →
  ∃ v x, unmarshal (tpm_struct (prev ++ f :: post)) vw = Ok (v, mk_slice (sl_addr vw + sl_len vw) []) ∧
    TpmStruct.field prev f.2 vw = Ok x ∧ view_of f.2 x (field_value prev f post v) ∧ view_in f.2 x vw.
Proof.
  intros Hfs Hs Hc. apply (struct_cast_spec _ s Hs) in Hc as [-> [v Hw]].
  assert (consumes (sl_data s) s (mk_slice (sl_addr s + sl_len s) [])) as Hcs
    by (split; simpl; [by rewrite app_nil_r | done]).
  destruct (struct_field_complete prev f post v _ s _ Hfs Hs Hw Hcs) as (x & Hx & Hv & Hin).
  exists v, x. split_and!; try done.
  by apply (unmarshal_wire (c:=tpm_struct (prev ++ f :: post)) v (sl_data s)).
Qed.

(** The bytes of a creation ticket, for the witnesses. *)
Definition sample_ticket : list byte :=
  be_encode 2 0x8021 ++ be_encode 4 0x40000001 ++ be_encode 2 1 ++ [Byte.xaa].
Definition ticket_prev : wire_fields := [("tag", TpmSt)].
Definition ticket_post : wire_fields := [("digest", Tpm2bDigest)].

Definition sample_ticket_value : ty TpmtTkCreation :=
  (TpmSt.Creation, (TpmRh.Owner, (TpmBuffer.mk 1 (Some Byte.xaa :: replicate 63 None), ()))).

Lemma struct_accessors_witness :
  ∃ v x, unmarshal TpmtTkCreation (mk_slice 64 sample_ticket) = Ok (v, mk_slice (64 + 9) []) ∧
    TpmStruct.field ticket_prev TpmRh (mk_slice 64 sample_ticket) = Ok x ∧
    view_of TpmRh x (field_value ticket_prev ("hierarchy", TpmRh) ticket_post v) ∧
    view_in TpmRh x (mk_slice 64 sample_ticket).
Proof.
  apply (struct_accessors ticket_prev ticket_post ("hierarchy", TpmRh)
           (mk_slice 64 sample_ticket) (mk_slice 64 sample_ticket)).
  - exact (wire_fields_ok_cons "tag" TpmSt _ TpmSt_ok
      (wire_fields_ok_cons "hierarchy" TpmRh _ TpmRh_ok
        (wire_fields_ok_cons "digest" Tpm2bDigest [] Tpm2bDigest_ok wire_fields_ok_nil))).
  - vm_compute. intuition discriminate.
  - vm_compute. reflexivity.
Defined.

(** Exact casts: [cast] accepts the encoding of a structure only when
    nothing follows it; otherwise it reports [TrailingData] at the end of
    the structure with the number of extra bytes.  Nothing that is not an
    encoding is accepted. *)
Theorem struct_cast_exact (fs : wire_fields) (s : slice) :
  WireFieldsOk fs → slice_ok s →
  (∀ v r, unmarshal (tpm_struct fs) s = Ok (v, r) →
     TpmStruct.cast fs s =
       if sl_len r =? 0 then Ok s else Err (TrailingData (sl_len s - sl_len r) (sl_len r))) ∧
  (∀ vw, TpmStruct.cast fs s = Ok vw →
     vw = s ∧ ∃ v, unmarshal (tpm_struct fs) s = Ok (v, mk_slice (sl_addr s + sl_len s) [])).
Proof.
  intros Hfs Hs. split.
  - intros v r Hu. apply (unmarshal_sound (c:=tpm_struct fs)) in Hu as (bs & Hw & Hc); [|done].
    rewrite (struct_cast_trailing fs v bs s r Hs Hw Hc).
    pose proof (consumes_len _ _ _ Hc). case_match; [done|]. do 2 f_equal. lia.
  - intros vw Hc. apply (struct_cast_spec _ s Hs) in Hc as [-> [v Hw]]. split; [done|].
    exists v. apply (unmarshal_wire (c:=tpm_struct fs) v (sl_data s)); [done..|].
    split; simpl; [by rewrite app_nil_r | done].
Qed.

Lemma struct_cast_exact_witness :
  TpmStruct.cast (ticket_prev ++ ("hierarchy", TpmRh) :: ticket_post)
    (mk_slice 64 (sample_ticket ++ [Byte.x00; Byte.x00])) = Err (TrailingData 9 2).
Proof.
  refine (proj1 (struct_cast_exact (ticket_prev ++ ("hierarchy", TpmRh) :: ticket_post)
    (mk_slice 64 (sample_ticket ++ [Byte.x00; Byte.x00])) _ _)
    sample_ticket_value (mk_slice 73 [Byte.x00; Byte.x00]) _).
  - vm_compute. intuition discriminate.
  - vm_compute. reflexivity.
Defined.

(** Error positions: when a field of a [tpm_struct!] fails after the
    fields before it have been read, [unmarshal] reports that field's error
    rebased by the bytes those fields took, so its offset counts from the
    start of the structure. *)
Theorem struct_error_offset (prev post : fields) (f : string * Codec) (vs : fields_ty prev)
    (bs : list byte) (s r : slice) (e : TpmError) :
  FieldsOk (prev ++ f :: post) → slice_ok s →
  fields_wire prev vs = Some bs → consumes bs s r → unmarshal f.2 r = Err e →
  unmarshal_fields (prev ++ f :: post) s s = Err (rebase (zlen bs) e) ∧
  offset (rebase (zlen bs) e) = (offset e + zlen bs) `min` usize_max.
Proof.
  intros Hfs Hs Hw Hc He. split; [|apply offset_rebase].
  rewrite (unmarshal_fields_error prev f post vs bs s s r e Hfs Hs (Z.le_refl _) Hw Hc He).
  do 2 f_equal. pose proof (consumes_len _ _ _ Hc). lia.
Qed.

Lemma struct_error_offset_witness :
  unmarshal_fields ([("tag", codec TpmSt)] ++ ("hierarchy", codec TpmRh) :: [("digest", codec Tpm2bDigest)])
    (mk_slice 64 (be_encode 2 0x8021 ++ be_encode 4 5)) (mk_slice 64 (be_encode 2 0x8021 ++ be_encode 4 5))
  = Err (rebase 2 (VariantNotAvailable 0 5)) ∧
  offset (rebase 2 (VariantNotAvailable 0 5)) = (0 + 2) `min` usize_max.
Proof.
  apply (struct_error_offset [("tag", codec TpmSt)] [("digest", codec Tpm2bDigest)]
    ("hierarchy", codec TpmRh) (TpmSt.Creation, ()) (be_encode 2 0x8021)
    (mk_slice 64 (be_encode 2 0x8021 ++ be_encode 4 5)) (mk_slice 66 (be_encode 4 5))).
  - exact (fields_ok_cons "tag" TpmSt _ wire_codec_ok
      (fields_ok_cons "hierarchy" TpmRh _ wire_codec_ok
        (fields_ok_cons "digest" Tpm2bDigest [] wire_codec_ok fields_ok_nil))).
  - vm_compute. intuition discriminate.
  - vm_compute. reflexivity.
  - split; vm_compute; reflexivity.
  - vm_compute. reflexivity.
Defined.

(** Sized structures ([tpm2b_struct!]): [unmarshal] accepts exactly a
    16-bit size followed by an encoding of precisely that many bytes, and
    reads nothing beyond it. *)
Theorem sized_struct_exact (I : Codec) (s r : slice) (v : Tpm2bStruct.t (ty I)) :
  I ∈ data_types → slice_ok s →
  Tpm2bStruct.unmarshal I s = Ok (v, r) ↔
  ∃ b, wire I (Tpm2bStruct.inner v) = Some b ∧ zlen b ≤ u16_max ∧
       consumes (be_encode 2 (zlen b) ++ b) s r.
Proof.
  intros HI%data_type_ok Hs. split.
  - by apply tpm2b_unmarshal_Ok.
  - intros (b & Hw & Hb & Hc). destruct v as [v]. by eapply tpm2b_unmarshal_complete.
Qed.

Lemma sized_struct_exact_witness :
  Tpm2bStruct.unmarshal TpmtPublic (mk_slice 0 (be_encode 2 14 ++ sample_public_bytes)) =
    Ok (Tpm2bStruct.mk sample_public, mk_slice 16 []).
Proof.
  apply (sized_struct_exact TpmtPublic (mk_slice 0 (be_encode 2 14 ++ sample_public_bytes))).
  - by apply (data_type_at 127).
  - vm_compute. intuition discriminate.
  - exists sample_public_bytes. split; [vm_compute; reflexivity|].
    split; [vm_compute; discriminate | split; vm_compute; reflexivity].
Defined.

(** A union that does not match its selector is never marshalled:
    [tpm_struct_tagged!] structures and [TpmtPublic] report
    [VariantNotAvailable] at the writer's position, with the selector's
    value, before writing anything. *)
Theorem mismatched_tag_rejected (w : TpmWriter) :
  (∀ (E : Codec) (U : Tagged (ty E)) (tag_value : ty E → Z) (v : TaggedStruct.t (ty E) (uty U)),
     matches_tag U (TaggedStruct.value_field v) (TaggedStruct.tag_field v) = false →
     TaggedStruct.marshal E U tag_value v w =
       (Err (VariantNotAvailable (cursor w) (tag_value (TaggedStruct.tag_field v))), w)) ∧
  (∀ v : TpmtPublic.t,
     matches_tag TpmuPublicParms (TpmtPublic.parameters v) (TpmtPublic.object_type v) = false ∨
     matches_tag TpmuPublicId (TpmtPublic.unique v) (TpmtPublic.object_type v) = false →
     TpmtPublic.marshal v w =
       (Err (VariantNotAvailable (cursor w) (value (TpmtPublic.object_type v))), w)).
Proof.
  split.
  - intros E U tv v Hm. unfold TaggedStruct.marshal. by rewrite Hm.
  - intros v Hm. unfold TpmtPublic.marshal. destruct Hm as [-> | ->]; [done|].
    by rewrite orb_true_r.
Qed.

Lemma mismatched_tag_rejected_witness :
  TpmtPublic.marshal
    (TpmtPublic.mk TpmAlgId.Rsa TpmAlgId.Sha256 (Bitflags.from_bits_truncate 0) (TpmBuffer.new 64)
       (TpmuPublicParms.KeyedHash (TaggedStruct.mk TpmAlgId.Null TpmuKeyedhashScheme.Null, ()))
       (TpmuPublicId.Rsa (TpmBuffer.new 512))) (sample_writer 8)
  = (Err (VariantNotAvailable 0 1), sample_writer 8).
Proof.
  apply (mismatched_tag_rejected (sample_writer 8)). left. vm_compute. reflexivity.
Defined.

(** Attestations: the encoding of a [TpmsAttest] starts with
    [TPM_GENERATED_VALUE], and input that starts with any other number is
    refused with [InvalidMagicNumber], by [unmarshal] and by the view. *)
Theorem attest_magic (s : slice) (m : Z) (rest : list byte) :
  slice_ok s → 0 ≤ m ≤ u32_max → sl_data s = be_encode 4 m ++ rest → m ≠ TPM_GENERATED_VALUE →
  unmarshal TpmsAttest s = Err (InvalidMagicNumber 0 m) ∧
  cast_prefix_field TpmsAttest s = Err (InvalidMagicNumber 0 m) ∧
  ∀ v bs, wire TpmsAttest v = Some bs → ∃ tl, bs = be_encode 4 TPM_GENERATED_VALUE ++ tl.
Proof.
  intros Hs Hm Hd Hne.
  assert (0 ≤ m < 2 ^ (8 * Z.of_nat 4)) as Hr by (unfold u32_max in Hm; simpl; lia).
  assert (wire TpmUint32 (TpmInt.new 4 m) = Some (be_encode 4 m)) as Hw
    by (rewrite <-bytes_new by done; apply int_wire_new).
  assert (consumes (be_encode 4 m) s (mk_slice (sl_addr s + zlen (be_encode 4 m)) rest)) as Hc
    by by split.
  assert (TpmInt.value 4 false (TpmInt.new 4 m) = m) as Hv
    by (apply value_new; [lia | by apply in_range_u32]).
  split_and!.
  - change (unmarshal TpmsAttest s) with (TpmsAttest.unmarshal s). unfold TpmsAttest.unmarshal.
    rewrite (unmarshal_wire (c:=TpmUint32) _ _ s _ Hs Hw Hc). cbn [result_bind].
    rewrite Hv, (proj2 (Z.eqb_neq _ _) Hne). done.
  - change (cast_prefix_field TpmsAttest s) with (TpmsAttest.cast_prefix_field s).
    unfold TpmsAttest.cast_prefix_field.
    destruct (cast_view TpmUint32 _ _ s _ Hs Hw Hc) as (vw & -> & Hvw & _). cbn [result_bind].
    rewrite (int_view_of 4 vw _ false Hvw), Hv, (proj2 (Z.eqb_neq _ _) Hne). done.
  - intros v bs (_ & Hb)%attest_wire_Some. apply wcat_Some in Hb as (b1 & b2 & H1 & _ & ->).
    exists b2. f_equal. unfold TpmsAttest.magic in H1.
    change (wire TpmUint32 (TpmInt.new 4 TPM_GENERATED_VALUE)) with
      (Some (be_encode 4 TPM_GENERATED_VALUE)) in H1. by injection H1 as <-.
Qed.

Lemma attest_magic_witness :
  unmarshal TpmsAttest (mk_slice 0 (be_encode 4 7 ++ [Byte.x00])) = Err (InvalidMagicNumber 0 7).
Proof.
  apply (attest_magic (mk_slice 0 (be_encode 4 7 ++ [Byte.x00])) 7 [Byte.x00]).
  - vm_compute. intuition discriminate.
  - vm_compute. intuition discriminate.
  - reflexivity.
  - discriminate.
Defined.

(** ** Writer and error offsets *)

(** Rebasing: it moves only the offset, by a saturating addition, and
    composes, so an error that crosses several levels of nesting carries the
    offset from the outermost start; [tpm_offset] of a cursor is the number
    of bytes consumed before it. *)
Theorem rebase_laws (e : TpmError) (d1 d2 : Z) (base r : slice) (bs : list byte) :
  0 ≤ offset e ≤ usize_max → 0 ≤ d1 → 0 ≤ d2 → slice_ok base → consumes bs base r →
  offset (rebase d1 e) = (offset e + d1) `min` usize_max ∧
  rebase d2 (rebase d1 e) = rebase ((d1 + d2) `min` usize_max) e ∧
  Errors.display (rebase d1 e) = Errors.display e ∧
  tpm_offset base r = zlen bs.
Proof.
  intros He H1 H2 Hb Hc. split_and!.
  - apply offset_rebase.
  - by apply rebase_rebase.
  - by destruct e.
  - by apply tpm_offset_consumes.
Qed.

Lemma rebase_laws_witness :
  rebase 3 (rebase 4 (TrailingData 5 1)) = rebase ((4 + 3) `min` usize_max) (TrailingData 5 1).
Proof.
  apply (rebase_laws (TrailingData 5 1) 4 3 (mk_slice 0 [Byte.x00]) (mk_slice 1 []) [Byte.x00]);
    try lia; vm_compute; intuition discriminate.
Defined.

(** [TpmWriter::write_bytes]: bytes that fit are appended and move the
    cursor by their number; bytes that do not fit are refused as a whole,
    with the writer unchanged.  Either way the writer stays valid. *)
Theorem write_bytes_spec (w : TpmWriter) (bs : list byte) :
  writer_ok w → zlen bs ≤ isize_max →
  let (res, w') := write_bytes bs w in
  writer_ok w' ∧ capacity w' = capacity w ∧
  (if zlen bs <=? room w
   then res = Ok () ∧ as_bytes w' = as_bytes w ++ bs ∧ writer_len w' = writer_len w + zlen bs
   else res = Err (BufferOverflow (cursor w) (zlen bs) (room w)) ∧ w' = w).
Proof.
  intros Hw Hb. destruct (writes_write_bytes bs w Hw) as [Ho He].
  destruct (zlen bs <=? room w) eqn:Hr.
  - apply Z.leb_le in Hr. rewrite (Ho Hr). split_and!; try done.
    + by apply put_ok.
    + by apply put_capacity.
    + by apply put_as_bytes.
  - apply Z.leb_gt in Hr. unfold write_bytes, write_bytes_raw.
    unfold writer_ok, room, capacity in *. pose proof (zlen_nonneg bs).
    rewrite checked_add_Some by (unfold isize_max, usize_max in *; lia).
    rewrite (proj2 (Z.ltb_lt _ _)) by lia. split_and!; try done; try lia.
    unfold saturating_sub. do 2 f_equal. lia.
Qed.

Lemma write_bytes_spec_witness :
  let (res, w') := write_bytes [Byte.x01] (sample_writer 4) in
  writer_ok w' ∧ capacity w' = 4 ∧ res = Ok () ∧ as_bytes w' = [] ++ [Byte.x01] ∧ writer_len w' = 0 + 1.
Proof.
  apply (write_bytes_spec (sample_writer 4) [Byte.x01]).
  - vm_compute. intuition discriminate.
  - vm_compute. discriminate.
Defined.
