(* ===== verification/FrameProperties.v ===== *)
(** What the frame layer promises: properties of command and response
    frames, of their marshalling and of dispatch. *)

From S2P Require Import Prelude Errors Writer Codec Integer Buffer Tpml Struct EnumMacro Enums.
From S2P Require Import Rc Attributes Union BasicTypes Schemes Structures Types.
From S2P Require Import Body FrameData Dispatch Envelope Command Response Marshal.

(** ** Concrete frames for the witnesses *)

(** [TPM2_Unseal] of a transient object with a password session. *)
Definition unseal_body : body (command TpmCc.Unseal) :=
  @mk TpmUnsealCommand [TpmInt.new 4 0x80000001] ().
Definition password_session : ty TpmsAuthCommand :=
  (TpmInt.new 4 0x40000009, (TpmBuffer.new 64, (Bitflags.from_bits_truncate 0, (TpmBuffer.new 64, ())))).
Definition password_bytes : list byte :=
  be_encode 4 0x40000009 ++ be_encode 2 0 ++ be_encode 1 0 ++ be_encode 2 0.
Definition unseal_parts : command_parts :=
  mk_command TpmSt.Sessions TpmCc.Unseal (be_encode 4 0x80000001) password_bytes [].

(** The response of [TPM2_Unseal], without sessions, and [TPM2_Clear]'s. *)
Definition unseal_response : body (response TpmCc.Unseal) :=
  @mk TpmUnsealResponse [] (TpmBuffer.new 256, ()).
Definition unseal_response_parts : response_envelope :=
  mk_envelope TpmSt.NoSessions (TpmRc.Fmt0 TpmRcBase.Success) (be_encode 2 0).

(** Proves what evaluation decides. *)
Ltac by_compute := vm_compute; first [reflexivity | discriminate | intuition discriminate].

(** ** Round trips *)

(** C1.  Command frames round trip, for each of the 126 commands: marshalling
    a body with its sessions into a writer with room appends exactly the
    frame; and wherever that frame is stored, [cast] and [validate] accept
    it, its size field is its length, its tag and authorization area are the
    ones marshalled, and [unmarshal] returns the body. *)
Theorem command_roundtrip (cc : TpmCc.t) (v : body (command cc)) (hs ps : list byte)
    (tag : TpmSt.t) (sessions : list (ty TpmsAuthCommand)) (ab : list byte) (w : TpmWriter) (s : slice) :
  TpmBody.wire (command cc) v = Some (hs, ps) →
  seq_wire TpmsAuthCommand sessions = Some ab → zlen sessions ≤ MAX_SESSIONS →
  (tag = TpmSt.NoSessions ∧ sessions = [] ∨ tag = TpmSt.Sessions ∧ sessions ≠ []) →
  let p := mk_command tag cc hs ab ps in
  zlen (command_format p) ≤ u32_max →
  writer_ok w → zlen (command_format p) ≤ room w → slice_ok s → sl_data s = command_format p →
  (∃ w', command_marshal_frame (command_value cc v) tag sessions w = (Ok (), w') ∧
     as_bytes w' = as_bytes w ++ command_format p) ∧
  TpmCommand.cast s = Ok s ∧ TpmCommand.validate s = Ok () ∧
  TpmCommand.unmarshal (command cc) s = Ok v ∧ TpmCommand.tag s = Ok tag ∧
  TpmCommand.size s = Ok (sl_len s) ∧
  TpmCommand.auth_area s = Ok (mk_slice (sl_addr s + auth_offset p) ab).
Proof.
  intros Hv Hs Hc Ht p Hsize Hw Hr Hok Hd.
  assert (10 + zlen (command_body (mk_command tag (CC (command cc)) hs ab ps)) ≤ u32_max) as Hsize'
    by (rewrite command_CC, <-zlen_command_format; done).
  assert (HANDLES (command cc) = HANDLES (command (CC (command cc)))) as HR by by rewrite command_CC.
  split.
  - exists (put w (command_format p)). split; [|by apply put_as_bytes].
    pose proof (command_frame_writes (command cc) HR v hs ps Hv tag sessions ab Hs Hc Ht Hsize') as Hf.
    rewrite command_CC in Hf. by apply Hf.
  - pose proof (command_frame_reads (command cc) HR v hs ps Hv tag sessions ab Hs Hc Ht Hsize' s Hok) as Hf.
    rewrite command_CC in Hf. by apply Hf.
Qed.

Lemma command_roundtrip_witness :
  (∃ w', command_marshal_frame (command_value TpmCc.Unseal unseal_body) TpmSt.Sessions [password_session]
           (writer_new (replicate 64 Byte.x00)) = (Ok (), w') ∧
     as_bytes w' = [] ++ command_format unseal_parts) ∧
  TpmCommand.cast (mk_slice 0 (command_format unseal_parts)) = Ok (mk_slice 0 (command_format unseal_parts)) ∧
  TpmCommand.validate (mk_slice 0 (command_format unseal_parts)) = Ok () ∧
  TpmCommand.unmarshal TpmUnsealCommand (mk_slice 0 (command_format unseal_parts)) = Ok unseal_body ∧
  TpmCommand.tag (mk_slice 0 (command_format unseal_parts)) = Ok TpmSt.Sessions ∧
  TpmCommand.size (mk_slice 0 (command_format unseal_parts)) = Ok 27 ∧
  TpmCommand.auth_area (mk_slice 0 (command_format unseal_parts)) = Ok (mk_slice (0 + 18) password_bytes).
Proof.
  apply (command_roundtrip TpmCc.Unseal unseal_body (be_encode 4 0x80000001) [] TpmSt.Sessions
    [password_session] password_bytes (writer_new (replicate 64 Byte.x00))
    (mk_slice 0 (command_format unseal_parts))).
  - by_compute.
  - by_compute.
  - by_compute.
  - right. split; [reflexivity | discriminate].
  - by_compute.
  - by_compute.
  - by_compute.
  - by_compute.
  - reflexivity.
Defined.

(** C2.  Response frames round trip, for each of the 126 responses: a
    successful response marshalled with its sessions is accepted, validated
    and unmarshalled back to the same body. *)
Theorem response_roundtrip (cc : TpmCc.t) (v : body (response cc)) (hs ps : list byte)
    (sessions : list (ty TpmsAuthResponse)) (ab : list byte) (w : TpmWriter) (s : slice) :
  TpmBody.wire (response cc) v = Some (hs, ps) →
  seq_wire TpmsAuthResponse sessions = Some ab → zlen sessions ≤ MAX_SESSIONS →
  let success := TpmRc.Fmt0 TpmRcBase.Success in
  let tag := if nil_b sessions then TpmSt.NoSessions else TpmSt.Sessions in
  let frame := envelope_format (mk_envelope tag success (success_body tag hs ps ab)) in
  zlen frame ≤ u32_max →
  writer_ok w → zlen frame ≤ room w → slice_ok s → sl_data s = frame →
  (∃ w', response_marshal_frame (response_value cc v) success sessions w = (Ok (), w') ∧
     as_bytes w' = as_bytes w ++ frame) ∧
  TpmResponse.cast s = Ok s ∧ TpmResponse.validate s cc = Ok () ∧
  TpmResponse.unmarshal (response cc) s = Ok v ∧ TpmResponse.rc s = Ok success ∧
  TpmResponse.size s = Ok (sl_len s).
Proof.
  intros Hv Hs Hc success tag frame Hsize Hw Hr Hok Hd.
  assert (10 + zlen (success_body (response_tag sessions) hs ps ab) ≤ u32_max) as Hsize'
    by (unfold frame in Hsize; rewrite zlen_envelope_format in Hsize; done).
  assert (HANDLES (response cc) = HANDLES (response (CC (response cc)))) as HR by by rewrite response_CC.
  split.
  - exists (put w frame). split; [|by apply put_as_bytes].
    apply (response_frame_writes (response cc) HR v hs ps Hv sessions ab Hs Hc); done.
  - pose proof (response_frame_reads (response cc) HR v hs ps Hv sessions ab Hs Hc Hsize' s Hok Hd) as Hf.
    by rewrite response_CC in Hf.
Qed.

Lemma response_roundtrip_witness :
  TpmResponse.unmarshal TpmUnsealResponse (mk_slice 0 (envelope_format unseal_response_parts)) =
    Ok unseal_response.
Proof.
  apply (response_roundtrip TpmCc.Unseal unseal_response [] (be_encode 2 0) [] []
    (writer_new (replicate 12 Byte.x00)) (mk_slice 0 (envelope_format unseal_response_parts))); by_compute.
Defined.

(** ** Parsing frames *)

(** [TpmCommand::cast] accepts exactly the byte strings of the command
    frame format: a session tag, the length of the whole frame, a command
    code of the table, that command's handles, with [TPM_ST_SESSIONS] a
    sized authorization area, and parameters.  The view is the input
    itself.  [cast_prefix] takes exactly one such frame off a longer input. *)
Theorem command_cast_exact (s : slice) :
  (∀ vw, TpmCommand.cast s = Ok vw ↔
     vw = s ∧ ∃ p, command_parts_ok p ∧ sl_data s = command_format p) ∧
  (∀ f r, TpmCommand.cast_prefix s = Ok (f, r) ↔
     ∃ p, command_parts_ok p ∧ f = mk_slice (sl_addr s) (command_format p) ∧
          consumes (command_format p) s r).
Proof. split; intros; [apply command_cast_spec | apply command_cast_prefix_spec]. Qed.

(** Header errors, in the order of the checks: both [TpmCommand::cast]
    and [TpmResponse::cast] report an input shorter than a header, a size
    field below the header's size, above the input's length or below it, and
    a tag that is not a session tag; then an undefined command code or
    response code, and a command whose handles are cut off.  Each error
    carries the offset of the offending field. *)
Theorem header_errors (s : slice) (t z c : Z) (b : list byte) :
  let refused e := TpmCommand.cast s = Err e ∧ TpmResponse.cast s = Err e in
  (sl_len s < 10 → refused (UnexpectedEnd 0 10 (sl_len s))) ∧
  (sl_data s = frame_bytes t z c b → header_ok t z c →
   (z < 10 → refused (UnexpectedEnd 2 10 z)) ∧
   (10 ≤ z → sl_len s < z → refused (UnexpectedEnd (sl_len s) (z - sl_len s) 0)) ∧
   (10 ≤ z → z < sl_len s → refused (TrailingData z (sl_len s - z))) ∧
   (z = sl_len s → t ≠ value TpmSt.NoSessions → t ≠ value TpmSt.Sessions → refused (InvalidTag 0 t)) ∧
   (z = sl_len s → t = value TpmSt.NoSessions ∨ t = value TpmSt.Sessions →
    ((∀ cc : TpmCc.t, value cc ≠ c) → TpmCommand.cast s = Err (InvalidCc 6 c)) ∧
    (∀ cc, c = value cc → zlen b < Z.of_nat (HANDLES (command cc)) * 4 →
       TpmCommand.cast s = Err (UnexpectedEnd 10 (Z.of_nat (HANDLES (command cc)) * 4) (zlen b))) ∧
    ((∀ rc, TpmRc.well_formed rc = true → TpmRc.value rc ≠ c) →
       TpmResponse.cast s = Err (InvalidRc 6 c)))).
Proof.
  intros refused. split.
  { intros H. unfold refused, TpmCommand.cast, TpmResponse.cast, TpmCommand.validate_envelope,
      TpmResponse.validate_envelope. by rewrite validate_frame_size_short. }
  intros Hd Hh.
  assert (∀ e, validate_frame_size s = Err e → refused e) as Hsize.
  { intros e He. unfold refused, TpmCommand.cast, TpmResponse.cast, TpmCommand.validate_envelope,
      TpmResponse.validate_envelope. by rewrite He. }
  pose proof (validate_frame_size_field s t z c b Hd Hh) as Hf. unfold HEADER_SIZE in Hf.
  assert (z = sl_len s → validate_frame_size s = Ok ()) as Hfit.
  { intros E. assert (sl_len s = 10 + zlen b) as Hl by (unfold sl_len; by rewrite Hd, zlen_frame_bytes).
    pose proof (zlen_nonneg b). rewrite Hf. repeat (case_match; try lia). done. }
  split_and!.
  - intros H. apply Hsize. rewrite Hf. by rewrite (proj2 (Z.ltb_lt _ _) H).
  - intros H1 H2. apply Hsize. rewrite Hf. repeat (case_match; try lia). done.
  - intros H1 H2. apply Hsize. rewrite Hf. repeat (case_match; try lia). done.
  - intros E H1 H2. unfold refused, TpmCommand.cast, TpmResponse.cast.
    rewrite (command_envelope_field s t z c b Hd Hh), (response_envelope_field s t z c b Hd Hh).
    rewrite (Hfit E). cbn [result_bind]. by rewrite !tag_check_bad.
  - intros E Ht. unfold TpmCommand.cast, TpmResponse.cast.
    rewrite (command_envelope_field s t z c b Hd Hh), (response_envelope_field s t z c b Hd Hh).
    rewrite (Hfit E). cbn [result_bind].
    assert (∃ tag, t = value tag ∧ (tag = TpmSt.NoSessions ∨ tag = TpmSt.Sessions)) as (tag & Et & Htag)
      by (destruct Ht; eexists; eauto).
    rewrite Et, !tag_check_good by done. split_and!.
    + intros Hc. by rewrite (validate_body_bad_cc s tag t z c b Hd Hh Hc).
    + intros cc -> Hl. by rewrite (validate_body_short s tag t z cc b Hd Hh Hl).
    + intros Hc. destruct Hh as (_ & _ & Hr). by rewrite (rc_try_from_undefined c Hr Hc).
Qed.

Lemma header_errors_witness :
  TpmCommand.cast (mk_slice 0 [Byte.x80]) = Err (UnexpectedEnd 0 10 1) ∧
  TpmCommand.cast (mk_slice 0 (frame_bytes 0x8001 12 0x17B [Byte.x00])) = Err (UnexpectedEnd 11 1 0).
Proof.
  split.
  - apply (header_errors (mk_slice 0 [Byte.x80]) 0 0 0 []). reflexivity.
  - apply (header_errors (mk_slice 0 (frame_bytes 0x8001 12 0x17B [Byte.x00])) 0x8001 12 0x17B [Byte.x00]);
      by_compute.
Defined.

(** The accessors of an accepted command frame return its parts as
    zero-copy sub-slices at the offsets of the format: tag, size and command
    code, handles, authorization area and parameters. *)
Theorem command_accessors (s : slice) (p : command_parts) :
  command_parts_ok p → sl_data s = command_format p →
  TpmCommand.tag s = Ok (cp_tag p) ∧ TpmCommand.cc s = Ok (cp_cc p) ∧
  TpmCommand.size s = Ok (sl_len s) ∧
  TpmCommand.handles s = Ok (mk_slice (sl_addr s + 10) (cp_handles p)) ∧
  TpmCommand.auth_area s = Ok (mk_slice (sl_addr s + auth_offset p) (cp_auth p)) ∧
  TpmCommand.parameters s = Ok (mk_slice (sl_addr s + params_offset p) (cp_params p)).
Proof.
  intros Hp Hd. split_and!.
  - by apply tag_format.
  - by apply cc_format.
  - by apply (size_format s p).
  - by apply handles_format.
  - by apply auth_area_format.
  - by apply parameters_format.
Qed.

Lemma command_accessors_witness :
  TpmCommand.tag (mk_slice 0 (command_format unseal_parts)) = Ok TpmSt.Sessions ∧
  TpmCommand.cc (mk_slice 0 (command_format unseal_parts)) = Ok TpmCc.Unseal ∧
  TpmCommand.size (mk_slice 0 (command_format unseal_parts)) = Ok 27 ∧
  TpmCommand.handles (mk_slice 0 (command_format unseal_parts)) = Ok (mk_slice (0 + 10) (be_encode 4 0x80000001)) ∧
  TpmCommand.auth_area (mk_slice 0 (command_format unseal_parts)) = Ok (mk_slice (0 + 18) password_bytes) ∧
  TpmCommand.parameters (mk_slice 0 (command_format unseal_parts)) = Ok (mk_slice (0 + 27) []).
Proof.
  apply (command_accessors (mk_slice 0 (command_format unseal_parts)) unseal_parts).
  - split; [right; reflexivity | split; by_compute].
  - reflexivity.
Defined.

(** [TpmCommand::unmarshal] of a command of the table returns [v] exactly
    when the frame is well formed, carries that command's code, its
    authorization area has the shape of at most [MAX_SESSIONS] sessions, and
    its handle and parameter areas are exactly the encoding of [v]. *)
Theorem command_unmarshal_exact (cc : TpmCc.t) (s : slice) (v : body (command cc)) :
  slice_ok s →
  TpmCommand.unmarshal (command cc) s = Ok v ↔
  ∃ p, command_parts_ok p ∧ sl_data s = command_format p ∧ cp_cc p = cc ∧
       auth_format 4 (Z.to_nat MAX_SESSIONS) (cp_auth p) ∧
       TpmBody.wire (command cc) v = Some (cp_handles p, cp_params p).
Proof.
  intros Hs. rewrite (command_unmarshal_spec (command cc) s v Hs). by rewrite command_CC.
Qed.

Lemma command_unmarshal_exact_witness :
  ∃ p, command_parts_ok p ∧ command_format unseal_parts = command_format p ∧ cp_cc p = TpmCc.Unseal ∧
       auth_format 4 (Z.to_nat MAX_SESSIONS) (cp_auth p) ∧
       TpmBody.wire (command TpmCc.Unseal) unseal_body = Some (cp_handles p, cp_params p).
Proof.
  apply (command_unmarshal_exact TpmCc.Unseal (mk_slice 0 (command_format unseal_parts)) unseal_body);
    by_compute.
Defined.

(** [TpmResponse::unmarshal] of a successful frame returns [v] exactly
    when the body consists of the handles, (with [TPM_ST_SESSIONS], behind
    its size) the parameters, and an authorization area of at most
    [MAX_SESSIONS] sessions, where handles and parameters are exactly the
    encoding of [v]. *)
Theorem response_unmarshal_exact (cc : TpmCc.t) (s : slice) (p : response_envelope)
    (v : body (response cc)) :
  slice_ok s → envelope_ok p → sl_data s = envelope_format p → is_success (re_rc p) = true →
  TpmResponse.unmarshal (response cc) s = Ok v ↔
  ∃ hs ps auth, re_body p = success_body (re_tag p) hs ps auth ∧
    auth_format 0 (Z.to_nat MAX_SESSIONS) auth ∧ (re_tag p ≠ TpmSt.Sessions → auth = []) ∧
    TpmBody.wire (response cc) v = Some (hs, ps).
Proof.
  intros Hs Hp Hd He.
  rewrite (response_unmarshal_spec (response cc) ltac:(by rewrite response_CC) s p v Hs Hp Hd He).
  split; intros (hs & ps & a & H).
  - destruct H as ((H1 & H2 & H3 & H4) & H5). by exists hs, ps, a.
  - destruct H as (H1 & H3 & H4 & H5). exists hs, ps, a. split; [|done].
    split_and!; try done. by apply (body_len (response cc) v hs ps).
Qed.

Lemma response_unmarshal_exact_witness :
  ∃ hs ps auth, re_body unseal_response_parts = success_body TpmSt.NoSessions hs ps auth ∧
    auth_format 0 (Z.to_nat MAX_SESSIONS) auth ∧ (TpmSt.NoSessions ≠ TpmSt.Sessions → auth = []) ∧
    TpmBody.wire (response TpmCc.Unseal) unseal_response = Some (hs, ps).
Proof.
  apply (response_unmarshal_exact TpmCc.Unseal (mk_slice 0 (envelope_format unseal_response_parts))
    unseal_response_parts unseal_response).
  - by_compute.
  - split; [left; reflexivity | split; by_compute].
  - reflexivity.
  - reflexivity.
  - vm_cast_no_check (eq_refl (Ok (E:=TpmError) unseal_response)).
Defined.

(** C37.  The frame layer never panics.  Casting arbitrary bytes does not,
    and on any bytes of at least a header's length, in particular a frame
    whose bytes were rewritten in place after the cast, neither do the
    accessors, [validate] and [unmarshal] of commands and responses. *)
Theorem frames_no_panic (s : slice) :
  (TpmCommand.cast s ≠ Panic ∧ TpmCommand.cast_prefix s ≠ Panic ∧
   TpmResponse.cast s ≠ Panic ∧ TpmResponse.cast_prefix s ≠ Panic) ∧
  (slice_ok s → HEADER_SIZE ≤ sl_len s →
   TpmCommand.tag s ≠ Panic ∧ TpmCommand.cc s ≠ Panic ∧ TpmCommand.handles s ≠ Panic ∧
   TpmCommand.auth_area s ≠ Panic ∧ TpmCommand.parameters s ≠ Panic ∧
   TpmCommand.validate s ≠ Panic ∧ TpmResponse.tag s ≠ Panic ∧ TpmResponse.rc s ≠ Panic ∧
   TpmResponse.body s ≠ Panic ∧
   ∀ cc, TpmCommand.unmarshal (command cc) s ≠ Panic ∧ TpmResponse.validate s cc ≠ Panic ∧
         TpmResponse.unmarshal (response cc) s ≠ Panic).
Proof.
  split.
  - split_and!.
    + apply result_bind_not_Panic; [apply command_envelope_no_panic | done].
    + apply command_cast_prefix_no_panic.
    + apply result_bind_not_Panic; [apply response_envelope_no_panic | done].
    + apply response_cast_prefix_no_panic.
  - intros Hok Hs. destruct (command_areas_no_panic s Hs) as (H1 & H2 & H3). split_and!; try done.
    + by apply command_tag_no_panic.
    + by apply command_cc_no_panic.
    + by apply command_validate_no_panic.
    + by apply response_tag_no_panic.
    + by apply response_rc_no_panic.
    + by apply response_body_no_panic.
    + intros cc. split_and!.
      * by apply command_unmarshal_no_panic; [|apply _|].
      * by apply response_validate_no_panic.
      * apply response_unmarshal_no_panic; [done | apply _ | by rewrite response_CC | done].
Qed.

Lemma frames_no_panic_witness :
  TpmCommand.tag (mk_slice 0 (replicate 10 Byte.xff)) ≠ Panic ∧
  TpmCommand.cc (mk_slice 0 (replicate 10 Byte.xff)) ≠ Panic.
Proof.
  split; apply (frames_no_panic (mk_slice 0 (replicate 10 Byte.xff))); by_compute.
Defined.

(** Re-marshalling a decoded command is the identity on bytes: if
    [unmarshal] returned [v] from a frame whose authorization area encodes
    [sessions], then marshalling [v] with the frame's tag and those sessions
    writes the frame's bytes. *)
Theorem command_remarshal (cc : TpmCc.t) (s : slice) (v : body (command cc)) (tag : TpmSt.t)
    (auth : slice) (sessions : list (ty TpmsAuthCommand)) (w : TpmWriter) :
  slice_ok s → TpmCommand.unmarshal (command cc) s = Ok v →
  TpmCommand.tag s = Ok tag → TpmCommand.auth_area s = Ok auth →
  seq_wire TpmsAuthCommand sessions = Some (sl_data auth) → zlen sessions ≤ MAX_SESSIONS →
  (tag = TpmSt.Sessions ↔ sessions ≠ []) → writer_ok w → sl_len s ≤ room w →
  ∃ w', command_marshal_frame (command_value cc v) tag sessions w = (Ok (), w') ∧
        as_bytes w' = as_bytes w ++ sl_data s.
Proof.
  intros Hok Hu Ht Ha Hse Hc Hm Hw Hr.
  apply (command_unmarshal_spec (command cc) s v Hok) in Hu as (p & Hp & Hd & Hcc & _ & Hv).
  rewrite (tag_format s p Hp Hd) in Ht. injection Ht as <-.
  rewrite (auth_area_format s p Hp Hd) in Ha. injection Ha as <-. cbn [sl_data] in Hse.
  assert (p = mk_command (cp_tag p) (CC (command cc)) (cp_handles p) (cp_auth p) (cp_params p)) as Ep
    by (clear -Hcc; rewrite <-Hcc; by destruct p).
  pose proof Hp as (Htag & _ & Hl). rewrite Ep in Hl.
  exists (put w (command_format p)). rewrite Hd. split; [|by apply put_as_bytes].
  assert (cp_tag p = TpmSt.NoSessions ∧ sessions = [] ∨ cp_tag p = TpmSt.Sessions ∧ sessions ≠ []) as Hts.
  { destruct Htag as [[Et _]|Et]; [left|right; tauto]. split; [done|].
    destruct sessions; [done|]. rewrite Et in Hm. by assert (TpmSt.NoSessions = TpmSt.Sessions) by by apply Hm. }
  rewrite <-Ep in Hl.
  assert (writes (tpm_marshal_command (TpmBody.frame (command cc) v) (cp_tag p) sessions)
            (command_format p)) as Hf.
  { rewrite Ep. rewrite Ep in Hl.
    by apply (command_frame_writes (command cc) ltac:(by rewrite command_CC) v _ _ Hv _ _ _ Hse Hc Hts). }
  apply Hf; [done|]. by rewrite <-Hd.
Qed.

Lemma command_remarshal_witness :
  ∃ w', command_marshal_frame (command_value TpmCc.Unseal unseal_body) TpmSt.Sessions [password_session]
          (writer_new (replicate 27 Byte.x00)) = (Ok (), w') ∧
        as_bytes w' = [] ++ command_format unseal_parts.
Proof.
  apply (command_remarshal TpmCc.Unseal (mk_slice 0 (command_format unseal_parts)) unseal_body
    TpmSt.Sessions (mk_slice 18 password_bytes)); try by_compute.
Defined.

(** The structural walks over authorization areas accept exactly the
    areas of at most [MAX_SESSIONS] sessions: for commands, four bytes, a
    sized nonce, an attribute byte and a sized HMAC each; for responses the
    same without the four bytes.  They always terminate without panic. *)
Theorem auth_walk_exact (base s : slice) :
  (validate_auth_commands base s = Ok () ↔ auth_format 4 (Z.to_nat MAX_SESSIONS) (sl_data s)) ∧
  (validate_auth_responses base s = Ok () ↔ auth_format 0 (Z.to_nat MAX_SESSIONS) (sl_data s)) ∧
  validate_auth_commands base s ≠ Panic ∧ validate_auth_responses base s ≠ Panic.
Proof.
  split_and!.
  - apply auth_commands_spec.
  - apply auth_responses_spec.
  - apply auth_commands_no_panic.
  - apply auth_responses_no_panic.
Qed.

(** In-place edits: the setters rewrite exactly their header field,
    leaving every other byte and the frame's length alone; the new value is
    what the getters then read. *)
Theorem frame_setters (s : slice) (t z c : Z) (b : list byte) (tag : TpmSt.t) (cc : TpmCc.t) (rc : TpmRc.t) :
  sl_data s = frame_bytes t z c b → header_ok t z c → TpmRc.well_formed rc = true →
  (∃ s', TpmCommand.set_tag s tag = Ok s' ∧ TpmResponse.set_tag s tag = Ok s' ∧
     sl_data s' = frame_bytes (value tag) z c b ∧ TpmCommand.tag s' = Ok tag) ∧
  (∃ s', TpmCommand.set_cc s cc = Ok s' ∧
     sl_data s' = frame_bytes t z (value cc) b ∧ TpmCommand.cc s' = Ok cc) ∧
  (∃ s', TpmResponse.set_rc s rc = Ok s' ∧
     sl_data s' = frame_bytes t z (TpmRc.value rc) b ∧ TpmResponse.rc s' = Ok rc).
Proof.
  intros Hd (Ht & Hz & Hc) Hw. pose proof (rc_value_spec rc Hw) as [_ Hrv]. split_and!.
  - eexists. split; [by eapply set_tag_spec|]. split; [by eapply response_set_tag_spec|].
    split; [done|].
    apply (read_tag_Ok _ (value tag) z c b); [done| |done]. split; [apply st_value_range | by split].
  - eexists. split; [by eapply set_cc_spec|]. split; [done|].
    apply (command_code_Ok _ t z (value cc) b); [done| |done].
    split; [done|]. split; [done | apply cc_value_range].
  - eexists. split; [by eapply response_set_rc_spec|]. split; [done|].
    apply (response_rc_Ok _ t z (TpmRc.value rc) b); [done| |by split].
    split; [done|]. by split.
Qed.

Lemma frame_setters_witness :
  ∃ s', TpmCommand.set_cc (mk_slice 0 (frame_bytes 0x8001 10 0x17B [])) TpmCc.Unseal = Ok s' ∧
     sl_data s' = frame_bytes 0x8001 10 (value TpmCc.Unseal) [] ∧ TpmCommand.cc s' = Ok TpmCc.Unseal.
Proof.
  apply (frame_setters (mk_slice 0 (frame_bytes 0x8001 10 0x17B [])) 0x8001 10 0x17B [] TpmSt.Null
    TpmCc.Unseal (TpmRc.Fmt0 TpmRcBase.Success)); by_compute.
Defined.

(** ** Requests that are refused *)

(** [tpm_marshal_command] refuses, before writing anything and with an
    error at the writer's position, every request the format cannot express:
    a tag that is not a session tag, sessions without [TPM_ST_SESSIONS] or
    the reverse, more than [MAX_SESSIONS] sessions, and, for a frame body
    that keeps its contract, a frame longer than its 32-bit size field. *)
Theorem command_refused (f : TpmFrame) (hs ps ab : list byte) (tag : TpmSt.t)
    (sessions : list (ty TpmsAuthCommand)) (w : TpmWriter) :
  let size := 10 + zlen (command_body (mk_command tag (frame_cc f) hs ab ps)) in
  (tag ≠ TpmSt.NoSessions ∧ tag ≠ TpmSt.Sessions ∨
   tag = TpmSt.Sessions ∧ sessions = [] ∨ tag = TpmSt.NoSessions ∧ sessions ≠ [] →
     tpm_marshal_command f tag sessions w = (Err (InvalidTag (cursor w) (value tag)), w)) ∧
  (tag = TpmSt.Sessions → MAX_SESSIONS < zlen sessions →
     tpm_marshal_command f tag sessions w =
       (Err (TooManyItems (cursor w) MAX_SESSIONS (zlen sessions)), w)) ∧
  (FrameOk f hs ps → seq_wire TpmsAuthCommand sessions = Some ab → zlen sessions ≤ MAX_SESSIONS →
   (tag = TpmSt.NoSessions ∧ sessions = [] ∨ tag = TpmSt.Sessions ∧ sessions ≠ []) →
   u32_max < size →
     tpm_marshal_command f tag sessions w = (Err (IntegerTooLarge (cursor w) size), w)).
Proof.
  split_and!.
  - intros [[H1 H2]|H]; [by apply marshal_command_bad_tag | by apply marshal_command_mismatch].
  - apply marshal_command_too_many.
  - intros Hf Hs Hc Ht Hsize. apply (marshal_command_too_large f hs ps); try done.
    + intros Hn. destruct Ht as [[_ ->]|[? _]]; [by injection Hs | done].
    + destruct Ht as [[? _]|[? _]]; auto.
    + destruct Ht as [[-> ->]|[-> ?]]; [split; [done | by intros []] | done].
Qed.

Lemma command_refused_witness :
  tpm_marshal_command (TpmBody.frame _ unseal_body) TpmSt.NoSessions [password_session]
    (writer_new [Byte.x00]) = (Err (InvalidTag 0 0x8001), writer_new [Byte.x00]).
Proof.
  apply (command_refused (TpmBody.frame _ unseal_body) [] [] [] TpmSt.NoSessions [password_session]).
  right. right. split; [reflexivity | discriminate].
Defined.

(** [tpm_marshal_response] refuses too many sessions, sessions on a
    failed response and frames that are too long, before writing anything;
    and a failed response is written as a bare header that [cast] accepts,
    whatever body it is given. *)
Theorem response_refused (f : TpmFrame) (hs ps ab : list byte) (rc : TpmRc.t)
    (sessions : list (ty TpmsAuthResponse)) (w : TpmWriter) (s : slice) :
  let tag := if nil_b sessions then TpmSt.NoSessions else TpmSt.Sessions in
  let size := 10 + zlen (success_body tag hs ps ab) in
  let header := envelope_format (mk_envelope TpmSt.NoSessions rc []) in
  (MAX_SESSIONS < zlen sessions →
     tpm_marshal_response f rc sessions w =
       (Err (TooManyItems (cursor w) MAX_SESSIONS (zlen sessions)), w)) ∧
  (is_success rc = false → sessions ≠ [] → zlen sessions ≤ MAX_SESSIONS →
     tpm_marshal_response f rc sessions w = (Err (InvalidTag (cursor w) (value TpmSt.Sessions)), w)) ∧
  (FrameOk f hs ps → is_success rc = true → seq_wire TpmsAuthResponse sessions = Some ab →
   zlen sessions ≤ MAX_SESSIONS → u32_max < size →
     tpm_marshal_response f rc sessions w = (Err (IntegerTooLarge (cursor w) size), w)) ∧
  (is_success rc = false → TpmRc.well_formed rc = true → writer_ok w → 10 ≤ room w →
   sl_data s = header →
     (∃ w', tpm_marshal_response f rc [] w = (Ok (), w') ∧ as_bytes w' = as_bytes w ++ header) ∧
     TpmResponse.cast s = Ok s ∧ TpmResponse.rc s = Ok rc).
Proof.
  intros tag size header. split_and!.
  - apply marshal_response_too_many.
  - apply marshal_response_failed_sessions.
  - intros. by apply (marshal_response_too_large f hs ps).
  - intros He Hw Hwo Hr Hd. split.
    + exists (put w header). split; [|by apply put_as_bytes].
      apply (marshal_response_failed f rc He Hw w Hwo). by rewrite zlen_envelope_format.
    + assert (envelope_ok (mk_envelope TpmSt.NoSessions rc [])) as Hp by (split_and!; [by left | done | done]).
      split; [|by apply (response_rc_format s _ Hp Hd)].
      apply response_cast_spec. split; [done|]. by eexists.
Qed.

Lemma response_refused_witness :
  TpmResponse.rc (mk_slice 0 (envelope_format (mk_envelope TpmSt.NoSessions (TpmRc.Warn TpmRcBase.Retry) []))) =
    Ok (TpmRc.Warn TpmRcBase.Retry).
Proof.
  apply (response_refused (TpmBody.frame _ unseal_response) [] [] [] (TpmRc.Warn TpmRcBase.Retry) []
    (writer_new (replicate 10 Byte.x00))); by_compute.
Defined.

(** Unmarshalling a failed response: [TpmResponse::unmarshal] does not
    look at the response code.  It rejects a failed frame, unless the body
    asked for has neither handles nor parameters: then it returns that empty
    body, as for a successful frame. *)
Theorem failed_response_unmarshal (cc : TpmCc.t) (s : slice) (p : response_envelope)
    (v : body (response cc)) :
  slice_ok s → envelope_ok p → sl_data s = envelope_format p → is_success (re_rc p) = false →
  TpmResponse.unmarshal (response cc) s = Ok v ↔
  re_tag p = TpmSt.NoSessions ∧ re_body p = [] ∧ TpmBody.wire (response cc) v = Some ([], []).
Proof. apply response_unmarshal_failed; [apply _ | by rewrite response_CC]. Qed.

Lemma failed_response_unmarshal_witness :
  TpmResponse.unmarshal (response TpmCc.Clear)
    (mk_slice 0 (envelope_format (mk_envelope TpmSt.NoSessions (TpmRc.Warn TpmRcBase.Retry) []))) =
    Ok (@mk TpmClearResponse [] ()).
Proof.
  apply (failed_response_unmarshal TpmCc.Clear
    (mk_slice 0 (envelope_format (mk_envelope TpmSt.NoSessions (TpmRc.Warn TpmRcBase.Retry) [])))
    (mk_envelope TpmSt.NoSessions (TpmRc.Warn TpmRcBase.Retry) [])).
  - by_compute.
  - split; [left; reflexivity | split; by_compute].
  - reflexivity.
  - reflexivity.
  - split; [reflexivity | split; [reflexivity | by_compute]].
Defined.

(** ** Dispatch *)

(** The dispatch table is complete and sorted: the compile-time check
    passes, and the binary search finds for every command code the entry
    with that code and the handle counts of its command and its response. *)
Theorem dispatch_complete :
  const_check_sorted (map dispatch_cc TPM_DISPATCH_TABLE) = true ∧
  ∀ cc, dispatch_for cc = Ok (mk_dispatch cc (HANDLES (command cc)) (HANDLES (response cc))).
Proof. split; [apply table_sorted | apply dispatch_for_Ok]. Qed.

(** Borrowed command dispatch: the view of a frame is selected exactly
    when the frame is valid, and it is the variant of the frame's own command
    code, over the frame itself. *)
Theorem command_view_dispatch (s : slice) (vw : TpmCommandView.t) :
  TpmCommandView.cast_frame s = Ok vw ↔
  TpmCommand.validate s = Ok () ∧
  ∃ cc, TpmCommand.cc s = Ok cc ∧ vw = TpmCommandView.mk cc s ∧ TpmCommandView.cc vw = cc.
Proof.
  unfold TpmCommandView.cast_frame. split.
  - intros (s' & [-> _]%command_cast_spec & (Hv & cc & Hcc & ->)%command_view_spec)%result_bind_Ok_inv.
    split; [done|]. exists cc. split_and!; [done..|]. apply command_CC.
  - intros (Hv & cc & Hcc & -> & _).
    assert (TpmCommand.cast s = Ok s) as ->.
    { unfold TpmCommand.cast. unfold TpmCommand.validate in Hv.
      by apply result_bind_Ok_inv in Hv as ([] & -> & _). }
    apply command_view_spec. split; [done|]. by exists cc.
Qed.

(** Borrowed response dispatch: a frame with a failed response code is
    [Rejected] with that code; a successful one is dispatched to the variant
    of the expected command code exactly when it is valid for it. *)
Theorem response_view_dispatch (cc : TpmCc.t) (s : slice) (o : TpmResponseView.outcome) :
  TpmResponseView.cast cc s = Ok o ↔
  ∃ rc, TpmResponse.rc s = Ok rc ∧
    (is_success rc = false ∧ o = TpmResponseView.Rejected rc ∨
     is_success rc = true ∧ TpmResponse.validate s cc = Ok () ∧
     o = TpmResponseView.Dispatched (TpmResponseView.mk cc s)).
Proof.
  rewrite response_view_spec. split; intros (rc & Hrc & H); exists rc; (split; [done|]).
  - destruct (is_success rc); [right | left]; tauto.
  - destruct H as [[-> ?]|(-> & ? & ?)]; done.
Qed.

(** Narrowing a dispatched response: [TryFrom<TpmResponseValue>] returns
    the body when the value is of the wanted variant and hands the value back
    otherwise. *)
Theorem response_value_try_from (cc : TpmCc.t) (r : TpmResponseValue) :
  (∀ b, TpmResponseValue.try_from cc r = Ok b ↔ r = response_value cc b) ∧
  (rv_variant r ≠ cc → TpmResponseValue.try_from cc r = Err r) ∧
  TpmResponseValue.try_from cc r ≠ Panic.
Proof.
  destruct (rv_try_from_spec cc r) as [H1 H2]. split_and!; [|done|].
  - intros b. split; [|apply H1]. destruct (decide (rv_variant r = cc)) as [E|E].
    + destruct r as [c rb]; simpl in E; subst c. rewrite (H1 rb eq_refl). by intros [= ->].
    + by rewrite H2.
  - destruct (decide (rv_variant r = cc)) as [E|E]; [|by rewrite H2].
    destruct r as [c rb]; simpl in E; subst c. by rewrite (H1 rb eq_refl).
Qed.

Lemma response_value_try_from_witness :
  TpmResponseValue.try_from TpmCc.Clear (response_value TpmCc.Unseal unseal_response) =
    Err (response_value TpmCc.Unseal unseal_response).
Proof. apply (response_value_try_from TpmCc.Clear). discriminate. Defined.
