(* ===== verification/Crypto.v ===== *)
(** The base of the crypto crate: its errors ([crypto/src/error.rs]), what it
    uses of libcrypto as an interface, and the output buffers its functions
    fill.

    The openssl crate is not part of the repository: its types and functions
    are the fields of [Libcrypto], and [LibcryptoOk] states what its
    documentation says of them. *)

From S2P Require Import Prelude State Errors Integer Enums BasicTypes.

(** ** libcrypto *)

Class Libcrypto := {
  ErrorStack : Type;
  Nid : Type;
  (** [openssl::hash::MessageDigest] *)
  MessageDigest : Type;
  md_sha1 : MessageDigest; md_sha256 : MessageDigest; md_sha384 : MessageDigest;
  md_sha512 : MessageDigest; md_sm3 : MessageDigest; md_sha3_256 : MessageDigest;
  md_sha3_384 : MessageDigest; md_sha3_512 : MessageDigest;
  md_shake_128 : MessageDigest; md_shake_256 : MessageDigest;
  md_size : MessageDigest → Z;
  (** [openssl::hash::Hasher] *)
  Hasher : Type;
  Hasher_new : MessageDigest → result ErrorStack Hasher;
  Hasher_update : list byte → Hasher → result ErrorStack Hasher;
  Hasher_finish : Hasher → result ErrorStack (list byte);
  (** [openssl::pkey::PKey::hmac] and [openssl::sign::Signer] *)
  PKey : Type;
  PKey_hmac : list byte → result ErrorStack PKey;
  Signer : Type;
  Signer_new : MessageDigest → PKey → result ErrorStack Signer;
  Signer_update : list byte → Signer → result ErrorStack Signer;
  Signer_len : Signer → result ErrorStack Z;
  (** The bytes written, and the buffer after the call. *)
  Signer_sign : Signer → list byte → result ErrorStack Z * list byte;
  (** [openssl::memcmp::eq]; [None] when it panics. *)
  memcmp_eq : list byte → list byte → option bool
}.

(** The documented behaviour: what is fed to a hasher in pieces is hashed as
    one message, digests have the size of the algorithm, none is longer than
    [EVP_MAX_MD_SIZE], and comparing slices of different lengths panics.
    [usable md]: the algorithm is available and no allocation fails. *)
Class LibcryptoOk `{Libcrypto} := {
  hash : MessageDigest → list byte → list byte;
  hmac_of : MessageDigest → list byte → list byte → list byte;
  usable : MessageDigest → Prop;
  hashing : Hasher → MessageDigest → list byte → Prop;
  keyed : PKey → list byte → Prop;
  signing : Signer → MessageDigest → list byte → list byte → Prop;
  md_size_bounds md : 0 ≤ md_size md ≤ MAX_DIGEST_SIZE;
  zlen_hash md bs : zlen (hash md bs) = md_size md;
  zlen_hmac md key bs : zlen (hmac_of md key bs) = md_size md;
  Hasher_new_ok md : outcome (λ _, ¬ usable md) (λ h, hashing h md []) (Hasher_new md);
  Hasher_update_ok h md bs c :
    hashing h md bs → outcome (λ _, ¬ usable md) (λ h', hashing h' md (bs ++ c)) (Hasher_update c h);
  Hasher_finish_ok h md bs :
    hashing h md bs → outcome (λ _, ¬ usable md) (λ d, d = hash md bs) (Hasher_finish h);
  PKey_hmac_ok md key : outcome (λ _, ¬ usable md) (λ k, keyed k key) (PKey_hmac key);
  Signer_new_ok md k key :
    keyed k key → outcome (λ _, ¬ usable md) (λ s, signing s md key []) (Signer_new md k);
  Signer_update_ok s md key bs c :
    signing s md key bs →
    outcome (λ _, ¬ usable md) (λ s', signing s' md key (bs ++ c)) (Signer_update c s);
  Signer_len_ok s md key bs :
    signing s md key bs → outcome (λ _, ¬ usable md) (λ n, n = md_size md) (Signer_len s);
  Signer_sign_ok s md key bs buf :
    signing s md key bs → md_size md ≤ zlen buf →
    zlen (Signer_sign s buf).2 = zlen buf ∧
    outcome (λ _, ¬ usable md)
      (λ n, n = md_size md ∧
            (Signer_sign s buf).2 = hmac_of md key bs ++ drop (Z.to_nat n) buf)
      (Signer_sign s buf).1;
  memcmp_eq_ok a b :
    memcmp_eq a b = if decide (length a = length b) then Some (bool_decide (a = b)) else None
}.

(** ** [error.rs] *)

(** [enum TpmPublicAreaField] *)
Module TpmPublicAreaField.
Inductive t := ObjectType | Parameters | Unique.

#[global] Instance eq_dec : EqDecision t.
Proof. solve_decision. Defined.
End TpmPublicAreaField.

(** [enum TpmCryptoError] *)
Module TpmCryptoError.
Inductive t `{Libcrypto} : Type :=
| BufferTooSmall (expected actual : Z)
| Crypto (e : ErrorStack)
| InvalidEccCurve (curve : TpmEccCurve.t)
| InvalidEccNid (nid : Nid)
| InvalidEccPoint (curve : TpmEccCurve.t) (x_len y_len expected_len : Z)
| InvalidEccKey
| InvalidEccGroupDegree (degree : Z)
| InvalidHash
| InvalidMessageDigestNid (nid : Nid)
| InvalidKeyBits (bits : Z)
| InvalidKdfKeyBits (bits : Z)
| InvalidObjectType
| InvalidPublicArea (object_type : TpmAlgId.t) (field : TpmPublicAreaField.t)
| InvalidRsaKey
| InvalidRsaModulus (modulus : list byte)
| InvalidRsaExponent (exponent : TpmInt.t)
| InvalidPrivateKeySize (len max : Z)
| MissingRsaPrivatePrime
| InvalidRandomRange
| KeyIsEmpty
| Marshal (e : TpmError)
| MacMismatch
| Unmarshal (e : TpmError).
End TpmCryptoError.

(** ** Output buffers

    A function that fills an [&mut [u8]] runs in the monad [Out]: it threads
    the buffer, and what was written before a failure stays written. *)

Abbreviation Out := (State (list byte)).

(** [output.len()] *)
Definition o_len {E} : Out E Z := λ out, (Ok (zlen out), out).

(** [output[from..to].copy_from_slice(src)]: the range must exist and have
    the length of [src]. *)
Definition copy_from_slice {E} (from to : Z) (src : list byte) : Out E () := λ out,
  if (from <=? to) && (to <=? zlen out) && (to - from =? zlen src) then
    (Ok (), take (Z.to_nat from) out ++ src ++ drop (Z.to_nat to) out)
  else (Panic, out).

(** [&s[..n]] of an owned array *)
Definition take_checked {E} (n : Z) (s : list byte) : result E (list byte) :=
  if (0 <=? n) && (n <=? zlen s) then Ok (take (Z.to_nat n) s) else Panic.

(** ** Lemmas *)

Lemma copy_from_slice_ok {E} from to src out :
  0 ≤ from → to = from + zlen src → to ≤ zlen out →
  copy_from_slice (E:=E) from to src out =
    (Ok (), take (Z.to_nat from) out ++ src ++ drop (Z.to_nat to) out).
Proof.
  intros. pose proof (zlen_nonneg src). unfold copy_from_slice.
  rewrite !(proj2 (Z.leb_le _ _)), (proj2 (Z.eqb_eq _ _)) by lia. done.
Qed.

Lemma take_checked_ok {E} n s :
  0 ≤ n ≤ zlen s → take_checked (E:=E) n s = Ok (take (Z.to_nat n) s).
Proof. intros. unfold take_checked. by rewrite !(proj2 (Z.leb_le _ _)) by lia. Qed.
