(* ===== verification/Hash.v ===== *)
(** Digests, HMAC and key derivation of the crypto crate
    ([crypto/src/hash.rs]) and object names ([tpm_make_name] of
    [crypto/src/lib.rs]), over the libcrypto interface. *)

From S2P Require Import Prelude State Errors Writer Codec Integer Buffer EnumMacro Enums BasicTypes Structures Crypto.

(** ** [enum TpmHash] *)

Module TpmHash.
Inductive t :=
| Sha1 | Sha256 | Sha384 | Sha512 | Sm3_256
| Sha3_256 | Sha3_384 | Sha3_512 | Shake128 | Shake256.

#[global] Instance eq_dec : EqDecision t.
Proof. solve_decision. Defined.

Section hash.
Context `{Libcrypto}.
Abbreviation TpmCryptoError := TpmCryptoError.t.
Abbreviation Res := (result TpmCryptoError).

(** [TryFrom<TpmAlgId>] *)
Definition try_from (alg : TpmAlgId.t) : Res t :=
  match alg with
  | TpmAlgId.Sha1 => Ok Sha1
  | TpmAlgId.Sha256 => Ok Sha256
  | TpmAlgId.Sha384 => Ok Sha384
  | TpmAlgId.Sha512 => Ok Sha512
  | TpmAlgId.Sm3_256 => Ok Sm3_256
  | TpmAlgId.Sha3_256 => Ok Sha3_256
  | TpmAlgId.Sha3_384 => Ok Sha3_384
  | TpmAlgId.Sha3_512 => Ok Sha3_512
  | TpmAlgId.Shake128 => Ok Shake128
  | TpmAlgId.Shake256 => Ok Shake256
  | _ => Err TpmCryptoError.InvalidHash
  end.

(** [From<TpmHash> for TpmAlgId] *)
Definition to_alg (h : t) : TpmAlgId.t :=
  match h with
  | Sha1 => TpmAlgId.Sha1
  | Sha256 => TpmAlgId.Sha256
  | Sha384 => TpmAlgId.Sha384
  | Sha512 => TpmAlgId.Sha512
  | Sm3_256 => TpmAlgId.Sm3_256
  | Sha3_256 => TpmAlgId.Sha3_256
  | Sha3_384 => TpmAlgId.Sha3_384
  | Sha3_512 => TpmAlgId.Sha3_512
  | Shake128 => TpmAlgId.Shake128
  | Shake256 => TpmAlgId.Shake256
  end.

(** [From<TpmHash> for MessageDigest] *)
Definition to_md (h : t) : MessageDigest :=
  match h with
  | Sha1 => md_sha1
  | Sha256 => md_sha256
  | Sha384 => md_sha384
  | Sha512 => md_sha512
  | Sm3_256 => md_sm3
  | Sha3_256 => md_sha3_256
  | Sha3_384 => md_sha3_384
  | Sha3_512 => md_sha3_512
  | Shake128 => md_shake_128
  | Shake256 => md_shake_256
  end.

Definition size (self : t) : Z := md_size (to_md self).

Definition check_output_len (output_len expected : Z) : Res () :=
  if output_len <? expected then Err (TpmCryptoError.BufferTooSmall expected output_len)
  else Ok ().

Definition zeroed (n : Z) : list byte := replicate (Z.to_nat n) x00.

(** [for chunk in chunks { state.update(chunk).map_err(Crypto)?; }] *)
Fixpoint update_all {S} (update : list byte → S → result ErrorStack S)
    (chunks : list (list byte)) (state : S) : Res S :=
  match chunks with
  | [] => Ok state
  | chunk :: chunks =>
      let? state := map_err TpmCryptoError.Crypto (update chunk state) in
      update_all update chunks state
  end.

(** [Hasher::new], the updates and [finish] *)
Definition run_hasher (md : MessageDigest) (chunks : list (list byte)) : Res (list byte) :=
  let? hasher := map_err TpmCryptoError.Crypto (Hasher_new md) in
  let? hasher := update_all Hasher_update chunks hasher in
  map_err TpmCryptoError.Crypto (Hasher_finish hasher).

Definition digest_into (self : t) (data_chunks : list (list byte)) : Out TpmCryptoError Z :=
  let* output_len := o_len in
  let* _ := st_lift (check_output_len output_len (size self)) in
  let* digest := st_lift (run_hasher (to_md self) data_chunks) in
  let* _ := copy_from_slice 0 (zlen digest) digest in
  st_ret (zlen digest).

(** [vec![0; n]], filled by [into] and truncated to the length it returns. *)
Definition filled (n : Z) (into : Out TpmCryptoError Z) : Res (list byte) :=
  match into (zeroed n) with
  | (Ok len, out) => Ok (take (Z.to_nat len) out)
  | (Err e, _) => Err e
  | (Panic, _) => Panic
  end.

Definition digest (self : t) (data_chunks : list (list byte)) : Res (list byte) :=
  filled (size self) (digest_into self data_chunks).

Definition is_empty (s : list byte) : bool := zlen s =? 0.

(** [signer.sign(&mut output[..len])] *)
Definition sign_into (signer : Signer) (len : Z) : Out TpmCryptoError Z := λ out,
  if len <=? zlen out then
    let (r, head) := Signer_sign signer (take (Z.to_nat len) out) in
    (map_err TpmCryptoError.Crypto r, head ++ drop (Z.to_nat len) out)
  else (Panic, out).

Definition hmac_into (self : t) (key : list byte) (data_chunks : list (list byte))
    : Out TpmCryptoError Z :=
  if is_empty key then st_lift (Err TpmCryptoError.KeyIsEmpty)
  else
    let md := to_md self in
    let* public_key := st_lift (map_err TpmCryptoError.Crypto (PKey_hmac key)) in
    let* signer := st_lift (map_err TpmCryptoError.Crypto (Signer_new md public_key)) in
    let* signer := st_lift (update_all Signer_update data_chunks signer) in
    let* len := st_lift (map_err TpmCryptoError.Crypto (Signer_len signer)) in
    let* output_len := o_len in
    let* _ := st_lift (check_output_len output_len len) in
    sign_into signer len.

Definition hmac (self : t) (key : list byte) (data_chunks : list (list byte)) : Res (list byte) :=
  filled (size self) (hmac_into self key data_chunks).

Definition hmac_verify (self : t) (key : list byte) (data_chunks : list (list byte))
    (signature : list byte) : Res () :=
  let? expected := hmac self key data_chunks in
  let? equal := or_panic (memcmp_eq expected signature) in
  if equal then Ok () else Err TpmCryptoError.MacMismatch.

(** ** Key derivation *)

Definition split_label_and_terminator (label : list byte) : list byte * list byte :=
  if decide (list.last label = Some x00) then (label, []) else (label, [x00]).

(** [usize::div_ceil] *)
Definition div_ceil (a b : Z) : Z := (a + b - 1) / b.

Definition checked_kdf_key_bits (key_bits : Z) : Res (Z * list byte) :=
  let? key_bits_u32 := ok_or (if key_bits <=? u32_max then Some key_bits else None)
                         (TpmCryptoError.InvalidKdfKeyBits key_bits) in
  Ok (div_ceil key_bits 8, be_encode 4 key_bits_u32).

(** The variables of the derivation loops. *)
Record kdf_state := mk_kdf { offset : Z; counter : Z; block : list byte }.

(** [counter += 1] on a [u32] *)
Definition next_counter (counter : Z) : Res Z :=
  if counter <? u32_max then Ok (counter + 1) else Panic.

(** More iterations would overflow the counter. *)
Definition counter_bound : positive := 2 ^ 32.

(** The tail of both loop bodies: the block goes to [output[offset..]]. *)
Definition take_block (key_bytes : Z) (block : list byte) (len : Z) (st : kdf_state)
    : Out TpmCryptoError kdf_state :=
  let remaining := key_bytes - offset st in
  let to_take := remaining `min` len in
  let* head := st_lift (take_checked to_take block) in
  let* _ := copy_from_slice (offset st) (offset st + to_take) head in
  let* counter := st_lift (next_counter (counter st)) in
  st_ret (mk_kdf (offset st + to_take) counter block).

Definition kdfa_body (md : MessageDigest) (pkey : PKey) (block_len key_bytes : Z)
    (payload : list byte → list (list byte)) (st : kdf_state) : Out TpmCryptoError kdf_state :=
  let counter_bytes := be_encode 4 (counter st) in
  let* signer := st_lift (map_err TpmCryptoError.Crypto (Signer_new md pkey)) in
  let* signer := st_lift (update_all Signer_update (payload counter_bytes) signer) in
  let (signed, block) := sign_into signer block_len (block st) in
  let* len := st_lift signed in
  take_block key_bytes block len st.

Definition kdfa_into (self : t) (hmac_key label context_a context_b : list byte) (key_bits : Z)
    : Out TpmCryptoError Z :=
  if is_empty hmac_key then st_lift (Err TpmCryptoError.KeyIsEmpty)
  else
    let* (key_bytes, key_bits_bytes) := st_lift (checked_kdf_key_bits key_bits) in
    let* output_len := o_len in
    let* _ := st_lift (check_output_len output_len key_bytes) in
    let (label_data, terminator) := split_label_and_terminator label in
    let md := to_md self in
    let* pkey := st_lift (map_err TpmCryptoError.Crypto (PKey_hmac hmac_key)) in
    let* _ := st_while counter_bound (λ st, offset st <? key_bytes)
      (kdfa_body md pkey (size self) key_bytes (λ counter_bytes,
         [counter_bytes; label_data; terminator; context_a; context_b; key_bits_bytes]))
      (mk_kdf 0 1 (zeroed MAX_DIGEST_SIZE)) in
    st_ret key_bytes.

Definition kdfa (self : t) (hmac_key label context_a context_b : list byte) (key_bits : Z)
    : Res (list byte) :=
  let? (key_bytes, _) := checked_kdf_key_bits key_bits in
  filled key_bytes (kdfa_into self hmac_key label context_a context_b key_bits).

Definition kdfe_body (md : MessageDigest) (key_bytes : Z)
    (payload : list byte → list (list byte)) (st : kdf_state) : Out TpmCryptoError kdf_state :=
  let counter_bytes := be_encode 4 (counter st) in
  let* result := st_lift (run_hasher md (payload counter_bytes)) in
  take_block key_bytes result (zlen result) st.

Definition kdfe_into (self : t) (z label context_u context_v : list byte) (key_bits : Z)
    : Out TpmCryptoError Z :=
  let* (key_bytes, _) := st_lift (checked_kdf_key_bits key_bits) in
  let* output_len := o_len in
  let* _ := st_lift (check_output_len output_len key_bytes) in
  let (label_data, terminator) := split_label_and_terminator label in
  let md := to_md self in
  let* _ := st_while counter_bound (λ st, offset st <? key_bytes)
    (kdfe_body md key_bytes (λ counter_bytes,
       [counter_bytes; z; label_data; terminator; context_u; context_v]))
    (mk_kdf 0 1 []) in
  st_ret key_bytes.

Definition kdfe (self : t) (z label context_u context_v : list byte) (key_bits : Z)
    : Res (list byte) :=
  let? (key_bytes, _) := checked_kdf_key_bits key_bits in
  filled key_bytes (kdfe_into self z label context_u context_v key_bits).
End hash.
End TpmHash.

(** ** [tpm_make_name] *)

Section make_name.
Context `{Libcrypto}.

Definition tpm_make_name (public : ty TpmtPublic) : result TpmCryptoError.t (ty Tpm2bName) :=
  let? name_alg := TpmHash.try_from (TpmtPublic.name_alg public) in
  let alg_bytes := be_encode 2 (value (TpmtPublic.name_alg public)) in
  let (r, writer) := marshal TpmtPublic public (writer_new (TpmHash.zeroed (SIZE TpmtPublic))) in
  let? _ := map_err TpmCryptoError.Marshal r in
  let? public_bytes := take_checked (writer_len writer) (buffer writer) in
  match TpmHash.digest_into name_alg [public_bytes] (TpmHash.zeroed MAX_DIGEST_SIZE) with
  | (Ok digest_len, digest) =>
      let? digest := take_checked digest_len digest in
      let (r, final_buf) :=
        (let* _ := copy_from_slice 0 2 alg_bytes in
         copy_from_slice 2 (2 + digest_len) digest) (TpmHash.zeroed (MAX_DIGEST_SIZE + 2)) in
      let? _ := r in
      let? name := take_checked (2 + digest_len) final_buf in
      map_err TpmCryptoError.Unmarshal (TpmBuffer.try_from (MAX_DIGEST_SIZE + 2) name)
  | (Err e, _) => Err e
  | (Panic, _) => Panic
  end.
End make_name.

(** ** Reference definitions *)

(** The label of a derivation, with the terminating zero. *)
Definition terminated (label : list byte) : list byte :=
  if decide (list.last label = Some x00) then label else label ++ [x00].

(** The blocks [1 .. n] of a key stream. *)
Definition kdf_blocks (blk : Z → list byte) (n : Z) : list byte := concat (blk <$> seqZ 1 n).

(** [key_bits] of it, rounded up to bytes, where a block has [size] bytes. *)
Definition kdf_key (blk : Z → list byte) (size key_bits : Z) : list byte :=
  let key_bytes := TpmHash.div_ceil key_bits 8 in
  take (Z.to_nat key_bytes) (kdf_blocks blk (TpmHash.div_ceil key_bytes size)).

Section kdf_reference.
Context `{LibcryptoOk}.

(** Part 1 of the TPM specification: block [i] of [KDFa] and of [KDFe]. *)
Definition kdfa_block (h : TpmHash.t) (key label a b : list byte) (bits i : Z) : list byte :=
  hmac_of (TpmHash.to_md h) key (be_encode 4 i ++ terminated label ++ a ++ b ++ be_encode 4 bits).
Definition kdfe_block (h : TpmHash.t) (z label u v : list byte) (i : Z) : list byte :=
  hash (TpmHash.to_md h) (be_encode 4 i ++ z ++ terminated label ++ u ++ v).

(** The only error libcrypto causes, and when it can. *)
Definition crypto_failure (h : TpmHash.t) (e : TpmCryptoError.t) : Prop :=
  (∃ s, e = TpmCryptoError.Crypto s) ∧ ¬ usable (TpmHash.to_md h).
End kdf_reference.

(** ** Lemmas: arithmetic and blocks *)

Lemma div_ceil_spec a b : 0 < b → 0 ≤ a → a ≤ TpmHash.div_ceil a b * b < a + b.
Proof.
  intros. unfold TpmHash.div_ceil.
  pose proof (Z.div_mod (a + b - 1) b ltac:(lia)).
  pose proof (Z.mod_pos_bound (a + b - 1) b ltac:(lia)). lia.
Qed.

Lemma zlen_zeroed n : 0 ≤ n → zlen (TpmHash.zeroed n) = n.
Proof. intros. unfold zlen, TpmHash.zeroed. rewrite length_replicate. lia. Qed.

Lemma zlen_take {A} n (l : list A) : 0 ≤ n ≤ zlen l → zlen (take (Z.to_nat n) l) = n.
Proof. unfold zlen. rewrite length_take. lia. Qed.

Lemma zlen_drop {A} n (l : list A) : 0 ≤ n ≤ zlen l → zlen (drop (Z.to_nat n) l) = zlen l - n.
Proof. unfold zlen. rewrite length_drop. lia. Qed.

Lemma take_zlen_app {A} (l k : list A) n : n = zlen l → take (Z.to_nat n) (l ++ k) = l.
Proof. intros ->. unfold zlen. rewrite Nat2Z.id. apply take_app_length. Qed.

Lemma drop_zlen_app {A} (l k : list A) n : n = zlen l → drop (Z.to_nat n) (l ++ k) = k.
Proof. intros ->. unfold zlen. rewrite Nat2Z.id. apply drop_app_length. Qed.

Lemma split_label_terminated label :
  let (l, t) := TpmHash.split_label_and_terminator label in l ++ t = terminated label.
Proof.
  unfold TpmHash.split_label_and_terminator, terminated.
  case_decide; [apply app_nil_r | done].
Qed.

Section blocks.
Variable (blk : Z → list byte) (L : Z).
Hypothesis HL : ∀ i, zlen (blk i) = L.

Lemma kdf_blocks_succ n :
  0 ≤ n → kdf_blocks blk (n + 1) = kdf_blocks blk n ++ blk (n + 1).
Proof using Type.
  intros. unfold kdf_blocks. rewrite seqZ_app by lia. rewrite fmap_app, concat_app.
  rewrite (seqZ_cons _ 1) by lia. rewrite (seqZ_nil _ (Z.pred 1)) by lia. simpl.
  rewrite app_nil_r. do 2 f_equal. lia.
Qed.

Lemma zlen_kdf_blocks n : 0 ≤ n → zlen (kdf_blocks blk n) = n * L.
Proof using HL.
  intros Hn. pattern n. apply natlike_ind; [done| |done].
  intros m Hm IH. rewrite <-Z.add_1_r, kdf_blocks_succ, zlen_app, IH, HL by lia. lia.
Qed.

Lemma kdf_blocks_prefix n m : 0 ≤ n ≤ m → ∃ k, kdf_blocks blk m = kdf_blocks blk n ++ k.
Proof using Type.
  intros. unfold kdf_blocks. replace m with (n + (m - n)) by lia.
  rewrite seqZ_app by lia. rewrite fmap_app, concat_app. by eexists.
Qed.

(** Any large enough number of blocks has the same prefix. *)
Lemma take_kdf_blocks n m b :
  0 ≤ n ≤ m → b ≤ n * L →
  take (Z.to_nat b) (kdf_blocks blk m) = take (Z.to_nat b) (kdf_blocks blk n).
Proof using HL.
  intros Hn Hb. destruct (kdf_blocks_prefix n m Hn) as [k ->].
  apply take_app_le. pose proof (zlen_kdf_blocks n ltac:(lia)) as Hl. unfold zlen in Hl. lia.
Qed.

(** One step of the derivation loops: the first [b] bytes are there, and the
    next block fills up to [b']. *)
Lemma kdf_extend n b b' m :
  0 ≤ n < m → b = n * L → b ≤ b' ≤ b + L →
  take (Z.to_nat b) (kdf_blocks blk m) ++ take (Z.to_nat (b' - b)) (blk (n + 1)) =
  take (Z.to_nat b') (kdf_blocks blk m).
Proof using HL.
  intros Hn Hb Hb'. destruct (kdf_blocks_prefix (n + 1) m ltac:(lia)) as [k ->].
  rewrite kdf_blocks_succ by lia. pose proof (zlen_kdf_blocks n ltac:(lia)) as Hl.
  pose proof (HL (n + 1)) as HL1. rewrite <-!app_assoc.
  replace (Z.to_nat b') with (Z.to_nat b + Z.to_nat (b' - b))%nat
    by (unfold zlen in *; lia).
  rewrite <-take_take_drop, (take_zlen_app _ _ b), (drop_zlen_app _ _ b) by lia.
  f_equal. symmetry. apply take_app_le. unfold zlen in *. lia.
Qed.
End blocks.

(** ** Lemmas: digests *)

Section hash_lemmas.
Context `{LibcryptoOk}.
Implicit Types (h : TpmHash.t) (md : MessageDigest).
Import TpmHash.

(** What a failure of libcrypto becomes. *)
Local Abbreviation fails md := (λ e, (∃ s, e = TpmCryptoError.Crypto s) ∧ ¬ usable md).

Lemma size_bounds h : 0 ≤ size h ≤ MAX_DIGEST_SIZE.
Proof using Type*. apply md_size_bounds. Qed.

Lemma crypto_map_err {A} md (P : A → Prop) m :
  outcome (λ _, ¬ usable md) P m → outcome (fails md) P (map_err TpmCryptoError.Crypto m).
Proof using Type. intros Hm. eapply outcome_map_err; [exact Hm|]. intros e He. split; [by eexists | done]. Qed.

Lemma update_all_ok {S} md (feeds : S → list byte → Prop) update chunks st bs :
  (∀ st bs c, feeds st bs → outcome (λ _, ¬ usable md) (λ st', feeds st' (bs ++ c)) (update c st)) →
  feeds st bs →
  outcome (fails md) (λ st', feeds st' (bs ++ concat chunks)) (update_all update chunks st).
Proof using Type.
  intros Hup. revert st bs; induction chunks as [|c chunks IH]; intros st bs Hst; simpl.
  - by rewrite app_nil_r.
  - eapply outcome_bind; [by apply crypto_map_err, Hup|].
    intros st' Hst'. rewrite app_assoc. by apply IH.
Qed.

Lemma run_hasher_ok md chunks :
  outcome (fails md) (λ d, d = hash md (concat chunks)) (run_hasher md chunks).
Proof using Type*.
  unfold run_hasher. eapply outcome_bind; [apply crypto_map_err, Hasher_new_ok|]. intros st Hst.
  eapply outcome_bind.
  { apply (update_all_ok md (λ st bs, hashing st md bs)); [|exact Hst].
    intros. by apply Hasher_update_ok. }
  intros st' Hst'. by apply crypto_map_err, Hasher_finish_ok.
Qed.

(** Filling a buffer from its start. *)
Local Abbreviation filled_with d out0 :=
  (λ n out, n = zlen d ∧ out = d ++ drop (Z.to_nat (zlen d)) out0).

Lemma digest_into_spec h chunks out :
  size h ≤ zlen out →
  st_outcome (λ e out', fails (to_md h) e ∧ out' = out)
    (filled_with (hash (to_md h) (concat chunks)) out) (digest_into h chunks out).
Proof using Type*.
  intros Hl. unfold digest_into, check_output_len. apply st_outcome_bind with
    (P := λ n o, n = zlen out ∧ o = out); [done|]. intros n o [-> ->].
  rewrite (proj2 (Z.ltb_ge _ _)) by done.
  apply st_outcome_lift with (P := λ _, True); [done|]. intros _ _.
  eapply st_outcome_lift.
  { eapply outcome_impl with (P := λ d, d = _).
    - pose proof (run_hasher_ok (to_md h) chunks) as Hr.
      destruct (run_hasher _ _); simpl in *; [exact Hr | split; [exact Hr | done] | done].
    - intros d Hd. exact Hd. }
  intros d ->. pose proof (zlen_hash (to_md h) (concat chunks)) as Hd.
  unfold st_bind. rewrite copy_from_slice_ok; [| done | lia | rewrite Hd; exact Hl].
  simpl. by rewrite Hd.
Qed.

Lemma digest_into_short h chunks out :
  zlen out < size h →
  digest_into h chunks out = (Err (TpmCryptoError.BufferTooSmall (size h) (zlen out)), out).
Proof using Type.
  intros Hl. unfold digest_into, st_bind, o_len, st_lift, check_output_len.
  by rewrite (proj2 (Z.ltb_lt _ _)).
Qed.

Lemma filled_outcome (F : TpmCryptoError.t → Prop) d n into :
  0 ≤ n → zlen d = n →
  st_outcome (λ e _, F e) (filled_with d (zeroed n)) (into (zeroed n)) →
  outcome F (λ r, r = d) (filled n into).
Proof using Type.
  intros Hn Hd. unfold filled. destruct (into (zeroed n)) as [[r|e|] out]; simpl; [|done|done].
  intros [-> ->]. by apply take_zlen_app.
Qed.

Lemma digest_spec h chunks :
  outcome (fails (to_md h)) (λ d, d = hash (to_md h) (concat chunks)) (digest h chunks).
Proof using Type*.
  pose proof (size_bounds h). apply filled_outcome; [lia | apply zlen_hash |].
  eapply st_outcome_impl; [apply digest_into_spec; rewrite zlen_zeroed; lia | by intros e out [] | done].
Qed.

(** *** HMAC *)

Lemma sign_into_ok md key bs signer out :
  signing signer md key bs → md_size md ≤ zlen out →
  st_outcome (λ e out', fails md e ∧ zlen out' = zlen out)
    (filled_with (hmac_of md key bs) out) (sign_into signer (md_size md) out).
Proof using Type*.
  intros Hs Hl. pose proof (md_size_bounds md) as Hb. unfold sign_into.
  rewrite (proj2 (Z.leb_le _ _)) by done.
  pose proof (zlen_take (md_size md) out ltac:(lia)) as Ht.
  destruct (Signer_sign_ok signer md key bs (take (Z.to_nat (md_size md)) out) Hs ltac:(lia))
    as [Hz Ho].
  destruct (Signer_sign _ _) as [r head]; simpl in *.
  destruct r as [n|e|]; simpl in *; [|split; [split; [by eexists | done]|]|done].
  - destruct Ho as [-> ->]. pose proof (zlen_hmac md key bs) as Hh. split; [done|].
    rewrite (drop_ge (take _ _)) by (rewrite length_take; lia). by rewrite app_nil_r, Hh.
  - rewrite zlen_app, Hz, Ht, zlen_drop by lia. lia.
Qed.

Lemma signer_run md pkey key chunks :
  keyed pkey key →
  outcome (fails md) (λ s, signing s md key (concat chunks))
    (let? signer := map_err TpmCryptoError.Crypto (Signer_new md pkey) in
     update_all Signer_update chunks signer).
Proof using Type*.
  intros Hk. eapply outcome_bind; [by apply crypto_map_err, Signer_new_ok|]. intros st Hst.
  apply (update_all_ok md (λ st bs, signing st md key bs) _ chunks st []); [|exact Hst].
  intros. by apply Signer_update_ok.
Qed.

Lemma is_empty_cons key : key ≠ [] → is_empty key = false.
Proof using Type. destruct key; [done | intros _]. apply Z.eqb_neq. unfold zlen; simpl; lia. Qed.

Lemma hmac_into_spec h key chunks out :
  key ≠ [] → size h ≤ zlen out →
  st_outcome (λ e out', fails (to_md h) e ∧ zlen out' = zlen out)
    (filled_with (hmac_of (to_md h) key (concat chunks)) out) (hmac_into h key chunks out).
Proof using Type*.
  intros Hkey Hl. unfold hmac_into. rewrite is_empty_cons by done. cbv zeta.
  eapply st_outcome_lift.
  { eapply outcome_map_err; [apply (PKey_hmac_ok (to_md h) key)|].
    intros e He. split_and!; [by eexists | done | done]. }
  intros pkey Hpk. pose proof (signer_run (to_md h) pkey key chunks Hpk) as Hrun.
  unfold st_bind at 1, st_lift at 1.
  destruct (map_err TpmCryptoError.Crypto (Signer_new _ _)) as [s|e|]; simpl in Hrun;
    [|by split|done].
  eapply st_outcome_lift.
  { destruct (update_all _ _ _) as [s'|e|]; simpl in *; [exact Hrun | by split | done]. }
  intros s' Hs'. eapply st_outcome_lift.
  { eapply outcome_map_err; [by apply (Signer_len_ok s' (to_md h) key (concat chunks))|].
    intros e He. split_and!; [by eexists | done | done]. }
  intros len ->. unfold st_bind, o_len, st_lift, check_output_len.
  rewrite (proj2 (Z.ltb_ge _ _)) by done. by apply sign_into_ok.
Qed.

Lemma hmac_empty_key h chunks : hmac h [] chunks = Err TpmCryptoError.KeyIsEmpty.
Proof using Type. done. Qed.

Lemma hmac_spec h key chunks :
  key ≠ [] →
  outcome (fails (to_md h)) (λ d, d = hmac_of (to_md h) key (concat chunks)) (hmac h key chunks).
Proof using Type*.
  intros Hkey. pose proof (size_bounds h).
  apply filled_outcome; [lia | apply zlen_hmac |].
  eapply st_outcome_impl; [apply hmac_into_spec; [done | rewrite zlen_zeroed; lia] | by intros e out [] | done].
Qed.

(** *** Key derivation *)

Section kdf_loop.
Variables (blk : Z → list byte) (L key_bytes : Z) (out0 : list byte).
Hypothesis HL : ∀ i, zlen (blk i) = L.
Hypothesis HLpos : 0 < L.
Hypothesis Hbytes : 0 ≤ key_bytes ≤ 2 ^ 29.
Hypothesis Hout : key_bytes ≤ zlen out0.
Local Abbreviation stream := (kdf_blocks blk (div_ceil key_bytes L)).

(** After [n] blocks. *)
Definition kdf_inv (st : kdf_state) (out : list byte) : Prop :=
  ∃ n, 0 ≤ n ∧ counter st = n + 1 ∧ offset st = key_bytes `min` (n * L) ∧
    out = take (Z.to_nat (offset st)) stream ++ drop (Z.to_nat (offset st)) out0.

Lemma zlen_stream : key_bytes ≤ zlen stream.
Proof using HL HLpos Hbytes.
  pose proof (div_ceil_spec key_bytes L HLpos ltac:(lia)).
  rewrite (zlen_kdf_blocks blk L HL) by nia. lia.
Qed.

Lemma kdf_inv_init block : kdf_inv (mk_kdf 0 1 block) out0.
Proof using Hbytes. exists 0. simpl. split_and!; [lia..|done]. Qed.

Lemma kdf_inv_len st out : kdf_inv st out → 0 ≤ offset st ≤ key_bytes ∧ zlen out = zlen out0.
Proof using HL HLpos Hbytes Hout.
  intros (n & Hn & _ & Ho & ->). assert (0 ≤ offset st ≤ key_bytes) as Hb by nia. split; [done|].
  pose proof zlen_stream. rewrite zlen_app, zlen_take, zlen_drop by lia. lia.
Qed.

(** The next block goes to its place and the counter does not overflow. *)
Lemma take_block_ok (F : TpmCryptoError.t → list byte → Prop) block rest st out :
  kdf_inv st out → offset st < key_bytes → block = blk (counter st) ++ rest →
  st_outcome F
    (λ st' out', kdf_inv st' out' ∧ offset st < offset st' ∧ TpmHash.block st' = block)
    (take_block key_bytes block L st out).
Proof using HL HLpos Hbytes Hout.
  intros Hinv Hlt Hblock. destruct (kdf_inv_len st out Hinv) as [Hb Hz].
  destruct Hinv as (n & Hn & Hc & Ho & Heq).
  pose proof (div_ceil_spec key_bytes L HLpos ltac:(lia)) as HN.
  set (N := div_ceil key_bytes L) in *.
  assert (offset st = n * L) as Ho' by lia. assert (n < N ≤ key_bytes) as HnN by nia.
  pose proof (zlen_nonneg rest). pose proof zlen_stream as Hstream. fold N in Hstream.
  set (tt' := (key_bytes - offset st) `min` L).
  assert (take (Z.to_nat tt') block = take (Z.to_nat tt') (blk (n + 1))) as Htake.
  { rewrite Hblock, Hc. apply take_app_le. pose proof (HL (n + 1)). unfold zlen in *. lia. }
  unfold take_block. fold tt'.
  eapply st_outcome_lift; [rewrite take_checked_ok by (rewrite Hblock, zlen_app, HL; lia); exact eq_refl|].
  intros head <-. rewrite Htake. pose proof (HL (n + 1)) as HLn.
  unfold st_bind at 1. rewrite copy_from_slice_ok; [|lia|rewrite zlen_take; lia|lia].
  unfold st_bind, st_ret, st_lift, next_counter.
  rewrite (proj2 (Z.ltb_lt _ _)) by (unfold u32_max; lia). simpl. split_and!; [|lia|done].
  exists (n + 1). simpl. split_and!; [lia | lia | nia |].
  rewrite Heq at 1 2. pose proof (zlen_take (offset st) stream ltac:(fold N; lia)) as Hts. fold N in Hts.
  rewrite (take_zlen_app _ _ (offset st)) by (fold N; lia).
  replace (Z.to_nat (offset st + tt')) with (Z.to_nat (offset st) + Z.to_nat tt')%nat at 1 by lia.
  rewrite <-drop_drop, (drop_zlen_app _ _ (offset st)) by (fold N; lia).
  rewrite drop_drop, <-Z2Nat.inj_add, app_assoc by lia. f_equal. fold N.
  rewrite <-(kdf_extend blk L HL n (offset st) (offset st + tt') N) by lia.
  do 3 f_equal. lia.
Qed.
End kdf_loop.

(** The loops of [kdfa_into] and [kdfe_into]: a body that makes the block of
    its counter and stores it fills the buffer with the key. *)
Lemma kdf_while (good : list byte → Prop) (F : TpmCryptoError.t → list byte → Prop)
    blk L key_bits out0 body block0 :
  let key_bytes := div_ceil key_bits 8 in
  (∀ i, zlen (blk i) = L) → 0 < L → 0 ≤ key_bits ≤ u32_max → key_bytes ≤ zlen out0 →
  good block0 →
  (∀ st out, zlen out = zlen out0 → good (block st) →
     (∃ e, body st out = (Err e, out) ∧ F e out) ∨
     (∃ block' rest, good block' ∧ block' = blk (counter st) ++ rest ∧
        body st out = take_block key_bytes block' L st out)) →
  st_outcome F (λ _ out, out = kdf_key blk L key_bits ++ drop (Z.to_nat key_bytes) out0)
    (st_while counter_bound (λ st, offset st <? key_bytes) body (mk_kdf 0 1 block0) out0).
Proof using Type.
  intros key_bytes HL HLpos Hbits Hout Hgood0 Hbody.
  assert (0 ≤ key_bytes ≤ 2 ^ 29) as Hbytes.
  { pose proof (div_ceil_spec key_bits 8 ltac:(lia) ltac:(lia)). unfold key_bytes, u32_max in *. lia. }
  pose proof (st_while_spec (λ st out, kdf_inv blk L key_bytes out0 st out ∧ good (block st)) F
    (λ st, Z.to_nat (key_bytes - offset st)) counter_bound (λ st, offset st <? key_bytes) body
    (mk_kdf 0 1 block0) out0) as Hw.
  eapply st_outcome_impl; [apply Hw; clear Hw| done |].
  - intros st out [Hinv Hg] Hlt%Z.ltb_lt.
    destruct (kdf_inv_len blk L key_bytes out0 HL HLpos Hbytes Hout st out Hinv) as [Hb Hz].
    destruct (Hbody st out Hz Hg) as [(e & -> & He) | (block' & rest & Hg' & Hb' & ->)]; [done|].
    eapply st_outcome_impl; [by eapply (take_block_ok blk L key_bytes out0 HL HLpos Hbytes Hout F)|done|].
    simpl. intros st' out' (Hinv' & Hinc & Heq). split_and!; [done | by rewrite Heq |].
    destruct (kdf_inv_len blk L key_bytes out0 HL HLpos Hbytes Hout st' out' Hinv'). lia.
  - split; [by apply kdf_inv_init | done].
  - simpl. unfold counter_bound. apply Nat2Z.inj_lt. rewrite positive_nat_Z, Z2Nat.id by lia.
    change (Z.pos (2 ^ 32)) with (2 ^ 32). lia.
  - simpl. intros st out [[Hinv Hg] Hge%Z.ltb_ge].
    destruct (kdf_inv_len blk L key_bytes out0 HL HLpos Hbytes Hout st out Hinv) as [Hb _].
    destruct Hinv as (n & _ & _ & _ & ->). unfold kdf_key. fold key_bytes.
    replace (offset st) with key_bytes by lia. done.
Qed.

Lemma kdf_bits_ok key_bits :
  0 ≤ key_bits ≤ u32_max →
  checked_kdf_key_bits key_bits = Ok (div_ceil key_bits 8, be_encode 4 key_bits).
Proof using Type. intros. unfold checked_kdf_key_bits. by rewrite (proj2 (Z.leb_le _ _)) by lia. Qed.

Lemma kdf_bits_err key_bits :
  u32_max < key_bits →
  checked_kdf_key_bits key_bits = Err (TpmCryptoError.InvalidKdfKeyBits key_bits).
Proof using Type. intros. unfold checked_kdf_key_bits. by rewrite (proj2 (Z.leb_gt _ _)) by lia. Qed.

Lemma check_len_ok n expected : expected ≤ n → check_output_len n expected = Ok ().
Proof using Type. intros. unfold check_output_len. by rewrite (proj2 (Z.ltb_ge _ _)). Qed.

Lemma kdfa_body_ok h pkey key payload key_bytes st out :
  keyed pkey key → zlen (block st) = MAX_DIGEST_SIZE →
  (∃ e, kdfa_body (to_md h) pkey (size h) key_bytes payload st out = (Err e, out) ∧ fails (to_md h) e) ∨
  (∃ block' rest, zlen block' = MAX_DIGEST_SIZE ∧
     block' = hmac_of (to_md h) key (concat (payload (be_encode 4 (counter st)))) ++ rest ∧
     kdfa_body (to_md h) pkey (size h) key_bytes payload st out =
       take_block key_bytes block' (size h) st out).
Proof using Type*.
  intros Hk Hb. pose proof (size_bounds h) as Hsize. unfold kdfa_body.
  pose proof (signer_run (to_md h) pkey key (payload (be_encode 4 (counter st))) Hk) as Hrun.
  unfold st_bind at 1 4, st_lift at 1 4.
  destruct (map_err TpmCryptoError.Crypto (Signer_new _ _)) as [s|e|]; simpl in Hrun;
    [|left; by exists e|done].
  unfold st_bind at 1 3, st_lift at 1 3.
  destruct (update_all _ _ _) as [s'|e|]; simpl in Hrun; [|left; by exists e|done].
  pose proof (sign_into_ok (to_md h) key _ s' (block st) Hrun ltac:(unfold size in *; lia)) as Hs.
  fold (size h) in Hs. destruct (sign_into s' (size h) (block st)) as [[n|e|] block']; simpl in Hs.
  - right. destruct Hs as [-> ->].
    pose proof (zlen_hmac (to_md h) key (concat (payload (be_encode 4 (counter st))))) as Hl.
    rewrite Hl. eexists _, (drop _ (block st)). split_and!; [|reflexivity|done].
    rewrite zlen_app, Hl, zlen_drop by (unfold size in *; lia). lia.
  - left. exists e. by destruct Hs.
  - done.
Qed.

(** The wrapper checks of both derivations have passed: what is left. *)
Lemma kdfa_into_spec h key label a b key_bits out :
  key ≠ [] → 0 ≤ key_bits ≤ u32_max → 0 < size h → div_ceil key_bits 8 ≤ zlen out →
  st_outcome (λ e out', fails (to_md h) e ∧ zlen out' = zlen out)
    (λ n out', n = div_ceil key_bits 8 ∧
       out' = kdf_key (kdfa_block h key label a b key_bits) (size h) key_bits ++ drop (Z.to_nat n) out)
    (kdfa_into h key label a b key_bits out).
Proof using Type*.
  intros Hkey Hbits Hsize Hl. unfold kdfa_into. rewrite is_empty_cons by done.
  rewrite kdf_bits_ok by done. unfold st_bind at 1, st_lift at 1. unfold st_bind at 1, o_len at 1.
  rewrite check_len_ok by done. unfold st_bind at 1, st_lift at 1.
  pose proof (split_label_terminated label) as Hlabel.
  destruct (split_label_and_terminator label) as [l t]. cbv zeta.
  eapply st_outcome_lift.
  { eapply outcome_map_err; [apply (PKey_hmac_ok (to_md h) key)|].
    intros e He. split_and!; [by eexists | done | done]. }
  intros pkey Hpk. eapply st_outcome_bind.
  - apply (kdf_while (λ block, zlen block = MAX_DIGEST_SIZE) _
      (kdfa_block h key label a b key_bits) (size h) key_bits out);
      [intros; apply zlen_hmac | done.. | apply zlen_zeroed; unfold MAX_DIGEST_SIZE; lia |].
    intros st out' Hz Hb.
    pose proof (kdfa_body_ok h pkey key
      (λ c, [c; l; t; a; b; be_encode 4 key_bits]) (div_ceil key_bits 8) st out' Hpk Hb)
      as [(e & He & Hf) | (block' & rest & Hb' & -> & Hbody)].
    + left. by exists e.
    + right. eexists _, rest. split_and!; [exact Hb' | | exact Hbody].
      unfold kdfa_block. rewrite <-Hlabel. cbn [concat].
      by rewrite app_nil_r, <-app_assoc.
  - intros _ out' ->. done.
Qed.

Lemma kdfe_into_spec h z label u v key_bits out :
  0 ≤ key_bits ≤ u32_max → 0 < size h → div_ceil key_bits 8 ≤ zlen out →
  st_outcome (λ e out', fails (to_md h) e ∧ zlen out' = zlen out)
    (λ n out', n = div_ceil key_bits 8 ∧
       out' = kdf_key (kdfe_block h z label u v) (size h) key_bits ++ drop (Z.to_nat n) out)
    (kdfe_into h z label u v key_bits out).
Proof using Type*.
  intros Hbits Hsize Hl. unfold kdfe_into.
  rewrite kdf_bits_ok by done. unfold st_bind at 1, st_lift at 1. unfold st_bind at 1, o_len at 1.
  rewrite check_len_ok by done. unfold st_bind at 1, st_lift at 1.
  pose proof (split_label_terminated label) as Hlabel.
  destruct (split_label_and_terminator label) as [l t]. cbv zeta.
  eapply st_outcome_bind.
  - apply (kdf_while (λ _, True) _ (kdfe_block h z label u v) (size h) key_bits out);
      [intros; apply zlen_hash | done.. |].
    intros st out' Hz _. unfold kdfe_body.
    pose proof (run_hasher_ok (to_md h) [be_encode 4 (counter st); z; l; t; u; v]) as Hr.
    unfold st_bind at 1, st_lift at 1.
    destruct (run_hasher _ _) as [d|e|] eqn:Hd; [right | left; by exists e | done].
    exists d, []. split_and!; [done | |].
    + rewrite Hr, app_nil_r. unfold kdfe_block. rewrite <-Hlabel. cbn [concat].
      by rewrite app_nil_r, <-app_assoc.
    + unfold st_bind, st_lift. by rewrite Hr, zlen_hash.
  - intros _ out' ->. done.
Qed.

Lemma zlen_kdf_key blk L key_bits :
  (∀ i, zlen (blk i) = L) → 0 < L → 0 ≤ key_bits →
  zlen (kdf_key blk L key_bits) = div_ceil key_bits 8.
Proof using Type.
  intros HL HLpos Hbits. pose proof (div_ceil_spec key_bits 8 ltac:(lia) Hbits).
  pose proof (div_ceil_spec (div_ceil key_bits 8) L HLpos ltac:(lia)).
  unfold kdf_key. rewrite zlen_take; [done|].
  rewrite (zlen_kdf_blocks blk L HL) by nia. lia.
Qed.

(** A shorter key is a prefix of a longer one. *)
Lemma kdf_key_prefix blk L bits more :
  (∀ i, zlen (blk i) = L) → 0 < L → 0 ≤ bits ≤ more →
  ∃ k, kdf_key blk L more = kdf_key blk L bits ++ k.
Proof using Type.
  intros HL HLpos Hb. unfold kdf_key. cbv zeta.
  set (b1 := div_ceil bits 8). set (b2 := div_ceil more 8).
  assert (0 ≤ b1 ≤ b2) as Hb12.
  { unfold b1, b2, div_ceil. split; [apply Z.div_pos; lia | apply Z.div_le_mono; lia]. }
  pose proof (div_ceil_spec b1 L HLpos ltac:(lia)) as H1.
  assert (0 ≤ div_ceil b1 L ≤ div_ceil b2 L) as Hn.
  { unfold div_ceil. split; [apply Z.div_pos; lia | apply Z.div_le_mono; lia]. }
  rewrite <-(take_kdf_blocks blk L HL (div_ceil b1 L) (div_ceil b2 L) b1) by lia.
  exists (drop (Z.to_nat b1) (take (Z.to_nat b2) (kdf_blocks blk (div_ceil b2 L)))).
  rewrite <-(take_drop (Z.to_nat b1) (take (Z.to_nat b2) _)) at 1. f_equal.
  rewrite take_take. f_equal. lia.
Qed.

(** From a derivation into a buffer to the one into a fresh vector. *)
Lemma kdf_filled blk L key_bits h into :
  (∀ i, zlen (blk i) = L) → 0 < L → 0 ≤ key_bits ≤ u32_max →
  st_outcome (λ e out, fails (to_md h) e ∧ zlen out = zlen (zeroed (div_ceil key_bits 8)))
    (λ n out, n = div_ceil key_bits 8 ∧
       out = kdf_key blk L key_bits ++ drop (Z.to_nat n) (zeroed (div_ceil key_bits 8)))
    (into (zeroed (div_ceil key_bits 8))) →
  outcome (fails (to_md h)) (λ d, d = kdf_key blk L key_bits)
    (let? (key_bytes, _) := checked_kdf_key_bits key_bits in filled key_bytes into).
Proof using Type.
  intros HL HLpos Hbits Hinto. rewrite kdf_bits_ok by done. cbn [result_bind].
  pose proof (div_ceil_spec key_bits 8 ltac:(lia) ltac:(lia)).
  pose proof (zlen_kdf_key blk L key_bits HL HLpos ltac:(lia)) as Hz.
  apply filled_outcome; [lia | exact Hz |]. rewrite Hz.
  destruct (into _) as [[n|e|] out]; simpl in *; [|by destruct Hinto|done].
  by destruct Hinto as [-> ->].
Qed.

Lemma kdfa_outcome h key label a b key_bits :
  key ≠ [] → 0 ≤ key_bits ≤ u32_max → 0 < size h →
  outcome (fails (to_md h))
    (λ d, d = kdf_key (kdfa_block h key label a b key_bits) (size h) key_bits)
    (kdfa h key label a b key_bits).
Proof using Type*.
  intros Hkey Hbits Hsize. pose proof (div_ceil_spec key_bits 8 ltac:(lia) ltac:(lia)).
  apply kdf_filled; [intros; apply zlen_hmac | done.. |].
  apply kdfa_into_spec; [done.. |]. rewrite zlen_zeroed; lia.
Qed.

Lemma kdfe_outcome h z label u v key_bits :
  0 ≤ key_bits ≤ u32_max → 0 < size h →
  outcome (fails (to_md h))
    (λ d, d = kdf_key (kdfe_block h z label u v) (size h) key_bits)
    (kdfe h z label u v key_bits).
Proof using Type*.
  intros Hbits Hsize. pose proof (div_ceil_spec key_bits 8 ltac:(lia) ltac:(lia)).
  apply kdf_filled; [intros; apply zlen_hash | done.. |].
  apply kdfe_into_spec; [done.. |]. rewrite zlen_zeroed; lia.
Qed.

(** *** Names *)

Lemma try_from_to_alg alg h : try_from alg = Ok h ↔ to_alg h = alg.
Proof using Type. split; [by destruct alg; intros [= <-] | by intros <-; destruct h]. Qed.

(** Marshalling into a buffer of zeros gives the encoding. *)
Lemma marshal_zeroed (c : Codec) `{!CodecOk c} v bs n :
  wire c v = Some bs → zlen bs ≤ n ≤ isize_max →
  ∃ w, marshal c v (writer_new (zeroed n)) = (Ok (), w) ∧
       take_checked (E:=TpmCryptoError.t) (writer_len w) (buffer w) = Ok bs.
Proof using Type.
  intros Hw Hn. pose proof (zlen_nonneg bs).
  destruct (marshal_new c v bs (zeroed n) Hw) as [Hm Hb]; [rewrite zlen_zeroed; lia|].
  eexists. split; [exact Hm|]. rewrite take_checked_ok; [f_equal; exact Hb|].
  unfold writer_len, put, writer_new, zlen. cbn [cursor buffer]. unfold zlen.
  rewrite !length_app, take_0, length_drop. simpl. lia.
Qed.

Lemma marshal_fresh (c : Codec) `{!CodecOk c} v bs :
  wire c v = Some bs → SIZE c ≤ isize_max →
  ∃ w, marshal c v (writer_new (zeroed (SIZE c))) = (Ok (), w) ∧
       take_checked (E:=TpmCryptoError.t) (writer_len w) (buffer w) = Ok bs.
Proof using Type.
  intros Hw Hmax. pose proof (wire_SIZE c v bs Hw). by apply marshal_zeroed.
Qed.

Lemma make_name_outcome public bs h :
  wire TpmtPublic public = Some bs → try_from (TpmtPublic.name_alg public) = Ok h →
  outcome (fails (to_md h))
    (λ nm, TpmBuffer.holds (MAX_DIGEST_SIZE + 2) nm
             (be_encode 2 (value (TpmtPublic.name_alg public)) ++ hash (to_md h) bs))
    (tpm_make_name public).
Proof using Type*.
  intros Hw Hh. unfold tpm_make_name. rewrite Hh. cbn [result_bind]. cbv zeta.
  destruct (marshal_fresh TpmtPublic public bs Hw) as (w & -> & Ht).
  { apply Z.leb_le. by vm_compute. }
  cbn [map_err result_bind]. rewrite Ht. cbn [result_bind].
  pose proof (size_bounds h) as Hsize. unfold MAX_DIGEST_SIZE in Hsize.
  pose proof (digest_into_spec h [bs] (zeroed MAX_DIGEST_SIZE)) as Hd.
  rewrite zlen_zeroed in Hd by (unfold MAX_DIGEST_SIZE; lia). specialize (Hd ltac:(unfold MAX_DIGEST_SIZE; lia)).
  destruct (digest_into _ _ _) as [[n|e|] out]; simpl in Hd; [|by destruct Hd|done].
  rewrite app_nil_r in Hd. destruct Hd as [-> ->].
  pose proof (zlen_hash (to_md h) bs) as Hz. fold (size h) in Hz.
  set (d := hash (to_md h) bs) in *. set (alg := be_encode 2 _).
  assert (zlen alg = 2) as Halg by apply zlen_be_encode.
  rewrite take_checked_ok by (rewrite zlen_app; pose proof (zlen_nonneg d);
    pose proof (zlen_nonneg (drop (Z.to_nat (zlen d)) (zeroed MAX_DIGEST_SIZE))); lia).
  rewrite take_zlen_app by done. cbn [result_bind].
  assert (zlen (zeroed (MAX_DIGEST_SIZE + 2)) = 66) as H66 by by apply zlen_zeroed.
  unfold st_bind. rewrite copy_from_slice_ok by lia.
  change (take (Z.to_nat 0) _) with (@nil byte). cbn [app].
  set (rest := drop (Z.to_nat 2) _).
  assert (zlen rest = 64) as Hrest by (unfold rest; rewrite zlen_drop; lia).
  rewrite copy_from_slice_ok by (rewrite ?zlen_app; lia).
  rewrite take_zlen_app by done. cbn [result_bind].
  rewrite app_assoc, take_checked_ok by (pose proof (zlen_nonneg d); rewrite !zlen_app;
    pose proof (zlen_nonneg (drop (Z.to_nat (2 + zlen d)) (alg ++ rest))); lia).
  rewrite take_zlen_app by (rewrite zlen_app; lia). cbn [result_bind].
  destruct (buffer_try_from_spec (MAX_DIGEST_SIZE + 2) ltac:(done) (alg ++ d)) as (b & -> & Hb);
    [rewrite zlen_app; unfold MAX_DIGEST_SIZE, u16_max; lia..|].
  exact Hb.
Qed.

Lemma hmac_verify_eq h key chunks signature :
  usable (to_md h) → key ≠ [] →
  hmac_verify h key chunks signature =
    if decide (zlen signature = size h) then
      if decide (signature = hmac_of (to_md h) key (concat chunks)) then Ok ()
      else Err TpmCryptoError.MacMismatch
    else Panic.
Proof using Type*.
  intros Hu Hkey. unfold hmac_verify.
  destruct (outcome_Ok _ _ _ (hmac_spec h key chunks Hkey)) as (d & -> & ->); [by intros e []|].
  cbn [result_bind]. pose proof (zlen_hmac (to_md h) key (concat chunks)) as Hl.
  set (mac := hmac_of _ _ _) in *. rewrite memcmp_eq_ok. unfold size, zlen in *.
  case_decide; case_decide; try lia; [|done]. cbn [or_panic result_bind].
  case_bool_decide; case_decide; congruence.
Qed.
End hash_lemmas.
