(* ===== verification/Text.v ===== *)
(** Text: what the crates use of Rust's [str], [char] and number formatting.

    A [str] is the list of its code points; where the source slices by byte
    offsets it does so at character boundaries, and [utf8_len] is its length
    in bytes. *)

From Stdlib Require Import Ascii String.
From S2P Require Import Prelude.

Definition str : Type := list Z.

(** An ASCII literal of the source. *)
Definition lit (s : string) : str := map (λ c, Z.of_N (N_of_ascii c)) (list_ascii_of_string s).
Definition chr (c : ascii) : Z := Z.of_N (N_of_ascii c).
Arguments chr _%_char.

(** [char::len_utf8] and [str::len] *)
Definition len_utf8 (c : Z) : Z :=
  if c <? 0x80 then 1 else if c <? 0x800 then 2 else if c <? 0x10000 then 3 else 4.
Definition utf8_len (s : str) : Z := foldr Z.add 0 (map len_utf8 s).

(** [char::is_whitespace]: the Unicode property [White_Space]. *)
Definition is_whitespace (c : Z) : bool :=
  ((0x9 <=? c) && (c <=? 0xd)) || (c =? 0x20) || (c =? 0x85) || (c =? 0xa0) || (c =? 0x1680) ||
  ((0x2000 <=? c) && (c <=? 0x200a)) || (c =? 0x2028) || (c =? 0x2029) || (c =? 0x202f) ||
  (c =? 0x205f) || (c =? 0x3000).

(** [str::split(sep)] with a character: one part more than separators. *)
Fixpoint split (sep : Z) (s : str) : list str :=
  match s with
  | [] => [[]]
  | c :: s =>
      let parts := split sep s in
      if c =? sep then [] :: parts
      else match parts with
           | [] => [[c]]
           | part :: parts => (c :: part) :: parts
           end
  end.

(** [str::split_once(sep)] and [str::rsplit_once(sep)] *)
Fixpoint split_once (sep : Z) (s : str) : option (str * str) :=
  match s with
  | [] => None
  | c :: s =>
      if c =? sep then Some ([], s)
      else '(a, b) ← split_once sep s; Some (c :: a, b)
  end.
Fixpoint rsplit_once (sep : Z) (s : str) : option (str * str) :=
  match s with
  | [] => None
  | c :: s =>
      match rsplit_once sep s with
      | Some (a, b) => Some (c :: a, b)
      | None => if c =? sep then Some ([], s) else None
      end
  end.

(** [str::strip_prefix(prefix)] *)
Fixpoint strip_prefix (prefix s : str) : option str :=
  match prefix, s with
  | [], _ => Some s
  | p :: prefix, c :: s => if c =? p then strip_prefix prefix s else None
  | _ :: _, [] => None
  end.

(** [parts.join(sep)] *)
Fixpoint join (sep : str) (parts : list str) : str :=
  match parts with
  | [] => []
  | [part] => part
  | part :: parts => part ++ sep ++ join sep parts
  end.

(** [char::to_digit(radix)] for a radix up to 16 *)
Definition to_digit (radix c : Z) : option Z :=
  let d :=
    if (0x30 <=? c) && (c <=? 0x39) then c - 0x30
    else if (0x61 <=? c) && (c <=? 0x66) then c - 0x61 + 10
    else if (0x41 <=? c) && (c <=? 0x46) then c - 0x41 + 10
    else 16 in
  if d <? radix then Some d else None.

(** [u32::from_str_radix] and the like, for an unsigned type with the
    maximum [max]: an optional plus sign and at least one digit. *)
Fixpoint digits_value (radix max acc : Z) (s : str) : option Z :=
  match s with
  | [] => Some acc
  | c :: s =>
      d ← to_digit radix c;
      if acc * radix + d <=? max then digits_value radix max (acc * radix + d) s else None
  end.
Definition from_str_radix (max : Z) (s : str) (radix : Z) : option Z :=
  match s with
  | [] => None
  | c :: rest =>
      if c =? chr "+" then match rest with [] => None | _ => digits_value radix max 0 rest end
      else digits_value radix max 0 s
  end.

(** A digit as a character: [0-9a-f]. *)
Definition digit_char (d : Z) : Z := if d <? 10 then 0x30 + d else 0x61 + (d - 10).

(** [to_string] of an unsigned integer of at most [n] decimal digits. *)
Fixpoint decimal (n : nat) (z : Z) : str :=
  match n with
  | O => []
  | S n => if z <? 10 then [digit_char z] else decimal n (z / 10) ++ [digit_char (z mod 10)]
  end.
Definition u32_to_string (z : Z) : str := decimal 10 z.
Definition u16_to_string (z : Z) : str := decimal 5 z.

(** The [n] low hexadecimal digits: [{:08x}] of a [u32] is [hex_digits 8],
    [{:04x}] of a [u16] is [hex_digits 4]. *)
Fixpoint hex_digits (n : nat) (z : Z) : str :=
  match n with
  | O => []
  | S n => hex_digits n (z / 16) ++ [digit_char (z mod 16)]
  end.

(** ** Lemmas: splitting *)

Lemma split_app sep a b :
  sep ∉ a → split sep (a ++ sep :: b) = a :: split sep b.
Proof.
  induction a as [|c a IH]; simpl; [by rewrite Z.eqb_refl|].
  intros [Hc Ha]%not_elem_of_cons. rewrite IH by done.
  by rewrite (proj2 (Z.eqb_neq _ _)).
Qed.

Lemma split_none sep a : sep ∉ a → split sep a = [a].
Proof.
  induction a as [|c a IH]; simpl; [done|].
  intros [Hc Ha]%not_elem_of_cons. rewrite IH by done.
  by rewrite (proj2 (Z.eqb_neq _ _)).
Qed.

Lemma split_join sep parts :
  parts ≠ [] → Forall (λ p, sep ∉ p) parts → split sep (join [sep] parts) = parts.
Proof.
  intros Hne HF. induction HF as [|p parts Hp HF IH]; [done|].
  destruct parts as [|q parts]; [by apply split_none|].
  change (join [sep] (p :: q :: parts)) with (p ++ sep :: join [sep] (q :: parts)).
  by rewrite split_app, IH.
Qed.

Lemma split_once_app sep a b : sep ∉ a → split_once sep (a ++ sep :: b) = Some (a, b).
Proof.
  induction a as [|c a IH]; simpl; [by rewrite Z.eqb_refl|].
  intros [Hc Ha]%not_elem_of_cons. by rewrite (proj2 (Z.eqb_neq _ _)), IH.
Qed.

Lemma split_once_none sep a : sep ∉ a → split_once sep a = None.
Proof.
  induction a as [|c a IH]; simpl; [done|].
  intros [Hc Ha]%not_elem_of_cons. by rewrite (proj2 (Z.eqb_neq _ _)), IH.
Qed.

Lemma rsplit_once_none sep a : sep ∉ a → rsplit_once sep a = None.
Proof.
  induction a as [|c a IH]; simpl; [done|].
  intros [Hc Ha]%not_elem_of_cons. by rewrite IH, (proj2 (Z.eqb_neq _ _)).
Qed.

Lemma rsplit_once_app sep a b : sep ∉ b → rsplit_once sep (a ++ sep :: b) = Some (a, b).
Proof.
  intros Hb. induction a as [|c a IH]; simpl; [by rewrite rsplit_once_none, Z.eqb_refl|].
  by rewrite IH.
Qed.

Lemma strip_prefix_Some prefix s rest : strip_prefix prefix s = Some rest ↔ s = prefix ++ rest.
Proof.
  revert s; induction prefix as [|p prefix IH]; intros s; simpl; [naive_solver|].
  destruct s as [|c s]; [done|]. destruct (Z.eqb_spec c p) as [->|Hc]; [rewrite IH; naive_solver | naive_solver].
Qed.

(** What a split gives back. *)
Lemma split_once_Some sep s a b : split_once sep s = Some (a, b) ↔ s = a ++ sep :: b ∧ sep ∉ a.
Proof.
  split; [|by intros [-> Ha]; apply split_once_app].
  revert a; induction s as [|c s IH]; intros a; simpl; [done|].
  destruct (Z.eqb_spec c sep) as [->|Hc].
  - intros [= <- <-]. split; [done | by intros ?%elem_of_nil].
  - intros ([a' b'] & Hs & [= <- <-])%bind_Some. destruct (IH _ Hs) as [-> Ha].
    split; [done|]. by apply not_elem_of_cons.
Qed.

Lemma split_once_None sep s : split_once sep s = None → sep ∉ s.
Proof.
  induction s as [|c s IH]; simpl; [by intros _ ?%elem_of_nil|].
  destruct (Z.eqb_spec c sep); [done|]. destruct (split_once sep s) as [[]|]; [done|].
  intros _. apply not_elem_of_cons. auto.
Qed.

(** The parts of a string hold its characters. *)
Lemma elem_of_join sep c parts :
  c ∈ join sep parts → c ∈ sep ∨ ∃ p, p ∈ parts ∧ c ∈ p.
Proof.
  induction parts as [|p parts IH]; [by intros ?%elem_of_nil|].
  destruct parts as [|q parts]; [intros; right; exists p; split; [by left|done]|].
  change (join sep (p :: q :: parts)) with (p ++ sep ++ join sep (q :: parts)).
  intros [Hc|[Hc|Hc]%elem_of_app]%elem_of_app.
  - right. exists p. split; [by left | done].
  - by left.
  - destruct (IH Hc) as [?|(p' & ? & ?)]; [by left|]. right. exists p'. split; [by right | done].
Qed.

(** ** Lemmas: numbers *)

Lemma to_digit_char radix d : 0 ≤ d < radix → radix ≤ 16 → to_digit radix (digit_char d) = Some d.
Proof.
  intros Hd Hr. unfold to_digit, digit_char.
  assert (d <? radix = true) as Hlt by lia.
  destruct (Z.ltb_spec d 10).
  - rewrite !(proj2 (Z.leb_le _ _)) by lia. cbn [andb]. replace (0x30 + d - 0x30) with d by lia. by rewrite Hlt.
  - rewrite (proj2 (Z.leb_gt (0x61 + (d - 10)) 0x39)), andb_false_r by lia.
    rewrite !(proj2 (Z.leb_le _ _)) by lia. cbn [andb].
    replace (0x61 + (d - 10) - 0x61 + 10) with d by lia. by rewrite Hlt.
Qed.

Lemma digits_value_app radix max acc s t v :
  digits_value radix max acc s = Some v → digits_value radix max acc (s ++ t) = digits_value radix max v t.
Proof.
  revert acc; induction s as [|c s IH]; intros acc; simpl; [by intros [= ->]|].
  destruct (to_digit radix c) as [d|]; simpl; [|done]. case_match; [apply IH | done].
Qed.

Lemma digits_value_decimal n z max :
  0 ≤ z ≤ max → z < 10 ^ Z.of_nat n → (0 < n)%nat → digits_value 10 max 0 (decimal n z) = Some z.
Proof.
  revert z; induction n as [|n IH]; intros z Hz Hn Hpos; [lia|].
  cbn [decimal]. destruct (Z.ltb_spec z 10).
  - cbn [digits_value]. rewrite to_digit_char by lia. cbn [mbind option_bind].
    rewrite (proj2 (Z.leb_le _ _)) by lia. f_equal; lia.
  - pose proof (Z.div_mod z 10 ltac:(lia)). pose proof (Z.mod_pos_bound z 10 ltac:(lia)).
    assert (0 < n)%nat by (destruct n; [simpl in Hn; lia | lia]).
    rewrite Nat2Z.inj_succ, Z.pow_succ_r in Hn by lia.
    rewrite (digits_value_app _ _ _ _ _ (z / 10)).
    2:{ apply IH; [split; [apply Z.div_pos; lia | nia] | apply Z.div_lt_upper_bound; lia | done]. }
    cbn [digits_value]. rewrite to_digit_char by lia. cbn [mbind option_bind].
    rewrite (proj2 (Z.leb_le _ _)) by lia. f_equal; lia.
Qed.

Lemma digits_value_hex n z max :
  0 ≤ z ≤ max → z < 16 ^ Z.of_nat n → digits_value 16 max 0 (hex_digits n z) = Some z.
Proof.
  revert z; induction n as [|n IH]; intros z Hz Hn; [simpl in *; f_equal; lia|].
  cbn [hex_digits]. pose proof (Z.div_mod z 16 ltac:(lia)). pose proof (Z.mod_pos_bound z 16 ltac:(lia)).
  rewrite Nat2Z.inj_succ, Z.pow_succ_r in Hn by lia.
  rewrite (digits_value_app _ _ _ _ _ (z / 16)).
  2:{ apply IH; [split; [apply Z.div_pos; lia | nia] | apply Z.div_lt_upper_bound; lia]. }
  cbn [digits_value]. rewrite to_digit_char by lia. cbn [mbind option_bind].
  rewrite (proj2 (Z.leb_le _ _)) by lia. f_equal; lia.
Qed.

(** The characters of a printed number. *)
Definition is_hex_char (c : Z) : bool :=
  ((0x30 <=? c) && (c <=? 0x39)) || ((0x61 <=? c) && (c <=? 0x66)).
Definition is_dec_char (c : Z) : bool := (0x30 <=? c) && (c <=? 0x39).

Lemma digit_char_hex d : 0 ≤ d < 16 → is_hex_char (digit_char d) = true.
Proof. intros. unfold is_hex_char, digit_char. destruct (Z.ltb_spec d 10); lia. Qed.

Lemma digit_char_dec d : 0 ≤ d < 10 → is_dec_char (digit_char d) = true.
Proof. intros. unfold is_dec_char, digit_char. destruct (Z.ltb_spec d 10); lia. Qed.

Lemma decimal_chars n z : 0 ≤ z → Forall (λ c, is_dec_char c = true) (decimal n z).
Proof.
  revert z; induction n as [|n IH]; intros z Hz; [done|]. cbn [decimal].
  destruct (Z.ltb_spec z 10); [by constructor; [apply digit_char_dec|]|].
  apply Forall_app. split; [apply IH, Z.div_pos; lia|]. constructor; [|done].
  apply digit_char_dec, Z.mod_pos_bound. lia.
Qed.

Lemma decimal_nonempty n z : (0 < n)%nat → decimal n z ≠ [].
Proof.
  destruct n; [lia|]. intros _. cbn [decimal]. case_match; [done|]. by intros [_ ?]%app_nil.
Qed.

Lemma hex_digits_chars n z : Forall (λ c, is_hex_char c = true) (hex_digits n z).
Proof.
  revert z; induction n as [|n IH]; intros z; [done|]. cbn [hex_digits].
  apply Forall_app. split; [apply IH|]. constructor; [|done].
  apply digit_char_hex, Z.mod_pos_bound. lia.
Qed.

Lemma length_hex_digits n z : length (hex_digits n z) = n.
Proof. revert z; induction n as [|n IH]; intros z; [done|]. cbn [hex_digits]. rewrite length_app, IH. simpl. lia. Qed.

Lemma from_str_radix_unsigned max s radix c rest :
  s = c :: rest → c ≠ chr "+" → from_str_radix max s radix = digits_value radix max 0 s.
Proof. intros -> Hc. unfold from_str_radix. by rewrite (proj2 (Z.eqb_neq _ _)). Qed.

(** Printing and parsing an index, and a handle. *)
Lemma decimal_parse n max z :
  0 ≤ z ≤ max → z < 10 ^ Z.of_nat n → (0 < n)%nat → from_str_radix max (decimal n z) 10 = Some z.
Proof.
  intros Hz Hn Hpos. pose proof (decimal_chars n z ltac:(lia)) as Hc.
  pose proof (decimal_nonempty n z Hpos) as Hne.
  destruct (decimal n z) as [|c rest] eqn:E; [done|]. inversion Hc; subst.
  erewrite from_str_radix_unsigned; [|done|intros ->; done].
  rewrite <-E. by apply digits_value_decimal.
Qed.

Lemma u32_to_string_parse z : 0 ≤ z ≤ u32_max → from_str_radix u32_max (u32_to_string z) 10 = Some z.
Proof. intros Hz. apply decimal_parse; [done | unfold u32_max in Hz; simpl; lia | lia]. Qed.

Lemma u16_to_string_parse z : 0 ≤ z ≤ u16_max → from_str_radix u16_max (u16_to_string z) 10 = Some z.
Proof. intros Hz. apply decimal_parse; [done | unfold u16_max in Hz; simpl; lia | lia]. Qed.

Lemma hex_digits_parse z : 0 ≤ z ≤ u32_max → from_str_radix u32_max (hex_digits 8 z) 16 = Some z.
Proof.
  intros Hz. pose proof (hex_digits_chars 8 z) as Hc. pose proof (length_hex_digits 8 z) as Hl.
  destruct (hex_digits 8 z) as [|c rest] eqn:E; [done|]. inversion Hc; subst.
  erewrite from_str_radix_unsigned; [|done|intros ->; done].
  rewrite <-E. apply digits_value_hex; [done | unfold u32_max in Hz; simpl; lia].
Qed.

(** What is parsed is in the range. *)
Lemma to_digit_pos radix c d : to_digit radix c = Some d → 0 ≤ d.
Proof. unfold to_digit. repeat case_match; intros [= <-]; lia. Qed.

Lemma digits_value_bounds radix max acc s v :
  0 ≤ radix → 0 ≤ acc ≤ max → digits_value radix max acc s = Some v → 0 ≤ v ≤ max.
Proof.
  intros Hr. revert acc; induction s as [|c s IH]; intros acc Hacc; simpl; [by intros [= <-]|].
  intros (d & Hd%to_digit_pos & Hv)%bind_Some. destruct (Z.leb_spec (acc * radix + d) max); [|done].
  eapply IH; [|done]. nia.
Qed.

Lemma from_str_radix_bounds max s radix v :
  0 ≤ radix → 0 ≤ max → from_str_radix max s radix = Some v → 0 ≤ v ≤ max.
Proof.
  intros Hr Hm. unfold from_str_radix. destruct s as [|c [|c' s]]; [done|..];
    destruct (c =? _); try done; apply digits_value_bounds; lia.
Qed.
