(* ===== verification/Policy.v ===== *)
(** The policy compiler: [policy-language/src/lib.rs] (context and software
    session) and [expression.rs] (expressions, [compile],
    [from_commands]); the text form is in [PolicyText.v]. *)

From stdpp Require Import gmap.
From S2P Require Import Prelude Errors Writer Codec Integer Buffer Tpml EnumMacro Enums BasicTypes Structures.
From S2P Require Import Body FrameData Dispatch Crypto Hash.

(** ** Keys of the maps *)

#[global] Instance TpmInt_countable : Countable TpmInt.t :=
  inj_countable' TpmInt.bytes TpmInt.from_be_bytes (λ i, match i with TpmInt.from_be_bytes _ => eq_refl end).

Definition alg_of_value (z : Z) : option TpmAlgId.t :=
  match try_from TpmAlgId.t z with Ok a => Some a | _ => None end.
Lemma alg_of_value_value a : alg_of_value (value a) = Some a.
Proof. unfold alg_of_value. by rewrite (try_from_value (T:=TpmAlgId.t) a). Qed.
#[global] Instance TpmAlgId_countable : Countable TpmAlgId.t :=
  inj_countable value alg_of_value alg_of_value_value.

(** ** [error.rs] *)

(** [enum TpmPolicyError] *)
Module TpmPolicyError.
Inductive t `{Libcrypto} : Type :=
| Crypto (e : TpmCryptoError.t)
| InvalidCc (cc : TpmCc.t)
| InvalidExpression
| InvalidHandleType (ht : Z)
| InvalidToken (token : list Z)
| InvalidPcrDigest
| InvalidPcrDigestAlgorithm
| InvalidPcrSelection
| Marshal (e : TpmError)
| CommandStreamBranchUnderflow
| CommandStreamUnbalancedBranches
| ParenthesisMismatch
| PcrBankNotAvailable (alg : TpmHash.t)
| PcrCountMismatch
| PcrDigestMissing
| PcrDigestTooLarge
| PcrIndexTooLarge
| PcrSelectionTooLarge
| TooManyBranches
| TrailingData
| UnexpectedEnd.
End TpmPolicyError.

(** ** [struct TpmPolicyContext] *)

Abbreviation names_map := (gmap TpmInt.t (ty Tpm2bName)).
Abbreviation pcr_bank := (gmap Z (ty Tpm2bDigest)).
Abbreviation pcr_banks := (gmap TpmAlgId.t pcr_bank).

Module TpmPolicyContext.
Record t := mk { names : names_map; pcrs : pcr_banks; pcr_count : Z }.

(** [Default] *)
Definition default : t := mk ∅ ∅ 0.

Section context.
Context `{Libcrypto}.

Definition bank_len (bank : pcr_bank) : Z := Z.of_nat (size bank).

(** The loop of [new] over [pcrs.values()]. *)
Fixpoint count_pcrs (pcr_count : Z) (values : list pcr_bank) : result TpmPolicyError.t Z :=
  match values with
  | [] => Ok pcr_count
  | bank :: values =>
      let pcr_count := if pcr_count =? 0 then bank_len bank else pcr_count in
      if negb (pcr_count =? bank_len bank) then Err TpmPolicyError.PcrCountMismatch
      else count_pcrs pcr_count values
  end.

(** [values] is the order in which the map's values are visited; a
    [HashMap] leaves it open ([visits]). *)
Definition new (values : list pcr_bank) (names : names_map) (pcrs : pcr_banks)
    : result TpmPolicyError.t t :=
  let? pcr_count := count_pcrs 0 values in
  Ok (mk names pcrs pcr_count).

Definition visits (values : list pcr_bank) (pcrs : pcr_banks) : Prop :=
  values ≡ₚ (map_to_list pcrs).*2.

Definition name (self : t) (handle : TpmInt.t) : option (ty Tpm2bName) := names self !! handle.
End context.
End TpmPolicyContext.

Module TpmPolicyContextBuilder.
Record t := mk { names : names_map; pcrs : pcr_banks }.

Definition new : t := mk ∅ ∅.
Definition with_name (handle : TpmInt.t) (name : ty Tpm2bName) (self : t) : t :=
  mk (<[handle := name]> (names self)) (pcrs self).

(** [HashMap::extend] and [collect]: later entries replace earlier ones. *)
Definition extend {K V} `{Countable K} (items : list (K * V)) (m : gmap K V) : gmap K V :=
  foldl (λ m '(k, v), <[k := v]> m) m items.

Definition with_names (items : list (TpmInt.t * ty Tpm2bName)) (self : t) : t :=
  mk (extend items (names self)) (pcrs self).
Definition with_pcr_bank (alg : TpmAlgId.t) (items : list (Z * ty Tpm2bDigest)) (self : t) : t :=
  mk (names self) (<[alg := extend items ∅]> (pcrs self)).
Definition build `{Libcrypto} (values : list pcr_bank) (self : t)
    : result TpmPolicyError.t TpmPolicyContext.t :=
  TpmPolicyContext.new values (names self) (pcrs self).
End TpmPolicyContextBuilder.

(** ** [struct TpmPolicySession]

    A failing operation ends the compilation, which drops the session: an
    operation returns the new session or the error. *)

Abbreviation pcr_digest c := (params (B:=TpmPolicyPcrCommand) c).1.
Abbreviation pcrs c := (params (B:=TpmPolicyPcrCommand) c).2.1.
Abbreviation p_hash_list c := (params (B:=TpmPolicyOrCommand) c).1.
Abbreviation policy_ref c := (params (B:=TpmPolicySecretCommand) c).2.2.1.

Module TpmPolicySession.
Section session.
Context `{Libcrypto}.
Abbreviation Res := (result TpmPolicyError.t).

Record t := mk { digest : ty Tpm2bDigest; hash_alg : TpmHash.t; digest_size : Z }.

Definition set_digest (self : t) (d : ty Tpm2bDigest) : t :=
  mk d (hash_alg self) (digest_size self).

(** [Tpm2bDigest::try_from(bytes).map_err(TpmPolicyError::Marshal)] *)
Definition to_digest (bytes : list byte) : Res (ty Tpm2bDigest) :=
  map_err TpmPolicyError.Marshal (TpmBuffer.try_from MAX_DIGEST_SIZE bytes).

Definition new (hash_alg : TpmAlgId.t) : Res t :=
  let? hash_alg := map_err TpmPolicyError.Crypto (TpmHash.try_from hash_alg) in
  let digest_size := TpmHash.size hash_alg in
  let? digest := to_digest (TpmHash.zeroed digest_size) in
  Ok (mk digest hash_alg digest_size).

(** [self.hash_alg.digest(&chunks)], converted to a [Tpm2bDigest]. *)
Definition hash_chunks (self : t) (chunks : list (list byte)) : Res (ty Tpm2bDigest) :=
  let? bytes := map_err TpmPolicyError.Crypto (TpmHash.digest (hash_alg self) chunks) in
  to_digest bytes.

Definition cc_bytes (cc : TpmCc.t) : list byte := be_encode 4 (TpmCc.value cc).

Definition policy_pcr (self : t) (cmd : body TpmPolicyPcrCommand) : Res t :=
  let (r, writer) :=
    marshal TpmlPcrSelection (pcrs cmd) (writer_new (TpmHash.zeroed (SIZE TpmlPcrSelection))) in
  let? _ := map_err TpmPolicyError.Marshal r in
  let pcrs_bytes := take (Z.to_nat (writer_len writer)) (buffer writer) in
  let chunks := [TpmBuffer.deref (digest self); cc_bytes TpmCc.PolicyPcr; pcrs_bytes;
                 TpmBuffer.deref (pcr_digest cmd)] in
  let? new_digest := hash_chunks self chunks in
  Ok (set_digest self new_digest).

Definition policy_or (self : t) (cmd : body TpmPolicyOrCommand) : Res t :=
  let digests_as_bytes := concat (map TpmBuffer.deref (TpmList.deref (p_hash_list cmd))) in
  let? zero_digest := to_digest (TpmHash.zeroed (digest_size self)) in
  let self := set_digest self zero_digest in
  let chunks := [TpmBuffer.deref (digest self); cc_bytes TpmCc.PolicyOr; digests_as_bytes] in
  let? new_digest := hash_chunks self chunks in
  Ok (set_digest self new_digest).

Definition policy_secret (self : t) (auth_handle_name : ty Tpm2bName) (policy_ref : ty Tpm2bNonce)
    : Res t :=
  let first_chunks := [TpmBuffer.deref (digest self); cc_bytes TpmCc.PolicySecret;
                       TpmBuffer.deref auth_handle_name] in
  let? first_digest := hash_chunks self first_chunks in
  let second_chunks := [TpmBuffer.deref first_digest; TpmBuffer.deref policy_ref] in
  let? new_digest := hash_chunks self second_chunks in
  Ok (set_digest self new_digest).

Definition policy_restart (self : t) : Res t :=
  let? zero_digest := to_digest (TpmHash.zeroed (digest_size self)) in
  Ok (set_digest self zero_digest).

Definition get_digest (self : t) : ty Tpm2bDigest := digest self.
End session.
End TpmPolicySession.

(** ** [enum TpmPolicyExpression] *)

(** The emitted commands with their auth sessions, and [TpmCompiledPolicy]. *)
Abbreviation TpmAuthCommands := (TpmList.t (ty TpmsAuthCommand)).
Abbreviation commands_list := (list (TpmCommandValue * TpmAuthCommands)).

Record TpmCompiledPolicy := mk_compiled { commands : commands_list; digest : ty Tpm2bDigest }.

(** The constructors of [TpmCommandValue] used here. *)
Definition PolicyPcr (b : body TpmPolicyPcrCommand) : TpmCommandValue :=
  command_value TpmCc.PolicyPcr b.
Definition PolicySecret (b : body TpmPolicySecretCommand) : TpmCommandValue :=
  command_value TpmCc.PolicySecret b.
Definition PolicyRestart (b : body TpmPolicyRestartCommand) : TpmCommandValue :=
  command_value TpmCc.PolicyRestart b.
Definition PolicyOr (b : body TpmPolicyOrCommand) : TpmCommandValue :=
  command_value TpmCc.PolicyOr b.

Module TpmPolicyExpression.
#[local] Set Warnings "-register-all".
Inductive t : Type :=
| Pcr (selections : ty TpmlPcrSelection) (digest : option (ty Tpm2bDigest))
| Secret (auth_handle : t) (copy_ref : option (ty Tpm2bDigest))
| And (branches : list t)
| Or (branches : list t)
| Handle (handle : TpmInt.t).

(** Induction with the hypothesis for every branch. *)
Section induction.
Variable P : t → Prop.
Hypothesis HPcr : ∀ s d, P (Pcr s d).
Hypothesis HSecret : ∀ h r, P h → P (Secret h r).
Hypothesis HAnd : ∀ bs, Forall P bs → P (And bs).
Hypothesis HOr : ∀ bs, Forall P bs → P (Or bs).
Hypothesis HHandle : ∀ h, P (Handle h).

Fixpoint expr_ind (e : t) : P e :=
  let all := fix all bs : Forall P bs :=
    match bs with
    | [] => Forall_nil_2 P
    | b :: bs => Forall_cons_2 P b bs (expr_ind b) (all bs)
    end in
  match e with
  | Pcr s d => HPcr s d
  | Secret h r => HSecret h r (expr_ind h)
  | And bs => HAnd bs (all bs)
  | Or bs => HOr bs (all bs)
  | Handle h => HHandle h
  end.
End induction.

(** [build_and_branch] *)
Definition build_and_branch (branch : list t) : t :=
  match branch with
  | [expr] => expr
  | _ => And branch
  end.

(** ** [compile] *)

(** The loops [for (byte_index, &byte) in bytes.iter().enumerate()],
    [for bit_index in 0..8], [if (byte & (1 << bit_index)) != 0]: the PCR
    indices of a selection, in their order. *)
Definition byte_indices (byte_index : Z) (b : byte) : list Z :=
  (λ bit_index, byte_index * 8 + bit_index) <$>
    filter (λ bit_index, Z.land (byte.unsigned b) (Z.shiftl 1 bit_index) ≠ 0) (seqZ 0 8).
Definition pcr_indices (bytes : list byte) : list Z :=
  concat (imap (λ i b, byte_indices (Z.of_nat i) b) bytes).

Section compile.
Context `{Libcrypto}.
Abbreviation Res := (result TpmPolicyError.t).
Variable context : TpmPolicyContext.t.

(** What [compile_walk] threads: [command_list] and [software_session]. *)
Record compiler := mk_compiler { command_list : commands_list; software_session : TpmPolicySession.t }.

Definition push (cmd : TpmCommandValue) (c : compiler) : compiler :=
  mk_compiler (command_list c ++ [(cmd, TpmList.new MAX_SESSIONS)]) (software_session c).
Definition set_session (s : TpmPolicySession.t) (c : compiler) : compiler :=
  mk_compiler (command_list c) s.
(** [Ok(software_session.get_digest())] *)
Definition done_walk (c : compiler) : Res (ty Tpm2bDigest * compiler) :=
  Ok (TpmPolicySession.get_digest (software_session c), c).

Fixpoint read_pcrs (bank_pcrs : pcr_bank) (indices : list Z) (pcr_data : list byte) : Res (list byte) :=
  match indices with
  | [] => Ok pcr_data
  | pcr_index :: indices =>
      let? pcr_value := ok_or (bank_pcrs !! pcr_index) TpmPolicyError.PcrDigestMissing in
      read_pcrs bank_pcrs indices (pcr_data ++ TpmBuffer.deref pcr_value)
  end.

Fixpoint read_selections (selections : list (ty TpmsPcrSelection)) (pcr_data : list byte)
    : Res (list byte) :=
  match selections with
  | [] => Ok pcr_data
  | selection :: selections =>
      let? bank_pcrs := ok_or (TpmPolicyContext.pcrs context !! TpmsPcrSelection.hash selection)
                          TpmPolicyError.PcrDigestMissing in
      let? bytes := map_err TpmPolicyError.Marshal
                      (TpmsPcrSelect.deref (TpmsPcrSelection.pcr_select selection)) in
      let? pcr_data := read_pcrs bank_pcrs (pcr_indices bytes) pcr_data in
      read_selections selections pcr_data
  end.

Definition the_pcr_digest (session : TpmPolicySession.t) (selections : ty TpmlPcrSelection)
    (digest : option (ty Tpm2bDigest)) : Res (ty Tpm2bDigest) :=
  match digest with
  | Some digest => Ok digest
  | None =>
      let? pcr_data := read_selections (TpmList.deref selections) [] in
      TpmPolicySession.hash_chunks session [pcr_data]
  end.

Definition compile_walk_pcr (self : t) (c : compiler) : Res (ty Tpm2bDigest * compiler) :=
  match self with
  | Pcr selections digest =>
      let? pcr_digest := the_pcr_digest (software_session c) selections digest in
      if negb (zlen (TpmBuffer.deref pcr_digest) =?
               TpmPolicySession.digest_size (software_session c))
      then Err TpmPolicyError.InvalidPcrDigest
      else
        let cmd := Body.mk (B:=TpmPolicyPcrCommand) [TpmInt.new 4 0] (pcr_digest, (selections, tt)) in
        let c := push (PolicyPcr cmd) c in
        let? session := TpmPolicySession.policy_pcr (software_session c) cmd in
        done_walk (set_session session c)
  | _ => Err TpmPolicyError.InvalidExpression
  end.

(** The name of the authorizing entity. *)
Definition auth_name (handle : TpmInt.t) : Res (ty Tpm2bName) :=
  let h_val := TpmInt.value 4 false handle in
  let ht_byte := Z.shiftr h_val 24 `mod` 2 ^ 8 in
  let? ht := map_err (λ _, TpmPolicyError.InvalidHandleType ht_byte) (try_from TpmHt.t ht_byte) in
  match ht with
  | TpmHt.Persistent | TpmHt.Transient =>
      ok_or (TpmPolicyContext.names context !! handle) TpmPolicyError.InvalidExpression
  | TpmHt.Permanent =>
      let? rh := map_err (λ _, TpmPolicyError.InvalidHandleType ht_byte) (try_from TpmRh.t h_val) in
      match rh with
      | TpmRh.Owner | TpmRh.Endorsement | TpmRh.Platform | TpmRh.Lockout =>
          map_err (λ _, TpmPolicyError.InvalidHandleType ht_byte)
            (TpmBuffer.try_from (MAX_DIGEST_SIZE + 2) (be_encode 4 (TpmRh.value rh)))
      | _ => Err (TpmPolicyError.InvalidHandleType ht_byte)
      end
  | _ => Err (TpmPolicyError.InvalidHandleType ht_byte)
  end.

Definition compile_walk_secret (self : t) (c : compiler) : Res (ty Tpm2bDigest * compiler) :=
  match self with
  | Secret (Handle handle) copy_ref =>
      let? name := auth_name handle in
      let policy_ref := default (TpmBuffer.new MAX_DIGEST_SIZE) copy_ref in
      let cmd := Body.mk (B:=TpmPolicySecretCommand)
        [TpmInt.new 4 (TpmInt.value 4 false handle); TpmInt.new 4 0]
        (TpmBuffer.new MAX_DIGEST_SIZE, (TpmBuffer.new MAX_DIGEST_SIZE,
         (policy_ref, (TpmInt.new 4 0, tt)))) in
      let c := push (PolicySecret cmd) c in
      let? session := TpmPolicySession.policy_secret (software_session c) name policy_ref in
      done_walk (set_session session c)
  | _ => Err TpmPolicyError.InvalidExpression
  end.

Section walks.
Variable compile_walk : t → compiler → Res (ty Tpm2bDigest * compiler).

(** [for branch in branches { branch.compile_walk(..)?; }] *)
Fixpoint walk_branches (branches : list t) (c : compiler) : Res compiler :=
  match branches with
  | [] => Ok c
  | branch :: branches =>
      let? (_, c) := compile_walk branch c in
      walk_branches branches c
  end.

(** The loop of [compile_walk_or]. *)
Fixpoint walk_or_branches (branches : list t) (digest_list : ty TpmlDigest) (c : compiler)
    : Res (ty TpmlDigest * compiler) :=
  match branches with
  | [] => Ok (digest_list, c)
  | branch :: branches =>
      let restart_cmd := Body.mk (B:=TpmPolicyRestartCommand) [TpmInt.new 4 0] tt in
      let c := push (PolicyRestart restart_cmd) c in
      let? session := TpmPolicySession.policy_restart (software_session c) in
      let? (digest, c) := compile_walk branch (set_session session c) in
      let? digest_list := map_err (λ _, TpmPolicyError.TooManyBranches)
                            (TpmList.try_push 8 digest digest_list) in
      walk_or_branches branches digest_list c
  end.

Definition compile_walk_or (branches : list t) (c : compiler) : Res (ty Tpm2bDigest * compiler) :=
  let? (digest_list, c) := walk_or_branches branches (TpmList.new 8) c in
  let or_cmd := Body.mk (B:=TpmPolicyOrCommand) [TpmInt.new 4 0] (digest_list, tt) in
  let c := push (PolicyOr or_cmd) c in
  let? session := TpmPolicySession.policy_or (software_session c) or_cmd in
  done_walk (set_session session c).
End walks.

Fixpoint compile_walk (self : t) (c : compiler) : Res (ty Tpm2bDigest * compiler) :=
  match self with
  | And branches =>
      let? c := walk_branches compile_walk branches c in
      done_walk c
  | Or branches => compile_walk_or compile_walk branches c
  | Pcr _ _ => compile_walk_pcr self c
  | Secret _ _ => compile_walk_secret self c
  | Handle _ => Err TpmPolicyError.InvalidExpression
  end.

Definition compile (self : t) (session_hash_alg : TpmAlgId.t) : Res TpmCompiledPolicy :=
  let? session := TpmPolicySession.new session_hash_alg in
  let? (final_digest, c) := compile_walk self (mk_compiler [] session) in
  Ok (mk_compiled (command_list c) final_digest).
End compile.

(** ** [from_commands] *)

Section from_commands.
Context `{Libcrypto}.
Abbreviation Res := (result TpmPolicyError.t).
(** The stack of branches, its top (the last element of the [Vec]) first. *)
Implicit Types stack : list (list t).

(** [current_branch.push(expr)] *)
Definition push_expr (expr : t) stack : Res (list (list t)) :=
  match stack with
  | [] => Err TpmPolicyError.CommandStreamBranchUnderflow
  | branch :: stack => Ok ((branch ++ [expr]) :: stack)
  end.

(** The loop that pops [n] branches; the last one popped comes first. *)
Fixpoint pop_branches (n : nat) stack (branches : list t) : Res (list t * list (list t)) :=
  match n with
  | O => Ok (branches, stack)
  | S n =>
      match stack with
      | [] => Err TpmPolicyError.CommandStreamBranchUnderflow
      | branch_vec :: stack => pop_branches n stack (build_and_branch branch_vec :: branches)
      end
  end.

Definition pop_or (cmd : body TpmPolicyOrCommand) stack : Res (list (list t)) :=
  let num_branches := length (TpmList.deref (p_hash_list cmd)) in
  if (length stack <? num_branches)%nat then Err TpmPolicyError.CommandStreamBranchUnderflow
  else
    let? (branches, stack) := pop_branches num_branches stack [] in
    push_expr (Or branches) stack.

Definition from_pcr (cmd : body TpmPolicyPcrCommand) stack : Res (list (list t)) :=
  push_expr (Pcr (pcrs cmd) (Some (pcr_digest cmd))) stack.

Definition from_secret (cmd : body TpmPolicySecretCommand) stack : Res (list (list t)) :=
  let? handle := or_panic (handles cmd !! 0%nat) in
  let copy_ref :=
    match TpmBuffer.deref (policy_ref cmd) with [] => None | _ => Some (policy_ref cmd) end in
  push_expr (Secret (Handle handle) copy_ref) stack.

(** The body of the loop over the commands. *)
Definition from_command (command_body : TpmCommandValue) stack : Res (list (list t)) :=
  match stack with
  | [] => Err TpmPolicyError.CommandStreamBranchUnderflow
  | _ =>
      match command_body with
      | command_value variant cmd =>
          match variant return body (command variant) → Res (list (list t)) with
          | TpmCc.PolicyRestart => λ _, Ok ([] :: stack)
          | TpmCc.PolicyPcr => λ cmd, from_pcr cmd stack
          | TpmCc.PolicySecret => λ cmd, from_secret cmd stack
          | TpmCc.PolicyOr => λ cmd, pop_or cmd stack
          | _ => λ _, Err (TpmPolicyError.InvalidCc (TpmCommandValue.cc command_body))
          end cmd
      end
  end.

Fixpoint from_loop (command_list : list TpmCommandValue) stack : Res (list (list t)) :=
  match command_list with
  | [] => Ok stack
  | command_body :: command_list =>
      let? stack := from_command command_body stack in
      from_loop command_list stack
  end.

Definition from_commands (command_list : list TpmCommandValue) : Res t :=
  let? stack := from_loop command_list [[]] in
  match stack with
  | [final_branch] => Ok (build_and_branch final_branch)
  | _ => Err TpmPolicyError.CommandStreamUnbalancedBranches
  end.
End from_commands.
End TpmPolicyExpression.
