(* ===== verification/PolicyText.v ===== *)
(** The text of policies: the tokenizer and parser of
    [policy-language/src/lib.rs] and the [Display] of [expression.rs].

    The [hex] crate and what the [strum] macros generate from the names of
    variants are not part of the repository: they are the fields of
    [TextLib], with their documented behaviour in [TextLibOk]. *)

From Stdlib Require Import Ascii.
From stdpp Require Import gmap.
From S2P Require Import Prelude Errors Writer Codec Integer Buffer Tpml EnumMacro Enums BasicTypes Structures.
From S2P Require Import Crypto Hash Text Policy.
Import TpmPolicyExpression.

(** ** Names and hexadecimal *)

Class TextLib `{Libcrypto} := {
  (** [hex::encode] and [hex::decode] *)
  hex_encode : list byte → str;
  hex_decode : str → option (list byte);
  (** [Display] and [FromStr] of [TpmHash] ([strum], [kebab-case]) *)
  hash_to_string : TpmHash.t → str;
  hash_from_str : str → option TpmHash.t;
  (** [Display] of [TpmPolicyError] ([strum], [title_case]) *)
  error_to_string : TpmPolicyError.t → str
}.

(** A character of a kebab-case name. *)
Definition is_name_char (c : Z) : bool :=
  ((0x30 <=? c) && (c <=? 0x39)) || ((0x61 <=? c) && (c <=? 0x7a)) || (c =? chr "-").

Class TextLibOk `{TextLib} : Prop := {
  hex_decode_encode bs : hex_decode (hex_encode bs) = Some bs;
  hex_encode_chars bs : Forall (λ c, is_hex_char c = true) (hex_encode bs);
  hash_from_to_string h : hash_from_str (hash_to_string h) = Some h;
  hash_chars h : Forall (λ c, is_name_char c = true) (hash_to_string h);
  hash_nonempty h : hash_to_string h ≠ []
}.

(** ** [enum Token] and [tokenize] *)

Inductive Token :=
| TAnd | TOr | TLParen | TRParen | TComma | TIdent (ident : str).

#[global] Instance Token_eq_dec : EqDecision Token.
Proof. solve_decision. Defined.

(** [Display for Token] *)
Definition quoted (s : str) : str := lit "'" ++ s ++ lit "'".
Definition token_to_string (t : Token) : str :=
  match t with
  | TAnd => quoted (lit "and")
  | TOr => quoted (lit "or")
  | TLParen => quoted (lit "(")
  | TRParen => quoted (lit ")")
  | TComma => quoted (lit ",")
  | TIdent s => quoted s
  end.

(** [next_char.is_whitespace() || "(),".contains(next_char)] *)
Definition ends_ident (c : Z) : bool :=
  is_whitespace c || (c =? chr "(") || (c =? chr ")") || (c =? chr ",").

(** The inner [while let]: the rest of an identifier, and what follows. *)
Fixpoint scan_ident (chars : str) : str * str :=
  match chars with
  | [] => ([], [])
  | c :: rest =>
      if ends_ident c then ([], chars)
      else let (ident, rest) := scan_ident rest in (c :: ident, rest)
  end.

Definition ident_token (ident_slice : str) : Token :=
  if decide (ident_slice = lit "and") then TAnd
  else if decide (ident_slice = lit "or") then TOr
  else TIdent ident_slice.

(** The outer loop; every iteration consumes a character, so the length of
    the input is enough [fuel]. *)
Fixpoint tokenize_loop (fuel : nat) (chars : str) : list Token :=
  match fuel, chars with
  | O, _ | _, [] => []
  | S fuel, c :: rest =>
      if c =? chr "(" then TLParen :: tokenize_loop fuel rest
      else if c =? chr ")" then TRParen :: tokenize_loop fuel rest
      else if c =? chr "," then TComma :: tokenize_loop fuel rest
      else if is_whitespace c then tokenize_loop fuel rest
      else
        let (ident, rest) := scan_ident rest in
        ident_token (c :: ident) :: tokenize_loop fuel rest
  end.
Definition tokenize (input : str) : list Token := tokenize_loop (length input) input.

(** ** The parser

    The token iterator is the list of the tokens that are left; a function
    returns the expression and the tokens after it. *)

Section parser.
Context `{TextLib}.
Variable context : TpmPolicyContext.t.
Abbreviation Res := (result TpmPolicyError.t).

(** [pcr_select_bytes[pcr_index / 8] |= 1 << (pcr_index % 8)] for each index. *)
Fixpoint set_pcr_bits (indices : list Z) (bytes : list byte) : Res (list byte) :=
  match indices with
  | [] => Ok bytes
  | pcr_index :: indices =>
      if TpmPolicyContext.pcr_count context <=? pcr_index then Err TpmPolicyError.PcrIndexTooLarge
      else
        let? b := or_panic (bytes !! Z.to_nat (pcr_index / 8)) in
        let b := byte.of_Z (Z.lor (byte.unsigned b) (Z.shiftl 1 (pcr_index mod 8))) in
        set_pcr_bits indices (<[Z.to_nat (pcr_index / 8) := b]> bytes)
  end.

(** The body of the loop of [parse_tpml_pcr_selection_str]. *)
Definition parse_selection_part (pcr_select_size : Z) (part : str) : Res (ty TpmsPcrSelection) :=
  let? (alg_str, indices_str) :=
    ok_or (split_once (chr ":") part) TpmPolicyError.InvalidPcrSelection in
  let? alg := ok_or (hash_from_str alg_str) TpmPolicyError.InvalidPcrDigestAlgorithm in
  if bool_decide (TpmPolicyContext.pcrs context !! TpmHash.to_alg alg = None)
  then Err (TpmPolicyError.PcrBankNotAvailable alg)
  else
    let? indices := ok_or (mapM (λ s, from_str_radix u32_max s 10) (split (chr ",") indices_str))
                      TpmPolicyError.InvalidPcrSelection in
    let? pcr_select_bytes := set_pcr_bits indices (TpmHash.zeroed pcr_select_size) in
    let? pcr_select := map_err (λ _, TpmPolicyError.PcrDigestTooLarge)
                         (TpmsPcrSelect.try_from pcr_select_bytes) in
    Ok (TpmsPcrSelection.mk (TpmHash.to_alg alg) pcr_select).

Fixpoint parse_selection_parts (pcr_select_size : Z) (parts : list str) (list_ : ty TpmlPcrSelection)
    : Res (ty TpmlPcrSelection) :=
  match parts with
  | [] => Ok list_
  | part :: parts =>
      let? selection := parse_selection_part pcr_select_size part in
      let? list_ := map_err (λ _, TpmPolicyError.PcrSelectionTooLarge)
                      (TpmList.try_push 8 selection list_) in
      parse_selection_parts pcr_select_size parts list_
  end.

Definition parse_tpml_pcr_selection_str (selection_str : str) : Res (ty TpmlPcrSelection) :=
  let pcr_select_size := TpmHash.div_ceil (TpmPolicyContext.pcr_count context) 8 in
  if TPM_PCR_SELECT_MAX <? pcr_select_size then Err TpmPolicyError.PcrSelectionTooLarge
  else parse_selection_parts pcr_select_size (split (chr "+") selection_str) (TpmList.new 8).

Definition parse_literal (s : str) : Res t :=
  if negb (utf8_len s =? 8) then Err (TpmPolicyError.InvalidToken s)
  else
    let? raw := ok_or (from_str_radix u32_max s 16) (TpmPolicyError.InvalidToken s) in
    let ht_byte := Z.shiftr raw 24 `mod` 2 ^ 8 in
    let? _ := map_err (λ _, TpmPolicyError.InvalidHandleType ht_byte) (try_from TpmHt.t ht_byte) in
    Ok (Handle (TpmInt.new 4 raw)).

(** A call's opening parenthesis, and the closing one of [secret]. *)
Definition expect (token : Token) (tokens : list Token) : Res (list Token) :=
  match tokens with
  | [] => Err TpmPolicyError.UnexpectedEnd
  | actual_token :: tokens =>
      if decide (actual_token = token) then Ok tokens
      else Err (TpmPolicyError.InvalidToken (token_to_string actual_token))
  end.

(** The loop of [parse_pcr_call]: the text up to the closing parenthesis. *)
Fixpoint pcr_text (tokens : list Token) (buf : str) : Res (str * list Token) :=
  match tokens with
  | [] => Err TpmPolicyError.UnexpectedEnd
  | TRParen :: tokens => Ok (buf, tokens)
  | TIdent s :: tokens => pcr_text tokens (buf ++ s)
  | TComma :: tokens => pcr_text tokens (buf ++ lit ",")
  | tok :: _ => Err (TpmPolicyError.InvalidToken (token_to_string tok))
  end.

(** The [if let] chain: a selection with a digest, when [buf] is one. *)
Definition pcr_with_digest (buf : str) : option t :=
  '(selection_part, digest_part) ← rsplit_once (chr ":") buf;
  match parse_tpml_pcr_selection_str selection_part with
  | Ok selections =>
      digest_bytes ← hex_decode digest_part;
      match TpmBuffer.try_from MAX_DIGEST_SIZE digest_bytes with
      | Ok digest => Some (Pcr selections (Some digest))
      | _ => None
      end
  | _ => None
  end.

Definition parse_pcr_call (tokens : list Token) : Res (t * list Token) :=
  let? tokens := expect TLParen tokens in
  let? (buf, tokens) := pcr_text tokens [] in
  match pcr_with_digest buf with
  | Some expr => Ok (expr, tokens)
  | None =>
      let? selections := parse_tpml_pcr_selection_str buf in
      Ok (Pcr selections None, tokens)
  end.

(** [copy_ref:] and a hexadecimal reference. *)
Definition parse_copy_ref (copy_ref_ident : str) : Res (option (ty Tpm2bDigest)) :=
  let invalid := TpmPolicyError.InvalidToken copy_ref_ident in
  let? (key, value) := ok_or (split_once (chr ":") copy_ref_ident) invalid in
  if negb (bool_decide (key = lit "copy_ref")) then Err invalid
  else
    let? bytes := ok_or (hex_decode value) invalid in
    match bytes with
    | [] => Ok None
    | _ =>
        let? digest := map_err (λ _, invalid) (TpmBuffer.try_from MAX_DIGEST_SIZE bytes) in
        Ok (Some digest)
    end.

Section recursion.
(** [parse_or], for what is inside parentheses. *)
Variable parse_or : list Token → Res (t * list Token).

Definition parse_secret_call (tokens : list Token) : Res (t * list Token) :=
  let? tokens := expect TLParen tokens in
  let? (auth_handle, tokens) :=
    map_err (λ e, TpmPolicyError.InvalidToken (error_to_string e)) (parse_or tokens) in
  let? (copy_ref, tokens) :=
    match tokens with
    | TComma :: TIdent copy_ref_ident :: tokens =>
        let? copy_ref := parse_copy_ref copy_ref_ident in Ok (copy_ref, tokens)
    | TComma :: actual_token :: _ =>
        Err (TpmPolicyError.InvalidToken (token_to_string actual_token))
    | [TComma] => Err TpmPolicyError.UnexpectedEnd
    | TRParen :: _ => Ok (None, tokens)
    | actual_token :: _ => Err (TpmPolicyError.InvalidToken (token_to_string actual_token))
    | [] => Err TpmPolicyError.UnexpectedEnd
    end in
  let? tokens := expect TRParen tokens in
  Ok (Secret auth_handle copy_ref, tokens).

Definition parse_primary (tokens : list Token) : Res (t * list Token) :=
  match tokens with
  | [] => Err TpmPolicyError.UnexpectedEnd
  | TLParen :: tokens =>
      let? (expr, tokens) := parse_or tokens in
      match tokens with
      | TRParen :: tokens => Ok (expr, tokens)
      | _ => Err TpmPolicyError.ParenthesisMismatch
      end
  | TIdent name :: tokens =>
      if decide (name = lit "pcr") then parse_pcr_call tokens
      else if decide (name = lit "secret") then parse_secret_call tokens
      else let? expr := parse_literal name in Ok (expr, tokens)
  | token :: _ => Err (TpmPolicyError.InvalidToken (token_to_string token))
  end.
End recursion.

Section binary.
Variable operand_parser : list Token → Res (t * list Token).
Variables (operator : Token) (expression_combiner : t → t → t).

(** [while tokens.peek() == Some(&operator)]; an iteration consumes at least
    one token.  Running out of [fuel] would be a [Panic]. *)
Fixpoint binary_loop (fuel : nat) (node : t) (tokens : list Token) : Res (t * list Token) :=
  match tokens with
  | token :: rest =>
      if decide (token = operator) then
        match fuel with
        | O => Panic
        | S fuel =>
            let? (rhs, tokens) := operand_parser rest in
            binary_loop fuel (expression_combiner node rhs) tokens
        end
      else Ok (node, tokens)
  | [] => Ok (node, [])
  end.

Definition parse_binary_expression (tokens : list Token) : Res (t * list Token) :=
  let? (node, tokens) := operand_parser tokens in
  binary_loop (length tokens) node tokens.
End binary.

Definition and_combiner (lhs rhs : t) : t :=
  match lhs with
  | And factors => And (factors ++ [rhs])
  | _ => And [lhs; rhs]
  end.
Definition or_combiner (lhs rhs : t) : t :=
  match lhs with
  | Or terms => Or (terms ++ [rhs])
  | _ => Or [lhs; rhs]
  end.

Definition parse_and (parse_or : list Token → Res (t * list Token)) : list Token → Res (t * list Token) :=
  parse_binary_expression (parse_primary parse_or) TAnd and_combiner.

(** [parse_or] calls itself through [parse_and] and [parse_primary] after it
    has consumed a token: the nesting is less than the number of tokens.
    Running out of [fuel] would be a [Panic]. *)
Fixpoint parse_or (fuel : nat) (tokens : list Token) : Res (t * list Token) :=
  match fuel with
  | O => Panic
  | S fuel => parse_binary_expression (parse_and (parse_or fuel)) TOr or_combiner tokens
  end.

Definition parse_expression (tokens : list Token) : Res (t * list Token) :=
  parse_or (S (length tokens)) tokens.

(** [TpmPolicyExpression::parse] *)
Definition parse (input : str) : Res t :=
  let tokens := tokenize input in
  let? (expr, iter) := parse_expression tokens in
  match iter with
  | [] => Ok expr
  | _ => Err TpmPolicyError.TrailingData
  end.
End parser.

(** ** [Display for TpmPolicyExpression] *)

Section display.
Context `{TextLib}.

Definition alg_to_string (alg : TpmAlgId.t) : str :=
  match TpmHash.try_from alg with
  | Ok h => hash_to_string h
  | _ => lit "0x" ++ hex_digits 4 (value alg)
  end.

(** [pcr_select.iter()] reads the bytes through [Deref]. *)
Definition select_bytes (p : ty TpmsPcrSelect) : list byte :=
  match TpmsPcrSelect.deref p with Ok bytes => bytes | _ => [] end.

Definition selection_to_string (s : ty TpmsPcrSelection) : str :=
  alg_to_string (TpmsPcrSelection.hash s) ++ lit ":" ++
  join (lit ",") (map u32_to_string (pcr_indices (select_bytes (TpmsPcrSelection.pcr_select s)))).

Definition selections_to_string (selections : ty TpmlPcrSelection) : str :=
  join (lit "+") (map selection_to_string (TpmList.deref selections)).

Fixpoint to_string (e : t) : str :=
  match e with
  | Pcr selections digest =>
      lit "pcr(" ++ selections_to_string selections ++
      match digest with
      | Some d => lit ":" ++ hex_encode (TpmBuffer.deref d)
      | None => []
      end ++ lit ")"
  | Secret auth_handle copy_ref =>
      lit "secret(" ++ to_string auth_handle ++
      match copy_ref with
      | Some cr => lit ", copy_ref:" ++ hex_encode (TpmBuffer.deref cr)
      | None => []
      end ++ lit ")"
  | And expressions => lit "(" ++ join (lit " and ") (map to_string expressions) ++ lit ")"
  | Or expressions => lit "(" ++ join (lit " or ") (map to_string expressions) ++ lit ")"
  | Handle handle => hex_digits 8 (TpmInt.value 4 false handle)
  end.
End display.
