(* ===== verification/PolicySpec.v ===== *)
(** What policies mean: the digest a TPM computes when it executes policy
    commands, the expressions a command stream stands for, and the proof
    that the session, [compile] and [from_commands] of [Policy.v] agree with
    them. *)

From stdpp Require Import gmap.
From S2P Require Import Prelude Errors Writer Codec Integer Buffer Tpml Struct EnumMacro Union Enums BasicTypes Structures.
From S2P Require Import Body FrameData Dispatch Crypto Hash Policy.
Import TpmPolicyExpression.

(** ** The TPM

    Part 3 of the TPM 2.0 specification, over byte strings: which policy
    commands a TPM executes on a session, and their effect on [policyDigest].
    [None] stands for every case in which the TPM refuses the command, or in
    which the specification leaves it a choice. *)

Section tpm.
Context `{LibcryptoOk}.
(** The algorithm of the session; the names and the PCR values the TPM has. *)
Variables (h : TpmHash.t) (context : TpmPolicyContext.t).
(** Whether it is a trial session, which checks neither PCRs nor branches;
    whether a session of a command authorises the use of an entity. *)
Variables (trial : bool) (authorises : TpmInt.t → ty TpmsAuthCommand → bool).
Local Abbreviation Hash := (hash (TpmHash.to_md h)).

Definition zero_digest : list byte := TpmHash.zeroed (TpmHash.size h).

(** The Name of an entity: of a permanent handle the handle itself, else
    what the context knows. *)
Definition entity_name (handle : TpmInt.t) : option (list byte) :=
  let v := TpmInt.value 4 false handle in
  if Z.shiftr v 24 =? 0x40 then Some (be_encode 4 v)
  else TpmBuffer.deref <$> TpmPolicyContext.names context !! handle.

(** The concatenated values of the selected PCRs, if the TPM has them all. *)
Fixpoint bank_values (bank : pcr_bank) (indices : list Z) : option (list byte) :=
  match indices with
  | [] => Some []
  | i :: indices =>
      v ← bank !! i; vs ← bank_values bank indices; Some (TpmBuffer.deref v ++ vs)
  end.
Fixpoint pcr_values (selections : list (ty TpmsPcrSelection)) : option (list byte) :=
  match selections with
  | [] => Some []
  | s :: selections =>
      bank ← TpmPolicyContext.pcrs context !! TpmsPcrSelection.hash s;
      match TpmsPcrSelect.deref (TpmsPcrSelection.pcr_select s) with
      | Ok bytes =>
          v ← bank_values bank (pcr_indices bytes); vs ← pcr_values selections; Some (v ++ vs)
      | _ => None
      end
  end.
Definition current_digest (selections : ty TpmlPcrSelection) : option (list byte) :=
  Hash <$> pcr_values (TpmList.deref selections).

(** The digest of [TPM2_PolicyPCR]: the one that is given must be that of the
    current values, except in a trial session; without one, the current. *)
Definition checked_digest (selections : ty TpmlPcrSelection) (given : list byte) : option (list byte) :=
  match given with
  | [] => current_digest selections
  | _ =>
      if trial then Some given
      else now ← current_digest selections; if decide (now = given) then Some given else None
  end.

(** The sessions a command needs: [TPM2_PolicySecret] one that authorises its
    entity, the others none.  Its nonce and parameter hash are empty and its
    expiration is zero: nothing else restricts the authorisation. *)
Definition authorised (c : TpmCommandValue) (auths : list (ty TpmsAuthCommand)) : bool :=
  match c with
  | command_value variant cmd =>
      match variant return body (command variant) → bool with
      | TpmCc.PolicySecret => λ cmd,
          match handles cmd !! 0%nat, auths with
          | Some handle, [auth] => authorises handle auth
          | _, _ => false
          end
      | _ => λ _, match auths with [] => true | _ => false end
      end cmd
  end.
Definition unrestricted (c : TpmCommandValue) : bool :=
  match c with
  | command_value variant cmd =>
      match variant return body (command variant) → bool with
      | TpmCc.PolicySecret => λ cmd,
          let '(nonce_tpm, (cp_hash_a, (_, (expiration, _)))) := params (B:=TpmPolicySecretCommand) cmd in
          match TpmBuffer.deref nonce_tpm, TpmBuffer.deref cp_hash_a with
          | [], [] => TpmInt.value 4 true expiration =? 0
          | _, _ => false
          end
      | _ => λ _, true
      end cmd
  end.

(** What it does to the digest; [TPM2_PolicyOR] takes two to eight digests. *)
Definition policy_effect (d : list byte) (c : TpmCommandValue) : option (list byte) :=
  match c with
  | command_value variant cmd =>
      match variant return body (command variant) → option (list byte) with
      | TpmCc.PolicyRestart => λ _, Some zero_digest
      | TpmCc.PolicyPcr => λ cmd,
          bs ← wire TpmlPcrSelection (pcrs cmd);
          pd ← checked_digest (pcrs cmd) (TpmBuffer.deref (pcr_digest cmd));
          Some (Hash (d ++ be_encode 4 0x17F ++ bs ++ pd))
      | TpmCc.PolicySecret => λ cmd,
          handle ← handles cmd !! 0%nat;
          name ← entity_name handle;
          Some (Hash (Hash (d ++ be_encode 4 0x151 ++ name) ++ TpmBuffer.deref (policy_ref cmd)))
      | TpmCc.PolicyOr => λ cmd,
          let hashes := map TpmBuffer.deref (TpmList.deref (p_hash_list cmd)) in
          if decide (2 ≤ zlen hashes ≤ 8 ∧ (trial = true ∨ d ∈ hashes))
          then Some (Hash (zero_digest ++ be_encode 4 0x171 ++ concat hashes)) else None
      | _ => λ _, None
      end cmd
  end.

Definition tpm_step (d : list byte) (c : TpmCommandValue) (auths : list (ty TpmsAuthCommand)) : option (list byte) :=
  if authorised c auths && unrestricted c then policy_effect d c else None.

(** Commands with their sessions, one after the other, and their effects. *)
Fixpoint replay (d : list byte) (cmds : commands_list) : option (list byte) :=
  match cmds with
  | [] => Some d
  | (c, auths) :: cmds => d ← tpm_step d c (TpmList.deref auths); replay d cmds
  end.
Fixpoint effects (d : list byte) (cs : list TpmCommandValue) : option (list byte) :=
  match cs with
  | [] => Some d
  | c :: cs => d ← policy_effect d c; effects d cs
  end.

(** Every command has the sessions it needs. *)
Definition all_authorised (cmds : commands_list) : Prop :=
  Forall (λ c, authorised c.1 (TpmList.deref c.2) = true) cmds.

Lemma replay_effects d cmds :
  all_authorised cmds → Forall (λ c, unrestricted c = true) cmds.*1 → replay d cmds = effects d cmds.*1.
Proof using Type.
  intros Ha. revert d. induction Ha as [|[c auths] cmds Hc _ IH]; intros d Hu; [done|].
  apply list.Forall_cons in Hu as [Hu1 Hu]. cbn [replay effects fmap list_fmap fst] in *. unfold tpm_step.
  cbn [snd] in Hc. rewrite Hc, Hu1. cbn [andb]. destruct (policy_effect d c); simpl; [by apply IH | done].
Qed.

(** The cases of [policy_effect]. *)
Lemma policy_effect_pcr d (cmd : body TpmPolicyPcrCommand) :
  policy_effect d (PolicyPcr cmd) =
    bs ← wire TpmlPcrSelection (pcrs cmd);
    pd ← checked_digest (pcrs cmd) (TpmBuffer.deref (pcr_digest cmd));
    Some (Hash (d ++ be_encode 4 0x17F ++ bs ++ pd)).
Proof using Type. reflexivity. Qed.

Lemma policy_effect_secret d (cmd : body TpmPolicySecretCommand) :
  policy_effect d (PolicySecret cmd) =
    handle ← handles cmd !! 0%nat;
    name ← entity_name handle;
    Some (Hash (Hash (d ++ be_encode 4 0x151 ++ name) ++ TpmBuffer.deref (policy_ref cmd))).
Proof using Type. reflexivity. Qed.

Lemma policy_effect_or d (cmd : body TpmPolicyOrCommand) :
  policy_effect d (PolicyOr cmd) =
    let hashes := map TpmBuffer.deref (TpmList.deref (p_hash_list cmd)) in
    if decide (2 ≤ zlen hashes ≤ 8 ∧ (trial = true ∨ d ∈ hashes))
    then Some (Hash (zero_digest ++ be_encode 4 0x171 ++ concat hashes)) else None.
Proof using Type. reflexivity. Qed.

Lemma effects_app d cs1 cs2 : effects d (cs1 ++ cs2) = d ← effects d cs1; effects d cs2.
Proof using Type.
  revert d; induction cs1 as [|c cs1 IH]; intros d; simpl; [done|].
  destruct (policy_effect d c); simpl; [apply IH | done].
Qed.

(** The values [compile] reads are those of the TPM. *)
Lemma read_pcrs_values bank indices acc data :
  read_pcrs bank indices acc = Ok data → ∃ vs, bank_values bank indices = Some vs ∧ data = acc ++ vs.
Proof using Type.
  revert acc. induction indices as [|i indices IH]; intros acc; cbn [read_pcrs bank_values].
  - intros [= <-]. exists []. by rewrite app_nil_r.
  - intros (v & ->%ok_or_Ok_inv & (vs & -> & ->)%IH)%result_bind_Ok_inv. eexists. split; [reflexivity|].
    by rewrite <-app_assoc.
Qed.
Lemma read_selections_values selections acc data :
  read_selections context selections acc = Ok data → ∃ vs, pcr_values selections = Some vs ∧ data = acc ++ vs.
Proof using Type.
  revert acc. induction selections as [|s selections IH]; intros acc; cbn [read_selections pcr_values].
  - intros [= <-]. exists []. by rewrite app_nil_r.
  - intros (bank & ->%ok_or_Ok_inv & (bytes & ->%map_err_Ok_inv & (d1 & Hr & Hs)%result_bind_Ok_inv)%result_bind_Ok_inv)%result_bind_Ok_inv.
    apply read_pcrs_values in Hr as (v & Hv & ->). apply IH in Hs as (vs & Hvs & ->).
    cbn [mbind option_bind]. rewrite Hv, Hvs. eexists. split; [reflexivity|]. by rewrite <-app_assoc.
Qed.
End tpm.

(** ** Conditions on expressions *)

(** [p] holds of every node. *)
Fixpoint every (p : t → bool) (e : t) : bool :=
  p e &&
  match e with
  | Secret auth _ => every p auth
  | And bs | Or bs => forallb (every p) bs
  | _ => true
  end.

(** The Rust types' invariants: a selection that can be marshalled, a handle
    of four bytes. *)
Definition node_ok (e : t) : bool :=
  match e with
  | Pcr selections _ => bool_decide (is_Some (wire TpmlPcrSelection selections))
  | Handle handle => (length (TpmInt.bytes handle) =? 4)%nat
  | _ => true
  end.
Abbreviation well_formed := (every node_ok).

(** A disjunction has at least two branches. *)
Definition or_plural (e : t) : bool :=
  match e with Or bs => (2 <=? length bs)%nat | _ => true end.

(** A digest that is given for PCRs is that of their current values; a trial
    session takes any. *)
Definition pcr_holds `{LibcryptoOk} (h : TpmHash.t) (context : TpmPolicyContext.t) (trial : bool) (e : t) : bool :=
  match e with
  | Pcr selections (Some d) =>
      trial && (0 <? TpmHash.size h) || bool_decide (current_digest h context selections = Some (TpmBuffer.deref d))
  | _ => true
  end.

Lemma every_branches p bs b : forallb (every p) bs = true → b ∈ bs → every p b = true.
Proof. intros Hf Hb. rewrite forallb_forall in Hf. apply Hf. by apply list_elem_of_In. Qed.

Lemma digest_capacity n : 0 ≤ n ≤ 2 → 0 ≤ MAX_DIGEST_SIZE + n ≤ u16_max.
Proof. unfold MAX_DIGEST_SIZE, u16_max. lia. Qed.

(** ** The session refines the TPM *)

Section session_lemmas.
Context `{LibcryptoOk}.
Variables (h : TpmHash.t) (context : TpmPolicyContext.t) (trial : bool).
Implicit Types (s : TpmPolicySession.t) (c : compiler).
Import TpmPolicySession.

(** The session belongs to the algorithm [h]. *)
Definition session_ok s : Prop := hash_alg s = h ∧ digest_size s = TpmHash.size h.
Local Abbreviation value s := (TpmBuffer.deref (digest s)).

Lemma to_digest_Ok bs d : to_digest bs = Ok d → TpmBuffer.deref d = bs.
Proof using Type. intros Hd%map_err_Ok_inv. eapply try_from_deref; [by apply digest_capacity | done]. Qed.

Lemma to_digest_small bs :
  zlen bs ≤ MAX_DIGEST_SIZE → ∃ d, to_digest bs = Ok d ∧ TpmBuffer.deref d = bs.
Proof using Type.
  intros Hl. destruct (buffer_try_from_spec MAX_DIGEST_SIZE ltac:(done) bs) as (b & Hb & Hh);
    [done | unfold MAX_DIGEST_SIZE, u16_max in *; lia |].
  exists b. unfold to_digest. rewrite Hb. split; [done|]. by eapply holds_deref.
Qed.

Lemma hash_chunks_Ok s chunks d :
  session_ok s → hash_chunks s chunks = Ok d →
  TpmBuffer.deref d = hash (TpmHash.to_md h) (concat chunks).
Proof using Type*.
  intros [Hs _] (bs & Hd%map_err_Ok_inv & Ht%to_digest_Ok)%result_bind_Ok_inv.
  pose proof (digest_spec (hash_alg s) chunks) as Hspec. rewrite Hd in Hspec. simpl in Hspec.
  by rewrite Ht, Hspec, Hs.
Qed.

Lemma policy_pcr_step s s' cmd bs :
  session_ok s → wire TpmlPcrSelection (pcrs cmd) = Some bs →
  checked_digest h context trial (pcrs cmd) (TpmBuffer.deref (pcr_digest cmd)) = Some (TpmBuffer.deref (pcr_digest cmd)) →
  policy_pcr s cmd = Ok s' →
  session_ok s' ∧ policy_effect h context trial (value s) (PolicyPcr cmd) = Some (value s').
Proof using Type*.
  intros Hs Hw Hpd. rewrite policy_effect_pcr, Hw. cbn [mbind option_bind]. rewrite Hpd. unfold policy_pcr.
  destruct (marshal_fresh TpmlPcrSelection (pcrs cmd) bs Hw) as (w & -> & Ht).
  { apply Z.leb_le. by vm_compute. }
  cbn [map_err result_bind]. unfold take_checked in Ht. case_match; [|done].
  injection Ht as ->. cbv zeta.
  intros (d & Hd%hash_chunks_Ok & [= <-])%result_bind_Ok_inv; [|done].
  split; [done|]. cbn [mbind option_bind digest set_digest]. rewrite Hd.
  cbn [concat]. by rewrite app_nil_r.
Qed.

Lemma policy_restart_step s s' cmd :
  session_ok s → policy_restart s = Ok s' →
  session_ok s' ∧ policy_effect h context trial (value s) (PolicyRestart cmd) = Some (value s').
Proof using Type.
  intros [Ha Hs] (d & Hd%to_digest_Ok & [= <-])%result_bind_Ok_inv.
  split; [done|]. cbn [digest set_digest]. by rewrite Hd, Hs.
Qed.

Lemma policy_or_step s s' cmd ds :
  session_ok s → TpmList.deref (p_hash_list cmd) = ds → digest s ∈ ds → 2 ≤ zlen ds ≤ 8 → policy_or s cmd = Ok s' →
  session_ok s' ∧ policy_effect h context trial (value s) (PolicyOr cmd) = Some (value s').
Proof using Type*.
  intros [Ha Hs] Hds Hin Hn. rewrite policy_effect_or. unfold policy_or. rewrite Hds. cbv zeta.
  intros (z & Hz%to_digest_Ok & (d & Hd & [= <-])%result_bind_Ok_inv)%result_bind_Ok_inv.
  split; [done|]. apply hash_chunks_Ok in Hd; [|done]. cbn [digest set_digest concat] in *.
  rewrite Hz, Hs, app_nil_r in Hd. rewrite decide_True; [by rewrite Hd|].
  split; [unfold zlen in *; by rewrite length_map|]. right. by apply list_elem_of_fmap_2.
Qed.

(** The name the compiler uses is the TPM's. *)
Lemma auth_name_spec handle name :
  length (TpmInt.bytes handle) = 4%nat → auth_name context handle = Ok name →
  entity_name context handle = Some (TpmBuffer.deref name).
Proof using Type.
  intros Hl. unfold auth_name, entity_name. set (v := TpmInt.value 4 false handle). cbv zeta.
  pose proof (value_in_range 4 false ltac:(lia) handle Hl) as Hv%in_range_u32_inv.
  intros (ht & Hht%map_err_Ok_inv%try_from_inv & Hn)%result_bind_Ok_inv.
  rewrite Z.mod_small in Hht.
  2:{ fold v in Hv. rewrite Z.shiftr_div_pow2 by lia. unfold u32_max in Hv.
      split; [apply Z.div_pos; lia | apply Z.div_lt_upper_bound; lia]. }
  change (EnumMacro.value ht) with (TpmHt.value ht) in Hht. fold v in Hv.
  destruct ht; try done; rewrite <-Hht; cbn [Z.eqb Pos.eqb TpmHt.value].
  - apply result_bind_Ok_inv in Hn as (rh & Hrh%map_err_Ok_inv%try_from_inv & Hn).
    change (EnumMacro.value rh) with (TpmRh.value rh) in Hrh.
    destruct rh; try done; apply map_err_Ok_inv in Hn.
    all: apply try_from_deref in Hn; [|by apply digest_capacity]; by rewrite <-Hrh, Hn.
  - by apply ok_or_Ok_inv in Hn as ->.
  - by apply ok_or_Ok_inv in Hn as ->.
Qed.

Lemma policy_secret_step s s' cmd handle name :
  session_ok s → handles cmd !! 0%nat = Some handle → length (TpmInt.bytes handle) = 4%nat →
  auth_name context handle = Ok name → policy_secret s name (policy_ref cmd) = Ok s' →
  session_ok s' ∧ policy_effect h context trial (value s) (PolicySecret cmd) = Some (value s').
Proof using Type*.
  intros Hs Hh Hl Hn. rewrite policy_effect_secret, Hh. cbn [mbind option_bind].
  rewrite (auth_name_spec handle name) by done. cbn [mbind option_bind]. unfold policy_secret. cbv zeta.
  intros (d1 & H1%hash_chunks_Ok & (d2 & H2%hash_chunks_Ok & [= <-])%result_bind_Ok_inv)%result_bind_Ok_inv;
    [|done..].
  split; [done|]. cbn [digest set_digest concat] in *. rewrite !app_nil_r in *. by rewrite H2, H1.
Qed.

Lemma session_new_ok alg s :
  new alg = Ok s → TpmHash.try_from alg = Ok h → session_ok s ∧ value s = zero_digest h.
Proof using Type.
  intros Hn Hh. unfold new in Hn. rewrite Hh in Hn. cbn [map_err result_bind] in Hn.
  apply result_bind_Ok_inv in Hn as (d & Hd%to_digest_Ok & [= <-]). done.
Qed.
Lemma session_new_total alg :
  TpmHash.try_from alg = Ok h → ∃ s, new alg = Ok s ∧ session_ok s.
Proof using H0.
  intros Hh. unfold new. rewrite Hh. cbn [map_err result_bind]. cbv zeta. pose proof (size_bounds h).
  destruct (to_digest_small (TpmHash.zeroed (TpmHash.size h))) as (d & -> & _).
  { rewrite zlen_zeroed; lia. }
  cbn [result_bind]. by eexists.
Qed.
End session_lemmas.

(** ** [compile] emits commands that compute its digest *)

Section compile_lemmas.
Context `{LibcryptoOk}.
Variables (h : TpmHash.t) (context : TpmPolicyContext.t) (trial : bool).
Implicit Types (c : compiler) (e : t).

Local Abbreviation session c := (software_session c).
Local Abbreviation value c := (TpmBuffer.deref (TpmPolicySession.digest (session c))).
Local Abbreviation effects := (effects h context trial).
Local Abbreviation pcrs_hold := (every (pcr_holds h context trial)).

(** From [c] to [c'] the commands [cmds] were emitted, without sessions, and a
    TPM that executes them goes from the one session's digest to the other's. *)
Definition emits c c' (cmds : commands_list) : Prop :=
  command_list c' = command_list c ++ cmds ∧ session_ok h (session c') ∧
  Forall (λ cmd, unrestricted cmd.1 = true ∧ cmd.2 = TpmList.new MAX_SESSIONS) cmds ∧
  effects (value c) cmds.*1 = Some (value c').

Lemma emits_nil c : session_ok h (session c) → emits c c [].
Proof using Type. intros. unfold emits. split_and!; [by rewrite app_nil_r | done | constructor | done]. Qed.

Lemma emits_trans c1 c2 c3 cmds1 cmds2 :
  emits c1 c2 cmds1 → emits c2 c3 cmds2 → emits c1 c3 (cmds1 ++ cmds2).
Proof using Type.
  intros (H1 & _ & F1 & R1) (H2 & ? & F2 & R2). unfold emits.
  split_and!; [by rewrite H2, H1, app_assoc | done | by apply Forall_app |].
  by rewrite fmap_app, effects_app, R1.
Qed.

Lemma emits_step c cmd s' :
  unrestricted cmd = true →
  (session_ok h s' ∧ policy_effect h context trial (value c) cmd = Some (TpmBuffer.deref (TpmPolicySession.digest s'))) →
  emits c (set_session s' (push cmd c)) [(cmd, TpmList.new MAX_SESSIONS)].
Proof using Type.
  intros Hu [Hs Ht]. unfold emits. split_and!; [done..| |]; [by constructor|]. simpl. by rewrite Ht.
Qed.

(** What holds of every expression [e]. *)
Definition compiles_to e : Prop :=
  ∀ c d c', session_ok h (session c) → well_formed e = true → every or_plural e = true → pcrs_hold e = true →
    compile_walk context e c = Ok (d, c') →
    d = TpmPolicySession.digest (session c') ∧ ∃ cmds, emits c c' cmds.

(** The digest in the command is one the TPM takes. *)
Lemma current_checked sel given :
  current_digest h context sel = Some given → checked_digest h context trial sel given = Some given.
Proof using Type.
  intros E. unfold checked_digest. rewrite E. destruct given; [done|]. destruct trial; [done|].
  cbn [mbind option_bind]. by rewrite decide_True.
Qed.
Lemma the_digest_holds sel dig pd s :
  session_ok h s → pcr_holds h context trial (Pcr sel dig) = true → the_pcr_digest context s sel dig = Ok pd →
  zlen (TpmBuffer.deref pd) = TpmPolicySession.digest_size s →
  checked_digest h context trial sel (TpmBuffer.deref pd) = Some (TpmBuffer.deref pd).
Proof using Type*.
  intros Hs Hh Hpd Hz. destruct dig as [d|]; cbn [the_pcr_digest pcr_holds] in *.
  - injection Hpd as ->. apply orb_true_iff in Hh as [[-> Hpos]%andb_true_iff|E%bool_decide_eq_true]; [|by apply current_checked].
    rewrite (proj2 Hs) in Hz. unfold checked_digest. destruct (TpmBuffer.deref pd); [|done]. change (zlen []) with 0 in Hz. lia.
  - apply result_bind_Ok_inv in Hpd as (data & (vs & Hv & ->)%read_selections_values & Hd).
    apply (hash_chunks_Ok h) in Hd; [|done]. apply current_checked. unfold current_digest. rewrite Hv, Hd.
    cbn [concat app fmap option_fmap option_map]. by rewrite app_nil_r.
Qed.

Lemma walk_branches_emits branches c c' :
  Forall compiles_to branches → session_ok h (session c) →
  forallb (every node_ok) branches = true → forallb (every or_plural) branches = true →
  forallb pcrs_hold branches = true →
  walk_branches (compile_walk context) branches c = Ok c' →
  ∃ cmds, emits c c' cmds.
Proof using Type.
  intros HF. revert c; induction HF as [|e es He _ IH]; intros c Hs Hw Ho Hp; simpl in *.
  - intros [= <-]. exists []. by apply emits_nil.
  - apply andb_true_iff in Hw as [? ?], Ho as [? ?], Hp as [? ?].
    intros ([d c1] & (-> & cmds1 & He1)%He & Hrest)%result_bind_Ok_inv; [|done..].
    pose proof He1 as (_ & Hs1 & _). apply IH in Hrest as [cmds2 He2]; [|done..].
    exists (cmds1 ++ cmds2). by eapply emits_trans.
Qed.

Lemma walk_or_emits branches c c' dl dl' ds :
  Forall compiles_to branches → session_ok h (session c) →
  forallb (every node_ok) branches = true → forallb (every or_plural) branches = true →
  forallb pcrs_hold branches = true →
  TpmList.holds 8 dl ds →
  walk_or_branches (compile_walk context) branches dl c = Ok (dl', c') →
  ∃ cmds ds', emits c c' cmds ∧ TpmList.holds 8 dl' (ds ++ ds') ∧
    length ds' = length branches ∧
    match branches with
    | [] => c' = c
    | _ => TpmPolicySession.digest (session c') ∈ ds'
    end.
Proof using Type.
  intros HF. revert c dl ds; induction HF as [|e es He _ IH]; intros c dl ds Hs Hw Ho Hp Hdl.
  - intros [= <- <-]. exists [], []. split_and!; [by apply emits_nil | by rewrite app_nil_r | done | done].
  - simpl in Hw, Ho, Hp. apply andb_true_iff in Hw as [? ?], Ho as [? ?], Hp as [? ?]. cbn [walk_or_branches].
    cbv zeta. set (restart := PolicyRestart _).
    intros (s1 & Hr & ([d c2] & He2 & Hrest)%result_bind_Ok_inv)%result_bind_Ok_inv.
    pose proof (policy_restart_step h context trial (session c) s1
      (Body.mk (B:=TpmPolicyRestartCommand) [TpmInt.new 4 0] tt) Hs Hr) as Hstep.
    fold restart in Hstep. apply emits_step in Hstep as Hc1; [|done].
    pose proof Hc1 as (_ & Hs1 & _). apply He in He2 as (-> & cmds2 & He2); [|done..].
    pose proof He2 as (_ & Hs2 & _).
    apply result_bind_Ok_inv in Hrest as (dl1 & Hpush%map_err_Ok_inv & Hrest).
    pose proof (list_try_push_spec 8 dl ds (TpmPolicySession.digest (session c2)) Hdl) as Htp.
    case_decide; [|congruence]. destruct Htp as (dl1' & E & Hdl1).
    rewrite E in Hpush. injection Hpush as <-.
    destruct (IH c2 dl1' (ds ++ [TpmPolicySession.digest (session c2)]))
      as (cmds3 & ds3 & He3 & Hdl3 & Hlen & Hin); [done..|].
    eexists _, (TpmPolicySession.digest (session c2) :: ds3). split_and!.
    + eapply emits_trans; [exact Hc1|]. by eapply emits_trans.
    + by rewrite <-app_assoc in Hdl3.
    + cbn [length]. by rewrite Hlen.
    + destruct es as [|e' es]; [rewrite Hin; by left | by right].
Qed.

Lemma compile_walk_ok e : compiles_to e.
Proof using Type*.
  induction e as [sel dig|auth ref IH|bs IH|bs IH|handle] using expr_ind;
    intros c d c' Hs Hw Ho Hh; cbn [compile_walk].
  - cbn [compile_walk_pcr]. intros (pd & Hpd & Hc)%result_bind_Ok_inv.
    destruct (negb _) eqn:Hz; [done|]. cbv zeta in Hc.
    apply result_bind_Ok_inv in Hc as (s' & Hp & [= <- <-]). split; [done|].
    cbn in Hw. rewrite andb_true_r in Hw. apply bool_decide_eq_true in Hw as [bs Hbs].
    eexists. eapply emits_step; [done|]. eapply policy_pcr_step; [done..| |exact Hp].
    cbn in Hh. rewrite andb_true_r in Hh. apply (the_digest_holds sel dig pd (session c)); [done..|lia].
  - destruct auth as [| | | |handle]; try done. cbn [compile_walk_secret].
    intros (name & Hn & Hc)%result_bind_Ok_inv. cbv zeta in Hc.
    apply result_bind_Ok_inv in Hc as (s' & Hp & [= <- <-]). split; [done|].
    cbn in Hw. rewrite andb_true_r in Hw. apply Nat.eqb_eq in Hw.
    eexists. eapply emits_step; [by vm_compute|].
    eapply policy_secret_step; [done | | | exact Hn | exact Hp].
    + simpl. by rewrite new_value by (done || lia).
    + done.
  - intros (c1 & Hb & [= <- <-])%result_bind_Ok_inv. split; [done|].
    cbn in Hw, Ho, Hh. by eapply walk_branches_emits.
  - intros ([dl c1] & Hb & Hc)%result_bind_Ok_inv. cbv zeta in Hc.
    apply result_bind_Ok_inv in Hc as (s' & Hp & [= <- <-]). split; [done|].
    cbn [every or_plural node_ok pcr_holds andb] in Hw, Ho, Hh. apply andb_true_iff in Ho as [Hne%Nat.leb_le Ho].
    eapply (walk_or_emits bs c c1 _ _ []) in Hb as (cmds & ds & He & Hdl & Hlen & Hin);
      [|done..|by apply list_new_holds].
    pose proof He as (_ & Hs1 & _). eexists. eapply emits_trans; [exact He|]. apply emits_step; [done|].
    eapply policy_or_step; [done | exact (list_holds_deref 8 dl ds Hdl) | by destruct bs; [simpl in Hne; lia|] | | exact Hp].
    pose proof (proj1 (proj2 Hdl)) as H8. cbn [app] in H8. unfold zlen in *. clear -H8 Hlen Hne. lia.
  - done.
Qed.

(** A TPM that executes the emitted commands, each with the sessions it needs,
    ends with the digest. *)
Lemma compile_effects e alg p :
  TpmHash.try_from alg = Ok h → well_formed e = true → every or_plural e = true → pcrs_hold e = true →
  compile context e alg = Ok p →
  effects (zero_digest h) (commands p).*1 = Some (TpmBuffer.deref (Policy.digest p)) ∧
  Forall (λ cmd, unrestricted cmd.1 = true ∧ cmd.2 = TpmList.new MAX_SESSIONS) (commands p).
Proof using Type*.
  intros Hh Hw Ho Hp (s & Hs & ([d c] & Hc & [= <-])%result_bind_Ok_inv)%result_bind_Ok_inv.
  destruct (session_new_ok h alg s Hs Hh) as [Hok Hz].
  apply compile_walk_ok in Hc as (-> & cmds & Hcl & _ & Hf & Hr); [|done..].
  simpl in Hcl, Hr. rewrite Hz in Hr. simpl. by rewrite Hcl, Hr.
Qed.

Lemma compile_executes authorises e alg p cmds :
  TpmHash.try_from alg = Ok h → well_formed e = true → every or_plural e = true → pcrs_hold e = true →
  compile context e alg = Ok p →
  cmds.*1 = (commands p).*1 → all_authorised authorises cmds →
  replay h context trial authorises (zero_digest h) cmds = Some (TpmBuffer.deref (Policy.digest p)).
Proof using Type*.
  intros Hh Hw Ho Hp Hc Hcmds Ha. destruct (compile_effects e alg p Hh Hw Ho Hp Hc) as [He Hf].
  rewrite replay_effects; [by rewrite Hcmds|done|]. rewrite Hcmds. apply list.Forall_fmap.
  eapply list.Forall_impl; [exact Hf|]. by intros c [? _].
Qed.
End compile_lemmas.

(** ** What a command stream stands for *)

Section normal_forms.
Context `{Libcrypto}.
Variables (h : TpmHash.t) (context : TpmPolicyContext.t).

(** The digest [compile] puts into the command of a [pcr] condition. *)
Definition resolved (selections : ty TpmlPcrSelection) (dig : option (ty Tpm2bDigest))
    : option (ty Tpm2bDigest) :=
  match the_pcr_digest context (TpmPolicySession.mk (TpmBuffer.new MAX_DIGEST_SIZE) h 0)
          selections dig with
  | Ok d => Some d
  | _ => None
  end.

(** An absent and an empty policy reference are the same on the wire. *)
Definition nonempty_ref (ref : option (ty Tpm2bDigest)) : option (ty Tpm2bDigest) :=
  match ref with
  | Some r => match TpmBuffer.deref r with [] => None | _ => ref end
  | None => None
  end.

(** The conditions an expression adds to the branch it is in: nested
    conjunctions disappear. *)
Fixpoint conjuncts (e : t) : list t :=
  match e with
  | Pcr selections dig => [Pcr selections (resolved selections dig)]
  | Secret auth ref => [Secret auth (nonempty_ref ref)]
  | And bs => concat (map conjuncts bs)
  | Or bs => [Or (map (λ b, build_and_branch (conjuncts b)) bs)]
  | Handle handle => [Handle handle]
  end.

Definition normalize (e : t) : t := build_and_branch (conjuncts e).

(** Expressions that are their own normal form. *)
Definition is_and (e : t) : bool := match e with And _ => true | _ => false end.
Fixpoint canonical (e : t) : bool :=
  match e with
  | Pcr _ dig => bool_decide (is_Some dig)
  | Secret _ ref => bool_decide (nonempty_ref ref = ref)
  | And bs => negb (length bs =? 1)%nat && forallb (λ b, negb (is_and b) && canonical b) bs
  | Or bs => forallb canonical bs
  | Handle _ => true
  end.

Lemma conjuncts_canonical e :
  canonical e = true → match e with And bs => conjuncts e = bs | _ => conjuncts e = [e] end.
Proof using Type.
  induction e as [sel dig|auth ref IH|bs IH|bs IH|handle] using expr_ind; cbn [canonical conjuncts].
  - intros [d ->]%bool_decide_eq_true. done.
  - intros ->%bool_decide_eq_true. done.
  - intros [_ Hbs]%andb_true_iff. induction IH as [|b bs Hb _ IHbs]; [done|].
    simpl in Hbs. apply andb_true_iff in Hbs as [[Ha Hc]%andb_true_iff Hbs]. cbn [map concat].
    rewrite (IHbs Hbs). specialize (Hb Hc). by destruct b; [rewrite Hb..|].
  - intros Hbs. do 2 f_equal. induction IH as [|b bs Hb _ IHbs]; [done|].
    simpl in Hbs. apply andb_true_iff in Hbs as [Hc Hbs]. cbn [map]. rewrite (IHbs Hbs). f_equal.
    specialize (Hb Hc). destruct b as [| |bs'| |]; rewrite Hb; [done..| |done|done].
    cbn [canonical] in Hc. by destruct bs' as [|? []].
  - done.
Qed.

Lemma normalize_canonical e : canonical e = true → normalize e = e.
Proof using Type.
  intros Hc. pose proof (conjuncts_canonical e Hc) as He. unfold normalize.
  destruct e as [| |bs| |]; rewrite He; [done..| |done|done].
  cbn [canonical] in Hc. by destruct bs as [|? []].
Qed.
End normal_forms.

(** ** What a session never changes *)

Section agree.
Context `{Libcrypto}.
Variable context : TpmPolicyContext.t.
Implicit Types (s : TpmPolicySession.t) (c : compiler).
Import TpmPolicySession.

(** The sessions are for the same algorithm. *)
Definition agree s s' : Prop := hash_alg s' = hash_alg s ∧ digest_size s' = digest_size s.

#[local] Instance agree_refl : Reflexive agree.
Proof using Type. done. Qed.
#[local] Instance agree_trans : Transitive agree.
Proof using Type. intros s1 s2 s3 [? ?] [? ?]. split; congruence. Qed.

Lemma agree_pcr s s' cmd : policy_pcr s cmd = Ok s' → agree s s'.
Proof using Type.
  unfold policy_pcr. destruct (marshal _ _ _) as [r w].
  by intros (? & _ & (d & _ & [= <-])%result_bind_Ok_inv)%result_bind_Ok_inv.
Qed.

Lemma agree_secret s s' name ref : policy_secret s name ref = Ok s' → agree s s'.
Proof using Type. by intros (? & _ & (d & _ & [= <-])%result_bind_Ok_inv)%result_bind_Ok_inv. Qed.

Lemma agree_or s s' cmd : policy_or s cmd = Ok s' → agree s s'.
Proof using Type. by intros (? & _ & (d & _ & [= <-])%result_bind_Ok_inv)%result_bind_Ok_inv. Qed.

Lemma agree_restart s s' : policy_restart s = Ok s' → agree s s'.
Proof using Type. by intros (d & _ & [= <-])%result_bind_Ok_inv. Qed.

Lemma compile_walk_agree e c d c' :
  compile_walk context e c = Ok (d, c') → agree (software_session c) (software_session c').
Proof using Type.
  revert c d c'. induction e as [sel dig|auth ref IH|bs IH|bs IH|handle] using expr_ind;
    intros c d c'; cbn [compile_walk].
  - cbn [compile_walk_pcr]. intros (pd & _ & Hc)%result_bind_Ok_inv. destruct (negb _); [done|].
    by apply result_bind_Ok_inv in Hc as (s' & Hp%agree_pcr & [= <- <-]).
  - destruct auth; try done. cbn [compile_walk_secret]. intros (name & _ & Hc)%result_bind_Ok_inv.
    by apply result_bind_Ok_inv in Hc as (s' & Hp%agree_secret & [= <- <-]).
  - intros (c1 & Hb & [= <- <-])%result_bind_Ok_inv. revert c Hb.
    induction IH as [|b bs Hbr _ IHbs]; intros c; cbn [walk_branches]; [by intros [= ->]|].
    intros ([d1 c2] & Hp%Hbr & Hrest%IHbs)%result_bind_Ok_inv. by etrans.
  - intros ([dl c1] & Hb & Hc)%result_bind_Ok_inv.
    apply result_bind_Ok_inv in Hc as (s' & Hp%agree_or & [= <- <-]).
    transitivity (software_session c1); [|exact Hp]. clear Hp.
    revert c Hb. generalize (TpmList.new (A:=ty Tpm2bDigest) 8).
    induction IH as [|b bs Hbr _ IHbs]; intros dl0 c; [by intros [= _ ->]|].
    cbn [walk_or_branches].
    intros (s1 & Hr%agree_restart & ([d1 c2] & Hp%Hbr & Hrest)%result_bind_Ok_inv)%result_bind_Ok_inv.
    apply result_bind_Ok_inv in Hrest as (dl1 & _ & Hrest%IHbs).
    transitivity s1; [exact Hr|]. by transitivity (software_session c2).
  - done.
Qed.

Lemma walk_branches_agree branches c c' :
  walk_branches (compile_walk context) branches c = Ok c' →
  agree (software_session c) (software_session c').
Proof using Type.
  intros Hb. apply (compile_walk_agree (And branches) c (get_digest (software_session c')) c').
  cbn [compile_walk]. by rewrite Hb.
Qed.

Lemma walk_branches_app bs1 bs2 c c' :
  walk_branches (compile_walk context) (bs1 ++ bs2) c = Ok c' →
  ∃ c1, walk_branches (compile_walk context) bs1 c = Ok c1 ∧
        walk_branches (compile_walk context) bs2 c1 = Ok c'.
Proof using Type.
  revert c; induction bs1 as [|b bs IH]; intros c; cbn [app walk_branches]; [by exists c|].
  intros ([d c2] & Hb & Hrest%IH)%result_bind_Ok_inv. by rewrite Hb.
Qed.

(** The digest a walk returns is the session's. *)
Lemma compile_walk_digest e c d c' :
  compile_walk context e c = Ok (d, c') → d = digest (software_session c').
Proof using Type.
  destruct e as [sel dig|auth ref|bs|bs|handle]; cbn [compile_walk].
  - cbn [compile_walk_pcr]. intros (pd & _ & Hc)%result_bind_Ok_inv. destruct (negb _); [done|].
    by apply result_bind_Ok_inv in Hc as (s' & _ & [= <- <-]).
  - destruct auth; try done. cbn [compile_walk_secret]. intros (name & _ & Hc)%result_bind_Ok_inv.
    by apply result_bind_Ok_inv in Hc as (s' & _ & [= <- <-]).
  - by intros (c1 & _ & [= <- <-])%result_bind_Ok_inv.
  - intros ([dl c1] & _ & Hc)%result_bind_Ok_inv.
    by apply result_bind_Ok_inv in Hc as (s' & _ & [= <- <-]).
  - done.
Qed.

(** A disjunction starts from a reset session: what was there before it does
    not matter. *)
Lemma walk_or_forgets branches dl cs s1 s2 :
  agree s1 s2 → branches ≠ [] →
  walk_or_branches (compile_walk context) branches dl (mk_compiler cs s1) =
  walk_or_branches (compile_walk context) branches dl (mk_compiler cs s2).
Proof using Type.
  intros [Ha Hs] Hne. destruct branches as [|b bs]; [done|]. cbn [walk_or_branches]. cbv zeta.
  unfold policy_restart, push. cbn [software_session]. rewrite Hs.
  destruct (to_digest _); [|done..]. cbn [result_bind]. unfold set_digest. by rewrite Ha, Hs.
Qed.

Lemma policy_or_forgets s1 s2 cmd : agree s1 s2 → policy_or s1 cmd = policy_or s2 cmd.
Proof using Type.
  intros [Ha Hs]. unfold policy_or. rewrite Hs. destruct (to_digest _); [|done..]. cbn [result_bind].
  unfold set_digest, hash_chunks. cbn. by rewrite Ha, Hs.
Qed.

Lemma or_forgets branches cs s1 s2 :
  agree s1 s2 →
  compile_walk context (Or branches) (mk_compiler cs s1) =
  compile_walk context (Or branches) (mk_compiler cs s2).
Proof using Type.
  intros Hag. cbn [compile_walk]. unfold compile_walk_or. destruct branches as [|b bs].
  - cbn [walk_or_branches result_bind]. cbv zeta. unfold push. cbn [software_session command_list].
    by rewrite (policy_or_forgets s1 s2).
  - by rewrite (walk_or_forgets _ _ _ s1 s2).
Qed.

(** The commands emitted so far do not matter either. *)
Definition prefixed {A} (cs : commands_list) (r : result TpmPolicyError.t (A * compiler))
    : result TpmPolicyError.t (A * compiler) :=
  let? (a, c) := r in Ok (a, mk_compiler (cs ++ command_list c) (software_session c)).

Definition prefix_compiler (cs : commands_list) (c : compiler) : compiler :=
  mk_compiler (cs ++ command_list c) (software_session c).

Lemma push_prefix cmd cs c : push cmd (prefix_compiler cs c) = prefix_compiler cs (push cmd c).
Proof using Type. unfold push, prefix_compiler. simpl. by rewrite app_assoc. Qed.

Lemma compile_walk_prefix e cs c :
  compile_walk context e (prefix_compiler cs c) = prefixed cs (compile_walk context e c).
Proof using Type.
  revert c. induction e as [sel dig|auth ref IH|bs IH|bs IH|handle] using expr_ind;
    intros c; cbn [compile_walk].
  - cbn [compile_walk_pcr]. change (software_session (prefix_compiler cs c)) with (software_session c).
    destruct (the_pcr_digest _ _ _ _); [|done..]. cbn [result_bind]. destruct (negb _); [done|].
    cbv zeta. rewrite push_prefix.
    by destruct (policy_pcr _ _).
  - destruct auth; try done. cbn [compile_walk_secret]. destruct (auth_name _ _); [|done..].
    cbn [result_bind]. cbv zeta. rewrite push_prefix. by destruct (policy_secret _ _ _).
  - assert (∀ c, walk_branches (compile_walk context) bs (prefix_compiler cs c) =
                 let? c := walk_branches (compile_walk context) bs c in Ok (prefix_compiler cs c)) as Hb.
    { clear c. induction IH as [|b bs Hb _ IHbs]; intros c; cbn [walk_branches]; [done|].
      rewrite Hb. destruct (compile_walk context b c) as [[d c1]| |]; [|done..]. apply IHbs. }
    rewrite Hb. by destruct (walk_branches _ _ _).
  - assert (∀ dl c, walk_or_branches (compile_walk context) bs dl (prefix_compiler cs c) =
                    prefixed cs (walk_or_branches (compile_walk context) bs dl c)) as Hb.
    { clear c. induction IH as [|b bs Hb _ IHbs]; intros dl c; [done|]. cbn [walk_or_branches].
      cbv zeta. rewrite push_prefix.
      change (software_session (prefix_compiler cs ?x)) with (software_session x).
      destruct (policy_restart _) as [s1| |]; [|done..]. cbn [result_bind].
      change (set_session s1 (prefix_compiler cs ?x)) with (prefix_compiler cs (set_session s1 x)).
      rewrite Hb. destruct (compile_walk context b _) as [[d c1]| |]; [|done..].
      cbn [prefixed result_bind]. destruct (map_err _ _); [|done..]. apply IHbs. }
    unfold compile_walk_or. rewrite Hb. destruct (walk_or_branches _ _ _ _) as [[dl c1]| |]; [|done..].
    cbn [prefixed result_bind]. cbv zeta. fold (prefix_compiler cs c1). rewrite push_prefix.
    by destruct (policy_or _ _).
  - done.
Qed.
End agree.

(** ** [from_commands] inverts [compile] *)

Section from_commands_lemmas.
Context `{Libcrypto}.
Variables (h : TpmHash.t) (context : TpmPolicyContext.t).
Implicit Types (c : compiler) (e : t).
Local Abbreviation session c := (software_session c).

Lemma from_loop_app cs1 cs2 stack :
  from_loop (cs1 ++ cs2) stack = let? stack := from_loop cs1 stack in from_loop cs2 stack.
Proof using Type.
  revert stack; induction cs1 as [|c cs1 IH]; intros stack; simpl; [done|].
  destruct (from_command c stack); [apply IH | done..].
Qed.

(** The commands emitted between [c] and [c'] push [es] on the top branch. *)
Definition pushes c c' (es : list t) : Prop :=
  TpmPolicySession.hash_alg (session c') = h ∧
  ∃ cmds, command_list c' = command_list c ++ cmds ∧
    ∀ branch stack, from_loop cmds.*1 (branch :: stack) = Ok ((branch ++ es) :: stack).

Lemma pushes_nil c : TpmPolicySession.hash_alg (session c) = h → pushes c c [].
Proof using Type.
  intros Hs. split; [done|]. exists []. split; [by rewrite app_nil_r|].
  intros. simpl. by rewrite app_nil_r.
Qed.

Lemma pushes_trans c1 c2 c3 es1 es2 :
  pushes c1 c2 es1 → pushes c2 c3 es2 → pushes c1 c3 (es1 ++ es2).
Proof using Type.
  intros [_ (cmds1 & H1 & R1)] [Hs (cmds2 & H2 & R2)]. split; [done|].
  exists (cmds1 ++ cmds2). split; [by rewrite H2, H1, app_assoc|]. intros branch stack.
  rewrite fmap_app, from_loop_app, R1. cbn [result_bind]. by rewrite R2, app_assoc.
Qed.

Lemma pushes_step c cmd s' es :
  TpmPolicySession.hash_alg s' = h →
  (∀ branch stack, from_command cmd (branch :: stack) = Ok ((branch ++ es) :: stack)) →
  pushes c (set_session s' (push cmd c)) es.
Proof using Type.
  intros Hs Hc. split; [done|]. eexists. split; [done|]. intros branch stack.
  cbn [fmap list_fmap fst from_loop]. by rewrite Hc.
Qed.

Lemma the_pcr_digest_alg s sel dig :
  TpmPolicySession.hash_alg s = h →
  resolved h context sel dig =
    match the_pcr_digest context s sel dig with Ok d => Some d | _ => None end.
Proof using Type. intros Hs. unfold resolved, the_pcr_digest, TpmPolicySession.hash_chunks. simpl. by rewrite Hs. Qed.

(** What holds of every expression [e]. *)
Definition reads_back e : Prop :=
  ∀ c d c', TpmPolicySession.hash_alg (session c) = h → well_formed e = true →
    compile_walk context e c = Ok (d, c') → pushes c c' (conjuncts h context e).

Lemma pushes_branches branches c c' :
  Forall reads_back branches → TpmPolicySession.hash_alg (session c) = h →
  forallb (every node_ok) branches = true →
  walk_branches (compile_walk context) branches c = Ok c' →
  pushes c c' (concat (map (conjuncts h context) branches)).
Proof using Type.
  intros HF. revert c; induction HF as [|e es He _ IH]; intros c Hs Hw; cbn [walk_branches map concat].
  - intros [= <-]. by apply pushes_nil.
  - cbn in Hw. apply andb_true_iff in Hw as [? ?].
    intros ([d c1] & Hp%He & Hrest)%result_bind_Ok_inv; [|done..].
    eapply pushes_trans; [exact Hp|]. apply IH; [apply Hp | done..].
Qed.

(** The branches of a disjunction end up on the stack, the last on top, and
    its digest list has one digest for each. *)
Lemma or_branches_stack branches c c' dl dl' ds :
  Forall reads_back branches → TpmPolicySession.hash_alg (session c) = h →
  forallb (every node_ok) branches = true → TpmList.holds 8 dl ds →
  walk_or_branches (compile_walk context) branches dl c = Ok (dl', c') →
  TpmPolicySession.hash_alg (session c') = h ∧
  ∃ cmds ds', command_list c' = command_list c ++ cmds ∧
    TpmList.holds 8 dl' (ds ++ ds') ∧ length ds' = length branches ∧
    ∀ branch stack, from_loop cmds.*1 (branch :: stack) =
      Ok (rev (map (conjuncts h context) branches) ++ branch :: stack).
Proof using Type.
  intros HF. revert c dl ds; induction HF as [|e es He _ IH]; intros c dl ds Hs Hw Hdl.
  - intros [= <- <-]. split; [done|]. exists [], []. split_and!; [by rewrite app_nil_r.. | done | done].
  - simpl in Hw. apply andb_true_iff in Hw as [? ?]. cbn [walk_or_branches]. cbv zeta.
    intros (s1 & [Hr _]%agree_restart & ([d c2] & He2 & Hrest)%result_bind_Ok_inv)%result_bind_Ok_inv.
    apply He in He2 as [Hs2 (cmds2 & Hc2 & R2)]; [|by etrans|done].
    apply result_bind_Ok_inv in Hrest as (dl1 & Hpush%map_err_Ok_inv & Hrest).
    pose proof (list_try_push_spec 8 dl ds d Hdl) as Hp.
    case_decide; [|congruence]. destruct Hp as (dl1' & E & Hdl1).
    rewrite E in Hpush. injection Hpush as <-.
    destruct (IH c2 dl1' (ds ++ [d])) as (Hs3 & cmds3 & ds3 & Hc3 & Hdl3 & Hl & R3); [done..|].
    split; [done|]. eexists (_ :: cmds2 ++ cmds3), (d :: ds3). split_and!.
    + rewrite Hc3, Hc2. simpl. by rewrite <-!app_assoc.
    + by rewrite <-app_assoc in Hdl3.
    + cbn [length]. by f_equal.
    + intros branch stack. cbn [fmap list_fmap fst from_loop].
      change (from_command _ (branch :: stack)) with (@Ok TpmPolicyError.t _ ([] :: branch :: stack)).
      cbn [result_bind]. rewrite fmap_app, from_loop_app, R2. cbn [result_bind]. rewrite R3.
      simpl. by rewrite <-app_assoc.
Qed.

Lemma pop_branches_rev (bs : list (list t)) stack acc :
  pop_branches (length bs) (bs ++ stack) acc = Ok (map build_and_branch (rev bs) ++ acc, stack).
Proof using Type.
  revert acc; induction bs as [|b bs IH]; intros acc; simpl; [done|].
  rewrite IH, map_app, <-app_assoc. done.
Qed.

Lemma from_or_step dl ds bs branch stack :
  TpmList.holds 8 dl ds → length ds = length bs →
  from_command (PolicyOr (Body.mk (B:=TpmPolicyOrCommand) [TpmInt.new 4 0] (dl, tt)))
    (rev bs ++ branch :: stack) =
  Ok ((branch ++ [Or (map build_and_branch bs)]) :: stack).
Proof using Type.
  intros Hdl Hl. transitivity (pop_or (Body.mk (B:=TpmPolicyOrCommand) [TpmInt.new 4 0] (dl, tt))
    (rev bs ++ branch :: stack)); [by destruct (rev bs)|].
  unfold pop_or. change (p_hash_list _) with dl.
  rewrite (list_holds_deref 8 dl ds Hdl), Hl, <-(length_rev bs). cbv zeta.
  rewrite length_app. simpl. rewrite (proj2 (Nat.ltb_ge _ _)) by lia.
  rewrite pop_branches_rev. cbn [result_bind]. by rewrite rev_involutive, app_nil_r.
Qed.

Lemma compile_walk_reads_back e : reads_back e.
Proof using Type.
  induction e as [sel dig|auth ref IH|bs IH|bs IH|handle] using expr_ind;
    intros c d c' Hs Hw; cbn [compile_walk].
  - cbn [compile_walk_pcr conjuncts]. intros (pd & Hpd & Hc)%result_bind_Ok_inv.
    destruct (negb _); [done|]. cbv zeta in Hc.
    apply result_bind_Ok_inv in Hc as (s' & [Hp _]%agree_pcr & [= <- <-]).
    rewrite (the_pcr_digest_alg (session c)), Hpd by done. apply pushes_step; [by rewrite Hp|done].
  - destruct auth as [| | | |handle]; try done. cbn [compile_walk_secret].
    intros (name & Hn & Hc)%result_bind_Ok_inv. cbv zeta in Hc.
    apply result_bind_Ok_inv in Hc as (s' & [Hp _]%agree_secret & [= <- <-]).
    cbn in Hw. rewrite andb_true_r in Hw. apply Nat.eqb_eq in Hw.
    apply pushes_step; [by rewrite Hp|]. intros branch stack.
    rewrite new_value by (done || lia). cbn [conjuncts]. destruct ref as [r|]; [|done].
    unfold nonempty_ref. cbn. by destruct (TpmBuffer.deref r).
  - intros (c1 & Hb & [= <- <-])%result_bind_Ok_inv. cbn in Hw. by apply pushes_branches.
  - intros ([dl c1] & Hb & Hc)%result_bind_Ok_inv. cbv zeta in Hc.
    apply result_bind_Ok_inv in Hc as (s' & [Hp _]%agree_or & [= <- <-]). cbn in Hw.
    destruct (or_branches_stack bs c c1 (TpmList.new 8) dl [])
      as (Hs1 & cmds & ds & Hcl & Hdl & Hl & R); [done..|by apply list_new_holds|done|].
    split; [by rewrite <-Hs1|]. eexists. split; [cbn; by rewrite Hcl, <-app_assoc|].
    intros branch stack. rewrite fmap_app, from_loop_app, R. cbn [result_bind fmap list_fmap fst from_loop].
    rewrite (from_or_step dl ds (map (conjuncts h context) bs)) by (done || by rewrite length_map).
    cbn [result_bind conjuncts]. by rewrite map_map.
  - done.
Qed.
End from_commands_lemmas.

(** ** When [compile] succeeds *)

Section compilable.
Context `{LibcryptoOk}.
Variables (h : TpmHash.t) (context : TpmPolicyContext.t).
Implicit Types (s : TpmPolicySession.t) (c : compiler) (e : t).
Local Abbreviation session c := (software_session c).

Definition is_ok {E A} (r : result E A) : bool := match r with Ok _ => true | _ => false end.

(** The context knows every selected PCR. *)
Definition selection_known (selection : ty TpmsPcrSelection) : bool :=
  match TpmPolicyContext.pcrs context !! TpmsPcrSelection.hash selection,
        TpmsPcrSelect.deref (TpmsPcrSelection.pcr_select selection) with
  | Some bank, Ok bytes => forallb (λ i, bool_decide (is_Some (bank !! i))) (pcr_indices bytes)
  | _, _ => false
  end.

Fixpoint compilable (e : t) : bool :=
  match e with
  | Pcr _ (Some d) => zlen (TpmBuffer.deref d) =? TpmHash.size h
  | Pcr selections None => forallb selection_known (TpmList.deref selections)
  | Secret (Handle handle) _ => is_ok (auth_name context handle)
  | Secret _ _ => false
  | And bs => forallb compilable bs
  | Or bs => (length bs <=? 8)%nat && forallb compilable bs
  | Handle _ => false
  end.

(** [m] succeeds with a [P] value when [b] holds, and fails otherwise. *)
Definition decided {A} (b : bool) (P : A → Prop) (m : result TpmPolicyError.t A) : Prop :=
  match m with
  | Ok a => b = true ∧ P a
  | Err _ => b = false
  | Panic => False
  end.

Lemma decided_bind {A B} (b1 b2 : bool) (P : A → Prop) (Q : B → Prop) m k :
  decided b1 P m → (∀ a, P a → decided b2 Q (k a)) → decided (b1 && b2) Q (result_bind m k).
Proof using Type.
  destruct m as [a|e|]; simpl; [|by intros ->|done]. intros [-> HP] Hk. by apply Hk.
Qed.

Lemma decided_impl {A} (b : bool) (P Q : A → Prop) m :
  decided b P m → (∀ a, P a → Q a) → decided b Q m.
Proof using Type. destruct m; simpl; [intros [? ?]; auto | done..]. Qed.

(** In a selection that can be marshalled, the bytes can be read. *)
Lemma wire_selection_deref selections bs selection :
  wire TpmlPcrSelection selections = Some bs → selection ∈ TpmList.deref selections →
  ∃ bytes, TpmsPcrSelect.deref (TpmsPcrSelection.pcr_select selection) = Ok bytes.
Proof using Type.
  intros (vs & bss & Hh & He & _)%(list_wire_Some TpmsPcrSelection 8 ltac:(done)) Hin.
  rewrite (list_holds_deref 8 _ vs Hh) in Hin.
  apply list_elem_of_lookup in Hin as [i Hi].
  eapply Forall2_lookup_l in He as (b & _ & Hw); [|exact Hi].
  apply wcat_Some in Hw as (b1 & b2 & _ & Hw & _).
  apply pcr_wire_Some in Hw as (xs & Ht & _). pose proof (pcr_try_from_bound _ _ Ht) as Hb.
  destruct (pcr_try_from_Ok xs Hb) as (p & Ht' & _ & Hd). rewrite Ht in Ht'. injection Ht' as ->.
  by exists xs.
Qed.

Lemma read_pcrs_decided bank indices data :
  decided (forallb (λ i, bool_decide (is_Some (bank !! i))) indices) (λ _, True)
    (read_pcrs bank indices data).
Proof using Type.
  revert data; induction indices as [|i indices IH]; intros data; [done|]. cbn [read_pcrs forallb].
  destruct (bank !! i) as [v|]; cbn [ok_or result_bind]; [|done]. apply IH.
Qed.

Lemma read_selections_decided sels data :
  (∀ sel, sel ∈ sels → ∃ bytes, TpmsPcrSelect.deref (TpmsPcrSelection.pcr_select sel) = Ok bytes) →
  decided (forallb selection_known sels) (λ _, True) (read_selections context sels data).
Proof using Type.
  revert data; induction sels as [|sel sels IH]; intros data Hd; [done|].
  cbn [read_selections forallb]. unfold selection_known at 1.
  destruct (Hd sel ltac:(by left)) as [bytes ->].
  destruct (TpmPolicyContext.pcrs context !! _) as [bank|]; cbn [ok_or map_err result_bind]; [|done].
  eapply decided_bind; [apply read_pcrs_decided|]. intros data' _. apply IH.
  intros sel' Hin. apply Hd. by right.
Qed.

Hypothesis Husable : usable (TpmHash.to_md h).

Lemma hash_chunks_total s chunks :
  session_ok h s →
  ∃ d, TpmPolicySession.hash_chunks s chunks = Ok d ∧ zlen (TpmBuffer.deref d) = TpmHash.size h.
Proof using Type*.
  intros Hs. pose proof Hs as [Ha _]. unfold TpmPolicySession.hash_chunks.
  pose proof (digest_spec (TpmPolicySession.hash_alg s) chunks) as Hd. rewrite Ha in *.
  destruct (TpmHash.digest h chunks) as [bs|e|]; simpl in Hd; [|by destruct Hd|done]. subst bs.
  pose proof (size_bounds h). pose proof (zlen_hash (TpmHash.to_md h) (concat chunks)) as Hz.
  fold (TpmHash.size h) in Hz. cbn [map_err result_bind].
  destruct (to_digest_small (hash (TpmHash.to_md h) (concat chunks))) as (d & -> & Hd); [lia|].
  exists d. by rewrite Hd.
Qed.

Lemma zero_digest_total s :
  session_ok h s → ∃ d, TpmPolicySession.to_digest (TpmHash.zeroed (TpmPolicySession.digest_size s)) = Ok d.
Proof using H0.
  intros [_ ->]. pose proof (size_bounds h).
  destruct (to_digest_small (TpmHash.zeroed (TpmHash.size h))) as (d & -> & _); [|by exists d].
  rewrite zlen_zeroed; lia.
Qed.

Lemma policy_pcr_total s cmd bs :
  session_ok h s → wire TpmlPcrSelection (pcrs cmd) = Some bs →
  ∃ s', TpmPolicySession.policy_pcr s cmd = Ok s' ∧ session_ok h s'.
Proof using Type*.
  intros Hs Hw. unfold TpmPolicySession.policy_pcr.
  destruct (marshal_fresh TpmlPcrSelection (pcrs cmd) bs Hw) as (w & -> & _).
  { apply Z.leb_le. by vm_compute. }
  cbn [map_err result_bind]. cbv zeta.
  edestruct (hash_chunks_total s) as (d & -> & _); [done|]. by eexists.
Qed.

Lemma policy_secret_total s name ref :
  session_ok h s → ∃ s', TpmPolicySession.policy_secret s name ref = Ok s' ∧ session_ok h s'.
Proof using Type*.
  intros Hs. unfold TpmPolicySession.policy_secret. cbv zeta.
  edestruct (hash_chunks_total s) as (d1 & -> & _); [done|]. cbn [result_bind].
  edestruct (hash_chunks_total s) as (d2 & -> & _); [done|]. by eexists.
Qed.

Lemma policy_or_total s cmd :
  session_ok h s → ∃ s', TpmPolicySession.policy_or s cmd = Ok s' ∧ session_ok h s'.
Proof using Type*.
  intros Hs. unfold TpmPolicySession.policy_or. cbv zeta.
  destruct (zero_digest_total s Hs) as [z ->]. cbn [result_bind].
  edestruct (hash_chunks_total (TpmPolicySession.set_digest s z)) as (d & -> & _); [done|]. by eexists.
Qed.

Lemma policy_restart_total s :
  session_ok h s → ∃ s', TpmPolicySession.policy_restart s = Ok s' ∧ session_ok h s'.
Proof using H0.
  intros Hs. unfold TpmPolicySession.policy_restart.
  destruct (zero_digest_total s Hs) as [z ->]. by eexists.
Qed.

Lemma auth_name_no_panic handle : auth_name context handle ≠ Panic.
Proof using Type.
  unfold auth_name. cbv zeta. apply result_bind_not_Panic.
  { apply map_err_not_Panic, (try_from_no_panic TpmHt.t). }
  intros ht _. destruct ht; try done; [|by destruct (TpmPolicyContext.names context !! handle)..].
  apply result_bind_not_Panic.
  { apply map_err_not_Panic, (try_from_no_panic TpmRh.t). }
  intros rh _. destruct rh; done.
Qed.

(** What holds of every expression [e]. *)
Definition walk_decided e : Prop :=
  ∀ c, session_ok h (session c) → well_formed e = true →
    decided (compilable e) (λ r, session_ok h (session r.2)) (compile_walk context e c).

Lemma walk_branches_decided branches c :
  Forall walk_decided branches → session_ok h (session c) → forallb (every node_ok) branches = true →
  decided (forallb compilable branches) (λ c, session_ok h (session c))
    (walk_branches (compile_walk context) branches c).
Proof using Type.
  intros HF. revert c; induction HF as [|e es He _ IH]; intros c Hs Hw; [done|].
  cbn in Hw. apply andb_true_iff in Hw as [? ?]. cbn [walk_branches forallb].
  eapply decided_bind; [by apply He|]. intros [d c1] Hs1. by apply IH.
Qed.

Lemma walk_or_decided branches c dl ds :
  Forall walk_decided branches → session_ok h (session c) → forallb (every node_ok) branches = true →
  TpmList.holds 8 dl ds →
  decided ((length ds + length branches <=? 8)%nat && forallb compilable branches)
    (λ r, session_ok h (session r.2)) (walk_or_branches (compile_walk context) branches dl c).
Proof using Type*.
  intros HF. revert c dl ds; induction HF as [|e es He _ IH]; intros c dl ds Hs Hw Hdl.
  { split; [|done]. destruct Hdl as [_ [Hl _]]. rewrite andb_true_r. apply Nat.leb_le.
    assert (Z.of_nat (length ds) ≤ 8) by exact Hl. cbn [length]. lia. }
  cbn in Hw. apply andb_true_iff in Hw as [? ?]. cbn [walk_or_branches forallb]. cbv zeta.
  destruct (policy_restart_total (session c) Hs) as (s1 & Hr & Hs1).
  change (session (push _ c)) with (session c). rewrite Hr. cbn [result_bind].
  rewrite andb_comm, <-andb_assoc. eapply decided_bind; [by apply He|]. intros [d c1] Hs2.
  pose proof (list_try_push_spec 8 dl ds d Hdl) as Hp. rewrite andb_comm.
  case_decide as Hd.
  - destruct Hp as (dl1 & -> & Hdl1). cbn [map_err result_bind].
    replace (length ds + length (e :: es))%nat with (length (ds ++ [d]) + length es)%nat
      by (rewrite length_app; cbn [length]; lia).
    by apply IH.
  - rewrite Hp. cbn [map_err result_bind decided].
    rewrite (proj2 (Nat.leb_gt _ _)); [done|].
    assert (¬ Z.of_nat (length ds) < 8) by exact Hd. cbn [length]. lia.
Qed.

Lemma compile_walk_decided e : walk_decided e.
Proof using Type*.
  induction e as [sel dig|auth ref IH|bs IH|bs IH|handle] using expr_ind;
    intros c Hs Hw; cbn [compile_walk].
  - cbn in Hw. rewrite andb_true_r in Hw. apply bool_decide_eq_true in Hw as [bs Hbs].
    cbn [compile_walk_pcr].
    match goal with |- decided _ _ (result_bind _ ?f) => set (k := f) end.
    assert (∀ (pd : ty Tpm2bDigest) b, (zlen (TpmBuffer.deref pd) =? TpmHash.size h) = b →
              decided b (λ r, session_ok h (session r.2)) (k pd)) as Hk.
    { intros pd b <-. unfold k. pose proof Hs as [_ ->]. destruct (_ =? _); [|done]. cbn [negb]. cbv zeta.
      destruct (policy_pcr_total (session c)
        (Body.mk (B:=TpmPolicyPcrCommand) [TpmInt.new 4 0] (pd, (sel, tt))) bs Hs Hbs)
        as (s' & Hp & Hs').
      match goal with |- decided _ _ (result_bind ?m _) => assert (m = Ok s') as -> by exact Hp end.
      by split. }
    clearbody k. destruct dig as [d|]; [by apply (Hk d)|]. cbn [the_pcr_digest compilable].
    pose proof (read_selections_decided (TpmList.deref sel) []) as Hr.
    specialize (Hr ltac:(intros; by eapply wire_selection_deref)).
    destruct (read_selections _ _ _) as [data|e|]; cbn [result_bind] in *; [|done..].
    destruct Hr as [-> _]. destruct (hash_chunks_total (session c) [data] Hs) as (d & -> & Hd).
    cbn [result_bind]. apply Hk. rewrite Hd. apply Z.eqb_refl.
  - destruct auth as [| | | |handle]; [reflexivity..|]. cbn [compile_walk_secret compilable].
    pose proof (auth_name_no_panic handle).
    destruct (auth_name context handle) as [name|e|]; [|done..]. cbn [result_bind]. cbv zeta.
    destruct (policy_secret_total (session c) name (default (TpmBuffer.new MAX_DIGEST_SIZE) ref) Hs)
      as (s' & Hp & Hs').
    match goal with |- decided _ _ (result_bind ?m _) => assert (m = Ok s') as -> by exact Hp end.
    by split.
  - cbn in Hw. rewrite <-(andb_true_r (compilable _)). eapply decided_bind; [by apply walk_branches_decided|].
    intros c' Hs'. done.
  - cbn in Hw. rewrite <-(andb_true_r (compilable _)).
    eapply decided_bind; [by apply (walk_or_decided bs c _ []); [..|apply list_new_holds]|].
    intros [dl c1] Hs1. cbv zeta.
    destruct (policy_or_total (session c1) (Body.mk (B:=TpmPolicyOrCommand) [TpmInt.new 4 0] (dl, tt)) Hs1)
      as (s' & Hp & Hs').
    match goal with |- decided _ _ (result_bind ?m _) => assert (m = Ok s') as -> by exact Hp end.
    by split.
  - done.
Qed.
End compilable.

(** ** Contexts *)

Section contexts.
Context `{Libcrypto}.
Import TpmPolicyContext.

Lemma count_pcrs_from n values :
  n ≠ 0 →
  count_pcrs n values =
    if decide (Forall (λ bank, bank_len bank = n) values) then Ok n else Err TpmPolicyError.PcrCountMismatch.
Proof using Type.
  intros Hn. induction values as [|bank values IH]; cbn [count_pcrs]; [done|].
  rewrite (proj2 (Z.eqb_neq n 0)) by done. cbv zeta.
  destruct (Z.eqb_spec n (bank_len bank)) as [E|E]; cbn [negb].
  - rewrite IH. destruct (decide (Forall _ values)), (decide (Forall _ (bank :: values))); try done.
    + exfalso. by match goal with Hf : ¬ Forall _ (_ :: _) |- _ => apply Hf; constructor end.
    + exfalso. by match goal with Hf : Forall _ (_ :: _) |- _ => inversion Hf end.
  - rewrite decide_False; [done|]. intros Hf. by inversion Hf.
Qed.

Lemma bank_len_pos bank : bank ≠ ∅ → bank_len bank ≠ 0.
Proof using Type.
  intros Hb Hz. unfold bank_len in Hz. apply Hb, map_size_empty_iff. lia.
Qed.

(** Without empty banks: all have the same number of PCRs. *)
Lemma count_pcrs_nonempty values :
  Forall (λ bank, bank ≠ ∅) values →
  match count_pcrs 0 values with
  | Ok n => Forall (λ bank, bank_len bank = n) values ∧ (values = [] → n = 0)
  | Err e => e = TpmPolicyError.PcrCountMismatch ∧
      ∃ b1 b2, b1 ∈ values ∧ b2 ∈ values ∧ bank_len b1 ≠ bank_len b2
  | Panic => False
  end.
Proof using Type.
  destruct values as [|bank values]; [done|]. intros [Hb _]%Forall_cons_1. cbn [count_pcrs Z.eqb]. cbv zeta.
  rewrite Z.eqb_refl. cbn [negb]. rewrite (count_pcrs_from _ _ (bank_len_pos bank Hb)).
  case_decide as Hf; [by split; [constructor|]|]. split; [done|].
  apply not_Forall_Exists in Hf; [|apply _]. apply list.Exists_exists in Hf as (b & Hin & Hne).
  exists bank, b. split_and!; [by left | by right | by intros E; apply Hne].
Qed.

Lemma visits_elem values pcrs bank :
  visits values pcrs → bank ∈ values ↔ ∃ alg, pcrs !! alg = Some bank.
Proof using Type.
  unfold visits. intros ->. rewrite list_elem_of_fmap. split.
  - intros ([alg b] & -> & Hin). apply elem_of_map_to_list in Hin. by exists alg.
  - intros [alg Hin%elem_of_map_to_list]. by exists (alg, bank).
Qed.
End contexts.
