(* ===== verification/PolicyTextSpec.v ===== *)
(** Facts about the text of policies: the tokens of a printed expression, the
    bits of a printed selection, the expressions that can be printed and read
    back ([printable]), and that the parser returns only those. *)

From Stdlib Require Import Ascii.
From stdpp Require Import gmap.
From S2P Require Import Prelude Errors Writer Codec Integer Buffer Tpml Struct EnumMacro Union Enums BasicTypes Structures.
From S2P Require Import Crypto Hash Text Policy PolicyText PolicySpec.
Import TpmPolicyExpression.

(** ** Tokens *)

(** What can follow an identifier. *)
Definition breaks (s : str) : Prop := match s with [] => True | c :: _ => ends_ident c = true end.

Lemma scan_ident_rest chars : (length (scan_ident chars).2 ≤ length chars)%nat.
Proof.
  induction chars as [|c chars IH]; simpl; [done|]. destruct (ends_ident c); [done|].
  destruct (scan_ident chars); simpl in *. lia.
Qed.

Lemma scan_ident_app a b :
  breaks b → scan_ident (a ++ b) = ((scan_ident a).1, (scan_ident a).2 ++ b).
Proof.
  intros Hb. induction a as [|c a IH]; simpl.
  - destruct b as [|c b]; [done|]. simpl in *. by rewrite Hb.
  - destruct (ends_ident c); [done|]. rewrite IH. by destruct (scan_ident a).
Qed.

Lemma scan_ident_word w : Forall (λ c, ends_ident c = false) w → scan_ident w = (w, []).
Proof. induction 1 as [|c w Hc _ IH]; simpl; [done|]. by rewrite Hc, IH. Qed.

Lemma tokenize_fuel f1 f2 s :
  (length s ≤ f1)%nat → (length s ≤ f2)%nat → tokenize_loop f1 s = tokenize_loop f2 s.
Proof.
  revert f2 s; induction f1 as [|f1 IH]; intros [|f2] [|c s] H1 H2; simpl in *; try lia; [done..|].
  rewrite !(IH f2) by lia. repeat (case_match; [done|]).
  pose proof (scan_ident_rest s). destruct (scan_ident s); simpl in *. f_equal. apply IH; lia.
Qed.

Lemma tokenize_lparen s : tokenize (chr "(" :: s) = TLParen :: tokenize s.
Proof. done. Qed.
Lemma tokenize_rparen s : tokenize (chr ")" :: s) = TRParen :: tokenize s.
Proof. done. Qed.
Lemma tokenize_comma s : tokenize (chr "," :: s) = TComma :: tokenize s.
Proof. done. Qed.
Lemma tokenize_space s : tokenize (chr " " :: s) = tokenize s.
Proof. done. Qed.

Lemma tokenize_cons c s :
  ends_ident c = false →
  tokenize (c :: s) = ident_token (c :: (scan_ident s).1) :: tokenize (scan_ident s).2.
Proof.
  unfold ends_ident. intros [[[Hw H1]%orb_false_iff H2]%orb_false_iff H3]%orb_false_iff.
  unfold tokenize at 1. simpl. rewrite H1, H2, H3, Hw.
  pose proof (scan_ident_rest s). destruct (scan_ident s) as [w r]; simpl in *.
  f_equal. by apply tokenize_fuel.
Qed.

(** An identifier ends where a separator begins. *)
Lemma tokenize_app a b : breaks b → tokenize (a ++ b) = tokenize a ++ tokenize b.
Proof.
  intros Hb. remember (length a) as n eqn:Hn. revert a Hn.
  induction (lt_wf n) as [n _ IH]; intros [|c a] ->; [done|]. cbn [app].
  destruct (ends_ident c) eqn:Hc.
  - specialize (IH (length a) ltac:(simpl; lia) a eq_refl).
    unfold ends_ident in Hc. unfold tokenize in IH |- *. simpl. rewrite IH.
    destruct (is_whitespace c), (c =? chr "("), (c =? chr ")"), (c =? chr ","); done.
  - rewrite !tokenize_cons, scan_ident_app by done. cbn [fst snd app].
    pose proof (scan_ident_rest a). f_equal. eapply IH; [|done]. simpl. lia.
Qed.

Lemma tokenize_word w :
  w ≠ [] → Forall (λ c, ends_ident c = false) w → tokenize w = [ident_token w].
Proof.
  intros Hne Hw. destruct Hw as [|c w Hc Hw]; [done|].
  by rewrite tokenize_cons, scan_ident_word.
Qed.

(** ** The bits of a selection *)

Definition pcr_bit (bytes : list byte) (i : Z) : bool :=
  match bytes !! Z.to_nat (i / 8) with
  | Some b => Z.testbit (byte.unsigned b) (i mod 8)
  | None => false
  end.

Lemma lor_byte a b : 0 ≤ a < 2 ^ 8 → 0 ≤ b < 2 ^ 8 → 0 ≤ Z.lor a b < 2 ^ 8.
Proof.
  intros Ha Hb. assert (0 ≤ Z.lor a b) as Hn by (apply Z.lor_nonneg; lia). split; [done|].
  apply Z.log2_lt_cancel. rewrite Z.log2_lor by lia. change (Z.log2 (2 ^ 8)) with 8.
  destruct (Z.eq_dec a 0) as [->|], (Z.eq_dec b 0) as [->|]; try (simpl; lia);
    apply Z.max_lub_lt; try (simpl; lia); apply Z.log2_lt_pow2; lia.
Qed.

Lemma byte_set_bit b k :
  0 ≤ k < 8 →
  byte.unsigned (byte.of_Z (Z.lor (byte.unsigned b) (Z.shiftl 1 k))) = Z.lor (byte.unsigned b) (2 ^ k).
Proof.
  intros Hk. rewrite Z.shiftl_1_l. rewrite byte.unsigned_of_Z. apply Z.mod_small.
  apply (lor_byte _ _ (byte.unsigned_range b)). split; [lia|]. apply Z.pow_lt_mono_r; lia.
Qed.

Lemma pcr_bit_range bytes i : 0 ≤ i → pcr_bit bytes i = true → i < 8 * zlen bytes.
Proof.
  intros Hi. unfold pcr_bit. destruct (bytes !! _) as [b|] eqn:Hb; [|done]. intros _.
  apply lookup_lt_Some in Hb. pose proof (Z.div_mod i 8). unfold zlen. pose proof (Z.mod_pos_bound i 8). lia.
Qed.

(** A selection is determined by its bits. *)
Lemma pcr_bit_ext bytes1 bytes2 :
  length bytes1 = length bytes2 → (∀ i, 0 ≤ i → pcr_bit bytes1 i = pcr_bit bytes2 i) → bytes1 = bytes2.
Proof.
  intros Hl Hb. apply list_eq_same_length with (n := length bytes1); [done..|].
  intros i b1 b2 Hi H1 H2. rewrite <-(byte.of_Z_unsigned b1), <-(byte.of_Z_unsigned b2). f_equal.
  apply Z.bits_inj'. intros k Hk. pose proof (byte.unsigned_range b1). pose proof (byte.unsigned_range b2).
  destruct (Z.ltb_spec k 8).
  - specialize (Hb (Z.of_nat i * 8 + k) ltac:(lia)). unfold pcr_bit in Hb.
    rewrite Z.div_add_l, (Z.div_small k), Z.add_0_r, Nat2Z.id in Hb by lia.
    rewrite (Z.add_comm (_ * 8)), Z.mod_add, Z.mod_small in Hb by lia. by rewrite H1, H2 in Hb.
  - rewrite !Z.bits_above_log2; [done|lia| |lia|]; apply (Z.lt_le_trans _ 8); try lia.
    all: match goal with |- Z.log2 ?x < _ => destruct (Z.eq_dec x 0) as [->|]; [done|apply Z.log2_lt_pow2; lia] end.
Qed.

Lemma elem_of_byte_indices i j b :
  0 ≤ j → i ∈ byte_indices j b ↔ i / 8 = j ∧ Z.testbit (byte.unsigned b) (i mod 8) = true.
Proof.
  intros Hj. unfold byte_indices. rewrite list_elem_of_fmap. setoid_rewrite list_elem_of_filter.
  setoid_rewrite elem_of_seqZ. setoid_rewrite Z.shiftl_1_l.
  assert (∀ k, 0 ≤ k → Z.land (byte.unsigned b) (2 ^ k) ≠ 0 ↔ Z.testbit (byte.unsigned b) k = true) as Hbit.
  { intros k Hk. destruct (Z.testbit (byte.unsigned b) k) eqn:E; split; try done.
    - intros _ H0. apply (f_equal (λ z, Z.testbit z k)) in H0.
      by rewrite Z.land_spec, Z.pow2_bits_true, Z.bits_0, E in H0 by done.
    - intros Hne. exfalso. apply Hne. apply Z.bits_inj'. intros n Hn. rewrite Z.land_spec, Z.bits_0.
      rewrite Z.pow2_bits_eqb by done. destruct (Z.eqb_spec k n) as [->|]; [by rewrite E | apply andb_false_r]. }
  split.
  - intros (k & -> & Hk & Hr). apply Hbit in Hk; [|lia].
    rewrite Z.div_add_l, (Z.div_small k) by lia. rewrite (Z.add_comm (_ * 8)), Z.mod_add, Z.mod_small by lia. by split; [lia|].
  - intros [Hd Hb]. exists (i mod 8). pose proof (Z.div_mod i 8 ltac:(lia)). pose proof (Z.mod_pos_bound i 8 ltac:(lia)).
    split; [lia|]. split; [by apply Hbit; [lia|] | lia].
Qed.

Lemma elem_of_pcr_indices bytes i : i ∈ pcr_indices bytes ↔ 0 ≤ i ∧ pcr_bit bytes i = true.
Proof.
  unfold pcr_indices, pcr_bit. rewrite list_elem_of_In, in_concat. setoid_rewrite <-list_elem_of_In.
  setoid_rewrite elem_of_lookup_imap. split.
  - intros (l & (n & b & -> & Hb) & Hi). apply elem_of_byte_indices in Hi as [Hd Ht]; [|lia].
    assert (0 ≤ i) by (pose proof (Z.div_mod i 8); pose proof (Z.mod_pos_bound i 8); lia).
    split; [done|]. by rewrite Hd, Nat2Z.id, Hb.
  - intros [Hi Hb]. destruct (bytes !! Z.to_nat (i / 8)) as [b|] eqn:E; [|done].
    pose proof (Z.div_pos i 8). eexists. split; [by exists (Z.to_nat (i / 8)), b|].
    apply elem_of_byte_indices; [lia|]. by rewrite Z2Nat.id by lia.
Qed.

Lemma pcr_bit_zeroed n i : pcr_bit (TpmHash.zeroed n) i = false.
Proof.
  unfold pcr_bit, TpmHash.zeroed. destruct (replicate _ _ !! _) as [b|] eqn:E; [|done].
  apply lookup_replicate in E as [-> _]. apply Z.bits_0.
Qed.

Lemma pcr_bit_insert bytes i j b :
  0 ≤ i → 0 ≤ j → bytes !! Z.to_nat (i / 8) = Some b →
  pcr_bit (<[Z.to_nat (i / 8) := byte.of_Z (Z.lor (byte.unsigned b) (Z.shiftl 1 (i mod 8)))]> bytes) j =
  (i =? j) || pcr_bit bytes j.
Proof.
  intros Hi Hj Hb. pose proof (Z.div_pos i 8 Hi ltac:(lia)). pose proof (Z.div_pos j 8 Hj ltac:(lia)).
  pose proof (Z.mod_pos_bound i 8). pose proof (Z.mod_pos_bound j 8).
  pose proof (Z.div_mod i 8). pose proof (Z.div_mod j 8). unfold pcr_bit.
  destruct (decide (Z.to_nat (i / 8) = Z.to_nat (j / 8))) as [He|Hne].
  - rewrite <-He, list_lookup_insert_eq, Hb by by eapply lookup_lt_Some.
    rewrite byte_set_bit, Z.lor_spec, Z.pow2_bits_eqb by lia. rewrite orb_comm. f_equal.
    destruct (Z.eqb_spec (i mod 8) (j mod 8)); lia.
  - rewrite list_lookup_insert_ne by done. destruct (Z.eqb_spec i j) as [->|]; [done|reflexivity].
Qed.

Section selection.
Context `{TextLib}.
Variable context : TpmPolicyContext.t.
Local Abbreviation pcr_count := (TpmPolicyContext.pcr_count context).

(** The bits set are the old ones and those of the indices. *)
Lemma set_pcr_bits_spec indices bytes :
  Forall (λ i, 0 ≤ i) indices → pcr_count ≤ 8 * zlen bytes →
  match set_pcr_bits context indices bytes with
  | Ok bytes' =>
      length bytes' = length bytes ∧ Forall (λ i, i < pcr_count) indices ∧
      ∀ j, 0 ≤ j → pcr_bit bytes' j = bool_decide (j ∈ indices) || pcr_bit bytes j
  | Err e => e = TpmPolicyError.PcrIndexTooLarge ∧ ¬ Forall (λ i, i < pcr_count) indices
  | Panic => False
  end.
Proof.
  intros Hi. revert bytes; induction Hi as [|i indices Hi _ IH]; intros bytes Hl; cbn [set_pcr_bits]; [done|].
  destruct (Z.leb_spec pcr_count i) as [Hc|Hc].
  { split; [done|]. intros Hf%Forall_cons_1. lia. }
  destruct (lookup_lt_is_Some_2 bytes (Z.to_nat (i / 8))) as [b Hb].
  { unfold zlen in Hl. pose proof (Z.div_pos i 8). assert (i / 8 < Z.of_nat (length bytes)); [|lia].
    apply Z.div_lt_upper_bound; lia. }
  rewrite Hb. cbn [or_panic result_bind].
  specialize (IH (<[Z.to_nat (i / 8) := byte.of_Z (Z.lor (byte.unsigned b) (Z.shiftl 1 (i mod 8)))]> bytes)).
  unfold zlen in *. rewrite length_insert in IH. specialize (IH Hl).
  destruct (set_pcr_bits context indices _) as [bytes'|e|]; [| |done].
  - destruct IH as (Hlen & Hf & Hbit). split_and!; [done | by constructor |].
    intros j Hj. rewrite Hbit, (pcr_bit_insert bytes i j b) by done. rewrite orb_assoc. f_equal.
    rewrite orb_comm. destruct (Z.eqb_spec i j) as [->|Hne]; simpl.
    + by rewrite bool_decide_eq_true_2 by by left.
    + apply bool_decide_ext. rewrite elem_of_cons. split; [by right | by intros [->|?]].
  - destruct IH as [-> Hf]. split; [done|]. intros [_ Hall]%Forall_cons_1. by apply Hf.
Qed.

(** Setting the indices of a selection gives the selection. *)
Lemma set_pcr_bits_indices bytes :
  forallb (λ i, i <? pcr_count) (pcr_indices bytes) = true → pcr_count ≤ 8 * zlen bytes →
  set_pcr_bits context (pcr_indices bytes) (TpmHash.zeroed (zlen bytes)) = Ok bytes.
Proof.
  intros Hlt Hl.
  assert (Forall (λ i, 0 ≤ i) (pcr_indices bytes)) as Hi.
  { apply list.Forall_forall. intros i Hin%elem_of_pcr_indices. apply Hin. }
  assert (length (TpmHash.zeroed (zlen bytes)) = length bytes) as Hz.
  { unfold TpmHash.zeroed, zlen. by rewrite length_replicate, Nat2Z.id. }
  assert (zlen (TpmHash.zeroed (zlen bytes)) = zlen bytes) as Hz' by (unfold zlen at 1; by rewrite Hz).
  pose proof (set_pcr_bits_spec (pcr_indices bytes) (TpmHash.zeroed (zlen bytes)) Hi ltac:(lia)) as Hs.
  destruct (set_pcr_bits context (pcr_indices bytes) _) as [bytes'|e|]; [| |done].
  - destruct Hs as (Hlen & _ & Hbit). f_equal. apply pcr_bit_ext; [congruence|].
    intros j Hj. rewrite Hbit, pcr_bit_zeroed, orb_false_r by done.
    destruct (pcr_bit bytes j) eqn:Hb; [apply bool_decide_eq_true_2 | apply bool_decide_eq_false_2];
      rewrite elem_of_pcr_indices; [done|]. intros [_ ?]. congruence.
  - destruct Hs as [_ []]. apply list.Forall_forall. intros i Hin.
    rewrite forallb_forall in Hlt. apply list_elem_of_In in Hin. specialize (Hlt i Hin). simpl in Hlt. lia.
Qed.

(** ** The expressions that can be printed and read back *)

Local Abbreviation pcr_select_size := (TpmHash.div_ceil pcr_count 8).

(** A bank of the context, with at least one PCR, all of which exist. *)
Definition selection_printable (selection : ty TpmsPcrSelection) : bool :=
  let bytes := select_bytes (TpmsPcrSelection.pcr_select selection) in
  is_ok (TpmHash.try_from (TpmsPcrSelection.hash selection)) &&
  bool_decide (is_Some (TpmPolicyContext.pcrs context !! TpmsPcrSelection.hash selection)) &&
  (zlen bytes =? pcr_select_size) &&
  forallb (λ i, i <? pcr_count) (pcr_indices bytes) &&
  negb (bool_decide (pcr_indices bytes = [])).

Definition selections_printable (selections : ty TpmlPcrSelection) : bool :=
  bool_decide (is_Some (wire TpmlPcrSelection selections)) &&
  negb (bool_decide (TpmList.deref selections = [])) &&
  forallb selection_printable (TpmList.deref selections).

(** The Rust type's invariant. *)
Definition digest_valid (d : ty Tpm2bDigest) : bool :=
  bool_decide (TpmBuffer.try_from MAX_DIGEST_SIZE (TpmBuffer.deref d) = Ok d).

Definition is_or (e : t) : bool := match e with Or _ => true | _ => false end.

(** At least two operands; a leading operand of the same kind would be
    merged by the parser. *)
Definition operands_printable (same : t → bool) (es : list t) : bool :=
  match es with
  | e :: _ :: _ => negb (same e)
  | _ => false
  end.

Definition node_printable (e : t) : bool :=
  match e with
  | Pcr selections digest => selections_printable selections && default true (digest_valid <$> digest)
  | Secret _ None => true
  | Secret _ (Some ref) => digest_valid ref && negb (bool_decide (TpmBuffer.deref ref = []))
  | And es => operands_printable is_and es
  | Or es => operands_printable is_or es
  | Handle handle =>
      (length (TpmInt.bytes handle) =? 4)%nat &&
      is_ok (try_from TpmHt.t (Z.shiftr (TpmInt.value 4 false handle) 24))
  end.
Definition printable (e : t) : bool := every node_printable e.
End selection.

(** ** The text inside [pcr(...)] *)

Lemma scan_ident_spec s :
  s = (scan_ident s).1 ++ (scan_ident s).2 ∧ Forall (λ c, ends_ident c = false) (scan_ident s).1 ∧
  breaks (scan_ident s).2.
Proof.
  induction s as [|c s (IH1 & IH2 & IH3)]; simpl; [by repeat split|].
  destruct (ends_ident c) eqn:Hc; [by repeat split|].
  destruct (scan_ident s) as [w r]; simpl in *. split_and!; [by f_equal | by constructor | done].
Qed.

(** Every part between commas has a digit, so none is a keyword. *)
Fixpoint parts_ok (seen : bool) (s : str) : bool :=
  match s with
  | [] => seen
  | c :: s => if c =? chr "," then seen && parts_ok false s else parts_ok (seen || is_dec_char c) s
  end.

Definition pcr_char (c : Z) : Prop :=
  is_whitespace c = false ∧ c ≠ chr "(" ∧ c ≠ chr ")".

Lemma parts_ok_word seen w t :
  chr "," ∉ w → parts_ok seen (w ++ t) = parts_ok (seen || existsb is_dec_char w) t.
Proof.
  revert seen; induction w as [|c w IH]; intros seen; simpl; [by rewrite orb_false_r|].
  intros [Hc Hw]%not_elem_of_cons. rewrite (proj2 (Z.eqb_neq _ _)) by done.
  by rewrite IH, orb_assoc.
Qed.

Lemma ident_token_digit w : existsb is_dec_char w = true → ident_token w = TIdent w.
Proof. intros Hd. unfold ident_token. do 2 (case_decide; [by subst|]). done. Qed.

Lemma pcr_text_tokens `{TextLib} s rest buf :
  parts_ok false s = true → Forall pcr_char s →
  pcr_text (tokenize s ++ TRParen :: rest) buf = Ok (buf ++ s, rest).
Proof.
  remember (length s) as n eqn:Hn. revert s buf Hn.
  induction (lt_wf n) as [n _ IH]; intros [|c s] buf -> Hp Hs; [done|].
  destruct (ends_ident c) eqn:Hc.
  { exfalso. apply Forall_cons_1 in Hs as [(Hw & H1 & H2) _]. unfold ends_ident in Hc. rewrite Hw in Hc.
    simpl in Hp. destruct (c =? chr ","); [done|]. simpl in Hc. lia. }
  rewrite tokenize_cons by done. destruct (scan_ident_spec s) as (Heq & Hw & Hr).
  destruct (scan_ident s) as [w r]; simpl in Heq, Hw, Hr |- *. subst s.
  assert (chr "," ∉ c :: w) as Hcomma.
  { intros Hin. assert (Forall (λ c, ends_ident c = false) (c :: w)) as Hall by by constructor.
    rewrite list.Forall_forall in Hall. by specialize (Hall _ Hin). }
  change (c :: w ++ r) with ((c :: w) ++ r) in *. rewrite parts_ok_word in Hp by done. simpl orb in Hp.
  apply Forall_app in Hs as [_ Hs]. destruct r as [|c' r].
  - rewrite ident_token_digit by done. simpl. by rewrite app_nil_r.
  - assert (c' = chr ",") as ->.
    { apply Forall_cons_1 in Hs as [(Hw' & H1 & H2) _]. simpl in Hr. unfold ends_ident in Hr.
      rewrite Hw' in Hr. simpl in Hr. lia. }
    simpl in Hp. apply andb_true_iff in Hp as [Hd Hp]. rewrite ident_token_digit by done.
    rewrite tokenize_comma. simpl. apply Forall_cons_1 in Hs as [_ Hs].
    rewrite (IH (length r)); [|simpl; rewrite length_app; simpl; lia|done..].
    by rewrite <-!(assoc_L (++)).
Qed.

(** ** Printed selections *)

Section printed.
Context `{TextLibOk}.
Variable context : TpmPolicyContext.t.
Local Abbreviation pcr_count := (TpmPolicyContext.pcr_count context).
Local Abbreviation pcr_select_size := (TpmHash.div_ceil pcr_count 8).

(** The indices of a selection, as they are printed. *)
Definition indices_to_string (bytes : list byte) : str :=
  join (lit ",") (map u32_to_string (pcr_indices bytes)).

Lemma indices_pos bytes : Forall (λ i, 0 ≤ i) (pcr_indices bytes).
Proof using Type. apply list.Forall_forall. intros i Hin%elem_of_pcr_indices. apply Hin. Qed.

Lemma u32_to_string_not c i : 0 ≤ i → is_dec_char c = false → c ∉ u32_to_string i.
Proof using Type.
  intros Hi Hc Hin. pose proof (decimal_chars 10 i Hi) as Hd. rewrite list.Forall_forall in Hd.
  specialize (Hd c Hin). simpl in Hd. congruence.
Qed.

Lemma indices_to_string_not c bytes :
  is_dec_char c = false → c ≠ chr "," → c ∉ indices_to_string bytes.
Proof using Type.
  intros Hc Hcomma [Hin|(p & Hp & Hin)]%elem_of_join; [by apply list_elem_of_singleton in Hin|].
  apply list_elem_of_In, in_map_iff in Hp as (i & <- & Hi%list_elem_of_In).
  pose proof (indices_pos bytes) as Hpos. rewrite list.Forall_forall in Hpos.
  exact (u32_to_string_not c i (Hpos i Hi) Hc Hin).
Qed.

Lemma hash_to_string_not c h : is_name_char c = false → c ∉ hash_to_string h.
Proof using Type*.
  intros Hc Hin. pose proof (hash_chars h) as Hd. rewrite list.Forall_forall in Hd.
  specialize (Hd c Hin). simpl in Hd. congruence.
Qed.

Lemma hex_encode_not c bs : is_hex_char c = false → c ∉ hex_encode bs.
Proof using Type*.
  intros Hc Hin. pose proof (hex_encode_chars bs) as Hd. rewrite list.Forall_forall in Hd.
  specialize (Hd c Hin). simpl in Hd. congruence.
Qed.

(** The indices are parsed back. *)
Lemma mapM_indices indices :
  Forall (λ i, 0 ≤ i ≤ u32_max) indices →
  mapM (λ s, from_str_radix u32_max s 10) (map u32_to_string indices) = Some indices.
Proof using Type.
  induction 1 as [|i indices Hi _ IH]; [done|]. cbn [map mapM].
  rewrite u32_to_string_parse by done. cbn [mbind option_bind]. by rewrite IH.
Qed.

Lemma split_indices bytes :
  pcr_indices bytes ≠ [] →
  split (chr ",") (indices_to_string bytes) = map u32_to_string (pcr_indices bytes).
Proof using Type.
  intros Hne. apply (split_join (chr ",")); [by destruct (pcr_indices bytes)|].
  apply Forall_map. eapply list.Forall_impl; [apply indices_pos|]. intros i Hi.
  by apply u32_to_string_not.
Qed.

Lemma selection_printable_inv selection :
  selection_printable context selection = true →
  ∃ h bytes, TpmsPcrSelection.hash selection = TpmHash.to_alg h ∧
    select_bytes (TpmsPcrSelection.pcr_select selection) = bytes ∧
    is_Some (TpmPolicyContext.pcrs context !! TpmHash.to_alg h) ∧ zlen bytes = pcr_select_size ∧
    forallb (λ i, i <? pcr_count) (pcr_indices bytes) = true ∧ pcr_indices bytes ≠ [].
Proof using Type.
  unfold selection_printable.
  intros [[[[Hh Hb]%andb_true_iff Hl]%andb_true_iff Hi]%andb_true_iff Hn]%andb_true_iff.
  destruct (TpmHash.try_from _) as [h| |] eqn:Ht; [|done..]. apply try_from_to_alg in Ht as Ha.
  apply bool_decide_eq_true in Hb. rewrite negb_true_iff, bool_decide_eq_false in Hn.
  eexists h, _. rewrite <-Ha in Hb |- *. split_and!; [done..|lia|done|done].
Qed.

Lemma selection_to_string_eq selection h :
  TpmsPcrSelection.hash selection = TpmHash.to_alg h →
  selection_to_string selection =
    hash_to_string h ++ chr ":" :: indices_to_string (select_bytes (TpmsPcrSelection.pcr_select selection)).
Proof using Type.
  intros Hh. unfold selection_to_string, alg_to_string. rewrite Hh.
  by rewrite (proj2 (try_from_to_alg _ h)).
Qed.

Lemma parse_printed_selection selection :
  selection_printable context selection = true →
  TpmsPcrSelect.try_from (select_bytes (TpmsPcrSelection.pcr_select selection)) =
    Ok (TpmsPcrSelection.pcr_select selection) →
  parse_selection_part context pcr_select_size (selection_to_string selection) = Ok selection.
Proof using Type*.
  intros (h & bytes & Hh & Hb & Hbank & Hl & Hi & Hn)%selection_printable_inv Ht.
  rewrite (selection_to_string_eq _ h), Hb by done. rewrite Hb in Ht. unfold parse_selection_part.
  rewrite split_once_app by by apply hash_to_string_not. cbn [ok_or result_bind].
  rewrite hash_from_to_string. cbn [ok_or result_bind].
  destruct Hbank as [bank Hbank]. rewrite Hbank, bool_decide_eq_false_2 by done.
  rewrite split_indices, mapM_indices; [|..|done].
  - cbn [ok_or result_bind]. rewrite <-Hl, set_pcr_bits_indices; [|done|].
    + cbn [result_bind]. rewrite Ht. cbn [map_err result_bind]. rewrite <-Hh. by destruct selection.
    + rewrite Hl. pose proof (zlen_nonneg bytes). unfold TpmHash.div_ceil in *.
      pose proof (Z.div_mod (pcr_count + 8 - 1) 8). pose proof (Z.mod_pos_bound (pcr_count + 8 - 1) 8). lia.
  - apply pcr_try_from_bound in Ht. unfold TPM_PCR_SELECT_MAX in Ht.
    apply list.Forall_forall. intros i [Hi0 Hbit]%elem_of_pcr_indices.
    apply pcr_bit_range in Hbit; [|done]. unfold u32_max. lia.
Qed.

Lemma printed_selection_not c selection :
  selection_printable context selection = true → is_name_char c = false → c ≠ chr ":" → c ≠ chr "," →
  c ∉ selection_to_string selection.
Proof using Type*.
  intros (h & bytes & Hh & _)%selection_printable_inv Hc Hcolon Hcomma.
  rewrite (selection_to_string_eq _ h) by done.
  assert (is_dec_char c = false) as Hd.
  { unfold is_name_char in Hc. unfold is_dec_char. by apply orb_false_iff in Hc as [[-> _]%orb_false_iff _]. }
  rewrite not_elem_of_app, not_elem_of_cons. split_and!; [by apply hash_to_string_not|done|].
  by apply indices_to_string_not.
Qed.

(** The selections of a list that can be marshalled. *)
Lemma selections_hold selections :
  is_Some (wire TpmlPcrSelection selections) →
  TpmList.holds 8 selections (TpmList.deref selections) ∧
  ∀ selection, selection ∈ TpmList.deref selections →
    TpmsPcrSelect.try_from (select_bytes (TpmsPcrSelection.pcr_select selection)) =
      Ok (TpmsPcrSelection.pcr_select selection).
Proof using Type.
  intros [bs (vs & bss & Hh & He & _)%(list_wire_Some TpmsPcrSelection 8 ltac:(done))].
  rewrite (list_holds_deref 8 _ vs Hh). split; [done|]. intros selection Hin.
  apply list_elem_of_lookup in Hin as [i Hi]. eapply Forall2_lookup_l in He as (b & _ & Hw); [|exact Hi].
  apply wcat_Some in Hw as (b1 & b2 & _ & Hw & _). apply pcr_wire_Some in Hw as (xs & Ht & _).
  pose proof (pcr_try_from_bound _ _ Ht) as Hb. destruct (pcr_try_from_Ok xs Hb) as (p & Ht' & _ & Hd).
  rewrite Ht in Ht'. injection Ht' as Heq. unfold select_bytes.
  change (TpmsPcrSelection.pcr_select selection = p) in Heq. rewrite Heq, Hd. rewrite <-Heq. exact Ht.
Qed.

Lemma parse_printed_parts sels l xs :
  (∀ sel, sel ∈ sels → parse_selection_part context pcr_select_size (selection_to_string sel) = Ok sel) →
  TpmList.holds 8 l xs → zlen xs + zlen sels ≤ 8 →
  ∃ l', parse_selection_parts context pcr_select_size (map selection_to_string sels) l = Ok l' ∧
    TpmList.holds 8 l' (xs ++ sels).
Proof using Type.
  revert l xs; induction sels as [|sel sels IH]; intros l xs Hp Hl Hlen; cbn [map parse_selection_parts].
  - exists l. by rewrite app_nil_r.
  - rewrite Hp by by left. cbn [result_bind]. pose proof (zlen_nonneg sels).
    assert (zlen (sel :: sels) = 1 + zlen sels) as Hcons by (unfold zlen; cbn [length]; lia).
    pose proof (list_try_push_spec 8 l xs sel Hl) as Hpush.
    rewrite decide_True in Hpush by lia. destruct Hpush as (l1 & -> & Hl1). cbn [map_err result_bind].
    destruct (IH l1 (xs ++ [sel])) as (l' & Hl' & Hh).
    + intros sel' ?. apply Hp. by right.
    + done.
    + rewrite zlen_app. change (zlen [sel]) with 1. lia.
    + exists l'. rewrite <-(assoc_L (++)) in Hh. done.
Qed.

Lemma selections_printable_inv selections :
  selections_printable context selections = true →
  is_Some (wire TpmlPcrSelection selections) ∧ TpmList.deref selections ≠ [] ∧
  ∀ sel, sel ∈ TpmList.deref selections → selection_printable context sel = true.
Proof using Type.
  unfold selections_printable. intros [[Hw Hn]%andb_true_iff Hf]%andb_true_iff.
  apply bool_decide_eq_true in Hw. rewrite negb_true_iff, bool_decide_eq_false in Hn.
  split_and!; [done..|]. intros sel Hin. rewrite forallb_forall in Hf. by apply Hf, list_elem_of_In.
Qed.

Lemma parse_printed_selections selections :
  selections_printable context selections = true →
  parse_tpml_pcr_selection_str context (selections_to_string selections) = Ok selections.
Proof using Type*.
  intros (Hw & Hn & Hp)%selections_printable_inv. destruct (selections_hold selections Hw) as [Hh Ht].
  assert (∀ sel, sel ∈ TpmList.deref selections →
    parse_selection_part context pcr_select_size (selection_to_string sel) = Ok sel) as Hparse.
  { intros sel Hin. apply parse_printed_selection; auto. }
  unfold parse_tpml_pcr_selection_str.
  destruct (Z.ltb_spec TPM_PCR_SELECT_MAX pcr_select_size) as [Hbig|_].
  { exfalso. destruct (TpmList.deref selections) as [|sel sels]; [done|].
    specialize (Ht sel ltac:(by left)). specialize (Hp sel ltac:(by left)).
    apply pcr_try_from_bound in Ht. apply selection_printable_inv in Hp as (_ & bytes & _ & Hb & _ & Hl & _).
    rewrite Hb in Ht. lia. }
  unfold selections_to_string. change (lit "+") with [chr "+"]. rewrite split_join.
  - destruct (parse_printed_parts (TpmList.deref selections) (TpmList.new 8) []) as (l' & -> & Hl').
    + done.
    + by apply list_new_holds.
    + destruct Hh as [_ [Hle _]]. exact Hle.
    + f_equal. by eapply list_holds_inj.
  - by destruct (TpmList.deref selections).
  - apply Forall_map, list.Forall_forall. intros sel Hin. apply printed_selection_not; auto.
Qed.

Lemma parts_ok_index seen i t : 0 ≤ i → parts_ok seen (u32_to_string i ++ t) = parts_ok true t.
Proof using Type.
  intros Hi. rewrite parts_ok_word by by apply u32_to_string_not. f_equal.
  pose proof (decimal_chars 10 i Hi) as Hd. pose proof (decimal_nonempty 10 i ltac:(lia)) as Hne.
  unfold u32_to_string. destruct Hd as [|c w Hc _]; [done|]. simpl. rewrite Hc. by rewrite orb_true_r.
Qed.

(** A list of parts with separators: it is enough that each part is. *)
Lemma parts_ok_join {A} (print : A → str) c xs seen t :
  c = chr "," ∨ is_dec_char c = false →
  xs ≠ [] → (∀ x seen t, x ∈ xs → parts_ok seen (print x ++ t) = parts_ok true t) →
  parts_ok seen (join [c] (map print xs) ++ t) = parts_ok true t.
Proof using Type.
  intros Hc. revert seen; induction xs as [|x xs IH]; intros seen Hne Hp; [done|].
  destruct xs as [|y xs]; [apply Hp; by left|].
  change (join [c] (map print (x :: y :: xs))) with (print x ++ c :: join [c] (map print (y :: xs))).
  rewrite <-(assoc_L (++)), Hp by by left. cbn [app parts_ok].
  assert (∀ s, parts_ok s (join [c] (map print (y :: xs)) ++ t) = parts_ok true t) as HI.
  { intros s. apply IH; [done|]. intros. apply Hp. by right. }
  rewrite !HI. by destruct (c =? chr ",").
Qed.

Lemma parts_ok_selections seen selections t :
  selections_printable context selections = true →
  parts_ok seen (selections_to_string selections ++ t) = parts_ok true t.
Proof using Type*.
  intros (_ & Hne & Hp)%selections_printable_inv.
  apply (parts_ok_join _ (chr "+")); [by right | done |]. intros sel seen' t' Hin.
  apply Hp in Hin. apply selection_printable_inv in Hin as (h & bytes & Hh & Hb & _ & _ & _ & Hn).
  rewrite (selection_to_string_eq _ h), Hb by done. rewrite <-(assoc_L (++)).
  rewrite parts_ok_word by by apply hash_to_string_not. cbn [app parts_ok].
  change (chr ":" =? chr ",") with false. cbv iota.
  apply (parts_ok_join _ (chr ",")); [by left | done |]. intros i seen'' t'' Hi.
  apply parts_ok_index. pose proof (indices_pos bytes) as Hpos. rewrite list.Forall_forall in Hpos. by apply Hpos.
Qed.

Lemma pcr_char_range c : 0x2b ≤ c ≤ 0x7a → pcr_char c.
Proof using Type.
  intros Hc. unfold pcr_char. change (chr "(") with 0x28. change (chr ")") with 0x29.
  split; [unfold is_whitespace|]; lia.
Qed.

Lemma selections_chars selections :
  selections_printable context selections = true → Forall pcr_char (selections_to_string selections).
Proof using Type*.
  intros (_ & _ & Hp)%selections_printable_inv. apply list.Forall_forall. intros c Hin.
  apply elem_of_join in Hin as [->%list_elem_of_singleton|(p & Hin & Hc)]; [done|].
  apply list_elem_of_In, in_map_iff in Hin as (sel & <- & Hin%list_elem_of_In).
  assert (is_name_char c = true ∨ c = chr ":" ∨ c = chr ",") as Hd.
  { destruct (is_name_char c) eqn:E; [by left|]. right.
    destruct (decide (c = chr ":")); [by left|]. destruct (decide (c = chr ",")); [by right|].
    exfalso. by eapply (printed_selection_not c sel); [apply Hp| | | |]. }
  destruct Hd as [Hd|[->| ->]]; [|done..].
  apply pcr_char_range. unfold is_name_char in Hd. change (chr "-") with 0x2d in Hd. lia.
Qed.

Lemma hex_pcr_char bs : Forall pcr_char (hex_encode bs).
Proof using Type*.
  eapply list.Forall_impl; [apply hex_encode_chars|]. intros c Hd.
  apply pcr_char_range. unfold is_hex_char in Hd. lia.
Qed.

(** [pcr(...)] with a digest, and without one. *)
Lemma pcr_with_printed_digest selections d :
  selections_printable context selections = true → digest_valid d = true →
  pcr_with_digest context (selections_to_string selections ++ chr ":" :: hex_encode (TpmBuffer.deref d)) =
    Some (Pcr selections (Some d)).
Proof using Type*.
  intros Hs Hd%bool_decide_eq_true. unfold pcr_with_digest.
  rewrite rsplit_once_app by by apply hex_encode_not. cbn [mbind option_bind].
  rewrite parse_printed_selections, hex_decode_encode by done. cbn [mbind option_bind]. by rewrite Hd.
Qed.

Lemma join_snoc_app (sep : str) ps a b : join sep (ps ++ [a ++ b]) = join sep (ps ++ [a]) ++ b.
Proof using Type.
  induction ps as [|p ps IH]; [done|]. cbn [app]. destruct ps as [|q ps]; simpl in *.
  - by rewrite <-!(assoc_L (++)).
  - rewrite IH. by rewrite <-!(assoc_L (++)).
Qed.

Lemma parse_parts_no_colon part parts l l' :
  part ∈ parts → chr ":" ∉ part → parse_selection_parts context pcr_select_size parts l ≠ Ok l'.
Proof using Type.
  intros Hin Hc. revert l; induction parts as [|p parts IH]; intros l; [by apply elem_of_nil in Hin|].
  cbn [parse_selection_parts]. apply elem_of_cons in Hin as [->|Hin].
  - unfold parse_selection_part. by rewrite split_once_none.
  - destruct (parse_selection_part context pcr_select_size p); cbn [result_bind]; [|done..].
    destruct (map_err _ _); cbn [result_bind]; [by apply IH | done..].
Qed.

Lemma pcr_without_printed_digest selections :
  selections_printable context selections = true →
  pcr_with_digest context (selections_to_string selections) = None.
Proof using Type*.
  intros (_ & Hne & Hp)%selections_printable_inv. unfold selections_to_string.
  destruct (TpmList.deref selections) as [|sel sels _] using rev_ind; [done|].
  pose proof (Hp sel ltac:(apply elem_of_app; right; by left)) as Hsel.
  apply selection_printable_inv in Hsel as (h & bytes & Hh & Hb & _).
  rewrite map_app. cbn [map]. rewrite (selection_to_string_eq _ h), Hb by done.
  rewrite join_snoc_app. unfold pcr_with_digest. rewrite rsplit_once_app by by apply indices_to_string_not.
  cbn [mbind option_bind].
  destruct (parse_tpml_pcr_selection_str _ _) as [l'|e|] eqn:Hparse; [|done..]. exfalso.
  unfold parse_tpml_pcr_selection_str in Hparse. destruct (TPM_PCR_SELECT_MAX <? _); [done|].
  change (lit "+") with [chr "+"] in Hparse. rewrite split_join in Hparse.
  - revert Hparse. apply (parse_parts_no_colon (hash_to_string h)); [apply elem_of_app; right; by left|].
    by apply hash_to_string_not.
  - by intros [_ ?]%app_nil.
  - apply Forall_app. split; [|constructor; [by apply hash_to_string_not|done]].
    apply Forall_map, list.Forall_forall. intros sel' Hin. apply printed_selection_not; [|done..].
    apply Hp, elem_of_app. by left.
Qed.

(** ** The tokens of an expression *)

Definition tokens (e : t) : list Token := tokenize (to_string e).

Definition pcr_content (selections : ty TpmlPcrSelection) (d : option (ty Tpm2bDigest)) : str :=
  selections_to_string selections ++
  match d with Some d => chr ":" :: hex_encode (TpmBuffer.deref d) | None => [] end.

Lemma tokens_pcr selections d :
  tokens (Pcr selections d) =
    TIdent (lit "pcr") :: TLParen :: tokenize (pcr_content selections d) ++ [TRParen].
Proof using Type.
  unfold tokens. cbn [to_string]. change (lit "pcr(") with (lit "pcr" ++ [chr "("]).
  rewrite <-(assoc_L (++)). cbn [app]. rewrite tokenize_app by done. rewrite tokenize_lparen.
  rewrite (assoc_L (++)). change (lit ":") with [chr ":"]. cbn [app].
  fold (pcr_content selections d). rewrite tokenize_app by done. done.
Qed.

Definition copy_ref_ident (d : ty Tpm2bDigest) : str := lit "copy_ref:" ++ hex_encode (TpmBuffer.deref d).

Lemma not_ends_ident c : 0x2b ≤ c ≤ 0x7a → c ≠ chr "," → ends_ident c = false.
Proof using Type.
  intros Hc Hcomma. destruct (pcr_char_range c Hc) as (Hw & H3 & H4). unfold ends_ident. rewrite Hw. lia.
Qed.

Lemma hex_not_ends bs : Forall (λ c, ends_ident c = false) (hex_encode bs).
Proof using Type*.
  eapply list.Forall_impl; [apply hex_encode_chars|]. intros c Hd. unfold is_hex_char in Hd.
  apply not_ends_ident; [lia|]. change (chr ",") with 0x2c. lia.
Qed.

Lemma tokens_copy_ref d : tokenize (copy_ref_ident d) = [TIdent (copy_ref_ident d)].
Proof using Type*.
  rewrite tokenize_word; [done..|]. apply Forall_app. split; [by repeat constructor | apply hex_not_ends].
Qed.

Lemma tokens_secret auth ref :
  tokens (Secret auth ref) =
    TIdent (lit "secret") :: TLParen :: tokens auth ++
    match ref with Some d => [TComma; TIdent (copy_ref_ident d)] | None => [] end ++ [TRParen].
Proof using Type*.
  unfold tokens. cbn [to_string]. change (lit "secret(") with (lit "secret" ++ [chr "("]).
  rewrite <-(assoc_L (++)). cbn [app]. rewrite tokenize_app by done. rewrite tokenize_lparen.
  rewrite tokenize_app by by destruct ref. destruct ref as [d|]; [|done].
  change (lit ", copy_ref:" ++ hex_encode (TpmBuffer.deref d)) with
    (chr "," :: chr " " :: copy_ref_ident d).
  cbn [app]. rewrite tokenize_comma, tokenize_space, tokenize_app, tokens_copy_ref by done. done.
Qed.

Lemma tokens_handle handle :
  tokens (Handle handle) = [TIdent (hex_digits 8 (TpmInt.value 4 false handle))].
Proof using Type.
  unfold tokens. cbn [to_string]. set (w := hex_digits 8 _).
  assert (length w = 8%nat) as Hl by apply length_hex_digits.
  rewrite tokenize_word; [|by destruct w|].
  - clearbody w. unfold ident_token. do 2 (case_decide; [by subst w|]). done.
  - eapply list.Forall_impl; [apply hex_digits_chars|]. intros c Hd. unfold is_hex_char in Hd.
    apply not_ends_ident; [lia|]. change (chr ",") with 0x2c. lia.
Qed.

(** Operands after the first, each behind its operator. *)
Definition more_tokens (op : Token) (es : list t) : list Token := concat (map (λ e, op :: tokens e) es).

Lemma tokenize_operands (sep : str) op e es :
  breaks sep → (∀ s, tokenize (sep ++ s) = op :: tokenize s) →
  tokenize (join sep (map to_string (e :: es))) = tokens e ++ more_tokens op es.
Proof using Type.
  intros Hb Hop. revert e; induction es as [|e' es IH]; intros e; [by rewrite app_nil_r|].
  change (join sep (map to_string (e :: e' :: es))) with
    (to_string e ++ sep ++ join sep (map to_string (e' :: es))).
  destruct sep as [|c sep]; [by specialize (Hop []); discriminate Hop|].
  rewrite tokenize_app by done. rewrite Hop, IH. done.
Qed.

Lemma tokenize_operator (sep : str) s : tokenize (sep ++ chr " " :: s) = tokenize sep ++ tokenize s.
Proof using Type. by rewrite tokenize_app, tokenize_space. Qed.

Lemma tokens_and e es : tokens (And (e :: es)) = TLParen :: (tokens e ++ more_tokens TAnd es) ++ [TRParen].
Proof using Type.
  unfold tokens at 1. cbn [to_string]. change (lit "(") with [chr "("]. cbn [app].
  rewrite tokenize_lparen, tokenize_app by done. rewrite (tokenize_operands _ TAnd); [done..|].
  intros s. apply (tokenize_operator (lit " and")).
Qed.

Lemma tokens_or e es : tokens (Or (e :: es)) = TLParen :: (tokens e ++ more_tokens TOr es) ++ [TRParen].
Proof using Type.
  unfold tokens at 1. cbn [to_string]. change (lit "(") with [chr "("]. cbn [app].
  rewrite tokenize_lparen, tokenize_app by done. rewrite (tokenize_operands _ TOr); [done..|].
  intros s. apply (tokenize_operator (lit " or")).
Qed.

(** ** Reading a printed expression back *)

Lemma more_tokens_length op es : (length es ≤ length (more_tokens op es))%nat.
Proof using Type.
  induction es as [|e es IH]; [done|]. unfold more_tokens in *. cbn [map concat length].
  rewrite length_app. cbn [length]. lia.
Qed.

(** The operator loop reads a list of operands; [P] says after which tokens
    an operand ends. *)
Lemma binary_loop_reads operand op combiner (P : list Token → Prop) es rest :
  (∀ e rest, e ∈ es → P rest → operand (tokens e ++ rest) = Ok (e, rest)) →
  (∀ ts, P (op :: ts)) → P rest → head rest ≠ Some op →
  ∀ fuel node, (length es ≤ fuel)%nat →
  binary_loop operand op combiner fuel node (more_tokens op es ++ rest) = Ok (foldl combiner node es, rest).
Proof using Type.
  intros He Hop HP Hrest. induction es as [|e es IH]; intros fuel node Hfuel; cbn [foldl].
  - cbn [more_tokens map concat app]. destruct fuel, rest as [|tok rest]; simpl in *; try done;
      by rewrite decide_False by congruence.
  - destruct fuel as [|fuel]; [simpl in Hfuel; lia|]. unfold more_tokens in IH |- *. cbn [map concat app].
    cbn [binary_loop]. rewrite decide_True, <-(assoc_L (++)) by done.
    rewrite He; [|by left|by destruct es; [|apply Hop]]. cbn [result_bind].
    apply IH; [|simpl in Hfuel; lia]. intros e' rest' Hin. apply He. by right.
Qed.

Lemma binary_reads operand op combiner (P : list Token → Prop) e es rest :
  (∀ e' rest, e' ∈ e :: es → P rest → operand (tokens e' ++ rest) = Ok (e', rest)) →
  (∀ ts, P (op :: ts)) → P rest → head rest ≠ Some op →
  parse_binary_expression operand op combiner ((tokens e ++ more_tokens op es) ++ rest) =
    Ok (foldl combiner e es, rest).
Proof using Type.
  intros He Hop HP Hrest. unfold parse_binary_expression. rewrite <-(assoc_L (++)).
  rewrite He; [|by left|by destruct es; [|apply Hop]]. cbn [result_bind].
  apply binary_loop_reads with P; [|done..|].
  - intros e' rest' Hin. apply He. by right.
  - rewrite length_app. pose proof (more_tokens_length op es). lia.
Qed.

Lemma foldl_and_combiner e es : is_and e = false → es ≠ [] → foldl and_combiner e es = And (e :: es).
Proof using Type.
  intros He Hes. destruct es as [|e' es]; [done|]. simpl.
  assert (and_combiner e e' = And [e; e']) as -> by by destruct e.
  change (e :: e' :: es) with ([e; e'] ++ es). generalize ([e; e']). clear Hes.
  induction es as [|x es IH]; intros fs; simpl; [by rewrite app_nil_r|].
  by rewrite IH, <-(assoc_L (++)).
Qed.

Lemma foldl_or_combiner e es : is_or e = false → es ≠ [] → foldl or_combiner e es = Or (e :: es).
Proof using Type.
  intros He Hes. destruct es as [|e' es]; [done|]. simpl.
  assert (or_combiner e e' = Or [e; e']) as -> by by destruct e.
  change (e :: e' :: es) with ([e; e'] ++ es). generalize ([e; e']). clear Hes.
  induction es as [|x es IH]; intros fs; simpl; [by rewrite app_nil_r|].
  by rewrite IH, <-(assoc_L (++)).
Qed.

Lemma operands_printable_inv same es :
  operands_printable same es = true → ∃ e es', es = e :: es' ∧ es' ≠ [] ∧ same e = false.
Proof using Type.
  destruct es as [|e [|e' es]]; [done..|]. simpl. intros He%negb_true_iff. by exists e, (e' :: es).
Qed.

Lemma operand_shorter e e' es op :
  e' ∈ e :: es → (length (tokens e') ≤ length (tokens e ++ more_tokens op es))%nat.
Proof using Type.
  intros [->|Hin]%elem_of_cons; rewrite length_app; [lia|].
  induction es as [|x es IH]; [by apply elem_of_nil in Hin|].
  unfold more_tokens in *. cbn [map concat]. rewrite length_app. cbn [length].
  apply elem_of_cons in Hin as [->|Hin]; [lia|]. specialize (IH Hin). lia.
Qed.

(** [parse_primary], with the parser for what is inside parentheses. *)
Local Abbreviation primary fuel := (parse_primary context (parse_or context fuel)).

Definition reads_back e : Prop :=
  ∀ fuel rest, printable context e = true → (length (tokens e) ≤ S fuel)%nat →
    primary fuel (tokens e ++ rest) = Ok (e, rest).

Definition no_operator (rest : list Token) : Prop := head rest ≠ Some TAnd ∧ head rest ≠ Some TOr.

Lemma parse_and_reads fuel e rest :
  (∀ rest, primary fuel (tokens e ++ rest) = Ok (e, rest)) → head rest ≠ Some TAnd →
  parse_and context (parse_or context fuel) (tokens e ++ rest) = Ok (e, rest).
Proof using Type.
  intros He Hrest. unfold parse_and.
  pose proof (binary_reads (primary fuel) TAnd and_combiner (λ _, True) e [] rest) as Hb.
  cbn [foldl more_tokens map concat] in Hb. rewrite app_nil_r in Hb. apply Hb; [|done..].
  by intros e' rest' ->%list_elem_of_singleton _.
Qed.

Lemma parse_or_reads_ands fuel e es rest :
  (∀ e' rest, e' ∈ e :: es → primary fuel (tokens e' ++ rest) = Ok (e', rest)) → no_operator rest →
  parse_or context (S fuel) ((tokens e ++ more_tokens TAnd es) ++ rest) = Ok (foldl and_combiner e es, rest).
Proof using Type.
  intros He [Hno1 Hno2]. cbn [parse_or]. unfold parse_binary_expression at 1. unfold parse_and at 1.
  rewrite (binary_reads _ TAnd and_combiner (λ _, True)); [|auto..]. cbn [result_bind].
  destruct rest as [|tok rest]; [done|]. simpl in *. by rewrite decide_False by congruence.
Qed.

Lemma parse_or_reads_ors fuel e es rest :
  (∀ e' rest, e' ∈ e :: es → primary fuel (tokens e' ++ rest) = Ok (e', rest)) → no_operator rest →
  parse_or context (S fuel) ((tokens e ++ more_tokens TOr es) ++ rest) = Ok (foldl or_combiner e es, rest).
Proof using Type.
  intros He [Hno1 Hno2]. cbn [parse_or].
  apply (binary_reads _ TOr or_combiner (λ rest, head rest ≠ Some TAnd)); [|done..].
  intros e' rest' Hin. apply parse_and_reads. intros rest''. by apply He.
Qed.

Lemma utf8_len_hex w : Forall (λ c, is_hex_char c = true) w → utf8_len w = Z.of_nat (length w).
Proof using Type.
  unfold utf8_len. induction 1 as [|c w Hc _ IH]; [done|]. cbn [map foldr length]. rewrite IH.
  unfold len_utf8. unfold is_hex_char in Hc. rewrite (proj2 (Z.ltb_lt c 0x80)) by lia. lia.
Qed.

Lemma parse_printed_handle handle :
  length (TpmInt.bytes handle) = 4%nat →
  is_ok (try_from TpmHt.t (Z.shiftr (TpmInt.value 4 false handle) 24)) = true →
  parse_literal (hex_digits 8 (TpmInt.value 4 false handle)) = Ok (Handle handle).
Proof using Type.
  intros Hl Hht. pose proof (in_range_u32_inv _ (value_in_range 4 false ltac:(lia) handle Hl)) as Hr.
  unfold parse_literal. rewrite utf8_len_hex, length_hex_digits by apply hex_digits_chars.
  rewrite hex_digits_parse by done. cbn [ok_or result_bind].
  change (Z.of_nat 8 =? 8) with true. cbn [negb].
  assert (Z.shiftr (TpmInt.value 4 false handle) 24 `mod` 2 ^ 8 = Z.shiftr (TpmInt.value 4 false handle) 24) as ->.
  { apply Z.mod_small. rewrite Z.shiftr_div_pow2 by lia. unfold u32_max in Hr.
    split; [apply Z.div_pos; lia | apply Z.div_lt_upper_bound; lia]. }
  destruct (try_from TpmHt.t _); [|done..]. cbn [map_err result_bind]. by rewrite new_value by (done || lia).
Qed.

Lemma parse_printed_copy_ref d :
  digest_valid d = true → TpmBuffer.deref d ≠ [] → parse_copy_ref (copy_ref_ident d) = Ok (Some d).
Proof using Type*.
  intros Hd%bool_decide_eq_true Hne. unfold parse_copy_ref.
  change (copy_ref_ident d) with (lit "copy_ref" ++ chr ":" :: hex_encode (TpmBuffer.deref d)).
  rewrite split_once_app by (refine (bool_decide_unpack _ _); exact I).
  cbn [ok_or result_bind]. rewrite bool_decide_eq_true_2 by done. cbn [negb].
  rewrite hex_decode_encode. cbn [ok_or result_bind].
  destruct (TpmBuffer.deref d) eqn:E; [done|]. by rewrite Hd.
Qed.

Lemma parse_printed_pcr selections d rest :
  node_printable context (Pcr selections d) = true →
  parse_pcr_call context (TLParen :: tokenize (pcr_content selections d) ++ TRParen :: rest) =
    Ok (Pcr selections d, rest).
Proof using Type*.
  simpl. intros [Hs Hd]%andb_true_iff. unfold parse_pcr_call. cbn [expect]. rewrite decide_True by done.
  cbn [result_bind]. rewrite pcr_text_tokens.
  - cbn [result_bind]. unfold pcr_content. rewrite app_nil_l. destruct d as [d|].
    + by rewrite pcr_with_printed_digest.
    + by rewrite app_nil_r, pcr_without_printed_digest, parse_printed_selections.
  - unfold pcr_content. rewrite parts_ok_selections by done. destruct d as [d|]; [|done].
    cbn [parts_ok]. change (chr ":" =? chr ",") with false. cbv iota.
    rewrite <-(app_nil_r (hex_encode _)), parts_ok_word by by apply hex_encode_not. done.
  - unfold pcr_content. apply Forall_app. split; [by apply selections_chars|].
    destruct d as [d|]; constructor; [|apply hex_pcr_char]. by apply pcr_char_range.
Qed.

Lemma reads_back_all e : reads_back e.
Proof using Type*.
  induction e as [selections d|auth ref IH|es IH|es IH|handle] using expr_ind;
    intros fuel rest Hp Hf; unfold printable in Hp; cbn [every] in Hp; apply andb_true_iff in Hp as [Hn Hp].
  - rewrite tokens_pcr. cbn [app parse_primary]. rewrite decide_True by done.
    rewrite <-(assoc_L (++)). cbn [app]. by apply parse_printed_pcr.
  - rewrite tokens_secret in Hf |- *. cbn [length] in Hf. rewrite length_app in Hf.
    cbn [app parse_primary]. rewrite decide_False, decide_True by done.
    unfold parse_secret_call. cbn [expect]. rewrite decide_True by done. cbn [result_bind].
    destruct fuel as [|fuel]; [lia|]. rewrite <-(assoc_L (++)).
    pose proof (parse_or_reads_ands fuel auth []) as Hauth. cbn [more_tokens map concat foldl] in Hauth.
    rewrite app_nil_r in Hauth. rewrite Hauth; clear Hauth.
    + cbn [map_err result_bind]. destruct ref as [ref|]; cbn [app].
      * simpl in Hn. apply andb_true_iff in Hn as [Hv Hne]. rewrite negb_true_iff, bool_decide_eq_false in Hne.
        rewrite parse_printed_copy_ref by done. cbn [result_bind expect]. by rewrite decide_True.
      * cbn [result_bind expect]. by rewrite decide_True.
    + intros e' rest' ->%list_elem_of_singleton. apply IH; [done|]. lia.
    + destruct ref; split; done.
  - destruct (operands_printable_inv _ _ Hn) as (e & es' & -> & Hne & He).
    rewrite tokens_and in Hf |- *. cbn [length] in Hf. rewrite length_app in Hf. cbn [length] in Hf.
    destruct fuel as [|fuel]; [pose proof (more_tokens_length TAnd es'); rewrite length_app in Hf; destruct es'; simpl in *; [done|lia]|].
    cbn [app parse_primary]. rewrite <-(assoc_L (++)). cbn [app].
    rewrite parse_or_reads_ands; [|..|by split].
    + cbn [result_bind]. by rewrite foldl_and_combiner.
    + intros e' rest' Hin. rewrite list.Forall_forall in IH. apply IH; [done| |].
      * by eapply every_branches.
      * pose proof (operand_shorter e e' es' TAnd Hin). lia.
  - destruct (operands_printable_inv _ _ Hn) as (e & es' & -> & Hne & He).
    rewrite tokens_or in Hf |- *. cbn [length] in Hf. rewrite length_app in Hf. cbn [length] in Hf.
    destruct fuel as [|fuel]; [pose proof (more_tokens_length TOr es'); rewrite length_app in Hf; destruct es'; simpl in *; [done|lia]|].
    cbn [app parse_primary]. rewrite <-(assoc_L (++)). cbn [app].
    rewrite parse_or_reads_ors; [|..|by split].
    + cbn [result_bind]. by rewrite foldl_or_combiner.
    + intros e' rest' Hin. rewrite list.Forall_forall in IH. apply IH; [done| |].
      * by eapply every_branches.
      * pose proof (operand_shorter e e' es' TOr Hin). lia.
  - rewrite tokens_handle. cbn [app parse_primary]. cbn [node_printable] in Hn.
    apply andb_true_iff in Hn as [Hl%Nat.eqb_eq Ht]. pose proof (parse_printed_handle handle Hl Ht) as Hlit.
    pose proof (length_hex_digits 8 (TpmInt.value 4 false handle)) as Hw.
    destruct (decide (hex_digits 8 _ = lit "pcr")) as [E|_]; [by rewrite E in Hw|].
    destruct (decide (hex_digits 8 _ = lit "secret")) as [E|_]; [by rewrite E in Hw|].
    by rewrite Hlit.
Qed.
End printed.
