(* ===== verification/PolicyParser.v ===== *)
(** The policy parser is total: it never panics, its fuel is enough, and what
    it returns is [printable]. *)

From Stdlib Require Import Ascii.
From stdpp Require Import gmap.
From S2P Require Import Prelude Errors Writer Codec Integer Buffer Tpml Struct EnumMacro Union Enums BasicTypes Structures.
From S2P Require Import Crypto Hash Text Policy PolicyText PolicySpec PolicyTextSpec.
Import TpmPolicyExpression.

Lemma split_nonempty sep s : split sep s ≠ [].
Proof. destruct s as [|c s]; simpl; [done|]. by repeat case_match. Qed.

(** ** Selections *)

Section parsed.
Context `{TextLib}.
Variable context : TpmPolicyContext.t.
Local Abbreviation pcr_count := (TpmPolicyContext.pcr_count context).
Local Abbreviation pcr_select_size := (TpmHash.div_ceil pcr_count 8).

Lemma parse_selection_part_returns part :
  returns (λ sel, selection_printable context sel = true ∧
      TpmsPcrSelect.try_from (select_bytes (TpmsPcrSelection.pcr_select sel)) =
        Ok (TpmsPcrSelection.pcr_select sel))
    (parse_selection_part context pcr_select_size part).
Proof using Type.
  unfold parse_selection_part. eapply returns_bind; [apply returns_ok_or|]. intros [alg_str indices_str] _.
  eapply returns_bind; [apply returns_ok_or|]. intros alg _.
  case_bool_decide as Hbank; [done|].
  eapply returns_bind; [apply returns_ok_or|].
  intros indices Hi%mapM_Some.
  assert (Forall (λ i, 0 ≤ i) indices) as Hpos.
  { apply list.Forall_forall. intros i Hin. apply list_elem_of_lookup in Hin as [n Hn].
    eapply Forall2_lookup_r in Hi as (s & _ & Hs); [|exact Hn].
    apply from_str_radix_bounds in Hs; unfold u32_max; lia. }
  assert (indices ≠ []) as Hne.
  { intros ->. apply Forall2_nil_inv_r in Hi. by apply split_nonempty in Hi. }
  assert (pcr_count ≤ 8 * zlen (TpmHash.zeroed pcr_select_size) ∧
          (0 ≤ pcr_count → zlen (TpmHash.zeroed pcr_select_size) = pcr_select_size)) as [Hsize Hlen].
  { unfold TpmHash.zeroed, zlen. rewrite length_replicate. unfold TpmHash.div_ceil.
    pose proof (Z.div_mod (pcr_count + 8 - 1) 8). pose proof (Z.mod_pos_bound (pcr_count + 8 - 1) 8). lia. }
  pose proof (set_pcr_bits_spec context indices _ Hpos Hsize) as Hs.
  destruct (set_pcr_bits context indices _) as [bytes|e|]; [|done..].
  destruct Hs as (Hl & Hlt & Hbit). cbn [result_bind].
  eapply returns_bind; [apply returns_map_err, returns_eq|].
  { unfold TpmsPcrSelect.try_from. case_match; [done|]. by case_match. }
  intros p Hp. cbn [returns]. unfold selection_printable.
  cbn [TpmsPcrSelection.hash TpmsPcrSelection.pcr_select].
  destruct (pcr_try_from_Ok bytes (pcr_try_from_bound _ _ Hp)) as (p' & Hp' & _ & Hd).
  rewrite Hp in Hp'. injection Hp' as <-. unfold select_bytes. rewrite Hd. split; [|done].
  rewrite (proj2 (try_from_to_alg _ alg)) by done.
  destruct indices as [|i indices]; [done|]. apply Forall_cons_1 in Hlt as [Hlt0 Hlt], Hpos as Hpos'.
  rewrite !andb_true_iff, negb_true_iff, bool_decide_eq_false, bool_decide_eq_true, Z.eqb_eq, forallb_forall.
  split_and!; [done | by destruct (_ !! _) | | |].
  - unfold zlen in *. rewrite Hl. apply Hlen. destruct Hpos'. lia.
  - intros j Hj%list_elem_of_In%elem_of_pcr_indices. destruct Hj as [Hj Hb].
    rewrite Hbit, pcr_bit_zeroed, orb_false_r in Hb by done. apply bool_decide_eq_true in Hb.
    apply elem_of_cons in Hb as [->|Hb]; [lia|]. rewrite list.Forall_forall in Hlt. specialize (Hlt j Hb). lia.
  - intros Hnil. assert (i ∈ pcr_indices bytes) as Hin; [|rewrite Hnil in Hin; by apply elem_of_nil in Hin].
    apply elem_of_pcr_indices. destruct Hpos' as [Hi0 _]. split; [done|].
    rewrite Hbit by done. rewrite bool_decide_eq_true_2; [done | by left].
Qed.

Definition selection_ok (sel : ty TpmsPcrSelection) : Prop :=
  selection_printable context sel = true ∧
  TpmsPcrSelect.try_from (select_bytes (TpmsPcrSelection.pcr_select sel)) =
    Ok (TpmsPcrSelection.pcr_select sel).

Lemma parse_selection_parts_returns parts l xs :
  TpmList.holds 8 l xs → Forall selection_ok xs →
  returns (λ l', ∃ ys, TpmList.holds 8 l' (xs ++ ys) ∧ length ys = length parts ∧ Forall selection_ok (xs ++ ys))
    (parse_selection_parts context pcr_select_size parts l).
Proof using Type.
  revert l xs; induction parts as [|part parts IH]; intros l xs Hl Hxs; cbn [parse_selection_parts].
  - exists []. by rewrite app_nil_r.
  - eapply returns_bind; [apply parse_selection_part_returns|]. intros sel Hsel.
    pose proof (list_try_push_spec 8 l xs sel Hl) as Hpush.
    case_decide; [|by rewrite Hpush]. destruct Hpush as (l1 & -> & Hl1). cbn [map_err result_bind].
    eapply returns_impl; [apply (IH l1 (xs ++ [sel]) Hl1)|].
    + apply Forall_app. split; [done|]. by constructor.
    + intros l' (ys & Hys & Hlen & Hall). exists (sel :: ys). rewrite <-(assoc_L (++)) in Hys, Hall.
      split_and!; [done | by cbn [length]; f_equal | done].
Qed.

Lemma selections_wire l xs :
  TpmList.holds 8 l xs → Forall selection_ok xs → is_Some (wire TpmlPcrSelection l).
Proof using Type.
  intros Hl Hxs.
  assert (∃ bss, Forall2 (λ v bs, wire TpmsPcrSelection v = Some bs) xs bss) as [bss Hbss].
  { clear Hl. induction Hxs as [|sel xs [_ Hsel] _ [bss IH]]; [by exists []|].
    assert (is_Some (wire TpmsPcrSelection sel)) as [bs Hbs]; [|exists (bs :: bss); by constructor].
    destruct sel as [alg sel]. eexists. apply wcat_Some. eexists _, _.
    split_and!; [reflexivity | | reflexivity]. apply pcr_wire_Some. by eexists. }
  eexists. apply (list_wire_Some TpmsPcrSelection 8 ltac:(done)). by exists xs, bss.
Qed.

Lemma parse_selections_returns s :
  returns (λ l, selections_printable context l = true) (parse_tpml_pcr_selection_str context s).
Proof using Type.
  unfold parse_tpml_pcr_selection_str. case_match; [done|].
  eapply returns_impl; [apply (parse_selection_parts_returns _ _ []); [by apply list_new_holds | done]|].
  intros l (ys & Hl & Hlen & Hys). cbn [app] in *. unfold selections_printable.
  rewrite (list_holds_deref 8 _ ys Hl). rewrite !andb_true_iff, negb_true_iff, bool_decide_eq_false.
  rewrite bool_decide_eq_true, forallb_forall. split_and!.
  - by eapply selections_wire.
  - intros ->. symmetry in Hlen. apply nil_length_inv in Hlen. by apply split_nonempty in Hlen.
  - intros sel Hin%list_elem_of_In. rewrite list.Forall_forall in Hys. by apply Hys.
Qed.

Lemma digest_from_bytes bytes :
  returns (λ d, digest_valid d = true ∧ TpmBuffer.deref d = bytes) (TpmBuffer.try_from MAX_DIGEST_SIZE bytes).
Proof using Type.
  eapply returns_impl; [apply returns_eq|].
  - intros Hp. destruct (Z.leb_spec (zlen bytes) MAX_DIGEST_SIZE) as [Hle|Hbig].
    + destruct (buffer_try_from_spec MAX_DIGEST_SIZE ltac:(done) bytes) as (b & Hb & _);
        [done | unfold MAX_DIGEST_SIZE, u16_max in *; lia |].
      assert (Ok b = Panic) by (etrans; [symmetry; exact Hb | exact Hp]). done.
    + revert Hp. unfold TpmBuffer.try_from, TpmBuffer.try_extend_from_slice.
      destruct (checked_add _ _) as [n|] eqn:Hn; cbn [ok_or result_bind]; [|done].
      apply checked_add_Some_inv in Hn as [-> _]. cbn [TpmBuffer.size TpmBuffer.new].
      by rewrite (proj2 (Z.ltb_lt _ _)).
  - intros d Hd. pose proof (try_from_deref _ _ _ ltac:(by apply (digest_capacity 0)) Hd) as He.
    split; [|done]. unfold digest_valid. rewrite He. by apply bool_decide_eq_true_2.
Qed.

(** ** Expressions *)

(** [m] is an expression that can be printed, and fewer than [n] tokens. *)
Definition parsed (n : nat) (m : result TpmPolicyError.t (t * list Token)) : Prop :=
  returns (λ r : t * list Token, printable context r.1 = true ∧ (length r.2 < n)%nat) m.

Lemma parsed_impl n n' m : parsed n m → (n ≤ n')%nat → parsed n' m.
Proof using Type. intros Hm Hn. eapply returns_impl; [exact Hm|]. intros [e rest] [He Hl]. split; [done|lia]. Qed.

Lemma expect_returns token tokens :
  returns (λ rest, length rest < length tokens)%nat (expect token tokens).
Proof using Type. destruct tokens as [|tok tokens]; [done|]. simpl. case_decide; simpl; [lia|done]. Qed.

Lemma pcr_text_returns tokens buf :
  returns (λ r, length r.2 < length tokens)%nat (pcr_text tokens buf).
Proof using Type.
  revert buf; induction tokens as [|tok tokens IH]; intros buf; [done|].
  destruct tok; cbn [pcr_text length]; try done; [simpl; lia|..];
    (eapply returns_impl; [apply IH|]; intros r Hr; simpl in *; lia).
Qed.

Lemma pcr_with_digest_printable s e : pcr_with_digest context s = Some e → printable context e = true.
Proof using Type.
  unfold pcr_with_digest. intros ([sel dig] & _ & He)%bind_Some.
  pose proof (parse_selections_returns sel) as Hsel.
  destruct (parse_tpml_pcr_selection_str context sel) as [l| |]; [|done..].
  apply bind_Some in He as (bytes & _ & He). pose proof (digest_from_bytes bytes) as Hd.
  destruct (TpmBuffer.try_from MAX_DIGEST_SIZE bytes) as [d| |]; [|done..]. injection He as <-.
  destruct Hd as [Hd _]. unfold printable. cbn [every node_printable fmap option_fmap option_map default].
  simpl in Hsel. by rewrite Hsel, Hd.
Qed.

Lemma parse_pcr_call_parsed tokens : parsed (length tokens) (parse_pcr_call context tokens).
Proof using Type.
  unfold parse_pcr_call. eapply returns_bind; [apply expect_returns|]. intros tokens1 H1'.
  eapply returns_bind; [apply pcr_text_returns|]. intros [buf tokens2] H2'.
  destruct (pcr_with_digest context buf) as [e|] eqn:He.
  - apply pcr_with_digest_printable in He. simpl in *. split; [done|lia].
  - eapply returns_bind; [apply parse_selections_returns|]. intros l Hl. simpl in *.
    split; [|lia]. unfold printable. cbn [every node_printable]. by rewrite Hl.
Qed.

Lemma parse_copy_ref_returns ident auth :
  returns (λ ref, node_printable context (Secret auth ref) = true) (parse_copy_ref ident).
Proof using Type.
  unfold parse_copy_ref. eapply returns_bind; [apply returns_ok_or|]. intros [key value] _.
  case_match; [done|]. eapply returns_bind; [apply returns_ok_or|]. intros bytes _.
  destruct bytes as [|b bytes]; [done|].
  eapply returns_bind; [apply returns_map_err, digest_from_bytes|]. intros d [Hd He].
  cbn [returns node_printable]. by rewrite Hd, He.
Qed.

Lemma parse_literal_returns s : returns (λ e, printable context e = true) (parse_literal s).
Proof using Type.
  unfold parse_literal. case_match; [done|]. eapply returns_bind; [apply returns_ok_or|]. intros raw Hr.
  apply from_str_radix_bounds in Hr; [|done..]. cbv zeta.
  assert (Z.shiftr raw 24 `mod` 2 ^ 8 = Z.shiftr raw 24) as ->.
  { apply Z.mod_small. rewrite Z.shiftr_div_pow2 by lia. unfold u32_max in Hr.
    split; [apply Z.div_pos; lia | apply Z.div_lt_upper_bound; lia]. }
  eapply returns_bind; [apply returns_map_err, returns_eq, (try_from_no_panic TpmHt.t)|]. intros ht Hht.
  cbn [returns]. unfold printable. cbn [every node_printable]. rewrite length_new.
  rewrite value_new by (lia || by apply in_range_u32). by rewrite Hht.
Qed.

Section recursion.
Variables (n : nat) (parse_or : list Token → result TpmPolicyError.t (t * list Token)).
Hypothesis parse_or_parsed : ∀ tokens, (length tokens < n)%nat → parsed (length tokens) (parse_or tokens).

Lemma parse_secret_call_parsed tokens :
  (length tokens < n)%nat → parsed (length tokens) (parse_secret_call parse_or tokens).
Proof using Type*.
  intros Hn. unfold parse_secret_call. eapply returns_bind; [apply expect_returns|]. intros tokens1 Ht1. cbn beta in Ht1.
  eapply returns_bind; [apply returns_map_err, parse_or_parsed; lia|]. intros [auth tokens2] [Hauth Ht2].
  cbn [fst snd] in *.
  eapply (returns_bind (λ r : option (ty Tpm2bDigest) * list Token,
    node_printable context (Secret auth r.1) = true ∧ length r.2 < length tokens1)%nat).
  - destruct tokens2 as [|[] tokens2]; try done.
    destruct tokens2 as [|[] tokens2]; try done. cbn [length] in *.
    eapply returns_bind; [apply (parse_copy_ref_returns _ auth)|]. intros ref Href. split; [done|cbn [snd]; lia].
  - intros [ref tokens3] [Href Ht3]. cbn [fst snd] in *.
    eapply returns_bind; [apply expect_returns|]. intros tokens4 Ht4. cbn beta in Ht4. cbn [returns fst snd].
    split; [|lia]. unfold printable in *. cbn [every]. by rewrite Href, Hauth.
Qed.

Lemma parse_primary_parsed tokens :
  (length tokens ≤ n)%nat → parsed (length tokens) (parse_primary context parse_or tokens).
Proof using Type*.
  intros Hn. destruct tokens as [|[| | | | |name] tokens]; try done; cbn [length] in *; cbn [parse_primary].
  - eapply returns_bind; [apply parse_or_parsed; lia|]. intros [e tokens1] [He Ht].
    destruct tokens1 as [|[] tokens1]; try done. cbn [returns fst snd length] in *. split; [done|lia].
  - case_decide; [|case_decide].
    + eapply parsed_impl; [apply parse_pcr_call_parsed | lia].
    + eapply parsed_impl; [apply parse_secret_call_parsed; lia | lia].
    + eapply returns_bind; [apply parse_literal_returns|]. intros e He. split; [done|cbn [snd]; lia].
Qed.
End recursion.

Section binary.
Variables (n : nat) (operand_parser : list Token → result TpmPolicyError.t (t * list Token)).
Hypothesis operand_parsed :
  ∀ tokens, (length tokens ≤ n)%nat → parsed (length tokens) (operand_parser tokens).
Variables (operator : Token) (combiner : t → t → t).
Hypothesis combiner_printable : ∀ lhs rhs,
  printable context lhs = true → printable context rhs = true → printable context (combiner lhs rhs) = true.

Lemma binary_loop_parsed fuel node tokens :
  printable context node = true → (length tokens ≤ fuel)%nat → (length tokens ≤ n)%nat →
  parsed (S (length tokens)) (binary_loop operand_parser operator combiner fuel node tokens).
Proof using Type*.
  revert node tokens; induction fuel as [|fuel IH]; intros node [|tok tokens] Hnode Hf Hn;
    cbn [binary_loop length] in *; try lia; try (split; [done|simpl; lia]).
  case_decide; [|split; [done|simpl; lia]].
  eapply returns_bind; [apply operand_parsed; lia|]. intros [rhs rest] [Hrhs Hrest]. cbn [fst snd] in *.
  eapply parsed_impl; [apply IH; [by apply combiner_printable|lia..]|lia].
Qed.

Lemma parse_binary_parsed tokens :
  (length tokens ≤ n)%nat →
  parsed (length tokens) (parse_binary_expression operand_parser operator combiner tokens).
Proof using Type*.
  intros Hn. unfold parse_binary_expression. eapply returns_bind; [by apply operand_parsed|].
  intros [node rest] [Hnode Hrest]. cbn [fst snd] in *.
  eapply parsed_impl; [apply binary_loop_parsed; [done|lia..]|lia].
Qed.
End binary.

Lemma operands_printable_snoc same es e :
  operands_printable same es = true → operands_printable same (es ++ [e]) = true.
Proof using Type. by destruct es as [|? [|]]. Qed.

Lemma and_combiner_printable lhs rhs :
  printable context lhs = true → printable context rhs = true → printable context (and_combiner lhs rhs) = true.
Proof using Type.
  unfold printable. intros Hl Hr.
  destruct lhs; cbn [and_combiner every node_printable] in *;
    try (cbn [operands_printable is_and forallb negb andb] in *; cbn [every node_printable]; by rewrite Hl, Hr).
  apply andb_true_iff in Hl as [Ho Hall]. rewrite operands_printable_snoc, forallb_app, Hall by done.
  cbn [forallb]. by rewrite Hr.
Qed.

Lemma or_combiner_printable lhs rhs :
  printable context lhs = true → printable context rhs = true → printable context (or_combiner lhs rhs) = true.
Proof using Type.
  unfold printable. intros Hl Hr.
  destruct lhs; cbn [or_combiner every node_printable] in *;
    try (cbn [operands_printable is_or forallb negb andb] in *; cbn [every node_printable]; by rewrite Hl, Hr).
  apply andb_true_iff in Hl as [Ho Hall]. rewrite operands_printable_snoc, forallb_app, Hall by done.
  cbn [forallb]. by rewrite Hr.
Qed.

Lemma parse_or_parsed fuel tokens :
  (length tokens < fuel)%nat → parsed (length tokens) (parse_or context fuel tokens).
Proof using Type.
  revert tokens; induction fuel as [|fuel IH]; intros tokens Hf; [lia|]. cbn [parse_or].
  apply (parse_binary_parsed fuel); [|apply or_combiner_printable|lia]. clear tokens Hf. intros tokens Hf.
  apply (parse_binary_parsed fuel); [|apply and_combiner_printable|done]. clear tokens Hf. intros tokens Hf.
  by apply (parse_primary_parsed fuel).
Qed.

Lemma parse_returns input : returns (λ e, printable context e = true) (parse context input).
Proof using Type.
  unfold parse, parse_expression. eapply returns_bind; [apply parse_or_parsed; lia|].
  by intros [e [|tok rest]] [He _].
Qed.

(** What can be printed can be compiled. *)
Lemma printable_well_formed e : printable context e = true → well_formed e = true.
Proof using Type.
  unfold printable. induction e as [selections d|auth ref IH|es IH|es IH|handle] using expr_ind;
    cbn [every]; intros [Hn Hp]%andb_true_iff; apply andb_true_iff; split; try done; [|by apply IH|..].
  - cbn [node_printable] in Hn. apply andb_true_iff in Hn as [Hs _].
    apply selections_printable_inv in Hs as [Hw _]. by apply bool_decide_eq_true.
  - rewrite list.Forall_forall in IH. rewrite forallb_forall in Hp |- *. intros b Hb.
    apply IH; [by apply list_elem_of_In | by apply Hp].
  - rewrite list.Forall_forall in IH. rewrite forallb_forall in Hp |- *. intros b Hb.
    apply IH; [by apply list_elem_of_In | by apply Hp].
  - cbn [node_printable node_ok] in *. by apply andb_true_iff in Hn as [Hl _].
Qed.
End parsed.

Lemma parse_reads `{TextLibOk} context e :
  printable context e = true → parse context (to_string e) = Ok e.
Proof.
  intros Hp. unfold parse, parse_expression. fold (tokens e). set (ts := tokens e).
  pose proof (parse_or_reads_ands context (length ts) e [] []) as Hr.
  cbn [more_tokens map concat foldl] in Hr. rewrite !app_nil_r in Hr. unfold ts in *. rewrite Hr; [done| |done].
  intros e' rest ->%list_elem_of_singleton. apply reads_back_all; [done|lia].
Qed.
