(* ===== verification/Transport.v ===== *)
(** The transports of [device/src/lib.rs]: [TpmDeviceError], frames on a byte
    stream, and the Linux character device.

    [std::io::Error] and [nix::Error] are parameters ([Os]); a stream is what
    implements [ByteStream], and what [TpmPosixDevice] asks of its
    environment in one round of its loop is a [tick]. *)

From S2P Require Import Prelude State Errors EnumMacro Enums Rc BasicTypes.

(** ** Errors of the operating system *)

(** [std::io::ErrorKind], as far as it is tested *)
Inductive ErrorKind := EofKind | WouldBlockKind | InterruptedKind | NotFoundKind | OtherKind.
#[global] Instance ErrorKind_eq_dec : EqDecision ErrorKind.
Proof. solve_decision. Defined.

Class Os := {
  (** [std::io::Error] and [Error::kind] *)
  IoError : Type;
  io_kind : IoError → ErrorKind;
  (** [nix::Error], [EINTR], and [io::Error::from_raw_os_error(err as i32)] *)
  Errno : Type;
  is_EINTR : Errno → bool;
  from_raw_os_error : Errno → IoError
}.

(** [enum TpmDeviceError] *)
Module TpmDeviceError.
Inductive t `{Os} : Type :=
| AlreadyBorrowed
| CapabilityMissing (cap : TpmCap.t)
| Interrupted
| InvalidCc (cc : TpmCc.t)
| InvalidResponse
| Io (e : IoError)
| Marshal (e : TpmError)
| NotAvailable
| PcrBanksNotAvailable
| PcrBankSelectionMismatch
| ResponseMismatch (cc : TpmCc.t)
| Timeout
| TpmRc (rc : TpmRc.t)
| TrailingData
| Unmarshal (e : TpmError)
| UnexpectedEof
| UnsupportedAlgorithm (alg : TpmAlgId.t).

Section conversions.
Context `{Os}.

(** [PartialEq] *)
Definition eq (a b : t) : bool :=
  match a, b with
  | CapabilityMissing a, CapabilityMissing b => bool_decide (a = b)
  | InvalidCc a, InvalidCc b | ResponseMismatch a, ResponseMismatch b => bool_decide (a = b)
  | Io a, Io b => bool_decide (io_kind a = io_kind b)
  | Marshal a, Marshal b | Unmarshal a, Unmarshal b => bool_decide (a = b)
  | TpmRc a, TpmRc b => bool_decide (a = b)
  | UnsupportedAlgorithm a, UnsupportedAlgorithm b => bool_decide (a = b)
  | AlreadyBorrowed, AlreadyBorrowed | Interrupted, Interrupted
  | InvalidResponse, InvalidResponse | NotAvailable, NotAvailable
  | PcrBanksNotAvailable, PcrBanksNotAvailable
  | PcrBankSelectionMismatch, PcrBankSelectionMismatch
  | Timeout, Timeout | TrailingData, TrailingData | UnexpectedEof, UnexpectedEof => true
  | _, _ => false
  end.

(** [From<TpmRc>], [From<std::io::Error>], [From<nix::Error>] *)
Definition from_rc (rc : TpmRc.t) : t := TpmRc rc.
Definition from_io (e : IoError) : t := Io e.
Definition from_nix (e : Errno) : t := Io (from_raw_os_error e).
End conversions.
End TpmDeviceError.

Abbreviation DevResult := (result TpmDeviceError.t).

(** ** [trait TpmTransport]

    A transport of state [T].  [recv] gets the buffer to fill and returns
    what it holds afterwards, also when it fails. *)

Class TpmTransport `{Os} (T : Type) := {
  send : list byte → State T TpmDeviceError.t ();
  recv : State (list byte * T) TpmDeviceError.t ()
}.

(** ** Frames *)

Definition TPM_HEADER_SIZE : Z := 10.

(** [buf.resize(n, 0)] *)
Definition resize (n : Z) (buf : list byte) : list byte :=
  take (Z.to_nat n) buf ++ replicate (Z.to_nat n - length buf) x00.

Section frames.
Context `{Os}.

(** [header.get(2..6)] and the conversion to an array *)
Definition size_bytes (header : list byte) : option (list byte) :=
  if 6 <=? zlen header then Some (take 4 (drop 2 header)) else None.

Definition frame_size (header : list byte) : DevResult Z :=
  match size_bytes header with
  | None => Err TpmDeviceError.InvalidResponse
  | Some size_bytes =>
      let size := be_decode size_bytes in
      if negb ((TPM_HEADER_SIZE <=? size) && (size <=? TPM_MAX_COMMAND_SIZE)) then
        Err TpmDeviceError.InvalidResponse
      else Ok size
  end.
End frames.

(** ** Byte streams

    What is used of [std::io::Read] and [Write]: [read_exact] gets the buffer
    to fill and returns what it holds afterwards. *)

Class ByteStream `{Os} (S : Type) := {
  read_exact : State (list byte * S) IoError ();
  write_all : list byte → State S IoError ();
  flush : State S IoError ()
}.

(** A call that fails with another type of error. *)
Definition st_map_err {X E F A} (f : E → F) (m : State X E A) : State X F A := λ x,
  let (r, x) := m x in (map_err f r, x).

Section streams.
Context {S : Type} `{ByteStream S}.

(** [reader.read_exact(buf)] with the error mapped *)
Definition fill_exact : State (list byte * S) TpmDeviceError.t () :=
  st_map_err (λ e,
    if bool_decide (io_kind e = EofKind) then TpmDeviceError.UnexpectedEof
    else TpmDeviceError.Io e) read_exact.

(** [fill_exact(reader, &mut buf[from..])] *)
Definition fill_exact_from (from : Z) : State (list byte * S) TpmDeviceError.t () := λ '(buf, s),
  if zlen buf <? from then (Panic, (buf, s))
  else
    let '(r, (tail, s)) := fill_exact (drop (Z.to_nat from) buf, s) in
    (r, (take (Z.to_nat from) buf ++ tail, s)).

(** [buf.resize(n, 0)] of the buffer *)
Definition resize_buf (n : Z) : State (list byte * S) TpmDeviceError.t () := λ '(buf, s),
  (Ok (), (resize n buf, s)).

Definition read_frame : State (list byte * S) TpmDeviceError.t () := λ '(_, s),
  (let* _ := resize_buf TPM_HEADER_SIZE in
   let* _ := fill_exact in
   let* size := (λ '(buf, s), (frame_size buf, (buf, s))) in
   let* _ := resize_buf size in
   fill_exact_from TPM_HEADER_SIZE) ([], s).

Definition write_frame (frame : list byte) : State S TpmDeviceError.t () :=
  let* _ := st_map_err TpmDeviceError.Io (write_all frame) in
  st_map_err TpmDeviceError.Io flush.
End streams.

(** [struct TpmStreamTransport<S>] *)
Module TpmStreamTransport.
Record t (S : Type) := mk { stream : S }.
Arguments mk {S}. Arguments stream {S}.

Section transport.
Context {S : Type} `{ByteStream S}.

Definition new (stream : S) : t S := mk stream.
Definition into_inner (self : t S) : S := stream self.

Definition send (frame : list byte) : State (t S) TpmDeviceError.t () := λ self,
  let (r, s) := write_frame frame (stream self) in (r, mk s).
Definition recv : State (list byte * t S) TpmDeviceError.t () := λ '(buf, self),
  let '(r, (buf, s)) := read_frame (buf, stream self) in (r, (buf, mk s)).

#[global] Instance transport : TpmTransport (t S) := Build_TpmTransport _ _ send recv.
End transport.
End TpmStreamTransport.

(** ** The character device *)

(** The bits of [PollFlags] that are tested *)
Definition POLLIN : Z := 0x1.
Definition POLLERR : Z := 0x8.
Definition POLLHUP : Z := 0x10.
Definition POLLNVAL : Z := 0x20.

(** What the environment answers in one round of [recv]: the callback, the
    time since the start, [poll] with [fds[0].revents()], and [File::read]
    into a buffer of 1024 bytes. *)
Record tick `{Os} := mk_tick {
  tk_interrupted : bool;
  tk_elapsed : Z;
  tk_poll : Z + Errno;
  tk_revents : option Z;
  tk_read : list byte + IoError
}.

Module TpmPosixDevice.
Section posix.
Context `{Os}.

Definition intersects (flags other : Z) : bool := negb (Z.land flags other =? 0).
Definition contains (flags other : Z) : bool := Z.land flags other =? other.

(** [receive]: the bytes read, none when nothing was ready. *)
Definition receive (tk : tick) : DevResult (list byte) :=
  match tk_poll tk with
  | inr e => if is_EINTR e then Ok [] else Err (TpmDeviceError.from_nix e)
  | inl num_events =>
      if num_events =? 0 then Ok []
      else
        let revents := default 0 (tk_revents tk) in
        if intersects revents (Z.lor POLLERR POLLNVAL) then Err TpmDeviceError.UnexpectedEof
        else if contains revents POLLIN then
          match tk_read tk with
          | inl [] => Err TpmDeviceError.UnexpectedEof
          | inl bytes => Ok bytes
          | inr e =>
              if bool_decide (io_kind e = WouldBlockKind) then Ok []
              else if bool_decide (io_kind e = InterruptedKind) then Ok []
              else Err (TpmDeviceError.from_io e)
          end
        else if contains revents POLLHUP then Err TpmDeviceError.UnexpectedEof
        else Ok []
  end.

(** One round of [recv]: what the call returns, or how it goes on. *)
Definition round (timeout : Z) (tk : tick) (buf : list byte) (total_size : option Z)
    : (DevResult () * list byte) + (list byte * option Z) :=
  if tk_interrupted tk then inl (Err TpmDeviceError.Interrupted, buf)
  else if timeout <? tk_elapsed tk then inl (Err TpmDeviceError.Timeout, buf)
  else
    match receive tk with
    | Err e => inl (Err e, buf)
    | Panic => inl (Panic, buf)
    | Ok bytes =>
        let buf := buf ++ bytes in
        match
          (match total_size with
           | None => if TPM_HEADER_SIZE <=? zlen buf then let? size := frame_size buf in Ok (Some size) else Ok None
           | Some size => Ok (Some size)
           end)
        with
        | Err e => inl (Err e, buf)
        | Panic => inl (Panic, buf)
        | Ok None => inr (buf, None)
        | Ok (Some size) =>
            if zlen buf =? size then inl (Ok (), buf)
            else if size <? zlen buf then inl (Err TpmDeviceError.TrailingData, buf)
            else inr (buf, Some size)
        end
    end.

(** The loop, over what the environment will answer: the result, the buffer
    and the ticks after the call; [None] when it has not returned yet. *)
Fixpoint recv_loop (timeout : Z) (ticks : list tick) (buf : list byte) (total_size : option Z)
    : option (DevResult () * list byte * list tick) :=
  match ticks with
  | [] => None
  | tk :: ticks =>
      match round timeout tk buf total_size with
      | inl (r, buf) => Some (r, buf, ticks)
      | inr (buf, total_size) => recv_loop timeout ticks buf total_size
      end
  end.
Definition recv (timeout : Z) (ticks : list tick) : option (DevResult () * list byte * list tick) :=
  recv_loop timeout ticks [] None.
End posix.

(** [send], to the device file. *)
Definition send `{ByteStream F} (frame : list byte) : State F TpmDeviceError.t () :=
  let* _ := st_map_err TpmDeviceError.from_io (write_all frame) in
  st_map_err TpmDeviceError.from_io flush.
End TpmPosixDevice.

(** ** Reference: frames

    A frame is a byte string whose header announces its own length. *)

Definition is_frame (bs : list byte) : bool :=
  match size_bytes bs with
  | Some size_bytes =>
      let size := be_decode size_bytes in
      (size =? zlen bs) && (TPM_HEADER_SIZE <=? size) && (size <=? TPM_MAX_COMMAND_SIZE)
  | None => false
  end.

(** The documented behaviour of streams: [read_exact] takes as many bytes as
    the buffer has from those that are to come, and reports the end of the
    stream only when there are fewer; [write_all] and [flush] put the bytes
    out.  A [healthy] stream has no other failures. *)
Class ByteStreamOk (S : Type) `{ByteStream S} := {
  incoming : S → list byte;
  outgoing : S → list byte;
  healthy : S → Prop;
  read_exact_ok buf s :
    match read_exact (buf, s) with
    | (Ok _, (buf', s')) =>
        incoming s = buf' ++ incoming s' ∧ zlen buf' = zlen buf ∧ outgoing s' = outgoing s
    | (Err e, (buf', s')) =>
        zlen buf' = zlen buf ∧ outgoing s' = outgoing s ∧
        (io_kind e = EofKind → zlen (incoming s) < zlen buf)
    | (Panic, _) => False
    end;
  write_all_ok bs s :
    match write_all bs s with
    | (Ok _, s') => outgoing s' = outgoing s ++ bs ∧ incoming s' = incoming s
    | (Err _, s') => incoming s' = incoming s
    | (Panic, _) => False
    end;
  flush_ok s :
    match flush s with
    | (Ok _, s') => outgoing s' = outgoing s ∧ incoming s' = incoming s
    | (Err _, s') => incoming s' = incoming s
    | (Panic, _) => False
    end;
  healthy_read buf s :
    healthy s →
    match read_exact (buf, s) with
    | (Ok _, (_, s')) => healthy s'
    | (Err e, (_, s')) => io_kind e = EofKind ∧ healthy s'
    | (Panic, _) => False
    end;
  healthy_write bs s : healthy s → ∃ s', write_all bs s = (Ok (), s') ∧ healthy s';
  healthy_flush s : healthy s → ∃ s', flush s = (Ok (), s') ∧ healthy s'
}.

(** ** Laws: frames *)

Section frame_lemmas.
Context `{Os}.

Lemma zlen_resize n buf : 0 ≤ n → zlen (resize n buf) = n.
Proof. intros Hn. unfold zlen, resize. rewrite length_app, length_take, length_replicate. lia. Qed.

Lemma resize_grow n buf : zlen buf ≤ n → take (length buf) (resize n buf) = buf.
Proof.
  intros Hn. unfold resize. unfold zlen in Hn. rewrite (take_ge buf) by lia. apply take_app_length.
Qed.

Lemma size_bytes_app h t : 6 ≤ zlen h → size_bytes (h ++ t) = size_bytes h.
Proof.
  intros Hh. unfold size_bytes. pose proof (zlen_nonneg t).
  rewrite !(proj2 (Z.leb_le _ _)) by (rewrite ?zlen_app; lia). f_equal.
  unfold zlen in Hh. rewrite drop_app_le, take_app_le by (rewrite ?length_drop; lia). done.
Qed.

Lemma frame_size_app h t : 6 ≤ zlen h → frame_size (h ++ t) = frame_size h.
Proof. intros Hh. unfold frame_size. by rewrite size_bytes_app. Qed.

Lemma frame_size_cases header :
  match frame_size header with
  | Ok size => 6 ≤ zlen header ∧ TPM_HEADER_SIZE ≤ size ≤ TPM_MAX_COMMAND_SIZE
  | Err e => e = TpmDeviceError.InvalidResponse
  | Panic => False
  end.
Proof.
  unfold frame_size, size_bytes. destruct (Z.leb_spec 6 (zlen header)); [|done].
  destruct (negb _) eqn:Hn; [done|]. apply negb_false_iff, andb_true_iff in Hn. lia.
Qed.

Lemma is_frame_size bs : is_frame bs = true ↔ frame_size bs = Ok (zlen bs).
Proof.
  unfold is_frame, frame_size. destruct (size_bytes bs) as [sb|]; [|done]. split.
  - intros [[He%Z.eqb_eq H1]%andb_true_iff H2]%andb_true_iff. by rewrite H1, H2, He.
  - destruct (negb _) eqn:Hn; [done|]. intros [= He]. apply negb_false_iff, andb_true_iff in Hn as [H1 H2].
    by rewrite H1, H2, He, Z.eqb_refl.
Qed.

Lemma is_frame_bounds bs : is_frame bs = true → TPM_HEADER_SIZE ≤ zlen bs ≤ TPM_MAX_COMMAND_SIZE.
Proof. intros Hf%is_frame_size. pose proof (frame_size_cases bs) as Hc. rewrite Hf in Hc. apply Hc. Qed.

(** The first frame of a byte string is unique: its header tells its size. *)
Lemma first_frame bs f rest :
  bs = f ++ rest → is_frame f = true → frame_size (take 10 bs) = Ok (zlen f).
Proof.
  intros -> Hf. pose proof (is_frame_bounds f Hf) as Hb. apply is_frame_size in Hf. unfold TPM_HEADER_SIZE, zlen in Hb.
  rewrite take_app_le by lia. rewrite <-Hf. transitivity (frame_size (take 10 f ++ drop 10 f)); [|by rewrite take_drop].
  symmetry. apply frame_size_app. unfold zlen. rewrite length_take. lia.
Qed.
End frame_lemmas.

(** ** Laws: streams *)

Section stream_lemmas.
Context {S : Type} `{ByteStreamOk S}.
Implicit Types s : S.

Lemma fill_exact_ok buf s :
  match fill_exact (buf, s) with
  | (Ok _, (buf', s')) =>
      incoming s = buf' ++ incoming s' ∧ zlen buf' = zlen buf ∧ outgoing s' = outgoing s ∧
      (healthy s → healthy s')
  | (Err e, (buf', s')) =>
      zlen buf' = zlen buf ∧ outgoing s' = outgoing s ∧
      (e = TpmDeviceError.UnexpectedEof ∧ zlen (incoming s) < zlen buf ∨
       ∃ e', e = TpmDeviceError.Io e' ∧ ¬ healthy s)
  | (Panic, _) => False
  end.
Proof.
  unfold fill_exact, st_map_err. pose proof (read_exact_ok buf s) as Hr. pose proof (healthy_read buf s) as Hh.
  destruct (read_exact (buf, s)) as [[u|e|] [buf' s']]; cbn [map_err]; [| |done].
  - destruct Hr as (H1' & H2' & H3'). by split_and!.
  - destruct Hr as (H1' & H2' & H3'). split_and!; [done..|].
    case_bool_decide as Hk; [by left; split; [|apply H3']|]. right. exists e. split; [done|].
    intros Hs. by destruct (Hh Hs).
Qed.

(** The result of [read_frame], from what is to come. *)
Lemma read_frame_ok buf s :
  match read_frame (buf, s) with
  | (Ok _, (f, s')) =>
      is_frame f = true ∧ incoming s = f ++ incoming s' ∧ outgoing s' = outgoing s ∧ (healthy s → healthy s')
  | (Err e, (_, s')) =>
      outgoing s' = outgoing s ∧
      (e = TpmDeviceError.UnexpectedEof ∧ (∀ f rest, incoming s = f ++ rest → is_frame f = false) ∨
       e = TpmDeviceError.InvalidResponse ∧ TPM_HEADER_SIZE ≤ zlen (incoming s) ∧
         frame_size (take 10 (incoming s)) = Err TpmDeviceError.InvalidResponse ∨
       ∃ e', e = TpmDeviceError.Io e' ∧ ¬ healthy s)
  | (Panic, _) => False
  end.
Proof.
  unfold read_frame, st_bind, resize_buf. cbn [fst snd].
  pose proof (zlen_resize TPM_HEADER_SIZE [] ltac:(done)) as Hlen.
  set (buf0 := resize TPM_HEADER_SIZE []) in *. pose proof (fill_exact_ok buf0 s) as Hf.
  destruct (fill_exact (buf0, s)) as [[u|e|] [h s1]]; [| |done].
  2:{ destruct Hf as (_ & Ho & Hf). split; [done|]. destruct Hf as [[-> Hshort]|Hio]; [left | by right; right].
      split; [done|]. intros f rest Hin. destruct (is_frame f) eqn:Hfr; [|done].
      apply is_frame_bounds in Hfr. rewrite Hin, zlen_app in Hshort. pose proof (zlen_nonneg rest). lia. }
  destruct Hf as (Hin & Hl & Ho & Hh). rewrite Hlen in Hl.
  assert (take 10 (incoming s) = h) as Hhead.
  { rewrite Hin, take_app_le by (unfold zlen, TPM_HEADER_SIZE in Hl; lia).
    apply take_ge. unfold zlen, TPM_HEADER_SIZE in Hl. lia. }
  pose proof (frame_size_cases h) as Hc. destruct (frame_size h) as [size|e|] eqn:Hsize; [| |done].
  2:{ split; [done|]. right; left. split_and!; [done| |rewrite Hhead, Hsize; by subst e].
      rewrite Hin, zlen_app. pose proof (zlen_nonneg (incoming s1)). lia. }
  destruct Hc as [_ [Hs1 Hs2]].
  assert (take 10 (resize size h) = h) as Htake.
  { replace 10%nat with (length h) by (unfold zlen, TPM_HEADER_SIZE in Hl; lia).
    apply resize_grow. lia. }
  pose proof (zlen_resize size h ltac:(unfold TPM_HEADER_SIZE in Hs1; lia)) as Hrl.
  unfold fill_exact_from. rewrite Hrl.
  destruct (Z.ltb_spec size TPM_HEADER_SIZE); [lia|]. change (Z.to_nat TPM_HEADER_SIZE) with 10%nat. rewrite Htake.
  pose proof (fill_exact_ok (drop 10 (resize size h)) s1) as Hf2.
  assert (zlen (drop 10 (resize size h)) = size - 10) as Hdrop.
  { unfold zlen in *. rewrite length_drop. unfold TPM_HEADER_SIZE in *. lia. }
  destruct (fill_exact (drop 10 (resize size h), s1)) as [[u2|e|] [t s2]]; [| |done].
  - destruct Hf2 as (Hin2 & Hl2 & Ho2 & Hh2). split_and!; [| |congruence|auto].
    + apply is_frame_size. rewrite frame_size_app by (unfold TPM_HEADER_SIZE in Hl; lia).
      rewrite Hsize, zlen_app. f_equal. unfold TPM_HEADER_SIZE in Hl. lia.
    + by rewrite Hin, Hin2, (assoc_L (++)).
  - destruct Hf2 as (_ & Ho2 & Hf2). split; [congruence|].
    destruct Hf2 as [[-> Hshort]|(e' & -> & Hne)]; [left|right; right; exists e'; split; [done|auto]].
    split; [done|]. intros f rest Hf. destruct (is_frame f) eqn:Hfr; [|done].
    pose proof (first_frame _ _ _ Hf Hfr) as Hff. rewrite Hhead, Hsize in Hff. injection Hff as ->.
    rewrite Hf in Hin. apply (f_equal zlen) in Hin. rewrite !zlen_app in Hin. pose proof (zlen_nonneg rest).
    unfold TPM_HEADER_SIZE in Hl. lia.
Qed.

Lemma write_frame_ok frame s :
  match write_frame frame s with
  | (Ok _, s') =>
      outgoing s' = outgoing s ++ frame ∧ incoming s' = incoming s ∧ (healthy s → healthy s')
  | (Err e, s') => incoming s' = incoming s ∧ (∃ e', e = TpmDeviceError.Io e') ∧ ¬ healthy s
  | (Panic, _) => False
  end.
Proof.
  unfold write_frame, st_bind, st_map_err. pose proof (write_all_ok frame s) as Hw.
  pose proof (healthy_write frame s) as Hhw.
  destruct (write_all frame s) as [[u|e|] s1]; cbn [map_err]; [| |done].
  2:{ split_and!; [done|by eexists|]. intros Hh. by destruct (Hhw Hh) as (? & ? & ?). }
  destruct Hw as [Ho Hi]. pose proof (flush_ok s1) as Hf. pose proof (healthy_flush s1) as Hhf.
  destruct (flush s1) as [[u2|e|] s2]; cbn [map_err]; [| |done].
  - destruct Hf as [-> ->]. split_and!; [done..|]. intros Hh. destruct (Hhw Hh) as (s1' & ? & Hh1).
    simplify_eq. by destruct (Hhf Hh1) as (? & ? & ?); simplify_eq.
  - split_and!; [congruence|by eexists|]. intros Hh. destruct (Hhw Hh) as (s1' & ? & Hh1).
    simplify_eq. by destruct (Hhf Hh1) as (? & ? & ?).
Qed.

(** What a healthy stream brings is read frame by frame. *)
Lemma read_frame_next buf s f rest :
  healthy s → is_frame f = true → incoming s = f ++ rest →
  ∃ s', read_frame (buf, s) = (Ok (), (f, s')) ∧ incoming s' = rest ∧ outgoing s' = outgoing s ∧ healthy s'.
Proof.
  intros Hh Hf Hin. pose proof (read_frame_ok buf s) as Hr. pose proof (first_frame _ _ _ Hin Hf) as Hff.
  destruct (read_frame (buf, s)) as [[[]|e|] [g s']]; [| |done].
  - destruct Hr as (Hg & Hin' & Ho & Hh'). pose proof (first_frame _ _ _ Hin' Hg) as Hfg.
    rewrite Hff in Hfg. injection Hfg as Hl. rewrite Hin in Hin'.
    apply app_inj_1 in Hin' as [-> ->]; [|unfold zlen in Hl; lia]. exists s'. by split_and!; auto.
  - destruct Hr as [_ [[_ Hn]|[(_ & _ & Hi)|(e' & _ & Hn)]]].
    + by rewrite (Hn _ _ Hin) in Hf.
    + by rewrite Hi in Hff.
    + done.
Qed.

(** A stream that ends within a frame, or before one. *)
Lemma read_frame_end buf s f rest :
  healthy s → is_frame f = true → f = incoming s ++ rest → rest ≠ [] →
  ∃ buf' s', read_frame (buf, s) = (Err TpmDeviceError.UnexpectedEof, (buf', s')) ∧ outgoing s' = outgoing s.
Proof.
  intros Hh Hf Hin Hne. pose proof (read_frame_ok buf s) as Hr.
  destruct (read_frame (buf, s)) as [[[]|e|] [g s']]; [| |done].
  - exfalso. destruct Hr as (Hg & Hin' & _ & _).
    pose proof (first_frame f f [] ltac:(by rewrite app_nil_r) Hf) as H1'.
    pose proof (first_frame f g (incoming s' ++ rest) ltac:(by rewrite Hin, Hin', <-(assoc_L (++))) Hg) as H2'.
    rewrite H1' in H2'. injection H2' as Hl. rewrite Hin, Hin', !zlen_app in Hl.
    pose proof (zlen_nonneg (incoming s')). destruct rest; [done|]. unfold zlen in *. cbn [length] in Hl. lia.
  - exists g, s'. destruct Hr as [Ho [[-> _]|[(_ & Hl & Hi)|(e' & _ & Hn)]]]; [done| |done].
    exfalso. pose proof (first_frame f f [] ltac:(by rewrite app_nil_r) Hf) as H1'.
    rewrite Hin, take_app_le in H1' by (unfold zlen, TPM_HEADER_SIZE in Hl; lia). by rewrite Hi in H1'.
Qed.

Lemma write_frame_healthy frame s :
  healthy s →
  ∃ s', write_frame frame s = (Ok (), s') ∧ outgoing s' = outgoing s ++ frame ∧
    incoming s' = incoming s ∧ healthy s'.
Proof.
  intros Hh. pose proof (write_frame_ok frame s) as Hw. destruct (write_frame frame s) as [[[]|e|] s']; [| |done].
  - exists s'. by destruct Hw as (? & ? & ?); auto.
  - by destruct Hw as (_ & _ & ?).
Qed.
End stream_lemmas.

(** ** Laws: the character device *)

Section posix_lemmas.
Context `{Os}.
Variable timeout : Z.
Import TpmPosixDevice.

(** The bytes a round adds, when it neither ends the call nor fails. *)
Definition chunk (tk : tick) : option (list byte) :=
  if tk_interrupted tk || (timeout <? tk_elapsed tk) then None
  else match receive tk with Ok bytes => Some bytes | _ => None end.

(** What has been received is not a whole frame yet. *)
Definition pending (buf : list byte) (total_size : option Z) : Prop :=
  match total_size with
  | None => zlen buf < TPM_HEADER_SIZE
  | Some size => TPM_HEADER_SIZE ≤ zlen buf ∧ frame_size buf = Ok size ∧ zlen buf < size
  end.

Lemma receive_not_Panic tk : receive tk ≠ Panic.
Proof using Type. unfold receive. by repeat case_match. Qed.

(** Why a round ends the call. *)
Definition ends_with (tk : tick) (buf : list byte) (e : TpmDeviceError.t) : Prop :=
  e = TpmDeviceError.Interrupted ∧ tk_interrupted tk = true ∨
  e = TpmDeviceError.Timeout ∧ timeout < tk_elapsed tk ∨
  receive tk = Err e ∨
  ∃ bytes, chunk tk = Some bytes ∧
    (e = TpmDeviceError.InvalidResponse ∧ TPM_HEADER_SIZE ≤ zlen (buf ++ bytes) ∧
       frame_size (buf ++ bytes) = Err e ∨
     e = TpmDeviceError.TrailingData ∧
       ∃ size, frame_size (buf ++ bytes) = Ok size ∧ size < zlen (buf ++ bytes)).

Lemma round_ok tk buf total :
  pending buf total →
  match round timeout tk buf total with
  | inl (Ok _, buf') => ∃ bytes, chunk tk = Some bytes ∧ bytes ≠ [] ∧ buf' = buf ++ bytes ∧ is_frame buf' = true
  | inl (Err e, _) => ends_with tk buf e
  | inl (Panic, _) => False
  | inr (buf', total') => ∃ bytes, chunk tk = Some bytes ∧ buf' = buf ++ bytes ∧ pending buf' total'
  end.
Proof using Type.
  intros Hp. unfold round. destruct (tk_interrupted tk) eqn:Hi; [by left|].
  destruct (Z.ltb_spec timeout (tk_elapsed tk)) as [Ht|Ht]; [by right; left|].
  destruct (receive tk) as [bytes|e|] eqn:Hr; [|by right; right; left|by apply receive_not_Panic in Hr].
  assert (chunk tk = Some bytes) as Hc.
  { unfold chunk. by rewrite Hi, (proj2 (Z.ltb_ge _ _)), Hr. }
  assert (∀ size, frame_size (buf ++ bytes) = Ok size →
    match (if zlen (buf ++ bytes) =? size then inl (Ok (), buf ++ bytes)
           else if size <? zlen (buf ++ bytes) then inl (Err TpmDeviceError.TrailingData, buf ++ bytes)
           else inr (buf ++ bytes, Some size)) with
    | inl (Ok _, buf') => ∃ bytes, chunk tk = Some bytes ∧ bytes ≠ [] ∧ buf' = buf ++ bytes ∧ is_frame buf' = true
    | inl (Err e, _) => ends_with tk buf e
    | inl (Panic, _) => False
    | inr (buf', total') => ∃ bytes, chunk tk = Some bytes ∧ buf' = buf ++ bytes ∧
        (TPM_HEADER_SIZE ≤ zlen (buf ++ bytes) → pending buf' total')
    end) as Hsized.
  { intros size Hs. destruct (Z.eqb_spec (zlen (buf ++ bytes)) size) as [He|Hne].
    - exists bytes. split_and!; [done| |done|by apply is_frame_size; rewrite Hs, He].
      intros ->. rewrite app_nil_r in He, Hs. destruct total as [size'|]; simpl in Hp.
      + destruct Hp as (_ & Hp & Hlt). rewrite Hs in Hp. injection Hp as ->. lia.
      + pose proof (frame_size_cases buf) as Hcs. rewrite Hs in Hcs. lia.
    - destruct (Z.ltb_spec size (zlen (buf ++ bytes))); [right; right; right|].
      + exists bytes. split; [done|]. right. split; [done|]. by exists size.
      + exists bytes. split_and!; [done..|]. intros. split_and!; [done..|lia]. }
  destruct total as [size|]; cbn [pending] in Hp.
  - destruct Hp as (Hl & Hs & Hlt).
    assert (frame_size (buf ++ bytes) = Ok size) as Hs'.
    { rewrite frame_size_app; [done|]. unfold TPM_HEADER_SIZE in Hl. lia. }
    specialize (Hsized size Hs'). cbn zeta. pose proof (zlen_nonneg bytes).
    destruct (zlen (buf ++ bytes) =? size); [done|]. destruct (size <? _); [done|].
    destruct Hsized as (b & H1 & H2 & H3). exists b. split_and!; [done..|]. apply H3. rewrite <-H2, zlen_app. lia.
  - destruct (Z.leb_spec TPM_HEADER_SIZE (zlen (buf ++ bytes))) as [Hl|Hl]; [|by exists bytes].
    pose proof (frame_size_cases (buf ++ bytes)) as Hcs.
    destruct (frame_size (buf ++ bytes)) as [size|e|] eqn:Hs; cbn [result_bind]; [| |done].
    + specialize (Hsized size eq_refl). destruct (zlen (buf ++ bytes) =? size); [done|].
      destruct (size <? _); [done|]. destruct Hsized as (b & H1 & H2 & H3). exists b. split_and!; [done..|]. apply H3. by rewrite <-H2.
    + right; right; right. exists bytes. split; [done|]. left. by subst e.
Qed.

(** The call, over what the environment answers. *)
Lemma recv_loop_ok ticks buf total :
  pending buf total →
  match recv_loop timeout ticks buf total with
  | Some (Ok _, buf', rest) =>
      ∃ used tk chunks bytes, ticks = used ++ tk :: rest ∧ mapM chunk used = Some chunks ∧
        chunk tk = Some bytes ∧ bytes ≠ [] ∧ buf' = buf ++ concat chunks ++ bytes ∧ is_frame buf' = true
  | Some (Err e, _, rest) =>
      ∃ used tk chunks, ticks = used ++ tk :: rest ∧ mapM chunk used = Some chunks ∧
        ends_with tk (buf ++ concat chunks) e
  | Some (Panic, _, _) => False
  | None => ∃ chunks, mapM chunk ticks = Some chunks
  end.
Proof using Type.
  revert buf total; induction ticks as [|tk ticks IH]; intros buf total Hp; cbn [recv_loop]; [by exists []|].
  pose proof (round_ok tk buf total Hp) as Hr. destruct (round timeout tk buf total) as [[[u|e|] buf']|[buf' total']].
  - destruct Hr as (bytes & Hc & Hne & -> & Hf). by exists [], tk, [], bytes.
  - exists [], tk, []. by rewrite app_nil_r.
  - done.
  - destruct Hr as (bytes & Hc & -> & Hp'). specialize (IH _ _ Hp').
    destruct (recv_loop timeout ticks _ total') as [[[[u|e|] buf''] rest]|].
    + destruct IH as (used & tk' & chunks & bytes' & -> & Hm & Hc' & Hne & -> & Hf).
      exists (tk :: used), tk', (bytes :: chunks), bytes'. cbn [mapM concat]. rewrite Hc. cbn [mbind option_bind].
      split_and!; [done | by rewrite Hm | done | done | by rewrite <-!(assoc_L (++)) | done].
    + destruct IH as (used & tk' & chunks & -> & Hm & He). exists (tk :: used), tk', (bytes :: chunks).
      cbn [mapM concat]. rewrite Hc. cbn [mbind option_bind]. 
      rewrite <-(assoc_L (++)) in He. split_and!; [done | by rewrite Hm | done].
    + done.
    + destruct IH as [chunks Hm]. exists (bytes :: chunks). cbn [mapM]. rewrite Hc. cbn [mbind option_bind]. by rewrite Hm.
Qed.

(** A round in which a part of a frame arrives. *)
Lemma round_of_frame tk buf total c more :
  pending buf total → chunk tk = Some c → is_frame (buf ++ c ++ more) = true →
  match round timeout tk buf total with
  | inl (r, buf') => more = [] ∧ r = Ok () ∧ buf' = buf ++ c
  | inr (buf', total') => more ≠ [] ∧ buf' = buf ++ c ∧ pending buf' total'
  end.
Proof using Type.
  intros Hp Hc Hf. pose proof (round_ok tk buf total Hp) as Hr.
  rewrite (assoc_L (++)) in Hf. pose proof (is_frame_bounds _ Hf) as Hb. apply is_frame_size in Hf.
  rewrite zlen_app in Hf, Hb. pose proof (zlen_nonneg more).
  assert (TPM_HEADER_SIZE ≤ zlen (buf ++ c) → frame_size (buf ++ c) = Ok (zlen (buf ++ c) + zlen more)) as Hs.
  { intros Hl. rewrite <-Hf. symmetry. apply frame_size_app. unfold TPM_HEADER_SIZE in Hl. lia. }
  destruct (round timeout tk buf total) as [[[u|e|] buf']|[buf' total']]; [| |done|].
  - destruct Hr as (bytes & Hc' & _ & -> & Hfr). rewrite Hc in Hc'. injection Hc' as <-.
    pose proof (is_frame_bounds _ Hfr) as Hb'. apply is_frame_size in Hfr.
    rewrite (Hs (proj1 Hb')) in Hfr. injection Hfr as Hz. destruct u. split; [|done]. apply zlen_nil_inv. lia.
  - exfalso. unfold chunk in Hc. destruct Hr as [[_ Hi]|[[_ Ht]|[He|(bytes & Hc' & Hr)]]].
    + by rewrite Hi in Hc.
    + by rewrite (proj2 (Z.ltb_lt _ _) Ht), orb_true_r in Hc.
    + rewrite He in Hc. by destruct (_ || _).
    + unfold chunk in Hc'. rewrite Hc in Hc'. injection Hc' as <-.
      destruct Hr as [(_ & Hl & He)|(_ & size & He & Hlt)]; [by rewrite (Hs Hl) in He|].
      pose proof (frame_size_cases (buf ++ c)) as Hcs. rewrite He in Hcs. destruct Hcs as [_ Hcs].
      rewrite Hs in He by lia. injection He as He. lia.
  - destruct Hr as (bytes & Hc' & -> & Hp'). rewrite Hc in Hc'. injection Hc' as <-. split_and!; [|done..].
    intros ->. change (zlen []) with 0 in *. destruct total' as [size|]; cbn [pending] in Hp'; [|lia].
    destruct Hp' as (Hl & Hs' & Hlt). rewrite (Hs Hl) in Hs'. injection Hs' as Hs'. lia.
Qed.

(** However a frame is split into chunks, it is put together again. *)
Lemma recv_loop_frame used chunks tk bytes rest buf total :
  pending buf total → mapM chunk used = Some chunks → chunk tk = Some bytes → bytes ≠ [] →
  is_frame (buf ++ concat chunks ++ bytes) = true →
  recv_loop timeout (used ++ tk :: rest) buf total = Some (Ok (), buf ++ concat chunks ++ bytes, rest).
Proof using Type.
  revert buf total chunks; induction used as [|tk0 used IH]; intros buf total chunks Hp Hm Hc Hne Hf.
  - injection Hm as <-. cbn [concat app recv_loop] in *.
    pose proof (round_of_frame tk buf total bytes [] Hp Hc) as Hr. rewrite app_nil_r in Hr.
    destruct (round timeout tk buf total) as [[r b]|[b t]].
    + by destruct (Hr Hf) as [_ [-> ->]].
    + by destruct (Hr Hf) as [? _].
  - apply mapM_Some in Hm. apply Forall2_cons_inv_l in Hm as (c & chunks' & Hc0 & Hm & ->).
    apply mapM_Some in Hm. cbn [concat app recv_loop] in *. rewrite <-!(assoc_L (++)) in Hf |- *.
    pose proof (round_of_frame tk0 buf total c (concat chunks' ++ bytes) Hp Hc0) as Hr.
    destruct (round timeout tk0 buf total) as [[r b]|[b t]].
    + destruct (Hr Hf) as [Hnil _]. by apply app_nil in Hnil as [_ ?].
    + destruct (Hr Hf) as (_ & -> & Hp'). rewrite (assoc_L (++) buf) in Hf |- *. by apply IH.
Qed.
End posix_lemmas.
