(* ===== verification/Device.v ===== *)
(** [TpmDevice], [TpmResponder] and [TpmPolicySession] of
    [device/src/lib.rs], over any [TpmTransport]. *)

From stdpp Require Import sorting.
From S2P Require Import Prelude State Errors Writer Codec Integer Buffer Tpml Struct EnumMacro Enums Rc Attributes.
From S2P Require Import BasicTypes Schemes Structures Body FrameData Dispatch Envelope Response Marshal.
From S2P Require Import Crypto Hash Transport.

Abbreviation E := TpmDeviceError.t.

(** ** [with_device]

    The [Rc<RefCell<TpmDevice>>] is a cell with its borrow flag; the function
    runs on the cell, since it can reach it through another [Rc]. *)

Record RefCell (A : Type) := mk_cell { borrowed : bool; contents : A }.
Arguments mk_cell {A}. Arguments borrowed {A}. Arguments contents {A}.

Definition with_device `{Os} {D T Err_ : Type} (from : E → Err_) (device : bool)
    (function : State (RefCell D) Err_ T) : State (RefCell D) Err_ T := λ cell,
  if negb device then (Err (from TpmDeviceError.NotAvailable), cell)
  else if borrowed cell then (Err (from TpmDeviceError.AlreadyBorrowed), cell)
  else
    let (r, cell) := function (mk_cell true (contents cell)) in
    (r, mk_cell false (contents cell)).

(** ** [struct TpmDevice] *)

Module TpmDevice.
(** [response_addr] is the address of the response buffer. *)
Record t (T : Type) := mk {
  transport : T; command : list byte; response : list byte; response_addr : Z }.
Arguments mk {T}. Arguments transport {T}. Arguments command {T}.
Arguments response {T}. Arguments response_addr {T}.

Section device.
Context `{Os} {T : Type} `{!TpmTransport T}.
Abbreviation Dev := (State (t T) E).

Definition NO_SESSIONS : list (ty TpmsAuthCommand) := [].
Definition CAPABILITY_PAGE_SIZE : Z := MAX_HANDLES.

Definition new (response_addr : Z) (transport : T) : t T := mk transport [] [] response_addr.

Definition prepare_command (command : TpmFrame) (sessions : list (ty TpmsAuthCommand)) : Dev () := λ d,
  let tag := if nil_b sessions then TpmSt.NoSessions else TpmSt.Sessions in
  let buf := resize TPM_MAX_COMMAND_SIZE (TpmDevice.command d) in
  let (r, writer) := tpm_marshal_command command tag sessions (writer_new buf) in
  match map_err TpmDeviceError.Marshal r with
  | Ok _ =>
      let len := writer_len writer in
      (Ok (), mk (transport d) (take (Z.to_nat len) (buffer writer)) (response d) (response_addr d))
  | Err e => (Err e, mk (transport d) (buffer writer) (response d) (response_addr d))
  | Panic => (Panic, mk (transport d) (buffer writer) (response d) (response_addr d))
  end.

(** [self.transport.send(&self.command)] and [recv(&mut self.response)] *)
Definition send_command : Dev () := λ d,
  let (r, transport) := send (command d) (transport d) in
  (r, mk transport (command d) (response d) (response_addr d)).
Definition recv_response : Dev () := λ d,
  let '(r, (response, transport)) := recv (response d, transport d) in
  (r, mk transport (command d) response (response_addr d)).
(** [&self.response] *)
Definition response_slice : Dev slice := λ d, (Ok (mk_slice (response_addr d) (response d)), d).

Definition transmit (command : TpmFrame) (sessions : list (ty TpmsAuthCommand)) : Dev slice :=
  let* _ := prepare_command command sessions in
  let cc := frame_cc command in
  let* _ := send_command in
  let* _ := recv_response in
  let* buf := response_slice in
  let* response := st_lift (map_err TpmDeviceError.Unmarshal (TpmResponse.cast buf)) in
  let* outcome := st_lift (map_err TpmDeviceError.Unmarshal (TpmResponseView.cast cc response)) in
  match outcome with
  | TpmResponseView.Dispatched _ => st_ret response
  | TpmResponseView.Rejected rc => st_lift (Err (TpmDeviceError.TpmRc rc))
  end.

(** [transmit(&cmd, sessions)?.unmarshal::<R>().map_err(Unmarshal)?] *)
Definition exchange (B : Body) (cmd : body B) (R : Body) : Dev (body R) :=
  let* response := transmit (TpmBody.frame B cmd) NO_SESSIONS in
  st_lift (map_err TpmDeviceError.Unmarshal (TpmResponse.unmarshal R response)).

(** *** Capabilities *)

Definition get_capability_page (cap : TpmCap.t) (property property_count : TpmInt.t)
    : Dev (bool * TpmsCapabilityData.t) :=
  let cmd := Body.mk (B:=TpmGetCapabilityCommand) [] (cap, (property, (property_count, tt))) in
  let* body := exchange TpmGetCapabilityCommand cmd TpmGetCapabilityResponse in
  let '(more_data, (capability_data, _)) := params (B:=TpmGetCapabilityResponse) body in
  st_ret (more_data, capability_data).

Section get_capability.
Context {A : Type} (cap : TpmCap.t) (count : Z).
Context (extract : TpmuCapabilities.t → result E (list A)) (next_prop : A → Z).

(** The variables of the loop; [finished] after a [break]. *)
Record paging := mk_paging { results : list A; prop : Z; finished : bool }.

Definition page_body (st : paging) : Dev paging :=
  let* (more_data, cap_data) :=
    get_capability_page cap (TpmInt.new 4 (prop st)) (TpmInt.new 4 count) in
  let* items := st_lift (extract (TpmsCapabilityData.data cap_data)) in
  let results := results st ++ items in
  st_ret
    (if negb more_data then mk_paging results (prop st) true
     else match list.last items with
          | None => mk_paging results (prop st) true
          | Some last =>
              let next := next_prop last in
              if next <=? prop st then mk_paging results (prop st) true
              else mk_paging results next false
          end).

(** Each round but the last increases [prop], a [u32]. *)
Definition paging_bound : positive := 2 ^ 32 + 1.

Definition get_capability (property_start : Z) : Dev (list A) :=
  let* st := st_while paging_bound (λ st, negb (finished st)) page_body
               (mk_paging [] property_start false) in
  st_ret (results st).
End get_capability.

Definition missing {A} (cap : TpmCap.t) : result E A := Err (TpmDeviceError.CapabilityMissing cap).

Definition fetch_algorithm_properties : Dev (list (ty TpmsAlgProperty)) :=
  get_capability TpmCap.Algs CAPABILITY_PAGE_SIZE
    (λ caps, match caps with TpmuCapabilities.Algs algs => Ok (TpmList.deref algs) | _ => missing TpmCap.Algs end)
    (λ last : ty TpmsAlgProperty, value (T:=TpmAlgId.t) last.1 + 1) 0.

Definition fetch_handles (class : TpmHt.t) : Dev (list TpmInt.t) :=
  let class_prefix := Z.shiftl (value class) 24 `mod` 2 ^ 32 in
  let* handles := get_capability TpmCap.Handles CAPABILITY_PAGE_SIZE
    (λ caps, match caps with
             | TpmuCapabilities.Handles handles => Ok (TpmList.deref handles)
             | _ => missing TpmCap.Handles end)
    (λ last, (TpmInt.value 4 false last + 1) `min` u32_max) class_prefix in
  st_ret (filter (λ handle, Z.shiftr (TpmInt.value 4 false handle) 24 = value class) handles).

Definition fetch_ecc_curves : Dev (list TpmEccCurve.t) :=
  get_capability TpmCap.EccCurves CAPABILITY_PAGE_SIZE
    (λ caps, match caps with
             | TpmuCapabilities.EccCurves curves => Ok (TpmList.deref curves)
             | _ => missing TpmCap.EccCurves end)
    (λ last : TpmEccCurve.t, value last + 1) 0.

(** The loop of [fetch_pcr_bank_list] over the banks; [bank.pcr_select] is
    read through [Deref]. *)
Fixpoint pcr_banks_loop (pcrs : list (ty TpmsPcrSelection)) (common_select : option (ty TpmsPcrSelect))
    (algs : list TpmAlgId.t) : result E (option (ty TpmsPcrSelect) * list TpmAlgId.t) :=
  match pcrs with
  | [] => Ok (common_select, algs)
  | bank :: pcrs =>
      let pcr_select := TpmsPcrSelection.pcr_select bank in
      match TpmsPcrSelect.deref pcr_select with
      | Ok bytes =>
          if forallb (λ b, byte.unsigned b =? 0) bytes then pcr_banks_loop pcrs common_select algs
          else
            match common_select with
            | Some select =>
                if bool_decide (pcr_select ≠ select) then Err TpmDeviceError.PcrBankSelectionMismatch
                else pcr_banks_loop pcrs common_select (algs ++ [TpmsPcrSelection.hash bank])
            | None => pcr_banks_loop pcrs (Some pcr_select) (algs ++ [TpmsPcrSelection.hash bank])
            end
      | _ => Panic
      end
  end.

(** [Ord for TpmAlgId]: the derived order of the discriminants *)
Definition alg_le (a b : TpmAlgId.t) : Prop := value a ≤ value b.
#[global] Instance alg_le_dec : RelDecision alg_le.
Proof. intros a b. unfold alg_le. apply _. Defined.
#[global] Instance alg_le_total : Total alg_le.
Proof. intros a b. unfold alg_le. lia. Qed.

Definition fetch_pcr_bank_list : Dev (list TpmAlgId.t * ty TpmsPcrSelect) :=
  let* pcrs := get_capability TpmCap.Pcrs CAPABILITY_PAGE_SIZE
    (λ caps, match caps with
             | TpmuCapabilities.Pcrs pcrs => Ok (TpmList.deref pcrs)
             | _ => missing TpmCap.Pcrs end)
    (λ last, value (TpmsPcrSelection.hash last) + 1) 0 in
  match pcrs with
  | [] => st_lift (Err TpmDeviceError.PcrBanksNotAvailable)
  | _ =>
      let* (common_select, algs) := st_lift (pcr_banks_loop pcrs None []) in
      let* select := st_lift (ok_or common_select TpmDeviceError.PcrBanksNotAvailable) in
      st_ret (merge_sort alg_le algs, select)
  end.

Definition fetch_tpm_property (property : TpmPt.t) : Dev Z :=
  let* (_, cap_data) :=
    get_capability_page TpmCap.TpmProperties (TpmInt.new 4 (value property)) (TpmInt.new 4 1) in
  st_lift
    match TpmsCapabilityData.data cap_data with
    | TpmuCapabilities.TpmProperties props =>
        match list_find (λ prop : ty TpmsTaggedProperty, prop.1 = property) (TpmList.deref props) with
        | Some (_, prop) => Ok (TpmInt.value 4 false (fst (snd prop)))
        | None => missing TpmCap.TpmProperties
        end
    | _ => missing TpmCap.TpmProperties
    end.

(** *** Objects and contexts *)

Definition read_public (handle : TpmInt.t) : Dev (TpmtPublic.t * ty Tpm2bName) :=
  let* body := exchange TpmReadPublicCommand (Body.mk (B:=TpmReadPublicCommand) [handle] tt)
                 TpmReadPublicResponse in
  let '(out_public, (name, _)) := params (B:=TpmReadPublicResponse) body in
  st_ret (Tpm2bStruct.inner out_public, name).

(** The handle does not refer to an object (any more). *)
Definition is_gone (rc : TpmRc.t) : bool :=
  let base := TpmRc.base rc in
  bool_decide (base = TpmRcBase.ReferenceH0) || bool_decide (base = TpmRcBase.Handle).

Fixpoint find_loop (target_name : ty Tpm2bName) (handles : list TpmInt.t) : Dev (option TpmInt.t) :=
  match handles with
  | [] => st_ret None
  | handle :: handles => λ d,
      match read_public handle d with
      | (Ok (_, name), d) =>
          if bool_decide (TpmBuffer.deref name = TpmBuffer.deref target_name)
          then (Ok (Some handle), d) else find_loop target_name handles d
      | (Err (TpmDeviceError.TpmRc rc), d) =>
          if is_gone rc then find_loop target_name handles d else (Err (TpmDeviceError.TpmRc rc), d)
      | (Err e, d) => (Err e, d)
      | (Panic, d) => (Panic, d)
      end
  end.
Definition find_persistent (target_name : ty Tpm2bName) : Dev (option TpmInt.t) :=
  let* handles := fetch_handles TpmHt.Persistent in
  find_loop target_name handles.

Definition save_context (save_handle : TpmInt.t) : Dev (ty TpmsContext) :=
  let* body := exchange TpmContextSaveCommand (Body.mk (B:=TpmContextSaveCommand) [save_handle] tt)
                 TpmContextSaveResponse in
  st_ret (params (B:=TpmContextSaveResponse) body).1.

(** [let [handle] = body.handles] *)
Definition load_context (context : ty TpmsContext) : Dev TpmInt.t :=
  let* body := exchange TpmContextLoadCommand (Body.mk (B:=TpmContextLoadCommand) [] (context, tt))
                 TpmContextLoadResponse in
  st_lift (or_panic (handles body !! 0%nat)).

Definition flush_context (handle : TpmInt.t) : Dev () :=
  let cmd := Body.mk (B:=TpmFlushContextCommand) [] (handle, tt) in
  let* _ := transmit (TpmBody.frame TpmFlushContextCommand cmd) NO_SESSIONS in
  st_ret tt.

Definition flush_session (context : ty TpmsContext) : Dev () := λ d,
  match load_context context d with
  | (Ok handle, d) => flush_context handle d
  | (Err (TpmDeviceError.TpmRc rc), d) =>
      (if is_gone rc then Ok tt else Err (TpmDeviceError.TpmRc rc), d)
  | (Err e, d) => (Err e, d)
  | (Panic, d) => (Panic, d)
  end.
End device.
End TpmDevice.

(** ** [struct TpmResponder] *)

Module TpmResponder.
Record t (T : Type) := mk { transport : T; command : list byte }.
Arguments mk {T}. Arguments transport {T}. Arguments command {T}.

Section responder.
Context `{Os} {T : Type} `{!TpmTransport T}.

Definition new (transport : T) : t T := mk transport [].

Definition recv_command : State (t T) E (list byte) := λ self,
  let '(r, (command, transport)) := recv (command self, transport self) in
  (let? _ := r in Ok command, mk transport command).
Definition send_response (frame : list byte) : State (t T) E () := λ self,
  let (r, transport) := send frame (transport self) in (r, mk transport (command self)).

(** [serve], with a handler that threads its own state [X]; [None] when it
    still serves after [fuel] commands. *)
Fixpoint serve {X} (handler : list byte → X → list byte * X) (fuel : nat) (self : t T) (x : X)
    : option (result E () * t T * X) :=
  match fuel with
  | O => None
  | S fuel =>
      match recv_command self with
      | (Err TpmDeviceError.UnexpectedEof, self) => Some (Ok tt, self, x)
      | (Err e, self) => Some (Err e, self, x)
      | (Panic, self) => Some (Panic, self, x)
      | (Ok command, self) =>
          let (response, x) := handler command x in
          match send_response response self with
          | (Ok _, self) => serve handler fuel self x
          | (Err e, self) => Some (Err e, self, x)
          | (Panic, self) => Some (Panic, self, x)
          end
      end
  end.
End responder.
End TpmResponder.
