(* ===== verification/DeviceSession.v ===== *)
(** [TpmPolicySessionBuilder] and [TpmPolicySession] of [device/src/lib.rs]. *)

From S2P Require Import Prelude State Errors Writer Codec Integer Buffer Tpml Struct EnumMacro Enums Rc Attributes.
From S2P Require Import BasicTypes Schemes Structures Body FrameData Dispatch Envelope Response Marshal.
From S2P Require Import Crypto Hash Transport Device.

(** [(TpmRh::Null as u32).into()] *)
Definition null_handle : TpmInt.t := TpmInt.new 4 (value TpmRh.Null).

Module TpmPolicySession.
Record t := mk {
  handle : TpmInt.t; attributes : Bitflags.t; hash_alg : TpmAlgId.t; nonce_tpm : ty Tpm2bNonce }.
End TpmPolicySession.

(** ** [struct TpmPolicySessionBuilder] *)

Module TpmPolicySessionBuilder.
Record t := mk {
  bind : TpmInt.t;
  tpm_key : TpmInt.t;
  nonce_caller : option (ty Tpm2bNonce);
  encrypted_salt : option (ty Tpm2bEncryptedSecret);
  session_type : TpmSe.t;
  symmetric : TpmtSymDef.t;
  auth_hash : TpmAlgId.t
}.

(** [Default] *)
Definition new : t :=
  mk null_handle null_handle None None TpmSe.Policy sym_def_default TpmAlgId.Sha256.

Definition with_bind (bind : TpmInt.t) (self : t) : t :=
  mk bind (tpm_key self) (nonce_caller self) (encrypted_salt self) (session_type self)
    (symmetric self) (auth_hash self).
Definition with_tpm_key (tpm_key : TpmInt.t) (self : t) : t :=
  mk (bind self) tpm_key (nonce_caller self) (encrypted_salt self) (session_type self)
    (symmetric self) (auth_hash self).
Definition with_nonce_caller (nonce : ty Tpm2bNonce) (self : t) : t :=
  mk (bind self) (tpm_key self) (Some nonce) (encrypted_salt self) (session_type self)
    (symmetric self) (auth_hash self).
Definition with_encrypted_salt (salt : ty Tpm2bEncryptedSecret) (self : t) : t :=
  mk (bind self) (tpm_key self) (nonce_caller self) (Some salt) (session_type self)
    (symmetric self) (auth_hash self).
Definition with_session_type (session_type : TpmSe.t) (self : t) : t :=
  mk (bind self) (tpm_key self) (nonce_caller self) (encrypted_salt self) session_type
    (symmetric self) (auth_hash self).
Definition with_symmetric (symmetric : TpmtSymDef.t) (self : t) : t :=
  mk (bind self) (tpm_key self) (nonce_caller self) (encrypted_salt self) (session_type self)
    symmetric (auth_hash self).
Definition with_auth_hash (auth_hash : TpmAlgId.t) (self : t) : t :=
  mk (bind self) (tpm_key self) (nonce_caller self) (encrypted_salt self) (session_type self)
    (symmetric self) auth_hash.

Section open.
Context `{Libcrypto, Os} {T : Type} `{!TpmTransport T}.
(** [thread_rng().fill_bytes(&mut buf)] *)
Variable fill_bytes : list byte → list byte.

(** The caller's nonce: the given one, or as many random bytes as a digest
    of [auth_hash] has. *)
Definition the_nonce (self : t) : result E (ty Tpm2bNonce) :=
  match nonce_caller self with
  | Some nonce => Ok nonce
  | None =>
      let? hash := map_err (λ _, TpmDeviceError.UnsupportedAlgorithm (auth_hash self))
                     (TpmHash.try_from (auth_hash self)) in
      let digest_len := TpmHash.size hash in
      let nonce_bytes := fill_bytes (TpmHash.zeroed digest_len) in
      map_err TpmDeviceError.Unmarshal (TpmBuffer.try_from MAX_DIGEST_SIZE nonce_bytes)
  end.

Definition open (self : t) : State (TpmDevice.t T) E TpmPolicySession.t :=
  let* nonce_caller := st_lift (the_nonce self) in
  let cmd := Body.mk (B:=TpmStartAuthSessionCommand) [tpm_key self; bind self]
    (nonce_caller, (default (TpmBuffer.new MAX_RSA_KEY_BYTES) (encrypted_salt self),
     (session_type self, (symmetric self, (auth_hash self, tt))))) in
  let* body := TpmDevice.exchange TpmStartAuthSessionCommand cmd TpmStartAuthSessionResponse in
  let* handle := st_lift (or_panic (handles body !! 0%nat)) in
  let nonce_tpm := (params (B:=TpmStartAuthSessionResponse) body).1 in
  st_ret (TpmPolicySession.mk handle TpmaSession.CONTINUE_SESSION (auth_hash self) nonce_tpm).
End open.
End TpmPolicySessionBuilder.

(** ** [struct TpmPolicySession] *)

(** The match of [run]: which handle of a policy command is the session. *)
Definition session_handle_index (cc : TpmCc.t) : option nat :=
  match cc with
  | TpmCc.PolicyPcr | TpmCc.PolicyOr | TpmCc.PolicyRestart | TpmCc.PolicyAuthorize
  | TpmCc.PolicyAuthValue | TpmCc.PolicyCommandCode | TpmCc.PolicyCounterTimer
  | TpmCc.PolicyCpHash | TpmCc.PolicyLocality | TpmCc.PolicyNameHash | TpmCc.PolicyTicket
  | TpmCc.PolicyPhysicalPresence | TpmCc.PolicyDuplicationSelect | TpmCc.PolicyGetDigest
  | TpmCc.PolicyPassword | TpmCc.PolicyNvWritten | TpmCc.PolicyTemplate
  | TpmCc.PolicyCapability | TpmCc.PolicyParameters | TpmCc.PolicyTransportSpdm => Some 0%nat
  | TpmCc.PolicySecret | TpmCc.PolicySigned => Some 1%nat
  | TpmCc.PolicyNv | TpmCc.PolicyAuthorizeNv | TpmCc.PolicyAcSendSelect => Some 2%nat
  | _ => None
  end.

(** [cmd.handles[i] = handle] *)
Definition set_handle (i : nat) (handle : TpmInt.t) (c : TpmCommandValue) : TpmCommandValue :=
  command_value (cv_variant c) (Body.mk (<[i := handle]> (handles (cv_body c))) (params (cv_body c))).

Definition session_command `{Os} (handle : TpmInt.t) (c : TpmCommandValue) : result E TpmCommandValue :=
  match session_handle_index (cv_variant c) with
  | Some i => Ok (set_handle i handle c)
  | None => Err (TpmDeviceError.InvalidCc (TpmCommandValue.cc c))
  end.

Section session.
Context `{Os} {T : Type} `{!TpmTransport T}.
Implicit Types self : TpmPolicySession.t.

Fixpoint run self (commands : list (TpmCommandValue * TpmList.t (ty TpmsAuthCommand)))
    : State (TpmDevice.t T) E () :=
  match commands with
  | [] => st_ret tt
  | (command_body, auth_sessions) :: commands =>
      let* command_body := st_lift (session_command (TpmPolicySession.handle self) command_body) in
      let* _ := TpmDevice.transmit (TpmCommandValue.frame command_body) (TpmList.deref auth_sessions) in
      run self commands
  end.

Definition flush self : State (TpmDevice.t T) E () :=
  TpmDevice.flush_context (TpmPolicySession.handle self).
End session.
