(* ===== verification/DeviceSpec.v ===== *)
(** What [TpmDevice] and [TpmResponder] promise over a transport that keeps
    its contract: commands go out as the frames of [Command.v], responses are
    checked against [Response.v], capability queries end and are complete,
    and a responder answers every command it receives. *)

From stdpp Require Import sorting.
From S2P Require Import Prelude State Errors Writer Codec Integer Buffer Tpml Struct EnumMacro Union Enums Rc Attributes.
From S2P Require Import BasicTypes Schemes Structures Body FrameData Dispatch Envelope Command Response Marshal.
From S2P Require Import Transport Device.

(** ** Transports *)

(** What [TpmTransport] promises the device: no call panics, and what [recv]
    delivers is a whole frame. *)
Class TransportOk (T : Type) `{TpmTransport T} : Prop := {
  send_no_panic bs (t : T) : (send bs t).1 ≠ Panic;
  recv_no_panic buf (t : T) : (recv (buf, t)).1 ≠ Panic;
  recv_frame buf (t t' : T) f : recv (buf, t) = (Ok (), (f, t')) → is_frame f = true
}.

Section stream_transport.
Context {S : Type} `{ByteStreamOk S}.

Lemma stream_send bs (s : S) :
  send bs (TpmStreamTransport.mk s) = let (r, s) := write_frame bs s in (r, TpmStreamTransport.mk s).
Proof using Type. reflexivity. Qed.
Lemma stream_recv buf (s : S) :
  recv (buf, TpmStreamTransport.mk s) =
    let '(r, (buf, s)) := read_frame (buf, s) in (r, (buf, TpmStreamTransport.mk s)).
Proof using Type. reflexivity. Qed.

#[export] Instance stream_transport_ok : TransportOk (TpmStreamTransport.t S).
Proof using H1.
  split.
  - intros bs [s]. rewrite stream_send. pose proof (write_frame_ok bs s) as Hw.
    by destruct (write_frame bs s) as [[?|?|] ?].
  - intros buf [s]. rewrite stream_recv. pose proof (read_frame_ok buf s) as Hr.
    by destruct (read_frame (buf, s)) as [[?|?|] [? ?]].
  - intros buf [s] t' f. rewrite stream_recv. pose proof (read_frame_ok buf s) as Hr.
    destruct (read_frame (buf, s)) as [[?|?|] [g s']]; intros [=]; subst. apply Hr.
Qed.
End stream_transport.

(** The peer of [t] answers the frame [f] with [r]. *)
Definition answers `{TpmTransport T} (t : T) (f r : list byte) (t' : T) : Prop :=
  ∃ t1, send f t = (Ok (), t1) ∧ ∀ buf, recv (buf, t1) = (Ok (), (r, t')).

(** A healthy stream on which [r] comes next answers any frame with it. *)
Lemma stream_answers {S : Type} `{ByteStreamOk S} (s : S) f r rest :
  healthy s → is_frame r = true → incoming s = r ++ rest →
  ∃ s', answers (TpmStreamTransport.mk s) f r (TpmStreamTransport.mk s') ∧
    outgoing s' = outgoing s ++ f ∧ incoming s' = rest ∧ healthy s'.
Proof.
  intros Hh Hr Hin. destruct (write_frame_healthy f s Hh) as (s1 & Hw & Ho1 & Hi1 & Hh1).
  rewrite <-Hi1 in Hin. destruct (read_frame_next [] s1 r rest Hh1 Hr Hin) as (s2 & Hr2 & Hi2 & Ho2 & Hh2).
  exists s2. split_and!; [|congruence|done..]. exists (TpmStreamTransport.mk s1). split.
  - by rewrite stream_send, Hw.
  - intros buf. rewrite stream_recv. change (read_frame (buf, s1)) with (read_frame ([], s1)). by rewrite Hr2.
Qed.

(** ** [transmit] *)

Section transmit.
Context `{Os} {T : Type} `{!TpmTransport T}.
Implicit Types d : TpmDevice.t T.
Import TpmDevice.

(** How [transmit] judges a response to [cc]. *)
Definition verdict (cc : TpmCc.t) (s : slice) : DevResult slice :=
  let? response := map_err TpmDeviceError.Unmarshal (TpmResponse.cast s) in
  let? outcome := map_err TpmDeviceError.Unmarshal (TpmResponseView.cast cc response) in
  match outcome with
  | TpmResponseView.Dispatched _ => Ok response
  | TpmResponseView.Rejected rc => Err (TpmDeviceError.TpmRc rc)
  end.

(** Sending the prepared command and judging what is received. *)
Definition round_trip (cc : TpmCc.t) d : DevResult slice * TpmDevice.t T :=
  match send (command d) (transport d) with
  | (Ok _, t1) =>
      match recv (response d, t1) with
      | (Ok _, (r, t2)) =>
          (verdict cc (mk_slice (response_addr d) r), mk t2 (command d) r (response_addr d))
      | (Err e, (r, t2)) => (Err e, mk t2 (command d) r (response_addr d))
      | (Panic, (r, t2)) => (Panic, mk t2 (command d) r (response_addr d))
      end
  | (Err e, t1) => (Err e, mk t1 (command d) (response d) (response_addr d))
  | (Panic, t1) => (Panic, mk t1 (command d) (response d) (response_addr d))
  end.

Lemma transmit_round_trip m sessions d :
  transmit m sessions d =
    match prepare_command m sessions d with
    | (Ok _, d) => round_trip (frame_cc m) d
    | (Err e, d) => (Err e, d)
    | (Panic, d) => (Panic, d)
    end.
Proof using Type.
  unfold transmit, st_bind at 1. destruct (prepare_command m sessions d) as [[[]|e|] d']; [|done..].
  unfold st_bind, send_command, recv_response, response_slice, st_lift, st_ret, round_trip, verdict.
  destruct (send (command d') (transport d')) as [[[]|e|] t1]; [|done..].
  cbn [command transport response response_addr].
  destruct (recv (response d', t1)) as [[[]|e|] [r t2]]; [|done..].
  cbn [command transport response response_addr].
  destruct (TpmResponse.cast _) as [buf|e|]; cbn [map_err result_bind]; [|done..].
  destruct (TpmResponseView.cast _ buf) as [o|e|]; cbn [map_err result_bind]; [|done..].
  by destruct o.
Qed.

(** The device after a round trip. *)
Definition after d (f r : list byte) (t' : T) : TpmDevice.t T := mk t' f r (response_addr d).

(** *** Verdicts *)

(** A successful response that is valid for [cc]. *)
Definition accepted (cc : TpmCc.t) (s : slice) : Prop :=
  TpmResponse.validate s cc = Ok () ∧
  ∃ p, envelope_ok p ∧ sl_data s = envelope_format p ∧ is_success (re_rc p) = true.

Lemma verdict_Ok cc s s' : verdict cc s = Ok s' → s' = s ∧ accepted cc s.
Proof using Type.
  intros (s1 & Hc%map_err_Ok_inv & (o & Ho%map_err_Ok_inv & Hv)%result_bind_Ok_inv)%result_bind_Ok_inv.
  apply response_cast_spec in Hc as (-> & p & Hp & Hd).
  apply response_view_spec in Ho as (rc & Hrc & Ho). rewrite (response_rc_format s p Hp Hd) in Hrc.
  injection Hrc as <-. destruct (is_success _) eqn:Hs; [|by subst].
  destruct Ho as [? ->]. injection Hv as <-. split; [done|]. split; [done|]. by exists p.
Qed.

Lemma verdict_success cc s p :
  envelope_ok p → sl_data s = envelope_format p → is_success (re_rc p) = true →
  TpmResponse.validate s cc = Ok () → verdict cc s = Ok s.
Proof using Type.
  intros Hp Hd Hs Hv. unfold verdict. rewrite (proj2 (response_cast_spec s s)) by (split; [done | by exists p]).
  cbn [map_err result_bind].
  rewrite (proj2 (response_view_spec cc s (TpmResponseView.Dispatched (TpmResponseView.mk cc s)))); [done|].
  exists (re_rc p). split; [by apply response_rc_format|]. by rewrite Hs.
Qed.

Lemma verdict_failed cc s p :
  envelope_ok p → sl_data s = envelope_format p → is_success (re_rc p) = false →
  verdict cc s = Err (TpmDeviceError.TpmRc (re_rc p)).
Proof using Type.
  intros Hp Hd Hs. unfold verdict. rewrite (proj2 (response_cast_spec s s)) by (split; [done | by exists p]).
  cbn [map_err result_bind].
  rewrite (proj2 (response_view_spec cc s (TpmResponseView.Rejected (re_rc p)))); [done|].
  exists (re_rc p). split; [by apply response_rc_format|]. by rewrite Hs.
Qed.

Lemma verdict_Err cc s e :
  verdict cc s = Err e → (∃ e', e = TpmDeviceError.Unmarshal e') ∨ (∃ rc, e = TpmDeviceError.TpmRc rc).
Proof using Type.
  unfold verdict. destruct (TpmResponse.cast s) as [s1|e1|]; cbn [map_err result_bind]; [|intros [= <-]; eauto|done].
  destruct (TpmResponseView.cast cc s1) as [[]|e1|]; cbn [map_err result_bind]; intros [=]; subst; eauto.
Qed.

Lemma verdict_no_panic cc s : verdict cc s ≠ Panic.
Proof using Type.
  apply result_bind_not_Panic.
  { apply map_err_not_Panic, result_bind_not_Panic; [apply response_envelope_no_panic | done]. }
  intros s1 Hc%map_err_Ok_inv. apply response_cast_spec in Hc as (-> & p & Hp & Hd).
  assert (HEADER_SIZE ≤ sl_len s) as Hl.
  { unfold sl_len. rewrite Hd, zlen_envelope_format. pose proof (zlen_nonneg (re_body p)). unfold HEADER_SIZE. lia. }
  apply result_bind_not_Panic; [apply map_err_not_Panic | by intros []].
  apply result_bind_not_Panic; [by apply response_rc_no_panic|]. intros rc _.
  destruct (negb _); [done|]. apply result_bind_not_Panic; [by apply response_validate_no_panic|].
  intros _ _. by rewrite response_select_Ok.
Qed.

End transmit.

(** ** Requests *)

(** The response buffer lies in the address space. *)
Definition device_ok {T} (d : TpmDevice.t T) : Prop :=
  0 ≤ TpmDevice.response_addr d ∧ TpmDevice.response_addr d + TPM_MAX_COMMAND_SIZE ≤ usize_max.

Lemma response_slice_ok {T} (d : TpmDevice.t T) r :
  device_ok d → zlen r ≤ TPM_MAX_COMMAND_SIZE → slice_ok (mk_slice (TpmDevice.response_addr d) r).
Proof.
  intros [? ?] Hl. unfold slice_ok, sl_len; cbn [sl_addr sl_data].
  unfold TPM_MAX_COMMAND_SIZE, isize_max in *. lia.
Qed.

(** The tag [transmit] and [tpm_marshal_response] choose. *)
Abbreviation tag_of sessions := (if nil_b sessions then TpmSt.NoSessions else TpmSt.Sessions).

(** The frame of a command. *)
Definition request (cc : TpmCc.t) (sessions : list (ty TpmsAuthCommand)) (hs ab ps : list byte) : list byte :=
  command_format (mk_command (tag_of sessions) cc hs ab ps).

(** Every body is small. *)
Lemma command_SIZE_small cc : TpmBody.SIZE (command cc) ≤ 2 ^ 16.
Proof. apply Z.leb_le. destruct cc; vm_compute; reflexivity. Qed.
Lemma response_SIZE_small cc : TpmBody.SIZE (response cc) ≤ 2 ^ 16.
Proof. apply Z.leb_le. destruct cc; vm_compute; reflexivity. Qed.

Section request.
Context `{Os} {T : Type} `{!TpmTransport T}.
Implicit Types d : TpmDevice.t T.
Variables (cc : TpmCc.t) (v : body (command cc)) (hs ps : list byte).
Variables (sessions : list (ty TpmsAuthCommand)) (ab : list byte).
Hypothesis Hv : TpmBody.wire (command cc) v = Some (hs, ps).
Hypothesis Hsess : seq_wire TpmsAuthCommand sessions = Some ab.
Local Abbreviation frame := (request cc sessions hs ab ps).
Local Abbreviation m := (TpmBody.frame (command cc) v).

Lemma request_tag :
  tag_of sessions = TpmSt.NoSessions ∧ sessions = [] ∨ tag_of sessions = TpmSt.Sessions ∧ sessions ≠ [].
Proof using Type. clear. destruct sessions; [by left | by right]. Qed.

Lemma request_size : zlen sessions ≤ MAX_SESSIONS → zlen frame ≤ u32_max.
Proof using Hv Hsess.
  intros Hc. pose proof (sessions_small TpmsAuthCommand sessions ab auth_command_max Hsess Hc).
  destruct (body_len (command cc) v hs ps Hv) as (_ & _ & Hl). pose proof (command_SIZE_small cc).
  unfold request. rewrite zlen_command_format. unfold command_body. cbn [cp_handles cp_tag cp_auth cp_params].
  rewrite !zlen_app, zlen_auth_bytes. unfold u32_max. case_bool_decide; lia.
Qed.

Lemma request_writes :
  zlen sessions ≤ MAX_SESSIONS → writes (tpm_marshal_command m (tag_of sessions) sessions) frame.
Proof using Hv Hsess.
  intros Hc. pose proof (request_size Hc) as Hl. unfold request in *.
  pose proof (command_frame_writes (command cc) ltac:(by rewrite command_CC) v hs ps Hv (tag_of sessions) sessions ab
    Hsess Hc request_tag) as Hw.
  rewrite command_CC in Hw. apply Hw. by rewrite <-zlen_command_format.
Qed.

(** What [prepare_command] does to the device: it writes the command buffer
    only, and the frame fits in it when it succeeds. *)
Lemma prepare_command_spec d :
  match TpmDevice.prepare_command m sessions d with
  | (Ok _, d') =>
      d' = TpmDevice.mk (TpmDevice.transport d) frame (TpmDevice.response d) (TpmDevice.response_addr d) ∧
      zlen sessions ≤ MAX_SESSIONS ∧ zlen frame ≤ TPM_MAX_COMMAND_SIZE
  | (Err e, d') =>
      (∃ e', e = TpmDeviceError.Marshal e') ∧ TpmDevice.transport d' = TpmDevice.transport d ∧
      TpmDevice.response d' = TpmDevice.response d ∧ TpmDevice.response_addr d' = TpmDevice.response_addr d ∧
      (MAX_SESSIONS < zlen sessions ∨ TPM_MAX_COMMAND_SIZE < zlen frame)
  | (Panic, _) => False
  end.
Proof using Hv Hsess.
  unfold TpmDevice.prepare_command. cbv zeta.
  set (buf := resize TPM_MAX_COMMAND_SIZE (TpmDevice.command d)).
  assert (zlen buf = TPM_MAX_COMMAND_SIZE) as Hb by by apply zlen_resize.
  set (w := writer_new buf).
  assert (writer_ok w ∧ room w = TPM_MAX_COMMAND_SIZE) as [Hok Hroom].
  { unfold w, writer_ok, room, capacity, writer_new; cbn [cursor buffer]. rewrite Hb. split; [|done].
    split; [done|]. by apply Z.leb_le. }
  destruct (Z.ltb_spec MAX_SESSIONS (zlen sessions)) as [Hc|Hc].
  { rewrite marshal_command_too_many by (done || by destruct sessions).
    cbn [map_err]. split_and!; try done; [by eexists | by left]. }
  destruct (request_writes Hc w Hok) as [Hfit Hover]. rewrite Hroom in *.
  destruct (Z.leb_spec (zlen frame) TPM_MAX_COMMAND_SIZE) as [Hl|Hl].
  - rewrite Hfit by done. cbn [map_err]. split_and!; [|done..].
    f_equal. change (as_bytes (put w frame) = frame). by rewrite put_as_bytes.
  - pose proof (request_size Hc). destruct Hover as (? & ? & ? & _ & _ & ->).
    { split; [lia|]. unfold u32_max, isize_max in *. lia. }
    cbn [map_err]. split_and!; try done; [by eexists | by right].
Qed.

(** A command that fits goes out, and what comes back is judged. *)
Lemma transmit_answers d r t' :
  zlen sessions ≤ MAX_SESSIONS → zlen frame ≤ TPM_MAX_COMMAND_SIZE →
  answers (TpmDevice.transport d) frame r t' →
  TpmDevice.transmit m sessions d =
    (verdict cc (mk_slice (TpmDevice.response_addr d) r), after d frame r t').
Proof using Hv Hsess.
  intros Hc Hl (t1 & Hs & Hr). rewrite transmit_round_trip. pose proof (prepare_command_spec d) as Hp.
  destruct (TpmDevice.prepare_command m sessions d) as [[[]|e|] d']; [|lia|done]. destruct Hp as (-> & _).
  assert (frame_cc m = cc) as -> by apply command_CC.
  unfold round_trip. cbn [TpmDevice.command TpmDevice.transport TpmDevice.response TpmDevice.response_addr].
  by rewrite Hs, Hr.
Qed.
End request.

(** ** Replies *)

Definition success : TpmRc.t := TpmRc.Fmt0 TpmRcBase.Success.

(** The frame of a successful response, and of a failed one. *)
Definition reply (sessions : list (ty TpmsAuthResponse)) (hs ps ab : list byte) : list byte :=
  envelope_format (mk_envelope (tag_of sessions) success (success_body (tag_of sessions) hs ps ab)).
Definition failure (rc : TpmRc.t) : list byte := envelope_format (mk_envelope TpmSt.NoSessions rc []).

Section reply.
Context `{Os}.

Lemma reply_verdict cc (w : body (response cc)) hs ps sessions ab s :
  TpmBody.wire (response cc) w = Some (hs, ps) → seq_wire TpmsAuthResponse sessions = Some ab →
  zlen sessions ≤ MAX_SESSIONS → slice_ok s → sl_data s = reply sessions hs ps ab →
  verdict cc s = Ok s ∧ TpmResponse.unmarshal (response cc) s = Ok w.
Proof using Type.
  intros Hw Hse Hc Hok Hd.
  assert (10 + zlen (success_body (tag_of sessions) hs ps ab) ≤ u32_max) as Hsize.
  { pose proof (sessions_small TpmsAuthResponse sessions ab auth_response_max Hse Hc).
    destruct (body_len (response cc) w hs ps Hw) as (_ & _ & Hl). pose proof (response_SIZE_small cc).
    unfold success_body. unfold u32_max. case_bool_decide; rewrite !zlen_app, ?zlen_be4; lia. }
  pose proof (response_frame_reads (response cc) ltac:(by rewrite response_CC) w hs ps Hw sessions ab Hse Hc
    Hsize s Hok Hd) as (Hcast & Hval & Hu & _). rewrite response_CC in Hval.
  split; [|done]. unfold reply in Hd. eapply (verdict_success cc s _); [|exact Hd|done|exact Hval].
  split_and!; [cbn; destruct sessions; [by left | by right] | done | done].
Qed.

Lemma failure_verdict cc rc s :
  TpmRc.well_formed rc = true → is_success rc = false → sl_data s = failure rc →
  verdict cc s = Err (TpmDeviceError.TpmRc rc).
Proof using Type.
  intros Hw Hf Hd. apply (verdict_failed cc s (mk_envelope TpmSt.NoSessions rc [])); [|done..].
  split_and!; [by left | done | done].
Qed.
End reply.

(** A command that is answered by a response of its type. *)
Lemma transmit_reply `{TpmTransport T} cc v hs ps sessions ab (w : body (response cc)) hs' ps' sessions' ab'
    (d : TpmDevice.t T) t' :
  TpmBody.wire (command cc) v = Some (hs, ps) → seq_wire TpmsAuthCommand sessions = Some ab →
  zlen sessions ≤ MAX_SESSIONS → zlen (request cc sessions hs ab ps) ≤ TPM_MAX_COMMAND_SIZE → device_ok d →
  TpmBody.wire (response cc) w = Some (hs', ps') → seq_wire TpmsAuthResponse sessions' = Some ab' →
  zlen sessions' ≤ MAX_SESSIONS → zlen (reply sessions' hs' ps' ab') ≤ TPM_MAX_COMMAND_SIZE →
  answers (TpmDevice.transport d) (request cc sessions hs ab ps) (reply sessions' hs' ps' ab') t' →
  let s := mk_slice (TpmDevice.response_addr d) (reply sessions' hs' ps' ab') in
  TpmDevice.transmit (TpmBody.frame (command cc) v) sessions d =
    (Ok s, after d (request cc sessions hs ab ps) (reply sessions' hs' ps' ab') t') ∧
  TpmResponse.unmarshal (response cc) s = Ok w.
Proof.
  intros Hv Hse Hc Hl Hok Hw Hse' Hc' Hl' Ha s.
  destruct (reply_verdict cc w hs' ps' sessions' ab' s Hw Hse' Hc') as [Hvd Hu]; [by apply response_slice_ok|done|].
  split; [|done]. rewrite (transmit_answers cc v hs ps sessions ab Hv Hse d _ t' Hc Hl Ha). fold s. by rewrite Hvd.
Qed.

(** ** [transmit] and [exchange] with any peer *)

Section any_peer.
Context `{TransportOk T}.
Implicit Types d : TpmDevice.t T.

(** Why a transmission fails: the command could not be marshalled (then
    nothing is sent), the transport failed, or the response was rejected. *)
Definition transmit_error d (d' : TpmDevice.t T) (e : E) : Prop :=
  (∃ e', e = TpmDeviceError.Marshal e') ∧ TpmDevice.transport d' = TpmDevice.transport d ∨
  (∃ t1, send (TpmDevice.command d') (TpmDevice.transport d) = (Err e, t1)) ∨
  (∃ t1 buf, send (TpmDevice.command d') (TpmDevice.transport d) = (Ok (), t1) ∧
     (recv (buf, t1)).1 = Err e) ∨
  (∃ e', e = TpmDeviceError.Unmarshal e') ∨ (∃ rc, e = TpmDeviceError.TpmRc rc).

Lemma transmit_safe cc v hs ps sessions ab d :
  TpmBody.wire (command cc) v = Some (hs, ps) → seq_wire TpmsAuthCommand sessions = Some ab →
  device_ok d →
  st_outcome
    (λ e d', device_ok d' ∧ transmit_error d d' e)
    (λ s d', device_ok d' ∧ TpmDevice.command d' = request cc sessions hs ab ps ∧
       s = mk_slice (TpmDevice.response_addr d') (TpmDevice.response d') ∧
       is_frame (sl_data s) = true ∧ accepted cc s)
    (TpmDevice.transmit (TpmBody.frame (command cc) v) sessions d).
Proof using H1.
  intros Hv Hse Hok. rewrite transmit_round_trip.
  pose proof (prepare_command_spec cc v hs ps sessions ab Hv Hse d) as Hp.
  destruct (TpmDevice.prepare_command _ sessions d) as [[[]|e|] d']; [| |done].
  2:{ destruct Hp as (He & Ht & _ & Ha & _). split; [by unfold device_ok; rewrite Ha|]. by left. }
  destruct Hp as (-> & _). assert (frame_cc (TpmBody.frame (command cc) v) = cc) as -> by apply command_CC.
  unfold round_trip. cbn [TpmDevice.command TpmDevice.transport TpmDevice.response TpmDevice.response_addr].
  pose proof (send_no_panic (request cc sessions hs ab ps) (TpmDevice.transport d)) as Hsp.
  destruct (send _ (TpmDevice.transport d)) as [[[]|e|] t1] eqn:Hs; [| |done].
  2:{ split; [done|]. right; left. by exists t1. }
  pose proof (recv_no_panic (TpmDevice.response d) t1) as Hrp.
  destruct (recv (TpmDevice.response d, t1)) as [[[]|e|] [r t2]] eqn:Hr; [| |done].
  2:{ split; [done|]. right; right; left. exists t1, (TpmDevice.response d). by rewrite Hr. }
  pose proof (verdict_no_panic cc (mk_slice (TpmDevice.response_addr d) r)) as Hvp.
  destruct (verdict cc _) as [s|e|] eqn:Hvd; [| |done].
  - apply verdict_Ok in Hvd as (-> & Hval). cbn [st_outcome TpmDevice.response_addr TpmDevice.response TpmDevice.command].
    split_and!; [done..| |done]. by eapply recv_frame.
  - split; [done|]. right; right; right. by apply verdict_Err in Hvd.
Qed.

(** What [transmit] accepts is decoded without a panic. *)
Lemma accepted_unmarshal cc d (s := mk_slice (TpmDevice.response_addr d) (TpmDevice.response d)) :
  device_ok d → is_frame (sl_data s) = true → accepted cc s →
  outcome (λ _, True) (λ w, is_Some (TpmBody.wire (response cc) w)) (TpmResponse.unmarshal (response cc) s).
Proof using H.
  intros Hok Hf (Hval & p & Hp & Hd & Hs).
  pose proof (is_frame_bounds _ Hf) as Hb. cbn [s sl_data] in Hb.
  pose proof (response_slice_ok d (TpmDevice.response d) Hok ltac:(lia)) as Hsl. fold s in Hsl.
  assert (HANDLES (response cc) = HANDLES (response (CC (response cc)))) as HR by by rewrite response_CC.
  assert (TpmResponse.unmarshal (response cc) s ≠ Panic) as Hnp.
  { apply response_unmarshal_no_panic; [|apply _|done..]. unfold sl_len, HEADER_SIZE, TPM_HEADER_SIZE in *. cbn [s sl_data]. lia. }
  destruct (TpmResponse.unmarshal (response cc) s) as [w|e|] eqn:Hu; [|done|by destruct Hnp].
  apply (response_unmarshal_spec (response cc) HR _ p w Hsl Hp Hd Hs) in Hu as (h & q & a & _ & Hw). by eexists.
Qed.

(** An exchange returns a value of the response's type. *)
Lemma exchange_safe cc v hs ps d :
  TpmBody.wire (command cc) v = Some (hs, ps) → device_ok d →
  st_outcome (λ e d', device_ok d' ∧ transmit_error d d' e)
    (λ w d', device_ok d' ∧ TpmDevice.command d' = request cc [] hs [] ps ∧
       is_Some (TpmBody.wire (response cc) w) ∧
       TpmResponse.unmarshal (response cc) (mk_slice (TpmDevice.response_addr d') (TpmDevice.response d')) = Ok w)
    (TpmDevice.exchange (command cc) v (response cc) d).
Proof using H1.
  intros Hv Hok. unfold TpmDevice.exchange. eapply st_outcome_bind; [by eapply transmit_safe|].
  intros s d' (Hok' & Hc & -> & Hf & Ha). unfold st_lift.
  pose proof (accepted_unmarshal cc d' Hok' Hf Ha) as Hu. revert Hu.
  destruct (TpmResponse.unmarshal _ _) as [w|e|] eqn:E; cbn [map_err st_outcome outcome]; intros Hu; [done| |done].
  split; [done|]. right; right; right; left. by eexists.
Qed.
End any_peer.

(** ** [exchange] with a given answer *)

Section exchange.
Context `{Os} {T : Type} `{!TpmTransport T}.
Implicit Types d : TpmDevice.t T.
Variables (cc : TpmCc.t) (v : body (command cc)) (hs ps : list byte) (d : TpmDevice.t T).
Hypothesis Hv : TpmBody.wire (command cc) v = Some (hs, ps).
Hypothesis Hfit : zlen (request cc [] hs [] ps) ≤ TPM_MAX_COMMAND_SIZE.

Lemma exchange_answers (w : body (response cc)) hs' ps' sessions ab t' :
  device_ok d → TpmBody.wire (response cc) w = Some (hs', ps') →
  seq_wire TpmsAuthResponse sessions = Some ab → zlen sessions ≤ MAX_SESSIONS →
  zlen (reply sessions hs' ps' ab) ≤ TPM_MAX_COMMAND_SIZE →
  answers (TpmDevice.transport d) (request cc [] hs [] ps) (reply sessions hs' ps' ab) t' →
  TpmDevice.exchange (command cc) v (response cc) d =
    (Ok w, after d (request cc [] hs [] ps) (reply sessions hs' ps' ab) t').
Proof using Hv Hfit.
  intros Hok Hw Hse Hc Hl Ha. unfold TpmDevice.exchange, st_bind, TpmDevice.NO_SESSIONS.
  destruct (transmit_reply cc v hs ps [] [] w hs' ps' sessions ab d t') as [-> Hu]; [done..|].
  unfold st_lift. by rewrite Hu.
Qed.

Lemma exchange_failed rc t' :
  TpmRc.well_formed rc = true → is_success rc = false →
  answers (TpmDevice.transport d) (request cc [] hs [] ps) (failure rc) t' →
  TpmDevice.exchange (command cc) v (response cc) d =
    (Err (TpmDeviceError.TpmRc rc), after d (request cc [] hs [] ps) (failure rc) t').
Proof using Hv Hfit.
  intros Hw Hf Ha. unfold TpmDevice.exchange, st_bind.
  rewrite (transmit_answers cc v hs ps [] [] Hv eq_refl d _ t') by done.
  by rewrite (failure_verdict cc rc).
Qed.
End exchange.

(** ** Capabilities *)

(** The request for one page. *)
Definition page_command (cap : TpmCap.t) (property count : Z) : body TpmGetCapabilityCommand :=
  Body.mk (B:=TpmGetCapabilityCommand) [] (cap, (TpmInt.new 4 property, (TpmInt.new 4 count, tt))).
Definition page_request (cap : TpmCap.t) (property count : Z) : list byte :=
  be_encode 4 (value cap) ++ be_encode 4 property ++ be_encode 4 count.

Lemma cap_wire (cap : TpmCap.t) : wire TpmCap cap = Some (be_encode 4 (value cap)).
Proof. by destruct cap. Qed.

Lemma page_wire cap property count :
  0 ≤ property ≤ u32_max → 0 ≤ count ≤ u32_max →
  TpmBody.wire (command TpmCc.GetCapability) (page_command cap property count) =
    Some ([], page_request cap property count).
Proof.
  intros Hp Hc. apply (body_wire_Some (command TpmCc.GetCapability)). split_and!; [done..|].
  apply fields_wire_cons. eexists _, _. split; [apply cap_wire|]. split; [|done].
  apply fields_wire_cons. eexists _, _. split; [by apply u32_wire|]. split; [|done].
  apply fields_wire_cons. eexists _, _. split; [by apply u32_wire|]. split; [done|].
  cbn [fst snd]. by rewrite app_nil_r.
Qed.

(** The data of a capability response, as received. *)
Definition received (data : TpmsCapabilityData.t) : Prop :=
  is_Some (TpmuCapabilities.wire (TpmsCapabilityData.data data)).

Lemma page_received (w : body TpmGetCapabilityResponse) :
  is_Some (TpmBody.wire (response TpmCc.GetCapability) w) → received (params w).2.1.
Proof.
  destruct w as [hs [more [data []]]].
  intros [[h ps] (_ & _ & (b1 & b2 & _ & (b3 & b4 & Hd & _ & _)%fields_wire_cons & _)%fields_wire_cons)%body_wire_Some].
  apply capability_wire_Some in Hd as [_ (x & y & _ & Hy & _)%wcat_Some]. by exists y.
Qed.

(** The items of a list that was received. *)
Lemma list_items_wire (T : Codec) `{!CodecOk T} CAPACITY (l : TpmList.t (ty T)) bs :
  0 ≤ CAPACITY ≤ u32_max → TpmList.wire T CAPACITY l = Some bs →
  Forall (λ v, is_Some (wire T v)) (TpmList.deref l).
Proof.
  intros HC (vs & bss & Hh & He & _)%list_wire_Some; [|done]. rewrite (list_holds_deref _ _ _ Hh).
  clear Hh. induction He as [|v b vs bss Hv _ IH]; constructor; [by exists b | done].
Qed.

Section pages_safe.
Context `{TransportOk T}.
Implicit Types d : TpmDevice.t T.
Import TpmDevice.

Lemma page_safe cap property count d :
  0 ≤ property ≤ u32_max → 0 ≤ count ≤ u32_max → device_ok d →
  st_outcome (λ e d', device_ok d' ∧ transmit_error d d' e) (λ r d', device_ok d' ∧ received r.2)
    (get_capability_page cap (TpmInt.new 4 property) (TpmInt.new 4 count) d).
Proof using H1.
  intros Hp Hc Hok. unfold get_capability_page. eapply st_outcome_bind.
  - apply (exchange_safe TpmCc.GetCapability (page_command cap property count) [] (page_request cap property count));
      [by apply page_wire | done].
  - intros w d' (Hd & _ & Hw%page_received & _).
    destruct (params (B:=TpmGetCapabilityResponse) w : bool * (TpmsCapabilityData.t * ())) as [more [data u]].
    by split.
Qed.

Context {A : Type} (cap : TpmCap.t) (count : Z).
Context (extract : TpmuCapabilities.t → result E (list A)) (next_prop : A → Z) (Q : A → Prop).
Hypothesis count_range : 0 ≤ count ≤ u32_max.
(** What is extracted, and the other answers. *)
Hypothesis extract_items : ∀ caps, is_Some (TpmuCapabilities.wire caps) →
  outcome (λ e, e = TpmDeviceError.CapabilityMissing cap) (Forall Q) (extract caps).
Hypothesis next_range : ∀ x, next_prop x ≤ u32_max.

(** The rounds are bounded by the [u32] range of [prop]. *)
Definition rounds_left (st : paging (A:=A)) : nat :=
  if finished st then 0 else S (Z.to_nat (u32_max - prop st)).

Lemma rounds_start p : 0 ≤ p ≤ u32_max → (rounds_left (mk_paging [] p false) < Pos.to_nat paging_bound)%nat.
Proof using Type.
  intros Hp. unfold rounds_left. cbn [finished prop].
  change (Pos.to_nat paging_bound) with (Pos.to_nat 4294967297). unfold u32_max in *. lia.
Qed.

(** Whatever the TPM answers, the query ends. *)
Lemma get_capability_safe property_start d :
  0 ≤ property_start ≤ u32_max → device_ok d →
  st_outcome
    (λ e d', device_ok d' ∧ ((∃ d0, transmit_error d0 d' e) ∨ e = TpmDeviceError.CapabilityMissing cap))
    (λ xs d', device_ok d' ∧ Forall Q xs)
    (get_capability cap count extract next_prop property_start d).
Proof using All.
  intros Hp Hok. unfold get_capability. eapply st_outcome_bind.
  - apply (st_while_spec (λ st d', 0 ≤ prop st ≤ u32_max ∧ device_ok d' ∧ Forall Q (results st))
      (λ e d', device_ok d' ∧ ((∃ d0, transmit_error d0 d' e) ∨ e = TpmDeviceError.CapabilityMissing cap))
      rounds_left).
    + intros st d1 (Hst & Hd1 & HQ) Hf. unfold page_body. eapply st_outcome_bind.
      * eapply st_outcome_impl; [by apply page_safe | |by intros ?? Hr; exact Hr]. intros e d' [? ?]; eauto.
      * intros [more data] d' [Hd' Hrec]. cbv beta zeta iota. cbn [snd] in Hrec.
        unfold st_bind, st_lift, st_ret. pose proof (extract_items (TpmsCapabilityData.data data) Hrec) as Hx.
        destruct (extract _) as [items|e|]; [|by split; eauto|done].
        unfold st_lift. cbn [st_outcome]. cbn [outcome] in Hx.
        assert (Forall Q (results st ++ items)) as Hr by by apply Forall_app.
        unfold rounds_left. apply negb_true_iff in Hf. rewrite Hf.
        destruct (negb more); cbn [prop finished results]; [split; [done | lia]|].
        destruct (list.last items) as [x|]; cbn [prop finished results]; [|split; [done | lia]].
        pose proof (next_range x).
        destruct (Z.leb_spec (next_prop x) (prop st)); cbn [prop finished results];
          (split; [split_and!; [lia | lia | done..] | lia]).
    + split_and!; cbn [prop results]; [lia | lia | done | constructor].
    + by apply rounds_start.
  - by intros st d' [(_ & ? & ?) _].
Qed.
End pages_safe.

(** *** PCR banks *)

(** A selection whose bytes can be read, and that has a PCR. *)
Definition readable (bank : ty TpmsPcrSelection) : Prop :=
  ∃ xs, TpmsPcrSelect.deref (TpmsPcrSelection.pcr_select bank) = Ok xs.
Definition allocated (bank : ty TpmsPcrSelection) : bool :=
  match TpmsPcrSelect.deref (TpmsPcrSelection.pcr_select bank) with
  | Ok bytes => negb (forallb (λ b, byte.unsigned b =? 0) bytes)
  | _ => false
  end.

Lemma wire_readable bank : is_Some (wire TpmsPcrSelection bank) → readable bank.
Proof.
  intros [bs (b1 & b2 & _ & (xs & Ht & _)%pcr_wire_Some & _)%wcat_Some]. exists xs.
  pose proof (pcr_try_from_bound _ _ Ht) as Hb. destruct (pcr_try_from_Ok xs Hb) as (p & Ht' & _ & Hd).
  rewrite Ht in Ht'. by injection Ht' as <-.
Qed.

(** The banks that are in use and the selection they share. *)
Definition banks_in_use `{Os} (pcrs : list (ty TpmsPcrSelection)) (common : option (ty TpmsPcrSelect))
    (algs : list TpmAlgId.t) : result E (option (ty TpmsPcrSelect) * list TpmAlgId.t) :=
  let active := filter allocated pcrs in
  let common := match common with Some s => Some s | None => TpmsPcrSelection.pcr_select <$> list.head active end in
  if bool_decide (Forall (λ b, Some (TpmsPcrSelection.pcr_select b) = common) active)
  then Ok (common, algs ++ map TpmsPcrSelection.hash active)
  else Err TpmDeviceError.PcrBankSelectionMismatch.

Lemma pcr_banks_loop_spec `{Os} pcrs common algs :
  Forall readable pcrs → TpmDevice.pcr_banks_loop pcrs common algs = banks_in_use pcrs common algs.
Proof.
  intros Hp. revert common algs; induction Hp as [|bank pcrs [xs Hx] _ IH]; intros common algs.
  - unfold banks_in_use. cbn. by destruct common; rewrite app_nil_r.
  - cbn [TpmDevice.pcr_banks_loop]. cbv zeta. rewrite Hx.
    assert (allocated bank = negb (forallb (λ b, byte.unsigned b =? 0) xs)) as Ha by (unfold allocated; by rewrite Hx).
    destruct (forallb _ xs); cbn [negb] in Ha.
    + rewrite IH. unfold banks_in_use. by rewrite filter_cons_False by (rewrite Ha; by intros []).
    + unfold banks_in_use. rewrite filter_cons_True by by rewrite Ha.
      assert (∀ s, TpmsPcrSelection.pcr_select bank = s →
        banks_in_use pcrs (Some s) (algs ++ [TpmsPcrSelection.hash bank]) =
          if bool_decide (Forall (λ b, Some (TpmsPcrSelection.pcr_select b) = Some s) (bank :: filter allocated pcrs))
          then Ok (Some s, algs ++ map TpmsPcrSelection.hash (bank :: filter allocated pcrs))
          else Err TpmDeviceError.PcrBankSelectionMismatch) as Hstep.
      { intros s Hs. unfold banks_in_use. cbn [map]. rewrite <-(assoc_L (++)). cbn [app].
        erewrite bool_decide_ext; [done|]. rewrite list.Forall_cons. split; [|by intros []]. intros ?. split; [by rewrite Hs | done]. }
      destruct common as [s|]; cbn [list.head fmap option_fmap option_map].
      * case_bool_decide as Hs.
        -- rewrite bool_decide_false; [done|]. intros [E _]%list.Forall_cons. congruence.
        -- rewrite IH. apply Hstep. by destruct (decide (TpmsPcrSelection.pcr_select bank = s)).
      * rewrite IH. by apply Hstep.
Qed.

(** The whole query, from the banks the TPM reported. *)
Lemma fetch_pcr_bank_list_spec `{Os} {T : Type} `{!TpmTransport T} pcrs (d d' : TpmDevice.t T) :
  Forall readable pcrs →
  TpmDevice.get_capability TpmCap.Pcrs TpmDevice.CAPABILITY_PAGE_SIZE
    (λ caps, match caps with
             | TpmuCapabilities.Pcrs pcrs => Ok (TpmList.deref pcrs)
             | _ => TpmDevice.missing TpmCap.Pcrs end)
    (λ last, value (TpmsPcrSelection.hash last) + 1) 0 d = (Ok pcrs, d') →
  TpmDevice.fetch_pcr_bank_list d =
    (match filter allocated pcrs with
     | [] => Err TpmDeviceError.PcrBanksNotAvailable
     | b :: rest =>
         if bool_decide (Forall (λ b', TpmsPcrSelection.pcr_select b' = TpmsPcrSelection.pcr_select b) (b :: rest))
         then Ok (merge_sort TpmDevice.alg_le (map TpmsPcrSelection.hash (b :: rest)), TpmsPcrSelection.pcr_select b)
         else Err TpmDeviceError.PcrBankSelectionMismatch
     end, d').
Proof.
  intros Hr Hq. unfold TpmDevice.fetch_pcr_bank_list, st_bind.
  match type of Hq with ?query = _ =>
    match goal with |- context [TpmDevice.get_capability ?a ?b ?c ?e ?f d] =>
      change (TpmDevice.get_capability a b c e f d) with query end end.
  rewrite Hq. destruct pcrs as [|p pcrs]; [done|]. rewrite pcr_banks_loop_spec by done.
  unfold banks_in_use. cbv zeta. set (active := filter _ (p :: pcrs)). clearbody active.
  unfold st_lift. destruct active as [|b rest]; [done|]. cbn [list.head fmap option_fmap option_map].
  rewrite (bool_decide_ext _ (Forall (λ b', TpmsPcrSelection.pcr_select b' = TpmsPcrSelection.pcr_select b) (b :: rest))).
  2:{ rewrite !list.Forall_forall. split; intros Hall b' Hb'; [by injection (Hall b' Hb') | by rewrite (Hall b' Hb')]. }
  by case_bool_decide.
Qed.

(** *** Every operation, with any peer *)

Section operations_safe.
Context `{TransportOk T}.
Implicit Types d : TpmDevice.t T.
Import TpmDevice.

(** [m] returns, whatever the peer does; its values satisfy [P]. *)
Definition returns_safely {A} (P : A → Prop) (m : State (TpmDevice.t T) E A) : Prop :=
  ∀ d, device_ok d → st_outcome (λ _ d', device_ok d') (λ a d', device_ok d' ∧ P a) (m d).

Lemma safely_bind {A B} (P : A → Prop) (Q : B → Prop) m k :
  returns_safely P m → (∀ a, P a → returns_safely Q (k a)) → returns_safely Q (st_bind m k).
Proof using Type.
  intros Hm Hk d Hd. eapply st_outcome_bind; [by apply Hm|]. intros a d' [Hd' Ha]. by apply Hk.
Qed.
Lemma safely_lift {A} (P : A → Prop) (r : result E A) :
  outcome (λ _, True) P r → returns_safely P (st_lift r).
Proof using Type. intros Hr d Hd. unfold st_lift. by destruct r. Qed.
Lemma safely_ret {A} (P : A → Prop) (a : A) : P a → returns_safely P (st_ret a).
Proof using Type. intros Ha. by apply safely_lift. Qed.
Lemma safely_impl {A} (P Q : A → Prop) m : returns_safely P m → (∀ a, P a → Q a) → returns_safely Q m.
Proof using Type.
  intros Hm HPQ d Hd. eapply st_outcome_impl; [by apply Hm | done |]. intros a d' [? ?]; auto.
Qed.

Lemma exchange_safely cc v :
  is_Some (TpmBody.wire (Dispatch.command cc) v) →
  returns_safely (λ w, is_Some (TpmBody.wire (Dispatch.response cc) w))
    (exchange (Dispatch.command cc) v (Dispatch.response cc)).
Proof using H1.
  intros [[hs ps] Hv] d Hd. eapply st_outcome_impl; [by eapply exchange_safe | by intros ?? [? _] |].
  by intros w d' (? & _ & ? & _).
Qed.

Lemma get_capability_safely {A} cap count (extract : TpmuCapabilities.t → result E (list A)) next_prop Q start :
  0 ≤ count ≤ u32_max → 0 ≤ start ≤ u32_max → (∀ x, next_prop x ≤ u32_max) →
  (∀ caps, is_Some (TpmuCapabilities.wire caps) →
     outcome (λ e, e = TpmDeviceError.CapabilityMissing cap) (Forall Q) (extract caps)) →
  returns_safely (Forall Q) (get_capability cap count extract next_prop start).
Proof using H1.
  intros Hc Hs Hn Hx d Hd. eapply st_outcome_impl; [by eapply get_capability_safe | by intros ?? [? _] | done].
Qed.

(** The queries. *)
Lemma fetch_algorithm_properties_safely : returns_safely (λ _, True) fetch_algorithm_properties.
Proof using H1.
  eapply safely_impl; [apply (get_capability_safely _ _ _ _ (λ _, True))|done]; [done..| |].
  - intros x. pose proof (in_range_u16_inv _ (value_range (x.1 : TpmAlgId.t))). unfold u16_max, u32_max in *. lia.
  - intros caps _. destruct caps; try done. by apply list.Forall_forall.
Qed.

Lemma fetch_ecc_curves_safely : returns_safely (λ _, True) fetch_ecc_curves.
Proof using H1.
  eapply safely_impl; [apply (get_capability_safely _ _ _ _ (λ _, True))|done]; [done..| |].
  - intros x. pose proof (in_range_u16_inv _ (value_range (x : TpmEccCurve.t))). unfold u16_max, u32_max in *. lia.
  - intros caps _. destruct caps; try done. by apply list.Forall_forall.
Qed.

Lemma fetch_handles_safely class :
  returns_safely (Forall (λ h, is_Some (wire TpmHandle h))) (fetch_handles class).
Proof using H1.
  unfold fetch_handles. cbv zeta. eapply safely_bind.
  - destruct (Z.mod_pos_bound (Z.shiftl (value class) 24) (2 ^ 32)); [done|].
    apply (get_capability_safely _ _ _ _ (λ h, is_Some (wire TpmHandle h))); [done | unfold u32_max; lia | lia |].
    intros caps [bs Hw]. destruct caps; try done. by apply (list_items_wire TpmUint32 128 _ bs).
  - intros hs Hhs. apply safely_ret. rewrite list.Forall_forall in *.
    intros x [_ Hx]%list_elem_of_filter. auto.
Qed.

Lemma fetch_pcr_bank_list_safely : returns_safely (λ _, True) fetch_pcr_bank_list.
Proof using H1.
  unfold fetch_pcr_bank_list. eapply safely_bind.
  - apply (get_capability_safely _ _ _ _ readable); [done..| |].
    + intros x. pose proof (in_range_u16_inv _ (value_range (TpmsPcrSelection.hash x))).
      unfold u16_max, u32_max in *. lia.
    + intros caps [bs Hw]. destruct caps as [| |pcrs| | | | | | |]; try done.
      pose proof (list_items_wire TpmsPcrSelection 8 pcrs bs ltac:(done) Hw) as Hi.
      eapply list.Forall_impl; [exact Hi|]. intros x Hx. by apply wire_readable.
  - intros pcrs Hp. destruct pcrs as [|p pcrs]; [by apply safely_lift|].
    eapply (safely_bind (λ _, True)).
    + apply safely_lift. rewrite (pcr_banks_loop_spec (p :: pcrs)) by done.
      unfold banks_in_use. cbv zeta. by destruct (bool_decide _).
    + intros [common algs] _. apply (safely_bind (λ _, True)); [by apply safely_lift; destruct common|].
      intros sel _. by apply safely_ret.
Qed.

Lemma fetch_tpm_property_safely property : returns_safely (λ _, True) (fetch_tpm_property property).
Proof using H1.
  unfold fetch_tpm_property. apply (safely_bind (λ _, True)).
  - intros d Hd. eapply st_outcome_impl; [apply page_safe; [|done|done] | by intros ?? [? _] | by intros ?? [? _]].
    exact (in_range_u32_inv _ (value_range property)).
  - intros [more data] _. apply safely_lift. repeat case_match; done.
Qed.

(** Objects and contexts. *)
Lemma read_public_safely h : is_Some (wire TpmHandle h) → returns_safely (λ _, True) (read_public h).
Proof using H1.
  intros [bs Hw]. unfold read_public. eapply safely_bind.
  - apply (exchange_safely TpmCc.ReadPublic (Body.mk (B:=TpmReadPublicCommand) [h] tt)). exists (bs, []).
    apply (body_wire_Some (Dispatch.command TpmCc.ReadPublic)). split_and!; [done| |done].
    apply (seq_wire_cons TpmHandle). exists bs, []. split_and!; [done..|by rewrite app_nil_r].
  - intros w _. 
    destruct (params (B:=TpmReadPublicResponse) w) as [public [name q]]. by apply safely_ret.
Qed.

Lemma find_loop_safely target hs :
  Forall (λ h, is_Some (wire TpmHandle h)) hs → returns_safely (λ _, True) (find_loop target hs).
Proof using H1.
  induction 1 as [|h hs Hh _ IH]; [by apply safely_ret|].
  intros d Hd. cbn [find_loop]. pose proof (read_public_safely h Hh d Hd) as Hr.
  destruct (read_public h d) as [[[public name]|e|] d']; cbn [st_outcome] in Hr; [|by destruct e; try done; case_match; [apply IH|]|done].
  case_bool_decide; [by destruct Hr|]. apply IH, Hr.
Qed.

Lemma find_persistent_safely target : returns_safely (λ _, True) (find_persistent target).
Proof using H1.
  unfold find_persistent. eapply safely_bind; [apply fetch_handles_safely|]. intros hs. apply find_loop_safely.
Qed.

Lemma save_context_safely h : is_Some (wire TpmHandle h) → returns_safely (λ _, True) (save_context h).
Proof using H1.
  intros [bs Hw]. unfold save_context. eapply safely_bind.
  - apply (exchange_safely TpmCc.ContextSave (Body.mk (B:=TpmContextSaveCommand) [h] tt)). exists (bs, []).
    apply (body_wire_Some (Dispatch.command TpmCc.ContextSave)). split_and!; [done| |done].
    apply (seq_wire_cons TpmHandle). exists bs, []. split_and!; [done..|by rewrite app_nil_r].
  - intros w _. by apply safely_ret.
Qed.

Lemma load_context_safely context :
  is_Some (wire TpmsContext context) → returns_safely (λ h, is_Some (wire TpmHandle h)) (load_context context).
Proof using H1.
  intros [bs Hw]. unfold load_context. eapply safely_bind.
  - apply (exchange_safely TpmCc.ContextLoad (Body.mk (B:=TpmContextLoadCommand) [] (context, tt))). exists ([], bs).
    apply (body_wire_Some (Dispatch.command TpmCc.ContextLoad)). split_and!; [done..|].
    apply fields_wire_cons. exists bs, []. split_and!; [done..|by rewrite app_nil_r].
  - intros [hl pl] [[hs ps] (Hl & Hh & _)%body_wire_Some]. apply safely_lift.
    change (HANDLES (Dispatch.response TpmCc.ContextLoad)) with 1%nat in Hl.
    cbn [handles] in *. destruct hl as [|h [|? ?]]; try done.
    apply (seq_wire_cons TpmHandle) in Hh as (b & ? & Hb & _). cbn. by exists b.
Qed.

Lemma flush_context_safely h : is_Some (wire TpmHandle h) → returns_safely (λ _, True) (flush_context h).
Proof using H1.
  intros [bs Hw]. unfold flush_context. cbv zeta. apply (safely_bind (λ _, True)); [|by intros; apply safely_ret].
  intros d Hd. eapply st_outcome_impl;
    [apply (transmit_safe TpmCc.FlushContext (Body.mk (B:=TpmFlushContextCommand) [] (h, tt)) [] bs [] [])
    | by intros ?? [? _] | by intros ?? [? _]]; [|done..].
  apply (body_wire_Some (Dispatch.command TpmCc.FlushContext)). split_and!; [done..|].
  apply fields_wire_cons. exists bs, []. split_and!; [done..|by rewrite app_nil_r].
Qed.

Lemma flush_session_safely context :
  is_Some (wire TpmsContext context) → returns_safely (λ _, True) (flush_session context).
Proof using H1.
  intros Hc d Hd. unfold flush_session. pose proof (load_context_safely context Hc d Hd) as Hl.
  destruct (load_context context d) as [[h|e|] d']; cbn [st_outcome] in Hl; [|by destruct e; try done; case_match|done].
  destruct Hl as [Hd' Hh]. by apply flush_context_safely.
Qed.
End operations_safe.

(** *** A TPM that lists its capabilities *)

Section listing.
Context {A : Type} (key : A → Z).
Implicit Types l : list A.

(** The part of a listing from a property on. *)
Definition from (p : Z) l : list A := filter (λ x, p ≤ key x) l.
Definition ascending l : Prop := StronglySorted (λ x y, key x < key y) l.

Lemma from_ascending p l : ascending l → ascending (from p l).
Proof using Type.
  unfold ascending, from. induction 1 as [|x l Hs IH Hx]; [constructor|].
  rewrite filter_cons. case_decide; [|done]. constructor; [done|].
  rewrite list.Forall_forall in *. intros y [_ Hy]%list_elem_of_filter. auto.
Qed.

Lemma from_all p l : Forall (λ x, p ≤ key x) l → from p l = l.
Proof using Type.
  unfold from. induction 1 as [|x l Hx _ IH]; [done|]. by rewrite filter_cons_True, IH.
Qed.
Lemma from_none p l : Forall (λ x, key x < p) l → from p l = [].
Proof using Type.
  unfold from. induction 1 as [|x l Hx _ IH]; [done|]. by rewrite filter_cons_False by lia.
Qed.

(** What is left after a page whose last item is [x]. *)
Lemma from_next p l l1 x l2 :
  ascending l → from p l = l1 ++ x :: l2 → p ≤ key x ∧ from (key x + 1) l = l2.
Proof using Type.
  intros Hs Hl. pose proof (from_ascending p l Hs) as Hs'. rewrite Hl in Hs'.
  assert (∀ y, y ∈ l1 ++ x :: l2 → p ≤ key y) as Hp.
  { intros y Hy. rewrite <-Hl in Hy. by apply list_elem_of_filter in Hy as [? _]. }
  assert (p ≤ key x) as Hx by (apply Hp, elem_of_app; right; left). split; [done|].
  transitivity (from (key x + 1) (from p l)).
  { symmetry. apply list_filter_filter_l. lia. }
  rewrite Hl. apply StronglySorted_app in Hs' as (H1 & _ & H2). inversion_clear H2 as [|? ? _ Hx2].
  unfold from. rewrite list.filter_app, filter_cons_False by lia.
  fold (from (key x + 1) l1) (from (key x + 1) l2). rewrite from_none, from_all; [done| |].
  - eapply list.Forall_impl; [exact Hx2|]. simpl. lia.
  - apply list.Forall_forall. intros y Hy. specialize (H1 y x Hy ltac:(left)). simpl in H1. lia.
Qed.
End listing.

(** A TPM that serves the listing [all] of the capability [cap] in pages of
    at least one item, in the transport states [Inv]. *)
Section pages_complete.
Context `{Os} {T : Type} `{!TpmTransport T}.
Import TpmDevice.
Context {A : Type} (cap : TpmCap.t) (count : Z).
Context (extract : TpmuCapabilities.t → result E (list A)) (next_prop key : A → Z).
Context (all : list A) (Inv : T → Prop).

Definition page_response (more : bool) (data : TpmsCapabilityData.t) : body (Dispatch.response TpmCc.GetCapability) :=
  Body.mk (B:=TpmGetCapabilityResponse) [] (more, (data, tt)).

Definition serves_listing : Prop :=
  ∀ t p, Inv t → 0 ≤ p ≤ u32_max →
    let rest := from key p all in
    ∃ n data ps' t', (rest ≠ [] → (0 < n)%nat) ∧
      extract (TpmsCapabilityData.data data) = Ok (take n rest) ∧
      TpmBody.wire (Dispatch.response TpmCc.GetCapability)
        (page_response (bool_decide (n < length rest)%nat) data) = Some ([], ps') ∧
      zlen (reply [] [] ps' []) ≤ TPM_MAX_COMMAND_SIZE ∧
      answers t (request TpmCc.GetCapability [] [] [] (page_request cap p count)) (reply [] [] ps' []) t' ∧
      Inv t'.

Hypothesis count_range : 0 ≤ count ≤ u32_max.
Hypothesis next_key : ∀ x, x ∈ all → next_prop x = (key x + 1) `min` u32_max.
Hypothesis keys : ∀ x, x ∈ all → key x ≤ u32_max.
Hypothesis sorted : ascending key all.
Hypothesis serves : serves_listing.

Definition listing_state (d : t T) : Prop := device_ok d ∧ Inv (transport d).

(** One page. *)
Lemma page_served p (d : t T) :
  0 ≤ p ≤ u32_max → listing_state d →
  ∃ n data d', (from key p all ≠ [] → (0 < n)%nat) ∧ listing_state d' ∧
    extract (TpmsCapabilityData.data data) = Ok (take n (from key p all)) ∧
    get_capability_page cap (TpmInt.new 4 p) (TpmInt.new 4 count) d =
      (Ok (bool_decide (n < length (from key p all))%nat, data), d').
Proof using All.
  intros Hp [Hok Hi]. destruct (serves (transport d) p Hi Hp) as (n & data & ps' & t' & Hn & Hx & Hw & Hl & Ha & Hi').
  exists n, data, (after d (request TpmCc.GetCapability [] [] [] (page_request cap p count)) (reply [] [] ps' []) t').
  split_and!; [done..|]. unfold get_capability_page, st_bind.
  change (exchange TpmGetCapabilityCommand ?c TpmGetCapabilityResponse)
    with (exchange (Dispatch.command TpmCc.GetCapability) (page_command cap p count) (Dispatch.response TpmCc.GetCapability)).
  rewrite (exchange_answers TpmCc.GetCapability (page_command cap p count) [] (page_request cap p count) d
    ltac:(by apply page_wire) ltac:(done) _ [] ps' [] [] t' Hok Hw eq_refl ltac:(done) Hl Ha).
  done.
Qed.

(** The loop has collected what comes before [prop]. *)
Definition collected p (st : paging (A:=A)) (d : t T) : Prop :=
  listing_state d ∧ 0 ≤ prop st ≤ u32_max ∧
  results st ++ (if finished st then [] else from key (prop st) all) = from key p all.

Lemma page_body_collects p st d :
  collected p st d → finished st = false →
  st_outcome (λ _ _, False) (λ st' d', collected p st' d' ∧ (rounds_left st' < rounds_left st)%nat)
    (page_body cap count extract next_prop st d).
Proof using All.
  intros (Hd & Hp & Hc) Hf. rewrite Hf in Hc. unfold page_body, st_bind.
  destruct (page_served (prop st) d Hp Hd) as (n & data & d' & Hn & Hd' & Hx & ->). cbv beta zeta iota.
  rewrite Hx. clear Hx. unfold st_lift, st_ret. cbn [st_outcome]. unfold rounds_left. rewrite Hf.
  set (rest := from key (prop st) all) in *. unfold st_lift. cbn [st_outcome].
  case_bool_decide as Hm; cbn [negb].
  2:{ split; [|cbn [finished]; lia]. split_and!; cbn [prop results finished]; [done | lia.. |].
      rewrite take_ge by lia. by rewrite app_nil_r. }
  destruct (list.last (take n rest)) as [x|] eqn:Hx.
  2:{ exfalso. apply last_None in Hx. apply (f_equal length) in Hx. rewrite length_take in Hx. simpl in Hx.
      assert (rest ≠ []) as Hne by (intros E; rewrite E in Hm; simpl in Hm; lia). specialize (Hn Hne). lia. }
  apply last_Some in Hx as [l1 Hl1].
  assert (rest = l1 ++ x :: drop n rest) as Hrest.
  { transitivity (take n rest ++ drop n rest); [by rewrite take_drop|]. by rewrite Hl1, <-(assoc_L (++)). }
  destruct (from_next key (prop st) all l1 x (drop n rest) sorted Hrest) as [Hge Hnext].
  assert (x ∈ all) as Hin.
  { assert (x ∈ rest) as Hin by (rewrite Hrest; apply elem_of_app; right; left).
    by apply list_elem_of_filter in Hin as [_ ?]. }
  assert (key x < u32_max) as Hlt.
  { destruct (drop n rest) as [|y l2] eqn:Hy.
    { apply (f_equal length) in Hy. rewrite length_drop in Hy. simpl in Hy. lia. }
    assert (y ∈ from key (key x + 1) all) as Hy' by (rewrite Hnext; left).
    apply list_elem_of_filter in Hy' as [Hky Hy']. specialize (keys y Hy'). lia. }
  rewrite (next_key x Hin), Z.min_l by lia.
  destruct (Z.leb_spec (key x + 1) (prop st)); [lia|]. split; [|cbn [finished prop]; lia].
  split_and!; cbn [prop results finished]; [done | lia.. |].
  rewrite Hnext, <-(assoc_L (++)), take_drop. done.
Qed.

(** The query returns the whole listing from its start on. *)
Lemma get_capability_complete p (d : t T) :
  0 ≤ p ≤ u32_max → listing_state d →
  ∃ d', listing_state d' ∧ get_capability cap count extract next_prop p d = (Ok (from key p all), d').
Proof using All.
  intros Hp Hd.
  destruct (st_outcome_total (λ st d', collected p st d' ∧ negb (finished st) = false)
    (st_while paging_bound (λ st, negb (finished st)) (page_body cap count extract next_prop)
      (mk_paging [] p false) d)) as (st & d' & Hw & (Hd' & _ & Hr) & Hf%negb_false_iff).
  - apply (st_while_spec (collected p) (λ _ _, False) rounds_left).
    + intros st' d1 Hc Hf%negb_true_iff. by apply page_body_collects.
    + by split.
    + by apply rounds_start.
  - exists d'. split; [done|]. unfold get_capability, st_bind. rewrite Hw.
    rewrite Hf, app_nil_r in Hr. by rewrite Hr.
Qed.
End pages_complete.

(** *** Handles *)

Section handles.
Context `{Os} {T : Type} `{!TpmTransport T}.
Implicit Types d : TpmDevice.t T.
Variables (all : list TpmInt.t) (Inv : T → Prop).
Local Abbreviation key := (TpmInt.value 4 false).

Definition extract_handles (caps : TpmuCapabilities.t) : result E (list TpmInt.t) :=
  match caps with
  | TpmuCapabilities.Handles handles => Ok (TpmList.deref handles)
  | _ => TpmDevice.missing TpmCap.Handles
  end.

(** The TPM lists its handles, all of them four bytes wide. *)
Definition lists_handles : Prop :=
  ascending key all ∧ Forall (λ x, 0 ≤ key x ≤ u32_max) all ∧
  serves_listing TpmCap.Handles TpmDevice.CAPABILITY_PAGE_SIZE extract_handles key all Inv.

(** The handles of one class. *)
Definition of_class (class : TpmHt.t) : list TpmInt.t :=
  filter (λ x, Z.shiftr (key x) 24 = value class) all.

Lemma class_prefix (class : TpmHt.t) :
  Z.shiftl (value class) 24 `mod` 2 ^ 32 = value class * 2 ^ 24 ∧ 0 ≤ value class * 2 ^ 24 ≤ u32_max.
Proof using Type. by destruct class. Qed.

Lemma fetch_handles_complete class d :
  lists_handles → listing_state Inv d →
  ∃ d', listing_state Inv d' ∧ TpmDevice.fetch_handles class d = (Ok (of_class class), d').
Proof using Type.
  intros (Hs & Hk & Hserve) Hd. rewrite list.Forall_forall in Hk. destruct (class_prefix class) as [Hp Hr].
  destruct (get_capability_complete TpmCap.Handles TpmDevice.CAPABILITY_PAGE_SIZE extract_handles
    (λ last, (key last + 1) `min` u32_max) key all Inv ltac:(done) ltac:(done) ltac:(by intros; apply Hk) Hs Hserve
    (value class * 2 ^ 24) d Hr Hd) as (d' & Hd' & Hg).
  exists d'. split; [done|]. unfold TpmDevice.fetch_handles, st_bind. cbv zeta. rewrite Hp.
  match goal with |- (let (_, _) := ?g in _) = _ => change g with
    (TpmDevice.get_capability TpmCap.Handles TpmDevice.CAPABILITY_PAGE_SIZE extract_handles
      (λ last, (key last + 1) `min` u32_max) (value class * 2 ^ 24) d) end.
  rewrite Hg. unfold st_ret, st_lift. do 2 f_equal. unfold of_class, from.
  apply list_filter_filter_l. intros x Hx. rewrite <-Hx.
  rewrite Z.shiftr_div_pow2 by lia. pose proof (Z.mul_div_le (key x) (2 ^ 24)). lia.
Qed.
End handles.

(** *** Finding a persistent object by its name *)

Section find.
Context `{Os} {T : Type} `{!TpmTransport T}.
Implicit Types d : TpmDevice.t T.
Variables (Inv : T → Prop) (name_of : TpmInt.t → option (ty Tpm2bName)) (target : ty Tpm2bName).

(** The TPM answers [TPM2_ReadPublic] of [h] with its name, or says that
    there is no object. *)
Definition reads_public (h : TpmInt.t) : Prop :=
  ∀ t, Inv t → ∃ hs r t', seq_wire TpmHandle [h] = Some hs ∧
    answers t (request TpmCc.ReadPublic [] hs [] []) r t' ∧ Inv t' ∧
    match name_of h with
    | Some name =>
        ∃ public qualified ps',
          TpmBody.wire (response TpmCc.ReadPublic)
            (Body.mk (B:=TpmReadPublicResponse) [] (public, (name, (qualified, tt)))) = Some ([], ps') ∧
          r = reply [] [] ps' [] ∧ zlen r ≤ TPM_MAX_COMMAND_SIZE
    | None =>
        ∃ rc, TpmRc.well_formed rc = true ∧ is_success rc = false ∧ TpmDevice.is_gone rc = true ∧ r = failure rc
    end.

Definition named (h : TpmInt.t) : bool :=
  match name_of h with
  | Some name => bool_decide (TpmBuffer.deref name = TpmBuffer.deref target)
  | None => false
  end.

Lemma read_public_spec h d :
  reads_public h → listing_state Inv d →
  ∃ d', listing_state Inv d' ∧
    match name_of h with
    | Some name => ∃ public, TpmDevice.read_public h d = (Ok (public, name), d')
    | None => ∃ rc, TpmDevice.is_gone rc = true ∧ TpmDevice.read_public h d = (Err (TpmDeviceError.TpmRc rc), d')
    end.
Proof using Type.
  intros Hr [Hok Hi]. destruct (Hr _ Hi) as (hs & r & t' & Hh & Ha & Hi' & Hn).
  exists (after d (request TpmCc.ReadPublic [] hs [] []) r t'). split; [done|].
  assert (TpmBody.wire (command TpmCc.ReadPublic) (Body.mk (B:=TpmReadPublicCommand) [h] tt) = Some (hs, [])) as Hw.
  { apply (body_wire_Some (command TpmCc.ReadPublic)). by split_and!. }
  assert (zlen (request TpmCc.ReadPublic [] hs [] []) ≤ TPM_MAX_COMMAND_SIZE) as Hfit.
  { apply (handle_area_len [h]) in Hh. unfold request. rewrite zlen_command_format. unfold command_body.
    cbn [cp_handles cp_tag cp_auth cp_params]. rewrite !zlen_app, Hh. by apply Z.leb_le. }
  unfold TpmDevice.read_public, st_bind.
  match goal with |- context [TpmDevice.exchange ?B ?c ?R] =>
    change (TpmDevice.exchange B c R) with (TpmDevice.exchange (command TpmCc.ReadPublic) c (response TpmCc.ReadPublic)) end.
  destruct (name_of h) as [name|].
  - destruct Hn as (public & qualified & ps' & Hw' & -> & Hl). exists (Tpm2bStruct.inner public).
    rewrite (exchange_answers TpmCc.ReadPublic _ hs [] d Hw Hfit _ [] ps' [] [] t' Hok Hw' eq_refl ltac:(done) Hl Ha).
    done.
  - destruct Hn as (rc & Hwf & Hf & Hg & ->). exists rc. split; [done|].
    by rewrite (exchange_failed TpmCc.ReadPublic _ hs [] d Hw Hfit rc t' Hwf Hf Ha).
Qed.

Lemma find_loop_spec hs d :
  Forall reads_public hs → listing_state Inv d →
  ∃ d', listing_state Inv d' ∧ TpmDevice.find_loop target hs d = (Ok (list.head (filter named hs)), d').
Proof using Type.
  intros Hhs. revert d; induction Hhs as [|h hs Hh _ IH]; intros d Hd; [by exists d|].
  destruct (read_public_spec h d Hh Hd) as (d' & Hd' & Hr). cbn [TpmDevice.find_loop].
  assert (named h = match name_of h with Some name => bool_decide (TpmBuffer.deref name = TpmBuffer.deref target) | None => false end)
    as Hn by done.
  destruct (name_of h) as [name|].
  - destruct Hr as [public ->]. case_bool_decide.
    + exists d'. by rewrite filter_cons_True by by rewrite Hn.
    + rewrite filter_cons_False by (rewrite Hn; by intros []). by apply IH.
  - destruct Hr as (rc & Hg & ->). rewrite Hg, filter_cons_False by (rewrite Hn; by intros []). by apply IH.
Qed.

Lemma find_persistent_spec all d :
  lists_handles all Inv → Forall reads_public (of_class all TpmHt.Persistent) → listing_state Inv d →
  ∃ d', listing_state Inv d' ∧
    TpmDevice.find_persistent target d = (Ok (list.head (filter named (of_class all TpmHt.Persistent))), d').
Proof using Type.
  intros Hl Hr Hd. destruct (fetch_handles_complete all Inv TpmHt.Persistent d Hl Hd) as (d1 & Hd1 & Hf).
  destruct (find_loop_spec _ d1 Hr Hd1) as (d2 & Hd2 & Hg). exists d2. split; [done|].
  unfold TpmDevice.find_persistent, st_bind. by rewrite Hf.
Qed.
End find.

(** ** [serve] *)

Section serve.
Context {S : Type} `{ByteStreamOk S} {X : Type} (handler : list byte → X → list byte * X).
Implicit Types (s : S) (x : X).
Import TpmResponder.

(** What the handler answers to a sequence of commands, and its state after
    them. *)
Fixpoint handle_all (frames : list (list byte)) x : list byte * X :=
  match frames with
  | [] => ([], x)
  | f :: frames =>
      let (r, x) := handler f x in
      let (rs, x) := handle_all frames x in
      (r ++ rs, x)
  end.

(** Part of a frame at most. *)
Definition partial_frame (tail : list byte) : Prop :=
  ∃ f rest, is_frame f = true ∧ f = tail ++ rest ∧ rest ≠ [].

Lemma serve_frames frames tail s cmd x :
  healthy s → Forall (λ f, is_frame f = true) frames → partial_frame tail →
  incoming s = concat frames ++ tail →
  ∃ self', serve handler (Datatypes.S (length frames)) (mk (TpmStreamTransport.mk s) cmd) x =
      Some (Ok tt, self', (handle_all frames x).2) ∧
    outgoing (TpmStreamTransport.stream (transport self')) = outgoing s ++ (handle_all frames x).1.
Proof using All.
  revert s cmd x; induction frames as [|f frames IH]; intros s cmd x Hh Hf (g & rest & Hg & Hgt & Hne) Hin.
  - cbn [length serve]. unfold recv_command. cbn [transport command]. rewrite stream_recv.
    cbn [concat app] in Hin. rewrite <-Hin in Hgt.
    destruct (read_frame_end cmd s g rest Hh Hg Hgt Hne) as (buf' & s' & -> & Ho). cbn [result_bind].
    eexists. split; [reflexivity|]. cbn [transport TpmStreamTransport.stream handle_all fst]. by rewrite app_nil_r.
  - apply list.Forall_cons in Hf as [Hf1 Hf]. cbn [concat] in Hin.
    change (length (f :: frames)) with (Datatypes.S (length frames)).
    remember (Datatypes.S (length frames)) as n eqn:Hn. cbn [serve].
    rewrite <-(assoc_L (++)) in Hin.
    destruct (read_frame_next cmd s f _ Hh Hf1 Hin) as (s1 & Hr & Hi1 & Ho1 & Hh1).
    unfold recv_command at 1. cbn [transport command]. rewrite stream_recv, Hr. cbn [result_bind handle_all].
    destruct (handler f x) as [r x1] eqn:Hx.
    destruct (write_frame_healthy r s1 Hh1) as (s2 & Hw & Ho2 & Hi2 & Hh2).
    unfold send_response at 1. cbn [transport command]. rewrite stream_send, Hw.
    destruct (IH s2 f x1 Hh2 Hf) as (self' & Hs & Ho); [by exists g, rest | congruence|].
    exists self'. rewrite Hs. destruct (handle_all frames x1) as [rs x2]. cbn [fst snd] in *. split; [done|].
    by rewrite Ho, Ho2, Ho1, (assoc_L (++)).
Qed.
End serve.
