(* ===== verification/SessionSpec.v ===== *)
(** Policy sessions on a TPM: what [TpmPolicySession::run] does to the
    session's digest, and how [open] gets its nonce and handle. *)

From stdpp Require Import gmap.
From S2P Require Import Prelude State Errors Writer Codec Integer Buffer Tpml Struct EnumMacro Enums Rc Attributes.
From S2P Require Import BasicTypes Schemes Structures Body FrameData Dispatch Envelope Command Response Marshal.
From S2P Require Import Crypto Hash Policy PolicySpec Transport Device DeviceSession DeviceSpec.

(** ** Policy commands on a session *)

(** [run] puts the session's handle into the last handle of the command. *)
Lemma session_handle_last cc i : session_handle_index cc = Some i → HANDLES (command cc) = S i.
Proof. destruct cc; try done; by intros [= <-]. Qed.

(** The body can be encoded. *)
Definition encodable (c : TpmCommandValue) : Prop :=
  is_Some (TpmBody.wire (command (cv_variant c)) (cv_body c)).

(** Replacing a handle keeps a handle area encodable. *)
Lemma seq_wire_insert hs i x b bs :
  seq_wire TpmHandle hs = Some bs → wire TpmHandle x = Some b →
  is_Some (seq_wire TpmHandle (<[i := x]> hs)).
Proof.
  intros Hw Hx. revert i bs Hw; induction hs as [|y hs IH]; intros i bs; [by eauto|].
  intros (b1 & b2 & H1 & H2 & ->)%seq_wire_cons. destruct i as [|i].
  - exists (b ++ b2). apply seq_wire_cons. by exists b, b2.
  - destruct (IH i b2 H2) as [b3 E]. exists (b1 ++ b3). apply seq_wire_cons. by exists b1, b3.
Qed.

Lemma set_handle_encodable i x b c :
  encodable c → wire TpmHandle x = Some b → encodable (set_handle i x c).
Proof.
  intros [[hs ps] (Hl & Hh & Hp)%body_wire_Some] Hx.
  destruct (seq_wire_insert _ i x b hs Hh Hx) as [hs' Hh']. exists (hs', ps).
  apply (body_wire_Some (command (cv_variant c))). cbn [handles params set_handle cv_body cv_variant].
  split_and!; [by rewrite length_insert | done..].
Qed.

Section tpm.
Context `{LibcryptoOk}.
Variables (h : TpmHash.t) (context : TpmPolicyContext.t).
Variables (trial : bool) (authorises : TpmInt.t → ty TpmsAuthCommand → bool).
Local Abbreviation tpm_step := (tpm_step h context trial authorises).

(** The session handle does not enter the digest. *)
Lemma tpm_step_set_handle i x d c auths :
  session_handle_index (cv_variant c) = Some i → tpm_step d (set_handle i x c) auths = tpm_step d c auths.
Proof using Type.
  destruct c as [v b]. unfold set_handle. cbn [cv_variant cv_body].
  destruct v; try done. cbn [session_handle_index]. intros [= <-].
  assert (<[1%nat:=x]> (handles b) !! 0%nat = handles b !! 0%nat) as E by by rewrite list_lookup_insert_ne.
  unfold tpm_step. rewrite !(policy_effect_secret h context trial d). cbn [authorised unrestricted handles params].
  by rewrite E.
Qed.

(** A command the TPM executes on a session is one of those [run] knows. *)
Lemma tpm_step_effect d c auths d' : tpm_step d c auths = Some d' → policy_effect h context trial d c = Some d'.
Proof using Type. unfold tpm_step. by destruct (_ && _). Qed.

Lemma tpm_step_index d c auths d' :
  tpm_step d c auths = Some d' →
  ∃ i, session_handle_index (cv_variant c) = Some i ∧ (i < HANDLES (command (cv_variant c)))%nat ∧
    TpmBody.SIZE (command (cv_variant c)) ≤ 1024.
Proof using Type.
  intros Hs%tpm_step_effect. revert Hs.
  destruct c as [v b]. destruct v; try done; intros _; eexists; (split; [reflexivity|]); (split; [|by apply Z.leb_le]);
    cbn; lia.
Qed.
End tpm.

(** A TPM behind the transport [T] that executes policy commands on its
    session [handle].  [session_digest] is its digest while the session is open
    and the PCRs and names are those of [context]; [tpm_authorises] are the
    authorisations the TPM accepts for an entity.  To the frame of a command
    that [tpm_step] lets through, with its sessions, it replies with success,
    and the command takes its effect on the digest. *)
Class PolicyTpm (T : Type) `{TpmTransport T} `{LibcryptoOk} (h : TpmHash.t) (context : TpmPolicyContext.t)
    (handle : TpmInt.t) := {
  session_digest : T → option (list byte);
  trial_session : bool;
  tpm_authorises : TpmInt.t → ty TpmsAuthCommand → bool;
  executes_policy (t : T) (c : TpmCommandValue) i auths hs ps ab d d' :
    session_handle_index (cv_variant c) = Some i → Body.handles (cv_body c) !! i = Some handle →
    TpmBody.wire (command (cv_variant c)) (cv_body c) = Some (hs, ps) →
    seq_wire TpmsAuthCommand auths = Some ab → zlen auths ≤ MAX_SESSIONS →
    session_digest t = Some d → tpm_step h context trial_session tpm_authorises d c auths = Some d' →
    ∃ (w : body (response (cv_variant c))) hs' ps' rs ab' t',
      TpmBody.wire (response (cv_variant c)) w = Some (hs', ps') ∧
      seq_wire TpmsAuthResponse rs = Some ab' ∧ zlen rs ≤ MAX_SESSIONS ∧
      zlen (reply rs hs' ps' ab') ≤ TPM_MAX_COMMAND_SIZE ∧
      answers t (request (cv_variant c) auths hs ab ps) (reply rs hs' ps' ab') t' ∧
      session_digest t' = Some d'
}.

Section run.
Context `{PolicyTpm T h context handle}.
Implicit Types (d : TpmDevice.t T) (self : TpmPolicySession.t).
Abbreviation commands := (list (TpmCommandValue * TpmList.t (ty TpmsAuthCommand))).
Local Abbreviation tpm_step := (tpm_step h context trial_session tpm_authorises).
Local Abbreviation replay := (replay h context trial_session tpm_authorises).
Implicit Types cmds : commands.
Local Abbreviation digest d := (session_digest (TpmDevice.transport d)).

(** The sessions of a command can be encoded. *)
Definition auths_ok (auths : TpmList.t (ty TpmsAuthCommand)) : Prop :=
  is_Some (seq_wire TpmsAuthCommand (TpmList.deref auths)) ∧ zlen (TpmList.deref auths) ≤ MAX_SESSIONS.

Hypothesis handle_bytes : ∃ b, wire TpmHandle handle = Some b.

(** One command on the session. *)
Lemma run_command c auths d digest0 digest' :
  device_ok d → encodable c → auths_ok auths → digest d = Some digest0 →
  tpm_step digest0 c (TpmList.deref auths) = Some digest' →
  ∃ c' s d1, session_command handle c = Ok c' ∧
    TpmDevice.transmit (TpmCommandValue.frame c') (TpmList.deref auths) d = (Ok s, d1) ∧
    device_ok d1 ∧ digest d1 = Some digest'.
Proof using handle_bytes.
  intros Hok Hc [[ab Hab] Hn] Hdig Hstep.
  destruct (tpm_step_index h context _ _ _ c _ digest' Hstep) as (i & Hi & Hlt & Hsize).
  destruct handle_bytes as [b Hb]. destruct (set_handle_encodable i handle b c Hc Hb) as [[hs ps] Hw].
  rewrite <-(tpm_step_set_handle h context _ _ i handle) in Hstep by done.
  assert (Body.handles (cv_body (set_handle i handle c)) !! i = Some handle) as Hh.
  { apply list_lookup_insert_eq. destruct Hc as [[hs0 ps0] (Hl & _)%body_wire_Some]. by rewrite Hl. }
  destruct (executes_policy (TpmDevice.transport d) (set_handle i handle c) i (TpmList.deref auths) hs ps ab digest0 digest')
    as (w & hs' & ps' & rs & ab' & t' & Hw' & Hrs & Hnr & Hl' & Ha & Hd); [done..|].
  assert (zlen (request (cv_variant c) (TpmList.deref auths) hs ab ps) ≤ TPM_MAX_COMMAND_SIZE) as Hfit.
  { pose proof (sessions_small TpmsAuthCommand _ ab auth_command_max Hab Hn).
    destruct (body_len _ _ hs ps Hw) as (_ & _ & Hl). cbn [cv_variant set_handle] in Hl.
    unfold request. rewrite zlen_command_format. unfold command_body. cbn [cp_handles cp_tag cp_auth cp_params].
    rewrite !zlen_app, zlen_auth_bytes. unfold TPM_MAX_COMMAND_SIZE. case_bool_decide; lia. }
  destruct (transmit_reply (cv_variant c) (cv_body (set_handle i handle c)) hs ps (TpmList.deref auths) ab w hs' ps' rs ab' d t')
    as [Ht _]; [done..|].
  eexists _, _, _. split; [unfold session_command; by rewrite Hi|]. split; [exact Ht|]. by split.
Qed.

(** The commands take their effect on the session, one after the other. *)
Lemma run_replays self cmds d digest0 digest' :
  TpmPolicySession.handle self = handle → device_ok d →
  Forall (λ c, encodable c.1 ∧ auths_ok c.2) cmds → digest d = Some digest0 → replay digest0 cmds = Some digest' →
  ∃ d', run self cmds d = (Ok tt, d') ∧ device_ok d' ∧ digest d' = Some digest'.
Proof using handle_bytes.
  intros Hself. revert d digest0; induction cmds as [|[c auths] cmds IH]; intros d digest0 Hok Hf Hd0 Hr; cbn [PolicySpec.replay] in Hr.
  - injection Hr as <-. by exists d.
  - apply list.Forall_cons in Hf as [[Hc Ha] Hf]. apply bind_Some in Hr as (digest1 & Hstep & Hr).
    destruct (run_command c auths d digest0 digest1 Hok Hc Ha Hd0 Hstep) as (c' & s & d1 & Hs & Ht & Hok1 & Hd1).
    cbn [run]. unfold st_bind, st_lift. rewrite Hself, Hs, Ht. by apply (IH d1 digest1).
Qed.

(** A command that is not one of them ends the call, after those before it. *)
Lemma run_refuses self cmds c auths rest d d' :
  run self cmds d = (Ok tt, d') → session_handle_index (cv_variant c) = None →
  run self (cmds ++ (c, auths) :: rest) d = (Err (TpmDeviceError.InvalidCc (TpmCommandValue.cc c)), d').
Proof using Type.
  intros Hr Hn. revert d Hr; induction cmds as [|[c0 auths0] cmds IH]; intros d Hr; cbn [app run] in *.
  - injection Hr as <-. unfold st_bind, st_lift, session_command. by rewrite Hn.
  - apply st_bind_Ok_inv in Hr as (c1 & d1 & H1' & Hr). cbv beta in Hr.
    apply st_bind_Ok_inv in Hr as (s & d2 & H2' & Hr).
    unfold st_bind at 1. rewrite H1'. unfold st_bind. rewrite H2'. by apply IH.
Qed.
End run.

(** ** Opening a session *)

Section nonce.
Context `{LibcryptoOk, Os}.
Variables (fill_bytes : list byte → list byte) (b : TpmPolicySessionBuilder.t) (h : TpmHash.t).
(** [RngCore::fill_bytes] overwrites its buffer. *)
Hypothesis fill_length : ∀ bs, zlen (fill_bytes bs) = zlen bs.

Lemma the_nonce_given nonce :
  TpmPolicySessionBuilder.nonce_caller b = Some nonce → TpmPolicySessionBuilder.the_nonce fill_bytes b = Ok nonce.
Proof using Type. intros Hn. unfold TpmPolicySessionBuilder.the_nonce. by rewrite Hn. Qed.

(** A fresh nonce is as long as a digest of the session's algorithm. *)
Lemma the_nonce_fresh :
  TpmPolicySessionBuilder.nonce_caller b = None → TpmHash.try_from (TpmPolicySessionBuilder.auth_hash b) = Ok h →
  ∃ nonce, TpmPolicySessionBuilder.the_nonce fill_bytes b = Ok nonce ∧
    TpmBuffer.deref nonce = fill_bytes (TpmHash.zeroed (TpmHash.size h)) ∧
    zlen (TpmBuffer.deref nonce) = TpmHash.size h.
Proof using H0 fill_length.
  intros Hn Hh. unfold TpmPolicySessionBuilder.the_nonce. rewrite Hn, Hh. cbn [map_err result_bind]. cbv zeta.
  pose proof (size_bounds h) as Hs. set (bs := fill_bytes _).
  assert (zlen bs = TpmHash.size h) as Hl by (unfold bs; rewrite fill_length, zlen_zeroed; lia).
  destruct (buffer_try_from_spec MAX_DIGEST_SIZE ltac:(done) bs) as (x & Hx & Hd); [lia | unfold u16_max, MAX_DIGEST_SIZE in *; lia |].
  exists x. rewrite Hx. cbn [map_err]. assert (TpmBuffer.deref x = bs) as -> by (by eapply holds_deref). done.
Qed.
End nonce.

Section open.
Context `{PolicyTpm T h context handle}.
Implicit Types d : TpmDevice.t T.
Variables (fill_bytes : list byte → list byte) (b : TpmPolicySessionBuilder.t).
Import TpmPolicySessionBuilder.

(** The command [open] sends. *)
Definition start_command (nonce : ty Tpm2bNonce) : body (command TpmCc.StartAuthSession) :=
  Body.mk (B:=TpmStartAuthSessionCommand) [tpm_key b; bind b]
    (nonce, (default (TpmBuffer.new MAX_RSA_KEY_BYTES) (encrypted_salt b),
     (session_type b, (symmetric b, (auth_hash b, tt))))).

(** The TPM answers it with a new session [handle] of that type, whose digest is
    zero. *)
Definition starts_session (t : T) (nonce nonce_tpm : ty Tpm2bNonce) : Prop :=
  ∃ hs ps hs' ps' t',
    TpmBody.wire (command TpmCc.StartAuthSession) (start_command nonce) = Some (hs, ps) ∧
    TpmBody.wire (response TpmCc.StartAuthSession)
      (Body.mk (B:=TpmStartAuthSessionResponse) [handle] (nonce_tpm, tt)) = Some (hs', ps') ∧
    zlen (reply [] hs' ps' []) ≤ TPM_MAX_COMMAND_SIZE ∧
    session_type b = (if trial_session then TpmSe.Trial else TpmSe.Policy) ∧
    answers t (request TpmCc.StartAuthSession [] hs [] ps) (reply [] hs' ps' []) t' ∧
    session_digest t' = Some (zero_digest h).

Lemma open_starts d nonce nonce_tpm :
  device_ok d → the_nonce fill_bytes b = Ok nonce → starts_session (TpmDevice.transport d) nonce nonce_tpm →
  ∃ d', open fill_bytes b d =
      (Ok (TpmPolicySession.mk handle TpmaSession.CONTINUE_SESSION (auth_hash b) nonce_tpm), d') ∧
    device_ok d' ∧ session_digest (TpmDevice.transport d') = Some (zero_digest h).
Proof using Type.
  intros Hok Hn (hs & ps & hs' & ps' & t' & Hw & Hw' & Hl & _ & Ha & Hz).
  assert (zlen (request TpmCc.StartAuthSession [] hs [] ps) ≤ TPM_MAX_COMMAND_SIZE) as Hfit.
  { destruct (body_len _ _ hs ps Hw) as (_ & _ & Hs).
    assert (TpmBody.SIZE (command TpmCc.StartAuthSession) ≤ 1024) as Hsize by by apply Z.leb_le.
    unfold request. rewrite zlen_command_format. unfold command_body. cbn [cp_handles cp_tag cp_auth cp_params].
    rewrite !zlen_app, zlen_auth_bytes. unfold TPM_MAX_COMMAND_SIZE.
    rewrite bool_decide_false by done. lia. }
  pose proof (exchange_answers TpmCc.StartAuthSession _ hs ps d Hw Hfit _ hs' ps' [] [] t' Hok Hw' eq_refl
    ltac:(done) Hl Ha) as He.
  exists (after d (request TpmCc.StartAuthSession [] hs [] ps) (reply [] hs' ps' []) t').
  split; [|by split]. unfold open. unfold st_bind at 1. unfold st_lift at 1. rewrite Hn. cbv zeta. unfold st_bind at 1.
  match goal with |- context [TpmDevice.exchange ?B ?c ?R] =>
    change (TpmDevice.exchange B c R) with
      (TpmDevice.exchange (command TpmCc.StartAuthSession) (start_command nonce) (response TpmCc.StartAuthSession)) end.
  by rewrite He.
Qed.
End open.
