(* ===== verification/CryptoProperties.v ===== *)
(** What the crypto crate promises: digests and HMAC, the key derivation
    functions, names; and a small concrete libcrypto for the witnesses. *)

From S2P Require Import Prelude State Errors Writer Codec Integer Buffer EnumMacro Enums Attributes BasicTypes Schemes Structures Crypto Hash.
From S2P Require Import Struct.

(** ** A concrete libcrypto

    A digest algorithm is its digest size; the hash of a message is the
    message itself, padded with zeros and cut to that size. *)

Definition toy_hash (md : Z) (bs : list byte) : list byte :=
  take (Z.to_nat (0 `max` md `min` 64)) (bs ++ replicate 64 x00).

(** A key: for HMAC, of an elliptic curve (private key and public point), or
    of RSA (modulus and exponent). *)
Inductive toy_pkey :=
| HmacKey (key : list byte)
| EcPKey (private : list byte) (point : Z * Z)
| RsaPKey (n e : list byte).

#[export] Instance toy_libcrypto : Libcrypto := {|
  ErrorStack := unit; Nid := Z; MessageDigest := Z;
  md_sha1 := 20; md_sha256 := 32; md_sha384 := 48; md_sha512 := 64; md_sm3 := 32;
  md_sha3_256 := 32; md_sha3_384 := 48; md_sha3_512 := 64; md_shake_128 := 16; md_shake_256 := 32;
  md_size md := 0 `max` md `min` 64;
  Hasher := Z * list byte;
  Hasher_new md := Ok (md, []);
  Hasher_update c h := Ok (h.1, h.2 ++ c);
  Hasher_finish h := Ok (toy_hash h.1 h.2);
  PKey := toy_pkey;
  PKey_hmac key := Ok (HmacKey key);
  Signer := Z * list byte * list byte;
  Signer_new md k := match k with HmacKey key => Ok (md, key, []) | _ => Err () end;
  Signer_update c s := Ok (s.1, s.2 ++ c);
  Signer_len s := Ok (0 `max` s.1.1 `min` 64);
  Signer_sign s buf :=
    let d := toy_hash s.1.1 (s.1.2 ++ s.2) in (Ok (zlen d), d ++ drop (length d) buf);
  memcmp_eq a b := if decide (length a = length b) then Some (bool_decide (a = b)) else None
|}.

Lemma zlen_toy_hash md bs : zlen (toy_hash md bs) = 0 `max` md `min` 64.
Proof. unfold toy_hash, zlen. rewrite length_take, length_app, length_replicate. lia. Qed.

#[export] Instance toy_libcrypto_ok : LibcryptoOk.
Proof.
  refine {|
    hash := toy_hash : @MessageDigest toy_libcrypto → _;
    hmac_of := (λ md key bs, toy_hash md (key ++ bs)) : @MessageDigest toy_libcrypto → _;
    usable := λ _, True;
    hashing := λ (h : @Hasher toy_libcrypto) md bs, h = (md, bs);
    keyed := λ (k : @PKey toy_libcrypto) key, k = HmacKey key;
    signing := λ (s : @Signer toy_libcrypto) md key bs, s = (md, key, bs) |};
    simpl; try done; intros; subst; simpl; try done.
  - unfold MAX_DIGEST_SIZE; lia.
  - apply zlen_toy_hash.
  - apply zlen_toy_hash.
  - set (d := toy_hash md (key ++ bs)). assert (zlen d = 0 `max` md `min` 64) as Hd by apply zlen_toy_hash.
    split.
    + rewrite zlen_app. unfold zlen in *. rewrite length_drop. lia.
    + split; [done|]. do 2 f_equal. unfold zlen. lia.
Defined.

(** ** Digests and HMAC *)

(** Hashing and HMAC over the concatenation of the chunks: the digest is
    the hash and has the size of the algorithm; a buffer is filled from its
    start and otherwise left alone, and one that is too short for a digest is
    refused with both lengths and not touched; an empty key is refused; there
    is no panic, and any other error is a libcrypto failure. *)
Theorem digests_correct `{LibcryptoOk} (h : TpmHash.t) (key : list byte)
    (chunks : list (list byte)) (out : list byte) :
  let d := hash (TpmHash.to_md h) (concat chunks) in
  let m := hmac_of (TpmHash.to_md h) key (concat chunks) in
  outcome (crypto_failure h) (λ r, r = d ∧ zlen r = TpmHash.size h) (TpmHash.digest h chunks) ∧
  (TpmHash.size h ≤ zlen out →
     st_outcome (λ e out', crypto_failure h e ∧ out' = out)
       (λ n out', n = zlen d ∧ out' = d ++ drop (Z.to_nat n) out) (TpmHash.digest_into h chunks out)) ∧
  (zlen out < TpmHash.size h →
     TpmHash.digest_into h chunks out =
       (Err (TpmCryptoError.BufferTooSmall (TpmHash.size h) (zlen out)), out)) ∧
  (key ≠ [] →
     outcome (crypto_failure h) (λ r, r = m ∧ zlen r = TpmHash.size h) (TpmHash.hmac h key chunks)) ∧
  (key ≠ [] → TpmHash.size h ≤ zlen out →
     st_outcome (λ e out', crypto_failure h e ∧ zlen out' = zlen out)
       (λ n out', n = zlen m ∧ out' = m ++ drop (Z.to_nat n) out)
       (TpmHash.hmac_into h key chunks out)) ∧
  TpmHash.hmac h [] chunks = Err TpmCryptoError.KeyIsEmpty.
Proof.
  split_and!.
  - eapply outcome_impl; [apply digest_spec|]. intros r ->. split; [done | apply zlen_hash].
  - intros Hl. eapply st_outcome_impl; [by apply digest_into_spec | done | by intros n out' [-> ->]].
  - apply digest_into_short.
  - intros Hk. eapply outcome_impl; [by apply hmac_spec|]. intros r ->. split; [done | apply zlen_hmac].
  - intros Hk Hl. eapply st_outcome_impl; [by apply hmac_into_spec | done | by intros n out' [-> ->]].
  - apply hmac_empty_key.
Qed.

(** A 20-byte digest in a 24-byte buffer, and a 19-byte buffer. *)
Lemma digests_correct_witness :
  TpmHash.digest_into TpmHash.Sha1 [[x01]; [x02; x03]] (replicate 24 xff) =
    (Ok 20, [x01; x02; x03] ++ replicate 17 x00 ++ replicate 4 xff) ∧
  TpmHash.digest_into TpmHash.Sha1 [[x01]] (replicate 19 xff) =
    (Err (TpmCryptoError.BufferTooSmall 20 19), replicate 19 xff).
Proof.
  split; [vm_compute; reflexivity|].
  destruct (digests_correct TpmHash.Sha1 [] [[x01]] (replicate 19 xff)) as (_ & _ & Hs & _).
  apply Hs. vm_compute. reflexivity.
Defined.

(** [hmac_verify] accepts exactly the HMAC of the chunks under the key.
    A signature of the right size that differs is a [MacMismatch]; one of any
    other size is not: it panics, because the comparison of libcrypto does,
    so no error reaches the caller.  An empty key is refused. *)
Theorem hmac_verify_exact `{LibcryptoOk} (h : TpmHash.t) (key : list byte)
    (chunks : list (list byte)) (signature : list byte) :
  usable (TpmHash.to_md h) → key ≠ [] →
  let m := hmac_of (TpmHash.to_md h) key (concat chunks) in
  (signature = m → TpmHash.hmac_verify h key chunks signature = Ok ()) ∧
  (signature ≠ m → zlen signature = TpmHash.size h →
     TpmHash.hmac_verify h key chunks signature = Err TpmCryptoError.MacMismatch) ∧
  (zlen signature ≠ TpmHash.size h → TpmHash.hmac_verify h key chunks signature = Panic) ∧
  TpmHash.hmac_verify h [] chunks signature = Err TpmCryptoError.KeyIsEmpty.
Proof.
  intros Hu Hk m. pose proof (hmac_verify_eq h key chunks signature Hu Hk) as Hv. fold m in Hv.
  pose proof (zlen_hmac (TpmHash.to_md h) key (concat chunks)) as Hm. fold m in Hm.
  rewrite Hv. unfold TpmHash.size. split_and!; [| | | done].
  - intros ->. by rewrite !decide_True.
  - intros Hne Hl. by rewrite decide_True, decide_False.
  - intros Hl. by rewrite decide_False.
Qed.

Lemma hmac_verify_exact_witness :
  TpmHash.hmac_verify TpmHash.Sha1 [x01] [[x02]] ([x01; x02] ++ replicate 18 x00) = Ok () ∧
  TpmHash.hmac_verify TpmHash.Sha1 [x01] [[x02]] [x01; x02] = Panic.
Proof.
  split.
  - apply (hmac_verify_exact TpmHash.Sha1 [x01] [[x02]]); [exact I | discriminate | reflexivity].
  - apply (hmac_verify_exact TpmHash.Sha1 [x01] [[x02]]); [exact I | discriminate | discriminate].
Defined.

(** ** Key derivation *)

(** C14.  [KDFa] and [KDFe]: for every key size up to [u32::MAX] bits, and a
    digest algorithm with a non-empty digest, they terminate without panic
    (neither the counter nor any index overflows) with the first bytes of the
    blocks of Part 1 of the TPM specification; a failure is one of libcrypto.
    For [KDFe], whose blocks do not depend on the key size, shorter keys are
    prefixes of longer ones.  A key size that does not fit 32 bits is
    refused. *)
Theorem kdf_correct `{LibcryptoOk} (h : TpmHash.t) (key z label a b : list byte) (key_bits : Z) :
  0 ≤ key_bits → 0 < TpmHash.size h → key ≠ [] →
  (key_bits ≤ u32_max →
     outcome (crypto_failure h)
       (λ d, d = kdf_key (kdfa_block h key label a b key_bits) (TpmHash.size h) key_bits ∧
             zlen d = TpmHash.div_ceil key_bits 8)
       (TpmHash.kdfa h key label a b key_bits) ∧
     outcome (crypto_failure h)
       (λ d, d = kdf_key (kdfe_block h z label a b) (TpmHash.size h) key_bits ∧
             zlen d = TpmHash.div_ceil key_bits 8)
       (TpmHash.kdfe h z label a b key_bits)) ∧
  (u32_max < key_bits →
     TpmHash.kdfa h key label a b key_bits = Err (TpmCryptoError.InvalidKdfKeyBits key_bits) ∧
     TpmHash.kdfe h z label a b key_bits = Err (TpmCryptoError.InvalidKdfKeyBits key_bits)) ∧
  (∀ more, key_bits ≤ more →
     ∃ k, kdf_key (kdfe_block h z label a b) (TpmHash.size h) more =
          kdf_key (kdfe_block h z label a b) (TpmHash.size h) key_bits ++ k).
Proof.
  intros Hb Hs Hk.
  assert (∀ i, zlen (kdfa_block h key label a b key_bits i) = TpmHash.size h) as Ha by (intros; apply zlen_hmac).
  assert (∀ i, zlen (kdfe_block h z label a b i) = TpmHash.size h) as He by (intros; apply zlen_hash).
  split_and!.
  - intros Hu. split.
    + eapply outcome_impl; [by apply kdfa_outcome|]. intros d ->. split; [done | by apply zlen_kdf_key].
    + eapply outcome_impl; [by apply kdfe_outcome|]. intros d ->. split; [done | by apply zlen_kdf_key].
  - intros Hu. unfold TpmHash.kdfa, TpmHash.kdfe. by rewrite kdf_bits_err.
  - intros more Hm. by apply kdf_key_prefix.
Qed.

(** 200 bits from 160-bit blocks: one whole block and five bytes of the
    second. *)
Lemma kdf_correct_witness :
  TpmHash.kdfe TpmHash.Sha1 [x0a] [x4c] [] [] 200 =
    Ok ([x00; x00; x00; x01; x0a; x4c; x00] ++ replicate 13 x00 ++ [x00; x00; x00; x02; x0a]) ∧
  outcome (crypto_failure TpmHash.Sha1) (λ d, zlen d = 25)
    (TpmHash.kdfa TpmHash.Sha1 [x0b] [x4c] [] [] 200).
Proof.
  split; [vm_compute; reflexivity|].
  destruct (kdf_correct TpmHash.Sha1 [x0b] [x0a] [x4c] [] [] 200) as [Hk _];
    [discriminate | reflexivity | discriminate |].
  destruct Hk as [Hk _]; [discriminate|].
  eapply outcome_impl; [exact Hk|]. intros d [_ Hd]. exact Hd.
Defined.

(** ** Names *)

(** The Name of an object is its name algorithm followed by the digest,
    with that algorithm, of its public area as it goes over the wire; a
    public area whose name algorithm is not a digest is refused. *)
Theorem name_correct `{LibcryptoOk} (public : ty TpmtPublic) (bs : list byte) :
  wire TpmtPublic public = Some bs →
  match TpmHash.try_from (TpmtPublic.name_alg public) with
  | Ok h =>
      outcome (crypto_failure h)
        (λ name, TpmBuffer.deref name =
           be_encode 2 (value (TpmtPublic.name_alg public)) ++ hash (TpmHash.to_md h) bs)
        (tpm_make_name public)
  | _ => tpm_make_name public = Err TpmCryptoError.InvalidHash
  end.
Proof.
  intros Hw. destruct (TpmHash.try_from _) as [h|e|] eqn:Hh.
  - eapply outcome_impl; [by apply make_name_outcome|]. intros nm Hn. exact (holds_deref _ nm _ Hn).
  - unfold tpm_make_name. rewrite Hh. revert Hh.
    by destruct (TpmtPublic.name_alg public); intros [= <-].
  - revert Hh. by destruct (TpmtPublic.name_alg public).
Qed.

(** A keyed hash object without a scheme, named with SHA-1. *)
Definition keyed_hash_public : ty TpmtPublic :=
  TpmtPublic.mk TpmAlgId.KeyedHash TpmAlgId.Sha1 (Bitflags.from_bits_truncate 0x20040)
    (TpmBuffer.new 64)
    (TpmuPublicParms.KeyedHash (TaggedStruct.mk TpmAlgId.Null TpmuKeyedhashScheme.Null, ()))
    (TpmuPublicId.KeyedHash (TpmBuffer.new 64)).

Lemma name_correct_witness :
  outcome (crypto_failure TpmHash.Sha1)
    (λ name, TpmBuffer.deref name =
       [x00; x04; x00; x08; x00; x04; x00; x02; x00; x40; x00; x00; x00; x10] ++ replicate 8 x00)
    (tpm_make_name keyed_hash_public).
Proof.
  exact (name_correct keyed_hash_public
    (be_encode 2 8 ++ be_encode 2 4 ++ be_encode 4 0x20040 ++ be_encode 2 0 ++ be_encode 2 16 ++
     be_encode 2 0) eq_refl).
Defined.
