(* ===== verification/PolicyProperties.v ===== *)
(** What the policy language promises: the commands [compile] emits compute
    its digest on a TPM, [from_commands] inverts it, and when it succeeds. *)

From stdpp Require Import gmap.
From S2P Require Import Prelude Errors Writer Codec Integer Buffer Tpml EnumMacro Enums BasicTypes Structures.
From S2P Require Import Body FrameData Dispatch Crypto Hash Text Policy PolicyText PolicySpec PolicyTextSpec PolicyParser.
From S2P Require Import CryptoProperties.
Import TpmPolicyExpression.

(** ** Concrete values for the witnesses *)

Definition get {E A} (r : result E A) (d : A) : A := match r with Ok a => a | _ => d end.
Definition a_digest (bs : list byte) : ty Tpm2bDigest :=
  get (TpmBuffer.try_from MAX_DIGEST_SIZE bs) (TpmBuffer.new MAX_DIGEST_SIZE).

(** PCR 0 and PCR 9 of the SHA-1 bank. *)
Definition sample_selections : ty TpmlPcrSelection :=
  get (TpmList.try_push 8
         (TpmsPcrSelection.mk TpmAlgId.Sha1 (get (TpmsPcrSelect.try_from [x01; x02]) TpmsPcrSelect.new))
         (TpmList.new 8)) (TpmList.new 8).
Definition sample_context : TpmPolicyContext.t :=
  TpmPolicyContext.mk ∅
    {[ TpmAlgId.Sha1 := {[ 0 := a_digest [x11]; 9 := a_digest [x22] ]} ]} 16.

Definition owner : t := Handle (TpmInt.new 4 0x40000001).
(** [pcr(sha1:0,9)], and [secret(owner)]. *)
Definition pcr_condition : t := Pcr sample_selections None.
Definition sample_expression : t :=
  And [pcr_condition; Or [And [Secret owner None]; Secret owner (Some (a_digest [x07]))]].

Definition sample_compiled : TpmCompiledPolicy :=
  get (compile sample_context sample_expression TpmAlgId.Sha1)
    (mk_compiled [] (TpmBuffer.new MAX_DIGEST_SIZE)).

(** Hexadecimal, and the names of the digests. *)
Definition hex_of (bs : list byte) : str := concat (map (λ b, hex_digits 2 (byte.unsigned b)) bs).
Fixpoint bytes_of (s : str) : option (list byte) :=
  match s with
  | [] => Some []
  | c1 :: c2 :: s =>
      d1 ← to_digit 16 c1; d2 ← to_digit 16 c2; bs ← bytes_of s;
      Some (byte.of_Z (16 * d1 + d2) :: bs)
  | _ => None
  end.
Definition hashes : list (TpmHash.t * str) :=
  [(TpmHash.Sha1, lit "sha1"); (TpmHash.Sha256, lit "sha256"); (TpmHash.Sha384, lit "sha384");
   (TpmHash.Sha512, lit "sha512"); (TpmHash.Sm3_256, lit "sm3-256"); (TpmHash.Sha3_256, lit "sha3-256");
   (TpmHash.Sha3_384, lit "sha3-384"); (TpmHash.Sha3_512, lit "sha3-512");
   (TpmHash.Shake128, lit "shake128"); (TpmHash.Shake256, lit "shake256")].
Definition hash_name (h : TpmHash.t) : str :=
  match list_find (λ p, p.1 = h) hashes with Some (_, (_, name)) => name | None => [] end.
Definition hash_named (s : str) : option TpmHash.t :=
  match list_find (λ p, p.2 = s) hashes with Some (_, (h, _)) => Some h | None => None end.

Definition sample_text : TextLib :=
  Build_TextLib _ hex_of bytes_of hash_name hash_named (λ _, []).

Lemma sample_text_ok : @TextLibOk _ sample_text.
Proof.
  split; simpl.
  - induction bs as [|b bs IH]; [done|].
    change (hex_of (b :: bs)) with (hex_digits 2 (byte.unsigned b) ++ hex_of bs). cbn [hex_digits app].
    pose proof (byte.unsigned_range b) as Hb.
    pose proof (Z.mod_pos_bound (byte.unsigned b) 16). pose proof (Z.mod_pos_bound (byte.unsigned b / 16) 16).
    cbn [bytes_of]. rewrite !to_digit_char by lia. cbn [mbind option_bind]. rewrite IH. cbn [mbind option_bind].
    do 2 f_equal. etrans; [|apply byte.of_Z_unsigned]. f_equal.
    rewrite (Z.mod_small (byte.unsigned b / 16)) by (split; [apply Z.div_pos | apply Z.div_lt_upper_bound]; lia).
    symmetry. apply Z.div_mod. lia.
  - intros bs. unfold hex_of. apply list.Forall_forall. intros c Hc%list_elem_of_In.
    apply in_concat in Hc as (s & (b & <- & _)%in_map_iff & Hc).
    pose proof (hex_digits_chars 2 (byte.unsigned b)) as Hf. rewrite list.Forall_forall in Hf.
    by apply Hf, list_elem_of_In.
  - by intros [].
  - by intros []; repeat constructor.
  - by intros [].
Qed.

(** ** The digest *)

(** C6.  [compile] agrees with the TPM, for an expression whose disjunctions
    have at least two branches (the parser gives no others, and the TPM takes
    no others), whose PCR selections can be encoded, and whose given PCR
    digests are those of the current PCR values (a trial session takes any):
    it emits the commands with empty authorisation areas, and when each
    [PolicySecret] is given a session that authorises its entity, a TPM that
    has the PCR values and names of the context and executes them on a fresh
    session of the algorithm accepts every one (each [PolicyOR] finds its
    current digest among the listed ones) and ends with the digest [compile]
    returned. *)
Theorem compile_replays `{LibcryptoOk} (context : TpmPolicyContext.t) (e : t)
    (alg : TpmAlgId.t) (h : TpmHash.t) (p : TpmCompiledPolicy) (trial : bool)
    (authorises : TpmInt.t → ty TpmsAuthCommand → bool) :
  TpmHash.try_from alg = Ok h → well_formed e = true → every or_plural e = true →
  every (pcr_holds h context trial) e = true → compile context e alg = Ok p →
  Forall (λ cmd, cmd.2 = TpmList.new MAX_SESSIONS) (commands p) ∧
  ∀ cmds, cmds.*1 = (commands p).*1 → all_authorised authorises cmds →
    replay h context trial authorises (zero_digest h) cmds = Some (TpmBuffer.deref (digest p)).
Proof.
  intros Hh Hw Ho Hp Hc. split.
  - destruct (compile_effects h context trial e alg p Hh Hw Ho Hp Hc) as [_ Hf].
    eapply list.Forall_impl; [exact Hf|]. by intros cmd [_ ?].
  - intros cmds. by apply (compile_executes h context trial authorises e alg).
Qed.

(** A password session, and the TPM's opinion about it *)
Definition sample_auth : ty TpmsAuthCommand :=
  (TpmInt.new 4 0x40000009, (a_digest [], (Bitflags.from_bits_truncate 1, (a_digest [x70; x77], tt)))).
Definition sample_authorises (handle : TpmInt.t) (auth : ty TpmsAuthCommand) : bool :=
  let '(_, (_, (_, (hmac, _)))) := auth in bool_decide (TpmBuffer.deref hmac = [x70; x77]).
(** The commands with that session where one is needed *)
Definition with_password (cmds : commands_list) : commands_list :=
  map (λ cmd, if bool_decide (cv_variant cmd.1 = TpmCc.PolicySecret)
              then (cmd.1, get (TpmList.try_push MAX_SESSIONS sample_auth (TpmList.new MAX_SESSIONS)) (TpmList.new MAX_SESSIONS))
              else cmd) cmds.
Definition authorised_check (cmds : commands_list) : bool :=
  forallb (λ cmd, authorised sample_authorises cmd.1 (TpmList.deref cmd.2)) cmds.
Lemma authorised_checked cmds : authorised_check cmds = true → all_authorised sample_authorises cmds.
Proof.
  unfold authorised_check. rewrite forallb_forall. intros Hall. apply list.Forall_forall.
  intros cmd Hc%list_elem_of_In. by apply Hall.
Qed.

Lemma compile_replays_witness :
  length (commands sample_compiled) = 6%nat ∧
  replay TpmHash.Sha1 sample_context false sample_authorises (zero_digest TpmHash.Sha1)
      (with_password (commands sample_compiled)) =
    Some (TpmBuffer.deref (digest sample_compiled)).
Proof.
  split; [vm_compute; reflexivity|].
  apply (compile_replays sample_context sample_expression TpmAlgId.Sha1 TpmHash.Sha1 sample_compiled false sample_authorises);
    [vm_compute; reflexivity..|].
  apply authorised_checked. vm_compute. reflexivity.
Defined.

(** C11.  [from_commands] inverts [compile]: it reads back the normal form of
    the expression, in which nested conjunctions are merged, the digests of
    [pcr] conditions are filled in, and an empty reference is dropped; an
    expression in normal form is read back unchanged. *)
Theorem from_commands_inverts `{LibcryptoOk} (context : TpmPolicyContext.t) (e : t)
    (alg : TpmAlgId.t) (h : TpmHash.t) (p : TpmCompiledPolicy) :
  TpmHash.try_from alg = Ok h → well_formed e = true → compile context e alg = Ok p →
  from_commands (commands p).*1 = Ok (normalize h context e) ∧
  (canonical e = true → from_commands (commands p).*1 = Ok e).
Proof.
  intros Hh Hw (s & Hs & ([d c] & Hc & [= <-])%result_bind_Ok_inv)%result_bind_Ok_inv.
  destruct (session_new_ok h alg s Hs Hh) as [[Ha _] _].
  apply (compile_walk_reads_back h) in Hc as [_ (cmds & Hcl & Hr)]; [|done..].
  simpl in Hcl. simpl. rewrite Hcl. unfold from_commands. rewrite Hr. cbn [result_bind app].
  split; [done|]. intros Hcan. fold (normalize h context e). by rewrite normalize_canonical.
Qed.

Lemma from_commands_inverts_witness :
  from_commands (commands sample_compiled).*1 =
    Ok (And [Pcr sample_selections (resolved TpmHash.Sha1 sample_context sample_selections None);
             Or [Secret owner None; Secret owner (Some (a_digest [x07]))]]).
Proof.
  apply (from_commands_inverts sample_context sample_expression TpmAlgId.Sha1); vm_compute; reflexivity.
Defined.

(** C39.  What precedes a disjunction in a conjunction is not part of the
    policy: [es and (bs)] compiles to the digest of [bs] alone, because each
    branch of the disjunction restarts the session and [PolicyOR] replaces
    its digest.  The commands for [es] are emitted, but an object with that
    policy can be used without satisfying them. *)
Theorem or_drops_conjuncts `{LibcryptoOk} (context : TpmPolicyContext.t) (es bs : list t)
    (alg : TpmAlgId.t) (p : TpmCompiledPolicy) :
  compile context (And (es ++ [Or bs])) alg = Ok p →
  ∃ q prefix, compile context (Or bs) alg = Ok q ∧ digest p = digest q ∧
    commands p = prefix ++ commands q.
Proof.
  intros (s & Hs & ([d c] & Hc & [= <-])%result_bind_Ok_inv)%result_bind_Ok_inv.
  cbn [compile_walk] in Hc. apply result_bind_Ok_inv in Hc as (c' & Hc & [= <- <-]).
  apply walk_branches_app in Hc as (c1 & Hc1 & Hor). apply walk_branches_agree in Hc1.
  cbn [walk_branches] in Hor. apply result_bind_Ok_inv in Hor as ([d' c2] & Hor & [= <-]).
  destruct c1 as [cs s1]. simpl in Hc1. rewrite <-(or_forgets context bs cs s s1 Hc1) in Hor.
  rewrite <-(app_nil_r cs) in Hor. change (mk_compiler (cs ++ []) s) with
    (prefix_compiler cs (mk_compiler [] s)) in Hor. rewrite compile_walk_prefix in Hor.
  apply result_bind_Ok_inv in Hor as ([d'' c3] & Hor & [= <- <-]).
  unfold compile. rewrite Hs. cbn [result_bind]. rewrite Hor. cbn [result_bind].
  eexists _, cs. split_and!; [done| |done]. simpl.
  by apply (compile_walk_digest context (Or bs)) in Hor as ->.
Qed.

Lemma or_drops_conjuncts_witness :
  (∃ q prefix,
    compile sample_context (Or [And [Secret owner None]; Secret owner (Some (a_digest [x07]))])
      TpmAlgId.Sha1 = Ok q ∧
    digest sample_compiled = digest q ∧ commands sample_compiled = prefix ++ commands q).
Proof.
  apply (or_drops_conjuncts sample_context [pcr_condition]
    [And [Secret owner None]; Secret owner (Some (a_digest [x07]))] TpmAlgId.Sha1).
  vm_compute. reflexivity.
Defined.

(** [compile] never panics, and with an available algorithm it succeeds
    exactly on the expressions whose digests have the right size, whose PCRs
    and names are in the context and whose disjunctions have at most eight
    branches; an algorithm that is not a digest is refused. *)
Theorem compile_decided `{LibcryptoOk} (context : TpmPolicyContext.t) (e : t) (alg : TpmAlgId.t) :
  well_formed e = true →
  match TpmHash.try_from alg with
  | Ok h =>
      usable (TpmHash.to_md h) →
      match compile context e alg with
      | Ok _ => compilable h context e = true
      | Err _ => compilable h context e = false
      | Panic => False
      end
  | _ => compile context e alg = Err (TpmPolicyError.Crypto TpmCryptoError.InvalidHash)
  end.
Proof.
  intros Hw. destruct (TpmHash.try_from alg) as [h|e'|] eqn:Hh.
  - intros Hu. unfold compile. destruct (session_new_total h alg Hh) as (s & -> & Hs).
    cbn [result_bind]. pose proof (compile_walk_decided h context Hu e (mk_compiler [] s) Hs Hw) as Hd.
    destruct (compile_walk context e _) as [[d c]| |]; simpl in *; [by destruct Hd | done..].
  - unfold compile, TpmPolicySession.new. rewrite Hh. revert Hh. by destruct alg; intros [= <-].
  - revert Hh. by destruct alg.
Qed.

Lemma compile_decided_witness :
  match compile sample_context (And [pcr_condition; owner]) TpmAlgId.Sha1 with
  | Ok _ => compilable TpmHash.Sha1 sample_context (And [pcr_condition; owner]) = true
  | Err _ => compilable TpmHash.Sha1 sample_context (And [pcr_condition; owner]) = false
  | Panic => False
  end.
Proof.
  apply (compile_decided sample_context (And [pcr_condition; owner]) TpmAlgId.Sha1);
    [vm_compute; reflexivity | exact I].
Defined.

(** ** Contexts *)

(** Building a context keeps the names and banks, and, when no bank is
    empty, checks in whatever order the map is visited that all banks have
    the same number of PCRs, which becomes [pcr_count].  With an empty bank
    the outcome depends on the order, which a [HashMap] leaves open: the same
    builder can succeed in one run and fail in the next. *)
Theorem context_build `{Libcrypto} (names : names_map) (pcrs : pcr_banks) :
  (∀ values, TpmPolicyContext.visits values pcrs →
     (∀ alg bank, pcrs !! alg = Some bank → bank ≠ ∅) →
     match TpmPolicyContextBuilder.build values (TpmPolicyContextBuilder.mk names pcrs) with
     | Ok c =>
         TpmPolicyContext.names c = names ∧ TpmPolicyContext.pcrs c = pcrs ∧
         (∀ alg bank, pcrs !! alg = Some bank →
            TpmPolicyContext.bank_len bank = TpmPolicyContext.pcr_count c) ∧
         (pcrs = ∅ → TpmPolicyContext.pcr_count c = 0)
     | Err e =>
         e = TpmPolicyError.PcrCountMismatch ∧
         ∃ alg1 bank1 alg2 bank2, pcrs !! alg1 = Some bank1 ∧ pcrs !! alg2 = Some bank2 ∧
           TpmPolicyContext.bank_len bank1 ≠ TpmPolicyContext.bank_len bank2
     | Panic => False
     end) ∧
  (∃ builder values1 values2 c,
     TpmPolicyContext.visits values1 (TpmPolicyContextBuilder.pcrs builder) ∧
     TpmPolicyContext.visits values2 (TpmPolicyContextBuilder.pcrs builder) ∧
     TpmPolicyContextBuilder.build values1 builder = Ok c ∧
     TpmPolicyContextBuilder.build values2 builder = Err TpmPolicyError.PcrCountMismatch).
Proof.
  split.
  - intros values Hv Hne. pose proof (count_pcrs_nonempty values) as Hc.
    unfold TpmPolicyContextBuilder.build, TpmPolicyContext.new. cbn [TpmPolicyContextBuilder.pcrs].
    specialize (Hc ltac:(apply list.Forall_forall; intros b [alg Hb]%(visits_elem _ _ b Hv); by eapply Hne)).
    destruct (TpmPolicyContext.count_pcrs 0 values) as [n|e|]; cbn [result_bind]; [| |done].
    + destruct Hc as [Hall H0]. rewrite list.Forall_forall in Hall. split_and!; [done..| |].
      * intros alg bank Hb. apply Hall, (visits_elem _ _ _ Hv). by exists alg.
      * intros ->. apply H0. apply Permutation_nil_r. by rewrite Hv, map_to_list_empty.
    + destruct Hc as (-> & b1 & b2 & [alg1 H1]%(visits_elem _ _ _ Hv) & [alg2 H2]%(visits_elem _ _ _ Hv) & Hd).
      split; [done|]. by exists alg1, b1, alg2, b2.
  - set (full := {[ 0 := TpmBuffer.new 64 ]} : pcr_bank).
    exists (TpmPolicyContextBuilder.mk names (<[TpmAlgId.Sha1 := ∅]> {[ TpmAlgId.Sha256 := full ]})).
    exists [∅; full], [full; ∅], (TpmPolicyContext.mk names (<[TpmAlgId.Sha1 := ∅]> {[ TpmAlgId.Sha256 := full ]}) 1).
    assert (TpmPolicyContext.visits [∅; full] (<[TpmAlgId.Sha1 := ∅]> {[ TpmAlgId.Sha256 := full ]})) as Hv.
    { unfold TpmPolicyContext.visits. rewrite map_to_list_insert by done.
      by rewrite map_to_list_singleton. }
    split; [exact Hv|]. split; [|by split].
    unfold TpmPolicyContext.visits in *. etrans; [apply Permutation_swap | exact Hv].
Qed.

(** ** The text *)

(** C13.  Printing and parsing are inverse: an expression that satisfies
    [printable] (operands of [and] and [or] are at least two and do not start
    with the same connective, selections are non-empty and fit the context's
    banks, a reference is not empty, a handle has a known type) is read back
    from its text unchanged. *)
Theorem parse_printed `{TextLibOk} (context : TpmPolicyContext.t) (e : t) :
  printable context e = true → parse context (to_string e) = Ok e.
Proof.
  apply parse_reads.
Qed.

Lemma parse_printed_witness :
  let e := And [pcr_condition; Or [Secret owner None; Secret owner (Some (a_digest [x07]))]] in
  @parse _ sample_text sample_context (@to_string _ sample_text e) = Ok e.
Proof.
  apply (@parse_printed _ _ sample_text_ok sample_context). vm_compute. reflexivity.
Defined.

(** C12.  The parser is total and its results are well formed: on any text it
    does not panic (its fuel is enough, and every index it writes is in
    range), and an expression it returns is [printable], hence is the one its
    own text stands for, and has the invariant under which [compile] cannot
    panic. *)
Theorem parse_total `{TextLibOk} (context : TpmPolicyContext.t) (input : str) :
  match parse context input with
  | Ok e => printable context e = true ∧ well_formed e = true ∧ parse context (to_string e) = Ok e
  | Err _ => True
  | Panic => False
  end.
Proof.
  pose proof (parse_returns context input) as Hp. destruct (parse context input) as [e| |]; [|done..].
  simpl in Hp. split; [done|]. split; [by eapply printable_well_formed | by apply parse_reads].
Qed.

Lemma parse_total_witness :
  let input := lit "pcr(sha1:0,9) and (secret(40000001) or secret(40000001, copy_ref:07))" in
  is_ok (@parse _ sample_text sample_context input) = true ∧
  match @parse _ sample_text sample_context input with
  | Ok e =>
      printable sample_context e = true ∧ well_formed e = true ∧
      @parse _ sample_text sample_context (@to_string _ sample_text e) = Ok e
  | Err _ => True
  | Panic => False
  end.
Proof.
  split; [vm_compute; reflexivity|]. apply (@parse_total _ _ sample_text_ok).
Defined.
