(* ===== verification/DeviceProperties.v ===== *)
(** What the device layer promises: properties of the transports, of
    [TpmDevice], [TpmResponder] and [TpmPolicySession]. *)

From stdpp Require Import gmap sorting.
From S2P Require Import Prelude State Errors Writer Codec Integer Buffer Tpml Struct EnumMacro Enums Rc Attributes.
From S2P Require Import BasicTypes Schemes Structures Body FrameData Dispatch Envelope Command Response Marshal.
From S2P Require Import Crypto Hash Policy PolicySpec DataProperties FrameProperties CryptoProperties PolicyProperties.
From S2P Require Import Transport Device DeviceSession DeviceSpec SessionSpec.

(** ** Concrete environments for the witnesses *)

#[local] Instance sample_os : Os :=
  Build_Os ErrorKind id Z (λ e, e =? 4) (λ e, if e =? 4 then InterruptedKind else OtherKind).

(** A pipe: the bytes that are to come and those that were put out. *)
Record pipe := mk_pipe { pipe_in : list byte; pipe_out : list byte }.

#[local] Instance pipe_stream : ByteStream pipe := {
  read_exact := λ '(buf, s),
    if zlen (pipe_in s) <? zlen buf then (Err EofKind, (buf, mk_pipe [] (pipe_out s)))
    else (Ok tt, (take (length buf) (pipe_in s), mk_pipe (drop (length buf) (pipe_in s)) (pipe_out s)));
  write_all := λ bs s, (Ok tt, mk_pipe (pipe_in s) (pipe_out s ++ bs));
  Transport.flush := λ s, (Ok tt, s)
}.

#[local] Instance pipe_stream_ok : ByteStreamOk pipe.
Proof.
  refine {| incoming := pipe_in; outgoing := pipe_out; healthy := λ _, True |}.
  - intros buf [i o]. simpl. destruct (Z.ltb_spec (zlen i) (zlen buf)) as [Hl|Hl]; simpl; [done|].
    unfold zlen in *. rewrite take_drop, length_take. split_and!; [done | lia | done].
  - by intros bs [i o].
  - by intros [i o].
  - intros buf [i o] _. simpl. by destruct (_ <? _).
  - intros bs [i o] _. by eexists.
  - intros s _. by eexists.
Defined.

(** A TPM that executes the policy commands of one session, and starts it: the
    session's digest, when it is open, and the response that is to be fetched. *)
Definition toy_handle : TpmInt.t := TpmInt.new 4 0x03000000.
Record toy := mk_toy { toy_digest : option (list byte); toy_reply : list byte }.

(** The command of a frame. *)
Definition decode (f : list byte) : option TpmCommandValue :=
  match TpmCommand.cc (mk_slice 0 f) with
  | Ok cc =>
      match TpmCommand.unmarshal (command cc) (mk_slice 0 f) with
      | Ok v => Some (command_value cc v)
      | _ => None
      end
  | _ => None
  end.

(** The sessions of a frame. *)
Fixpoint read_auths (n : nat) (s : slice) : list (ty TpmsAuthCommand) :=
  match n with
  | O => []
  | S n => match unmarshal TpmsAuthCommand s with Ok (a, s) => a :: read_auths n s | _ => [] end
  end.
Definition auths_of (f : list byte) : list (ty TpmsAuthCommand) :=
  match TpmCommand.auth_area (mk_slice 0 f) with Ok s => read_auths 8 s | _ => [] end.

(** The parameters of its responses: an empty timeout and a null ticket. *)
Definition toy_params (cc : TpmCc.t) : list byte :=
  match cc with
  | TpmCc.PolicySecret => be_encode 2 0 ++ be_encode 2 0x8023 ++ be_encode 4 0x40000007 ++ be_encode 2 0
  | TpmCc.StartAuthSession => be_encode 2 0
  | _ => []
  end.
Definition toy_handles (cc : TpmCc.t) : list byte :=
  match cc with TpmCc.StartAuthSession => be_encode 4 0x03000000 | _ => [] end.
Definition toy_success (cc : TpmCc.t) : list byte := reply [] (toy_handles cc) (toy_params cc) [].

Definition toy_execute `{LibcryptoOk} (h : TpmHash.t) (context : TpmPolicyContext.t) (f : list byte) (t : toy) : toy :=
  let refused := mk_toy (toy_digest t) (failure (TpmRc.Warn TpmRcBase.Retry)) in
  match decode f with
  | Some c =>
      if bool_decide (cv_variant c = TpmCc.StartAuthSession)
      then mk_toy (Some (zero_digest h)) (toy_success TpmCc.StartAuthSession)
      else
        match (d ← toy_digest t; tpm_step h context false sample_authorises d c (auths_of f)) with
        | Some d => mk_toy (Some d) (toy_success (cv_variant c))
        | None => refused
        end
  | None => refused
  end.
Definition toy_transport `{LibcryptoOk} (h : TpmHash.t) (context : TpmPolicyContext.t) : TpmTransport toy := {|
  send := λ f t, (Ok tt, toy_execute h context f t);
  recv := λ '(_, t), (Ok tt, (toy_reply t, t))
|}.

Lemma toy_replies cc :
  cc ∈ [TpmCc.PolicyRestart; TpmCc.PolicyPcr; TpmCc.PolicyOr; TpmCc.PolicySecret] →
  ∃ w : body (response cc), TpmBody.wire (response cc) w = Some (toy_handles cc, toy_params cc).
Proof.
  rewrite !elem_of_cons. intros [->|[->|[->|[->|[]%elem_of_nil]]]].
  - by exists (Body.mk (B:=response TpmCc.PolicyRestart) [] tt).
  - by exists (Body.mk (B:=response TpmCc.PolicyPcr) [] tt).
  - by exists (Body.mk (B:=response TpmCc.PolicyOr) [] tt).
  - eexists (Body.mk (B:=response TpmCc.PolicySecret) []
      (TpmBuffer.new 8, ((TpmSt.AuthSecret, (TpmRh.Null, (TpmBuffer.new MAX_DIGEST_SIZE, tt))), tt))).
    vm_compute. reflexivity.
Qed.

(** The toy reads back the commands it is sent, and their sessions. *)
Lemma request_read c auths hs ps ab :
  TpmBody.wire (command (cv_variant c)) (cv_body c) = Some (hs, ps) →
  seq_wire TpmsAuthCommand auths = Some ab → zlen auths ≤ MAX_SESSIONS →
  let f := request (cv_variant c) auths hs ab ps in
  decode f = Some c ∧ ∃ s, TpmCommand.auth_area (mk_slice 0 f) = Ok s ∧ sl_data s = ab ∧ slice_ok s.
Proof.
  destruct c as [cc v]. cbn [cv_variant cv_body]. intros Hw Hab Hn. set (f := request _ _ _ _ _). set (s := mk_slice 0 f).
  pose proof (request_size cc v hs ps auths ab Hw Hab Hn) as Hsize.
  assert (slice_ok s) as Hok.
  { unfold slice_ok, sl_len, s; cbn [sl_addr sl_data]. unfold u32_max, usize_max, isize_max in *. unfold f. lia. }
  assert (HANDLES (command cc) = HANDLES (command (CC (command cc)))) as HR by by rewrite command_CC.
  pose proof (roundtrip_parts_ok (command cc) HR v hs ps Hw (tag_of auths) auths ab Hab Hn (request_tag auths)) as Hp.
  pose proof (command_frame_reads (command cc) HR v hs ps Hw (tag_of auths) auths ab Hab Hn (request_tag auths)) as Hr.
  rewrite command_CC in Hp, Hr. unfold request in Hsize. rewrite zlen_command_format in Hsize. specialize (Hp Hsize).
  destruct (Hr Hsize s Hok eq_refl) as (_ & _ & Hu & _ & _ & Hauth). split.
  - unfold decode. fold s. rewrite (cc_format s _ Hp eq_refl). cbn [cp_cc]. by rewrite Hu.
  - eexists. split; [exact Hauth|]. split; [done|]. exact (proj1 (proj2 (parts_slice_ok s _ Hp eq_refl Hok))).
Qed.

Lemma decode_request c auths hs ps ab :
  TpmBody.wire (command (cv_variant c)) (cv_body c) = Some (hs, ps) →
  seq_wire TpmsAuthCommand auths = Some ab → zlen auths ≤ MAX_SESSIONS →
  decode (request (cv_variant c) auths hs ab ps) = Some c.
Proof. intros Hw Hab Hn. by apply (request_read c auths hs ps ab). Qed.

Lemma read_auths_wire n auths ab s :
  seq_wire TpmsAuthCommand auths = Some ab → slice_ok s → sl_data s = ab → (length auths ≤ n)%nat →
  read_auths n s = auths.
Proof.
  revert auths ab s. induction n as [|n IH]; intros [|a auths] ab s; cbn [length read_auths]; try lia; try done.
  - intros [= <-] Hok Hd _. destruct (unmarshal TpmsAuthCommand s) as [[a r]|e|] eqn:Hu; [|done..].
    apply (unmarshal_sound (c:=TpmsAuthCommand)) in Hu as (bs & Hw & Hc & _); [|done].
    rewrite Hd in Hc. symmetry in Hc. apply app_nil in Hc as [-> _]. exfalso.
    destruct (auth_command_bytes a [] Hw) as (b & (Hf & _) & E). symmetry in E. unfold session_format in E.
    apply app_nil in E as [E _]. by rewrite E in Hf.
  - intros (b1 & b2 & Hw & Hws & ->)%seq_wire_cons Hok Hd Hn.
    assert (consumes b1 s (mk_slice (sl_addr s + zlen b1) b2)) as Hc by by split.
    rewrite (unmarshal_wire (c:=TpmsAuthCommand) a b1 s _ Hok Hw Hc). f_equal.
    eapply IH; [exact Hws | by eapply consumes_slice_ok | done | lia].
Qed.

Lemma auths_request c auths hs ps ab :
  TpmBody.wire (command (cv_variant c)) (cv_body c) = Some (hs, ps) →
  seq_wire TpmsAuthCommand auths = Some ab → zlen auths ≤ MAX_SESSIONS →
  auths_of (request (cv_variant c) auths hs ab ps) = auths.
Proof.
  intros Hw Hab Hn. destruct (request_read c auths hs ps ab Hw Hab Hn) as (_ & s & Hs & Hd & Hok).
  unfold auths_of. rewrite Hs. eapply read_auths_wire; [exact Hab|done|done|].
  unfold zlen, MAX_SESSIONS in Hn. lia.
Qed.

Section toy.
Context `{LibcryptoOk}.
Variables (h : TpmHash.t) (context : TpmPolicyContext.t).
#[local] Instance toy_tpm_transport : TpmTransport toy := toy_transport h context.

Lemma toy_answers (t : toy) f : answers t f (toy_reply (toy_execute h context f t)) (toy_execute h context f t).
Proof using Type. by exists (toy_execute h context f t). Qed.

Lemma toy_replies_small cc : zlen (toy_success cc) ≤ TPM_MAX_COMMAND_SIZE.
Proof using Type. apply Z.leb_le. by destruct cc. Qed.

#[local] Instance toy_policy_tpm : PolicyTpm toy h context toy_handle.
Proof using All.
  refine {| session_digest := toy_digest; trial_session := false; tpm_authorises := sample_authorises |}.
  intros t c i auths hs ps ab d d' Hi Hh Hw Hab Hn Hd Hstep.
  assert (cv_variant c ∈ [TpmCc.PolicyRestart; TpmCc.PolicyPcr; TpmCc.PolicyOr; TpmCc.PolicySecret]) as Hin.
  { apply tpm_step_effect in Hstep. clear -Hstep. rewrite !elem_of_cons. destruct c as [cc v]. destruct cc; try done; auto. }
  destruct (toy_replies _ Hin) as [w Hw'].
  exists w, (toy_handles (cv_variant c)), (toy_params (cv_variant c)), [], [].
  pose proof (toy_answers t (request (cv_variant c) auths hs ab ps)) as Ha. revert Ha.
  unfold toy_execute. cbv zeta. rewrite (decode_request c), (auths_request c) by done.
  rewrite bool_decide_false by (clear -Hin; intros E; rewrite E in Hin; by repeat (apply elem_of_cons in Hin as [?|Hin]; [done|]); apply elem_of_nil in Hin).
  rewrite Hd. cbn [mbind option_bind]. rewrite Hstep. intros Ha.
  eexists. split_and!; [done | done | done | apply toy_replies_small | exact Ha | done].
Defined.
End toy.

(** ** Policy sessions *)

(** C7.  A policy session ends with the policy's digest: the builder's session
    is opened on a TPM, and [run] is given the commands [compile] emitted, with
    for each [PolicySecret] a session that authorises its entity on that TPM;
    the disjunctions have at least two branches, the PCR selections can be
    encoded, and PCR digests that the expression gives are those of the TPM's
    PCRs, unless the session is a trial session; the commands and sessions can
    be encoded.  Then every command is accepted and the digest of the TPM's
    session is the one [compile] returned.  The TPM is any that replies to
    [TPM2_StartAuthSession] with a fresh session of the builder's type and
    executes the policy commands on it under the conditions of the TPM
    specification, with the PCR values and names of the context. *)
Theorem policy_session_digest `{PolicyTpm T h context handle} (fill_bytes : list byte → list byte)
    (b : TpmPolicySessionBuilder.t) (e : TpmPolicyExpression.t) (p : TpmCompiledPolicy)
    (cmds : list (TpmCommandValue * TpmList.t (ty TpmsAuthCommand)))
    (nonce nonce_tpm : ty Tpm2bNonce) (d : TpmDevice.t T) :
  let alg := TpmPolicySessionBuilder.auth_hash b in
  TpmHash.try_from alg = Ok h →
  every node_ok e = true → every or_plural e = true → every (pcr_holds h context trial_session) e = true →
  TpmPolicyExpression.compile context e alg = Ok p →
  cmds.*1 = (commands p).*1 → all_authorised tpm_authorises cmds →
  Forall (λ c, encodable c.1 ∧ auths_ok c.2) cmds → is_Some (wire TpmHandle handle) →
  device_ok d → TpmPolicySessionBuilder.the_nonce fill_bytes b = Ok nonce →
  starts_session (h:=h) (context:=context) (handle:=handle) b (TpmDevice.transport d) nonce nonce_tpm →
  ∃ session d',
    (let* s := TpmPolicySessionBuilder.open fill_bytes b in
     let* _ := run s cmds in st_ret s) d = (Ok session, d') ∧
    TpmPolicySession.handle session = handle ∧
    session_digest (TpmDevice.transport d') = Some (TpmBuffer.deref (digest p)).
Proof.
  intros alg Hh Hw Ho Hp Hc Hcmds Hau Hok Hb Hd Hn Hs.
  destruct (open_starts fill_bytes b d nonce nonce_tpm Hd Hn Hs) as (d1 & Hopen & Hd1 & Hz).
  pose proof (compile_executes h context trial_session tpm_authorises e alg p cmds Hh Hw Ho Hp Hc Hcmds Hau) as Hr.
  destruct (run_replays Hb (TpmPolicySession.mk handle TpmaSession.CONTINUE_SESSION alg nonce_tpm) cmds d1 _ _
    eq_refl Hd1 Hok Hz Hr) as (d2 & Hrun & _ & Hdig).
  exists (TpmPolicySession.mk handle TpmaSession.CONTINUE_SESSION alg nonce_tpm), d2.
  split; [|by split]. unfold st_bind. rewrite Hopen. fold alg. by rewrite Hrun.
Qed.

(** The sample policy on the toy, the session bound to nothing. *)
Definition sample_builder : TpmPolicySessionBuilder.t :=
  TpmPolicySessionBuilder.with_auth_hash TpmAlgId.Sha1 TpmPolicySessionBuilder.new.
Definition sample_nonce : ty Tpm2bNonce := a_digest (replicate 20 x00).
#[local] Instance sample_toy : TpmTransport toy := toy_transport TpmHash.Sha1 sample_context.
#[local] Instance sample_policy_tpm : PolicyTpm toy TpmHash.Sha1 sample_context toy_handle :=
  toy_policy_tpm TpmHash.Sha1 sample_context.
Definition sample_device : TpmDevice.t toy := TpmDevice.new 0 (mk_toy None []).

(** Deciding that commands and their sessions can be encoded. *)
Definition commands_ok (cmds : list (TpmCommandValue * TpmList.t (ty TpmsAuthCommand))) : bool :=
  forallb (λ c,
    match TpmBody.wire _ (cv_body c.1), seq_wire TpmsAuthCommand (TpmList.deref c.2) with
    | Some _, Some _ => zlen (TpmList.deref c.2) <=? MAX_SESSIONS
    | _, _ => false
    end) cmds.
Lemma commands_ok_spec cmds : commands_ok cmds = true → Forall (λ c, encodable c.1 ∧ auths_ok c.2) cmds.
Proof.
  unfold commands_ok. rewrite forallb_forall. intros H. apply list.Forall_forall.
  intros c Hc%list_elem_of_In%H. unfold encodable, auths_ok.
  destruct (TpmBody.wire _ (cv_body c.1)); [|done]. destruct (seq_wire _ _); [|done]. split_and!; [done..|lia].
Qed.

Lemma policy_session_digest_witness :
  ∃ session d',
    (let* s := TpmPolicySessionBuilder.open id sample_builder in
     let* _ := run s (with_password (commands sample_compiled)) in st_ret s) sample_device = (Ok session, d') ∧
    TpmPolicySession.handle session = toy_handle ∧
    session_digest (TpmDevice.transport d') = Some (TpmBuffer.deref (digest sample_compiled)).
Proof.
  apply (policy_session_digest (h:=TpmHash.Sha1) (context:=sample_context) (handle:=toy_handle) id sample_builder
    sample_expression sample_compiled (with_password (commands sample_compiled)) sample_nonce (TpmBuffer.new MAX_DIGEST_SIZE)).
  - vm_compute. reflexivity.
  - vm_compute. reflexivity.
  - vm_compute. reflexivity.
  - vm_compute. reflexivity.
  - vm_compute. reflexivity.
  - vm_compute. reflexivity.
  - apply authorised_checked. vm_compute. reflexivity.
  - apply commands_ok_spec. vm_compute. reflexivity.
  - eexists. vm_compute. reflexivity.
  - split; by apply Z.leb_le.
  - vm_compute. reflexivity.
  - eexists _, _, (be_encode 4 0x03000000), (be_encode 2 0), _. split; [vm_compute; reflexivity|].
    split; [vm_compute; reflexivity|]. split; [by apply Z.leb_le|]. split; [reflexivity|].
    split; [eexists; split; [reflexivity|] | ]; vm_compute; reflexivity.
Defined.

(** The commands [run] accepts: it puts the session's handle into the
    last handle of the command, for every policy command of the table it
    knows; any other command ends the call with [InvalidCc], after the
    commands before it were sent and without sending it or those behind it. *)
Theorem policy_run_handles `{Os} {T : Type} `{!TpmTransport T} (self : TpmPolicySession.t)
    (cmds rest : list (TpmCommandValue * TpmList.t (ty TpmsAuthCommand)))
    (c : TpmCommandValue) (auths : TpmList.t (ty TpmsAuthCommand)) (d d' : TpmDevice.t T) :
  (∀ i, session_handle_index (cv_variant c) = Some i →
     HANDLES (command (cv_variant c)) = S i ∧
     session_command (TpmPolicySession.handle self) c = Ok (set_handle i (TpmPolicySession.handle self) c)) ∧
  (session_handle_index (cv_variant c) = None → run self cmds d = (Ok tt, d') →
   run self (cmds ++ (c, auths) :: rest) d = (Err (TpmDeviceError.InvalidCc (TpmCommandValue.cc c)), d')).
Proof.
  split.
  - intros i Hi. split; [by apply session_handle_last|]. unfold session_command. by rewrite Hi.
  - intros Hn Hr. by apply run_refuses.
Qed.

Lemma policy_run_handles_witness :
  run (TpmPolicySession.mk toy_handle TpmaSession.CONTINUE_SESSION TpmAlgId.Sha1 sample_nonce)
    ([] ++ [(command_value TpmCc.Unseal unseal_body, TpmList.new MAX_SESSIONS)]) sample_device =
  (Err (TpmDeviceError.InvalidCc TpmCc.Unseal), sample_device).
Proof.
  apply (policy_run_handles (TpmPolicySession.mk toy_handle TpmaSession.CONTINUE_SESSION TpmAlgId.Sha1 sample_nonce)
    [] [] (command_value TpmCc.Unseal unseal_body)); reflexivity.
Defined.

(** ** Transmissions *)

(** C9.  Transmissions, for each of the 126 commands: a command that fits the
    buffer is sent as exactly its frame.  A peer that replies with a response
    of the command's type gets it through: [transmit] returns the received
    bytes and [unmarshal] reads the response's value from them.  A failed
    response code is the error [TpmRc] with that code. *)
Theorem transmit_roundtrip `{TpmTransport T} (cc : TpmCc.t) (v : body (command cc)) (hs ps : list byte)
    (sessions : list (ty TpmsAuthCommand)) (ab : list byte) (d : TpmDevice.t T) (r : list byte) (t' : T) :
  TpmBody.wire (command cc) v = Some (hs, ps) → seq_wire TpmsAuthCommand sessions = Some ab →
  zlen sessions ≤ MAX_SESSIONS → zlen (request cc sessions hs ab ps) ≤ TPM_MAX_COMMAND_SIZE → device_ok d →
  answers (TpmDevice.transport d) (request cc sessions hs ab ps) r t' → zlen r ≤ TPM_MAX_COMMAND_SIZE →
  let s := mk_slice (TpmDevice.response_addr d) r in
  let d' := TpmDevice.mk t' (request cc sessions hs ab ps) r (TpmDevice.response_addr d) in
  (∀ (w : body (response cc)) hs' ps' rs ab',
     TpmBody.wire (response cc) w = Some (hs', ps') → seq_wire TpmsAuthResponse rs = Some ab' →
     zlen rs ≤ MAX_SESSIONS → r = reply rs hs' ps' ab' →
     TpmDevice.transmit (TpmBody.frame (command cc) v) sessions d = (Ok s, d') ∧
     TpmResponse.unmarshal (response cc) s = Ok w) ∧
  (∀ rc, TpmRc.well_formed rc = true → is_success rc = false → r = failure rc →
     TpmDevice.transmit (TpmBody.frame (command cc) v) sessions d = (Err (TpmDeviceError.TpmRc rc), d')).
Proof.
  intros Hv Hse Hc Hl Hok Ha Hr s d'. split.
  - intros w hs' ps' rs ab' Hw Hrs Hn ->.
    by apply (transmit_reply cc v hs ps sessions ab w hs' ps' rs ab' d t').
  - intros rc Hw Hf ->. rewrite (transmit_answers cc v hs ps sessions ab Hv Hse d _ t' Hc Hl Ha).
    by rewrite (failure_verdict cc rc).
Qed.

(** [TPM2_Unseal] over a pipe. *)
Definition unseal_request : list byte :=
  request TpmCc.Unseal [password_session] (be_encode 4 0x80000001) password_bytes [].
Definition unseal_reply : list byte := reply [] [] (be_encode 2 0) [].
Definition pipe_device (bs : list byte) : TpmDevice.t (TpmStreamTransport.t pipe) :=
  TpmDevice.new 0 (TpmStreamTransport.mk (mk_pipe bs [])).

Lemma transmit_roundtrip_witness :
  TpmDevice.transmit (TpmBody.frame (command TpmCc.Unseal) unseal_body) [password_session] (pipe_device unseal_reply) =
    (Ok (mk_slice 0 unseal_reply),
     TpmDevice.mk (TpmStreamTransport.mk (mk_pipe [] unseal_request)) unseal_request unseal_reply 0) ∧
  TpmResponse.unmarshal (response TpmCc.Unseal) (mk_slice 0 unseal_reply) = Ok unseal_response.
Proof.
  apply (transmit_roundtrip TpmCc.Unseal unseal_body (be_encode 4 0x80000001) [] [password_session] password_bytes
    (pipe_device unseal_reply) unseal_reply (TpmStreamTransport.mk (mk_pipe [] unseal_request)))
    with (hs' := []) (ps' := be_encode 2 0) (rs := []) (ab' := []); try by_compute.
  eexists. split; [reflexivity|]. intros buf. vm_compute. reflexivity.
Defined.

(** ** Streams *)

(** Frames on a byte stream: what is received is exactly the first
    frame of what is to come and nothing behind it is touched; what is sent
    is put out unchanged.  The end of the stream within a frame is
    [UnexpectedEof], a header with a size outside [10, 4096] is
    [InvalidResponse]; a healthy stream has no other errors. *)
Theorem stream_frames {S : Type} `{ByteStreamOk S} (s : S) (buf g : list byte) :
  (∀ f rest, healthy s → is_frame f = true → incoming s = f ++ rest →
     ∃ s', recv (buf, TpmStreamTransport.mk s) = (Ok tt, (f, TpmStreamTransport.mk s')) ∧
       incoming s' = rest ∧ outgoing s' = outgoing s ∧ healthy s') ∧
  (healthy s →
     ∃ s', send g (TpmStreamTransport.mk s) = (Ok tt, TpmStreamTransport.mk s') ∧
       outgoing s' = outgoing s ++ g ∧ incoming s' = incoming s ∧ healthy s') ∧
  match recv (buf, TpmStreamTransport.mk s) with
  | (Ok _, (f, t')) => is_frame f = true ∧ incoming s = f ++ incoming (TpmStreamTransport.stream t')
  | (Err e, _) =>
      e = TpmDeviceError.UnexpectedEof ∧ (∀ f rest, incoming s = f ++ rest → is_frame f = false) ∨
      e = TpmDeviceError.InvalidResponse ∧ TPM_HEADER_SIZE ≤ zlen (incoming s) ∧
        frame_size (take 10 (incoming s)) = Err e ∨
      ¬ healthy s
  | (Panic, _) => False
  end.
Proof.
  split_and!.
  - intros f rest Hh Hf Hin. destruct (read_frame_next buf s f rest Hh Hf Hin) as (s' & Hr & Hs).
    exists s'. by rewrite stream_recv, Hr.
  - intros Hh. destruct (write_frame_healthy g s Hh) as (s' & Hw & Hs). exists s'. by rewrite stream_send, Hw.
  - rewrite stream_recv. pose proof (read_frame_ok buf s) as Hr.
    destruct (read_frame (buf, s)) as [[[]|e|] [f s']]; [| |done].
    + by destruct Hr as (? & ? & _).
    + destruct Hr as [_ [?|[(-> & ? & ?)|(? & _ & ?)]]]; auto.
Qed.

Lemma stream_frames_witness :
  ∃ s', recv ([], TpmStreamTransport.mk (mk_pipe (unseal_reply ++ [x01]) [])) =
      (Ok tt, (unseal_reply, TpmStreamTransport.mk s')) ∧
    incoming s' = [x01] ∧ outgoing s' = [] ∧ healthy s'.
Proof.
  exact (proj1 (stream_frames (mk_pipe (unseal_reply ++ [x01]) []) [] []) unseal_reply [x01] I
    ltac:(by_compute) ltac:(by_compute)).
Defined.

(** ** The character device *)

(** C33.  However the device hands out a response, [TpmPosixDevice::recv] puts
    it together: over any sequence of rounds, with timeouts of [poll],
    interrupted calls and reads of any size, in which the bytes of one frame
    arrive, it returns exactly that frame with the round in which it is
    complete. *)
Theorem posix_reassembles `{Os} (timeout : Z) (used : list tick) (tk : tick) (rest : list tick)
    (chunks : list (list byte)) (bytes : list byte) :
  mapM (chunk timeout) used = Some chunks → chunk timeout tk = Some bytes → bytes ≠ [] →
  is_frame (concat chunks ++ bytes) = true →
  TpmPosixDevice.recv timeout (used ++ tk :: rest) = Some (Ok tt, concat chunks ++ bytes, rest).
Proof. intros Hm Hc Hne Hf. by apply (recv_loop_frame timeout used chunks tk bytes rest [] None). Qed.

(** A round in which [bytes] are read, and one in which nothing is ready. *)
Definition reads (bytes : list byte) : tick := mk_tick _ false 1 (inl 1) (Some POLLIN) (inl bytes).
Definition idle : tick := mk_tick _ false 1 (inl 0) None (inl []).
Definition stuck : tick := mk_tick _ false 1000 (inl 0) None (inl []).

Lemma posix_reassembles_witness :
  TpmPosixDevice.recv 120 ([reads (take 3 unseal_reply); idle; reads (drop 3 (take 11 unseal_reply))] ++
                           reads (drop 11 unseal_reply) :: [stuck]) =
    Some (Ok tt, concat [take 3 unseal_reply; []; drop 3 (take 11 unseal_reply)] ++ drop 11 unseal_reply, [stuck]).
Proof.
  apply (posix_reassembles 120 [reads (take 3 unseal_reply); idle; reads (drop 3 (take 11 unseal_reply))]
    (reads (drop 11 unseal_reply)) [stuck]); by_compute.
Defined.

(** C34.  [TpmPosixDevice::recv] ends: as soon as the timeout has passed, or
    the caller interrupts, it has returned, whatever else the environment
    does.  It returns [Ok] only with a whole frame, which consists of all the
    bytes read so far, and an error only for the reason its round has: the
    interruption, the timeout, a failure of [poll] or [read], or bytes that
    are not a frame. *)
Theorem posix_recv_ends `{Os} (timeout : Z) (ticks : list tick) :
  Exists (λ tk, tk_interrupted tk = true ∨ timeout < tk_elapsed tk) ticks →
  ∃ r buf rest, TpmPosixDevice.recv timeout ticks = Some (r, buf, rest) ∧
  ∃ used tk chunks, ticks = used ++ tk :: rest ∧ mapM (chunk timeout) used = Some chunks ∧
    match r with
    | Ok _ => ∃ bytes, chunk timeout tk = Some bytes ∧ buf = concat chunks ++ bytes ∧ is_frame buf = true
    | Err e => ends_with timeout tk (concat chunks) e
    | Panic => False
    end.
Proof.
  intros Hex. pose proof (recv_loop_ok timeout ticks [] None) as Hr. unfold TpmPosixDevice.recv.
  destruct (TpmPosixDevice.recv_loop timeout ticks [] None) as [[[[u|e|] buf] rest]|]; specialize (Hr ltac:(done)).
  - destruct Hr as (used & tk & chunks & bytes & -> & Hm & Hc & _ & Hb & Hf).
    exists (Ok u), buf, rest. split; [done|]. exists used, tk, chunks. split_and!; [done..|]. by exists bytes.
  - destruct Hr as (used & tk & chunks & -> & Hm & He). exists (Err e), buf, rest. split; [done|].
    by exists used, tk, chunks.
  - done.
  - exfalso. destruct Hr as [chunks Hm%mapM_Some]. apply list.Exists_exists in Hex as (tk & Htk & Hend).
    apply list_elem_of_lookup_1 in Htk as [i Hi]. destruct (Forall2_lookup_l _ _ _ _ _ Hm Hi) as (c & _ & Hc).
    unfold chunk in Hc. destruct Hend as [E|E]; [by rewrite E in Hc|].
    by rewrite (proj2 (Z.ltb_lt _ _) E), orb_true_r in Hc.
Qed.

Lemma posix_recv_ends_witness :
  ∃ r buf rest, TpmPosixDevice.recv 120 [reads (take 3 unseal_reply); stuck] = Some (r, buf, rest) ∧
  ∃ used tk chunks, [reads (take 3 unseal_reply); stuck] = used ++ tk :: rest ∧ mapM (chunk 120) used = Some chunks ∧
    match r with
    | Ok _ => ∃ bytes, chunk 120 tk = Some bytes ∧ buf = concat chunks ++ bytes ∧ is_frame buf = true
    | Err e => ends_with 120 tk (concat chunks) e
    | Panic => False
    end.
Proof.
  apply (posix_recv_ends 120 [reads (take 3 unseal_reply); stuck]). right. left. right. reflexivity.
Defined.

(** ** The responder *)

(** C35.  [TpmResponder::serve] over a healthy stream answers every command
    frame that arrives, in order, each with what the handler returns for it
    in the state the commands before it left, and returns [Ok] when the peer
    is gone.  That includes a peer that goes away in the middle of a frame:
    its partial command is dropped silently. *)
Theorem serve_answers_all {S X : Type} `{ByteStreamOk S} (handler : list byte → X → list byte * X)
    (frames : list (list byte)) (tail : list byte) (s : S) (x : X) :
  healthy s → Forall (λ f, is_frame f = true) frames → partial_frame tail →
  incoming s = concat frames ++ tail →
  ∃ self', TpmResponder.serve handler (Datatypes.S (length frames))
             (TpmResponder.new (TpmStreamTransport.mk s)) x = Some (Ok tt, self', (handle_all handler frames x).2) ∧
    outgoing (TpmStreamTransport.stream (TpmResponder.transport self')) =
      outgoing s ++ (handle_all handler frames x).1.
Proof. apply serve_frames. Qed.

(** A handler that counts. *)
Definition counting (f : list byte) (n : nat) : list byte * nat := ([byte.of_Z (Z.of_nat n)], S n).

Lemma serve_answers_all_witness :
  ∃ self', TpmResponder.serve counting 3
      (TpmResponder.new (TpmStreamTransport.mk (mk_pipe ((unseal_request ++ unseal_request ++ []) ++ take 12 unseal_request) []))) 0%nat =
      Some (Ok tt, self', 2%nat) ∧
    pipe_out (TpmStreamTransport.stream (TpmResponder.transport self')) = [] ++ [x00; x01].
Proof.
  refine (serve_answers_all counting [unseal_request; unseal_request] (take 12 unseal_request)
    (mk_pipe ((unseal_request ++ unseal_request ++ []) ++ take 12 unseal_request) []) 0%nat _ _ _ _).
  - exact I.
  - repeat constructor.
  - exists unseal_request, (drop 12 unseal_request). split; [by_compute|]. split; [by_compute | discriminate].
  - reflexivity.
Defined.

(** ** Operations of the device *)

(** C10.  No operation of [TpmDevice] panics or hangs, whatever the peer sends:
    over any transport that keeps its contract each one returns, and leaves
    the device usable.  In particular the capability queries end even when
    the TPM claims there is always more. *)
Theorem device_any_peer `{TransportOk T} (handle : TpmInt.t) (context : ty TpmsContext)
    (class : TpmHt.t) (property : TpmPt.t) (name : ty Tpm2bName) :
  is_Some (wire TpmHandle handle) → is_Some (wire TpmsContext context) →
  let total {A} (m : State (TpmDevice.t T) E A) :=
    ∀ d, device_ok d → (m d).1 ≠ Panic ∧ device_ok (m d).2 in
  total TpmDevice.fetch_algorithm_properties ∧ total (TpmDevice.fetch_handles class) ∧
  total TpmDevice.fetch_ecc_curves ∧ total TpmDevice.fetch_pcr_bank_list ∧
  total (TpmDevice.fetch_tpm_property property) ∧ total (TpmDevice.read_public handle) ∧
  total (TpmDevice.find_persistent name) ∧ total (TpmDevice.save_context handle) ∧
  total (TpmDevice.load_context context) ∧ total (TpmDevice.flush_context handle) ∧
  total (TpmDevice.flush_session context).
Proof.
  intros Hh Hc total.
  assert (∀ A P (m : State (TpmDevice.t T) E A), returns_safely P m → total A m) as Htotal.
  { intros A P m Hm d Hd. specialize (Hm d Hd). destruct (m d) as [[a|e|] d']; cbn in *; [by destruct Hm | done..]. }
  split_and!; eapply Htotal.
  - apply fetch_algorithm_properties_safely.
  - apply fetch_handles_safely.
  - apply fetch_ecc_curves_safely.
  - apply fetch_pcr_bank_list_safely.
  - apply fetch_tpm_property_safely.
  - by apply read_public_safely.
  - apply find_persistent_safely.
  - by apply save_context_safely.
  - by apply load_context_safely.
  - by apply flush_context_safely.
  - by apply flush_session_safely.
Qed.

Definition sample_saved : ty TpmsContext :=
  (TpmInt.new 8 1, (TpmInt.new 4 0x03000000, (TpmRh.Owner, (TpmBuffer.new TPM_MAX_COMMAND_SIZE, tt)))).

Lemma device_any_peer_witness :
  (TpmDevice.flush_session sample_saved (pipe_device unseal_reply)).1 ≠ Panic ∧
  device_ok (TpmDevice.flush_session sample_saved (pipe_device unseal_reply)).2.
Proof.
  apply (device_any_peer (T:=TpmStreamTransport.t pipe) (TpmInt.new 4 0x80000001) sample_saved TpmHt.Transient
    TpmPt.Manufacturer (TpmBuffer.new 66)).
  - eexists. vm_compute. reflexivity.
  - eexists. vm_compute. reflexivity.
  - split; by apply Z.leb_le.
Defined.

(** ** Queries *)

(** A TPM with three persistent objects, served two at a time, the second of
    which is gone when it is read. *)
Definition key : TpmInt.t → Z := TpmInt.value 4 false.
Definition listed : list TpmInt.t := map (TpmInt.new 4) [0x81000001; 0x81000002; 0x81000005].
Definition listed_name : ty Tpm2bName := get (TpmBuffer.try_from (MAX_DIGEST_SIZE + 2) [x00; x0b; x01]) (TpmBuffer.new 66).
Definition name_of (h : TpmInt.t) : option (ty Tpm2bName) :=
  if bool_decide (key h = 0x81000002) then None
  else if bool_decide (key h = 0x81000005) then Some listed_name else Some (TpmBuffer.new (MAX_DIGEST_SIZE + 2)).
Definition handle_page (xs : list TpmInt.t) : TpmsCapabilityData.t :=
  TpmsCapabilityData.mk TpmCap.Handles
    (TpmuCapabilities.Handles (get (TpmList.try_extend_from_slice 128 xs (TpmList.new 128)) (TpmList.new 128))).
Definition reply_with (cc : TpmCc.t) (w : body (response cc)) : list byte :=
  match TpmBody.wire (response cc) w with Some (hs, ps) => reply [] hs ps [] | None => [] end.
Definition gone : TpmRc.t := get (TpmRc.try_from 0x18B) (TpmRc.Warn TpmRcBase.Retry).
Definition read_reply (h : TpmInt.t) : list byte :=
  match name_of h with
  | Some name =>
      reply_with TpmCc.ReadPublic (Body.mk (B:=TpmReadPublicResponse) []
        (Tpm2bStruct.mk sample_public, (name, (name, tt))))
  | None => failure gone
  end.
Definition listing_execute (c : TpmCommandValue) : list byte :=
  match c with
  | command_value v b =>
      match v return body (command v) → list byte with
      | TpmCc.GetCapability => λ b : body TpmGetCapabilityCommand,
          let rest := from key (TpmInt.value 4 false (params b).2.1) listed in
          reply_with TpmCc.GetCapability (page_response (bool_decide (2 < length rest)%nat) (handle_page (take 2 rest)))
      | TpmCc.ReadPublic => λ b : body TpmReadPublicCommand,
          match Body.handles b with h :: _ => read_reply h | [] => failure gone end
      | _ => λ _, failure gone
      end b
  end.
#[local] Instance listing_transport : TpmTransport (list byte) := {|
  send := λ f _, (Ok tt, match decode f with Some c => listing_execute c | None => failure gone end);
  recv := λ '(_, r), (Ok tt, (r, r))
|}.
Definition listing_device : TpmDevice.t (list byte) := TpmDevice.new 0 [].

Lemma listing_answers (t : list byte) c hs ps :
  TpmBody.wire (command (cv_variant c)) (cv_body c) = Some (hs, ps) →
  answers t (request (cv_variant c) [] hs [] ps) (listing_execute c) (listing_execute c).
Proof.
  intros Hw. eexists. split; [|by intros].
  cbn [send listing_transport]. rewrite (decode_request c [] hs ps []) by done. reflexivity.
Qed.

(** What is left of the listing. *)
Lemma listed_from p : ∃ n, from key p listed = drop n listed.
Proof.
  change listed with [TpmInt.new 4 0x81000001; TpmInt.new 4 0x81000002; TpmInt.new 4 0x81000005].
  unfold from. rewrite !filter_cons.
  change (key (TpmInt.new 4 0x81000001)) with 0x81000001.
  change (key (TpmInt.new 4 0x81000002)) with 0x81000002.
  change (key (TpmInt.new 4 0x81000005)) with 0x81000005.
  repeat case_decide; try lia; [by exists 0%nat | by exists 1%nat | by exists 2%nat | by exists 3%nat].
Qed.

Lemma reply_with_wire cc w hs ps :
  TpmBody.wire (response cc) w = Some (hs, ps) → reply_with cc w = reply [] hs ps [].
Proof. unfold reply_with. by intros ->. Qed.

(** Its pages can be sent and read. *)
Lemma handle_page_ok n :
  let rest := drop n listed in
  ∃ ps', extract_handles (TpmsCapabilityData.data (handle_page (take 2 rest))) = Ok (take 2 rest) ∧
    TpmBody.wire (response TpmCc.GetCapability)
      (page_response (bool_decide (2 < length rest)%nat) (handle_page (take 2 rest))) = Some ([], ps') ∧
    zlen (reply [] [] ps' []) ≤ TPM_MAX_COMMAND_SIZE.
Proof.
  intros rest. subst rest.
  destruct n as [|[|[|n]]]; [| | |rewrite drop_ge by (unfold listed; simpl; lia)];
    (eexists; split; [vm_compute; reflexivity|]; split; [vm_compute; reflexivity|]; by apply Z.leb_le; vm_compute).
Qed.

Lemma lists_listed : lists_handles listed (λ _, True).
Proof.
  split_and!.
  - unfold ascending. repeat constructor; by apply Z.ltb_lt.
  - repeat constructor; by apply Z.leb_le.
  - intros t p _ Hp rest.
    pose proof (listing_answers t (command_value TpmCc.GetCapability
      (page_command TpmCap.Handles p TpmDevice.CAPABILITY_PAGE_SIZE)) [] _
      ltac:(by apply page_wire)) as Ha.
    cbn [cv_variant listing_execute params page_command snd fst] in Ha.
    rewrite value_new in Ha by (lia || by apply in_range_u32).
    destruct (listed_from p) as [n Hn]. change (from key p listed) with rest in Hn, Ha.
    destruct (handle_page_ok n) as (ps' & Hx & Hw & Hl). cbv zeta in Ha. rewrite <-Hn in Hx, Hw.
    rewrite (reply_with_wire _ _ _ _ Hw) in Ha.
    exists 2%nat, (handle_page (take 2 rest)), ps', (reply [] [] ps' []). split; [lia|]. by split_and!.
Qed.

(** [fetch_handles] is complete: from a TPM that lists its handles in
    pages of any size, as long as each has at least one handle, it collects
    exactly the handles of the class, in order. *)
Theorem fetch_handles_lists `{TpmTransport T} (all : list TpmInt.t) (Inv : T → Prop) (class : TpmHt.t)
    (d : TpmDevice.t T) :
  lists_handles all Inv → listing_state Inv d →
  ∃ d', TpmDevice.fetch_handles class d =
          (Ok (filter (λ h, Z.shiftr (TpmInt.value 4 false h) 24 = value class) all), d') ∧
        listing_state Inv d'.
Proof.
  intros Hl Hd. destruct (fetch_handles_complete all Inv class d Hl Hd) as (d' & Hd' & Hf). by exists d'.
Qed.

Lemma fetch_handles_lists_witness :
  ∃ d', TpmDevice.fetch_handles TpmHt.Persistent listing_device =
          (Ok (filter (λ h, Z.shiftr (TpmInt.value 4 false h) 24 = value TpmHt.Persistent) listed), d') ∧
        listing_state (λ _, True) d'.
Proof.
  apply (fetch_handles_lists listed (λ _, True)); [apply lists_listed|].
  split; [split; by apply Z.leb_le | exact I].
Defined.

(** [find_persistent] returns the first persistent handle whose object
    has the wanted name, and [None] when there is none; handles whose object
    disappeared between the listing and the read are skipped. *)
Theorem find_persistent_by_name `{TpmTransport T} (all : list TpmInt.t) (Inv : T → Prop)
    (name_of : TpmInt.t → option (ty Tpm2bName)) (target : ty Tpm2bName) (d : TpmDevice.t T) :
  let persistent := filter (λ h, Z.shiftr (TpmInt.value 4 false h) 24 = value TpmHt.Persistent) all in
  lists_handles all Inv → Forall (reads_public Inv name_of) persistent → listing_state Inv d →
  ∃ d', TpmDevice.find_persistent target d =
    (Ok (list.head (filter (λ h, TpmBuffer.deref <$> name_of h = Some (TpmBuffer.deref target)) persistent)), d').
Proof.
  intros persistent Hl Hr Hd.
  destruct (find_persistent_spec Inv name_of target all d Hl Hr Hd) as (d' & _ & Hf). exists d'.
  rewrite Hf. do 3 f_equal. fold (of_class all TpmHt.Persistent). apply list_filter_iff. intros h. unfold named.
  destruct (name_of h) as [name|]; cbn; [|done]. rewrite Is_true_true, bool_decide_eq_true. split; congruence.
Qed.

Lemma listed_reads h : h ∈ listed → reads_public (λ _, True) name_of h.
Proof.
  intros Hh t _.
  assert (∃ b, wire TpmHandle h = Some b) as [b Hb].
  { unfold listed in Hh. apply list_elem_of_fmap in Hh as (z & -> & _). eexists. apply int_wire_new. }
  assert (seq_wire TpmHandle [h] = Some b) as Hs.
  { apply (seq_wire_cons TpmHandle). exists b, []. split_and!; [done..|by rewrite app_nil_r]. }
  pose proof (listing_answers t (command_value TpmCc.ReadPublic (Body.mk (B:=TpmReadPublicCommand) [h] tt)) b []
    ltac:(apply (body_wire_Some (command TpmCc.ReadPublic)); by split_and!)) as Ha.
  cbn [cv_variant listing_execute Body.handles] in Ha. unfold read_reply in Ha.
  exists b, (read_reply h), (read_reply h). split; [done|]. split; [exact Ha|]. split; [done|].
  unfold read_reply. destruct (name_of h) as [name|] eqn:Hn.
  - assert (name = listed_name ∨ name = TpmBuffer.new (MAX_DIGEST_SIZE + 2)) as Hname.
    { unfold name_of in Hn. repeat case_bool_decide; naive_solver. }
    exists (Tpm2bStruct.mk sample_public), name.
    destruct Hname as [-> | ->];
      (eexists; split; [vm_compute; reflexivity|]; split; [by apply reply_with_wire; vm_compute|]; by apply Z.leb_le; vm_compute).
  - exists gone. split; [by vm_compute|]. split; [by vm_compute|]. split; [by vm_compute|done].
Qed.

Lemma find_persistent_by_name_witness :
  ∃ d', TpmDevice.find_persistent listed_name listing_device = (Ok (Some (TpmInt.new 4 0x81000005)), d').
Proof.
  change (Some (TpmInt.new 4 0x81000005)) with
    (list.head (filter (λ h, TpmBuffer.deref <$> name_of h = Some (TpmBuffer.deref listed_name))
      (filter (λ h, Z.shiftr (TpmInt.value 4 false h) 24 = value TpmHt.Persistent) listed))).
  apply (find_persistent_by_name listed (λ _, True)).
  - apply lists_listed.
  - apply list.Forall_forall. intros h [_ Hh]%list_elem_of_filter. by apply listed_reads.
  - split; [split; by apply Z.leb_le | exact I].
Defined.

(** [fetch_pcr_bank_list], on the banks the TPM reports: the banks
    without a PCR are left out; the others must share one selection, which is
    returned with their algorithms in ascending order.  Different selections
    are [PcrBankSelectionMismatch], and no bank in use is
    [PcrBanksNotAvailable]. *)
Theorem pcr_banks_agree `{Os} {T : Type} `{!TpmTransport T} (pcrs : list (ty TpmsPcrSelection))
    (d d' : TpmDevice.t T) :
  Forall readable pcrs →
  TpmDevice.get_capability TpmCap.Pcrs TpmDevice.CAPABILITY_PAGE_SIZE
    (λ caps, match caps with
             | TpmuCapabilities.Pcrs pcrs => Ok (TpmList.deref pcrs)
             | _ => TpmDevice.missing TpmCap.Pcrs end)
    (λ last, value (TpmsPcrSelection.hash last) + 1) 0 d = (Ok pcrs, d') →
  let in_use := filter allocated pcrs in
  let fetched := TpmDevice.fetch_pcr_bank_list d in
  (in_use = [] → fetched = (Err TpmDeviceError.PcrBanksNotAvailable, d')) ∧
  (∀ select, in_use ≠ [] → Forall (λ b, TpmsPcrSelection.pcr_select b = select) in_use →
     ∃ algs, fetched = (Ok (algs, select), d') ∧ Sorted TpmDevice.alg_le algs ∧
             algs ≡ₚ map TpmsPcrSelection.hash in_use) ∧
  (∀ b1 b2, b1 ∈ in_use → b2 ∈ in_use → TpmsPcrSelection.pcr_select b1 ≠ TpmsPcrSelection.pcr_select b2 →
     fetched = (Err TpmDeviceError.PcrBankSelectionMismatch, d')).
Proof.
  intros Hr Hq in_use fetched. pose proof (fetch_pcr_bank_list_spec pcrs d d' Hr Hq) as Hf.
  fold fetched in_use in Hf. rewrite Hf. split_and!.
  - by intros ->.
  - intros select Hne Hs. destruct in_use as [|b rest]; [done|].
    assert (TpmsPcrSelection.pcr_select b = select) as <- by by apply list.Forall_cons in Hs as [? _].
    rewrite bool_decide_true by done. eexists. split; [done|]. split; [apply Sorted_merge_sort, _|].
    apply merge_sort_Permutation.
  - intros b1 b2 H1 H2 Hne. destruct in_use as [|b rest]; [by apply elem_of_nil in H1|].
    rewrite bool_decide_false; [done|]. intros Hs. rewrite list.Forall_forall in Hs.
    by rewrite (Hs b1 H1), (Hs b2 H2) in Hne.
Qed.

(** Two banks in use and one without a PCR. *)
Definition sample_bank (alg : TpmAlgId.t) (bs : list byte) : ty TpmsPcrSelection :=
  TpmsPcrSelection.mk alg (get (TpmsPcrSelect.try_from bs) TpmsPcrSelect.new).
Definition sample_banks : list (ty TpmsPcrSelection) :=
  [sample_bank TpmAlgId.Sha256 [xff; xff; xff]; sample_bank TpmAlgId.Sha384 [x00; x00; x00];
   sample_bank TpmAlgId.Sha1 [xff; xff; xff]].
Definition banks_reply : list byte :=
  reply_with TpmCc.GetCapability (page_response false
    (TpmsCapabilityData.mk TpmCap.Pcrs
      (TpmuCapabilities.Pcrs (get (TpmList.try_extend_from_slice 8 sample_banks (TpmList.new 8)) (TpmList.new 8))))).

Lemma pcr_banks_agree_witness :
  ∃ algs, TpmDevice.fetch_pcr_bank_list (pipe_device banks_reply) =
      (Ok (algs, TpmsPcrSelection.pcr_select (sample_bank TpmAlgId.Sha1 [xff; xff; xff])),
       (TpmDevice.fetch_pcr_bank_list (pipe_device banks_reply)).2) ∧
    Sorted TpmDevice.alg_le algs ∧ algs ≡ₚ [TpmAlgId.Sha256; TpmAlgId.Sha1].
Proof.
  apply (pcr_banks_agree sample_banks (pipe_device banks_reply)).
  - repeat constructor; eexists; vm_compute; reflexivity.
  - vm_compute. reflexivity.
  - vm_compute. discriminate.
  - repeat constructor.
Defined.
