(* ===== verification/VtpmPolicy.v ===== *)
(** Policy steps of cached keys ([vtpm/src/policy.rs]): the error type of the
    crate, the trait [VtpmPolicyCommand] with its three implementors,
    construction from parts and from command frames, conversion to typed
    commands, and the policy list of a cache record. *)

From S2P Require Import Prelude State Errors Writer Codec Integer Buffer Tpml Struct EnumMacro Union Enums.
From S2P Require Import BasicTypes Schemes Structures Body FrameData Dispatch Envelope Command Hash Transport.

(** [enum VtpmError] of [vtpm/src/lib.rs] *)
Module VtpmError.
Inductive t `{Os} : Type :=
| HandleNotFound (handle : TpmInt.t)
| InvalidHandleType (ht : Z)
| NoHandles
| InvalidCc (cc : TpmCc.t)
| InvalidPolicy
| Io (e : IoError)
| Marshal (e : TpmError)
| OperationFailed
| ParentNotFound
| StaleHandle
| Unmarshal (e : TpmError)
| UnexpectedEnd
| RecordTooLarge (n : Z)
| TooManyPolicies (n : Z).
End VtpmError.

Definition ZERO_HANDLE : TpmInt.t := TpmInt.new 4 0.

(** ** The steps *)

(** [struct VtpmPolicyDefaultCommand] *)
Module VtpmPolicyDefaultCommand.
Record t := mk { cc : TpmCc.t; body : list byte }.
End VtpmPolicyDefaultCommand.

(** [struct VtpmPolicyAuthorizeCommand] with its [TpmSized], [TpmMarshal] and
    [TpmUnmarshal] *)
Module VtpmPolicyAuthorizeCommand.
Record t := mk {
  key_sign : ty Tpm2bPublic; policy_ref : ty Tpm2bDigest; policy_signature : ty TpmtSignature }.

Definition SIZE : Z := SIZE Tpm2bPublic + SIZE Tpm2bDigest + SIZE TpmtSignature.
Definition len (v : t) : Z :=
  Codec.len Tpm2bPublic (key_sign v) + Codec.len Tpm2bDigest (policy_ref v) +
  Codec.len TpmtSignature (policy_signature v).
Definition marshal (v : t) : W () :=
  Codec.marshal Tpm2bPublic (key_sign v) ;!
  Codec.marshal Tpm2bDigest (policy_ref v) ;!
  Codec.marshal TpmtSignature (policy_signature v).
Definition unmarshal (buffer : slice) : TpmResult (t * slice) :=
  let? (key_sign, remainder) := Codec.unmarshal Tpm2bPublic buffer in
  let? (policy_ref, remainder) := Codec.unmarshal Tpm2bDigest remainder in
  let? (policy_signature, remainder) := Codec.unmarshal TpmtSignature remainder in
  Ok (mk key_sign policy_ref policy_signature, remainder).

Definition wire (v : t) : option (list byte) :=
  Codec.wire Tpm2bPublic (key_sign v) +++ Codec.wire Tpm2bDigest (policy_ref v) +++
  Codec.wire TpmtSignature (policy_signature v).
Definition wire_max : Z :=
  Codec.wire_max Tpm2bPublic + Codec.wire_max Tpm2bDigest + Codec.wire_max TpmtSignature.
Definition codec : Codec := mk_codec t SIZE len marshal unmarshal wire wire_max.
End VtpmPolicyAuthorizeCommand.
Definition VtpmPolicyAuthorizeCommand : Codec := VtpmPolicyAuthorizeCommand.codec.

(** [struct VtpmPolicySecretCommand], likewise *)
Module VtpmPolicySecretCommand.
Record t := mk {
  object_handle_hint : TpmInt.t; object_name : ty Tpm2bName; policy_ref : ty Tpm2bDigest }.

Definition SIZE : Z := SIZE TpmHandle + SIZE Tpm2bName + SIZE Tpm2bDigest.
Definition len (v : t) : Z :=
  Codec.len TpmHandle (object_handle_hint v) + Codec.len Tpm2bName (object_name v) +
  Codec.len Tpm2bDigest (policy_ref v).
Definition marshal (v : t) : W () :=
  Codec.marshal TpmHandle (object_handle_hint v) ;!
  Codec.marshal Tpm2bName (object_name v) ;!
  Codec.marshal Tpm2bDigest (policy_ref v).
Definition unmarshal (buffer : slice) : TpmResult (t * slice) :=
  let? (object_handle_hint, remainder) := Codec.unmarshal TpmHandle buffer in
  let? (object_name, remainder) := Codec.unmarshal Tpm2bName remainder in
  let? (policy_ref, remainder) := Codec.unmarshal Tpm2bDigest remainder in
  Ok (mk object_handle_hint object_name policy_ref, remainder).

Definition wire (v : t) : option (list byte) :=
  Codec.wire TpmHandle (object_handle_hint v) +++ Codec.wire Tpm2bName (object_name v) +++
  Codec.wire Tpm2bDigest (policy_ref v).
Definition wire_max : Z :=
  Codec.wire_max TpmHandle + Codec.wire_max Tpm2bName + Codec.wire_max Tpm2bDigest.
Definition codec : Codec := mk_codec t SIZE len marshal unmarshal wire wire_max.
End VtpmPolicySecretCommand.
Definition VtpmPolicySecretCommand : Codec := VtpmPolicySecretCommand.codec.

(** ** [trait VtpmPolicyCommand]

    A [Box<dyn VtpmPolicyCommand>] is one of the three implementors. *)

Inductive VtpmPolicyCommand :=
| Default (c : VtpmPolicyDefaultCommand.t)
| Authorize (c : VtpmPolicyAuthorizeCommand.t)
| Secret (c : VtpmPolicySecretCommand.t).

Module VtpmPolicyCommand.
(** [vec![0u8; TPM_MAX_COMMAND_SIZE]], marshalled into and truncated; empty
    when marshalling fails *)
Definition marshalled (c : Codec) (v : ty c) : list byte :=
  match marshal c v (writer_new (TpmHash.zeroed TPM_MAX_COMMAND_SIZE)) with
  | (Ok _, writer) => take (Z.to_nat (writer_len writer)) (buffer writer)
  | _ => []
  end.

Definition cc (p : VtpmPolicyCommand) : TpmCc.t :=
  match p with
  | Default c => VtpmPolicyDefaultCommand.cc c
  | Authorize _ => TpmCc.PolicyAuthorize
  | Secret _ => TpmCc.PolicySecret
  end.

Definition body (p : VtpmPolicyCommand) : list byte :=
  match p with
  | Default c => VtpmPolicyDefaultCommand.body c
  | Authorize c => marshalled VtpmPolicyAuthorizeCommand c
  | Secret c => marshalled VtpmPolicySecretCommand c
  end.

Definition len (p : VtpmPolicyCommand) : Z :=
  SIZE TpmCc + SIZE TpmUint32 +
  match p with
  | Default c => zlen (VtpmPolicyDefaultCommand.body c)
  | Authorize c => VtpmPolicyAuthorizeCommand.len c
  | Secret c => VtpmPolicySecretCommand.len c
  end.

(** [PartialEq]: [self.cc() == other.cc() && self.body() == other.body()] *)
Definition eq (a b : VtpmPolicyCommand) : bool :=
  bool_decide (cc a = cc b) && bool_decide (body a = body b).
End VtpmPolicyCommand.

Section conversions.
Context `{Os}.
Local Abbreviation E := VtpmError.t.

(** [X::unmarshal(..).map_err(VtpmError::Unmarshal)] *)
Definition unmarshal_v (c : Codec) (s : slice) : result E (ty c * slice) :=
  map_err VtpmError.Unmarshal (unmarshal c s).
(** [if !rest.is_empty() { return Err(VtpmError::InvalidPolicy) }] *)
Definition no_rest (rest : slice) : result E () :=
  if sl_is_empty rest then Ok tt else Err VtpmError.InvalidPolicy.

(** ** From a command code and a body *)

Definition vtpm_policy_command_from_parts (cc : TpmCc.t) (body : slice) : result E VtpmPolicyCommand :=
  let default := Default (VtpmPolicyDefaultCommand.mk cc (sl_data body)) in
  match cc with
  | TpmCc.PolicyAuthValue | TpmCc.PolicyPassword | TpmCc.PolicyGetDigest | TpmCc.PolicyRestart
  | TpmCc.PolicyPhysicalPresence =>
      let? _ := no_rest body in Ok default
  | TpmCc.PolicyAuthorize =>
      let? (command, remainder) := unmarshal_v VtpmPolicyAuthorizeCommand body in
      let? _ := no_rest remainder in Ok (Authorize command)
  | TpmCc.PolicySecret =>
      let? (command, remainder) := unmarshal_v VtpmPolicySecretCommand body in
      let? _ := no_rest remainder in Ok (Secret command)
  | TpmCc.PolicyPcr =>
      let? (_, rest) := unmarshal_v Tpm2bDigest body in
      let? (_, rest) := unmarshal_v TpmlPcrSelection rest in
      let? _ := no_rest rest in Ok default
  | TpmCc.PolicyOr =>
      let? (_, rest) := unmarshal_v TpmlDigest body in
      let? _ := no_rest rest in Ok default
  | TpmCc.PolicyCommandCode =>
      let? (_, rest) := unmarshal_v TpmCc body in
      let? _ := no_rest rest in Ok default
  | TpmCc.PolicyCpHash | TpmCc.PolicyNameHash | TpmCc.PolicyTemplate =>
      let? (_, rest) := unmarshal_v Tpm2bDigest body in
      let? _ := no_rest rest in Ok default
  | TpmCc.PolicyNvWritten =>
      let? (_, rest) := unmarshal_v TpmiYesNo body in
      let? _ := no_rest rest in Ok default
  | TpmCc.PolicyCounterTimer =>
      let? (_, rest) := unmarshal_v Tpm2bMaxBuffer body in
      let? (_, rest) := unmarshal_v TpmUint16 rest in
      let? (_, rest) := unmarshal_v TpmEo rest in
      let? _ := no_rest rest in Ok default
  | _ => Err (VtpmError.InvalidCc cc)
  end.

(** ** From a command frame *)

Definition vtpm_marshal_command_parameters (command : slice) : result E (list byte) :=
  let? parameters := map_err VtpmError.Unmarshal (TpmCommand.parameters command) in
  Ok (sl_data parameters).

Definition vtpm_policy_secret_from_command (command : slice) (object_name : ty Tpm2bName)
    : result E VtpmPolicyCommand :=
  let? inner := map_err VtpmError.Unmarshal (TpmCommand.unmarshal TpmPolicySecretCommand command) in
  let? object_handle_hint := or_panic (handles inner !! 0%nat) in
  let '(_, (_, (policy_ref, _))) := params inner in
  Ok (Secret (VtpmPolicySecretCommand.mk object_handle_hint object_name policy_ref)).

Definition vtpm_policy_command_from (cmd : slice) (object_name : ty Tpm2bName)
    : result E VtpmPolicyCommand :=
  let? view := map_err VtpmError.Unmarshal (TpmCommandView.cast cmd) in
  match TpmCommandView.variant view with
  | TpmCc.PolicyPcr | TpmCc.PolicyOr | TpmCc.PolicyCommandCode | TpmCc.PolicyCpHash
  | TpmCc.PolicyNameHash | TpmCc.PolicyTemplate | TpmCc.PolicyNvWritten
  | TpmCc.PolicyCounterTimer =>
      let? buf := vtpm_marshal_command_parameters cmd in
      Ok (Default (VtpmPolicyDefaultCommand.mk (TpmCommandView.cc view) buf))
  | TpmCc.PolicySecret => vtpm_policy_secret_from_command cmd object_name
  | TpmCc.PolicyAuthValue | TpmCc.PolicyPassword | TpmCc.PolicyGetDigest | TpmCc.PolicyRestart
  | TpmCc.PolicyPhysicalPresence =>
      Ok (Default (VtpmPolicyDefaultCommand.mk (TpmCommandView.cc view) []))
  | _ => Err (VtpmError.InvalidCc (TpmCommandView.cc view))
  end.

(** ** [to_command] *)

(** The owned body as a slice, at the address of its allocation. *)
Variable heap : Z.

Definition default_to_command (self : VtpmPolicyDefaultCommand.t) : result E TpmCommandValue :=
  let body := mk_slice heap (VtpmPolicyDefaultCommand.body self) in
  match VtpmPolicyDefaultCommand.cc self with
  | TpmCc.PolicyAuthValue =>
      Ok (command_value TpmCc.PolicyAuthValue (Body.mk (B:=TpmPolicyAuthValueCommand) [ZERO_HANDLE] tt))
  | TpmCc.PolicyGetDigest =>
      Ok (command_value TpmCc.PolicyGetDigest (Body.mk (B:=TpmPolicyGetDigestCommand) [ZERO_HANDLE] tt))
  | TpmCc.PolicyPassword =>
      Ok (command_value TpmCc.PolicyPassword (Body.mk (B:=TpmPolicyPasswordCommand) [ZERO_HANDLE] tt))
  | TpmCc.PolicyRestart =>
      Ok (command_value TpmCc.PolicyRestart (Body.mk (B:=TpmPolicyRestartCommand) [ZERO_HANDLE] tt))
  | TpmCc.PolicyPhysicalPresence =>
      Ok (command_value TpmCc.PolicyPhysicalPresence
            (Body.mk (B:=TpmPolicyPhysicalPresenceCommand) [ZERO_HANDLE] tt))
  | TpmCc.PolicyPcr =>
      let? (pcr_digest, rest) := unmarshal_v Tpm2bDigest body in
      let? (pcrs, rest) := unmarshal_v TpmlPcrSelection rest in
      let? _ := no_rest rest in
      Ok (command_value TpmCc.PolicyPcr (Body.mk (B:=TpmPolicyPcrCommand) [ZERO_HANDLE] (pcr_digest, (pcrs, tt))))
  | TpmCc.PolicyOr =>
      let? (p_hash_list, rest) := unmarshal_v TpmlDigest body in
      let? _ := no_rest rest in
      Ok (command_value TpmCc.PolicyOr (Body.mk (B:=TpmPolicyOrCommand) [ZERO_HANDLE] (p_hash_list, tt)))
  | TpmCc.PolicyCommandCode =>
      let? (code, rest) := unmarshal_v TpmCc body in
      let? _ := no_rest rest in
      Ok (command_value TpmCc.PolicyCommandCode
            (Body.mk (B:=TpmPolicyCommandCodeCommand) [ZERO_HANDLE] (code, tt)))
  | TpmCc.PolicyCpHash =>
      let? (cp_hash_a, rest) := unmarshal_v Tpm2bDigest body in
      let? _ := no_rest rest in
      Ok (command_value TpmCc.PolicyCpHash
            (Body.mk (B:=TpmPolicyCpHashCommand) [ZERO_HANDLE] (cp_hash_a, tt)))
  | TpmCc.PolicyNameHash =>
      let? (name_hash, rest) := unmarshal_v Tpm2bDigest body in
      let? _ := no_rest rest in
      Ok (command_value TpmCc.PolicyNameHash
            (Body.mk (B:=TpmPolicyNameHashCommand) [ZERO_HANDLE] (name_hash, tt)))
  | TpmCc.PolicyTemplate =>
      let? (template_hash, rest) := unmarshal_v Tpm2bDigest body in
      let? _ := no_rest rest in
      Ok (command_value TpmCc.PolicyTemplate
            (Body.mk (B:=TpmPolicyTemplateCommand) [ZERO_HANDLE] (template_hash, tt)))
  | TpmCc.PolicyNvWritten =>
      let? (written_set, rest) := unmarshal_v TpmiYesNo body in
      let? _ := no_rest rest in
      Ok (command_value TpmCc.PolicyNvWritten
            (Body.mk (B:=TpmPolicyNvWrittenCommand) [ZERO_HANDLE] (written_set, tt)))
  | TpmCc.PolicyCounterTimer =>
      let? (operand_b, rest) := unmarshal_v Tpm2bMaxBuffer body in
      let? (offset, rest) := unmarshal_v TpmUint16 rest in
      let? (operation, rest) := unmarshal_v TpmEo rest in
      let? _ := no_rest rest in
      Ok (command_value TpmCc.PolicyCounterTimer
            (Body.mk (B:=TpmPolicyCounterTimerCommand) [ZERO_HANDLE] (operand_b, (offset, (operation, tt)))))
  | other => Err (VtpmError.InvalidCc other)
  end.

Definition secret_to_command (self : VtpmPolicySecretCommand.t) : TpmCommandValue :=
  command_value TpmCc.PolicySecret
    (Body.mk (B:=TpmPolicySecretCommand)
       [VtpmPolicySecretCommand.object_handle_hint self; ZERO_HANDLE]
       (TpmBuffer.new MAX_DIGEST_SIZE, (TpmBuffer.new MAX_DIGEST_SIZE,
        (VtpmPolicySecretCommand.policy_ref self, (TpmInt.new 4 0, tt))))).

Definition to_command (p : VtpmPolicyCommand) : result E TpmCommandValue :=
  match p with
  | Default c => default_to_command c
  | Authorize _ => Err VtpmError.InvalidPolicy
  | Secret c => Ok (secret_to_command c)
  end.

(** ** The policy list of a cache record *)

(** A marshalling call, [.map_err(VtpmError::Marshal)] *)
Definition marshal_v {A} (m : W A) : State TpmWriter E A := st_map_err VtpmError.Marshal m.

(** [TpmUint32::try_from(n).map_err(|_| VtpmError::OperationFailed)] *)
Definition count_v (n : Z) : result E TpmInt.t :=
  ok_or (TpmInt.try_from 4 false n) VtpmError.OperationFailed.

Definition vtpm_marshal_policy (command : VtpmPolicyCommand) : State TpmWriter E () :=
  let* _ := marshal_v (marshal TpmCc (VtpmPolicyCommand.cc command)) in
  let body := VtpmPolicyCommand.body command in
  let* body_len := st_lift (count_v (zlen body)) in
  let* _ := marshal_v (marshal TpmUint32 body_len) in
  marshal_v (write_bytes body).

Fixpoint vtpm_marshal_policies (policies : list VtpmPolicyCommand) : State TpmWriter E () :=
  match policies with
  | [] => st_ret tt
  | command :: policies =>
      let* _ := vtpm_marshal_policy command in vtpm_marshal_policies policies
  end.

Definition vtpm_marshal_policy_list (policies : list VtpmPolicyCommand) : State TpmWriter E () :=
  let* count := st_lift (count_v (zlen policies)) in
  let* _ := marshal_v (marshal TpmUint32 count) in
  vtpm_marshal_policies policies.

Definition MAX_POLICY_COUNT : Z := 16.

(** [for _ in 0..count] *)
Fixpoint vtpm_unmarshal_policies (count : nat) (tail : slice)
    : result E (list VtpmPolicyCommand * slice) :=
  match count with
  | O => Ok ([], tail)
  | S count =>
      let? (cc, tail_next) := unmarshal_v TpmCc tail in
      let? (len_u32, tail_next) := unmarshal_v TpmUint32 tail_next in
      let len := TpmInt.value 4 false len_u32 in
      if sl_len tail_next <? len then Err VtpmError.UnexpectedEnd
      else
        let? (body, tail) := split_at tail_next len in
        let? p := vtpm_policy_command_from_parts cc body in
        let? (policy, tail) := vtpm_unmarshal_policies count tail in
        Ok (p :: policy, tail)
  end.

Definition vtpm_unmarshal_policy_list (buffer : slice) : result E (list VtpmPolicyCommand * slice) :=
  let? (count, tail) := unmarshal_v TpmUint32 buffer in
  let count := TpmInt.value 4 false count in
  if MAX_POLICY_COUNT <? count then Err (VtpmError.TooManyPolicies count)
  else vtpm_unmarshal_policies (Z.to_nat count) tail.
End conversions.
