(* ===== verification/FileSystem.v ===== *)
(** The part of [std::fs] the key cache uses, on one directory.

    A file has contents, and whether they have been synchronised to stable
    storage.  Every call can fail for reasons outside the program: [faults]
    says which calls do, and how much of a write was done before.  The
    directories the file system went through are kept, because a crash can
    leave any of them ([crash]). *)

From stdpp Require Import gmap.
From S2P Require Import Prelude State Transport Text.

Record file := mk_file { contents : list byte; synced : bool }.
Abbreviation directory := (gmap str file).

(** The error of a name that is not there. *)
Class FileErrors `{Os} := {
  not_found : IoError;
  not_found_kind : io_kind not_found = NotFoundKind
}.

(** The order in which a [HashMap], a [HashSet] or a directory is walked. *)
Class MapOrder := {
  iter {K A} `{Countable K} : gmap K A → list (K * A);
  iter_perm {K A} `{Countable K} (m : gmap K A) : iter m ≡ₚ map_to_list m
}.

(** [HashSet::iter] *)
Definition iter_set `{MapOrder} {K} `{Countable K} (s : gset K) : list K :=
  (iter (gset_to_gmap () s)).*1.

Record Fs `{Os} := mk_fs {
  files : directory;
  faults : list (option (nat * IoError));
  (** Earlier directories, the last one first. *)
  history : list directory
}.
Arguments mk_fs {_}. Arguments files {_}. Arguments faults {_}. Arguments history {_}.

Module fs.
Section fs.
Context `{FileErrors}.

Definition update (d : directory) (x : Fs) : Fs := mk_fs d (faults x) (files x :: history x).

(** Whether the next call fails. *)
Definition fault : State Fs IoError (option (nat * IoError)) := λ x,
  match faults x with
  | [] => (Ok None, x)
  | f :: fs => (Ok f, mk_fs (files x) fs (history x))
  end.

(** A call that fails without an effect, or runs. *)
Definition syscall {A} (m : State Fs IoError A) : State Fs IoError A :=
  let* f := fault in
  match f with
  | Some (_, e) => st_lift (Err e)
  | None => m
  end.

Definition find (path : str) : State Fs IoError file := λ x, (ok_or (files x !! path) not_found, x).

(** [fs::metadata(path)?.len()] and [fs::read(path)] *)
Definition metadata_len (path : str) : State Fs IoError Z :=
  syscall (let* f := find path in st_ret (zlen (contents f))).
Definition read (path : str) : State Fs IoError (list byte) :=
  syscall (let* f := find path in st_ret (contents f)).

(** [File::create]: an empty file, also when there was one *)
Definition create (path : str) : State Fs IoError () :=
  syscall (λ x, (Ok tt, update (<[path := mk_file [] false]> (files x)) x)).

(** [file.write_all]: on failure some of the bytes are written *)
Definition write_all (path : str) (bytes : list byte) : State Fs IoError () :=
  let* f := fault in
  let put bs : Fs → Fs := λ x,
    update (alter (λ f, mk_file (contents f ++ bs) false) path (files x)) x in
  match f with
  | Some (n, e) => λ x, (Err e, put (take n bytes) x)
  | None => λ x, (Ok tt, put bytes x)
  end.

(** [file.sync_all] *)
Definition sync_all (path : str) : State Fs IoError () :=
  syscall (λ x, (Ok tt, update (alter (λ f, mk_file (contents f) true) path (files x)) x)).

Definition remove_file (path : str) : State Fs IoError () :=
  syscall (
    let* _ := find path in
    λ x, (Ok tt, update (delete path (files x)) x)).

(** [fs::rename]: replaces what was at [to] *)
Definition rename (from to : str) : State Fs IoError () :=
  syscall (
    let* f := find from in
    λ x, (Ok tt, update (<[to := f]> (delete from (files x))) x)).

(** The directory is there; [fs::create_dir_all] can still fail. *)
Definition create_dir_all : State Fs IoError () := syscall (st_ret tt).

(** [fs::read_dir(..)?.filter_map(Result::ok)]: an entry that cannot be read
    is left out *)
Fixpoint entries (names : list str) : State Fs IoError (list str) :=
  match names with
  | [] => st_ret []
  | name :: names =>
      let* f := fault in
      let* names := entries names in
      st_ret (match f with Some _ => names | None => name :: names end)
  end.
Definition read_dir `{MapOrder} : State Fs IoError (list str) :=
  syscall (λ x, entries (iter (files x)).*1 x).
End fs.
End fs.

(** ** Crashes

    The file system commits changes of the directory in order, so that after
    a crash it is one of those it went through.  Of a file that was not
    synchronised anything may be left. *)

Definition states `{Os} (x : Fs) : list directory := files x :: history x.

Definition leaves (d : directory) (left_ : gmap str (list byte)) : Prop :=
  dom left_ = dom d ∧
  ∀ path f, d !! path = Some f → synced f = true → left_ !! path = Some (contents f).

Definition crash `{Os} (x : Fs) (left_ : gmap str (list byte)) : Prop :=
  ∃ d, d ∈ states x ∧ leaves d left_.
