(* ===== verification/Vtpm.v ===== *)
(** The key cache ([vtpm/src/lib.rs]): records of keys and their files
    ([VtpmKey]), and the cache of virtual handles ([VtpmCache]).

    The cache and the file system are passed as one state.  A [HashMap] keyed
    by a name is keyed by its bytes, which is what [Eq] and [Hash] of a buffer
    look at; the paths of the cache directory are file names. *)

From Stdlib Require Import Ascii.
From stdpp Require Import gmap.
From S2P Require Import Prelude State Errors Writer Codec Integer Buffer Tpml Struct EnumMacro Union Enums Attributes.
From S2P Require Import BasicTypes Schemes Structures Body FrameData Dispatch Crypto Hash Text Transport.
From S2P Require Import VtpmPolicy FileSystem.

Definition VERSION : Z := 2.
Definition TRANSIENT_START : Z := 0x80000000.
Definition TRANSIENT_END : Z := 0x80FFFFFF.
Definition TRANSIENT_COUNT : Z := 0x01000000.
Definition MAX_RECORD_SIZE : Z := 16 * 1024.

(** [PartialEq for TpmtPublic] and of its parts.  Buffers compare by their
    contents, which determine the whole buffer ([holds_inj]).  The decisions
    only look at those of the parts, never at their proofs, so they evaluate. *)
Ltac normal_types :=
  repeat match goal with
  | v : ty _ |- _ => let T := type of v in let T' := eval lazy in T in progress change T' in v
  end.
Ltac union_eq_dec :=
  intros a b; unfold Decision; destruct a, b; normal_types;
  first [ by left | by right
        | match goal with |- {?c ?v = ?c ?w} + {_} =>
            let E := fresh in destruct (decide (v = w)) as [E|E]; [left; exact (f_equal c E) | right; congruence]
          end ].
Ltac by_fields := match goal with |- context [?v = ?w] => destruct v, w end; simpl in *; congruence.

#[global] Instance pair_eq_dec {A B} `{EqDecision A, EqDecision B} : EqDecision (A * B).
Proof. refine (λ a b, cast_if_and (decide (a.1 = b.1)) (decide (a.2 = b.2))); by_fields. Defined.
#[global] Instance TaggedStruct_eq_dec {A B} `{EqDecision A, EqDecision B} : EqDecision (TaggedStruct.t A B).
Proof.
  refine (λ a b, cast_if_and (decide (TaggedStruct.tag_field a = TaggedStruct.tag_field b))
    (decide (TaggedStruct.value_field a = TaggedStruct.value_field b))); by_fields.
Defined.
#[global] Instance TpmuAsymScheme_eq_dec : EqDecision TpmuAsymScheme.t.
Proof. union_eq_dec. Defined.
#[global] Instance TpmuKdfScheme_eq_dec : EqDecision TpmuKdfScheme.t.
Proof. union_eq_dec. Defined.
#[global] Instance TpmuKeyedhashScheme_eq_dec : EqDecision TpmuKeyedhashScheme.t.
Proof. union_eq_dec. Defined.
#[global] Instance TpmuSymKeyBits_eq_dec : EqDecision TpmuSymKeyBits.t.
Proof. union_eq_dec. Defined.
#[global] Instance TpmuSymMode_eq_dec : EqDecision TpmuSymMode.t.
Proof. union_eq_dec. Defined.
#[global] Instance TpmtSymDef_eq_dec : EqDecision TpmtSymDef.t.
Proof.
  refine (λ a b, cast_if_and3 (decide (TpmtSymDef.algorithm a = TpmtSymDef.algorithm b))
    (decide (TpmtSymDef.key_bits a = TpmtSymDef.key_bits b)) (decide (TpmtSymDef.mode a = TpmtSymDef.mode b)));
    by_fields.
Defined.
#[global] Instance TpmuPublicParms_eq_dec : EqDecision TpmuPublicParms.t.
Proof. union_eq_dec. Defined.
#[global] Instance TpmuPublicId_eq_dec : EqDecision TpmuPublicId.t.
Proof. union_eq_dec. Defined.
#[global] Instance TpmtPublic_eq_dec : EqDecision (ty TpmtPublic).
Proof.
  change (EqDecision TpmtPublic.t).
  refine (λ a b, cast_if_and6 (decide (TpmtPublic.object_type a = TpmtPublic.object_type b))
    (decide (TpmtPublic.name_alg a = TpmtPublic.name_alg b))
    (decide (TpmtPublic.object_attributes a = TpmtPublic.object_attributes b))
    (decide (TpmtPublic.auth_policy a = TpmtPublic.auth_policy b))
    (decide (TpmtPublic.parameters a = TpmtPublic.parameters b))
    (decide (TpmtPublic.unique a = TpmtPublic.unique b))); by_fields.
Defined.

(** ** [struct VtpmKey] *)

Module VtpmKey.
Record t := mk {
  version : TpmInt.t;
  handle : TpmInt.t;
  public : ty TpmtPublic;
  parent : ty TpmtPublic;
  context : ty TpmsContext;
  policy : list VtpmPolicyCommand
}.
End VtpmKey.

(** [format!("{virtual_handle:08x}.bin")] *)
Definition record_name (virtual_handle : Z) : str := hex_digits 8 virtual_handle ++ lit ".bin".

(** [Path::file_stem] and [Path::extension]: around the last dot, unless it
    comes first *)
Definition file_stem (name : str) : str :=
  match rsplit_once (chr ".") name with
  | Some (c :: stem, _) => c :: stem
  | _ => name
  end.
Definition extension (name : str) : option str :=
  match rsplit_once (chr ".") name with
  | Some (_ :: _, ext) => Some ext
  | _ => None
  end.

Section vtpm.
Context `{Os} `{!FileErrors} `{!MapOrder} `{!Libcrypto}.
(** [process::id()], and the address of the buffers that are allocated *)
Variables (pid heap : Z).
Local Abbreviation E := VtpmError.t.

(** [io_call?] *)
Definition io {A} (m : State Fs IoError A) : State Fs E A := st_map_err VtpmError.Io m.

(** [format!(".{file_name}.{}.tmp", process::id())] *)
Definition temp_name (file_name : str) : str :=
  lit "." ++ file_name ++ lit "." ++ u32_to_string pid ++ lit ".tmp".

(** The closure of [write_atomic] *)
Definition write_temp (temp_path : str) (bytes : list byte) : State Fs IoError () :=
  let* _ := fs.create temp_path in
  let* _ := fs.write_all temp_path bytes in
  fs.sync_all temp_path.

Definition write_atomic (path : str) (bytes : list byte) : State Fs E () := λ x,
  let temp_path := temp_name path in
  match write_temp temp_path bytes x with
  | (Err e, x) => let (_, x) := fs.remove_file temp_path x in (Err (VtpmError.Io e), x)
  | (Panic, x) => (Panic, x)
  | (Ok _, x) =>
      match fs.rename temp_path path x with
      | (Err e, x) => let (_, x) := fs.remove_file temp_path x in (Err (VtpmError.Io e), x)
      | (Panic, x) => (Panic, x)
      | (Ok _, x) => (Ok tt, x)
      end
  end.

(** The body of [VtpmKey::load] after the file has been read. *)
Definition load_record (buffer : slice) (expected_handle : Z) : result E VtpmKey.t :=
  let? (version, tail) := map_err (λ _, VtpmError.StaleHandle) (unmarshal TpmUint32 buffer) in
  if negb (TpmInt.value 4 false version =? VERSION) then Err VtpmError.StaleHandle
  else
    let? (handle, tail) := unmarshal_v TpmHandle tail in
    if negb (TpmInt.value 4 false handle =? expected_handle) then Err VtpmError.StaleHandle
    else
      let? (public, tail) := unmarshal_v TpmtPublic tail in
      let? (parent, tail) := unmarshal_v TpmtPublic tail in
      let? (context, tail) := unmarshal_v TpmsContext tail in
      let? (policy, tail) := vtpm_unmarshal_policy_list tail in
      if negb (sl_is_empty tail) then
        let? offset := usub (sl_len buffer) (sl_len tail) in
        Err (VtpmError.Unmarshal (TrailingData offset (sl_len tail)))
      else Ok (VtpmKey.mk version handle public parent context policy).

(** [VtpmKey::load] *)
Definition load_key (path : str) (expected_handle : Z) : State Fs E VtpmKey.t :=
  let* metadata_len := io (fs.metadata_len path) in
  if MAX_RECORD_SIZE <? metadata_len then st_lift (Err (VtpmError.RecordTooLarge metadata_len))
  else
    let* buffer := io (fs.read path) in
    st_lift (load_record (mk_slice heap buffer) expected_handle).

Definition serialized_len (self : VtpmKey.t) : Z :=
  len TpmUint32 (VtpmKey.version self) + len TpmHandle (VtpmKey.handle self) +
  len TpmtPublic (VtpmKey.public self) + len TpmtPublic (VtpmKey.parent self) +
  len TpmsContext (VtpmKey.context self) + 4 +
  foldr Z.add 0 (map VtpmPolicyCommand.len (VtpmKey.policy self)).

(** [VtpmKey::save] up to [write_atomic] *)
Definition marshal_record (self : VtpmKey.t) : result E (list byte) :=
  let (r, writer) :=
    (let* _ := marshal_v (marshal TpmUint32 (VtpmKey.version self)) in
     let* _ := marshal_v (marshal TpmHandle (VtpmKey.handle self)) in
     let* _ := marshal_v (marshal TpmtPublic (VtpmKey.public self)) in
     let* _ := marshal_v (marshal TpmtPublic (VtpmKey.parent self)) in
     let* _ := marshal_v (marshal TpmsContext (VtpmKey.context self)) in
     vtpm_marshal_policy_list (VtpmKey.policy self))
      (writer_new (TpmHash.zeroed (serialized_len self))) in
  let? _ := r in
  Ok (take (Z.to_nat (writer_len writer)) (buffer writer)).

(** [VtpmKey::save] *)
Definition save_key (self : VtpmKey.t) (path : str) : State Fs E () :=
  let* buf := st_lift (marshal_record self) in
  write_atomic path buf.

(** [VtpmKey::delete] *)
Definition delete_key (self : VtpmKey.t) : State Fs E () := λ x,
  match fs.remove_file (record_name (TpmInt.value 4 false (VtpmKey.handle self))) x with
  | (Err e, x) => if decide (io_kind e = NotFoundKind) then (Ok tt, x) else (Err (VtpmError.Io e), x)
  | (Ok _, x) => (Ok tt, x)
  | (Panic, x) => (Panic, x)
  end.
End vtpm.

(** ** [struct VtpmCache] *)

Module VtpmCache.
Record t := mk {
  contexts : gmap Z VtpmKey.t;
  handles : gmap (list byte) TpmInt.t;
  names : gmap Z (ty Tpm2bName);
  dirty : gset Z;
  next_virtual_handle : Z
}.

Definition set_contexts (m : gmap Z VtpmKey.t) (self : t) : t :=
  mk m (handles self) (names self) (dirty self) (next_virtual_handle self).
Definition set_dirty (s : gset Z) (self : t) : t :=
  mk (contexts self) (handles self) (names self) s (next_virtual_handle self).
Definition set_next (n : Z) (self : t) : t :=
  mk (contexts self) (handles self) (names self) (dirty self) n.

(** [handle.value()] and [TpmUint32::new] *)
Definition hv (handle : TpmInt.t) : Z := TpmInt.value 4 false handle.
Definition th (virtual_handle : Z) : TpmInt.t := TpmInt.new 4 virtual_handle.

(** [(handle >> 24) as u8] *)
Definition handle_type (virtual_handle : Z) : Z := Z.shiftr virtual_handle 24 mod 2 ^ 8.

(** [wrapping_add(1)] and back to the start of the range *)
Definition next_handle (virtual_handle : Z) : Z :=
  let next := (virtual_handle + 1) mod 2 ^ 32 in
  if TRANSIENT_END <? next then TRANSIENT_START else next.

Section cache.
Context `{Os} `{!FileErrors} `{!MapOrder} `{!Libcrypto}.
Variables (pid heap : Z).
Local Abbreviation E := VtpmError.t.
Local Abbreviation Cache := (State (t * Fs) E).

(** A call on the file system only, and an update of the cache only. *)
Definition on_fs {A} (m : State Fs E A) : Cache A := λ '(c, x), let (r, x) := m x in (r, (c, x)).
Definition modify (f : t → t) : Cache () := λ '(c, x), (Ok tt, (f c, x)).
Definition get : Cache t := λ '(c, x), (Ok c, (c, x)).

(** ** Names *)

Definition unpublish_name (virtual_handle : Z) (self : t) : t :=
  match names self !! virtual_handle with
  | None => self
  | Some name =>
      let names := delete virtual_handle (names self) in
      let key := TpmBuffer.deref name in
      let handles :=
        if decide (hv <$> handles self !! key = Some virtual_handle) then delete key (handles self)
        else handles self in
      mk (contexts self) handles names (dirty self) (next_virtual_handle self)
  end.

Definition publish_name (virtual_handle : Z) (name : ty Tpm2bName) (self : t) : t :=
  let self := unpublish_name virtual_handle self in
  mk (contexts self) (<[TpmBuffer.deref name := th virtual_handle]> (handles self))
    (<[virtual_handle := name]> (names self)) (dirty self) (next_virtual_handle self).

(** [tpm_make_name(&key.public).map_err(|_| VtpmError::OperationFailed)] *)
Definition name_of (public : ty TpmtPublic) : result E (ty Tpm2bName) :=
  map_err (λ _, VtpmError.OperationFailed) (tpm_make_name public).

(** ** Lookups *)

Definition find_by_name (self : t) (target_name : ty Tpm2bName) : option VtpmKey.t :=
  handle ← handles self !! TpmBuffer.deref target_name;
  contexts self !! hv handle.

Definition find_by_handle (self : t) (handle : TpmInt.t) : option VtpmKey.t :=
  contexts self !! hv handle.

Definition key_iter (self : t) : list (TpmInt.t * VtpmKey.t) :=
  map (λ '(handle, key), (th handle, key)) (iter (contexts self)).

(** The loop of [fetch_ancestors]: the last handle, the chain above it and
    the persistent root; [None] when [fuel] rounds were not enough. *)
Fixpoint ancestors_loop (self : t) (fuel : nat) (current_virtual_handle : TpmInt.t)
    (chain : list TpmInt.t) : option (result E (TpmInt.t * list TpmInt.t * option TpmInt.t)) :=
  match fuel with
  | O => None
  | S fuel =>
      match find_by_handle self current_virtual_handle with
      | None => Some (Err (VtpmError.HandleNotFound current_virtual_handle))
      | Some key =>
          if decide (TpmtPublic.object_type (VtpmKey.parent key) = TpmAlgId.Null) then
            Some (Ok (current_virtual_handle, chain, None))
          else
            match List.find (λ '(_, parent_key), bool_decide (VtpmKey.public parent_key = VtpmKey.parent key))
                    (iter (contexts self)) with
            | Some (parent_virtual_handle, _) =>
                ancestors_loop self fuel (th parent_virtual_handle) (current_virtual_handle :: chain)
            | None =>
                Some (
                  let? parent_name := name_of (VtpmKey.parent key) in
                  match handles self !! TpmBuffer.deref parent_name with
                  | Some phandle => Ok (current_virtual_handle, chain, Some phandle)
                  | None => Err VtpmError.ParentNotFound
                  end)
            end
      end
  end.

Definition fetch_ancestors (self : t) (fuel : nat) (target_handle : TpmInt.t)
    : option (result E (list TpmInt.t)) :=
  if (handle_type (hv target_handle) =? value TpmHt.Persistent) &&
     bool_decide (target_handle ∈ (iter (handles self)).*2)
  then Some (Ok [target_handle])
  else
    r ← ancestors_loop self fuel target_handle [];
    Some (
      let? (current, chain, physical_primary) := r in
      let final_chain := current :: chain in
      Ok (match physical_primary with
          | Some root_handle => root_handle :: final_chain
          | None => final_chain
          end)).

(** ** Removal *)

(** [vec![0u8; public.len()]], marshalled into *)
Definition parent_key_bytes (public : ty TpmtPublic) : result E (list byte) :=
  let (r, writer) := marshal TpmtPublic public (writer_new (TpmHash.zeroed (len TpmtPublic public))) in
  let? _ := map_err VtpmError.Marshal r in
  Ok (buffer writer).

(** The loop over [key_iter] that groups the keys by their parents. *)
Abbreviation children_map := (gmap (list byte) (list (Z * ty TpmtPublic))).
Fixpoint parent_to_children (keys : list (TpmInt.t * VtpmKey.t)) (m : children_map)
    : result E children_map :=
  match keys with
  | [] => Ok m
  | (virtual_handle, key) :: keys =>
      let? bytes := parent_key_bytes (VtpmKey.parent key) in
      let children := default [] (m !! bytes) ++ [(hv virtual_handle, VtpmKey.public key)] in
      parent_to_children keys (<[bytes := children]> m)
  end.

(** The loop over the children of one parent. *)
Fixpoint remove_children (children : list (Z * ty TpmtPublic)) (ancestor_list : list (ty TpmtPublic))
    (deleted_children : list Z) : Cache (list (ty TpmtPublic) * list Z) :=
  match children with
  | [] => st_ret (ancestor_list, deleted_children)
  | (child_virtual_handle, child_public) :: children =>
      let* self := get in
      match contexts self !! child_virtual_handle with
      | Some context =>
          let* _ := on_fs (delete_key context) in
          let* _ := modify (λ self, set_contexts (delete child_virtual_handle (contexts self)) self) in
          let* _ := modify (unpublish_name child_virtual_handle) in
          let* _ := modify (λ self, set_dirty (dirty self ∖ {[child_virtual_handle]}) self) in
          remove_children children (ancestor_list ++ [child_public]) (deleted_children ++ [child_virtual_handle])
      | None => remove_children children ancestor_list deleted_children
      end
  end.

(** One round of [while let Some(parent_public) = ancestor_list.pop_front()] *)
Definition subtree_body (m : children_map) : list (ty TpmtPublic) * list Z → Cache (list (ty TpmtPublic) * list Z) :=
  λ '(ancestor_list, deleted_children),
  match ancestor_list with
  | [] => st_ret (ancestor_list, deleted_children)
  | parent_public :: ancestor_list =>
      let* bytes := st_lift (parent_key_bytes parent_public) in
      match m !! bytes with
      | Some children_to_process => remove_children children_to_process ancestor_list deleted_children
      | None => st_ret (ancestor_list, deleted_children)
      end
  end.
Definition not_done (st : list (ty TpmtPublic) * list Z) : bool :=
  match st.1 with [] => false | _ => true end.

(** Each round takes one public area off the queue, and what is put in it is
    the public area of a context that is removed. *)
Definition subtree_bound (self : t) : positive := Pos.of_succ_nat (S (size (contexts self))).

Definition remove_subtree (first_public : ty TpmtPublic) : Cache (list Z) :=
  let* self := get in
  let* m := st_lift (parent_to_children (key_iter self) ∅) in
  let* st := st_while (subtree_bound self) not_done (subtree_body m) ([first_public], []) in
  st_ret st.2.

Definition remove (handle : TpmInt.t) : Cache (list TpmInt.t) :=
  let virtual_handle := hv handle in
  let* self := get in
  match contexts self !! virtual_handle with
  | None => st_ret []
  | Some key =>
      let* _ := on_fs (delete_key key) in
      let* _ := modify (λ self, set_contexts (delete virtual_handle (contexts self)) self) in
      let* _ := modify (λ self, set_dirty (dirty self ∖ {[virtual_handle]}) self) in
      let* _ := modify (unpublish_name virtual_handle) in
      let* deleted_children := remove_subtree (VtpmKey.public key) in
      st_ret (handle :: map th deleted_children)
  end.

(** ** Insertion *)

Definition new_key (handle : TpmInt.t) (public parent_public : ty TpmtPublic) (context : ty TpmsContext)
    (policy : option (list VtpmPolicyCommand)) : VtpmKey.t :=
  VtpmKey.mk (th VERSION) handle public parent_public context (default [] policy).

(** What an insertion does once the key has a name. *)
Definition insert_key (virtual_handle : Z) (key : VtpmKey.t) (name : ty Tpm2bName) (self : t) : t :=
  let self := set_contexts (<[virtual_handle := key]> (contexts self)) self in
  let self := publish_name virtual_handle name self in
  set_dirty ({[virtual_handle]} ∪ dirty self) self.

(** The candidate handle of round [i] *)
Definition candidate (self : t) (i : Z) : Z :=
  let virtual_handle := (next_virtual_handle self + i) mod 2 ^ 32 in
  if TRANSIENT_END <? virtual_handle then TRANSIENT_START + (virtual_handle - TRANSIENT_END - 1)
  else virtual_handle.

Definition save_transient (context : ty TpmsContext) (public parent_public : ty TpmtPublic)
    (policy : option (list VtpmPolicyCommand)) (self : t) : result E TpmInt.t * t :=
  match
    loop (λ i,
      if TRANSIENT_COUNT <=? i then inr (Err VtpmError.NoHandles, self)
      else
        let virtual_handle := candidate self i in
        match contexts self !! virtual_handle with
        | Some _ => inl (i + 1)
        | None =>
            let key := new_key (th virtual_handle) public parent_public context policy in
            match name_of (VtpmKey.public key) with
            | Ok name =>
                let self := insert_key virtual_handle key name self in
                inr (Ok (th virtual_handle), set_next (next_handle virtual_handle) self)
            | Err e => inr (Err e, self)
            | Panic => inr (Panic, self)
            end
        end) (2 ^ 24 + 1) 0
  with
  | inr r => r
  | inl _ => (Panic, self)
  end.

(** [TpmsContext] of a key that is not in the cache's care *)
Definition default_context : ty TpmsContext :=
  (TpmInt.new 8 0, (TpmInt.new 4 0, (TpmRh.Owner, (TpmBuffer.new TPM_MAX_COMMAND_SIZE, tt)))).

Definition save_persistent (handle : TpmInt.t) (public parent_public : ty TpmtPublic)
    (policy : option (list VtpmPolicyCommand)) (self : t) : result E () * t :=
  let ht := handle_type (hv handle) in
  if negb (ht =? value TpmHt.Persistent) then (Err (VtpmError.InvalidHandleType ht), self)
  else
    let key := new_key handle public parent_public default_context policy in
    match name_of (VtpmKey.public key) with
    | Ok name => (Ok tt, insert_key (hv handle) key name self)
    | Err e => (Err e, self)
    | Panic => (Panic, self)
    end.

Definition mark_dirty (handle : TpmInt.t) (self : t) : t :=
  set_dirty ({[hv handle]} ∪ dirty self) self.

(** ** Files *)

Definition save_dirty (virtual_handle : Z) : Cache () :=
  let* self := get in
  let clean := modify (λ self, set_dirty (dirty self ∖ {[virtual_handle]}) self) in
  match contexts self !! virtual_handle with
  | Some context =>
      let* _ := on_fs (save_key pid context (record_name virtual_handle)) in clean
  | None => clean
  end.

Fixpoint save_all (virtual_handles_to_save : list Z) : Cache () :=
  match virtual_handles_to_save with
  | [] => st_ret tt
  | virtual_handle :: virtual_handles => let* _ := save_dirty virtual_handle in save_all virtual_handles
  end.

Definition save : Cache () := let* self := get in save_all (iter_set (dirty self)).
Definition flush : Cache () := save.
(** [teardown], also on drop: a failure is only logged *)
Definition teardown : Cache () := λ x, match flush x with (Panic, x) => (Panic, x) | (_, x) => (Ok tt, x) end.

(** [let _ = fs::remove_file(path)]: a failure is only logged *)
Definition discard (path : str) : State Fs E () := λ x,
  match fs.remove_file path x with (Panic, x) => (Panic, x) | (_, x) => (Ok tt, x) end.

Definition load_entry (path : str) : Cache () :=
  if negb (bool_decide (extension path = Some (lit "bin"))) then st_ret tt
  else
    match from_str_radix u32_max (file_stem path) 16 with
    | None => st_ret tt
    | Some virtual_handle =>
        let ht := handle_type virtual_handle in
        if (ht =? value TpmHt.Transient) || (ht =? value TpmHt.Persistent) then λ '(c, x),
          match load_key heap path virtual_handle x with
          | (Ok key, x) =>
              (let* name := st_lift (name_of (VtpmKey.public key)) in
               let* _ := modify (λ self, set_contexts (<[virtual_handle := key]> (contexts self)) self) in
               modify (publish_name virtual_handle name)) (c, x)
          | (Err _, x) => on_fs (discard path) (c, x)
          | (Panic, x) => (Panic, (c, x))
          end
        else if (ht =? value TpmHt.HmacSession) || (ht =? value TpmHt.PolicySession) then
          on_fs (discard path)
        else st_ret tt
    end.

Fixpoint load_entries (paths : list str) : Cache () :=
  match paths with
  | [] => st_ret tt
  | path :: paths => let* _ := load_entry path in load_entries paths
  end.

(** [VtpmCache::load] *)
Definition load : Cache () := λ '(c, x),
  match fs.read_dir x with
  | (Ok paths, x) => load_entries paths (c, x)
  | (Err e, x) => (if decide (io_kind e = NotFoundKind) then Ok tt else Err (VtpmError.Io e), (c, x))
  | (Panic, x) => (Panic, (c, x))
  end.

(** [contexts.keys().max()] *)
Definition max_handle (self : t) : option Z :=
  foldr (λ h m, match m with Some m => Some (h `max` m) | None => Some h end) None
    (iter (contexts self)).*1.

(** The check of the persistent handles, over [handles.values()] *)
Fixpoint check_persistent (values : list TpmInt.t) : result E () :=
  match values with
  | [] => Ok tt
  | handle :: values =>
      let ht := handle_type (hv handle) in
      if negb (ht =? value TpmHt.Persistent) then Err (VtpmError.InvalidHandleType ht)
      else check_persistent values
  end.

(** [VtpmCache::new] *)
Definition new (persistent : gmap (list byte) TpmInt.t) : State Fs E t := λ x,
  (let* _ := st_lift (check_persistent (iter persistent).*2) in
   let* _ := io fs.create_dir_all in
   λ x,
     match load (mk ∅ persistent ∅ ∅ TRANSIENT_START, x) with
     | (Ok _, (cache, x)) =>
         let cache :=
           match max_handle cache with
           | Some max_handle =>
               if next_virtual_handle cache <=? max_handle then set_next (next_handle max_handle) cache
               else cache
           | None => cache
           end in
         (Ok cache, x)
     | (Err e, (_, x)) => (Err e, x)
     | (Panic, (_, x)) => (Panic, x)
     end) x.
End cache.
End VtpmCache.
