(* ===== verification/VtpmPolicySpec.v ===== *)
(** The laws of policy steps: their reference encoding, that construction
    from parts accepts exactly the well-formed steps, that a step stands for
    the command it was made from, and that the policy list of a record is
    read back as it was written. *)

From stdpp Require Import gmap.
From S2P Require Import Prelude State Errors Writer Codec Integer Buffer Tpml Struct EnumMacro Union Enums.
From S2P Require Import BasicTypes Schemes Structures Body FrameData Dispatch Envelope Command Marshal Crypto Hash Policy PolicySpec.
From S2P Require Import Transport VtpmPolicy.

(** ** The two structured steps *)

Lemma VtpmPolicyAuthorizeCommand_ok : CodecOk VtpmPolicyAuthorizeCommand.
Proof.
  split; lazy [VtpmPolicyAuthorizeCommand VtpmPolicyAuthorizeCommand.codec ty SIZE len marshal unmarshal wire wire_max].
  - split; by apply Z.leb_le; vm_compute.
  - intros v bs Hw. unfold VtpmPolicyAuthorizeCommand.wire in Hw. wire_inv.
    unfold VtpmPolicyAuthorizeCommand.len. rewrite !zlen_app. erewrite !wire_len by done. lia.
  - intros v bs Hw. unfold VtpmPolicyAuthorizeCommand.wire in Hw. wire_inv.
    unfold VtpmPolicyAuthorizeCommand.wire_max. rewrite !zlen_app. bound_inv. lia.
  - intros v bs Hw. unfold VtpmPolicyAuthorizeCommand.wire in Hw. wire_inv.
    unfold VtpmPolicyAuthorizeCommand.marshal. solve_writes.
  - intros [] bs s r Hok Hw Hc. unfold VtpmPolicyAuthorizeCommand.wire in Hw.
    cbn [VtpmPolicyAuthorizeCommand.key_sign VtpmPolicyAuthorizeCommand.policy_ref VtpmPolicyAuthorizeCommand.policy_signature] in Hw. wire_inv.
    unfold VtpmPolicyAuthorizeCommand.unmarshal. by repeat read_step.
  - intros s v r Hok Hu. unfold VtpmPolicyAuthorizeCommand.unmarshal in Hu. repeat read_inv. simplify_eq.
    eexists; split; [|consume_all]. unfold VtpmPolicyAuthorizeCommand.wire.
    cbn [VtpmPolicyAuthorizeCommand.key_sign VtpmPolicyAuthorizeCommand.policy_ref VtpmPolicyAuthorizeCommand.policy_signature]. solve_wcat.
  - intros s Hok. unfold VtpmPolicyAuthorizeCommand.unmarshal. repeat no_panic_step.
Qed.

Lemma VtpmPolicySecretCommand_ok : CodecOk VtpmPolicySecretCommand.
Proof.
  split; lazy [VtpmPolicySecretCommand VtpmPolicySecretCommand.codec ty SIZE len marshal unmarshal wire wire_max].
  - split; by apply Z.leb_le; vm_compute.
  - intros v bs Hw. unfold VtpmPolicySecretCommand.wire in Hw. wire_inv.
    unfold VtpmPolicySecretCommand.len. rewrite !zlen_app. erewrite !wire_len by done. lia.
  - intros v bs Hw. unfold VtpmPolicySecretCommand.wire in Hw. wire_inv.
    unfold VtpmPolicySecretCommand.wire_max. rewrite !zlen_app. bound_inv. lia.
  - intros v bs Hw. unfold VtpmPolicySecretCommand.wire in Hw. wire_inv.
    unfold VtpmPolicySecretCommand.marshal. solve_writes.
  - intros [] bs s r Hok Hw Hc. unfold VtpmPolicySecretCommand.wire in Hw.
    cbn [VtpmPolicySecretCommand.object_handle_hint VtpmPolicySecretCommand.object_name VtpmPolicySecretCommand.policy_ref] in Hw. wire_inv.
    unfold VtpmPolicySecretCommand.unmarshal. by repeat read_step.
  - intros s v r Hok Hu. unfold VtpmPolicySecretCommand.unmarshal in Hu. repeat read_inv. simplify_eq.
    eexists; split; [|consume_all]. unfold VtpmPolicySecretCommand.wire.
    cbn [VtpmPolicySecretCommand.object_handle_hint VtpmPolicySecretCommand.object_name VtpmPolicySecretCommand.policy_ref]. solve_wcat.
  - intros s Hok. unfold VtpmPolicySecretCommand.unmarshal. repeat no_panic_step.
Qed.
#[export] Existing Instance VtpmPolicyAuthorizeCommand_ok.
#[export] Existing Instance VtpmPolicySecretCommand_ok.

(** Both always fit the buffer of [body]. *)
Lemma authorize_fits : wire_max VtpmPolicyAuthorizeCommand ≤ TPM_MAX_COMMAND_SIZE.
Proof. by apply Z.leb_le; vm_compute. Qed.
Lemma secret_fits : wire_max VtpmPolicySecretCommand ≤ TPM_MAX_COMMAND_SIZE.
Proof. by apply Z.leb_le; vm_compute. Qed.

(** ** Reading a parameter area field by field *)

Section reading.
Context `{Os}.
Local Abbreviation E := VtpmError.t.

Lemma unmarshal_v_Ok c `{!CodecOk c} v bs s r :
  slice_ok s → wire c v = Some bs → consumes bs s r → unmarshal_v c s = Ok (v, r).
Proof using Type. intros. unfold unmarshal_v. by rewrite (unmarshal_wire v bs s r). Qed.

Lemma unmarshal_v_sound c `{!CodecOk c} s v r :
  slice_ok s → unmarshal_v c s = Ok (v, r) → ∃ bs, wire c v = Some bs ∧ consumes bs s r ∧ slice_ok r.
Proof using Type.
  intros Hs Hu%map_err_Ok_inv. destruct (unmarshal_sound s v r Hs Hu) as (bs & Hw & Hc).
  exists bs. split_and!; [done..|]. by eapply consumes_slice_ok.
Qed.

Lemma unmarshal_v_no_panic c `{!CodecOk c} s : slice_ok s → unmarshal_v c s ≠ Panic.
Proof using Type. intros. by apply map_err_not_Panic, unmarshal_no_panic. Qed.

Lemma no_rest_Ok s : no_rest s = Ok tt ↔ sl_data s = [].
Proof using Type.
  unfold no_rest, sl_is_empty, sl_len. destruct (sl_data s); simpl; split; try done.
Qed.

Fixpoint read_fields (fs : fields) (s : slice) : result E (fields_ty fs * slice) :=
  match fs with
  | [] => Ok (tt, s)
  | f :: fs =>
      let? (v, s) := unmarshal_v f.2 s in
      let? (vs, s) := read_fields fs s in
      Ok ((v, vs), s)
  end.

Definition read_all (fs : fields) (s : slice) : result E (fields_ty fs) :=
  let? (v, rest) := read_fields fs s in
  let? _ := no_rest rest in
  Ok v.

Lemma read_fields_complete fs `{!FieldsOk fs} v bs s r :
  slice_ok s → fields_wire fs v = Some bs → consumes bs s r → read_fields fs s = Ok (v, r).
Proof using Type.
  revert v bs s; induction FieldsOk0 as [|[n c] fs Hc Hfs IH]; intros v bs s Hok.
  - intros [= <-] Hcs. destruct v; simpl. by rewrite (consumes_det _ _ _ _ (consumes_refl s) Hcs).
  - destruct v as [v vs]. intros (b1 & b2 & H1 & H2 & ->)%fields_wire_cons.
    intros (mid & Hc1 & Hc2)%consumes_split. simpl in *.
    rewrite (unmarshal_v_Ok c v b1 s mid) by done; simpl.
    rewrite (IH vs b2 mid); [done | by eapply consumes_slice_ok | done..].
Qed.

Lemma read_fields_sound fs `{!FieldsOk fs} s v r :
  slice_ok s → read_fields fs s = Ok (v, r) → ∃ bs, fields_wire fs v = Some bs ∧ consumes bs s r.
Proof using Type.
  revert v s; induction FieldsOk0 as [|[n c] fs Hc Hfs IH]; intros v s Hok; simpl.
  - intros [= <- <-]. exists []. split; [done | apply consumes_refl].
  - intros ([v1 mid] & Hu & ([vs r'] & Hus & [= <- <-])%result_bind_Ok_inv)%result_bind_Ok_inv.
    apply unmarshal_v_sound in Hu as (b1 & H1 & Hc1 & Hmid); [|done..].
    apply IH in Hus as (b2 & H2 & Hc2); [|done]. exists (b1 ++ b2). simpl in *. rewrite H1; simpl.
    rewrite H2. split; [done | by eapply consumes_trans].
Qed.

Lemma read_fields_no_panic fs `{!FieldsOk fs} s : slice_ok s → read_fields fs s ≠ Panic.
Proof using Type.
  revert s; induction FieldsOk0 as [|[n c] fs Hc Hfs IH]; intros s Hok; simpl; [done|].
  apply result_bind_not_Panic; [by apply unmarshal_v_no_panic|].
  intros [v mid] (b1 & _ & _ & Hmid)%unmarshal_v_sound; [|done..].
  apply result_bind_not_Panic; [by apply IH | by intros []].
Qed.

Lemma read_all_Ok fs `{!FieldsOk fs} s v :
  slice_ok s → read_all fs s = Ok v ↔ fields_wire fs v = Some (sl_data s).
Proof using Type.
  intros Hok. unfold read_all. split.
  - intros ([v' rest] & Hr & ([] & Hn%no_rest_Ok & [= <-])%result_bind_Ok_inv)%result_bind_Ok_inv.
    apply read_fields_sound in Hr as (bs & Hw & Hd & _); [|done..].
    by rewrite Hn, app_nil_r in Hd; subst.
  - intros Hw. rewrite (read_fields_complete fs v (sl_data s) s (mk_slice (sl_addr s + zlen (sl_data s)) []));
      [done | done | done |]. by split; [rewrite app_nil_r|].
Qed.

Lemma read_all_no_panic fs `{!FieldsOk fs} s : slice_ok s → read_all fs s ≠ Panic.
Proof using Type.
  intros Hok. apply result_bind_not_Panic; [by apply read_fields_no_panic|]. intros [v rest] _.
  apply result_bind_not_Panic; [|done]. unfold no_rest. by case_match.
Qed.
End reading.

(** ** Well-formed steps *)

(** The commands kept as [VtpmPolicyDefaultCommand]. *)
Definition is_default (cc : TpmCc.t) : bool :=
  match cc with
  | TpmCc.PolicyAuthValue | TpmCc.PolicyPassword | TpmCc.PolicyGetDigest | TpmCc.PolicyRestart
  | TpmCc.PolicyPhysicalPresence | TpmCc.PolicyPcr | TpmCc.PolicyOr | TpmCc.PolicyCommandCode
  | TpmCc.PolicyCpHash | TpmCc.PolicyNameHash | TpmCc.PolicyTemplate | TpmCc.PolicyNvWritten
  | TpmCc.PolicyCounterTimer => true
  | _ => false
  end.

(** The body of a default step is the parameter area of its command. *)
Definition step_ok (p : VtpmPolicyCommand) : Prop :=
  match p with
  | Default (VtpmPolicyDefaultCommand.mk cc body) =>
      is_default cc = true ∧ ∃ v, fields_wire (parameters (command cc)) v = Some body
  | Authorize c => is_Some (wire VtpmPolicyAuthorizeCommand c)
  | Secret c => is_Some (wire VtpmPolicySecretCommand c)
  end.

(** A step in a record: its code, and its body behind a length. *)
Definition step_bytes (p : VtpmPolicyCommand) : list byte :=
  be_encode 4 (value (VtpmPolicyCommand.cc p)) ++ be_encode 4 (zlen (VtpmPolicyCommand.body p)) ++
  VtpmPolicyCommand.body p.
Arguments step_bytes : simpl never.
Definition list_bytes (ps : list VtpmPolicyCommand) : list byte :=
  be_encode 4 (zlen ps) ++ concat (map step_bytes ps).

Lemma marshalled_wire (c : Codec) `{!CodecOk c} v bs :
  wire c v = Some bs → wire_max c ≤ TPM_MAX_COMMAND_SIZE → VtpmPolicyCommand.marshalled c v = bs.
Proof.
  intros Hw Hmax. pose proof (wire_max_le v bs Hw).
  set (w := writer_new (TpmHash.zeroed TPM_MAX_COMMAND_SIZE)).
  assert (writer_ok w ∧ room w = TPM_MAX_COMMAND_SIZE) as [Hok Hroom] by (split; by vm_compute).
  destruct (marshal_wire v bs Hw w Hok) as [Ho _].
  unfold VtpmPolicyCommand.marshalled. fold w. rewrite Ho by lia.
  change (take _ _) with (as_bytes (put w bs)). by rewrite put_as_bytes.
Qed.

Lemma authorize_body c bs :
  wire VtpmPolicyAuthorizeCommand c = Some bs → VtpmPolicyCommand.body (Authorize c) = bs.
Proof. intros Hw. by apply marshalled_wire; [apply _ | | apply authorize_fits]. Qed.
Lemma secret_body c bs :
  wire VtpmPolicySecretCommand c = Some bs → VtpmPolicyCommand.body (Secret c) = bs.
Proof. intros Hw. by apply marshalled_wire; [apply _ | | apply secret_fits]. Qed.

(** [len] is the length of a step in a record. *)
Lemma step_len p : step_ok p → VtpmPolicyCommand.len p = zlen (step_bytes p).
Proof.
  intros Hp. unfold VtpmPolicyCommand.len, step_bytes. rewrite !zlen_app, !zlen_be4.
  change (SIZE TpmCc) with 4. change (SIZE TpmUint32) with 4.
  destruct p as [c|c|c].
  - simpl. lia.
  - destruct Hp as [bs Hw]. rewrite (authorize_body c bs Hw).
    change (VtpmPolicyAuthorizeCommand.len c) with (len VtpmPolicyAuthorizeCommand c).
    rewrite (wire_len (c:=VtpmPolicyAuthorizeCommand) c bs Hw). lia.
  - destruct Hp as [bs Hw]. rewrite (secret_body c bs Hw).
    change (VtpmPolicySecretCommand.len c) with (len VtpmPolicySecretCommand c).
    rewrite (wire_len (c:=VtpmPolicySecretCommand) c bs Hw). lia.
Qed.

Section steps.
Context `{Os}.
Local Abbreviation E := VtpmError.t.

Ltac open_body :=
  match goal with |- context [read_fields (parameters ?B)] => unfold B end;
  cbn [parameters read_fields result_bind fst snd].
Ltac split_reads :=
  repeat match goal with
  | |- context [unmarshal_v ?c ?s] => destruct (unmarshal_v c s) as [[? ?]|?|]; cbn [result_bind]; try done
  | |- context [no_rest ?s] => destruct (no_rest s) as [[]|?|]; cbn [result_bind]; try done
  end.

(** *** From parts *)

Lemma default_parts cc s :
  is_default cc = true →
  vtpm_policy_command_from_parts cc s =
    let? _ := read_all (parameters (command cc)) s in
    Ok (Default (VtpmPolicyDefaultCommand.mk cc (sl_data s))).
Proof using Type.
  intros Hd. unfold read_all. destruct cc; try discriminate Hd; unfold vtpm_policy_command_from_parts; cbv zeta;
    cbn [command]; open_body; split_reads.
Qed.

(** [from_parts] accepts exactly the well-formed steps. *)
Lemma from_parts_spec cc s p :
  slice_ok s →
  vtpm_policy_command_from_parts cc s = Ok p ↔
  step_ok p ∧ VtpmPolicyCommand.cc p = cc ∧ VtpmPolicyCommand.body p = sl_data s.
Proof using Type.
  intros Hok. destruct (is_default cc) eqn:Hd.
  - rewrite default_parts by done. split.
    + intros (v & Hr & [= <-])%result_bind_Ok_inv. apply read_all_Ok in Hr; [|apply _|done].
      split; [|done]. split; [done|]. by exists v.
    + destruct p as [[cc' body]|c|c]; [|by intros (_ & <- & _)..]. simpl.
      intros ((_ & v & Hv) & -> & ->). rewrite (proj2 (read_all_Ok _ _ v Hok)) by done. done.
  - split.
    + destruct cc; try discriminate Hd; try done; simpl.
      * intros ([c rest] & Hr & ([] & Hn%no_rest_Ok & [= <-])%result_bind_Ok_inv)%result_bind_Ok_inv.
        apply (unmarshal_v_sound VtpmPolicySecretCommand) in Hr as (bs & Hw & [Hdata _] & _); [|done].
        rewrite Hn, app_nil_r in Hdata. split_and!; [by eexists | done |]. by rewrite (secret_body c bs).
      * intros ([c rest] & Hr & ([] & Hn%no_rest_Ok & [= <-])%result_bind_Ok_inv)%result_bind_Ok_inv.
        apply (unmarshal_v_sound VtpmPolicyAuthorizeCommand) in Hr as (bs & Hw & [Hdata _] & _); [|done].
        rewrite Hn, app_nil_r in Hdata. split_and!; [by eexists | done |]. by rewrite (authorize_body c bs).
    + assert (∀ bs, sl_data s = bs → consumes bs s (mk_slice (sl_addr s + zlen bs) [])) as Hall
        by (intros bs <-; split; [by rewrite app_nil_r | done]).
      intros (Hp & Hcc & Hb). destruct p as [[cc' body]|c|c]; simpl in Hcc; subst cc.
      * destruct Hp as [? _]. congruence.
      * destruct Hp as [bs Hw]. rewrite (authorize_body c bs Hw) in Hb. symmetry in Hb. simpl.
        by rewrite (unmarshal_v_Ok VtpmPolicyAuthorizeCommand c bs s _ Hok Hw (Hall bs Hb)).
      * destruct Hp as [bs Hw]. rewrite (secret_body c bs Hw) in Hb. symmetry in Hb. simpl.
        by rewrite (unmarshal_v_Ok VtpmPolicySecretCommand c bs s _ Hok Hw (Hall bs Hb)).
Qed.

Lemma from_parts_no_panic cc s : slice_ok s → vtpm_policy_command_from_parts cc s ≠ Panic.
Proof using Type.
  intros Hok. destruct (is_default cc) eqn:Hd.
  - rewrite default_parts by done. apply result_bind_not_Panic; [|done]. by apply read_all_no_panic; [apply _|].
  - destruct cc; try discriminate Hd; try done; simpl;
      (apply result_bind_not_Panic;
       [first [ by apply (unmarshal_v_no_panic VtpmPolicySecretCommand)
              | by apply (unmarshal_v_no_panic VtpmPolicyAuthorizeCommand) ]|]);
      intros [c rest] _;
      (apply result_bind_not_Panic; [unfold no_rest; by case_match | done]).
Qed.

(** *** To commands *)

Variable heap : Z.

Lemma default_command cc v body :
  is_default cc = true → fields_wire (parameters (command cc)) v = Some body →
  slice_ok (mk_slice heap body) →
  default_to_command heap (VtpmPolicyDefaultCommand.mk cc body) =
    Ok (command_value cc (Body.mk (B:=command cc) [ZERO_HANDLE] v)).
Proof using Type.
  intros Hd Hv Hok. apply (read_all_Ok _ (mk_slice heap body) v Hok) in Hv. revert v Hv. unfold read_all.
  destruct cc; try discriminate Hd; unfold default_to_command; cbn [command VtpmPolicyDefaultCommand.cc];
    open_body; cbn [VtpmPolicyDefaultCommand.body]; split_reads;
    (intros v Hv; first [injection Hv as <-; reflexivity | destruct v; reflexivity]).
Qed.

(** *** The list of a record *)

Lemma count_v_ok n : 0 ≤ n ≤ u32_max → count_v n = Ok (TpmInt.new 4 n).
Proof using Type.
  intros Hn. unfold count_v. by rewrite (int_try_from_spec 4 false n), decide_True by by apply in_range_u32.
Qed.

(** [m] appends [bs] to a writer with room for it. *)
Definition appends (m : State TpmWriter E ()) (bs : list byte) : Prop :=
  ∀ w, writer_ok w → zlen bs ≤ room w → m w = (Ok tt, put w bs).

Lemma appends_nil : appends (st_ret tt) [].
Proof using Type. intros w Hw _. by rewrite put_nil. Qed.

Lemma appends_bind m k bs1 bs2 :
  appends m bs1 → appends (k tt) bs2 → appends (st_bind m k) (bs1 ++ bs2).
Proof using Type.
  intros H1 H2 w Hw. rewrite zlen_app. intros Hr.
  pose proof (zlen_nonneg bs1). pose proof (zlen_nonneg bs2).
  unfold st_bind. rewrite H1 by (done || lia).
  rewrite H2; [|by apply put_ok; [|lia] | rewrite put_room by (done || lia); lia].
  by rewrite put_put by (done || lia).
Qed.

Lemma appends_writes (m : W ()) bs : writes m bs → appends (marshal_v m) bs.
Proof using Type.
  intros Hm w Hw Hr. unfold marshal_v, st_map_err. destruct (Hm w Hw) as [Ho _]. by rewrite Ho.
Qed.

Lemma appends_marshal c `{!CodecOk c} v bs : wire c v = Some bs → appends (marshal_v (marshal c v)) bs.
Proof using Type. intros. by apply appends_writes, marshal_wire. Qed.

Lemma appends_lift {A} (r : result E A) a k bs :
  r = Ok a → appends (k a) bs → appends (st_bind (st_lift r) k) bs.
Proof using Type. intros -> Hk w Hw Hr. by apply (Hk w). Qed.

Lemma body_small p : step_ok p → zlen (VtpmPolicyCommand.body p) ≤ TPM_MAX_COMMAND_SIZE.
Proof using Type.
  destruct p as [[cc body]|c|c].
  - intros [Hd (v & Hv)]. apply fields_len_wire in Hv as [_ Hv]; [|apply _].
    change (zlen body ≤ TPM_MAX_COMMAND_SIZE). transitivity (fields_max (parameters (command cc))); [done|].
    apply Z.leb_le. by destruct cc; try discriminate Hd; vm_compute.
  - intros [bs Hw]. pose proof authorize_fits. apply (wire_max_le (c:=VtpmPolicyAuthorizeCommand)) in Hw as Hl.
    rewrite (authorize_body c bs Hw). lia.
  - intros [bs Hw]. pose proof secret_fits. apply (wire_max_le (c:=VtpmPolicySecretCommand)) in Hw as Hl.
    rewrite (secret_body c bs Hw). lia.
Qed.

Lemma body_u32 p : step_ok p → 0 ≤ zlen (VtpmPolicyCommand.body p) ≤ u32_max.
Proof using Type.
  intros Hp%body_small. pose proof (zlen_nonneg (VtpmPolicyCommand.body p)).
  unfold TPM_MAX_COMMAND_SIZE, u32_max in *. lia.
Qed.

Lemma policy_appends p : step_ok p → appends (vtpm_marshal_policy p) (step_bytes p).
Proof using Type.
  intros Hp. pose proof (body_u32 p Hp) as Hb. unfold vtpm_marshal_policy, step_bytes. cbv zeta.
  apply appends_bind; [by apply appends_marshal; [apply _ | apply cc_wire]|].
  apply appends_lift with (TpmInt.new 4 (zlen (VtpmPolicyCommand.body p))); [by apply count_v_ok|].
  apply appends_bind; [by apply appends_marshal; [apply _ | apply u32_wire]|].
  apply appends_writes, writes_write_bytes.
Qed.

Lemma policies_append ps : Forall step_ok ps → appends (vtpm_marshal_policies ps) (concat (map step_bytes ps)).
Proof using Type.
  induction 1 as [|p ps Hp HF IH]; [apply appends_nil|].
  cbn [map concat vtpm_marshal_policies]. apply appends_bind; [by apply policy_appends | exact IH].
Qed.

Lemma list_appends ps :
  Forall step_ok ps → zlen ps ≤ u32_max → appends (vtpm_marshal_policy_list ps) (list_bytes ps).
Proof using Type.
  intros Hps Hn. pose proof (zlen_nonneg ps). unfold vtpm_marshal_policy_list, list_bytes.
  apply appends_lift with (TpmInt.new 4 (zlen ps)); [by apply count_v_ok|].
  apply appends_bind; [by apply appends_marshal; [apply _ | apply u32_wire] | by apply policies_append].
Qed.

(** A 32-bit number that was read. *)
Lemma u32_read n bs :
  wire TpmUint32 n = Some bs →
  0 ≤ TpmInt.value 4 false n ≤ u32_max ∧ n = TpmInt.new 4 (TpmInt.value 4 false n) ∧
  bs = be_encode 4 (TpmInt.value 4 false n).
Proof using Type.
  intros [-> Hl]%int_wire_Some. pose proof (in_range_u32_inv _ (value_in_range 4 false ltac:(lia) n Hl)).
  pose proof (new_value 4 false ltac:(lia) n Hl) as E. split_and!; [lia..|done|].
  rewrite <-E at 1. apply bytes_new. unfold u32_max in *. simpl. lia.
Qed.

(** Reading a step. *)
Lemma policies_step n s ps r :
  slice_ok s → vtpm_unmarshal_policies (S n) s = Ok (ps, r) ↔
  ∃ p ps' mid, ps = p :: ps' ∧ step_ok p ∧ consumes (step_bytes p) s mid ∧
    vtpm_unmarshal_policies n mid = Ok (ps', r).
Proof using Type.
  intros Hok. cbn [vtpm_unmarshal_policies]. split.
  - intros ([cc s1] & (b1 & Hcc & Hc1 & Hok1)%(unmarshal_v_sound TpmCc) & HH)%result_bind_Ok_inv; [|done].
    apply result_bind_Ok_inv in HH as ([n32 s2] & (b2 & Hn & Hc2 & Hok2)%(unmarshal_v_sound TpmUint32) & HH); [|done].
    case_match eqn:Hlen; [done|].
    apply result_bind_Ok_inv in HH as ([body mid] & Hs & HH).
    apply result_bind_Ok_inv in HH as (p & Hp & HH).
    apply result_bind_Ok_inv in HH as ([ps' r'] & Hr & [= <- <-]).
    destruct (u32_read n32 b2 Hn) as (Hv & _ & ->).
    apply split_at_Ok in Hs as (Hbl & Hba & Hc3); [|lia].
    apply from_parts_spec in Hp as (Hp & <- & Hb).
    2:{ destruct Hok2 as (? & ? & ?). unfold slice_ok. pose proof (sl_len_nonneg body). lia. }
    exists p, ps', mid. split_and!; [done..| |done].
    rewrite cc_wire in Hcc. injection Hcc as <-. rewrite <-Hb in Hc3.
    unfold step_bytes. rewrite Hb. change (zlen (sl_data body)) with (sl_len body). rewrite Hbl, <-Hb.
    eapply consumes_trans; [done|]. by eapply consumes_trans.
  - intros (p & ps' & mid & -> & Hp & Hc & Hr). pose proof (body_u32 p Hp) as Hb.
    apply consumes_split in Hc as (s1 & Hc1 & (s2 & Hc2 & Hc3)%consumes_split).
    assert (slice_ok s1) by by eapply consumes_slice_ok.
    assert (slice_ok s2) as Hok2 by by eapply consumes_slice_ok.
    rewrite (unmarshal_v_Ok TpmCc _ _ s s1 Hok (cc_wire _) Hc1); cbn [result_bind].
    rewrite (unmarshal_v_Ok TpmUint32 _ _ s1 s2 ltac:(done) (u32_wire _ Hb) Hc2); cbn [result_bind].
    rewrite value_new by (lia || by apply in_range_u32).
    pose proof (consumes_len _ _ _ Hc3) as Hl. pose proof (sl_len_nonneg mid).
    rewrite (proj2 (Z.ltb_ge _ _)) by lia. rewrite (split_at_app s2 _ mid Hc3). cbn [result_bind].
    assert (slice_ok (mk_slice (sl_addr s2) (VtpmPolicyCommand.body p))) as Hok3.
    { destruct Hok2 as (? & ? & ?). unfold slice_ok, sl_len in *. simpl. lia. }
    rewrite (proj2 (from_parts_spec _ _ p Hok3)) by done. cbn [result_bind]. by rewrite Hr.
Qed.

Lemma policies_complete ps s r :
  slice_ok s → Forall step_ok ps → consumes (concat (map step_bytes ps)) s r →
  vtpm_unmarshal_policies (length ps) s = Ok (ps, r).
Proof using Type.
  intros Hok HF. revert s Hok; induction HF as [|p ps Hp HF IH]; intros s Hok Hc.
  - simpl. by rewrite (consumes_det _ _ _ _ (consumes_refl s) Hc).
  - apply consumes_split in Hc as (mid & Hc1 & Hc2). apply policies_step; [done|].
    exists p, ps, mid. split_and!; [done..|]. apply IH; [by eapply consumes_slice_ok | done].
Qed.

Lemma policies_sound n s ps r :
  slice_ok s → vtpm_unmarshal_policies n s = Ok (ps, r) →
  length ps = n ∧ Forall step_ok ps ∧ consumes (concat (map step_bytes ps)) s r.
Proof using Type.
  revert s ps; induction n as [|n IH]; intros s ps Hok.
  - intros [= <- <-]. split_and!; [done..|apply consumes_refl].
  - intros (p & ps' & mid & -> & Hp & Hc & (<- & HF & Hc')%IH)%policies_step; [|by eapply consumes_slice_ok|done].
    split_and!; [done | by constructor | by eapply consumes_trans].
Qed.

Lemma policies_no_panic n s : slice_ok s → vtpm_unmarshal_policies n s ≠ Panic.
Proof using Type.
  revert s; induction n as [|n IH]; intros s Hok; [done|]. cbn [vtpm_unmarshal_policies].
  apply result_bind_not_Panic; [by apply unmarshal_v_no_panic; [apply _|]|].
  intros [cc s1] (b1 & _ & _ & Hok1)%(unmarshal_v_sound TpmCc); [|done].
  apply result_bind_not_Panic; [by apply unmarshal_v_no_panic; [apply _|]|].
  intros [n32 s2] (b2 & Hn & _ & Hok2)%(unmarshal_v_sound TpmUint32); [|done].
  destruct (u32_read n32 b2 Hn) as (Hv & _ & _).
  case_match; [done|]. apply result_bind_not_Panic; [apply split_at_not_Panic; lia|].
  intros [body mid] (Hbl & Hba & Hc3)%split_at_Ok; [|lia].
  apply result_bind_not_Panic.
  - apply from_parts_no_panic. destruct Hok2 as (? & ? & ?). unfold slice_ok. pose proof (sl_len_nonneg body). lia.
  - intros p _. apply result_bind_not_Panic; [|by intros []]. apply IH. by eapply consumes_slice_ok.
Qed.

(** What the reader of a list accepts. *)
Lemma list_unmarshal_spec s ps r :
  slice_ok s →
  vtpm_unmarshal_policy_list s = Ok (ps, r) ↔
  Forall step_ok ps ∧ zlen ps ≤ MAX_POLICY_COUNT ∧ consumes (list_bytes ps) s r.
Proof using Type.
  intros Hok. unfold vtpm_unmarshal_policy_list, list_bytes. split.
  - intros ([n32 mid] & (b & Hn & Hc & Hmid)%(unmarshal_v_sound TpmUint32) & HH)%result_bind_Ok_inv; [|done].
    cbv zeta in HH. case_match; [done|]. apply policies_sound in HH as (Hl & HF & Hc'); [|done].
    destruct (u32_read n32 b Hn) as (Hv & _ & ->).
    assert (zlen ps = TpmInt.value 4 false n32) as -> by (unfold zlen; rewrite Hl; lia).
    split_and!; [done | lia | by eapply consumes_trans].
  - intros (HF & Hmax & (mid & Hc1 & Hc2)%consumes_split). pose proof (zlen_nonneg ps).
    assert (0 ≤ zlen ps ≤ u32_max) as Hn by (unfold MAX_POLICY_COUNT, u32_max in *; lia).
    rewrite (unmarshal_v_Ok TpmUint32 _ _ s mid Hok (u32_wire _ Hn) Hc1); cbn [result_bind]. cbv zeta.
    rewrite value_new by (lia || by apply in_range_u32). rewrite (proj2 (Z.ltb_ge _ _)) by lia.
    unfold zlen. rewrite Nat2Z.id. apply policies_complete; [by eapply consumes_slice_ok | done..].
Qed.

(** A longer list is refused at its length. *)
Lemma list_unmarshal_many s ps r :
  slice_ok s → MAX_POLICY_COUNT < zlen ps ≤ u32_max → consumes (list_bytes ps) s r →
  vtpm_unmarshal_policy_list s = Err (VtpmError.TooManyPolicies (zlen ps)).
Proof using Type.
  intros Hok Hn (mid & Hc1 & Hc2)%consumes_split. unfold vtpm_unmarshal_policy_list.
  assert (0 ≤ zlen ps ≤ u32_max) as Hu by (unfold MAX_POLICY_COUNT, u32_max in *; lia).
  rewrite (unmarshal_v_Ok TpmUint32 _ _ s mid Hok (u32_wire _ Hu) Hc1); cbn [result_bind]. cbv zeta.
  rewrite value_new by (lia || by apply in_range_u32). by rewrite (proj2 (Z.ltb_lt _ _)) by lia.
Qed.

Lemma list_unmarshal_no_panic s : slice_ok s → vtpm_unmarshal_policy_list s ≠ Panic.
Proof using Type.
  intros Hok. apply result_bind_not_Panic; [by apply unmarshal_v_no_panic; [apply _|]|].
  intros [n32 mid] (b & _ & _ & Hmid)%(unmarshal_v_sound TpmUint32); [|done].
  cbv zeta. case_match; [done|]. by apply policies_no_panic.
Qed.
End steps.

(** ** From a command frame and back *)

(** What is kept of a command: its session handle is cleared, and of
    [PolicySecret] what belongs to one session. *)
Definition detached (c : TpmCommandValue) : option TpmCommandValue :=
  match c with
  | command_value cc v =>
      if is_default cc then Some (command_value cc (Body.mk (B:=command cc) [ZERO_HANDLE] (params v)))
      else
        match cc return body (command cc) → option TpmCommandValue with
        | TpmCc.PolicySecret => λ cmd,
            handle ← handles cmd !! 0%nat;
            Some (PolicySecret (Body.mk (B:=TpmPolicySecretCommand) [handle; ZERO_HANDLE]
              (TpmBuffer.new MAX_DIGEST_SIZE, (TpmBuffer.new MAX_DIGEST_SIZE,
               (policy_ref cmd, (TpmInt.new 4 0, tt))))))
        | _ => λ _, None
        end v
  end.

(** It has the same effect on a TPM's session, and needs no more. *)
Lemma detached_effect `{LibcryptoOk} h context trial d c c' :
  detached c = Some c' → policy_effect h context trial d c' = policy_effect h context trial d c.
Proof.
  destruct c as [cc v]. unfold detached. destruct cc; try done; cbn [is_default].
  all: try (intros [= <-]; reflexivity).
  intros (handle & Hh & [= <-])%bind_Some.
  change (policy_effect h context trial d (command_value TpmCc.PolicySecret v))
    with (policy_effect h context trial d (PolicySecret v)).
  change (handles (B:=TpmPolicySecretCommand) v !! 0%nat = Some handle) in Hh.
  rewrite !policy_effect_secret, Hh. reflexivity.
Qed.

Lemma detached_accepted authorises c c' auths :
  detached c = Some c' → authorised authorises c auths && unrestricted c = true →
  authorised authorises c' auths && unrestricted c' = true.
Proof.
  destruct c as [cc v]. unfold detached. destruct cc; try done; cbn [is_default].
  all: try (intros [= <-]; exact id).
  intros (handle & Hh & [= <-])%bind_Some. change (handles (B:=TpmPolicySecretCommand) v !! 0%nat = Some handle) in Hh.
  intros [Ha _]%andb_true_iff. apply andb_true_iff. split; [|by vm_compute].
  assert (authorised authorises (PolicySecret v) auths =
    match auths with [a] => authorises handle a | _ => false end) as E.
  { change (authorised authorises (PolicySecret v) auths) with
      (match handles (B:=TpmPolicySecretCommand) v !! 0%nat, auths with Some h, [a] => authorises h a | _, _ => false end).
    by rewrite Hh. }
  change (authorised authorises (PolicySecret v) auths = true) in Ha. rewrite E in Ha. exact Ha.
Qed.

Section frames.
Context `{Os}.

Lemma policy_from_variant s name cc p :
  TpmCommand.validate s = Ok () → TpmCommand.cc s = Ok cc →
  TpmCommand.parameters s = Ok p →
  vtpm_policy_command_from s name =
    if is_default cc then
      Ok (Default (VtpmPolicyDefaultCommand.mk cc
            (match cc with
             | TpmCc.PolicyAuthValue | TpmCc.PolicyPassword | TpmCc.PolicyGetDigest | TpmCc.PolicyRestart
             | TpmCc.PolicyPhysicalPresence => []
             | _ => sl_data p
             end)))
    else if decide (cc = TpmCc.PolicySecret) then vtpm_policy_secret_from_command s name
    else Err (VtpmError.InvalidCc cc).
Proof using Type.
  intros Hv Hcc Hp. unfold vtpm_policy_command_from.
  rewrite (proj2 (command_view_spec s (TpmCommandView.mk cc s))) by (split; [done | by exists cc]).
  cbn [map_err result_bind TpmCommandView.variant]. unfold TpmCommandView.cc. cbn [TpmCommandView.variant].
  rewrite command_CC. unfold vtpm_marshal_command_parameters. rewrite Hp. by destruct cc.
Qed.

(** The step of a command that was received in a frame, and the command it
    stands for. *)
Lemma from_frame cc v s name heap :
  slice_ok s → is_Some (wire Tpm2bName name) → 0 ≤ heap ≤ usize_max - isize_max →
  TpmCommand.unmarshal (command cc) s = Ok v →
  match detached (command_value cc v) with
  | Some c' =>
      ∃ p, vtpm_policy_command_from s name = Ok p ∧ step_ok p ∧ VtpmPolicyCommand.cc p = cc ∧
           to_command heap p = Ok c'
  | None => vtpm_policy_command_from s name = Err (VtpmError.InvalidCc cc)
  end.
Proof using Type.
  intros Hok [nb Hname] Hheap Hu. pose proof Hu as (p & Hp & Hd & Hcc & Ha & Hw)%(command_unmarshal_spec (command cc)); [|done].
  rewrite command_CC in Hcc.
  pose proof (proj2 (command_validate_format s p Hp Hd) Ha) as Hval.
  pose proof (cc_format s p Hp Hd) as Hccs. rewrite Hcc in Hccs.
  rewrite (policy_from_variant s name cc _ Hval Hccs (parameters_format s p Hp Hd)). cbn [sl_data].
  apply body_wire_Some in Hw as (Hl & Hh & Hps).
  destruct (is_default cc) eqn:Hdef; unfold detached; rewrite Hdef.
  - assert (match cc with
            | TpmCc.PolicyAuthValue | TpmCc.PolicyPassword | TpmCc.PolicyGetDigest | TpmCc.PolicyRestart
            | TpmCc.PolicyPhysicalPresence => []
            | _ => cp_params p
            end = cp_params p) as ->.
    { clear -Hps Hdef. destruct cc; try done; by injection Hps as <-. }
    set (c := VtpmPolicyDefaultCommand.mk cc (cp_params p)).
    assert (step_ok (Default c)) as Hstep by (split; [done | by exists (params v)]).
    exists (Default c). split_and!; [done..|]. apply default_command; [done..|].
    apply body_small in Hstep. change (zlen (cp_params p) ≤ TPM_MAX_COMMAND_SIZE) in Hstep.
    unfold slice_ok, sl_len, TPM_MAX_COMMAND_SIZE, usize_max, isize_max in *. simpl. lia.
  - destruct cc; try discriminate Hdef; try done. cbn [decide].
    rewrite decide_True by done. unfold vtpm_policy_secret_from_command.
    change (TpmCommand.unmarshal TpmPolicySecretCommand s) with (TpmCommand.unmarshal (command TpmCc.PolicySecret) s).
    rewrite Hu. cbn [map_err result_bind]. clear Hu Hval Hccs Ha Hd Hcc.
    destruct v as [[|handle hs] (nonce & cp_hash & pref & expiration & [])]; [done|].
    cbn [handles params lookup list_lookup or_panic mbind option_bind result_bind fst snd].
    eexists. split; [done|].
    apply seq_wire_cons in Hh as (b1 & _ & Hh & _).
    apply fields_wire_cons in Hps as (? & ? & _ & Hps & _).
    apply fields_wire_cons in Hps as (? & ? & _ & Hps & _).
    apply fields_wire_cons in Hps as (b3 & ? & Hp3 & _).
    split_and!; [|done..]. eexists. unfold VtpmPolicySecretCommand, VtpmPolicySecretCommand.codec. cbn [wire].
    unfold VtpmPolicySecretCommand.wire.
    cbn [VtpmPolicySecretCommand.object_handle_hint VtpmPolicySecretCommand.object_name VtpmPolicySecretCommand.policy_ref].
    solve_wcat.
Qed.

(** A slice that is the frame of a command. *)
Definition frame_of (s : slice) (c : TpmCommandValue) : Prop :=
  match c with command_value cc v => TpmCommand.unmarshal (command cc) s = Ok v end.

(** Which commands are kept, and how the others are refused. *)
Lemma frames_kept ss cmds name heap :
  0 ≤ heap ≤ usize_max - isize_max → is_Some (wire Tpm2bName name) →
  Forall slice_ok ss → Forall2 frame_of ss cmds →
  Forall2 (λ s c,
    if is_default (cv_variant c) || bool_decide (cv_variant c = TpmCc.PolicySecret)
    then is_ok (vtpm_policy_command_from s name) = true
    else vtpm_policy_command_from s name = Err (VtpmError.InvalidCc (cv_variant c))) ss cmds.
Proof using Type.
  intros Hheap Hname Hss Hf. induction Hf as [|s [cc v] ss cmds Hs Hf IH]; [constructor|].
  apply list.Forall_cons in Hss as [Hok Hss]. constructor; [|by apply IH]. cbn [cv_variant].
  pose proof (from_frame cc v s name heap Hok Hname Hheap Hs) as Hp. unfold detached in Hp.
  destruct (is_default cc) eqn:Hd; cbn [orb].
  - by destruct Hp as (p & -> & _).
  - case_bool_decide as Hc; [|by destruct cc]. subst cc.
    pose proof Hs as (p & _ & _ & _ & _ & Hw)%(command_unmarshal_spec (command TpmCc.PolicySecret)); [|done].
    apply body_wire_Some in Hw as (Hl & _). destruct v as [[|handle hs] ps]; [done|].
    by destruct Hp as (p' & -> & _).
Qed.

(** The steps of a sequence of commands. *)
Lemma steps_of_frames ss cmds name heap :
  0 ≤ heap ≤ usize_max - isize_max → is_Some (wire Tpm2bName name) →
  Forall slice_ok ss → Forall2 frame_of ss cmds → Forall (λ c, is_Some (detached c)) cmds →
  ∃ ps cs,
    Forall2 (λ s p, vtpm_policy_command_from s name = Ok p) ss ps ∧ Forall step_ok ps ∧
    Forall2 (λ p c, to_command heap p = Ok c) ps cs ∧ Forall2 (λ c c', detached c = Some c') cmds cs.
Proof using Type.
  intros Hheap Hname Hss Hf Hd. induction Hf as [|s [cc v] ss cmds Hs Hf IH].
  { exists [], []. split_and!; constructor. }
  inversion Hss as [|? ? Hok Hss']; inversion Hd as [|? ? [c' Hc'] Hd']; subst.
  destruct (IH Hss' Hd') as (ps & cs & H1 & H2 & H3 & H4).
  pose proof (from_frame cc v s name heap Hok Hname Hheap Hs) as Hp. rewrite Hc' in Hp.
  destruct Hp as (p & Hp & Hstep & _ & Hto). exists (p :: ps), (c' :: cs). split_and!; by constructor.
Qed.
End frames.

(** Detached commands do what the commands do. *)
Lemma detached_effects `{LibcryptoOk} h context trial cmds cs d :
  Forall2 (λ c c', detached c = Some c') cmds cs → effects h context trial d cs = effects h context trial d cmds.
Proof.
  intros Hf. revert d. induction Hf as [|c c' cmds cs Hc Hf IH]; intros d; cbn [effects]; [done|].
  rewrite (detached_effect h context trial d c c' Hc). destruct (policy_effect h context trial d c); [apply IH | done].
Qed.

Lemma detached_replay `{LibcryptoOk} h context trial authorises cmds cs auths d d' :
  Forall2 (λ c c', detached c = Some c') cmds cs →
  replay h context trial authorises d (zip cmds auths) = Some d' →
  replay h context trial authorises d (zip cs auths) = Some d'.
Proof.
  intros Hf. revert auths d. induction Hf as [|c c' cmds cs Hc Hf IH]; intros [|a auths] d; try done.
  cbn [zip zip_with replay]. unfold tpm_step. rewrite (detached_effect h context trial d c c' Hc).
  destruct (authorised authorises c _ && unrestricted c) eqn:Ha; [|done].
  rewrite (detached_accepted authorises c c' _ Hc Ha). destruct (policy_effect h context trial d c); [apply IH | done].
Qed.
