(* ===== verification/VtpmRecord.v ===== *)
(** The laws of cache records: their file names, that a file is replaced
    atomically whatever fails and whenever the machine stops, and that a
    record is read back exactly as it was written. *)

From Stdlib Require Import Ascii.
From stdpp Require Import gmap.
From S2P Require Import Prelude State Errors Writer Codec Integer Buffer Tpml Struct EnumMacro Union Enums Attributes.
From S2P Require Import BasicTypes Schemes Structures Body FrameData Dispatch Envelope Marshal Crypto Hash Text Transport.
From S2P Require Import VtpmPolicy FileSystem Vtpm VtpmPolicySpec.

(** ** File names *)

(** The handle a file is loaded as. *)
Definition name_handle (path : str) : option Z :=
  if bool_decide (extension path = Some (lit "bin")) then from_str_radix u32_max (file_stem path) 16
  else None.

Lemma no_dot_hex n z : chr "." ∉ hex_digits n z.
Proof.
  intros Hin. pose proof (hex_digits_chars n z) as HF.
  rewrite list.Forall_forall in HF. by specialize (HF _ Hin).
Qed.

Lemma record_name_split h :
  ∃ c l, hex_digits 8 h = c :: l ∧ rsplit_once (chr ".") (record_name h) = Some (c :: l, lit "bin").
Proof.
  pose proof (length_hex_digits 8 h) as Hl. destruct (hex_digits 8 h) as [|c l] eqn:E; [done|].
  exists c, l. split; [done|]. unfold record_name. rewrite E.
  change (lit ".bin") with (chr "." :: lit "bin"). apply rsplit_once_app. apply (bool_decide_unpack _). by vm_compute.
Qed.

Lemma record_name_handle h : 0 ≤ h ≤ u32_max → name_handle (record_name h) = Some h.
Proof.
  intros Hh. destruct (record_name_split h) as (c & l & E & Hs).
  unfold name_handle, extension, file_stem. rewrite Hs, bool_decide_eq_true_2 by done.
  rewrite <-E. by apply hex_digits_parse.
Qed.

Lemma record_name_inj h h' :
  0 ≤ h ≤ u32_max → 0 ≤ h' ≤ u32_max → record_name h = record_name h' → h = h'.
Proof.
  intros Hh Hh' E. apply record_name_handle in Hh, Hh'. rewrite E in Hh. congruence.
Qed.

Lemma temp_extension pid path : extension (temp_name pid path) = Some (lit "tmp").
Proof.
  unfold extension, temp_name.
  change (lit ".tmp") with ([chr "."] ++ lit "tmp"). rewrite !app_assoc, <-(app_assoc _ [chr "."]).
  rewrite (rsplit_once_app (chr ".") _ (lit "tmp")).
  - by rewrite <-!app_assoc.
  - apply (bool_decide_unpack _). by vm_compute.
Qed.

Lemma temp_name_handle pid path : name_handle (temp_name pid path) = None.
Proof. unfold name_handle. by rewrite temp_extension, bool_decide_eq_false_2. Qed.

Lemma temp_name_ne pid path : temp_name pid path ≠ path.
Proof.
  intros E. apply (f_equal length) in E. unfold temp_name in E. rewrite !length_app in E. simpl in E. lia.
Qed.

Lemma temp_not_record pid path h : 0 ≤ h ≤ u32_max → temp_name pid path ≠ record_name h.
Proof. intros Hh%record_name_handle E. by rewrite <-E, temp_name_handle in Hh. Qed.

(** ** File operations

    [tick x] is the file system after a call without an effect: the call
    has used up its entry of [faults]. *)

Section files.
Context `{Os} `{!FileErrors}.
Implicit Types x : Fs.

Definition tick x : Fs := mk_fs (files x) (tail (faults x)) (history x).

Lemma syscall_cases {A} (m : State Fs IoError A) x :
  (∃ n e, head (faults x) = Some (Some (n, e)) ∧ fs.syscall m x = (Err e, tick x)) ∨
  fs.syscall m x = m (tick x).
Proof using Type.
  destruct x as [d [|[[n e]|] fs] hist]; [by right| |by right]. left. by exists n, e.
Qed.

Lemma find_cases path x :
  fs.find path x = (Err not_found, x) ∧ files x !! path = None ∨
  ∃ f, fs.find path x = (Ok f, x) ∧ files x !! path = Some f.
Proof using Type. unfold fs.find. destruct (files x !! path) as [f|]; [right; by exists f | by left]. Qed.

(** How a call failed: by a fault, or because the file is not there. *)
Definition failed path x (e : IoError) : Prop :=
  (∃ n, head (faults x) = Some (Some (n, e))) ∨ e = not_found ∧ files x !! path = None.

Ltac by_fault n e Hf := left; exists e; split; [by left; exists n | done].

Lemma metadata_cases path x :
  (∃ e, failed path x e ∧ fs.metadata_len path x = (Err e, tick x)) ∨
  ∃ f, files x !! path = Some f ∧ fs.metadata_len path x = (Ok (zlen (contents f)), tick x).
Proof using Type.
  unfold fs.metadata_len.
  destruct (syscall_cases (let* f := fs.find path in st_ret (zlen (contents f))) x) as [(n & e & Hf & ->)| ->].
  { by_fault n e Hf. }
  unfold st_bind. destruct (find_cases path (tick x)) as [[-> Hn]|(f & -> & Hs)].
  - left. exists not_found. split; [by right | done].
  - right. by exists f.
Qed.

Lemma read_cases path x :
  (∃ e, failed path x e ∧ fs.read path x = (Err e, tick x)) ∨
  ∃ f, files x !! path = Some f ∧ fs.read path x = (Ok (contents f), tick x).
Proof using Type.
  unfold fs.read.
  destruct (syscall_cases (let* f := fs.find path in st_ret (contents f)) x) as [(n & e & Hf & ->)| ->].
  { by_fault n e Hf. }
  unfold st_bind. destruct (find_cases path (tick x)) as [[-> Hn]|(f & -> & Hs)].
  - left. exists not_found. split; [by right | done].
  - right. by exists f.
Qed.

Lemma create_cases path x :
  (∃ e, faults x ≠ [] ∧ fs.create path x = (Err e, tick x)) ∨
  fs.create path x = (Ok tt, fs.update (<[path := mk_file [] false]> (files x)) (tick x)).
Proof using Type.
  unfold fs.create. destruct (syscall_cases (λ x,
    (Ok tt, fs.update (<[path := mk_file [] false]> (files x)) x) : result IoError () * Fs) x)
    as [(n & e & Hf & ->)| ->]; [left|by right].
  exists e. split; [by intros Hn; rewrite Hn in Hf | done].
Qed.

Lemma write_cases path bytes x :
  (∃ e n, faults x ≠ [] ∧ fs.write_all path bytes x =
     (Err e, fs.update (alter (λ f, mk_file (contents f ++ take n bytes) false) path (files x)) (tick x))) ∨
  fs.write_all path bytes x =
    (Ok tt, fs.update (alter (λ f, mk_file (contents f ++ bytes) false) path (files x)) (tick x)).
Proof using Type.
  destruct x as [d [|[[n e]|] fs] hist]; [by right| |by right]. left. exists e, n. by split.
Qed.

Lemma sync_cases path x :
  (∃ e, faults x ≠ [] ∧ fs.sync_all path x = (Err e, tick x)) ∨
  fs.sync_all path x =
    (Ok tt, fs.update (alter (λ f, mk_file (contents f) true) path (files x)) (tick x)).
Proof using Type.
  destruct x as [d [|[[n e]|] fs] hist]; [by right| |by right]. left. exists e. by split.
Qed.

Lemma remove_cases path x :
  (∃ e, failed path x e ∧ fs.remove_file path x = (Err e, tick x)) ∨
  is_Some (files x !! path) ∧
  fs.remove_file path x = (Ok tt, fs.update (delete path (files x)) (tick x)).
Proof using Type.
  unfold fs.remove_file.
  destruct (syscall_cases (let* _ := fs.find path in
    λ x, (Ok tt, fs.update (delete path (files x)) x) : result IoError () * Fs) x) as [(n & e & Hf & ->)| ->].
  { by_fault n e Hf. }
  unfold st_bind. destruct (find_cases path (tick x)) as [[-> Hn]|(f & -> & Hs)].
  - left. exists not_found. split; [by right | done].
  - right. split; [by exists f | done].
Qed.

Lemma rename_cases from to f x :
  files x !! from = Some f →
  (∃ e, faults x ≠ [] ∧ fs.rename from to x = (Err e, tick x)) ∨
  fs.rename from to x = (Ok tt, fs.update (<[to := f]> (delete from (files x))) (tick x)).
Proof using Type.
  intros Hfr. unfold fs.rename.
  destruct (syscall_cases (let* f := fs.find from in
    λ x, (Ok tt, fs.update (<[to := f]> (delete from (files x))) x) : result IoError () * Fs) x)
    as [(n & e & Hf & ->)| ->].
  { left. exists e. split; [by intros Hn; rewrite Hn in Hf | done]. }
  right. unfold st_bind. destruct (find_cases from (tick x)) as [[_ Hn]|(f' & -> & Hs)].
  - simpl in Hn. congruence.
  - simpl in Hs. by simplify_eq.
Qed.

(** *** What the file system went through

    [passes P x x']: the directories between [x] and [x'] satisfy [P], and
    some faults were used up. *)

Definition passes (P : directory → Prop) x x' : Prop :=
  (∃ ds, states x' = ds ++ states x ∧ Forall P ds) ∧ ∃ k, faults x' = drop k (faults x).

Lemma passes_refl P x : passes P x x.
Proof using Type. split; [by exists [] | by exists 0%nat]. Qed.

Lemma passes_trans P x1 x2 x3 : passes P x1 x2 → passes P x2 x3 → passes P x1 x3.
Proof using Type.
  intros [(ds1 & E1 & H1) (k1 & F1)] [(ds2 & E2 & H2) (k2 & F2)]. split.
  - exists (ds2 ++ ds1). rewrite E2, E1, app_assoc. split; [done|]. by apply Forall_app.
  - exists (k1 + k2)%nat. by rewrite F2, F1, drop_drop.
Qed.

Lemma passes_tick P x : passes P x (tick x).
Proof using Type. split; [by exists [] | exists 1%nat; simpl; by destruct (faults x)]. Qed.

Lemma passes_update (P : directory → Prop) d x : P d → passes P x (fs.update d (tick x)).
Proof using Type. split; [exists [d]; by split; [|constructor] | exists 1%nat; simpl; by destruct (faults x)]. Qed.

Lemma passes_impl (P Q : directory → Prop) x x' : (∀ d, P d → Q d) → passes P x x' → passes Q x x'.
Proof using Type.
  intros HPQ [(ds & E & HF) Hk]. split; [|done]. exists ds. split; [done|].
  by eapply list.Forall_impl.
Qed.

(** The directory at the end is one of them. *)
Lemma passes_files (P : directory → Prop) x x' : P (files x) → passes P x x' → P (files x').
Proof using Type.
  intros HP [(ds & E & HF) _]. destruct ds as [|d ds].
  - by injection E as -> _.
  - injection E as -> _. by inversion HF.
Qed.

Lemma passes_no_faults P x x' : passes P x x' → faults x = [] → faults x' = [].
Proof using Type. intros [_ (k & ->)] ->. apply drop_nil. Qed.
End files.

(** ** Atomic writes *)

Section write_atomic.
Context `{Os} `{!FileErrors} `{!MapOrder} `{!Libcrypto}.
Variable pid : Z.
Implicit Types x : Fs.

(** A directory in the course of replacing [path]: outside the temporary
    file it is [old], with or without the new file. *)
Definition replacing (path : str) (bytes : list byte) (old d : directory) : Prop :=
  ∀ p, p ≠ temp_name pid path →
  d !! p = old !! p ∨ p = path ∧ d !! p = Some (mk_file bytes true).

(** A change of the temporary file only. *)
Lemma replacing_temp path bytes old d :
  (∀ p, p ≠ temp_name pid path → d !! p = old !! p) → replacing path bytes old d.
Proof using Type. intros Hd p Hp. left. by apply Hd. Qed.

Section write.
Variables (path : str) (bytes : list byte) (x : Fs).
Local Abbreviation temp := (temp_name pid path).
Local Abbreviation P := (replacing path bytes (files x)).

(** So far only the temporary file was touched. *)
Definition only_temp y : Prop := (∀ p, p ≠ temp → files y !! p = files x !! p) ∧ passes P x y.

Lemma only_temp_tick y : only_temp y → only_temp (tick y).
Proof using Type. intros [Hx1 Hx2]. split; [done|]. eapply passes_trans; [done | apply passes_tick]. Qed.

Lemma only_temp_update y d :
  only_temp y → (∀ p, p ≠ temp → d !! p = files y !! p) → only_temp (fs.update d (tick y)).
Proof using Type.
  intros [Hx1 Hx2] Hd. assert (∀ p, p ≠ temp → d !! p = files x !! p) by (intros; by rewrite Hd, Hx1).
  split; [done|]. eapply passes_trans; [done|]. by apply passes_update, replacing_temp.
Qed.

Lemma only_temp_faults y : only_temp y → faults y ≠ [] → faults x ≠ [].
Proof using Type. intros [_ Hp] Hy E. by apply Hy, (passes_no_faults P x). Qed.

Lemma write_temp_spec :
  let '(r, y) := write_temp temp bytes x in
  only_temp y ∧
  match r with
  | Ok _ => files y !! temp = Some (mk_file bytes true)
  | Err _ => faults x ≠ []
  | Panic => False
  end.
Proof using Type.
  assert (only_temp x) as Hx0 by (split; [done | apply passes_refl]).
  unfold write_temp, st_bind. destruct (create_cases temp x) as [(e & Hf & ->)| ->].
  { split; [by apply only_temp_tick | done]. }
  set (x1 := fs.update _ _).
  assert (only_temp x1) as Hx1 by (apply only_temp_update; [done|]; intros; by rewrite lookup_insert_ne).
  destruct (write_cases temp bytes x1) as [(e & n & Hf & ->)| ->].
  { split; [|by eapply only_temp_faults]. apply only_temp_update; [done|].
    intros. by rewrite lookup_alter_ne. }
  set (x2 := fs.update _ (tick x1)).
  assert (only_temp x2) as Hx2 by (apply only_temp_update; [done|]; intros; by rewrite lookup_alter_ne).
  assert (files x2 !! temp = Some (mk_file bytes false)) as E2.
  { unfold x2, x1. cbn [fs.update files tick]. by rewrite lookup_alter_eq, lookup_insert_eq. }
  clearbody x2. destruct (sync_cases temp x2) as [(e & Hf & ->)| ->].
  { split; [by apply only_temp_tick | by eapply only_temp_faults]. }
  split; [apply only_temp_update; [done|]; intros; by rewrite lookup_alter_ne|].
  cbn [fs.update files]. by rewrite lookup_alter_eq, E2.
Qed.

(** What [write_atomic] leaves. *)
Definition written (r : result VtpmError.t ()) y : Prop :=
  passes P x y ∧
  match r with
  | Ok _ => (∀ p, p ≠ temp → p ≠ path → files y !! p = files x !! p) ∧
            files y !! path = Some (mk_file bytes true)
  | Err e => (∃ e', e = VtpmError.Io e') ∧ faults x ≠ [] ∧
             ∀ p, p ≠ temp → files y !! p = files x !! p
  | Panic => False
  end.

(** Giving up: the temporary file is discarded. *)
Lemma write_aborts e y :
  only_temp y → faults x ≠ [] →
  let '(r, z) := (let (_, z) := fs.remove_file temp y in (Err (VtpmError.Io e) : result VtpmError.t (), z)) in
  written r z.
Proof using Type.
  intros Hy Hf. destruct (remove_cases temp y) as [(e' & _ & ->)|[_ ->]].
  - apply only_temp_tick in Hy as [? ?]. split_and!; [done | by eexists | done..].
  - assert (only_temp (fs.update (delete temp (files y)) (tick y))) as [? ?].
    { apply only_temp_update; [done|]. intros. by rewrite lookup_delete_ne. }
    split_and!; [done | by eexists | done..].
Qed.

(** The new file is there at once and complete, or the old one stays: also in
    every directory in between. *)
Lemma write_atomic_spec : let '(r, y) := write_atomic pid path bytes x in written r y.
Proof using Type.
  unfold write_atomic. cbv zeta. pose proof write_temp_spec as Hw.
  destruct (write_temp temp bytes x) as [[[]|e|] y], Hw as [Hy Hr]; [|by apply write_aborts|done].
  destruct (rename_cases temp path _ y Hr) as [(e & Hf & ->)| ->].
  { apply write_aborts; [by apply only_temp_tick | by eapply only_temp_faults]. }
  destruct Hy as [Hout Hp].
  assert (∀ p, p ≠ temp → p ≠ path → <[path := mk_file bytes true]> (delete temp (files y)) !! p = files x !! p) as Hd.
  { intros p Hx1 Hx2. rewrite lookup_insert_ne, lookup_delete_ne by done. by apply Hout. }
  split_and!; [|done|by cbn; rewrite lookup_insert_eq].
  eapply passes_trans; [done|]. apply passes_update. intros p Hne.
  destruct (decide (p = path)) as [->|]; [right; by rewrite lookup_insert_eq | left; by apply Hd].
Qed.
End write.
End write_atomic.

(** ** Records *)

Section record.
Context `{Os}.
Implicit Types k : VtpmKey.t.

(** The record of a key. *)
Definition record_wire k : option (list byte) :=
  wire TpmUint32 (VtpmKey.version k) +++ wire TpmHandle (VtpmKey.handle k) +++
  wire TpmtPublic (VtpmKey.public k) +++ wire TpmtPublic (VtpmKey.parent k) +++
  wire TpmsContext (VtpmKey.context k) +++ Some (list_bytes (VtpmKey.policy k)).

(** A key the cache can have: its parts can be encoded, and its policy
    consists of well-formed steps. *)
Definition key_ok k : Prop :=
  VtpmKey.version k = TpmInt.new 4 VERSION ∧ is_Some (wire TpmHandle (VtpmKey.handle k)) ∧
  is_Some (wire TpmtPublic (VtpmKey.public k)) ∧ is_Some (wire TpmtPublic (VtpmKey.parent k)) ∧
  is_Some (wire TpmsContext (VtpmKey.context k)) ∧ Forall step_ok (VtpmKey.policy k).

Definition record_bytes k : list byte := default [] (record_wire k).

Lemma key_ok_wire k : key_ok k → record_wire k = Some (record_bytes k).
Proof using Type.
  intros (Hv & [b2 H2] & [b3 H3] & [b4 H4] & [b5 H5] & _).
  assert (is_Some (record_wire k)) as [bs E]; [|by unfold record_bytes; rewrite E].
  unfold record_wire. rewrite Hv, (u32_wire VERSION), H2, H3, H4, H5 by done. by eexists.
Qed.

(** The size of a record, by the number of its policy commands. *)
Lemma list_bytes_bound ps : Forall step_ok ps → zlen (list_bytes ps) ≤ 4 + zlen ps * (8 + TPM_MAX_COMMAND_SIZE).
Proof using Type.
  intros HF. unfold list_bytes. rewrite zlen_app, zlen_be4.
  assert (zlen (concat (map step_bytes ps)) ≤ zlen ps * (8 + TPM_MAX_COMMAND_SIZE)); [|lia].
  induction HF as [|p ps Hp HF IH]; [done|]. cbn [map concat]. rewrite zlen_app.
  assert (zlen (p :: ps) = 1 + zlen ps) as -> by (unfold zlen; simpl; lia).
  apply body_small in Hp. unfold step_bytes at 1. rewrite !zlen_app, !zlen_be4. lia.
Qed.

Lemma record_bytes_bound k :
  key_ok k → zlen (record_bytes k) ≤ 16 * 1024 + zlen (VtpmKey.policy k) * (8 + TPM_MAX_COMMAND_SIZE).
Proof using Type.
  intros Hk. pose proof (key_ok_wire k Hk) as Hw. destruct Hk as (_ & _ & _ & _ & _ & HF%list_bytes_bound).
  unfold record_wire in Hw. wire_inv. rewrite <-Hw, !zlen_app.
  assert (wire_max TpmUint32 + wire_max TpmHandle + wire_max TpmtPublic + wire_max TpmtPublic +
    wire_max TpmsContext + 4 ≤ 16 * 1024) by by apply Z.leb_le; vm_compute.
  repeat match goal with Hv : wire _ _ = Some _ |- _ => apply wire_max_le in Hv end. lia.
Qed.

(** A key that can be saved. *)
Definition storable k : Prop := key_ok k ∧ zlen (VtpmKey.policy k) ≤ u32_max.

(** What [save] writes. *)
Lemma marshal_record_spec k : storable k → marshal_record k = Ok (record_bytes k).
Proof using Type.
  intros [Hk Hn]. pose proof (record_bytes_bound k Hk) as Hb.
  assert (zlen (record_bytes k) ≤ isize_max) as Hmax
    by (unfold u32_max, isize_max, TPM_MAX_COMMAND_SIZE in *; lia). clear Hb.
  pose proof (key_ok_wire k Hk) as Hw. set (bs := record_bytes k) in *.
  destruct Hk as (_ & _ & _ & _ & _ & Hsteps). unfold record_wire in Hw.
  assert (serialized_len k = zlen bs) as Hlen.
  { unfold serialized_len. wire_inv. rewrite <-Hw, !zlen_app. erewrite !wire_len by done.
    unfold list_bytes. rewrite zlen_app, zlen_be4. clear -Hsteps.
    assert (foldr Z.add 0 (map VtpmPolicyCommand.len (VtpmKey.policy k)) =
      zlen (concat (map step_bytes (VtpmKey.policy k)))) as ->; [|lia].
    induction Hsteps as [|p ps Hp HF IH]; [done|]. cbn [map foldr concat].
    by rewrite IH, zlen_app, (step_len p Hp). }
  set (w := writer_new (TpmHash.zeroed (serialized_len k))).
  pose proof (zlen_nonneg bs).
  assert (capacity w = zlen bs) as Hcap.
  { unfold capacity, w. simpl. rewrite Hlen. apply zlen_zeroed. lia. }
  assert (writer_ok w) as Hok by (unfold writer_ok; rewrite Hcap; simpl; lia).
  unfold marshal_record. fold w.
  match goal with |- context [let (_, _) := ?m w in _] =>
    assert (appends m bs) as Ha end.
  { wire_inv. rewrite <-Hw. repeat (apply appends_bind; [by apply appends_marshal; [apply _|]|]).
    by apply list_appends. }
  rewrite Ha; [|done|unfold room; rewrite Hcap; simpl; lia]. cbn [result_bind].
  f_equal. change (as_bytes (put w bs) = bs). by rewrite put_as_bytes.
Qed.

(** A key that is read back: [load] takes at most 16 policy commands. *)
Definition loadable k : Prop := key_ok k ∧ zlen (VtpmKey.policy k) ≤ MAX_POLICY_COUNT.

(** A key that survives: its record is accepted when the cache is opened. *)
Definition keepable k : Prop := loadable k ∧ zlen (record_bytes k) ≤ MAX_RECORD_SIZE.

Lemma keepable_storable k : keepable k → storable k.
Proof using Type. intros [[Hk Hn] _]. split; [done|]. unfold MAX_POLICY_COUNT, u32_max in *. lia. Qed.

(** Whether a key that can be saved survives. *)
Definition fits k : bool :=
  (zlen (VtpmKey.policy k) <=? MAX_POLICY_COUNT) && (zlen (record_bytes k) <=? MAX_RECORD_SIZE).

Lemma fits_keepable k : storable k → fits k = true ↔ keepable k.
Proof using Type.
  intros [Hk _]. unfold fits, keepable, loadable. rewrite andb_true_iff, !Z.leb_le. tauto.
Qed.

Lemma keepable_fits k : keepable k → fits k = true.
Proof using Type. intros Hk. by apply fits_keepable; [apply keepable_storable|]. Qed.

(** [load] accepts exactly the records of loadable keys of its handle. *)
Lemma load_record_spec s h k :
  slice_ok s →
  load_record s h = Ok k ↔
  loadable k ∧ VtpmCache.hv (VtpmKey.handle k) = h ∧ sl_data s = record_bytes k.
Proof using Type.
  intros Hok. unfold load_record. split.
  - intros ([version s1] & Hu%map_err_Ok_inv & HH)%result_bind_Ok_inv.
    apply (unmarshal_sound (c:=TpmUint32)) in Hu as (b1 & Hw1 & Hc1); [|done].
    assert (slice_ok s1) as Hok1 by by eapply consumes_slice_ok.
    destruct (TpmInt.value 4 false version =? VERSION) eqn:Hv; [|done]. cbn [negb] in HH.
    apply result_bind_Ok_inv in HH as ([handle s2] & (b2 & Hw2 & Hc2 & Hok2)%(unmarshal_v_sound TpmHandle) & HH); [|done].
    destruct (TpmInt.value 4 false handle =? h) eqn:Hh; [|done]. cbn [negb] in HH.
    apply result_bind_Ok_inv in HH as ([public s3] & (b3 & Hw3 & Hc3 & Hok3)%(unmarshal_v_sound TpmtPublic) & HH); [|done].
    apply result_bind_Ok_inv in HH as ([parent s4] & (b4 & Hw4 & Hc4 & Hok4)%(unmarshal_v_sound TpmtPublic) & HH); [|done].
    apply result_bind_Ok_inv in HH as ([context s5] & (b5 & Hw5 & Hc5 & Hok5)%(unmarshal_v_sound TpmsContext) & HH); [|done].
    apply result_bind_Ok_inv in HH as ([policy s6] & (Hsteps & Hn & Hc6)%list_unmarshal_spec & HH); [|done].
    destruct (sl_is_empty s6) eqn:He; [|by unfold usub in HH; destruct (checked_sub _ _)].
    cbn [negb] in HH. injection HH as <-.
    apply Z.eqb_eq in Hv, Hh. destruct (u32_read version b1 Hw1) as (_ & Hver & _). rewrite Hv in Hver.
    split; [split; [by split_and!; try by eexists | done]|]. split; [done|].
    assert (sl_data s6 = []) as E6.
    { destruct (sl_data s6) as [|] eqn:E6; [done|]. unfold sl_is_empty, sl_len in He. rewrite E6 in He.
      unfold zlen in He. simpl in He. lia. }
    assert (consumes (b1 ++ b2 ++ b3 ++ b4 ++ b5 ++ list_bytes policy) s s6) as [Hd _] by consume_all.
    rewrite E6, app_nil_r in Hd. rewrite Hd. unfold record_bytes, record_wire.
    cbn [VtpmKey.version VtpmKey.handle VtpmKey.public VtpmKey.parent VtpmKey.context VtpmKey.policy].
    by rewrite Hw1, Hw2, Hw3, Hw4, Hw5.
  - intros ((Hk & Hn) & Hh & Hd). pose proof (key_ok_wire k Hk) as Hw. rewrite <-Hd in Hw.
    assert (∃ e, consumes (sl_data s) s e ∧ sl_data e = []) as (e & Hc & He).
    { exists (mk_slice (sl_addr s + zlen (sl_data s)) []). split; [|done]. by split; [rewrite app_nil_r|]. }
    clear Hd. generalize dependent (sl_data s). intros bs Hw Hc.
    destruct k as [version handle public parent context policy], Hk as (Hver & _ & _ & _ & _ & Hsteps).
    unfold record_wire in Hw.
    cbn [VtpmKey.version VtpmKey.handle VtpmKey.public VtpmKey.parent VtpmKey.context VtpmKey.policy] in *.
    wire_inv. subst.
    unfold unmarshal_v. repeat (read_step; cbn [map_err]).
    cbn [result_bind]. rewrite value_new by (lia || by apply in_range_u32). rewrite Z.eqb_refl. cbn [negb].
    repeat (read_step; cbn [map_err result_bind]). unfold VtpmCache.hv. rewrite Z.eqb_refl. cbn [negb].
    repeat (read_step; cbn [map_err result_bind]).
    match goal with |- context [vtpm_unmarshal_policy_list ?m] =>
      rewrite (proj2 (list_unmarshal_spec m policy e ltac:(done))) by done end. cbn [result_bind].
    unfold sl_is_empty, sl_len. by rewrite He.
Qed.

(** Two encodings in front of the same bytes *)
Lemma wire_peel (c : Codec) `{!CodecOk c} (v v' : ty c) b b' r r' :
  wire c v = Some b → wire c v' = Some b' → b ++ r = b' ++ r' → zlen (b ++ r) ≤ isize_max →
  v = v' ∧ r = r' ∧ zlen r ≤ isize_max.
Proof using Type.
  intros Hw Hw' E Hl. set (s := mk_slice 0 (b ++ r)).
  assert (slice_ok s) as Hok.
  { unfold slice_ok, sl_len, s. cbn [sl_addr sl_data]. unfold usize_max, isize_max in *. pose proof (zlen_nonneg (b ++ r)). lia. }
  assert (unmarshal c s = Ok (v, mk_slice (0 + zlen b) r)) as H1 by by apply (unmarshal_wire v b); [| |split].
  assert (unmarshal c s = Ok (v', mk_slice (0 + zlen b') r')) as H2.
  { apply (unmarshal_wire v' b'); [done..|]. split; [|done]. exact E. }
  rewrite H1 in H2. injection H2 as -> _ ->. split_and!; [done..|].
  rewrite zlen_app in Hl. pose proof (zlen_nonneg b). lia.
Qed.

Lemma record_split k : key_ok k →
  ∃ b1 b2 b3 b4 b5, wire TpmUint32 (VtpmKey.version k) = Some b1 ∧ wire TpmHandle (VtpmKey.handle k) = Some b2 ∧
    wire TpmtPublic (VtpmKey.public k) = Some b3 ∧ wire TpmtPublic (VtpmKey.parent k) = Some b4 ∧
    wire TpmsContext (VtpmKey.context k) = Some b5 ∧
    record_bytes k = b1 ++ b2 ++ b3 ++ b4 ++ b5 ++ list_bytes (VtpmKey.policy k).
Proof using Type.
  intros Hk%key_ok_wire. unfold record_wire in Hk. generalize dependent (record_bytes k). intros bs Hk.
  wire_inv. subst. by do 5 eexists.
Qed.

(** A record says whose it is. *)
Lemma record_inj k k' : storable k → loadable k' → record_bytes k = record_bytes k' → k = k'.
Proof using All.
  intros [Hk Hn] [Hk' Hn'] E.
  assert (zlen (record_bytes k) ≤ isize_max) as Hl.
  { pose proof (record_bytes_bound k Hk). unfold u32_max, isize_max, TPM_MAX_COMMAND_SIZE in *. lia. }
  assert (zlen (VtpmKey.policy k) = zlen (VtpmKey.policy k')) as Hlen.
  { destruct (record_split k Hk) as (b1 & b2 & b3 & b4 & b5 & H1 & H2 & H3 & H4 & H5 & R).
    destruct (record_split k' Hk') as (c1 & c2 & c3 & c4 & c5 & I1 & I2 & I3 & I4 & I5 & R').
    rewrite R, R' in E. rewrite R in Hl. clear R R'.
    apply (wire_peel TpmUint32 _ _ _ _ _ _ H1 I1) in E as (_ & E & Hl1); [|done].
    apply (wire_peel TpmHandle _ _ _ _ _ _ H2 I2) in E as (_ & E & Hl2); [|done].
    apply (wire_peel TpmtPublic _ _ _ _ _ _ H3 I3) in E as (_ & E & Hl3); [|done].
    apply (wire_peel TpmtPublic _ _ _ _ _ _ H4 I4) in E as (_ & E & Hl4); [|done].
    apply (wire_peel TpmsContext _ _ _ _ _ _ H5 I5) in E as (_ & E & _); [|done].
    unfold list_bytes in E. apply app_inj_1 in E as [E _]; [|by rewrite !length_be_encode].
    apply (f_equal be_decode) in E. unfold MAX_POLICY_COUNT, u32_max in *.
    pose proof (zlen_nonneg (VtpmKey.policy k)). pose proof (zlen_nonneg (VtpmKey.policy k')).
    by rewrite !be_decode_encode in E by lia. }
  set (s := mk_slice 0 (record_bytes k)).
  assert (slice_ok s) as Hok.
  { unfold slice_ok, sl_len, s. cbn [sl_addr sl_data]. unfold usize_max, isize_max in *. pose proof (zlen_nonneg (record_bytes k)). lia. }
  assert (load_record s (VtpmCache.hv (VtpmKey.handle k)) = Ok k) as L1.
  { apply load_record_spec; [done|]. split; [|done]. split; [done | by rewrite Hlen]. }
  assert (VtpmCache.hv (VtpmKey.handle k) = VtpmCache.hv (VtpmKey.handle k')) as Hh.
  { destruct (record_split k Hk) as (b1 & b2 & b3 & b4 & b5 & H1 & H2 & H3 & H4 & H5 & R).
    destruct (record_split k' Hk') as (c1 & c2 & c3 & c4 & c5 & I1 & I2 & I3 & I4 & I5 & R').
    rewrite R, R' in E. rewrite R in Hl.
    apply (wire_peel TpmUint32 _ _ _ _ _ _ H1 I1) in E as (_ & E & Hl1); [|done].
    by apply (wire_peel TpmHandle _ _ _ _ _ _ H2 I2) in E as (-> & _ & _). }
  assert (load_record s (VtpmCache.hv (VtpmKey.handle k)) = Ok k') as L2.
  { by apply load_record_spec; [|split; [|split]]. }
  congruence.
Qed.
End record.

(** ** Loading, saving and deleting files *)

Section load_save.
Context `{Os} `{!FileErrors} `{!MapOrder} `{!Libcrypto}.
Variables (pid heap : Z).
Hypothesis Hheap : 0 ≤ heap ≤ usize_max - isize_max.
Implicit Types (x : Fs) (k : VtpmKey.t).

Lemma heap_slice_ok bs : zlen bs ≤ isize_max → slice_ok (mk_slice heap bs).
Proof using Hheap. intros. unfold slice_ok, sl_len, usize_max, isize_max in *. simpl. lia. Qed.

Lemma load_record_no_panic s h : slice_ok s → load_record s h ≠ Panic.
Proof using Type.
  intros Hok. unfold load_record.
  apply result_bind_not_Panic; [by apply map_err_not_Panic, unmarshal_no_panic|].
  intros [version s1] (b1 & _ & Hc1)%map_err_Ok_inv%unmarshal_sound; [|done].
  assert (slice_ok s1) as Hok1 by by eapply consumes_slice_ok.
  case_match; [done|]. apply result_bind_not_Panic; [by apply unmarshal_v_no_panic; [apply _|]|].
  intros [handle s2] (b2 & _ & Hc2 & Hok2)%(unmarshal_v_sound TpmHandle); [|done].
  case_match; [done|]. apply result_bind_not_Panic; [by apply unmarshal_v_no_panic; [apply _|]|].
  intros [public s3] (b3 & _ & Hc3 & Hok3)%(unmarshal_v_sound TpmtPublic); [|done].
  apply result_bind_not_Panic; [by apply unmarshal_v_no_panic; [apply _|]|].
  intros [parent s4] (b4 & _ & Hc4 & Hok4)%(unmarshal_v_sound TpmtPublic); [|done].
  apply result_bind_not_Panic; [by apply unmarshal_v_no_panic; [apply _|]|].
  intros [context s5] (b5 & _ & Hc5 & Hok5)%(unmarshal_v_sound TpmsContext); [|done].
  apply result_bind_not_Panic; [by apply list_unmarshal_no_panic|].
  intros [policy s6] (_ & _ & Hc6)%list_unmarshal_spec; [|done].
  case_match; [|done]. rewrite usub_Ok; [done|].
  repeat match goal with Hc : consumes _ _ _ |- _ => apply consumes_len in Hc end.
  pose proof (zlen_nonneg b1). pose proof (zlen_nonneg b2). pose proof (zlen_nonneg b3).
  pose proof (zlen_nonneg b4). pose proof (zlen_nonneg b5). pose proof (zlen_nonneg (list_bytes policy)). lia.
Qed.

(** What a file is loaded as. *)
Definition loads (d : directory) (path : str) (h : Z) : option VtpmKey.t :=
  f ← d !! path;
  if MAX_RECORD_SIZE <? zlen (contents f) then None
  else match load_record (mk_slice heap (contents f)) h with Ok k => Some k | _ => None end.

Lemma loads_Some d path h k :
  loads d path h = Some k ↔
  ∃ f, d !! path = Some f ∧ contents f = record_bytes k ∧ keepable k ∧ VtpmCache.hv (VtpmKey.handle k) = h.
Proof using Hheap.
  unfold loads. split.
  - intros (f & Hf & HH)%bind_Some. exists f. case_match eqn:Hl; [done|].
    destruct (load_record _ h) as [k'| |] eqn:Hr; try done. injection HH as ->.
    apply load_record_spec in Hr as (? & ? & E);
      [|apply heap_slice_ok; unfold MAX_RECORD_SIZE, isize_max in *; lia].
    simpl in E. rewrite E in *. split_and!; [done..|split; [done|lia]|done].
  - intros (f & -> & Hc & [Hk Hl] & Hh). simpl. rewrite Hc, (proj2 (Z.ltb_ge _ _)) by lia.
    assert (slice_ok (mk_slice heap (record_bytes k))) as Hok
      by (apply heap_slice_ok; unfold MAX_RECORD_SIZE, isize_max in *; lia).
    by rewrite (proj2 (load_record_spec _ h k Hok)).
Qed.

(** What the file of a key is loaded as: the key, unless it does not fit. *)
Lemma loads_stored d path f k :
  d !! path = Some f → contents f = record_bytes k → storable k →
  loads d path (VtpmCache.hv (VtpmKey.handle k)) = if fits k then Some k else None.
Proof using Hheap.
  intros Hf Hc Hk. destruct (fits k) eqn:Hfit.
  - apply loads_Some. exists f. apply fits_keepable in Hfit; [|done]. done.
  - destruct (loads d path _) as [k'|] eqn:Hl; [|done]. exfalso.
    apply loads_Some in Hl as (f' & Hf' & Hc' & Hk' & _). simplify_eq.
    assert (k = k') as <- by (apply record_inj; [done | apply Hk' | congruence]).
    apply keepable_fits in Hk'. congruence.
Qed.

(** No directory but the ones before. *)
Abbreviation unchanged := (passes (λ _, False)).

Lemma unchanged_eq x x' : unchanged x x' → files x' = files x ∧ history x' = history x.
Proof using Type.
  intros [([|d ds] & E & HF) _]; [|by inversion HF]. by injection E as -> ->.
Qed.

Lemma load_key_spec path h x :
  let '(r, y) := load_key heap path h x in
  unchanged x y ∧
  match r with
  | Ok k => loads (files x) path h = Some k
  | Err _ => faults x ≠ [] ∨ loads (files x) path h = None
  | Panic => False
  end.
Proof using Hheap.
  assert (∀ z e, failed path z e → faults z ≠ [] ∨ files z !! path = None) as Hfail.
  { intros z e [[n Hf]|[_ Hn]]; [left; by intros E; rewrite E in Hf | by right]. }
  unfold load_key, io, st_bind, st_map_err.
  destruct (metadata_cases path x) as [(e & He%Hfail & ->)|(f & Hf & ->)].
  { split; [apply passes_tick|]. destruct He as [?|Hn]; [by left | right]. unfold loads. by rewrite Hn. }
  cbn [map_err]. destruct (MAX_RECORD_SIZE <? zlen (contents f)) eqn:Hl.
  { split; [apply passes_tick|]. right. unfold loads. rewrite Hf. simpl. by rewrite Hl. }
  destruct (read_cases path (tick x)) as [(e & He%Hfail & ->)|(f' & Hf' & ->)].
  - split; [eapply passes_trans; apply passes_tick|]. left.
    destruct He as [Hne|Hn]; [|simpl in Hn; congruence]. simpl in Hne. by intros E; rewrite E in Hne.
  - cbn [map_err]. simpl in Hf'. simplify_eq. unfold st_lift.
    assert (slice_ok (mk_slice heap (contents f))) as Hok
      by (apply heap_slice_ok; unfold MAX_RECORD_SIZE, isize_max in *; lia).
    split; [eapply passes_trans; apply passes_tick|]. unfold loads. rewrite Hf. simpl. rewrite Hl.
    pose proof (load_record_no_panic _ h Hok). destruct (load_record _ h); [done | by right | done].
Qed.

Lemma save_key_eq k path x : storable k → save_key pid k path x = write_atomic pid path (record_bytes k) x.
Proof using Type. intros Hk. unfold save_key, st_bind, st_lift. by rewrite marshal_record_spec. Qed.

(** No fault says that a file is not there. *)
Definition honest x : Prop :=
  Forall (λ f, match f with Some (_, e) => io_kind e ≠ NotFoundKind | None => True end) (faults x).

Lemma honest_passes P x y : passes P x y → honest x → honest y.
Proof using Type. intros [_ (n & E)]. unfold honest. rewrite E. apply Forall_drop. Qed.

Lemma delete_key_spec k x :
  let name := record_name (VtpmCache.hv (VtpmKey.handle k)) in
  let '(r, y) := delete_key k x in
  passes (λ d, d = delete name (files x)) x y ∧
  match r with
  | Ok _ => honest x → files y = delete name (files x)
  | Err e => (∃ e', e = VtpmError.Io e') ∧ faults x ≠ [] ∧ files y = files x
  | Panic => False
  end.
Proof using Type.
  cbv zeta. unfold delete_key.
  change (TpmInt.value 4 false (VtpmKey.handle k)) with (VtpmCache.hv (VtpmKey.handle k)).
  set (name := record_name _). destruct (remove_cases name x) as [(e & He & ->)|[_ ->]].
  - case_decide as Hk; (split; [apply passes_tick|]).
    + intros Hh. destruct He as [[n Hf]|[_ Hn]]; [|simpl; by rewrite delete_id].
      destruct (faults x) as [|f fs] eqn:E; [done|]. injection Hf as ->.
      unfold honest in Hh. rewrite E in Hh. by inversion Hh.
    + split; [by eexists|]. split; [|done]. destruct He as [[n Hf]|[-> _]]; [|by rewrite not_found_kind in Hk].
      by intros E; rewrite E in Hf.
  - split; [by apply passes_update | done].
Qed.
End load_save.
