(* ===== verification/VtpmSpec.v ===== *)
(** The laws of the key cache: its invariant, what insertion, lookup and
    removal do to it, and the ancestors of a key. *)

From stdpp Require Import gmap relations.
From S2P Require Import Prelude State Errors Writer Codec Integer Buffer Tpml Struct EnumMacro Union Enums Attributes.
From S2P Require Import BasicTypes Schemes Structures Body FrameData Dispatch Envelope Marshal Crypto Hash Text Transport.
From S2P Require Import VtpmPolicy FileSystem Vtpm VtpmPolicySpec VtpmRecord.
Import VtpmCache.

(** ** Handles *)

(** A handle a key can be cached under: transient or persistent. *)
Definition is_slot (h : Z) : Prop := TRANSIENT_START ≤ h ≤ 0x81FFFFFF.

Lemma slot_u32 h : is_slot h → 0 ≤ h ≤ u32_max.
Proof. unfold is_slot, TRANSIENT_START, u32_max. lia. Qed.

Lemma handle_type_div h : 0 ≤ h ≤ u32_max → handle_type h = h / 2 ^ 24.
Proof.
  intros Hh. unfold handle_type. rewrite Z.shiftr_div_pow2 by lia.
  apply Z.mod_small. split; [apply Z.div_pos; lia | apply Z.div_lt_upper_bound; unfold u32_max in *; lia].
Qed.

Lemma slot_type h : 0 ≤ h ≤ u32_max →
  is_slot h ↔ handle_type h = value TpmHt.Transient ∨ handle_type h = value TpmHt.Persistent.
Proof.
  intros Hh. rewrite handle_type_div by done. change (value TpmHt.Transient) with 128.
  change (value TpmHt.Persistent) with 129. unfold is_slot, TRANSIENT_START.
  pose proof (Z.div_mod h (2 ^ 24) ltac:(lia)). pose proof (Z.mod_pos_bound h (2 ^ 24) ltac:(lia)). lia.
Qed.

Lemma hv_th h : 0 ≤ h ≤ u32_max → hv (th h) = h.
Proof. intros. unfold hv, th. by rewrite value_new by (lia || by apply in_range_u32). Qed.

Lemma th_hv i : is_Some (wire TpmHandle i) → th (hv i) = i ∧ 0 ≤ hv i ≤ u32_max.
Proof. intros [bs (Hv & E & _)%u32_read]. split; [by symmetry | done]. Qed.

Lemma th_wire h : 0 ≤ h ≤ u32_max → is_Some (wire TpmHandle (th h)).
Proof. intros. eexists. by apply u32_wire. Qed.

Lemma next_handle_range h : is_slot h → TRANSIENT_START ≤ next_handle h ≤ TRANSIENT_END.
Proof.
  unfold is_slot, next_handle, TRANSIENT_START, TRANSIENT_END. intros Hh. rewrite Z.mod_small by lia.
  case_match; lia.
Qed.

(** The candidates of [save_transient] are the transient handles in a row,
    from the next one on and around. *)
Definition transient (h : Z) : Prop := TRANSIENT_START ≤ h ≤ TRANSIENT_END.

Lemma candidate_mod c i :
  transient (next_virtual_handle c) → 0 ≤ i < TRANSIENT_COUNT →
  candidate c i = TRANSIENT_START + (next_virtual_handle c - TRANSIENT_START + i) mod TRANSIENT_COUNT.
Proof.
  unfold transient, candidate, TRANSIENT_START, TRANSIENT_END, TRANSIENT_COUNT. intros Hn Hi.
  rewrite Z.mod_small by lia. case_match.
  - rewrite <-(Z_mod_plus_full _ (-1)), Z.mod_small by lia. lia.
  - rewrite Z.mod_small by lia. lia.
Qed.

Lemma candidate_transient c i :
  transient (next_virtual_handle c) → 0 ≤ i < TRANSIENT_COUNT → transient (candidate c i).
Proof.
  intros Hn Hi. rewrite candidate_mod by done.
  pose proof (Z.mod_pos_bound (next_virtual_handle c - TRANSIENT_START + i) TRANSIENT_COUNT ltac:(done)).
  unfold transient, TRANSIENT_START, TRANSIENT_END, TRANSIENT_COUNT in *. lia.
Qed.

Lemma candidate_all c h :
  transient (next_virtual_handle c) → transient h → ∃ i, 0 ≤ i < TRANSIENT_COUNT ∧ candidate c i = h.
Proof.
  intros Hn Hh. set (i := (h - next_virtual_handle c) mod TRANSIENT_COUNT).
  assert (0 ≤ i < TRANSIENT_COUNT) as Hi by by apply Z.mod_pos_bound.
  exists i. split; [done|]. rewrite candidate_mod by done. unfold i. rewrite Zplus_mod_idemp_r.
  replace (next_virtual_handle c - TRANSIENT_START + (h - next_virtual_handle c)) with (h - TRANSIENT_START) by lia.
  unfold transient, TRANSIENT_START, TRANSIENT_END, TRANSIENT_COUNT in *. rewrite Z.mod_small by lia. lia.
Qed.

Section cache.
Context `{Os} `{!FileErrors} `{!MapOrder} `{LibcryptoOk}.
Implicit Types (c : t) (k : VtpmKey.t) (x : Fs).
Local Abbreviation E := VtpmError.t.

(** ** The invariant

    [persistent] are the handles of the TPM the cache was opened with. *)

Section invariant.
Variable persistent : gmap (list byte) TpmInt.t.

(** A key is cached under its own handle and has published its name. *)
Definition key_cached c (h : Z) k : Prop :=
  is_slot h ∧ storable k ∧ hv (VtpmKey.handle k) = h ∧
  ∃ nm, names c !! h = Some nm ∧ name_of (VtpmKey.public k) = Ok nm.

(** A name resolves to a handle that has published it, or to the persistent
    handle the TPM reported for it. *)
Definition name_live c (n : list byte) (ph : TpmInt.t) : Prop :=
  persistent !! n = Some ph ∨
  ∃ nm : ty Tpm2bName, names c !! hv ph = Some nm ∧ TpmBuffer.deref nm = n ∧ ph = th (hv ph).

Record cache_ok c : Prop := {
  keys_cached : ∀ h k, contexts c !! h = Some k → key_cached c h k;
  names_cached : ∀ h nm, names c !! h = Some nm → is_Some (contexts c !! h);
  names_live : ∀ n ph, handles c !! n = Some ph → name_live c n ph;
  next_transient : transient (next_virtual_handle c)
}.

(** [dirty] is not part of it. *)
Lemma cache_ok_dirty c s : cache_ok c → cache_ok (set_dirty s c).
Proof using Type. by intros []. Qed.
Lemma cache_ok_next c n : cache_ok c → transient n → cache_ok (set_next n c).
Proof using Type. by intros []. Qed.

(** ** Names *)

Lemma unpublish_parts h c :
  contexts (unpublish_name h c) = contexts c ∧ dirty (unpublish_name h c) = dirty c ∧
  next_virtual_handle (unpublish_name h c) = next_virtual_handle c ∧
  names (unpublish_name h c) = delete h (names c).
Proof using Type.
  unfold unpublish_name. destruct (names c !! h) as [nm|] eqn:Hn; [done|].
  by rewrite delete_id.
Qed.

(** What is left still resolves, and not to [h] by its own name. *)
Lemma unpublish_handles h c n ph :
  handles (unpublish_name h c) !! n = Some ph →
  handles c !! n = Some ph ∧
  ∀ nm, names c !! hv ph = Some nm → TpmBuffer.deref nm = n → hv ph ≠ h.
Proof using Type.
  unfold unpublish_name. destruct (names c !! h) as [nm|] eqn:Hn; cbn [handles].
  - case_decide as Hd.
    + intros [Hne Hl]%lookup_delete_Some. split; [done|]. intros nm' Hn' <- E. rewrite E in Hn'. congruence.
    + intros Hl. split; [done|]. intros nm' Hn' <- E. rewrite E in Hn'. simplify_eq.
      apply Hd. by rewrite Hl.
  - intros Hl. split; [done|]. intros nm' Hn' _ E. rewrite E in Hn'. congruence.
Qed.

(** Dropping a context together with its name. *)
Lemma drop_ok h c :
  cache_ok c → cache_ok (unpublish_name h (set_contexts (delete h (contexts c)) c)).
Proof using Type.
  intros [Hk Hn Hl Ht]. set (c' := set_contexts _ c).
  destruct (unpublish_parts h c') as (Ec & _ & En & Em).
  split; rewrite ?Ec, ?En, ?Em; cbn [c' set_contexts contexts names next_virtual_handle]; [..|done].
  - intros h' k [Hne (Hs & Hst & Hh & nm & Hnm & Hname)%Hk]%lookup_delete_Some.
    split_and!; [apply Hs..|done|done|]. exists nm. rewrite Em. by rewrite lookup_delete_ne.
  - intros h' nm [Hne [k Hc]%Hn]%lookup_delete_Some. exists k. by rewrite lookup_delete_ne.
  - intros n ph (Hl' & Hne)%unpublish_handles. destruct (Hl _ _ Hl') as [?|(nm & Hnm & Hd & E)]; [by left|].
    right. exists nm. rewrite Em. split; [|done]. rewrite lookup_delete_ne; [done|].
    intros E'. by apply (Hne nm).
Qed.

(** Adding a key under its name. *)
Lemma insert_ok h k nm c :
  cache_ok c → is_slot h → storable k → hv (VtpmKey.handle k) = h → name_of (VtpmKey.public k) = Ok nm →
  cache_ok (insert_key h k nm c).
Proof using Type.
  intros [Hk Hn Hl Ht] Hs Hst Hh Hname. unfold insert_key. cbv zeta. apply cache_ok_dirty.
  unfold publish_name. set (c' := set_contexts _ c).
  destruct (unpublish_parts h c') as (Ec & _ & En & Em).
  split; cbn [contexts names handles next_virtual_handle]; rewrite ?Ec, ?En, ?Em;
    cbn [c' set_contexts contexts names next_virtual_handle]; [..|done].
  - intros h' k' [[<- <-]|[Hne (Hs' & Hst' & Hh' & nm' & Hnm' & Hname')%Hk]]%lookup_insert_Some.
    + split_and!; [apply Hs..|done|done|]. exists nm. cbn [names]. by rewrite lookup_insert_eq.
    + split_and!; [apply Hs'..|done|done|]. exists nm'. cbn [names].
      by rewrite lookup_insert_ne, lookup_delete_ne.
  - intros h' nm' [[<- <-]|[Hne [_ [k' Hc]%Hn]%lookup_delete_Some]]%lookup_insert_Some.
    + rewrite lookup_insert_eq. by eexists.
    + exists k'. by rewrite lookup_insert_ne.
  - intros n ph [[<- <-]|[Hne (Hl' & Hneq)%unpublish_handles]]%lookup_insert_Some.
    + right. exists nm. cbn [names]. rewrite hv_th by by apply slot_u32. by rewrite lookup_insert_eq.
    + destruct (Hl _ _ Hl') as [?|(nm' & Hnm' & Hd & E)]; [by left|]. right. exists nm'. cbn [names].
      split; [|done]. assert (hv ph ≠ h) by by apply (Hneq nm').
      by rewrite lookup_insert_ne, lookup_delete_ne.
Qed.

(** The empty cache. *)
Lemma empty_ok : cache_ok (mk ∅ persistent ∅ ∅ TRANSIENT_START).
Proof using Type.
  split; cbn [contexts names handles next_virtual_handle].
  - intros h k Hh. by rewrite lookup_empty in Hh.
  - intros h nm Hh. by rewrite lookup_empty in Hh.
  - intros n ph Hn. by left.
  - done.
Qed.
End invariant.

(** ** Lookup *)

(** What is found under a name has it, unless it is the key cached for the
    persistent handle the TPM reported under that name. *)
Lemma find_by_name_sound persistent c target k :
  cache_ok persistent c → find_by_name c target = Some k →
  (∃ nm, name_of (VtpmKey.public k) = Ok nm ∧ TpmBuffer.deref nm = TpmBuffer.deref target) ∨
  ∃ ph, persistent !! TpmBuffer.deref target = Some ph ∧ contexts c !! hv ph = Some k.
Proof using Type.
  intros Hok (ph & Hl & Hc)%bind_Some. destruct (names_live _ _ Hok _ _ Hl) as [Hp|(nm & Hnm & Hd & E)].
  - right. by exists ph.
  - left. destruct (keys_cached _ _ Hok _ _ Hc) as (_ & _ & _ & nm' & Hnm' & Hname).
    rewrite Hnm in Hnm'. injection Hnm' as <-. by exists nm.
Qed.

(** ** Insertion *)

(** What a caller of [save_transient] and [save_persistent] passes. *)
Definition insertable (public parent : ty TpmtPublic) (context : ty TpmsContext)
    (policy : option (list VtpmPolicyCommand)) : Prop :=
  is_Some (wire TpmtPublic public) ∧ is_Some (wire TpmtPublic parent) ∧ is_Some (wire TpmsContext context) ∧
  Forall step_ok (default [] policy) ∧ zlen (default [] policy) ≤ u32_max.

Lemma insertable_storable handle public parent context policy :
  insertable public parent context policy → is_Some (wire TpmHandle handle) →
  storable (new_key handle public parent context policy).
Proof using Type. intros (? & ? & ? & ? & ?) ?. by split_and!. Qed.

Lemma default_context_wire : is_Some (wire TpmsContext default_context).
Proof using Type. eexists. vm_compute. reflexivity. Qed.

Lemma name_of_no_panic public : is_Some (wire TpmtPublic public) → name_of public ≠ Panic.
Proof using All.
  intros [bs Hw]. unfold name_of. apply map_err_not_Panic.
  destruct (TpmHash.try_from (TpmtPublic.name_alg public)) as [h| |] eqn:Hh.
  - pose proof (make_name_outcome public bs h Hw Hh) as Ho. by destruct (tpm_make_name public).
  - unfold tpm_make_name. by rewrite Hh.
  - revert Hh. by destruct (TpmtPublic.name_alg public).
Qed.

(** The first free transient handle, from the next one on. *)
Definition first_free c (v : Z) : Prop :=
  ∃ i, 0 ≤ i < TRANSIENT_COUNT ∧ v = candidate c i ∧ contexts c !! v = None ∧
       ∀ j, 0 ≤ j < i → is_Some (contexts c !! candidate c j).

(** Why no handle is given out. *)
Definition not_saved public c (e : E) : Prop :=
  e = VtpmError.NoHandles ∧ (∀ h, transient h → is_Some (contexts c !! h)) ∨ name_of public = Err e.

Lemma save_transient_spec c context public parent policy :
  is_Some (wire TpmtPublic public) → transient (next_virtual_handle c) →
  st_outcome (λ e c', not_saved public c e ∧ c' = c)
    (λ h c', ∃ v nm, h = th v ∧ first_free c v ∧ name_of public = Ok nm ∧
       c' = set_next (next_handle v) (insert_key v (new_key (th v) public parent context policy) nm c))
    (save_transient context public parent policy c).
Proof using All.
  intros Hpub Hnext. unfold save_transient.
  match goal with |- context [loop ?f _ _] => set (step := f) end.
  match goal with |- st_outcome ?F ?P _ => set (Post := st_outcome F P) end.
  destruct (loop_result step
    (λ i, 0 ≤ i ≤ TRANSIENT_COUNT ∧ ∀ j, 0 ≤ j < i → is_Some (contexts c !! candidate c j))
    Post (λ i, Z.to_nat (TRANSIENT_COUNT - i)) (2 ^ 24 + 1) 0) as (r & -> & HP); [| | |exact HP].
  - intros i [Hi Hocc]. unfold step. destruct (Z.leb_spec TRANSIENT_COUNT i).
    { split; [|done]. left. split; [done|]. intros h Hh.
      destruct (candidate_all c h Hnext Hh) as (j & Hj & <-). apply Hocc. lia. }
    destruct (contexts c !! candidate c i) as [k|] eqn:Hc.
    + split; [|lia]. split; [lia|]. intros j Hj. destruct (decide (j = i)) as [->|]; [by eexists|]. apply Hocc. lia.
    + cbn [new_key VtpmKey.public]. pose proof (name_of_no_panic public Hpub) as Hp.
      destruct (name_of public) as [nm|e|] eqn:Hname; [| |done]; unfold Post; cbn [st_outcome].
      * exists (candidate c i), nm. split_and!; [done| |done|done]. exists i. split_and!; [lia..|done|done|done].
      * split; [by right | done].
  - split; [unfold TRANSIENT_COUNT; lia|]. intros j Hj. lia.
  - unfold TRANSIENT_COUNT. lia.
Qed.

Lemma save_persistent_spec c handle public parent policy :
  is_Some (wire TpmtPublic public) →
  st_outcome
    (λ e c', c' = c ∧ (handle_type (hv handle) ≠ value TpmHt.Persistent ∧
                         e = VtpmError.InvalidHandleType (handle_type (hv handle)) ∨ name_of public = Err e))
    (λ _ c', handle_type (hv handle) = value TpmHt.Persistent ∧ ∃ nm, name_of public = Ok nm ∧
       c' = insert_key (hv handle) (new_key handle public parent default_context policy) nm c)
    (save_persistent handle public parent policy c).
Proof using All.
  intros Hpub. unfold save_persistent. cbv zeta.
  destruct (Z.eqb_spec (handle_type (hv handle)) (value TpmHt.Persistent)) as [Ht|Ht]; cbn [negb].
  - cbn [new_key VtpmKey.public]. pose proof (name_of_no_panic public Hpub) as Hp.
    destruct (name_of public) as [nm|e|] eqn:Hname; [| |done]; cbn [st_outcome].
    + split; [done|]. by exists nm.
    + split; [done|]. by right.
  - cbn [st_outcome]. split; [done|]. left. by split.
Qed.

Section preserved.
Variable persistent : gmap (list byte) TpmInt.t.

Lemma transient_slot h : transient h → is_slot h.
Proof using Type. unfold transient, is_slot, TRANSIENT_END. lia. Qed.

Lemma first_free_transient c v : transient (next_virtual_handle c) → first_free c v → transient v.
Proof using Type. intros Hn (i & Hi & -> & _). by apply candidate_transient. Qed.

Lemma save_transient_ok c context public parent policy :
  cache_ok persistent c → insertable public parent context policy →
  st_outcome (λ _ c', cache_ok persistent c') (λ _ c', cache_ok persistent c')
    (save_transient context public parent policy c).
Proof using All.
  intros Hok Hi. pose proof Hi as (Hpub & _). pose proof (next_transient _ _ Hok) as Hn.
  eapply st_outcome_impl; [by apply save_transient_spec | by intros e c' (_ & ->) |].
  intros h c' (v & nm & -> & Hv%first_free_transient%transient_slot & Hname & ->); [|done].
  apply cache_ok_next; [|by apply next_handle_range].
  apply insert_ok; [done..| | |done].
  - apply insertable_storable; [done|]. by apply th_wire, slot_u32.
  - cbn. by apply hv_th, slot_u32.
Qed.

Lemma save_persistent_ok c handle public parent policy :
  cache_ok persistent c → is_Some (wire TpmHandle handle) → insertable public parent default_context policy →
  st_outcome (λ _ c', cache_ok persistent c') (λ _ c', cache_ok persistent c')
    (save_persistent handle public parent policy c).
Proof using All.
  intros Hok Hh Hi. pose proof Hi as (Hpub & _). destruct (th_hv handle Hh) as [Et Hu].
  eapply st_outcome_impl; [by apply save_persistent_spec | by intros e c' (-> & _) |].
  intros _ c' (Ht & nm & Hname & ->). apply insert_ok; [done| | |done|done].
  - apply slot_type; [done|]. by right.
  - by apply insertable_storable.
Qed.
End preserved.
End cache.
