(* ===== verification/VtpmRemove.v ===== *)
(** Removing a key with everything below it. *)

From stdpp Require Import gmap relations.
From S2P Require Import Prelude State Errors Writer Codec Integer Buffer Tpml Struct EnumMacro Union Enums Attributes.
From S2P Require Import BasicTypes Schemes Structures Body FrameData Dispatch Envelope Marshal Crypto Hash Text Transport.
From S2P Require Import VtpmPolicy FileSystem Vtpm VtpmPolicySpec VtpmRecord VtpmSpec.
Import VtpmCache.

(** The keys below a public area: those it is the parent of, and those whose
    parent is below it. *)
Inductive descends (m : gmap Z VtpmKey.t) (top : ty TpmtPublic) : Z → Prop :=
| descends_child h k : m !! h = Some k → VtpmKey.parent k = top → descends m top h
| descends_step h k h' k' :
    descends m top h → m !! h = Some k → m !! h' = Some k' → VtpmKey.parent k' = VtpmKey.public k →
    descends m top h'.

(** A key counts as removed together with what is below it. *)
Lemma descends_delete m h k h' :
  m !! h = Some k → h' ≠ h → descends m (VtpmKey.public k) h' ↔ descends (delete h m) (VtpmKey.public k) h'.
Proof.
  intros Hk Hne. split.
  - intros Hd. revert Hne. induction Hd as [h1 k1 Hk1 Hp|h1 k1 h2 k2 Hd IH Hk1 Hk2 Hp]; intros Hne.
    + eapply descends_child; [|done]. by rewrite lookup_delete_ne.
    + destruct (decide (h1 = h)) as [->|Hne1].
      * simplify_eq. eapply descends_child; [|done]. by rewrite lookup_delete_ne.
      * eapply descends_step; [by apply IH|..|done]; by rewrite lookup_delete_ne.
  - clear Hne. induction 1 as [h1 k1 [_ Hk1]%lookup_delete_Some Hp|h1 k1 h2 k2 Hd IH [_ Hk1]%lookup_delete_Some [_ Hk2]%lookup_delete_Some Hp].
    + by eapply descends_child.
    + by eapply descends_step.
Qed.

Section children.
Context `{Os} `{!MapOrder}.

(** ** Children by their parents *)

Definition public_bytes (p : ty TpmtPublic) : list byte := default [] (wire TpmtPublic p).

Lemma public_bytes_wire p : is_Some (wire TpmtPublic p) → wire TpmtPublic p = Some (public_bytes p).
Proof using Type. intros [bs Hw]. unfold public_bytes. by rewrite Hw. Qed.

Lemma public_bytes_small p bs : wire TpmtPublic p = Some bs → zlen bs ≤ isize_max.
Proof using Type.
  intros Hw%(wire_max_le (c:=TpmtPublic)).
  assert (wire_max TpmtPublic ≤ isize_max) by by apply Z.leb_le; vm_compute. lia.
Qed.

Lemma public_bytes_inj p q :
  is_Some (wire TpmtPublic p) → is_Some (wire TpmtPublic q) → public_bytes p = public_bytes q → p = q.
Proof using Type.
  intros Hp%public_bytes_wire Hq%public_bytes_wire E. rewrite <-E in Hq.
  by eapply (unmarshal_wire_inj TpmtPublic); [by eapply public_bytes_small|..].
Qed.

Lemma parent_key_bytes_ok p : is_Some (wire TpmtPublic p) → parent_key_bytes p = Ok (public_bytes p).
Proof using Type.
  intros Hw%public_bytes_wire. pose proof (public_bytes_small p _ Hw). unfold parent_key_bytes.
  rewrite (wire_len (c:=TpmtPublic) p _ Hw). pose proof (zlen_nonneg (public_bytes p)).
  set (w := writer_new (TpmHash.zeroed (zlen (public_bytes p)))).
  assert (capacity w = zlen (public_bytes p)) as Hcap by (unfold capacity, w; simpl; apply zlen_zeroed; lia).
  assert (writer_ok w) as Hok by (unfold writer_ok; rewrite Hcap; simpl; lia).
  destruct (marshal_wire (c:=TpmtPublic) p _ Hw w Hok) as [Ho _].
  rewrite Ho by (unfold room; rewrite Hcap; simpl; lia). cbn [map_err result_bind]. f_equal.
  unfold put. cbn [buffer cursor w writer_new]. rewrite drop_ge, app_nil_r; [done|].
  unfold capacity, zlen, w in Hcap. simpl in Hcap. unfold zlen in *. lia.
Qed.

Abbreviation child_entry := (λ hk : TpmInt.t * VtpmKey.t, (hv hk.1, VtpmKey.public hk.2)).

(** What is grouped under a parent. *)
Lemma parent_to_children_ok keys m :
  Forall (λ hk, is_Some (wire TpmtPublic (VtpmKey.parent hk.2))) keys →
  ∃ m', parent_to_children keys m = Ok m' ∧
  ∀ bs, default [] (m' !! bs) = default [] (m !! bs) ++
    map child_entry (filter (λ hk, public_bytes (VtpmKey.parent hk.2) = bs) keys).
Proof using Type.
  intros HF. revert m. induction HF as [|[h k] keys Hw HF IH]; intros m; cbn [parent_to_children].
  { exists m. split; [done|]. intros bs. by rewrite app_nil_r. }
  rewrite parent_key_bytes_ok by done. cbn [result_bind].
  match goal with |- context [parent_to_children keys ?n] => destruct (IH n) as (m' & -> & Hm') end.
  exists m'. split; [done|]. intros bs. rewrite Hm', filter_cons. cbn [snd].
  case_decide as Hb.
  - rewrite <-Hb, lookup_insert_eq. cbn [from_option id map fst snd]. by rewrite <-app_assoc.
  - by rewrite lookup_insert_ne.
Qed.

(** The children of [p] among the keys of [m]. *)
Definition is_child (m : gmap Z VtpmKey.t) (p : ty TpmtPublic) (e : Z * ty TpmtPublic) : Prop :=
  ∃ k, m !! e.1 = Some k ∧ VtpmKey.parent k = p ∧ VtpmKey.public k = e.2.

Definition wires (m : gmap Z VtpmKey.t) : Prop :=
  ∀ h k, m !! h = Some k →
  0 ≤ h ≤ u32_max ∧ is_Some (wire TpmtPublic (VtpmKey.parent k)) ∧ is_Some (wire TpmtPublic (VtpmKey.public k)).

Lemma iter_elem (c : t) h k : (h, k) ∈ iter (contexts c) ↔ contexts c !! h = Some k.
Proof using Type. rewrite (iter_perm (contexts c)). apply elem_of_map_to_list. Qed.

Lemma children_ok (c : t) :
  wires (contexts c) →
  ∃ m, parent_to_children (key_iter c) ∅ = Ok m ∧
  ∀ p, is_Some (wire TpmtPublic p) →
  ∀ e, e ∈ default [] (m !! public_bytes p) ↔ is_child (contexts c) p e.
Proof using Type.
  intros Hw. destruct (parent_to_children_ok (key_iter c) ∅) as (m & Hm & Hall).
  { unfold key_iter. rewrite Forall_map. apply list.Forall_forall. intros [h k] Hin%iter_elem.
    by apply Hw in Hin as (_ & ? & _). }
  exists m. split; [done|]. intros p Hp [h pub]. rewrite Hall, lookup_empty. cbn [from_option app]. unfold is_child.
  rewrite list_elem_of_fmap. split.
  - intros ([h' k] & [= -> ->] & [Hb ([h1 k1] & [= -> ->] & Hin%iter_elem)%list_elem_of_fmap]%list_elem_of_filter).
    cbn [fst snd] in *. destruct (Hw _ _ Hin) as (Hu & Hpar & _). rewrite hv_th by done.
    exists k1. split_and!; [done | by apply public_bytes_inj | done].
  - intros (k & Hk & Hpar & Hpub). cbn [fst snd] in *. destruct (Hw _ _ Hk) as (Hu & _).
    exists (th h, k). cbn [fst snd]. rewrite hv_th, Hpub by done. split; [done|].
    apply list_elem_of_filter. cbn [snd]. rewrite Hpar. split; [done|].
    apply list_elem_of_fmap. exists (h, k). split; [done|]. by apply iter_elem.
Qed.
End children.

(** ** Dropping keys one by one *)

Section removal.
Context `{Os} `{!FileErrors} `{!MapOrder} `{LibcryptoOk}.
Variable persistent : gmap (list byte) TpmInt.t.
Local Abbreviation E := VtpmError.t.

(** The cache without one key. *)
Definition without (h : Z) (c : t) : t :=
  let c := unpublish_name h (set_contexts (delete h (contexts c)) c) in
  set_dirty (dirty c ∖ {[h]}) c.

Lemma unpublish_dirty h s c : unpublish_name h (set_dirty s c) = set_dirty s (unpublish_name h c).
Proof using Type. unfold unpublish_name, set_dirty. cbn [names handles contexts]. by destruct (names c !! h). Qed.

(** From [c0] and [x0], a directory that lost records of [T] only. *)
Variables (T : Z → Prop) (c0 : t) (x0 : Fs).
Hypothesis Hhonest : honest x0.

Definition sheds (d : directory) : Prop :=
  ∀ p, d !! p = files x0 !! p ∨ d !! p = None ∧ ∃ h, T h ∧ p = record_name h.

(** The keys of [del] are gone, with their files. *)
Record gone (del : list Z) (c : t) (x : Fs) : Prop := {
  gone_ok : cache_ok persistent c;
  gone_contexts h : contexts c !! h = if decide (h ∈ del) then None else contexts c0 !! h;
  gone_dirty : dirty c = dirty c0 ∖ list_to_set del;
  gone_next : next_virtual_handle c = next_virtual_handle c0;
  gone_files p : files x !! p = if decide (p ∈ record_name <$> del) then None else files x0 !! p;
  gone_targets : Forall T del;
  gone_passes : passes sheds x0 x
}.

(** Why a removal stops: a call on the file system failed. *)
Definition io_failure (e : E) : Prop := faults x0 ≠ [] ∧ ∃ e', e = VtpmError.Io e'.

Lemma gone_sheds del c x : gone del c x → sheds (files x).
Proof using Type.
  intros Hg p. rewrite (gone_files _ _ _ Hg p). case_decide as Hp; [|by left].
  right. split; [done|]. apply list_elem_of_fmap in Hp as (h & -> & Hh). exists h. split; [|done].
  pose proof (gone_targets _ _ _ Hg) as HT. rewrite list.Forall_forall in HT. by apply HT.
Qed.

Lemma gone_elem_snoc {A B} `{EqDecision A} (a b : A) del (x y : B) :
  (if decide (a ∈ del ++ [b]) then x else y) = if decide (a = b) then x else if decide (a ∈ del) then x else y.
Proof using Type.
  destruct (decide (a ∈ del ++ [b])) as [Hi|Hi]; rewrite elem_of_app, list_elem_of_singleton in Hi;
    destruct (decide (a = b)), (decide (a ∈ del)); naive_solver.
Qed.

Lemma delete_gone del c x h k :
  gone del c x → contexts c !! h = Some k → T h →
  st_outcome (λ e y, io_failure e ∧ gone del c y) (λ _ y, gone (del ++ [h]) (without h c) y) (delete_key k x).
Proof using Hhonest.
  intros Hg Hk HT. pose proof (delete_key_spec k x) as Hd. cbv zeta in Hd.
  destruct (keys_cached _ _ (gone_ok _ _ _ Hg) h k Hk) as (_ & _ & Eh & _). rewrite Eh in Hd.
  assert (passes sheds x (delete_key k x).2) as Hp.
  { destruct (delete_key k x) as [r y], Hd as [Hp _]. eapply passes_impl; [|exact Hp]. intros d -> p.
    destruct (decide (p = record_name h)) as [->|Hne].
    - rewrite lookup_delete_eq. right. split; [done|]. by exists h.
    - rewrite lookup_delete_ne by done. by apply (gone_sheds _ _ _ Hg). }
  assert (passes sheds x0 (delete_key k x).2) as Hp0 by by eapply passes_trans; [apply (gone_passes _ _ _ Hg)|].
  destruct (delete_key k x) as [[[]|e|] y], Hd as [_ Hd]; cbn [st_outcome snd] in *; [..|done].
  - assert (files y = delete (record_name h) (files x)) as Hf
      by (apply Hd; by eapply honest_passes; [apply (gone_passes _ _ _ Hg)|]).
    destruct Hg as [Hok Hc Hdi Hn Hfi HTs _]. unfold without. cbv zeta.
    destruct (unpublish_parts h (set_contexts (delete h (contexts c)) c)) as (Ec & Ed & En & _).
    split; cbn [set_dirty set_contexts contexts dirty next_virtual_handle]; rewrite ?Ec, ?Ed, ?En;
      cbn [set_contexts contexts dirty next_virtual_handle].
    + by apply cache_ok_dirty, drop_ok.
    + intros h'. rewrite gone_elem_snoc. case_decide as Hh; [by subst; rewrite lookup_delete_eq|].
      rewrite lookup_delete_ne by done. apply Hc.
    + rewrite Hdi, list_to_set_app_L. cbn [list_to_set]. set_solver.
    + done.
    + intros p. rewrite fmap_app. cbn [fmap list_fmap]. rewrite gone_elem_snoc, Hf.
      case_decide as Hp'; [by subst; rewrite lookup_delete_eq|]. rewrite lookup_delete_ne by done. apply Hfi.
    + apply Forall_app. split; [done|]. by repeat constructor.
    + done.
  - destruct Hd as ([e' ->] & Hf & Ef). split.
    + split; [|by exists e']. intros E0. apply Hf. by eapply passes_no_faults; [apply (gone_passes _ _ _ Hg)|].
    + destruct Hg. split; try done. by rewrite Ef.
Qed.

(** ** The walk below [top] *)

Variable top : ty TpmtPublic.
Hypothesis HT : ∀ h, descends (contexts c0) top h → T h.
Local Abbreviation m := (contexts c0).

Definition reached (del : list Z) (p : ty TpmtPublic) : Prop :=
  p = top ∨ ∃ h k, h ∈ del ∧ m !! h = Some k ∧ VtpmKey.public k = p.

(** The queue [q] holds the parents whose children are still there. *)
Record walked (q : list (ty TpmtPublic)) (del : list Z) : Prop := {
  walked_nodup : NoDup del;
  walked_below h : h ∈ del → descends m top h;
  walked_queue p : p ∈ q → reached del p;
  walked_closed p : reached del p → p ∈ q ∨ ∀ e, is_child m p e → e.1 ∈ del
}.

Lemma descends_key h : descends m top h → is_Some (m !! h).
Proof using Type. destruct 1; by eexists. Qed.

Lemma walked_start : walked [top] [].
Proof using Type.
  split; [constructor | by intros h Hh%elem_of_nil | |].
  - intros p ->%list_elem_of_singleton. by left.
  - intros p [->|(h & k & Hh%elem_of_nil & _)]; [|done]. left. by apply list_elem_of_singleton.
Qed.

Lemma reached_snoc del h p : reached del p → reached (del ++ [h]) p.
Proof using Type.
  intros [->|(h' & k & Hh & Hk & Hp)]; [by left|]. right. exists h', k. split; [|done].
  apply elem_of_app. by left.
Qed.

Lemma walked_child p q del h pub :
  walked (p :: q) del → is_child m p (h, pub) → h ∉ del → walked (p :: q ++ [pub]) (del ++ [h]).
Proof using Type.
  intros [Hnd Hb Hq Hc] (k & Hk & Hpar & Hpub) Hh. cbn [fst snd] in *. split.
  - apply list.NoDup_app. split_and!; [done| |apply list.NoDup_singleton]. by intros h' Hh' ->%list_elem_of_singleton.
  - intros h' [?| ->%list_elem_of_singleton]%elem_of_app; [by apply Hb|].
    destruct (Hq p ltac:(left)) as [->|(h1 & k1 & Hh1%Hb & Hk1 & <-)]; [by eapply descends_child|].
    by eapply descends_step.
  - intros p' [[->|?]%elem_of_cons| ->%list_elem_of_singleton]%(elem_of_app (p :: q)).
    + apply reached_snoc, Hq. left.
    + apply reached_snoc, Hq. by right.
    + right. exists h, k. split; [|done]. apply elem_of_app. right. by left.
  - intros p' [->|(h1 & k1 & [Hh1| ->%list_elem_of_singleton]%elem_of_app & Hk1 & <-)].
    + destruct (Hc top ltac:(by left)) as [Hin|Hall]; [by left; apply (elem_of_app (p :: q)); left|].
      right. intros e He. apply elem_of_app. left. by apply Hall.
    + destruct (Hc (VtpmKey.public k1) ltac:(right; by exists h1, k1)) as [Hin|Hall];
        [by left; apply (elem_of_app (p :: q)); left|].
      right. intros e He. apply elem_of_app. left. by apply Hall.
    + left. simplify_eq. right. apply elem_of_app. right. by left.
Qed.

Lemma walked_pop p q del :
  walked (p :: q) del → (∀ e, is_child m p e → e.1 ∈ del) → walked q del.
Proof using Type.
  intros [Hnd Hb Hq Hc] Hall. split; [done|done| |].
  - intros p' Hp'. apply Hq. by right.
  - intros p' [[->|Hin]%elem_of_cons|Hin]%Hc; [by right | by left | by right].
Qed.

Lemma walked_done del : walked [] del → ∀ h, h ∈ del ↔ descends m top h.
Proof using Type.
  intros [_ Hb _ Hc] h. split; [apply Hb|].
  induction 1 as [h k Hk Hp|h k h' k' Hd IH Hk Hk' Hp].
  - destruct (Hc top ltac:(by left)) as [[]%elem_of_nil|Hall]. apply (Hall (h, VtpmKey.public k)). by exists k.
  - destruct (Hc (VtpmKey.public k) ltac:(right; by exists h, k)) as [[]%elem_of_nil|Hall].
    apply (Hall (h', VtpmKey.public k')). by exists k'.
Qed.

Lemma walked_size q del : walked q del → (length del ≤ size m)%nat.
Proof using Type.
  intros [Hnd Hb _ _]. rewrite <-(size_list_to_set (C:=gset Z) del Hnd), <-size_dom.
  apply subseteq_size. intros h Hh%elem_of_list_to_set. by apply elem_of_dom, descends_key, Hb.
Qed.

(** A failure leaves what was done before it. *)
Definition stopped (e : E) (s : t * Fs) : Prop :=
  io_failure e ∧ ∃ del, gone del s.1 s.2 ∧ ∀ h, h ∈ del → descends m top h.

Lemma remove_children_spec p children q del c x :
  gone del c x → walked (p :: q) del → Forall (is_child m p) children →
  st_outcome stopped
    (λ st s, gone st.2 s.1 s.2 ∧ walked (p :: st.1) st.2 ∧ (∀ e, e ∈ children → e.1 ∈ st.2) ∧
       (∀ h, h ∈ del → h ∈ st.2) ∧ (length st.1 + length del = length q + length st.2)%nat)
    (remove_children children q del (c, x)).
Proof using Hhonest HT.
  intros Hg Hw HF. revert q del c x Hg Hw.
  induction HF as [|[h pub] children Hch HF IH]; intros q del c x Hg Hw; cbn [remove_children].
  { unfold st_ret, st_lift. cbn [st_outcome fst snd]. split_and!; [done..|by intros e ?%elem_of_nil|done|lia]. }
  unfold st_bind at 1, get. rewrite (gone_contexts _ _ _ Hg h). case_decide as Hh.
  - eapply st_outcome_impl; [by apply IH|done|].
    intros st s (? & ? & Hall & Hsub & Hlen). split_and!; [done..| |done|done].
    intros e [->|He]%elem_of_cons; [by apply Hsub | by apply Hall].
  - destruct Hch as (k & Hk & Hpar & Hpub) eqn:Ech. cbn [fst snd] in Hk, Hpub. rewrite Hk.
    assert (descends m top h) as Hd by (eapply walked_below; [by eapply walked_child|]; apply elem_of_app; right; by left).
    pose proof (delete_gone del c x h k Hg) as Hdel. rewrite (gone_contexts _ _ _ Hg h), decide_False in Hdel by done.
    specialize (Hdel Hk (HT h Hd)).
    unfold st_bind at 1, on_fs at 1. destruct (delete_key k x) as [[[]|e|] y]; cbn [st_outcome] in *; [..|done].
    + unfold st_bind, modify.
      change (set_dirty _ (unpublish_name h (set_contexts (delete h (contexts c)) c))) with (without h c).
      assert (walked (p :: q ++ [pub]) (del ++ [h])) as Hw' by by eapply walked_child.
      eapply st_outcome_impl; [by apply (IH (q ++ [pub]) (del ++ [h]) (without h c) y)|done|].
      intros st s (? & ? & Hall & Hsub & Hlen). rewrite !length_app in Hlen. cbn [length] in Hlen.
      split_and!; [done..| | |lia].
      * intros e [->|He]%elem_of_cons; [apply Hsub, elem_of_app; right; by left | by apply Hall].
      * intros h' Hh'. apply Hsub, elem_of_app. by left.
    + destruct Hdel as [? ?]. split; [done|]. exists del. split; [done|]. by eapply walked_below.
Qed.

Hypothesis Hok : cache_ok persistent c0.

Lemma cache_wires : wires m.
Proof using Hok.
  intros h k (Hs & ((_ & _ & ? & ? & _) & _) & _)%(keys_cached _ _ Hok). by split; [apply slot_u32|].
Qed.

Lemma reached_wire del p : is_Some (wire TpmtPublic top) → reached del p → is_Some (wire TpmtPublic p).
Proof using Hok. intros Ht [->|(h & k & _ & (_ & _ & ?)%cache_wires & <-)]; done. Qed.

Lemma gone_nil : gone [] c0 x0.
Proof using Hok.
  split; [done|by intros h; rewrite decide_False by apply not_elem_of_nil|by cbn; set_solver +|done| |constructor|apply passes_refl].
  intros p. by rewrite decide_False by apply not_elem_of_nil.
Qed.

(** All the keys below [top] go, and nothing else. *)
Lemma remove_subtree_spec :
  is_Some (wire TpmtPublic top) →
  st_outcome stopped
    (λ del s, gone del s.1 s.2 ∧ NoDup del ∧ ∀ h, h ∈ del ↔ descends m top h)
    (remove_subtree top (c0, x0)).
Proof using Hhonest HT Hok.
  intros Htop. unfold remove_subtree. unfold st_bind at 1, get.
  destruct (children_ok c0 cache_wires) as (cm & Hcm & Hch). rewrite Hcm.
  unfold st_bind at 1. cbn [st_lift].
  eapply st_outcome_bind.
  - apply (st_while_spec (λ st s, gone st.2 s.1 s.2 ∧ walked st.1 st.2) stopped
      (λ st, length st.1 + (size m - length st.2))%nat).
    + intros [[|p q] del] [c x] [Hg Hw] Hc; [done|]. cbn [fst snd] in *.
      assert (is_Some (wire TpmtPublic p)) as Hp by (eapply reached_wire, walked_queue; [done..|by left]).
      unfold subtree_body. unfold st_bind at 1, st_lift. rewrite parent_key_bytes_ok by done.
      specialize (Hch p Hp).
      assert (Forall (is_child m p) (default [] (cm !! public_bytes p))) as HF
        by (apply list.Forall_forall; intros e; apply Hch).
      pose proof (remove_children_spec p _ q del c x Hg Hw HF) as Hr.
      assert (∀ s, (match cm !! public_bytes p with
                    | Some l => remove_children l q del
                    | None => st_ret (q, del) end) s =
                   remove_children (default [] (cm !! public_bytes p)) q del s) as ->
        by by destruct (cm !! public_bytes p).
      eapply st_outcome_impl; [exact Hr|done|].
      intros [q' del'] [c' x'] (Hg' & Hw' & Hall & _ & Hlen). cbn [fst snd] in *.
      assert (walked q' del') as Hw2.
      { eapply walked_pop; [done|]. intros e He%Hch. by apply Hall. }
      split; [done|]. pose proof (walked_size _ _ Hw2). cbn [length]. lia.
    + split; [apply gone_nil | apply walked_start].
    + unfold subtree_bound. rewrite SuccNat2Pos.id_succ. cbn [fst snd length]. lia.
  - intros [q del] [c x] [[Hg Hw] Hc]. cbn [fst snd] in *. destruct q; [|done].
    unfold st_ret, st_lift. cbn [st_outcome fst snd]. split; [done|]. split; [by eapply walked_nodup|].
    by apply walked_done.
Qed.
End removal.

(** ** [remove] *)

Section remove.
Context `{Os} `{!FileErrors} `{!MapOrder} `{LibcryptoOk}.
Variable persistent : gmap (list byte) TpmInt.t.
Local Abbreviation E := VtpmError.t.

Lemma gone_trans T c0 x0 del1 c1 x1 del2 c2 x2 :
  gone persistent T c0 x0 del1 c1 x1 → gone persistent T c1 x1 del2 c2 x2 →
  gone persistent T c0 x0 (del1 ++ del2) c2 x2.
Proof using Type.
  intros Hg [Hok Hc Hd Hn Hf HT Hp]. pose proof (gone_sheds _ _ _ _ _ _ _ Hg) as Hs.
  destruct Hg as [Hok1 Hc1 Hd1 Hn1 Hf1 HT1 Hp1]. split.
  - done.
  - intros h. rewrite Hc, Hc1. destruct (decide (h ∈ del1 ++ del2)) as [Hi|Hi]; rewrite elem_of_app in Hi;
      destruct (decide (h ∈ del1)), (decide (h ∈ del2)); naive_solver.
  - rewrite Hd, Hd1, list_to_set_app_L. set_solver +.
  - by rewrite Hn.
  - intros p. rewrite Hf, Hf1, fmap_app.
    destruct (decide (p ∈ (record_name <$> del1) ++ (record_name <$> del2))) as [Hi|Hi]; rewrite elem_of_app in Hi;
      destruct (decide (p ∈ record_name <$> del1)), (decide (p ∈ record_name <$> del2)); naive_solver.
  - by apply Forall_app.
  - eapply passes_trans; [done|]. eapply passes_impl; [|done]. intros d Hd' p.
    destruct (Hd' p) as [->|?]; [apply Hs | by right].
Qed.

(** The keys a removal is for: the key and what is below it. *)
Definition removed (c : t) (h : Z) (h' : Z) : Prop :=
  h' = h ∨ ∃ k, contexts c !! h = Some k ∧ descends (contexts c) (VtpmKey.public k) h'.

Lemma remove_spec c x handle :
  cache_ok persistent c → honest x → is_Some (wire TpmHandle handle) →
  st_outcome
    (λ e s, io_failure x e ∧ ∃ del, gone persistent (removed c (hv handle)) c x del s.1 s.2)
    (λ l s, match contexts c !! hv handle with
            | None => l = [] ∧ s = (c, x)
            | Some _ => ∃ below, l = handle :: map th below ∧ NoDup (hv handle :: below) ∧
                (∀ h, h ∈ hv handle :: below ↔ removed c (hv handle) h) ∧
                gone persistent (removed c (hv handle)) c x (hv handle :: below) s.1 s.2
            end)
    (remove handle (c, x)).
Proof using All.
  intros Hok Hh Hwire. destruct (th_hv handle Hwire) as [Eth Hu]. unfold remove. cbv zeta.
  unfold st_bind at 1, get. set (h := hv handle) in *. destruct (contexts c !! h) as [k|] eqn:Hk; [|done].
  set (T := removed c h).
  pose proof (delete_gone persistent T c x Hh [] c x h k) as Hd.
  specialize (Hd (gone_nil persistent T c x Hok) Hk ltac:(by left)).
  unfold st_bind at 1, on_fs. destruct (delete_key k x) as [[[]|e|] x1]; cbn [st_outcome] in *; [..|done].
  2: { destruct Hd as [? ?]. split; [done|]. by exists []. }
  unfold st_bind at 1 2 3, modify. rewrite unpublish_dirty. cbn [app] in Hd.
  assert (set_dirty (dirty (set_contexts (delete h (contexts c)) c) ∖ {[h]})
    (unpublish_name h (set_contexts (delete h (contexts c)) c)) = without h c) as ->.
  { unfold without. cbv zeta.
    by destruct (unpublish_parts h (set_contexts (delete h (contexts c)) c)) as (_ & -> & _). }
  assert (contexts (without h c) = delete h (contexts c)) as Ec.
  { apply map_eq. intros h'. rewrite (gone_contexts _ _ _ _ _ _ _ Hd).
    case_decide as Hi; rewrite list_elem_of_singleton in Hi; [by rewrite Hi, lookup_delete_eq|].
    by rewrite lookup_delete_ne. }
  assert (∀ h', descends (contexts (without h c)) (VtpmKey.public k) h' ↔ h' ≠ h ∧ T h') as Hdesc.
  { intros h'. rewrite Ec. split.
    - intros Hd'. assert (h' ≠ h) as Hne.
      { destruct (descends_key (without h c) (VtpmKey.public k) h') as [k' Hk']; [by rewrite Ec|].
        rewrite Ec in Hk'. by apply lookup_delete_Some in Hk' as [Hne%not_eq_sym _]. }
      split; [done|]. right. exists k. split; [done|]. by apply (descends_delete (contexts c) h k h').
    - intros [Hne [?|(k' & Hk' & Hd')]]; [done|]. rewrite Hk in Hk'. injection Hk' as <-. by apply (descends_delete (contexts c) h k h'). }
  assert (honest x1) as Hh1 by by eapply honest_passes; [apply (gone_passes _ _ _ _ _ _ _ Hd)|].
  assert (is_Some (wire TpmtPublic (VtpmKey.public k))) as Hpub.
  { by destruct (cache_wires persistent c Hok h k Hk) as (_ & _ & ?). }
  eapply st_outcome_bind.
  - eapply st_outcome_impl.
    + apply (remove_subtree_spec persistent T (without h c) x1 Hh1); [by intros h' [_ ?]%Hdesc|apply Hd|done].
    + intros e s [[Hf He] (del & Hg & _)]. split.
      * split; [|done]. intros E0. apply Hf. by eapply passes_no_faults; [apply (gone_passes _ _ _ _ _ _ _ Hd)|].
      * exists (h :: del). by eapply (gone_trans T c x [h]).
    + intros del s HP. exact HP.
  - intros del s (Hg & Hnd & Hdel). unfold st_ret, st_lift. cbn [st_outcome]. exists del. split_and!.
    + done.
    + constructor; [|done]. by intros [? _]%Hdel%Hdesc.
    + intros h'. rewrite elem_of_cons, Hdel, Hdesc. destruct (decide (h' = h)) as [->|]; [|naive_solver].
      split; [by left | by left].
    + by eapply (gone_trans T c x [h]).
Qed.
End remove.
