(* ===== verification/VtpmStore.v ===== *)
(** The cache and its directory: that the files hold the keys, what flushing
    writes, also when it fails or the machine stops, and what opening reads. *)

From Stdlib Require Import Ascii.
From stdpp Require Import gmap.
From S2P Require Import Prelude State Errors Writer Codec Integer Buffer Tpml Struct EnumMacro Union Enums Attributes.
From S2P Require Import BasicTypes Schemes Structures Body FrameData Dispatch Envelope Marshal Crypto Hash Text Transport.
From S2P Require Import VtpmPolicy FileSystem Vtpm VtpmPolicySpec VtpmRecord VtpmSpec VtpmRemove.
Import VtpmCache.

(** ** Directories *)

(** A directory the cache works in: a record file has the name of its
    handle, and what it holds is synchronised. *)
Record tidy (d : directory) : Prop := {
  tidy_name path h : is_Some (d !! path) → name_handle path = Some h → path = record_name h;
  tidy_synced path f h : d !! path = Some f → name_handle path = Some h → synced f = true
}.

Lemma tidy_replacing pid h bs old d :
  0 ≤ h ≤ u32_max → tidy old → replacing pid (record_name h) bs old d → tidy d.
Proof.
  intros Hh [Hn Hs] Hr.
  assert (∀ path h', name_handle path = Some h' → path ≠ temp_name pid (record_name h)) as Ht
    by by intros path h' Hp ->; rewrite temp_name_handle in Hp.
  split.
  - intros path h' [f Hf] Hp. destruct (Hr path ltac:(by eapply Ht)) as [E|[-> _]].
    + apply Hn; [|done]. rewrite <-E. by eexists.
    + rewrite record_name_handle in Hp by done. by injection Hp as ->.
  - intros path f h' Hf Hp. destruct (Hr path ltac:(by eapply Ht)) as [E|[_ E]].
    + eapply Hs; [|done]. by rewrite <-E.
    + rewrite Hf in E. by injection E as ->.
Qed.

Lemma tidy_shrinks old d :
  tidy old → (∀ p, d !! p = old !! p ∨ d !! p = None) → tidy d.
Proof.
  intros [Hn Hs] Hd. split.
  - intros path h [f Hf] Hp. destruct (Hd path) as [E|E]; [|congruence]. apply Hn; [|done].
    rewrite <-E. by eexists.
  - intros path f h Hf Hp. destruct (Hd path) as [E|E]; [|congruence]. eapply Hs; [|done]. by rewrite <-E.
Qed.

Section store.
Context `{Os} `{!FileErrors} `{!MapOrder} `{LibcryptoOk}.
Variables (pid heap : Z).
Hypothesis Hheap : 0 ≤ heap ≤ usize_max - isize_max.
Variable persistent : gmap (list byte) TpmInt.t.
Implicit Types (c : t) (k : VtpmKey.t) (x : Fs) (d : directory).
Local Abbreviation E := VtpmError.t.

(** ** The files behind a cache *)

(** The file of a handle is the record of a key. *)
Definition on_disk d h k : Prop := ∃ f, d !! record_name h = Some f ∧ contents f = record_bytes k.

(** A clean key is on disk, and what is not cached is not. *)
Definition backed c d : Prop := ∀ h, is_slot h →
  match contexts c !! h with
  | Some k => h ∈ dirty c ∨ on_disk d h k
  | None => d !! record_name h = None
  end.

(** A record on disk is that of a key with a name. *)
Definition named d : Prop := ∀ h k, is_slot h → loads heap d (record_name h) h = Some k →
  ∃ nm, name_of (VtpmKey.public k) = Ok nm.

Record store_ok c x : Prop := {
  store_cache : cache_ok persistent c;
  store_backed : backed c (files x);
  store_named : named (files x);
  store_tidy : tidy (files x);
  store_honest : honest x
}.

Lemma loads_ext d d' path h : d !! path = d' !! path → loads heap d path h = loads heap d' path h.
Proof using Type. intros E. unfold loads. by rewrite E. Qed.

Lemma on_disk_ext d d' h k : d !! record_name h = d' !! record_name h → on_disk d h k → on_disk d' h k.
Proof using Type. unfold on_disk. by intros ->. Qed.

(** What opening makes of the record of a key: too large a one is not read. *)
Lemma loads_on_disk d h k :
  on_disk d h k → storable k → hv (VtpmKey.handle k) = h →
  loads heap d (record_name h) h = if fits k then Some k else None.
Proof using Hheap. intros (f & Hf & Hc) Hk <-. by eapply loads_stored. Qed.

Lemma loads_fit d h k k' :
  on_disk d h k → storable k → hv (VtpmKey.handle k) = h → loads heap d (record_name h) h = Some k' → k' = k.
Proof using Hheap. intros Hd Hk Hh. rewrite (loads_on_disk d h k) by done. by destruct (fits k); intros [= ->]. Qed.

Lemma named_replacing d d' h k nm :
  named d → is_slot h → storable k → hv (VtpmKey.handle k) = h → name_of (VtpmKey.public k) = Ok nm →
  replacing pid (record_name h) (record_bytes k) d d' → named d'.
Proof using Hheap.
  intros Hn Hh Hk Ehv Hnm Hr h' k' Hh' Hl. pose proof (slot_u32 h Hh). pose proof (slot_u32 h' Hh') as Hu'.
  destruct (Hr (record_name h') (λ E, temp_not_record _ _ _ Hu' (eq_sym E))) as [E|[En E]].
  - apply (Hn h'); [done|]. by rewrite <-(loads_ext d').
  - apply record_name_inj in En; [|done..]. subst h'.
    apply (loads_fit d' h k) in Hl as ->; [by exists nm|by eexists|done..].
Qed.

(** A directory in the course of writing dirty keys. *)
Record saves c x d : Prop := {
  saves_tidy : tidy d;
  saves_records h : is_slot h →
    d !! record_name h = files x !! record_name h ∨
    h ∈ dirty c ∧ ∃ k, contexts c !! h = Some k ∧ d !! record_name h = Some (mk_file (record_bytes k) true)
}.

Lemma saves_refl c x : tidy (files x) → saves c x (files x).
Proof using Type. intros Ht. split; [done|]. intros h _. by left. Qed.

Lemma saves_replacing c x d d' h k :
  saves c x d → is_slot h → h ∈ dirty c → contexts c !! h = Some k →
  replacing pid (record_name h) (record_bytes k) d d' → saves c x d'.
Proof using Type.
  intros [Ht Hs] Hh Hd Hk Hr. pose proof (slot_u32 h Hh). split; [by eapply tidy_replacing|].
  intros h' Hh'. pose proof (slot_u32 h' Hh') as Hu'.
  destruct (Hr (record_name h') (λ E, temp_not_record _ _ _ Hu' (eq_sym E))) as [->|[En E']]; [by apply Hs|].
  apply record_name_inj in En; [|done..]. subst h'. right. split; [done|]. by exists k.
Qed.

(** ** Flushing *)

(** What a flush does to the state besides the files: some keys are clean. *)
Definition cleaned c (D : gset Z) c' : Prop := c' = set_dirty D c ∧ D ⊆ dirty c.

Lemma set_dirty_id c : set_dirty (dirty c) c = c.
Proof using Type. by destruct c. Qed.

Lemma save_dirty_spec c0 x0 D c x h :
  store_ok c x → cleaned c0 D c → tidy (files x0) → passes (saves c0 x0) x0 x → h ∈ D →
  let '(r, (c', x')) := save_dirty pid h (c, x) in
  store_ok c' x' ∧ passes (saves c0 x0) x0 x' ∧
  match r with
  | Ok _ => c' = set_dirty (D ∖ {[h]}) c0
  | Err e => io_failure x0 e ∧ c' = c
  | Panic => False
  end.
Proof using Hheap.
  intros [Hok Hback Hnamed Htidy Hhon] [-> HD] Ht0 Hp Hh. unfold save_dirty. unfold st_bind at 1, get.
  change (contexts (set_dirty D c0)) with (contexts c0) in *.
  destruct (contexts c0 !! h) as [k|] eqn:Hk.
  - destruct (keys_cached _ _ Hok h k Hk) as (Hs & Hst & Ehv & nm & _ & Hnm). pose proof (slot_u32 h Hs) as Hu.
    unfold st_bind, on_fs. rewrite save_key_eq by done.
    pose proof (write_atomic_spec pid (record_name h) (record_bytes k) x) as Hw.
    destruct (write_atomic pid (record_name h) (record_bytes k) x) as [r y], Hw as [Hpy Hr].
    assert (passes (saves c0 x0) x y) as Hpy'.
    { eapply passes_impl; [|exact Hpy]. intros d Hd. eapply saves_replacing; [..|exact Hd]; [|done|by apply HD|done].
      eapply passes_files; [by apply saves_refl|done]. }
    assert (passes (saves c0 x0) x0 y) as Hp0 by by eapply passes_trans.
    assert (tidy (files y)) as Hty by (eapply saves_tidy, passes_files; [by apply saves_refl|exact Hp0]).
    assert (named (files y)) as Hny.
    { eapply (passes_files named x); [done|]. eapply passes_impl; [|exact Hpy]. intros d Hd.
      by eapply (named_replacing (files x)); [..|apply Hd]. }
    assert (honest y) as Hhy by (eapply honest_passes; [exact Hpy | done]).
    destruct r as [[]|e|]; [..|done]; cbn [modify].
    + destruct Hr as [Hout Hin]. split; [|done]. split; [by eapply (cache_ok_dirty _ (set_dirty D c0))| |done..].
      intros h' Hs'. pose proof (slot_u32 h' Hs') as Hu'. cbn [set_dirty contexts dirty].
      destruct (decide (h' = h)) as [->|Hne].
      * rewrite Hk. right. by eexists.
      * assert (files x !! record_name h' = files y !! record_name h') as Ef.
        { symmetry. apply Hout; [by intros E'; eapply temp_not_record|].
          intros E'. by apply Hne, record_name_inj. }
        specialize (Hback h' Hs'). cbn [set_dirty contexts dirty] in Hback. case_match; [|by rewrite <-Ef].
        destruct Hback as [?|?]; [left; set_solver | right; by apply (on_disk_ext (files x))].
    + destruct Hr as ([e' ->] & Hf & Hout). split; [|split; [done|split; [|done]]].
      * split; [done| |done..]. intros h' Hs'. pose proof (slot_u32 h' Hs') as Hu'.
        assert (files x !! record_name h' = files y !! record_name h') as Ef
          by (symmetry; apply Hout; by intros E'; eapply temp_not_record).
        specialize (Hback h' Hs'). case_match; [|by rewrite <-Ef].
        destruct Hback as [?|?]; [by left | right; by apply (on_disk_ext (files x))].
      * split; [|by eexists]. intros E0. apply Hf. by eapply passes_no_faults.
  - cbn [modify]. split; [|by split]. split; [by eapply (cache_ok_dirty _ (set_dirty D c0))| |done..].
    intros h' Hs'. specialize (Hback h' Hs'). cbn [set_dirty contexts dirty] in *.
    destruct (contexts c0 !! h') as [k'|] eqn:Hk'; [|done].
    destruct Hback as [Hin|?]; [left|by right]. apply elem_of_difference. split; [done|].
    intros ->%elem_of_singleton. congruence.
Qed.

Lemma save_all_spec c0 x0 l c x :
  store_ok c x → cleaned c0 (list_to_set l) c → tidy (files x0) → passes (saves c0 x0) x0 x → NoDup l →
  let '(r, (c', x')) := save_all pid l (c, x) in
  store_ok c' x' ∧ passes (saves c0 x0) x0 x' ∧
  match r with
  | Ok _ => c' = set_dirty ∅ c0
  | Err e => io_failure x0 e ∧ ∃ D, cleaned c0 D c'
  | Panic => False
  end.
Proof using Hheap.
  revert c x. induction l as [|h l IH]; intros c x Hok Hc Ht Hp Hnd; cbn [save_all].
  { destruct Hc as [-> _]. by split_and!. }
  apply list.NoDup_cons in Hnd as [Hh Hnd].
  pose proof (save_dirty_spec c0 x0 _ c x h Hok Hc Ht Hp ltac:(set_solver +)) as Hs. unfold st_bind.
  destruct (save_dirty pid h (c, x)) as [[[]|e|] [c' x']], Hs as (Hok' & Hp' & Hr); [..|done].
  - apply IH; [done| |done..]. destruct Hc as [_ HD]. split.
    + rewrite Hr. f_equal. cbn [list_to_set]. clear -Hh. apply leibniz_equiv. set_solver.
    + clear -HD. set_solver.
  - split; [done|]. split; [done|]. destruct Hr as [? ->]. split; [done|]. by eexists.
Qed.

Lemma elem_of_iter_set {K} `{Countable K} (s : gset K) h : h ∈ iter_set s ↔ h ∈ s.
Proof using Type.
  unfold iter_set. rewrite (iter_perm (gset_to_gmap () s)), list_elem_of_fmap. split.
  - intros ([h' []] & -> & [? _]%elem_of_map_to_list%lookup_gset_to_gmap_Some). done.
  - intros Hh. exists (h, tt). split; [done|]. by apply elem_of_map_to_list, lookup_gset_to_gmap_Some.
Qed.

Lemma iter_set_NoDup {K} `{Countable K} (s : gset K) : NoDup (iter_set s).
Proof using Type. unfold iter_set. rewrite (iter_perm (gset_to_gmap () s)). apply NoDup_fst_map_to_list. Qed.

(** Flushing under any failures: every directory it passes through has each
    record as it was or complete and new, and unless it failed all keys are
    clean. *)
Lemma flush_spec c x :
  store_ok c x →
  let '(r, (c', x')) := flush pid (c, x) in
  store_ok c' x' ∧ passes (saves c x) x x' ∧
  match r with
  | Ok _ => c' = set_dirty ∅ c
  | Err e => io_failure x e ∧ ∃ D, cleaned c D c'
  | Panic => False
  end.
Proof using Hheap.
  intros Hok. unfold flush, save. unfold st_bind at 1, get. apply save_all_spec; [done| |apply Hok| |apply iter_set_NoDup].
  - assert (list_to_set (iter_set (dirty c)) = dirty c) as ->.
    { apply set_eq. intros h. by rewrite elem_of_list_to_set, elem_of_iter_set. }
    split; [|done]. by rewrite set_dirty_id.
  - apply passes_refl.
Qed.
End store.
