(* ===== verification/VtpmOpen.v ===== *)
(** Opening a cache: what becomes of each file of the directory. *)

From Stdlib Require Import Ascii.
From stdpp Require Import gmap.
From S2P Require Import Prelude State Errors Writer Codec Integer Buffer Tpml Struct EnumMacro Union Enums Attributes.
From S2P Require Import BasicTypes Schemes Structures Body FrameData Dispatch Envelope Marshal Crypto Hash Text Transport.
From S2P Require Import VtpmPolicy FileSystem Vtpm VtpmPolicySpec VtpmRecord VtpmSpec VtpmRemove VtpmStore.
Import VtpmCache.

Section load.
Context `{Os} `{!FileErrors} `{!MapOrder} `{LibcryptoOk}.
Variable heap : Z.
Hypothesis Hheap : 0 ≤ heap ≤ usize_max - isize_max.
Variable persistent : gmap (list byte) TpmInt.t.
Implicit Types (c : t) (k : VtpmKey.t) (x : Fs) (d : directory).
Local Abbreviation E := VtpmError.t.

(** ** One file *)

(** What becomes of a file: a record of a key is cached, a session or a record
    that cannot be used is deleted, everything else stays. *)
Inductive fate := Cached (h : Z) (k : VtpmKey.t) | Discarded | Ignored.
Definition fate_of d (path : str) : fate :=
  match name_handle path with
  | None => Ignored
  | Some h =>
      let ht := handle_type h in
      if (ht =? value TpmHt.Transient) || (ht =? value TpmHt.Persistent) then
        match loads heap d path h with Some k => Cached h k | None => Discarded end
      else if (ht =? value TpmHt.HmacSession) || (ht =? value TpmHt.PolicySession) then Discarded
      else Ignored
  end.

Lemma name_handle_u32 path h : name_handle path = Some h → 0 ≤ h ≤ u32_max.
Proof using Type.
  unfold name_handle. case_bool_decide; [|done]. by apply from_str_radix_bounds.
Qed.

Lemma slot_bool h : 0 ≤ h ≤ u32_max →
  (handle_type h =? value TpmHt.Transient) || (handle_type h =? value TpmHt.Persistent) = bool_decide (is_slot h).
Proof using Type.
  intros Hu. apply eq_true_iff_eq. rewrite orb_true_iff, !Z.eqb_eq, bool_decide_eq_true. symmetry. by apply slot_type.
Qed.

Lemma fate_cached d path h k :
  fate_of d path = Cached h k ↔ name_handle path = Some h ∧ is_slot h ∧ loads heap d path h = Some k.
Proof using Type.
  unfold fate_of. destruct (name_handle path) as [h'|] eqn:Hn; [|by split; [|intros [? _]]]. cbv zeta.
  rewrite slot_bool by by eapply name_handle_u32. case_bool_decide as Hs.
  - split.
    + destruct (loads heap d path h') as [k'|] eqn:Hl; [|done]. intros [= -> ->]. by split_and!.
    + intros ([= ->] & _ & ->). done.
  - split; [by case_match|]. by intros ([= ->] & ? & _).
Qed.

Lemma fate_record d h : is_slot h →
  fate_of d (record_name h) = match loads heap d (record_name h) h with Some k => Cached h k | None => Discarded end.
Proof using Type.
  intros Hs. pose proof (slot_u32 h Hs) as Hu. unfold fate_of. rewrite record_name_handle by done. cbv zeta.
  by rewrite slot_bool, bool_decide_eq_true_2.
Qed.

(** Discarding a file: at worst it stays. *)
Lemma discard_spec path x :
  ∃ y, discard path x = (Ok tt, y) ∧ passes (λ d, d = delete path (files x)) x y ∧
       (faults x = [] → files y = delete path (files x)).
Proof using Type.
  unfold discard. destruct (remove_cases path x) as [(e & He & ->)|[_ ->]]; eexists; (split; [done|]).
  - split; [apply passes_tick|]. intros E0. destruct He as [[n Hf]|[_ Hn]]; [by rewrite E0 in Hf|].
    simpl. by rewrite delete_id.
  - split; [by apply passes_update | done].
Qed.

(** How one entry changes the cache and the directory. *)
Definition entry_done c x (path : str) (s : t * Fs) : Prop :=
  let '(c', y) := s in
  match fate_of (files x) path with
  | Cached h k => contexts c' = <[h := k]> (contexts c) ∧ files y = files x
  | Discarded => contexts c' = contexts c ∧ files y = delete path (files x)
  | Ignored => contexts c' = contexts c ∧ files y = files x
  end.

(** A key of the directory that has no name. *)
Definition nameless d : Prop :=
  ∃ path h k, fate_of d path = Cached h k ∧ ∀ nm, name_of (VtpmKey.public k) ≠ Ok nm.

Record entry_safe c x (path : str) (s : t * Fs) : Prop := {
  entry_cache : cache_ok persistent s.1;
  entry_dirty : dirty s.1 = dirty c;
  entry_passes : passes (λ d, d = delete path (files x)) x s.2;
  entry_exact : faults x = [] → entry_done c x path s
}.

Lemma load_entry_spec c x path :
  cache_ok persistent c →
  st_outcome (λ e _, e = VtpmError.OperationFailed ∧ nameless (files x))
    (λ _ s, entry_safe c x path s) (load_entry heap path (c, x)).
Proof using All.
  intros Hok.
  assert (∀ y, passes (λ d, d = delete path (files x)) x y →
    (faults x = [] → entry_done c x path (c, y)) → entry_safe c x path (c, y)) as Hsame by by split.
  assert (fate_of (files x) path = Ignored → entry_safe c x path (c, x)) as Hignored.
  { intros Hf. apply Hsame; [apply passes_refl|]. intros _. unfold entry_done. by rewrite Hf. }
  assert (∀ x1, files x1 = files x → passes (λ d, d = delete path (files x)) x x1 →
    (faults x = [] → faults x1 = []) → (faults x = [] → fate_of (files x) path = Discarded) →
    st_outcome (λ e _, e = VtpmError.OperationFailed ∧ nameless (files x)) (λ _ s, entry_safe c x path s)
      (on_fs (discard path) (c, x1))) as Hdiscard.
  { intros x1 Ef Hp Hf1 Hf. unfold on_fs. destruct (discard_spec path x1) as (y & -> & Hpy & Hy).
    rewrite Ef in *. cbn [st_outcome]. apply Hsame; [by eapply passes_trans|]. intros E0.
    unfold entry_done. rewrite Hf by done. split; [done|]. by apply Hy, Hf1. }
  pose proof (name_handle_u32 path) as Hu. unfold fate_of in *. unfold load_entry, name_handle in *.
  case_bool_decide; cbn [negb]; [|by apply Hignored].
  destruct (from_str_radix u32_max (file_stem path) 16) as [h|] eqn:Hpath; [|by apply Hignored].
  specialize (Hu h eq_refl). cbv zeta in *. rewrite slot_bool in * by done.
  case_bool_decide as Hs.
  2: { case_match; [|by apply Hignored]. by apply Hdiscard; [|apply passes_refl|..]. }
  pose proof (load_key_spec heap Hheap path h x) as Hl.
  destruct (load_key heap path h x) as [[k|e|] y], Hl as [Hun Hl]; [..|done].
  - rewrite Hl in *. apply loads_Some in Hl as (f & Hf & Hc & Hkeep & Ehv); [|done].
    pose proof Hkeep as [[(_ & _ & Hpub & _) _] _].
    pose proof (name_of_no_panic _ Hpub) as Hnp. unfold st_bind at 1, st_lift.
    apply unchanged_eq in Hun as Efh. destruct Efh as [Ef _].
    destruct (name_of (VtpmKey.public k)) as [nm|e|] eqn:Hnm; [..|done].
    + unfold st_bind, modify. cbn [st_outcome].
      set (c' := publish_name h nm (set_contexts (<[h:=k]> (contexts c)) c)).
      assert (contexts c' = <[h:=k]> (contexts c) ∧ dirty c' = dirty c) as [Ec Ed].
      { unfold c', publish_name. cbv zeta. cbn [contexts dirty].
        by destruct (unpublish_parts h (set_contexts (<[h:=k]> (contexts c)) c)) as (-> & -> & _). }
      split; cbn [fst snd]; [|done| |].
      * pose proof (insert_ok persistent h k nm c Hok Hs (keepable_storable k Hkeep) Ehv Hnm) as Hi.
        apply (cache_ok_dirty _ _ (dirty c')) in Hi. unfold insert_key in Hi. cbv zeta in Hi.
        fold c' in Hi. by destruct c'.
      * eapply passes_impl; [|exact Hun]. done.
      * intros _. unfold entry_done, fate_of, name_handle.
        rewrite bool_decide_eq_true_2, Hpath, slot_bool, bool_decide_eq_true_2 by done.
        rewrite (proj2 (loads_Some heap Hheap (files x) path h k)); [done|]. exists f. by split_and!.
    + cbn [st_outcome]. unfold name_of in Hnm. split.
      { revert Hnm. destruct (tpm_make_name _); [done | by intros [= <-] | done]. }
      exists path, h, k. split; [|unfold name_of; rewrite Hnm; by intros nm].
      apply fate_cached. unfold name_handle. rewrite bool_decide_eq_true_2, Hpath by done.
      split; [done|]. split; [done|]. apply loads_Some; [done|]. exists f. by split_and!.
  - apply unchanged_eq in Hun as Efh. destruct Efh as [Ef _].
    apply Hdiscard; [done|by eapply passes_impl; [|exact Hun]|by eapply passes_no_faults|].
    intros E0. destruct Hl as [?|Hl]; [done|]. by rewrite Hl.
Qed.

(** ** All files *)

Lemma fate_ext d d' path : d !! path = d' !! path → fate_of d path = fate_of d' path.
Proof using Type.
  intros Ed. unfold fate_of. destruct (name_handle path) as [h|]; [|done]. by rewrite (loads_ext heap d d').
Qed.

Lemma fate_missing d path h k : fate_of d path = Cached h k → is_Some (d !! path).
Proof using Type. intros (_ & _ & Hl)%fate_cached. unfold loads in Hl. destruct (d !! path); [by eexists | done]. Qed.

(** Some files of [old] were discarded. *)
Definition discards (old d : directory) : Prop :=
  ∀ p, d !! p = old !! p ∨ d !! p = None ∧ fate_of old p = Discarded.

Lemma discards_nameless old d : discards old d → nameless d → nameless old.
Proof using Type.
  intros Hd (path & h & k & Hf & Hn). exists path, h, k. split; [|done].
  destruct (Hd path) as [Ed|[Ed _]]; [by rewrite <-(fate_ext d)|].
  apply fate_missing in Hf as [f Hf]. congruence.
Qed.

Lemma discards_tidy old d : tidy old → discards old d → tidy d.
Proof using Type. intros Ht Hd. eapply tidy_shrinks; [done|]. intros p. destruct (Hd p) as [?|[? _]]; [by left | by right]. Qed.

#[global] Instance fate_Discarded (f : fate) : Decision (f = Discarded).
Proof using Type. destruct f; [by right | by left | by right]. Defined.

(** Without failures, reading [paths] takes the keys of their records. *)
Record entries_done c x (paths : list str) (s : t * Fs) : Prop := {
  done_cache : cache_ok persistent s.1;
  done_dirty : dirty s.1 = dirty c;
  done_faults : faults s.2 = [];
  done_keys h : is_slot h → contexts s.1 !! h =
    match (if decide (record_name h ∈ paths) then loads heap (files x) (record_name h) h else None) with
    | Some k => Some k
    | None => contexts c !! h
    end;
  done_files p : files s.2 !! p =
    if decide (p ∈ paths ∧ fate_of (files x) p = Discarded) then None else files x !! p
}.

Lemma entry_files c x path s p :
  entry_done c x path s →
  files s.2 !! p = if decide (p = path ∧ fate_of (files x) path = Discarded) then None else files x !! p.
Proof using Type.
  destruct s as [c' y]. unfold entry_done. cbn [fst snd]. destruct (fate_of (files x) path) eqn:Hf; intros [_ ->].
  - rewrite decide_False; [done|]. by intros [_ ?].
  - destruct (decide (p = path)) as [->|Hne].
    + rewrite decide_True by done. apply lookup_delete_eq.
    + rewrite decide_False by by intros [? _]. by rewrite lookup_delete_ne.
  - rewrite decide_False; [done|]. by intros [_ ?].
Qed.

Lemma entry_keys c x path s h :
  tidy (files x) → entry_done c x path s → is_slot h →
  contexts s.1 !! h =
    match (if decide (record_name h = path) then loads heap (files x) (record_name h) h else None) with
    | Some k => Some k
    | None => contexts c !! h
    end.
Proof using Type.
  intros Ht Hd Hs. pose proof (slot_u32 h Hs) as Hu. destruct s as [c' y]. unfold entry_done in Hd. cbn [fst].
  destruct (decide (record_name h = path)) as [<-|Hne].
  - rewrite fate_record in Hd by done. destruct (loads _ _ _ _) as [k|]; destruct Hd as [-> _]; [apply lookup_insert_eq | done].
  - destruct (fate_of (files x) path) as [h' k| |] eqn:Hf; destruct Hd as [-> _]; [|done..].
    rewrite lookup_insert_ne; [done|]. intros ->. pose proof (fate_missing _ _ _ _ Hf) as Hm.
    apply fate_cached in Hf as (Hn & _). by apply Hne, symmetry, (tidy_name _ Ht).
Qed.

Lemma load_entries_exact paths c x :
  cache_ok persistent c → tidy (files x) → NoDup paths → faults x = [] →
  st_outcome (λ e _, e = VtpmError.OperationFailed ∧ nameless (files x))
    (λ _ s, entries_done c x paths s) (load_entries heap paths (c, x)).
Proof using All.
  revert c x. induction paths as [|path paths IH]; intros c x Hok Ht Hnd E0; cbn [load_entries].
  { unfold st_ret, st_lift. cbn [st_outcome]. split; cbn [fst snd]; [done..| |].
    - intros h _. by rewrite decide_False by apply not_elem_of_nil.
    - intros p. rewrite decide_False; [done|]. by intros [?%elem_of_nil _]. }
  apply list.NoDup_cons in Hnd as [Hpath Hnd]. eapply st_outcome_bind; [by apply load_entry_spec|].
  intros _ [c1 y] [Hok1 Hd1 Hp1 Hx1]. cbn [fst snd] in *. specialize (Hx1 E0).
  pose proof (entry_files c x path (c1, y)) as Hf. cbn [fst snd] in Hf. specialize (λ p, Hf p Hx1).
  assert (discards (files x) (files y)) as Hdis.
  { intros p. rewrite Hf. case_decide as Hc; [|by left]. right. by destruct Hc as [-> ?]. }
  assert (∀ p, p ∈ paths → files y !! p = files x !! p) as Hother.
  { intros p Hp. rewrite Hf, decide_False; [done|]. by intros [-> _]. }
  eapply st_outcome_impl; [apply IH; [done|by eapply discards_tidy|done|by eapply passes_no_faults]| |].
  - intros e s [-> Hn]. split; [done|]. by eapply discards_nameless.
  - intros _ [c2 z] [Hok2 Hd2 Hf2 Hk2 Hz]. split; cbn [fst snd] in *; [done|by rewrite Hd2|done| |].
    + intros h Hs. pose proof (entry_keys c x path (c1, y) h Ht Hx1 Hs) as Hk1. cbn [fst] in Hk1.
      rewrite Hk2, Hk1 by done.
      destruct (decide (record_name h ∈ paths)) as [Hi|Hi].
      * rewrite (loads_ext heap (files y) (files x)) by by apply Hother.
        rewrite (decide_False (P:=record_name h = path)) by by intros <-. rewrite decide_True by by right. done.
      * destruct (decide (record_name h = path)) as [E|Hne].
        -- rewrite decide_True; [done|]. rewrite E. left.
        -- rewrite decide_False; [done|]. by intros [?|?]%elem_of_cons.
    + intros p. rewrite Hz, Hf. destruct (decide (p = path)) as [->|Hne].
      * rewrite decide_False by by intros [? _].
        destruct (decide (fate_of (files x) path = Discarded)) as [Hc|Hc].
        -- rewrite !decide_True; [done|split; [left|done]|done].
        -- rewrite !decide_False; [done|by intros [_ ?]..].
      * rewrite (decide_False (P:=p = path ∧ _)) by by intros [? _].
        destruct (decide (p ∈ paths)) as [Hi|Hi].
        -- rewrite (fate_ext (files y) (files x)) by by apply Hother.
           destruct (decide (fate_of (files x) p = Discarded)).
           ++ rewrite !decide_True; [done|split; [by right|done]|done].
           ++ rewrite !decide_False; [done|by intros [_ ?]..].
        -- rewrite !decide_False; [done| |by intros [? _]]. by intros [[?|?]%elem_of_cons _].
Qed.

(** With failures the cache is still well-formed. *)
Lemma load_entries_safe paths c x :
  cache_ok persistent c →
  st_outcome (λ e _, e = VtpmError.OperationFailed)
    (λ _ s, cache_ok persistent s.1 ∧ dirty s.1 = dirty c) (load_entries heap paths (c, x)).
Proof using All.
  revert c x. induction paths as [|path paths IH]; intros c x Hok; cbn [load_entries]; [done|].
  eapply st_outcome_bind; [eapply st_outcome_impl; [by apply load_entry_spec|by intros e s [-> _]|
    intros a s Hs; exact Hs]|].
  intros _ [c1 y] [Hok1 Hd1 _ _]. cbn [fst snd] in *. eapply st_outcome_impl; [by apply IH|done|].
  intros _ s [? E]. by rewrite E.
Qed.

(** ** [new] *)

Lemma max_handle_slot c h : cache_ok persistent c → max_handle c = Some h → is_slot h.
Proof using Type.
  intros Hok. unfold max_handle.
  assert (Forall is_slot (iter (contexts c)).*1) as HF.
  { apply list.Forall_forall. intros h' ([h1 k] & -> & Hin%iter_elem)%list_elem_of_fmap.
    by destruct (keys_cached _ _ Hok _ _ Hin). }
  revert h. induction HF as [|a l Ha HF IH]; intros h; cbn [foldr]; [done|].
  destruct (foldr _ None l) as [m|]; intros [= <-]; [|done].
  specialize (IH m eq_refl). unfold is_slot in *. lia.
Qed.

(** The handles of the TPM the cache is given *)
Definition all_persistent : Prop :=
  ∀ n ph, persistent !! n = Some ph → handle_type (hv ph) = value TpmHt.Persistent.

Lemma check_persistent_spec l :
  outcome (λ e, ∃ ph, ph ∈ l ∧ handle_type (hv ph) ≠ value TpmHt.Persistent ∧
             e = VtpmError.InvalidHandleType (handle_type (hv ph)))
    (λ _, ∀ ph, ph ∈ l → handle_type (hv ph) = value TpmHt.Persistent) (check_persistent l).
Proof using Type.
  induction l as [|ph l IH]; cbn [check_persistent]; cbv zeta; [by intros ph ?%elem_of_nil|].
  destruct (Z.eqb_spec (handle_type (hv ph)) (value TpmHt.Persistent)) as [Ht|Ht]; cbn [negb].
  - destruct (check_persistent l) as [[]|e|]; cbn [outcome] in *; [..|done].
    + intros ph' [->|Hin]%elem_of_cons; [done | by apply IH].
    + destruct IH as (ph' & Hin & ?). exists ph'. split; [by right | done].
  - exists ph. split; [left | done].
Qed.

Lemma check_all : outcome (λ e, ¬ all_persistent ∧ ∃ ht, e = VtpmError.InvalidHandleType ht) (λ _, all_persistent)
  (check_persistent (iter persistent).*2).
Proof using Type.
  assert (∀ ph, ph ∈ (iter persistent).*2 ↔ ∃ n, persistent !! n = Some ph) as Hin.
  { intros ph. rewrite list_elem_of_fmap. split.
    - intros ([n ph'] & -> & Hi). rewrite (iter_perm persistent) in Hi. exists n. by apply elem_of_map_to_list in Hi.
    - intros [n Hn]. exists (n, ph). split; [done|]. rewrite (iter_perm persistent). by apply elem_of_map_to_list. }
  pose proof (check_persistent_spec (iter persistent).*2) as Hc.
  destruct (check_persistent _) as [[]|e|]; cbn [outcome] in *; [..|done].
  - intros n ph Hn. apply Hc, Hin. by exists n.
  - destruct Hc as (ph & [n Hn]%Hin & Ht & ->). split; [|by eexists]. intros Ha. by apply Ht, (Ha n).
Qed.

(** The empty cache, and where the next handle is after reading. *)
Local Abbreviation empty := (mk ∅ persistent ∅ ∅ TRANSIENT_START).
Definition advance c : t :=
  match max_handle c with
  | Some max_handle =>
      if next_virtual_handle c <=? max_handle then set_next (next_handle max_handle) c else c
  | None => c
  end.

Lemma advance_ok c : cache_ok persistent c → cache_ok persistent (advance c).
Proof using Type.
  intros Hok. unfold advance. destruct (max_handle c) as [h|] eqn:Hm; [|done]. case_match; [|done].
  apply cache_ok_next; [done|]. by eapply next_handle_range, max_handle_slot.
Qed.

Lemma advance_parts c : contexts (advance c) = contexts c ∧ dirty (advance c) = dirty c.
Proof using Type. unfold advance. by repeat case_match. Qed.

(** Opening is checking the handles, creating the directory and reading. *)
Lemma new_unfold x :
  new heap persistent x =
  match check_persistent (iter persistent).*2 with
  | Err e => (Err e, x)
  | Panic => (Panic, x)
  | Ok _ =>
      match fs.create_dir_all x with
      | (Err e, x) => (Err (VtpmError.Io e), x)
      | (Panic, x) => (Panic, x)
      | (Ok _, x) =>
          match load heap (empty, x) with
          | (Ok _, (c, x)) => (Ok (advance c), x)
          | (Err e, (_, x)) => (Err e, x)
          | (Panic, (_, x)) => (Panic, x)
          end
      end
  end.
Proof using Type.
  unfold new, st_bind, st_lift. destruct (check_persistent _) as [[]| |]; [|done..].
  unfold io, st_map_err. by destruct (fs.create_dir_all x) as [[[]| |] y].
Qed.

Lemma entries_no_panic l x : ∃ l' y, fs.entries l x = (Ok l', y).
Proof using Type.
  revert x. induction l as [|n l IH]; intros x; cbn [fs.entries]; [by eexists _, _|].
  unfold st_bind, fs.fault. destruct (faults x) as [|f fs].
  - destruct (IH x) as (l' & y & ->). by eexists _, _.
  - destruct (IH (mk_fs (files x) fs (history x))) as (l' & y & ->). by eexists _, _.
Qed.

(** Whatever fails, opening returns, and what it returns is well-formed. *)
Lemma new_safe x :
  st_outcome (λ e _, ¬ all_persistent ∧ (∃ ht, e = VtpmError.InvalidHandleType ht) ∨ (∃ e', e = VtpmError.Io e') ∨
                     e = VtpmError.OperationFailed)
    (λ c _, cache_ok persistent c ∧ dirty c = ∅ ∧ all_persistent) (new heap persistent x).
Proof using All.
  rewrite new_unfold. pose proof check_all as Hc.
  destruct (check_persistent _) as [[]|e|]; cbn [outcome st_outcome] in *; [|by left|done].
  unfold fs.create_dir_all.
  destruct (syscall_cases (st_ret tt : State Fs IoError ()) x) as [(n & e & _ & ->)| ->].
  { right. left. by eexists. }
  unfold st_ret, st_lift, load. unfold fs.read_dir.
  match goal with |- context [fs.syscall ?m ?z] => destruct (syscall_cases m z) as [(n & e & _ & ->)| ->] end.
  { case_decide; cbn [st_outcome]; [|by right; left; eexists]. split; [apply advance_ok, empty_ok|].
    by rewrite (proj2 (advance_parts _)). }
  destruct (entries_no_panic (iter (files (tick (tick x)))).*1 (tick (tick x))) as (l & y & ->).
  pose proof (load_entries_safe l empty y (empty_ok _)) as Hl.
  destruct (load_entries heap l (empty, y)) as [[[]|e|] [c z]]; cbn [st_outcome fst] in *; [..|done].
  - destruct Hl as [Hok Hd]. split; [by apply advance_ok|]. by rewrite (proj2 (advance_parts _)).
  - right. by right.
Qed.

(** Without failures, opening a tidy directory caches exactly the keys whose
    records are good, and deletes exactly the unusable files. *)
Record opened x c (y : Fs) : Prop := {
  opened_store : store_ok heap persistent c y;
  opened_clean : dirty c = ∅;
  opened_faults : faults y = [];
  opened_keys h : is_slot h → contexts c !! h = loads heap (files x) (record_name h) h;
  opened_files p : files y !! p = if decide (fate_of (files x) p = Discarded) then None else files x !! p
}.

Lemma entries_done_opened x c y :
  tidy (files x) → (∀ l, l = (iter (files x)).*1 → entries_done empty x l (c, y)) → opened x (advance c) y.
Proof using All.
  intros Ht Hall. destruct (Hall _ eq_refl) as [Hok Hd Hf Hk Hp]. clear Hall. cbn [fst snd] in *.
  destruct (advance_parts c) as [Ec Ed]. rewrite Hd in Ed.
  assert (∀ p, p ∈ (iter (files x)).*1 ↔ is_Some (files x !! p)) as Hin.
  { intros p. rewrite list_elem_of_fmap. split.
    - intros ([p' f] & -> & Hi). rewrite (iter_perm (files x)) in Hi. apply elem_of_map_to_list in Hi. by eexists.
    - intros [f Hp']. exists (p, f). split; [done|]. rewrite (iter_perm (files x)). by apply elem_of_map_to_list. }
  assert (∀ h, is_slot h → contexts (advance c) !! h = loads heap (files x) (record_name h) h) as Hkeys.
  { intros h Hs. rewrite Ec, Hk by done. cbn [contexts]. rewrite lookup_empty.
    destruct (decide (record_name h ∈ (iter (files x)).*1)) as [|Hi]; [by destruct (loads _ _ _ _)|].
    unfold loads. destruct (files x !! record_name h) as [f|] eqn:Hf'; [|done]. exfalso. by apply Hi, Hin; eexists. }
  assert (∀ p, files y !! p = if decide (fate_of (files x) p = Discarded) then None else files x !! p) as Hfiles.
  { intros p. rewrite Hp. destruct (decide (fate_of (files x) p = Discarded)) as [Hfa|Hfa].
    - destruct (decide (p ∈ (iter (files x)).*1)) as [Hi|Hi]; [by rewrite decide_True|].
      rewrite decide_False by by intros [? _]. destruct (files x !! p) as [f|] eqn:Hf'; [|done].
      exfalso. by apply Hi, Hin; eexists.
    - rewrite decide_False; [done|]. by intros [_ ?]. }
  assert (∀ h, is_slot h → loads heap (files y) (record_name h) h = loads heap (files x) (record_name h) h) as Hloads.
  { intros h Hs. destruct (loads heap (files x) (record_name h) h) as [k|] eqn:Hl.
    - rewrite (loads_ext heap (files y) (files x)); [done|]. rewrite Hfiles, decide_False; [done|].
      rewrite (proj2 (fate_cached (files x) (record_name h) h k)); [done|]. split; [|done].
      apply record_name_handle. by apply slot_u32.
    - pose proof (Hfiles (record_name h)) as Hf'. case_decide; [unfold loads; by rewrite Hf'|].
      by rewrite (loads_ext heap (files y) (files x)). }
  split; [|by rewrite Ed|done|done|done].
  split.
  - by apply advance_ok.
  - intros h Hs. rewrite Hkeys by done. destruct (loads heap (files x) _ h) as [k|] eqn:Hl.
    + right. rewrite <-Hloads in Hl by done. apply loads_Some in Hl as (f & Hf' & Hc & _); [by exists f|done].
    + rewrite Hfiles, decide_True; [done|]. by rewrite fate_record, Hl.
  - intros h k Hs Hl. rewrite Hloads, <-Hkeys in Hl by done.
    destruct (keys_cached _ _ (advance_ok c Hok) h k Hl) as (_ & _ & _ & nm & _ & Hnm). by exists nm.
  - eapply discards_tidy; [done|]. intros p. rewrite Hfiles. case_decide; [by right | by left].
  - unfold honest. by rewrite Hf.
Qed.

Lemma entries_all l x : faults x = [] → fs.entries l x = (Ok l, x).
Proof using Type.
  intros E0. induction l as [|n l IH]; cbn [fs.entries]; [done|]. unfold st_bind, fs.fault. by rewrite E0, IH.
Qed.

Lemma tick_id x : faults x = [] → tick x = x.
Proof using Type. destruct x as [d [|] hist]; [done|by intros ?]. Qed.

Lemma syscall_runs {A} (m : State Fs IoError A) x : faults x = [] → fs.syscall m x = m x.
Proof using Type. intros E0. destruct (syscall_cases m x) as [(n & e & Hf & _)| ->]; [by rewrite E0 in Hf|by rewrite tick_id]. Qed.

Lemma new_exact x :
  tidy (files x) → faults x = [] → all_persistent →
  st_outcome (λ e _, e = VtpmError.OperationFailed ∧ nameless (files x)) (λ c y, opened x c y) (new heap persistent x).
Proof using All.
  intros Ht E0 Hp. rewrite new_unfold. pose proof check_all as Hc.
  destruct (check_persistent _) as [[]|e|]; cbn [outcome] in Hc; [|by destruct Hc|done].
  unfold fs.create_dir_all. rewrite syscall_runs by done. unfold st_ret, st_lift, load, fs.read_dir.
  rewrite syscall_runs, entries_all by done.
  assert (NoDup (iter (files x)).*1) as Hnd by (rewrite (iter_perm (files x)); apply NoDup_fst_map_to_list).
  pose proof (load_entries_exact _ empty x (empty_ok _) Ht Hnd E0) as Hl.
  destruct (load_entries heap _ (empty, x)) as [[[]|e|] [c y]]; cbn [st_outcome] in *; [|done..].
  apply entries_done_opened; [done|]. by intros l ->.
Qed.
End load.
