(* ===== verification/VtpmOps.v ===== *)
(** A cache at work: its operations in any order and under any failures, and
    what is found when it is opened again, also after a crash. *)

From stdpp Require Import gmap.
From S2P Require Import Prelude State Errors Writer Codec Integer Buffer Tpml Struct EnumMacro Union Enums Attributes.
From S2P Require Import BasicTypes Schemes Structures Body FrameData Dispatch Envelope Marshal Crypto Hash Text Transport.
From S2P Require Import VtpmPolicy FileSystem Vtpm VtpmPolicySpec VtpmRecord VtpmSpec VtpmRemove VtpmStore VtpmOpen.
Import VtpmCache.

(** ** Operations *)

(** The calls that change a cache. *)
Inductive Op :=
| SaveTransient (context : ty TpmsContext) (public parent : ty TpmtPublic) (policy : option (list VtpmPolicyCommand))
| SavePersistent (handle : TpmInt.t) (public parent : ty TpmtPublic) (policy : option (list VtpmPolicyCommand))
| MarkDirty (handle : TpmInt.t)
| Remove (handle : TpmInt.t)
| Flush.

Section operations.
Context `{Os} `{!FileErrors} `{!MapOrder} `{!Libcrypto}.
Variable pid : Z.

Definition run_op (op : Op) : State (t * Fs) VtpmError.t () := λ '(c, x),
  match op with
  | SaveTransient context public parent policy =>
      let (r, c) := save_transient context public parent policy c in
      ((let? _ := r in Ok tt), (c, x))
  | SavePersistent handle public parent policy =>
      let (r, c) := save_persistent handle public parent policy c in (r, (c, x))
  | MarkDirty handle => (Ok tt, (mark_dirty handle c, x))
  | Remove handle => (let* _ := remove handle in st_ret tt) (c, x)
  | Flush => flush pid (c, x)
  end.

(** A client goes on after an error; [None] is a panic. *)
Fixpoint run_ops (ops : list Op) (s : t * Fs) : option (t * Fs) :=
  match ops with
  | [] => Some s
  | op :: ops =>
      match run_op op s with
      | (Panic, _) => None
      | (_, s) => run_ops ops s
      end
  end.

(** What is passed can be encoded: a policy has fewer than 2^32 steps, since
    its length is written in four bytes. *)
Definition op_ok (op : Op) : Prop :=
  match op with
  | SaveTransient context public parent policy =>
      ∀ h, transient h → storable (new_key (th h) public parent context policy)
  | SavePersistent handle public parent policy =>
      is_Some (wire TpmHandle handle) ∧ storable (new_key handle public parent default_context policy)
  | MarkDirty handle | Remove handle => is_Some (wire TpmHandle handle)
  | Flush => True
  end.
End operations.

Section ops.
Context `{Os} `{!FileErrors} `{!MapOrder} `{LibcryptoOk}.
Variables (pid heap : Z).
Hypothesis Hheap : 0 ≤ heap ≤ usize_max - isize_max.
Variable persistent : gmap (list byte) TpmInt.t.
Implicit Types (c : t) (k : VtpmKey.t) (x : Fs) (d : directory).
Local Abbreviation E := VtpmError.t.
Local Abbreviation store_ok := (store_ok heap persistent).

(** ** Each operation keeps the store *)

Lemma store_insert c x h k nm :
  store_ok c x → is_slot h → storable k → hv (VtpmKey.handle k) = h → name_of (VtpmKey.public k) = Ok nm →
  store_ok (insert_key h k nm c) x.
Proof using Type.
  intros [Hok Hback Hn Ht Hh] Hs Hk Ehv Hnm.
  assert (contexts (insert_key h k nm c) = <[h := k]> (contexts c) ∧
          dirty (insert_key h k nm c) = {[h]} ∪ dirty c) as [Ec Ed].
  { unfold insert_key, publish_name. cbv zeta. cbn [set_dirty contexts dirty].
    by destruct (unpublish_parts h (set_contexts (<[h:=k]> (contexts c)) c)) as (-> & -> & _). }
  split; [| |done..].
  - by apply insert_ok.
  - intros h' Hs'. rewrite Ec, Ed. destruct (decide (h' = h)) as [->|Hne].
    + rewrite lookup_insert_eq. left. apply elem_of_union_l, elem_of_singleton_2. done.
    + rewrite lookup_insert_ne by done. specialize (Hback h' Hs'). case_match; [|done].
      destruct Hback; [left; by apply elem_of_union_r | by right].
Qed.

Lemma store_next c x n : store_ok c x → transient n → store_ok (set_next n c) x.
Proof using Type. intros [Hok ????] Hn. split; [by apply cache_ok_next|done..]. Qed.

Lemma store_dirty c x D : store_ok c x → dirty c ⊆ D → store_ok (set_dirty D c) x.
Proof using Type.
  intros [Hok Hback ???] HD. split; [by apply cache_ok_dirty| |done..].
  intros h Hs. specialize (Hback h Hs). cbn [set_dirty contexts dirty]. case_match; [|done].
  destruct Hback; [left; by apply HD | by right].
Qed.

Lemma store_gone c x T del c' y :
  store_ok c x → (∀ h, T h → 0 ≤ h ≤ u32_max) → gone persistent T c x del c' y → store_ok c' y.
Proof using Type.
  intros [Hok Hback Hn Ht Hh] HT Hg. pose proof (gone_sheds _ _ _ _ _ _ _ Hg) as Hsheds.
  destruct Hg as [Hok' Hc Hd Hnx Hf Htg Hp].
  assert (∀ h, is_slot h → h ∉ del → files y !! record_name h = files x !! record_name h) as Hkept.
  { intros h Hs Hi. rewrite Hf, decide_False; [done|]. intros (h' & E' & Hin)%list_elem_of_fmap.
    rewrite list.Forall_forall in Htg. apply record_name_inj in E'; [congruence|by apply slot_u32|by apply HT, Htg]. }
  assert (∀ h, h ∈ del → files y !! record_name h = None) as Hlost.
  { intros h Hi. rewrite Hf, decide_True; [done|]. by apply list_elem_of_fmap_2. }
  split.
  - done.
  - intros h Hs. rewrite Hc. case_decide as Hi.
    + by apply Hlost.
    + specialize (Hback h Hs). specialize (Hkept h Hs Hi).
      destruct (contexts c !! h); [|by rewrite Hkept].
      destruct Hback as [Hdi|?]; [left | right; by apply (on_disk_ext (files x))].
      rewrite Hd. apply elem_of_difference. split; [done|]. by rewrite elem_of_list_to_set.
  - intros h k Hs Hl. destruct (decide (h ∈ del)) as [Hi|Hi]; [unfold loads in Hl; by rewrite Hlost in Hl|].
    apply (Hn h); [done|]. by rewrite <-(loads_ext heap (files y)) by by apply Hkept.
  - eapply tidy_shrinks; [done|]. intros p. destruct (Hsheds p) as [?|[? _]]; [by left | by right].
  - eapply honest_passes; [exact Hp | done].
Qed.

Lemma removed_u32 c h h' :
  cache_ok persistent c → 0 ≤ h ≤ u32_max → removed c h h' → 0 ≤ h' ≤ u32_max.
Proof using Type.
  intros Hok Hu [->|(k & Hk & [k' Hk']%descends_key)]; [done|].
  destruct (keys_cached _ _ Hok _ _ Hk') as [Hs _]. by apply slot_u32.
Qed.

(** ** Records on disk are complete

    In every directory the cache goes through, a record file is all of what
    was written for some key. *)

Definition whole d : Prop := tidy d ∧ ∀ h f, is_slot h → d !! record_name h = Some f →
  ∃ k nm, storable k ∧ hv (VtpmKey.handle k) = h ∧ contents f = record_bytes k ∧
    name_of (VtpmKey.public k) = Ok nm.

Lemma whole_saves c x d : store_ok c x → whole (files x) → saves c x d → whole d.
Proof using Type.
  intros Hok [_ Hw] [Ht Hs]. split; [done|]. intros h f Hh Hf. destruct (Hs h Hh) as [E'|(_ & k & Hk & E')].
  - rewrite E' in Hf. by eapply Hw.
  - destruct (keys_cached _ _ (store_cache _ _ _ _ Hok) h k Hk) as (_ & Hst & Ehv & nm & _ & Hnm).
    rewrite E' in Hf. injection Hf as <-. by exists k, nm.
Qed.

Lemma whole_shrinks x d : whole (files x) → (∀ p, d !! p = files x !! p ∨ d !! p = None) → whole d.
Proof using Type.
  intros [Ht Hw] Hd. split; [by eapply tidy_shrinks|]. intros h f Hh Hf.
  destruct (Hd (record_name h)) as [E'|E']; [|congruence].
  eapply Hw; [done|]. by rewrite <-E'.
Qed.

Lemma run_op_spec op c x :
  store_ok c x → whole (files x) → op_ok op →
  let '(r, (c', y)) := run_op pid op (c, x) in r ≠ Panic ∧ store_ok c' y ∧ passes whole x y.
Proof using All.
  intros Hok Hw Hop. pose proof (store_cache _ _ _ _ Hok) as Hc. destruct op as [context public parent policy
    |handle public parent policy|handle|handle|]; cbn [run_op op_ok] in *.
  - pose proof (Hop TRANSIENT_START ltac:(done)) as [(_ & _ & Hpub & _) _]. cbn in Hpub.
    pose proof (next_transient _ _ Hc) as Hn.
    pose proof (save_transient_spec c context public parent policy Hpub Hn) as Hs.
    destruct (save_transient context public parent policy c) as [[h|e|] c']; cbn [st_outcome result_bind] in *; [..|done].
    + destruct Hs as (v & nm & -> & Hv%first_free_transient & Hnm & ->); [|done].
      pose proof (transient_slot v Hv) as Hs. split; [done|]. split; [|apply passes_refl].
      apply store_next; [|by apply next_handle_range]. apply store_insert; [done..|by apply Hop| |done].
      cbn. by apply hv_th, slot_u32.
    + destruct Hs as [_ ->]. split_and!; [done..|apply passes_refl].
  - destruct Hop as [Hwire Hk]. pose proof Hk as [(_ & _ & Hpub & _) _]. cbn in Hpub.
    pose proof (save_persistent_spec c handle public parent policy Hpub) as Hs.
    destruct (th_hv handle Hwire) as [_ Hu].
    destruct (save_persistent handle public parent policy c) as [[[]|e|] c']; cbn [st_outcome] in *; [..|done].
    + destruct Hs as (Ht & nm & Hnm & ->). split; [done|]. split; [|apply passes_refl].
      apply store_insert; [done|by apply slot_type; [|right]|done..].
    + destruct Hs as [-> _]. split_and!; [done..|apply passes_refl].
  - split; [done|]. split; [|apply passes_refl]. apply store_dirty; [done|]. apply union_subseteq_r.
  - pose proof (remove_spec persistent c x handle Hc (store_honest _ _ _ _ Hok) Hop) as Hr.
    destruct (th_hv handle Hop) as [_ Hu].
    assert (∀ del c' y, gone persistent (removed c (hv handle)) c x del c' y → store_ok c' y ∧ passes whole x y) as Hgone.
    { intros del c' y Hg. split; [eapply store_gone; [done| |done]; intros h; by apply removed_u32|].
      eapply passes_impl; [|by apply (gone_passes _ _ _ _ _ _ _ Hg)]. intros d Hd. eapply whole_shrinks; [done|].
      intros p. destruct (Hd p) as [?|[? _]]; [by left | by right]. }
    unfold st_bind. destruct (remove handle (c, x)) as [[l|e|] [c' y]]; cbn [st_outcome fst snd] in *; [..|done].
    + split; [done|]. destruct (contexts c !! hv handle).
      * destruct Hr as (del & _ & _ & _ & Hg). by eapply Hgone.
      * destruct Hr as [_ [= -> ->]]. split; [done | apply passes_refl].
    + split; [done|]. destruct Hr as (_ & del & Hg). by eapply Hgone.
  - pose proof (flush_spec pid heap Hheap persistent c x Hok) as Hf.
    destruct (flush pid (c, x)) as [r [c' y]], Hf as (Hok' & Hp & Hr). split; [by destruct r|]. split; [done|].
    eapply passes_impl; [|exact Hp]. intros d. by apply whole_saves.
Qed.

Lemma run_ops_spec ops c x :
  store_ok c x → whole (files x) → Forall op_ok ops →
  ∃ c' y, run_ops pid ops (c, x) = Some (c', y) ∧ store_ok c' y ∧ passes whole x y.
Proof using All.
  intros Hok Hw HF. revert c x Hok Hw. induction HF as [|op ops Hop HF IH]; intros c x Hok Hw; cbn [run_ops].
  { exists c, x. split_and!; [done..|apply passes_refl]. }
  pose proof (run_op_spec op c x Hok Hw Hop) as Hr.
  destruct (run_op pid op (c, x)) as [r [c1 x1]], Hr as (Hnp & Hok1 & Hp1).
  assert (whole (files x1)) as Hw1 by (eapply passes_files; [exact Hw | exact Hp1]).
  destruct (IH c1 x1 Hok1 Hw1) as (c' & y & E' & Hok' & Hp'). exists c', y.
  split; [by destruct r|]. split; [done|]. by eapply passes_trans.
Qed.

(** ** Opening again *)

(** A directory as the next process finds it. *)
Definition disk (left_ : gmap str (list byte)) : Fs := mk_fs ((λ bs, mk_file bs true) <$> left_) [] [].

Lemma leaves_lookup d left_ path h :
  tidy d → leaves d left_ → name_handle path = Some h →
  files (disk left_) !! path = (λ f, mk_file (contents f) true) <$> d !! path.
Proof using Type.
  intros Ht [Hdom Hl] Hp. cbn [disk files]. rewrite lookup_fmap. destruct (d !! path) as [f|] eqn:Hf; cbn [fmap option_fmap option_map].
  - rewrite (Hl path f Hf); [done|]. by eapply tidy_synced.
  - apply not_elem_of_dom in Hf. rewrite <-Hdom in Hf. apply not_elem_of_dom in Hf. by rewrite Hf.
Qed.

Lemma leaves_tidy d left_ : tidy d → leaves d left_ → tidy (files (disk left_)).
Proof using Type.
  intros Ht Hl. split.
  - intros path h Hs Hp. apply (tidy_name d Ht); [|done]. rewrite (leaves_lookup d left_ path h Ht Hl Hp) in Hs.
    by apply fmap_is_Some in Hs.
  - intros path f h Hf Hp. rewrite (leaves_lookup d left_ path h Ht Hl Hp) in Hf. by destruct (d !! path); [injection Hf as <-|].
Qed.

Lemma leaves_loads d left_ h :
  tidy d → leaves d left_ → is_slot h →
  loads heap (files (disk left_)) (record_name h) h = loads heap d (record_name h) h.
Proof using Type.
  intros Ht Hl Hs. unfold loads.
  rewrite (leaves_lookup d left_ (record_name h) h) by (try done; by apply record_name_handle, slot_u32).
  by destruct (d !! record_name h).
Qed.

Lemma named_nameless d : tidy d → named heap d → ¬ nameless heap d.
Proof using Type.
  intros Ht Hn (path & h & k & Hf & Hnm). pose proof (fate_missing _ _ _ _ _ Hf) as Hm.
  apply fate_cached in Hf as (Hp & Hs & Hl).
  pose proof (tidy_name _ Ht path h Hm Hp) as ->. by destruct (Hn h k Hs Hl) as [nm ?%Hnm].
Qed.

(** What a directory the machine stopped in, or the program left, is opened
    as. *)
Lemma reopen d left_ :
  tidy d → named heap d → leaves d left_ → all_persistent persistent →
  ∃ c y, new heap persistent (disk left_) = (Ok c, y) ∧ opened heap persistent (disk left_) c y ∧
  ∀ h, is_slot h → contexts c !! h = loads heap d (record_name h) h.
Proof using All.
  intros Ht Hn Hl Hp. pose proof (leaves_tidy d left_ Ht Hl) as Ht'.
  pose proof (new_exact heap Hheap persistent (disk left_) Ht' eq_refl Hp) as Ho.
  destruct (new heap persistent (disk left_)) as [[c|e|] y]; cbn [st_outcome] in Ho; [|exfalso|done].
  - exists c, y. split; [done|]. split; [done|]. intros h Hs.
    rewrite (opened_keys _ _ _ _ _ Ho h Hs). by apply leaves_loads.
  - destruct Ho as [_ Ho]. revert Ho. apply named_nameless; [done|].
    intros h k Hs. rewrite (leaves_loads d) by done. by apply Hn.
Qed.

Lemma leaves_all d : leaves d (contents <$> d).
Proof using Type. split; [apply dom_fmap_L|]. intros path f Hf _. by rewrite lookup_fmap, Hf. Qed.

Lemma whole_named d : whole d → named heap d.
Proof using Hheap.
  intros [_ Hw] h k Hs Hl. pose proof Hl as (f & Hf & _)%loads_Some; [|done].
  destruct (Hw h f Hs Hf) as (k' & nm & Hk' & Hh' & Hc & Hnm).
  apply (loads_fit heap Hheap d h k') in Hl as ->; [by exists nm|by exists f|done..].
Qed.

Lemma opened_whole x c y : opened heap persistent x c y → whole (files y).
Proof using Hheap.
  intros [Hst Hcl _ _ _]. split; [apply Hst|]. intros h f Hs Hf.
  pose proof (store_backed _ _ _ _ Hst h Hs) as Hb. destruct (contexts c !! h) as [k|] eqn:Hk; [|congruence].
  destruct Hb as [Hd|(f' & Hf' & Hc)]; [by rewrite Hcl in Hd|]. simplify_eq.
  destruct (keys_cached _ _ (store_cache _ _ _ _ Hst) h k Hk) as (_ & Hsk & Ehv & nm & _ & Hnm). by exists k, nm.
Qed.

(** What of a key is found again. *)
Definition survives (o : option VtpmKey.t) : option VtpmKey.t :=
  k ← o; if fits k then Some k else None.

(** What opening found is found again. *)
Lemma opened_survives x c y h : opened heap persistent x c y → survives (contexts c !! h) = contexts c !! h.
Proof using Hheap.
  intros Ho. destruct (contexts c !! h) as [k|] eqn:Hk; [|done].
  destruct (keys_cached _ _ (store_cache _ _ _ _ (opened_store _ _ _ _ _ Ho)) h k Hk) as [Hs _].
  rewrite (opened_keys _ _ _ _ _ Ho h Hs) in Hk. apply loads_Some in Hk as (f & _ & _ & Hf & _); [|done].
  unfold survives. cbn [mbind option_bind]. by rewrite keepable_fits.
Qed.

(** A directory in the course of a flush holds each key as it was on disk, or
    as it is in the cache. *)
Lemma saves_loads c x d h :
  store_ok c x → saves c x d → is_slot h →
  loads heap d (record_name h) h = loads heap (files x) (record_name h) h ∨
  h ∈ dirty c ∧ is_Some (contexts c !! h) ∧ loads heap d (record_name h) h = survives (contexts c !! h).
Proof using Hheap.
  intros Hok Hs Hh. destruct (saves_records _ _ _ Hs h Hh) as [E'|(Hd & k & Hk & E')].
  - left. by apply loads_ext.
  - right. destruct (keys_cached _ _ (store_cache _ _ _ _ Hok) h k Hk) as (_ & Hst & Ehv & _).
    rewrite Hk. split; [done|]. split; [by eexists|]. apply loads_on_disk; [done|by eexists|done..].
Qed.

Lemma clean_on_disk c x h k :
  store_ok c x → dirty c = ∅ → contexts c !! h = Some k → on_disk (files x) h k.
Proof using Type.
  intros Hok Hcl Hk. destruct (keys_cached _ _ (store_cache _ _ _ _ Hok) h k Hk) as [Hs _].
  pose proof (store_backed _ _ _ _ Hok h Hs) as Hb. rewrite Hk, Hcl in Hb. by destruct Hb as [?%elem_of_empty|?].
Qed.

Lemma saves_named c x d : store_ok c x → saves c x d → named heap d.
Proof using Hheap.
  intros Hok Hs h k Hh Hl. destruct (saves_loads c x d h Hok Hs Hh) as [E'|(_ & [k' Hk] & E')]; rewrite E' in Hl.
  - by apply (store_named _ _ _ _ Hok h).
  - rewrite Hk in Hl. cbn in Hl. destruct (fits k'); [|done]. injection Hl as ->.
    destruct (keys_cached _ _ (store_cache _ _ _ _ Hok) h k Hk) as (_ & _ & _ & nm & _ & Hnm). by exists nm.
Qed.

(** Opening the directory of a clean cache gives its keys, and keeps their
    files, if they fit; the others are deleted. *)
Lemma clean_opened c x x1 c' y :
  store_ok c x → dirty c = ∅ → files x1 = files x → opened heap persistent x1 c' y →
  ∀ h, contexts c' !! h = survives (contexts c !! h) ∧
    (is_slot h → files y !! record_name h =
      if survives (contexts c !! h) then files x1 !! record_name h else None).
Proof using Hheap.
  intros Hok Hcl Ef Ho h. pose proof (store_cache _ _ _ _ Hok) as Hc.
  assert (is_slot h → loads heap (files x1) (record_name h) h = survives (contexts c !! h)) as Hl.
  { intros Hs. rewrite Ef. pose proof (store_backed _ _ _ _ Hok h Hs) as Hb. rewrite Hcl in Hb.
    destruct (contexts c !! h) as [k|] eqn:Hk; [|unfold loads; by rewrite Hb].
    destruct Hb as [?%elem_of_empty|Hd]; [done|]. cbn.
    destruct (keys_cached _ _ Hc h k Hk) as (_ & Hst & Ehv & _). by apply loads_on_disk. }
  split.
  - destruct (decide (is_slot h)) as [Hs|Hs]; [by rewrite (opened_keys _ _ _ _ _ Ho h Hs), Hl|].
    destruct (contexts c' !! h) as [k|] eqn:Hk.
    { by destruct (keys_cached _ _ (store_cache _ _ _ _ (opened_store _ _ _ _ _ Ho)) h k Hk). }
    destruct (contexts c !! h) as [k|] eqn:Hk'; [|done]. by destruct (keys_cached _ _ Hc h k Hk').
  - intros Hs. rewrite (opened_files _ _ _ _ _ Ho), fate_record, Hl by done.
    destruct (survives (contexts c !! h)); [by rewrite decide_False|by rewrite decide_True].
Qed.
End ops.
