(* ===== verification/VtpmAncestors.v ===== *)
(** The ancestors of a key. *)

From stdpp Require Import gmap relations.
From S2P Require Import Prelude State Errors Writer Codec Integer Buffer Tpml Struct EnumMacro Union Enums Attributes.
From S2P Require Import BasicTypes Schemes Structures Body FrameData Dispatch Envelope Marshal Crypto Hash Text Transport.
From S2P Require Import VtpmPolicy FileSystem Vtpm VtpmPolicySpec VtpmRecord VtpmSpec VtpmRemove.
Import VtpmCache.

Section ancestors.
Context `{Os} `{!FileErrors} `{!MapOrder} `{LibcryptoOk}.
Implicit Types (c : t) (k : VtpmKey.t).
Local Abbreviation E := VtpmError.t.
Local Abbreviation has_parent := (λ k, TpmtPublic.object_type (VtpmKey.parent k) ≠ TpmAlgId.Null).

(** [p] is a cached parent of [h]. *)
Definition parent_of c (p h : Z) : Prop :=
  ∃ kp k, contexts c !! p = Some kp ∧ contexts c !! h = Some k ∧
    has_parent k ∧ VtpmKey.public kp = VtpmKey.parent k.

(** No cached key has the parent of [k]. *)
Definition no_parent c k : Prop :=
  ∀ p kp, contexts c !! p = Some kp → VtpmKey.public kp ≠ VtpmKey.parent k.

(** The handles to load for [h], from the root down: a primary key of the
    cache, or the handle its parent's name resolves to. *)
Inductive lineage c : Z → list TpmInt.t → Prop :=
| lineage_primary h k :
    contexts c !! h = Some k → TpmtPublic.object_type (VtpmKey.parent k) = TpmAlgId.Null → lineage c h [th h]
| lineage_physical h k nm ph :
    contexts c !! h = Some k → has_parent k → no_parent c k → name_of (VtpmKey.parent k) = Ok nm →
    handles c !! TpmBuffer.deref nm = Some ph → lineage c h [ph; th h]
| lineage_child h p l : parent_of c p h → lineage c p l → lineage c h (l ++ [th h]).

(** Why there is no way up from [h]. *)
Definition orphan c (h : Z) (e : E) : Prop :=
  ∃ a k, rtc (parent_of c) a h ∧ contexts c !! a = Some k ∧ has_parent k ∧ no_parent c k ∧
  (e = VtpmError.ParentNotFound ∧
     (∃ nm, name_of (VtpmKey.parent k) = Ok nm ∧ handles c !! TpmBuffer.deref nm = None) ∨
   e = VtpmError.OperationFailed ∧ name_of (VtpmKey.parent k) = Err e).

(** The search for a parent. *)
Local Abbreviation search c k :=
  (List.find (λ '(_, parent_key), bool_decide (VtpmKey.public parent_key = VtpmKey.parent k)) (iter (contexts c))).

Lemma search_Some c k p kp :
  search c k = Some (p, kp) → contexts c !! p = Some kp ∧ VtpmKey.public kp = VtpmKey.parent k.
Proof using Type.
  intros Hf. apply List.find_some in Hf as [Hin Hb]. apply bool_decide_eq_true in Hb. split; [|done].
  by apply iter_elem, list_elem_of_In.
Qed.

Lemma search_None c k : search c k = None → no_parent c k.
Proof using Type.
  intros Hf p kp Hp E'. pose proof (List.find_none _ _ Hf (p, kp)) as Hn. cbn in Hn.
  rewrite bool_decide_eq_true_2 in Hn by done. discriminate Hn. by apply list_elem_of_In, iter_elem.
Qed.

Definition above (phys : option TpmInt.t) (r : TpmInt.t) (chain : list TpmInt.t) : list TpmInt.t :=
  match phys with Some ph => ph :: r :: chain | None => r :: chain end.

Section lookup.
Variables (persistent : gmap (list byte) TpmInt.t) (c : t).
Hypothesis Hok : cache_ok persistent c.

Lemma cached_u32 h k : contexts c !! h = Some k → 0 ≤ h ≤ u32_max.
Proof using Hok. intros Hk. destruct (keys_cached _ _ Hok h k Hk) as [Hs _]. by apply slot_u32. Qed.

Lemma parent_name_no_panic h k : contexts c !! h = Some k → name_of (VtpmKey.parent k) ≠ Panic.
Proof using All.
  intros Hk. destruct (keys_cached _ _ Hok h k Hk) as (_ & ((_ & _ & _ & ? & _) & _) & _).
  by apply name_of_no_panic.
Qed.

(** What the loop returns is right. *)
Lemma ancestors_loop_sound fuel cur chain r :
  th (hv cur) = cur → ancestors_loop c fuel cur chain = Some r →
  outcome (λ e, e = VtpmError.HandleNotFound cur ∧ contexts c !! hv cur = None ∨ orphan c (hv cur) e)
    (λ '(last, chain', phys), ∃ l, lineage c (hv cur) l ∧ above phys last chain' = l ++ chain) r.
Proof using All.
  revert cur chain. induction fuel as [|fuel IH]; intros cur chain Ecur; cbn [ancestors_loop]; [done|].
  unfold find_by_handle. destruct (contexts c !! hv cur) as [k|] eqn:Hk; [|intros [= <-]; by left].
  case_decide as Hnull.
  { intros [= <-]. cbn [outcome]. exists [cur]. split; [|done]. rewrite <-Ecur at 2.
    by eapply lineage_primary. }
  destruct (search c k) as [[p kp]|] eqn:Hs.
  - apply search_Some in Hs as [Hp Epar]. pose proof (cached_u32 p kp Hp) as Hu.
    assert (parent_of c p (hv cur)) as Hpo by by exists kp, k.
    intros Hl%IH; [|by rewrite hv_th]. rewrite hv_th in Hl by done.
    destruct r as [[[last chain'] phys]|e|]; cbn [outcome] in *; [..|done].
    + destruct Hl as (l & Hlin & ->). exists (l ++ [cur]). split; [|by rewrite <-app_assoc].
      rewrite <-Ecur at 2. by eapply lineage_child.
    + right. destruct Hl as [[_ Hn]|(a & ka & Ha & ?)]; [congruence|]. exists a, ka. split; [|done].
      eapply rtc_r; [done|done].
  - apply search_None in Hs. pose proof (parent_name_no_panic _ k Hk) as Hnp. intros [= <-].
    destruct (name_of (VtpmKey.parent k)) as [nm|e|] eqn:Hnm; cbn [result_bind]; [..|done].
    + destruct (handles c !! TpmBuffer.deref nm) as [ph|] eqn:Hph; cbn [outcome].
      * exists [ph; cur]. split; [|done]. rewrite <-Ecur at 2. by eapply lineage_physical.
      * right. exists (hv cur), k. split_and!; [apply rtc_refl|done..|]. left. split; [done|]. by exists nm.
    + cbn [outcome]. right. exists (hv cur), k. split_and!; [apply rtc_refl|done..|]. right. split; [|done].
      unfold name_of in Hnm. revert Hnm. by destruct (tpm_make_name _); [|intros [= <-]|].
Qed.

(** A key is not above itself. *)
Definition acyclic : Prop := ∀ h, ¬ tc (parent_of c) h h.

Lemma NoDup_keys (V : list Z) :
  NoDup V → (∀ v, v ∈ V → is_Some (contexts c !! v)) → (length V ≤ size (contexts c))%nat.
Proof using Type.
  intros Hnd HV. rewrite <-(size_list_to_set (C:=gset Z) V Hnd), <-size_dom.
  apply subseteq_size. intros h Hh%elem_of_list_to_set. by apply elem_of_dom, HV.
Qed.

(** The loop visits a key at most once. *)
Lemma ancestors_loop_ends fuel cur chain V :
  acyclic → NoDup V → (∀ v, v ∈ V → is_Some (contexts c !! v) ∧ tc (parent_of c) (hv cur) v) →
  (size (contexts c) < fuel + length V)%nat → is_Some (ancestors_loop c fuel cur chain).
Proof using Hok.
  intros Hac. revert cur chain V. induction fuel as [|fuel IH]; intros cur chain V Hnd HV Hlen.
  { pose proof (NoDup_keys V Hnd (λ v Hv, proj1 (HV v Hv))). lia. }
  cbn [ancestors_loop]. unfold find_by_handle. destruct (contexts c !! hv cur) as [k|] eqn:Hk; [|by eexists].
  case_decide as Hnull; [by eexists|]. destruct (search c k) as [[p kp]|] eqn:Hs; [|by eexists].
  apply search_Some in Hs as [Hp Epar]. assert (parent_of c p (hv cur)) as Hpo by by exists kp, k.
  apply (IH _ _ (hv cur :: V)); [| |cbn [length]; lia].
  - constructor; [|done]. intros Hin. destruct (HV _ Hin) as [_ Htc]. by apply (Hac (hv cur)).
  - rewrite hv_th by by eapply cached_u32. intros v [->|Hv]%elem_of_cons; [by split; [eexists|apply tc_once]|].
    destruct (HV v Hv) as [? Htc]. split; [done|]. by eapply tc_l.
Qed.

Lemma elem_of_handles ph : ph ∈ (iter (handles c)).*2 ↔ ∃ n, handles c !! n = Some ph.
Proof using Type.
  rewrite list_elem_of_fmap. split.
  - intros ([n ph'] & -> & Hi). rewrite (iter_perm (handles c)) in Hi. exists n. by apply elem_of_map_to_list in Hi.
  - intros [n Hn]. exists (n, ph). split; [done|]. rewrite (iter_perm (handles c)). by apply elem_of_map_to_list.
Qed.

Definition resident (target : TpmInt.t) : Prop :=
  handle_type (hv target) = value TpmHt.Persistent ∧ ∃ n, handles c !! n = Some target.

Lemma fetch_ancestors_sound fuel target r :
  is_Some (wire TpmHandle target) → fetch_ancestors c fuel target = Some r →
  resident target ∧ r = Ok [target] ∨
  ¬ resident target ∧
  outcome (λ e, e = VtpmError.HandleNotFound target ∧ contexts c !! hv target = None ∨ orphan c (hv target) e)
    (lineage c (hv target)) r.
Proof using All.
  intros [Eth _]%th_hv. unfold fetch_ancestors.
  destruct ((handle_type (hv target) =? value TpmHt.Persistent) && _) eqn:Hb.
  - apply andb_true_iff in Hb as [Ht%Z.eqb_eq Hin%bool_decide_eq_true%elem_of_handles]. intros [= <-]. by left.
  - intros Hr. right. split.
    { intros [Ht Hin%elem_of_handles]. apply andb_false_iff in Hb as [Hb%Z.eqb_neq|Hb%bool_decide_eq_false]; done. }
    destruct (ancestors_loop c fuel target []) as [r'|] eqn:Hl; [|done]. cbn [mbind option_bind] in Hr. injection Hr as <-.
    apply ancestors_loop_sound in Hl; [|done].
    destruct r' as [[[last chain] phys]|e|]; cbn [outcome result_bind] in *; [..|done].
    + destruct Hl as (l & Hlin & E'). rewrite app_nil_r in E'. unfold above in E'. by destruct phys; rewrite E'.
    + done.
Qed.

Lemma fetch_ancestors_ends fuel target :
  acyclic → (size (contexts c) < fuel)%nat → is_Some (fetch_ancestors c fuel target).
Proof using Hok.
  intros Hac Hf. unfold fetch_ancestors. case_match; [by eexists|].
  destruct (ancestors_loop_ends fuel target [] []) as [r ->]; [done|constructor|by intros v ?%elem_of_nil|simpl; lia|].
  by eexists.
Qed.
End lookup.

(** A key that is its own parent, as a record on disk can say: the search goes
    on for ever. *)
Lemma own_parent_endless persistent c h k fuel chain :
  cache_ok persistent c → contexts c !! h = Some k → has_parent k → VtpmKey.public k = VtpmKey.parent k →
  (∀ h' k', contexts c !! h' = Some k' → VtpmKey.public k' = VtpmKey.public k → h' = h) →
  ancestors_loop c fuel (th h) chain = None.
Proof using Type.
  intros Hok Hk Hp Hself Hother. revert chain. induction fuel as [|fuel IH]; intros chain; cbn [ancestors_loop]; [done|].
  unfold find_by_handle. rewrite hv_th by by eapply cached_u32. rewrite Hk. rewrite decide_False by done.
  destruct (search c k) as [[p kp]|] eqn:Hs.
  - apply search_Some in Hs as [Hp' E']. rewrite (Hother p kp Hp') by by rewrite E'. apply IH.
  - apply search_None in Hs. by destruct (Hs h k Hk).
Qed.
End ancestors.
