(* ===== verification/VtpmProperties.v ===== *)
(** What the key cache promises: the invariants of its operations under any
    failures, that what was flushed is found again, also after a crash, and the
    behaviour of each operation. *)

From stdpp Require Import gmap relations.
From S2P Require Import Prelude State Errors Writer Codec Integer Buffer Tpml Struct EnumMacro Union Enums Attributes.
From S2P Require Import BasicTypes Schemes Structures Body FrameData Dispatch Envelope Command Marshal Crypto Hash Text Transport.
From S2P Require Import Policy PolicySpec DataProperties FrameProperties CryptoProperties PolicyProperties.
From S2P Require Import VtpmPolicy FileSystem Vtpm VtpmPolicySpec VtpmRecord VtpmSpec VtpmRemove VtpmStore VtpmOpen VtpmOps VtpmAncestors.
Import VtpmCache.

(** ** A concrete cache for the witnesses *)

#[local] Instance sample_os : Os :=
  Build_Os ErrorKind id Z (λ e, e =? 4) (λ e, if e =? 4 then InterruptedKind else OtherKind).
#[local] Instance sample_errors : FileErrors := {| not_found := NotFoundKind : IoError; not_found_kind := eq_refl |}.
#[local] Instance sample_order : MapOrder.
Proof. refine {| iter := λ K A _ _ m, map_to_list m |}. done. Defined.

(** A primary key has the empty public area as its parent. *)
Definition null_public : ty TpmtPublic :=
  TpmtPublic.mk TpmAlgId.Null TpmAlgId.Null (Bitflags.from_bits_truncate 0) (TpmBuffer.new 64)
    TpmuPublicParms.Null TpmuPublicId.Null.
Definition sample_step : VtpmPolicyCommand := Default (VtpmPolicyDefaultCommand.mk TpmCc.PolicyAuthValue []).

(** A primary key with a child, and the metadata of a persistent key. *)
Definition sample_ops : list Op :=
  [SaveTransient default_context keyed_hash_public null_public None;
   SaveTransient default_context sample_public keyed_hash_public None;
   SavePersistent (TpmInt.new 4 0x81000001) sample_public null_public (Some [sample_step])].

Definition empty_fs : Fs := mk_fs ∅ [] [].
Definition sample_new : t * Fs :=
  match new 0 ∅ empty_fs with (Ok c, x) => (c, x) | (_, x) => (mk ∅ ∅ ∅ ∅ 0, x) end.
Definition sample_state : t * Fs := default sample_new (run_ops 7 sample_ops sample_new).
Definition sample_cache : t := sample_state.1.
Definition sample_fs : Fs := sample_state.2.

Definition no_persistent : gmap (list byte) TpmInt.t := ∅.

Lemma small_storable h public parent :
  0 ≤ h ≤ u32_max → is_Some (wire TpmtPublic public) → is_Some (wire TpmtPublic parent) →
  storable (new_key (th h) public parent default_context None).
Proof.
  intros Hh Hpub Hpar.
  assert (key_ok (new_key (th h) public parent default_context None)) as Hk.
  { split_and!; [done|by apply th_wire|done|done|apply default_context_wire|constructor]. }
  by split.
Qed.

Lemma sample_publics : is_Some (wire TpmtPublic null_public) ∧ is_Some (wire TpmtPublic keyed_hash_public) ∧
  is_Some (wire TpmtPublic sample_public).
Proof. split_and!; eexists; vm_compute; reflexivity. Qed.

Lemma sample_persistent_ok h n : 0 ≤ h ≤ u32_max → Z.of_nat n ≤ u32_max →
  op_ok (SavePersistent (th h) sample_public null_public (Some (repeat sample_step n))).
Proof.
  intros Hh Hn. destruct sample_publics as (Hnull & _ & Hs). split; [by apply th_wire|].
  split; [|cbn; unfold zlen; by rewrite repeat_length].
  split_and!; [done|by apply th_wire|done|done|apply default_context_wire|].
  apply List.Forall_forall. intros p Hp%repeat_spec. subst p. split; [done|]. by exists ().
Qed.

Lemma sample_ops_ok : Forall op_ok sample_ops.
Proof.
  destruct sample_publics as (Hn & Hk & Hs).
  constructor; [|constructor; [|constructor; [|constructor]]]; cbn [op_ok].
  - intros h Hh%transient_slot%slot_u32. by apply small_storable.
  - intros h Hh%transient_slot%slot_u32. by apply small_storable.
  - by apply (sample_persistent_ok 0x81000001 1).
Qed.

Lemma sample_opened : opened 0 no_persistent empty_fs sample_new.1 sample_new.2.
Proof.
  assert (tidy (files empty_fs)) as Ht by (split; intros path; cbn [files empty_fs]; rewrite lookup_empty; [by intros h []|done]).
  assert (all_persistent no_persistent) as Hp by (intros n ph Hn; unfold no_persistent in Hn; by rewrite lookup_empty in Hn).
  pose proof (new_exact 0 ltac:(done) no_persistent empty_fs Ht eq_refl Hp) as Ho.
  unfold sample_new. change (new 0 ∅ empty_fs) with (new 0 no_persistent empty_fs).
  assert (∃ c x, new 0 no_persistent empty_fs = (Ok c, x)) as (c & x & E).
  { eexists _, _. vm_compute. reflexivity. }
  rewrite E in *. exact Ho.
Qed.

Lemma ops_ran ops : Forall op_ok ops →
  let s := default sample_new (run_ops 7 ops sample_new) in
  run_ops 7 ops sample_new = Some s ∧ store_ok 0 no_persistent s.1 s.2.
Proof.
  intros Hops. pose proof sample_opened as Ho.
  destruct (run_ops_spec 7 0 ltac:(done) no_persistent ops sample_new.1 sample_new.2) as (c & y & E & Hs & _).
  - apply (opened_store _ _ _ _ _ Ho).
  - by eapply opened_whole.
  - exact Hops.
  - assert (run_ops 7 ops sample_new = Some (c, y)) as E' by (rewrite <-E; by destruct sample_new).
    cbv zeta. rewrite E'. by split.
Qed.

Lemma sample_ran : store_ok 0 no_persistent sample_cache sample_fs.
Proof. apply (ops_ran sample_ops sample_ops_ok). Qed.

(** Another key, with a step too many *)
Definition long_state : t * Fs :=
  default sample_new (run_ops 7 (sample_ops ++
    [SavePersistent (th 0x81000002) sample_public null_public (Some (repeat sample_step 17))]) sample_new).
Lemma long_ran : store_ok 0 no_persistent long_state.1 long_state.2.
Proof.
  apply ops_ran, Forall_app. split; [apply sample_ops_ok|]. constructor; [by apply sample_persistent_ok|constructor].
Qed.

(** Checks that evaluate. *)
Definition tidy_check (d : directory) : bool :=
  forallb (λ '(path, f), match name_handle path with
    | Some h => bool_decide (path = record_name h) && synced f
    | None => true end) (map_to_list d).

Lemma tidy_checked d : tidy_check d = true → tidy d.
Proof.
  unfold tidy_check. rewrite forallb_forall. intros Hall.
  assert (∀ path f h, d !! path = Some f → name_handle path = Some h → path = record_name h ∧ synced f = true) as Hd.
  { intros path f h Hf Hp. specialize (Hall (path, f)). cbn in Hall. rewrite Hp in Hall.
    apply andb_true_iff in Hall as [Hb ?]; [by apply bool_decide_eq_true in Hb|].
    by apply list_elem_of_In, elem_of_map_to_list. }
  split; [intros path h [f Hf] Hp; by apply (Hd path f h) | intros path f h Hf Hp; by apply (Hd path f h)].
Qed.

(** Parents have smaller handles. *)
Definition ascending (c : t) : bool :=
  forallb (λ '(p, kp), forallb (λ '(h, k),
    implb (bool_decide (VtpmKey.public kp = VtpmKey.parent k)) (p <? h)) (map_to_list (contexts c)))
    (map_to_list (contexts c)).

Lemma ascending_acyclic c : ascending c = true → acyclic c.
Proof.
  unfold ascending. rewrite forallb_forall. intros Hall.
  assert (∀ p h, parent_of c p h → p < h) as Hlt.
  { intros p h (kp & k & Hkp & Hk & _ & E). specialize (Hall (p, kp)). cbn beta iota in Hall.
    rewrite forallb_forall in Hall. specialize (Hall ltac:(by apply list_elem_of_In, elem_of_map_to_list) (h, k)).
    cbn beta iota in Hall. rewrite bool_decide_eq_true_2 in Hall by done.
    specialize (Hall ltac:(by apply list_elem_of_In, elem_of_map_to_list)). cbn in Hall. lia. }
  intros h Htc. assert (∀ a b, tc (parent_of c) a b → a < b) as Hlts; [|specialize (Hlts h h Htc); lia].
  induction 1 as [a b Hp|a b b' Hp _ IH]; [by apply Hlt | specialize (Hlt _ _ Hp); lia].
Qed.

Section properties.
Context `{Os} `{!FileErrors} `{!MapOrder} `{LibcryptoOk}.
Implicit Types (c : t) (k : VtpmKey.t) (x : Fs).

(** ** At work *)

(** C18.  From opening on a directory without failing calls, where every record
    file has the name of its handle and is synchronised, whatever operations
    run in whatever order, with keys of any size whose parts can be encoded and
    whose policies have fewer than 2^32 steps, and whichever calls on the file
    system fail (a failure only does not pretend that a file is missing): no
    operation panics; every key is cached under its own transient or persistent
    handle, has published its name, and every name resolves to the handle that
    published it or to the TPM's persistent handle; the file of a key that is
    not dirty is exactly its record, and a handle without a key has no file;
    and in every directory the file system went through, each record file is
    the complete record of a key.  (A record of more than 16 steps or 16 KiB is
    written like any other, but not read back: see C22.) *)
Theorem cache_invariant (pid heap : Z) (persistent : gmap (list byte) TpmInt.t) (x0 y0 : Fs) (c0 : t)
    (fails : list (option (nat * IoError))) (ops : list Op) :
  0 ≤ heap ≤ usize_max - isize_max → tidy (files x0) → faults x0 = [] →
  new heap persistent x0 = (Ok c0, y0) →
  honest (mk_fs (files y0) fails []) → Forall op_ok ops →
  ∃ c x, run_ops pid ops (c0, mk_fs (files y0) fails []) = Some (c, x) ∧
    cache_ok persistent c ∧ backed c (files x) ∧ Forall whole (states x) ∧ store_ok heap persistent c x.
Proof.
  intros Hheap Ht E0 Hnew Hh Hops.
  assert (all_persistent persistent) as Hp.
  { pose proof (new_safe heap Hheap persistent x0) as Hs. rewrite Hnew in Hs. apply Hs. }
  pose proof (new_exact heap Hheap persistent x0 Ht E0 Hp) as Ho. rewrite Hnew in Ho. cbn [st_outcome] in Ho.
  assert (whole (files y0)) as Hw by by eapply opened_whole.
  destruct (run_ops_spec pid heap Hheap persistent ops c0 (mk_fs (files y0) fails [])) as (c & x & E & Hok & Hpass);
    [|done..|].
  { by destruct (opened_store _ _ _ _ _ Ho). }
  exists c, x. split; [done|]. split; [apply Hok|]. split; [apply Hok|]. split; [|done].
  destruct Hpass as [(ds & Es & HF) _]. rewrite Es. apply Forall_app. split; [done|].
  constructor; [done|constructor].
Qed.

(** ** Opening again *)

(** C22.  What was flushed is found again, if it is not too large: flushing a
    cache (as C18 keeps it) never panics and fails only if a call on the file system does; when it
    succeeds, opening the directory again without failing calls, with the same
    handles of the TPM, caches every key that has at most 16 policy steps and a
    record of at most 16 KiB, unchanged, and keeps its file.  A larger key was
    flushed without an error, but is lost: it is not cached, and its file is
    deleted.  Nothing is found for a handle without a key. *)
Theorem flush_reopen (pid heap : Z) (persistent : gmap (list byte) TpmInt.t) (c c' : t) (x x' : Fs)
    (r : result VtpmError.t ()) :
  0 ≤ heap ≤ usize_max - isize_max → store_ok heap persistent c x → all_persistent persistent →
  flush pid (c, x) = (r, (c', x')) →
  (faults x = [] → r = Ok tt) ∧ r ≠ Panic ∧
  (r = Ok tt →
   ∃ c'' y, new heap persistent (mk_fs (files x') [] []) = (Ok c'', y) ∧
     cache_ok persistent c'' ∧ dirty c'' = ∅ ∧
     ∀ h, match contexts c !! h with
          | Some k =>
              on_disk (files x') h k ∧
              if (zlen (VtpmKey.policy k) <=? 16) && (zlen (record_bytes k) <=? 16384)
              then contexts c'' !! h = Some k ∧ files y !! record_name h = files x' !! record_name h
              else contexts c'' !! h = None ∧ files y !! record_name h = None
          | None => contexts c'' !! h = None ∧ (is_slot h → files y !! record_name h = None)
          end).
Proof.
  intros Hheap Hok Hp Hf. pose proof (flush_spec pid heap Hheap persistent c x Hok) as Hs. rewrite Hf in Hs.
  destruct Hs as (Hok' & _ & Hr). split; [|split].
  - intros E0. destruct r as [[]|e|]; [done| |done]. destruct Hr as [[Hne _] _]. done.
  - by destruct r.
  - intros ->. subst c'.
    pose proof (new_exact heap Hheap persistent (mk_fs (files x') [] []) (store_tidy _ _ _ _ Hok') eq_refl Hp) as Ho.
    destruct (new heap persistent _) as [[c''|e|] y]; cbn [st_outcome] in Ho; [|exfalso|done].
    2: { destruct Ho as [_ Ho]. revert Ho. apply named_nameless; apply Hok'. }
    exists c'', y. split; [done|]. split; [apply Ho|]. split; [apply Ho|]. intros h.
    destruct (clean_opened heap Hheap persistent (set_dirty ∅ c) x' (mk_fs (files x') [] []) c'' y Hok' eq_refl eq_refl Ho h)
      as [Ec Ef]. cbn [set_dirty contexts files] in Ec, Ef.
    destruct (contexts c !! h) as [k|] eqn:Hk; [|by split].
    destruct (keys_cached _ _ (store_cache _ _ _ _ Hok) h k Hk) as [Hs _].
    split; [by apply (clean_on_disk heap persistent _ _ h k Hok')|].
    change ((zlen (VtpmKey.policy k) <=? 16) && (zlen (record_bytes k) <=? 16384)) with (fits k).
    rewrite Ec, Ef by done. unfold survives. cbn [mbind option_bind]. by destruct (fits k).
Qed.

(** C21.  The machine may stop at any moment while a cache (as C18 keeps it) is
    flushed, and calls may fail before it does: opening what is then on disk,
    without failing calls and with the same handles of the TPM, succeeds, and
    finds for every handle either what opening would have found before the
    flush, or the dirty key as it was in the cache, if that key has at most 16
    policy steps and a record of at most 16 KiB (a larger dirty key is not
    found, as after a complete flush); never a partial record. *)
Theorem flush_crash_safe (pid heap : Z) (persistent : gmap (list byte) TpmInt.t) (c c' : t) (x x' : Fs)
    (r : result VtpmError.t ()) (left_ : gmap str (list byte)) :
  0 ≤ heap ≤ usize_max - isize_max → store_ok heap persistent c x → all_persistent persistent →
  history x = [] → flush pid (c, x) = (r, (c', x')) → crash x' left_ →
  ∃ c'' y, new heap persistent (disk left_) = (Ok c'', y) ∧
    ∀ h, is_slot h →
      contexts c'' !! h = loads heap (files x) (record_name h) h ∨
      ∃ k, h ∈ dirty c ∧ contexts c !! h = Some k ∧ contexts c'' !! h =
        if (zlen (VtpmKey.policy k) <=? 16) && (zlen (record_bytes k) <=? 16384) then Some k else None.
Proof.
  intros Hheap Hok Hp Hhist Hf (d & Hd & Hl).
  pose proof (flush_spec pid heap Hheap persistent c x Hok) as Hs. rewrite Hf in Hs.
  destruct Hs as (_ & [(ds & Es & HF) _] & _).
  assert (saves c x d) as Hsaves.
  { rewrite Es in Hd. unfold states in Hd. rewrite Hhist in Hd. apply elem_of_app in Hd as [Hd| ->%list_elem_of_singleton].
    - rewrite list.Forall_forall in HF. by apply HF.
    - apply saves_refl, Hok. }
  destruct (reopen pid heap Hheap persistent d left_ (saves_tidy _ _ _ Hsaves)
    ltac:(by eapply saves_named) Hl Hp) as (c'' & y & E & _ & Hk).
  exists c'', y. split; [done|]. intros h Hh. rewrite Hk by done.
  destruct (saves_loads heap Hheap persistent c x d h Hok Hsaves Hh) as [E'|(Hdi & [k Hc] & E')]; [by left | right].
  exists k. split; [done|]. split; [done|]. rewrite E', Hc. reflexivity.
Qed.

(** C28.  A directory without failing calls is opened exactly: the keys are those
    whose records are good, a record that is not (stale, corrupt, too long,
    with trailing bytes, or of another handle) and every session file is
    deleted, and nothing else.  Opening it again finds the same keys and
    deletes nothing.  The only error is a record of a key that cannot be
    named. *)
Theorem open_exact (heap : Z) (persistent : gmap (list byte) TpmInt.t) (x : Fs) :
  0 ≤ heap ≤ usize_max - isize_max → tidy (files x) → faults x = [] → all_persistent persistent →
  st_outcome (λ e _, e = VtpmError.OperationFailed ∧ nameless heap (files x))
    (λ c y,
      (∀ h k, contexts c !! h = Some k ↔ is_slot h ∧ loads heap (files x) (record_name h) h = Some k) ∧
      (∀ p, fate_of heap (files x) p = Discarded → files y !! p = None) ∧
      (∀ p, fate_of heap (files x) p ≠ Discarded → files y !! p = files x !! p) ∧
      ∃ c' y', new heap persistent (mk_fs (files y) [] []) = (Ok c', y') ∧ contexts c' = contexts c ∧
        ∀ p, files y' !! p = files y !! p)
    (new heap persistent x).
Proof.
  intros Hheap Ht E0 Hp. eapply st_outcome_impl; [by apply new_exact|done|].
  intros c y Ho. pose proof (opened_store _ _ _ _ _ Ho) as Hst.
  assert (∀ p, fate_of heap (files x) p = Discarded → files y !! p = None) as Hdis.
  { intros p Hd. by rewrite (opened_files _ _ _ _ _ Ho), decide_True. }
  assert (∀ p, fate_of heap (files x) p ≠ Discarded → files y !! p = files x !! p) as Hkeep.
  { intros p Hd. by rewrite (opened_files _ _ _ _ _ Ho), decide_False. }
  split_and!; [|done|done|].
  - intros h k. split.
    + intros Hk. destruct (keys_cached _ _ (store_cache _ _ _ _ Hst) h k Hk) as [Hs _].
      split; [done|]. by rewrite <-(opened_keys _ _ _ _ _ Ho).
    + intros [Hs Hl]. by rewrite (opened_keys _ _ _ _ _ Ho).
  - pose proof (new_exact heap Hheap persistent (mk_fs (files y) [] []) (store_tidy _ _ _ _ Hst) eq_refl Hp) as Ho2.
    destruct (new heap persistent (mk_fs (files y) [] [])) as [[c2|e|] y2]; cbn [st_outcome] in Ho2; [|exfalso|done].
    2: { destruct Ho2 as [_ Ho2]. revert Ho2. apply named_nameless; apply Hst. }
    exists c2, y2. split; [done|].
    pose proof (clean_opened heap Hheap persistent c y (mk_fs (files y) [] []) c2 y2 Hst (opened_clean _ _ _ _ _ Ho) eq_refl Ho2) as Hc2.
    split; [apply map_eq; intros h; rewrite (proj1 (Hc2 h)); by eapply opened_survives|].
    intros p. rewrite (opened_files _ _ _ _ _ Ho2). cbn [files]. case_decide as Hd; [|done].
    destruct (files y !! p) as [f|] eqn:Hf; [|done]. exfalso.
    destruct (decide (fate_of heap (files x) p = Discarded)) as [Hx|Hx]; [rewrite (Hdis p Hx) in Hf; done|].
    apply Hx. rewrite <-Hd. apply fate_ext. by rewrite Hf, <-Hkeep by done.
Qed.

(** ** The operations *)

(** C26.  Removing a key removes it and everything below it, directly or not, from
    the cache and from the directory, and nothing else, and returns exactly
    their handles, each once and the key's first; for a handle without a key
    it does nothing.  It fails only if a call on the file system does; then
    each key is still there or is gone with its file. *)
Theorem remove_exact (persistent : gmap (list byte) TpmInt.t) (c : t) (x : Fs) (handle : TpmInt.t) :
  cache_ok persistent c → honest x → is_Some (wire TpmHandle handle) →
  st_outcome
    (λ e s, faults x ≠ [] ∧ (∃ e', e = VtpmError.Io e') ∧ cache_ok persistent s.1 ∧
       ∀ h, is_slot h → contexts s.1 !! h = contexts c !! h ∨
         removed c (hv handle) h ∧ contexts s.1 !! h = None ∧ files s.2 !! record_name h = None)
    (λ l s, cache_ok persistent s.1 ∧
       (contexts c !! hv handle = None → l = [] ∧ s = (c, x)) ∧
       (is_Some (contexts c !! hv handle) →
        ∃ below, l = handle :: map th below ∧ NoDup (hv handle :: below) ∧
          (∀ h, h ∈ hv handle :: below ↔ removed c (hv handle) h) ∧
          (∀ h, contexts s.1 !! h = if decide (h ∈ hv handle :: below) then None else contexts c !! h) ∧
          (∀ p, files s.2 !! p =
             if decide (p ∈ record_name <$> hv handle :: below) then None else files x !! p)))
    (remove handle (c, x)).
Proof.
  intros Hok Hh Hw. eapply st_outcome_impl; [by apply remove_spec| |].
  - intros e s ([Hf He] & del & Hg). split_and!; [done|done|apply Hg|]. intros h Hs.
    rewrite (gone_contexts _ _ _ _ _ _ _ Hg). case_decide as Hi; [right|by left].
    pose proof (gone_targets _ _ _ _ _ _ _ Hg) as HT. rewrite list.Forall_forall in HT.
    split_and!; [by apply HT|done|]. rewrite (gone_files _ _ _ _ _ _ _ Hg), decide_True; [done|].
    by apply list_elem_of_fmap_2.
  - intros l s Hr. destruct (contexts c !! hv handle) as [k|] eqn:Hk.
    + destruct Hr as (below & -> & Hnd & Hdel & Hg). split; [apply Hg|]. split; [done|]. intros _.
      exists below. split_and!; [done..|apply Hg|apply Hg].
    + destruct Hr as [-> ->]. split; [done|]. split; [done|]. by intros [].
Qed.

(** A transient key goes to the first free handle, from the next one on and
    around the 2^24 transient handles, and its name then finds it, whatever
    had the name before; other keys stay.  It is refused, with nothing
    changed, only when every transient handle is taken, or the key cannot be
    named. *)
Theorem save_transient_first_free (persistent : gmap (list byte) TpmInt.t) (c : t) (context : ty TpmsContext)
    (public parent : ty TpmtPublic) (policy : option (list VtpmPolicyCommand)) :
  cache_ok persistent c → is_Some (wire TpmtPublic public) →
  st_outcome (λ e c', not_saved public c e ∧ c' = c)
    (λ h c', ∃ v nm, h = th v ∧ hv h = v ∧ first_free c v ∧ transient v ∧ name_of public = Ok nm ∧
       let key := new_key h public parent context policy in
       find_by_handle c' h = Some key ∧ find_by_name c' nm = Some key ∧ v ∈ dirty c' ∧
       (∀ v', v' ≠ v → contexts c' !! v' = contexts c !! v') ∧
       next_virtual_handle c' = next_handle v)
    (save_transient context public parent policy c).
Proof.
  intros Hok Hpub. pose proof (next_transient _ _ Hok) as Hn.
  eapply st_outcome_impl; [by apply save_transient_spec|done|].
  intros h c' (v & nm & -> & Hff & Hnm & ->). exists v, nm.
  pose proof (first_free_transient c v Hn Hff) as Ht. pose proof (slot_u32 v (transient_slot v Ht)) as Hu.
  rewrite hv_th by done. split_and!; [done..|]. cbv zeta.
  set (key := new_key (th v) public parent context policy).
  assert (contexts (set_next (next_handle v) (insert_key v key nm c)) = <[v := key]> (contexts c)) as Ec.
  { unfold set_next, insert_key, publish_name. cbv zeta. cbn [set_dirty contexts].
    by destruct (unpublish_parts v (set_contexts (<[v:=key]> (contexts c)) c)) as (-> & _). }
  unfold find_by_handle, find_by_name. rewrite hv_th, Ec by done. split_and!.
  - apply lookup_insert_eq.
  - unfold set_next, insert_key, publish_name. cbv zeta. cbn [set_dirty handles]. rewrite lookup_insert_eq.
    cbn [mbind option_bind]. by rewrite hv_th, lookup_insert_eq.
  - unfold set_next, insert_key. cbv zeta. cbn [set_dirty dirty]. apply elem_of_union_l, elem_of_singleton_2. done.
  - intros v' Hne. by rewrite lookup_insert_ne.
  - done.
Qed.

(** C29.  Where no key is above itself, the search for ancestors visits a key at
    most once and ends; what it returns is the way from the root down to the
    target, each the parent of the next, where the root is a primary key of
    the cache or the handle that the name of the topmost parent resolves to.
    It fails only if the target is not there, or some ancestor's parent is
    neither cached nor found by its name, or cannot be named. *)
Theorem ancestors_lineage (persistent : gmap (list byte) TpmInt.t) (c : t) (target : TpmInt.t) (fuel : nat) :
  cache_ok persistent c → is_Some (wire TpmHandle target) → acyclic c → (size (contexts c) < fuel)%nat →
  ∃ r, fetch_ancestors c fuel target = Some r ∧
    (resident c target ∧ r = Ok [target] ∨
     ¬ resident c target ∧
     outcome (λ e, e = VtpmError.HandleNotFound target ∧ contexts c !! hv target = None ∨ orphan c (hv target) e)
       (lineage c (hv target)) r).
Proof.
  intros Hok Hw Hac Hf. destruct (fetch_ancestors_ends persistent c Hok fuel target Hac Hf) as [r Hr].
  exists r. split; [done|]. by eapply fetch_ancestors_sound.
Qed.

(** A cached key that is its own parent sends the search round for ever: no
    number of rounds is enough. *)
Theorem ancestors_endless (persistent : gmap (list byte) TpmInt.t) (c : t) (h : Z) (k : VtpmKey.t) (fuel : nat) :
  cache_ok persistent c → contexts c !! h = Some k → transient h →
  TpmtPublic.object_type (VtpmKey.parent k) ≠ TpmAlgId.Null → VtpmKey.public k = VtpmKey.parent k →
  (∀ h' k', contexts c !! h' = Some k' → VtpmKey.public k' = VtpmKey.public k → h' = h) →
  fetch_ancestors c fuel (th h) = None.
Proof.
  intros Hok Hk Ht Hp Hself Huniq. unfold fetch_ancestors.
  pose proof (slot_u32 h (transient_slot h Ht)) as Hu. rewrite hv_th, handle_type_div by done.
  assert (h / 2 ^ 24 =? value TpmHt.Persistent = false) as ->.
  { apply Z.eqb_neq. change (value TpmHt.Persistent) with 129. unfold transient, TRANSIENT_START, TRANSIENT_END in Ht.
    pose proof (Z.div_mod h (2 ^ 24) ltac:(lia)). pose proof (Z.mod_pos_bound h (2 ^ 24) ltac:(lia)). lia. }
  cbn [andb]. by rewrite (own_parent_endless persistent c h k).
Qed.

(** ** Records and policies *)

(** C27.  Reading a record never panics, and reads exactly what saving wrote: a key
    is loaded from a file's contents just when it is a well-formed key of that
    handle with at most 16 policy steps, and its record is these very bytes.
    So no two keys have the same record, and nothing that is not the record of
    a key is loaded. *)
Theorem record_exact (s : slice) (h : Z) (k : VtpmKey.t) :
  slice_ok s →
  load_record s h ≠ Panic ∧
  (load_record s h = Ok k ↔
   key_ok k ∧ zlen (VtpmKey.policy k) ≤ MAX_POLICY_COUNT ∧ hv (VtpmKey.handle k) = h ∧
   marshal_record k = Ok (sl_data s)).
Proof.
  intros Hok. split; [by apply load_record_no_panic|]. rewrite load_record_spec by done. unfold loadable.
  assert (key_ok k → zlen (VtpmKey.policy k) ≤ MAX_POLICY_COUNT → marshal_record k = Ok (record_bytes k)) as Hm.
  { intros Hk Hn. apply marshal_record_spec. split; [done|]. unfold MAX_POLICY_COUNT, u32_max in *. lia. }
  split.
  - intros ([Hk Hn] & Hh & ->). split_and!; [done..|]. by apply Hm.
  - intros (Hk & Hn & Hh & E). rewrite Hm in E by done. injection E as ->. by split_and!.
Qed.

(** C25.  The policy of a key: a command received in a frame becomes a step if
    it is one of the thirteen kinds that are kept with their parameters, or
    [PolicySecret]; any other kind is refused with [InvalidCc].  The steps of a
    list of fewer than 2^32 kept commands can be written to a record, and are read back
    unchanged if they are at most 16; of more, which are written all the same,
    reading refuses the record with [TooManyPolicies].  Each step turns into a
    command again that differs from the first only in what belongs to a
    session (its handle, and of [PolicySecret] the nonce, the parameter hash
    and the expiration): the commands have the same effect on a policy digest,
    and wherever a TPM accepts the first with some sessions, it accepts the
    others with these sessions and ends with the same digest. *)
Theorem policy_steps_replay (heap : Z) (name : ty Tpm2bName) (ss : list slice) (cmds : list TpmCommandValue) :
  0 ≤ heap ≤ usize_max - isize_max → is_Some (wire Tpm2bName name) →
  Forall slice_ok ss → Forall2 frame_of ss cmds →
  Forall2 (λ s cmd,
    if is_default (cv_variant cmd) || bool_decide (cv_variant cmd = TpmCc.PolicySecret)
    then is_ok (vtpm_policy_command_from s name) = true
    else vtpm_policy_command_from s name = Err (VtpmError.InvalidCc (cv_variant cmd))) ss cmds ∧
  (Forall (λ cmd, is_Some (detached cmd)) cmds → zlen cmds ≤ u32_max →
   ∃ ps cs,
    Forall2 (λ s p, vtpm_policy_command_from s name = Ok p) ss ps ∧
    (∀ w, writer_ok w → zlen (list_bytes ps) ≤ room w →
       vtpm_marshal_policy_list ps w = (Ok tt, put w (list_bytes ps))) ∧
    (∀ s r, slice_ok s → consumes (list_bytes ps) s r →
       vtpm_unmarshal_policy_list s =
         if decide (zlen cmds ≤ 16) then Ok (ps, r) else Err (VtpmError.TooManyPolicies (zlen cmds))) ∧
    Forall2 (λ p cmd, to_command heap p = Ok cmd) ps cs ∧
    Forall2 (λ cmd cmd', detached cmd = Some cmd') cmds cs ∧
    (∀ h context trial d, effects h context trial d cs = effects h context trial d cmds) ∧
    ∀ h context trial authorises auths d d',
      replay h context trial authorises d (zip cmds auths) = Some d' →
      replay h context trial authorises d (zip cs auths) = Some d').
Proof.
  intros Hheap Hname Hss Hf. split; [by apply frames_kept with heap|]. intros Hd Hn.
  destruct (steps_of_frames ss cmds name heap Hheap Hname Hss Hf Hd) as (ps & cs & H1' & H2' & H3' & H4').
  assert (zlen ps = zlen cmds) as Hlen.
  { unfold zlen. by rewrite <-(Forall2_length H1'), (Forall2_length Hf). }
  exists ps, cs. split_and!; [done| | |done|done| |].
  - apply list_appends; [done|]. lia.
  - intros s r Hs Hc. case_decide as Hmax.
    + apply list_unmarshal_spec; [done|]. split_and!; [done|unfold MAX_POLICY_COUNT; lia|done].
    + rewrite (list_unmarshal_many s ps r), Hlen; [done|done|unfold MAX_POLICY_COUNT; lia|done].
  - intros h context trial d. by apply detached_effects.
  - intros h context trial authorises auths d d'. by apply detached_replay.
Qed.
End properties.

(** ** Witnesses *)

(** A call whose result is known, without its state. *)
Lemma pair_of {A B} (m : A * B) (a : A) : m.1 = a → m = (a, m.2).
Proof. destruct m. by intros <-. Qed.
Lemma pair_ok {E A B} (m : result E A * B) : is_ok m.1 = true → ∃ a, m = (Ok a, m.2).
Proof. destruct m as [[a|e|] b]; [by exists a | done..]. Qed.

Lemma heap_0 : 0 ≤ 0 ≤ usize_max - isize_max.
Proof. done. Qed.

Lemma sample_facts : cache_ok no_persistent sample_cache ∧ all_persistent no_persistent ∧ honest sample_fs ∧
  faults sample_fs = [] ∧ history sample_fs = [].
Proof.
  pose proof sample_ran as Hs. split_and!; [exact (store_cache _ _ _ _ Hs)| |exact (store_honest _ _ _ _ Hs)|vm_compute; reflexivity..].
  intros n ph Hn. unfold no_persistent in Hn. by rewrite lookup_empty in Hn.
Qed.

(** The second write fails halfway. *)
Lemma cache_invariant_witness :
  ∃ c x, run_ops 7 (sample_ops ++ [Flush; Remove (th 0x80000000); Flush])
      (sample_new.1, mk_fs (files sample_new.2) [None; None; None; None; None; Some (3%nat, OtherKind : IoError)] []) = Some (c, x) ∧
    cache_ok no_persistent c ∧ backed c (files x) ∧ Forall whole (states x) ∧
    store_ok 0 no_persistent c x.
Proof.
  apply (cache_invariant 7 0 no_persistent empty_fs sample_new.2).
  - done.
  - by apply tidy_checked.
  - done.
  - vm_compute. reflexivity.
  - repeat constructor; done.
  - apply Forall_app. split; [apply sample_ops_ok|].
    repeat (constructor; [first [done | by apply th_wire]|]). constructor.
Defined.

Definition sample_flushed : t * Fs := (flush 7 sample_state).2.
Definition long_flushed : t * Fs := (flush 7 long_state).2.

Lemma sample_flush : flush 7 (sample_cache, sample_fs) = (Ok tt, (sample_flushed.1, sample_flushed.2)).
Proof. vm_compute. reflexivity. Qed.
Lemma long_flush : flush 7 (long_state.1, long_state.2) = (Ok tt, (long_flushed.1, long_flushed.2)).
Proof. vm_compute. reflexivity. Qed.

(** The key with 17 steps is flushed, and lost. *)
Lemma flush_reopen_witness :
  ∃ c y, new 0 no_persistent (mk_fs (files long_flushed.2) [] []) = (Ok c, y) ∧
    is_Some (contexts c !! 0x80000000) ∧ is_Some (contexts c !! 0x81000001) ∧
    is_Some (contexts long_state.1 !! 0x81000002) ∧ is_Some (files long_flushed.2 !! record_name 0x81000002) ∧
    contexts c !! 0x81000002 = None ∧ files y !! record_name 0x81000002 = None.
Proof.
  destruct sample_facts as (_ & Hp & _).
  destruct (proj2 (proj2 (flush_reopen 7 0 no_persistent _ _ _ _ _ heap_0 long_ran Hp long_flush)) eq_refl)
    as (c & y & E & _ & _ & Hk). exists c, y. split; [exact E|].
  pose proof (Hk 0x80000000) as H0. pose proof (Hk 0x81000001) as H1. pose proof (Hk 0x81000002) as H2.
  destruct (contexts long_state.1 !! 0x80000000) as [k0|] eqn:E0; [|exfalso; revert E0; vm_compute; discriminate].
  destruct (contexts long_state.1 !! 0x81000001) as [k1|] eqn:E1; [|exfalso; revert E1; vm_compute; discriminate].
  destruct (contexts long_state.1 !! 0x81000002) as [k2|] eqn:E2; [|exfalso; revert E2; vm_compute; discriminate].
  assert (∀ h k b, contexts long_state.1 !! h = Some k →
    (match contexts long_state.1 !! h with
     | Some k => (zlen (VtpmKey.policy k) <=? 16) && (zlen (record_bytes k) <=? 16384) | None => false end) = b →
    (zlen (VtpmKey.policy k) <=? 16) && (zlen (record_bytes k) <=? 16384) = b) as Hfit by by intros h k b ->.
  rewrite (Hfit _ _ true E0) in H0 by (vm_compute; reflexivity).
  rewrite (Hfit _ _ true E1) in H1 by (vm_compute; reflexivity).
  rewrite (Hfit _ _ false E2) in H2 by (vm_compute; reflexivity).
  destruct H0 as [_ [-> _]], H1 as [_ [-> _]], H2 as [(f & Hf & _) [-> ->]]. rewrite Hf.
  split_and!; by eexists || reflexivity.
Defined.

(** The machine stops while the second record is being written. *)
Definition sample_crashed : gmap str (list byte) :=
  match states sample_flushed.2 with
  | [] => ∅
  | d :: ds => contents <$> nth 5 ds d
  end.

Lemma flush_crash_safe_witness :
  size sample_crashed = 2%nat ∧
  ∃ c y, new 0 no_persistent (disk sample_crashed) = (Ok c, y) ∧
    ∀ h, is_slot h →
      contexts c !! h = loads 0 (files sample_fs) (record_name h) h ∨
      ∃ k, h ∈ dirty sample_cache ∧ contexts sample_cache !! h = Some k ∧ contexts c !! h =
        if (zlen (VtpmKey.policy k) <=? 16) && (zlen (record_bytes k) <=? 16384) then Some k else None.
Proof.
  destruct sample_facts as (_ & Hp & _ & _ & Hh). split; [vm_compute; reflexivity|].
  refine (flush_crash_safe 7 0 no_persistent _ _ _ _ _ sample_crashed heap_0 sample_ran Hp Hh sample_flush _).
  exists (nth 5 (history sample_flushed.2) ∅). split.
  - apply (list_elem_of_lookup_2 _ 6%nat). vm_compute. reflexivity.
  - assert (sample_crashed = contents <$> nth 5 (history sample_flushed.2) ∅) as -> by (vm_compute; reflexivity).
    apply leaves_all.
Defined.

(** A good record, one of an old version, a session, and another file. *)
Definition sample_key : VtpmKey.t := new_key (th 0x80000003) keyed_hash_public null_public default_context None.
Definition sample_directory : directory :=
  {[ record_name 0x80000003 := mk_file (record_bytes sample_key) true;
     record_name 0x80000004 := mk_file (be_encode 4 1) true;
     lit "02000000.bin" := mk_file [] true;
     lit "notes.txt" := mk_file [] true ]}.


Definition reopened (c : t) (y : Fs) : Prop :=
  contexts c !! 0x80000003 = Some sample_key ∧ files y !! record_name 0x80000004 = None ∧
  files y !! lit "02000000.bin" = None ∧ files y !! lit "notes.txt" = files (mk_fs sample_directory [] []) !! lit "notes.txt".

Lemma sample_directory_opens : is_ok (new 0 no_persistent (mk_fs sample_directory [] [])).1 = true.
Proof. vm_compute. reflexivity. Qed.

Lemma open_exact_witness :
  ∃ c y, new 0 no_persistent (mk_fs sample_directory [] []) = (Ok c, y) ∧ reopened c y.
Proof.
  destruct sample_facts as (_ & Hp & _).
  assert (tidy sample_directory) as Ht by (apply tidy_checked; vm_compute; reflexivity).
  pose proof (open_exact 0 no_persistent (mk_fs sample_directory [] []) heap_0 Ht eq_refl Hp) as Ho.
  destruct (pair_ok _ sample_directory_opens) as [c E]. rewrite E in Ho.
  destruct Ho as (Hk & Hd & Hs & _). exists c, (new 0 no_persistent (mk_fs sample_directory [] [])).2.
  split; [exact E|]. split_and!.
  - apply Hk. split; [split; vm_compute; discriminate|vm_compute; reflexivity].
  - apply Hd. vm_compute. reflexivity.
  - apply Hd. vm_compute. reflexivity.
  - apply Hs. vm_compute. discriminate.
Defined.

Lemma primary_wire : is_Some (wire TpmHandle (th 0x80000000)).
Proof. eexists. vm_compute. reflexivity. Qed.
Lemma sample_removed : (remove (th 0x80000000) (sample_cache, sample_fs)).1 = Ok [th 0x80000000; th 0x80000001].
Proof. vm_compute. reflexivity. Qed.

(** The primary key and its child go, the persistent key stays. *)
Lemma remove_exact_witness :
  ∃ s, remove (th 0x80000000) (sample_cache, sample_fs) = (Ok [th 0x80000000; th 0x80000001], s) ∧
    cache_ok no_persistent s.1.
Proof.
  destruct sample_facts as (Hok & _ & Hh & _).
  pose proof (remove_exact no_persistent sample_cache sample_fs (th 0x80000000) Hok Hh primary_wire) as Hr.
  pose proof (pair_of _ _ sample_removed) as E. rewrite E in Hr.
  eexists. split; [exact E | exact (proj1 Hr)].
Defined.

Lemma sample_public_wire : is_Some (wire TpmtPublic sample_public).
Proof. eexists. vm_compute. reflexivity. Qed.
Lemma sample_saved : (save_transient default_context sample_public null_public None sample_cache).1 = Ok (th 0x80000002).
Proof. vm_compute. reflexivity. Qed.

Lemma save_transient_first_free_witness :
  ∃ c, save_transient default_context sample_public null_public None sample_cache = (Ok (th 0x80000002), c) ∧
    is_Some (find_by_handle c (th 0x80000002)).
Proof.
  destruct sample_facts as (Hok & _).
  pose proof (save_transient_first_free no_persistent sample_cache default_context sample_public null_public None Hok
    sample_public_wire) as Hs.
  pose proof (pair_of _ _ sample_saved) as E. rewrite E in Hs.
  destruct Hs as (v & nm & Ev & Hv & _ & _ & _ & Hf & _).
  eexists. split; [exact E | exact (ex_intro _ _ Hf)].
Defined.

Lemma sample_ancestors : fetch_ancestors sample_cache 4 (th 0x80000001) = Some (Ok [th 0x80000000; th 0x80000001]).
Proof. vm_compute. reflexivity. Qed.
Lemma sample_acyclic : acyclic sample_cache ∧ (size (contexts sample_cache) < 4)%nat.
Proof. split; [apply ascending_acyclic | apply Nat.ltb_lt]; vm_compute; reflexivity. Qed.

Lemma ancestors_lineage_witness :
  resident sample_cache (th 0x80000001) ∨ lineage sample_cache (hv (th 0x80000001)) [th 0x80000000; th 0x80000001].
Proof.
  destruct sample_facts as (Hok & _). destruct sample_acyclic as [Hac Hsize].
  assert (is_Some (wire TpmHandle (th 0x80000001))) as Hw by (eexists; vm_compute; reflexivity).
  destruct (ancestors_lineage no_persistent sample_cache (th 0x80000001) 4 Hok Hw Hac Hsize) as (r & E & Hr).
  rewrite sample_ancestors in E. injection E as <-. destruct Hr as [[Hr _]|[_ Hr]]; [left | right]; exact Hr.
Defined.

(** A record that says so is opened. *)
Definition own_parent_key : VtpmKey.t :=
  new_key (th 0x80000000) keyed_hash_public keyed_hash_public default_context None.
Definition own_parent_fs : Fs :=
  mk_fs {[ record_name 0x80000000 := mk_file (record_bytes own_parent_key) true ]} [] [].
Definition own_parent_cache : t :=
  match (new 0 no_persistent own_parent_fs).1 with Ok c => c | _ => sample_cache end.

Lemma own_parent_opened : is_ok (new 0 no_persistent own_parent_fs).1 = true.
Proof. vm_compute. reflexivity. Qed.
Lemma own_parent_contexts : contexts own_parent_cache = {[ 0x80000000 := own_parent_key ]}.
Proof. vm_compute. reflexivity. Qed.

Lemma ancestors_endless_witness :
  (∃ y, new 0 no_persistent own_parent_fs = (Ok own_parent_cache, y)) ∧
  ∀ fuel, fetch_ancestors own_parent_cache fuel (th 0x80000000) = None.
Proof.
  pose proof (new_safe 0 heap_0 no_persistent own_parent_fs) as Hs.
  destruct (pair_ok _ own_parent_opened) as [c E].
  assert (own_parent_cache = c) as Ec by (unfold own_parent_cache; rewrite E; reflexivity).
  rewrite E in Hs. destruct Hs as [Hok _]. pose proof own_parent_contexts as Hc. rewrite Ec in *.
  split; [eexists; exact E|]. intros fuel.
  apply (ancestors_endless no_persistent c 0x80000000 own_parent_key).
  - exact Hok.
  - rewrite Hc. apply lookup_singleton_eq.
  - split; vm_compute; discriminate.
  - vm_compute. discriminate.
  - reflexivity.
  - intros h k. rewrite Hc. intros [<- _]%lookup_singleton_Some _. reflexivity.
Defined.

Lemma record_exact_witness :
  load_record (mk_slice 0 (record_bytes sample_key)) 0x80000003 = Ok sample_key.
Proof.
  refine (proj2 (proj2 (record_exact (mk_slice 0 (record_bytes sample_key)) 0x80000003 sample_key _)) _).
  - vm_compute. intuition discriminate.
  - split; [|split; [|split]].
    + split_and!; [reflexivity|eexists; vm_compute; reflexivity..|constructor].
    + vm_compute. discriminate.
    + vm_compute. reflexivity.
    + vm_compute. reflexivity.
Defined.

(** The frame of a command without sessions. *)
Definition framed (cmd : TpmCommandValue) : slice :=
  match cmd with
  | command_value cc v =>
      match TpmBody.wire (command cc) v with
      | Some (hs, ps) => mk_slice 0 (command_format (mk_command TpmSt.NoSessions cc hs [] ps))
      | None => mk_slice 0 []
      end
  end.

Lemma framed_ok cc v hs ps :
  TpmBody.wire (command cc) v = Some (hs, ps) →
  10 + zlen (command_body (mk_command TpmSt.NoSessions (CC (command cc)) hs [] ps)) ≤ u32_max →
  frame_of (framed (command_value cc v)) (command_value cc v).
Proof.
  intros Hw Hb. unfold frame_of, framed. rewrite Hw.
  assert (HANDLES (command cc) = HANDLES (command (CC (command cc)))) as HR by by rewrite command_CC.
  pose proof (command_frame_reads (command cc) HR v hs ps Hw TpmSt.NoSessions [] [] eq_refl) as Hr.
  rewrite command_CC in *. apply Hr; [done|by left|done| |done].
  unfold slice_ok, sl_len. cbn [sl_addr sl_data]. rewrite zlen_command_format. unfold u32_max, usize_max, isize_max in *. lia.
Qed.

Definition sample_commands : list TpmCommandValue :=
  [PolicyPcr (Body.mk (B:=TpmPolicyPcrCommand) [th 0x03000000] (a_digest [x07], (sample_selections, ())));
   PolicySecret (Body.mk (B:=TpmPolicySecretCommand) [th 0x4000000b; th 0x03000000]
     (a_digest [x01], (a_digest [x02], (a_digest [x03], (TpmInt.new 4 0, ())))))].

Lemma sample_framed : Forall2 frame_of (map framed sample_commands) sample_commands.
Proof.
  unfold sample_commands, PolicyPcr, PolicySecret. cbn [map].
  constructor; [|constructor; [|constructor]]; (eapply framed_ok; [vm_compute; reflexivity | vm_compute; discriminate]).
Qed.
Lemma sample_detached : Forall (λ cmd, is_Some (detached cmd)) sample_commands.
Proof. constructor; [|constructor; [|constructor]]; eexists; reflexivity. Qed.

Definition other_command : TpmCommandValue :=
  command_value TpmCc.ReadPublic (Body.mk (B:=TpmReadPublicCommand) [th 0x80000000] ()).
Lemma other_framed : Forall2 frame_of [framed other_command] [other_command].
Proof. constructor; [|constructor]. eapply framed_ok; [vm_compute; reflexivity | vm_compute; discriminate]. Qed.

(** Two commands are kept, one of another kind is refused. *)
Lemma policy_steps_replay_witness :
  (∃ ps cs, Forall2 (λ s p, vtpm_policy_command_from s (TpmBuffer.new (MAX_DIGEST_SIZE + 2)) = Ok p) (map framed sample_commands) ps ∧
    Forall2 (λ p cmd, to_command 0 p = Ok cmd) ps cs ∧
    effects TpmHash.Sha1 sample_context true (zero_digest TpmHash.Sha1) cs =
      effects TpmHash.Sha1 sample_context true (zero_digest TpmHash.Sha1) sample_commands) ∧
  vtpm_policy_command_from (framed other_command) (TpmBuffer.new (MAX_DIGEST_SIZE + 2)) = Err (VtpmError.InvalidCc TpmCc.ReadPublic).
Proof.
  assert (is_Some (wire Tpm2bName (TpmBuffer.new (MAX_DIGEST_SIZE + 2)))) as Hn by (eexists; vm_compute; reflexivity).
  assert (Forall slice_ok (map framed sample_commands)) as Hs.
  { cbn [map sample_commands]. constructor; [|constructor; [|constructor]]; vm_compute; intuition discriminate. }
  assert (Forall slice_ok [framed other_command]) as Ho by (constructor; [|constructor]; vm_compute; intuition discriminate).
  assert (zlen sample_commands ≤ u32_max) as Hl by (vm_compute; discriminate). split.
  - destruct (proj2 (policy_steps_replay 0 _ _ _ heap_0 Hn Hs sample_framed) sample_detached Hl)
      as (ps & cs & Hps & _ & _ & Hcs & _ & Hr & _).
    exists ps, cs. split; [exact Hps|]. split; [exact Hcs | apply Hr].
  - pose proof (proj1 (policy_steps_replay 0 _ _ _ heap_0 Hn Ho other_framed)) as Hr.
    apply List.Forall2_cons_iff in Hr as [He _]. exact He.
Defined.

(** ** Examples *)

(** Two keys with one public area share their name; when the later one is
    removed, the name is gone, and the other key is no longer found by it. *)
Definition shared : t * Fs :=
  default sample_new (run_ops 7
    [SaveTransient default_context keyed_hash_public null_public None;
     SaveTransient default_context keyed_hash_public null_public None;
     Remove (th 0x80000001)] sample_new).

Lemma shared_name_lost :
  is_Some (find_by_handle shared.1 (th 0x80000000)) ∧ ∀ target, find_by_name shared.1 target = None.
Proof.
  assert (handles shared.1 = ∅) as E by (vm_compute; reflexivity). split.
  - apply (is_Some_alt _). vm_compute. exact I.
  - intros target. unfold find_by_name. by rewrite E, lookup_empty.
Qed.

(** A good record whose read fails once is deleted. *)
Definition unlucky_fs : Fs :=
  mk_fs {[ record_name 0x80000003 := mk_file (record_bytes sample_key) true ]}
    [None; None; None; None; Some (0%nat, OtherKind : IoError)] [].

Lemma failed_read_deletes :
  loads 0 (files unlucky_fs) (record_name 0x80000003) 0x80000003 = Some sample_key ∧
  is_ok (new 0 no_persistent unlucky_fs).1 = true ∧ files (new 0 no_persistent unlucky_fs).2 = ∅.
Proof. split_and!; vm_compute; reflexivity. Qed.
