(* ===== verification/Template.v ===== *)
(** Key templates: [crypto/src/template.rs] and the curve identifiers of
    [crypto/src/ecc.rs].

    A template is the part of a public area that is chosen before a key
    exists; it has a text form, such as [rsa-2048:sha256:rsassa].  The names
    of curves and digests in it are generated by [strum]: those of the curves
    are the fields of [CurveText], those of the digests are in [TextLib]. *)

From Stdlib Require Import Ascii String.
From S2P Require Import Prelude Errors Writer Codec Integer Buffer Struct EnumMacro Enums Attributes.
From S2P Require Import BasicTypes Schemes Structures Crypto Hash Text PolicyText.

(** ** [enum TpmEllipticCurve] *)

Module TpmEllipticCurve.
Inductive t :=
| NistP192 | NistP224 | NistP256 | NistP384 | NistP521
| BnP256 | BnP638 | Sm2P256 | BpP256R1 | BpP384R1 | BpP512R1
| Curve25519 | Curve448.

#[global] Instance eq_dec : EqDecision t.
Proof. solve_decision. Defined.

(** [TryFrom<TpmEccCurve>] *)
Definition try_from `{Libcrypto} (curve : TpmEccCurve.t) : result TpmCryptoError.t t :=
  match curve with
  | TpmEccCurve.NistP192 => Ok NistP192
  | TpmEccCurve.NistP224 => Ok NistP224
  | TpmEccCurve.NistP256 => Ok NistP256
  | TpmEccCurve.NistP384 => Ok NistP384
  | TpmEccCurve.NistP521 => Ok NistP521
  | TpmEccCurve.BnP256 => Ok BnP256
  | TpmEccCurve.BnP638 => Ok BnP638
  | TpmEccCurve.Sm2P256 => Ok Sm2P256
  | TpmEccCurve.BpP256R1 => Ok BpP256R1
  | TpmEccCurve.BpP384R1 => Ok BpP384R1
  | TpmEccCurve.BpP512R1 => Ok BpP512R1
  | TpmEccCurve.Curve25519 => Ok Curve25519
  | TpmEccCurve.Curve448 => Ok Curve448
  | curve => Err (TpmCryptoError.InvalidEccCurve curve)
  end.

(** [From<TpmEllipticCurve> for TpmEccCurve] *)
Definition to_curve (curve : t) : TpmEccCurve.t :=
  match curve with
  | NistP192 => TpmEccCurve.NistP192
  | NistP224 => TpmEccCurve.NistP224
  | NistP256 => TpmEccCurve.NistP256
  | NistP384 => TpmEccCurve.NistP384
  | NistP521 => TpmEccCurve.NistP521
  | BnP256 => TpmEccCurve.BnP256
  | BnP638 => TpmEccCurve.BnP638
  | Sm2P256 => TpmEccCurve.Sm2P256
  | BpP256R1 => TpmEccCurve.BpP256R1
  | BpP384R1 => TpmEccCurve.BpP384R1
  | BpP512R1 => TpmEccCurve.BpP512R1
  | Curve25519 => TpmEccCurve.Curve25519
  | Curve448 => TpmEccCurve.Curve448
  end.
End TpmEllipticCurve.

(** [Display] and [FromStr] of [TpmEllipticCurve] ([strum], [kebab-case]) *)
Class CurveText := {
  curve_to_string : TpmEllipticCurve.t → str;
  curve_from_str : str → option TpmEllipticCurve.t
}.

(** What is printed is read back, the name is kebab-case, and nothing else
    has the name of a curve (no variant carries a second name). *)
Class CurveTextOk `{CurveText} : Prop := {
  curve_from_to_string c : curve_from_str (curve_to_string c) = Some c;
  curve_to_from_string s c : curve_from_str s = Some c → curve_to_string c = s;
  curve_chars c : Forall (λ ch, is_name_char ch = true) (curve_to_string c)
}.

(** ** Schemes *)

Section schemes.
Context `{Libcrypto}.
Abbreviation Res := (result TpmCryptoError.t).

Definition parse_scheme (s : str) : Res TpmAlgId.t :=
  if decide (s = lit "null") then Ok TpmAlgId.Null
  else if decide (s = lit "rsassa") then Ok TpmAlgId.Rsassa
  else if decide (s = lit "rsapss") then Ok TpmAlgId.Rsapss
  else if decide (s = lit "rsaes") then Ok TpmAlgId.Rsaes
  else if decide (s = lit "oaep") then Ok TpmAlgId.Oaep
  else if decide (s = lit "ecdsa") then Ok TpmAlgId.Ecdsa
  else if decide (s = lit "ecdh") then Ok TpmAlgId.Ecdh
  else if decide (s = lit "ecdaa") then Ok TpmAlgId.Ecdaa
  else if decide (s = lit "ecschnorr") then Ok TpmAlgId.Ecschnorr
  else if decide (s = lit "sm2") then Ok TpmAlgId.Sm2
  else if decide (s = lit "ecmqv") then Ok TpmAlgId.Ecmqv
  else Err TpmCryptoError.InvalidObjectType.

Definition scheme_name (scheme : TpmAlgId.t) : Res str :=
  match scheme with
  | TpmAlgId.Null => Ok (lit "null")
  | TpmAlgId.Rsassa => Ok (lit "rsassa")
  | TpmAlgId.Rsapss => Ok (lit "rsapss")
  | TpmAlgId.Rsaes => Ok (lit "rsaes")
  | TpmAlgId.Oaep => Ok (lit "oaep")
  | TpmAlgId.Ecdsa => Ok (lit "ecdsa")
  | TpmAlgId.Ecdh => Ok (lit "ecdh")
  | TpmAlgId.Ecdaa => Ok (lit "ecdaa")
  | TpmAlgId.Ecschnorr => Ok (lit "ecschnorr")
  | TpmAlgId.Sm2 => Ok (lit "sm2")
  | TpmAlgId.Ecmqv => Ok (lit "ecmqv")
  | _ => Err TpmCryptoError.InvalidObjectType
  end.

Definition is_sign_scheme (scheme : TpmAlgId.t) : bool :=
  match scheme with
  | TpmAlgId.Rsassa | TpmAlgId.Rsapss | TpmAlgId.Ecdsa | TpmAlgId.Ecdaa
  | TpmAlgId.Ecschnorr | TpmAlgId.Sm2 => true
  | _ => false
  end.

Definition is_decrypt_scheme (scheme : TpmAlgId.t) : bool :=
  match scheme with
  | TpmAlgId.Oaep | TpmAlgId.Rsaes | TpmAlgId.Ecdh | TpmAlgId.Ecmqv => true
  | _ => false
  end.

Definition is_rsa_scheme (scheme : TpmAlgId.t) : bool :=
  match scheme with
  | TpmAlgId.Null | TpmAlgId.Rsassa | TpmAlgId.Rsapss | TpmAlgId.Rsaes | TpmAlgId.Oaep => true
  | _ => false
  end.

Definition is_ecc_scheme (scheme : TpmAlgId.t) : bool :=
  match scheme with
  | TpmAlgId.Null | TpmAlgId.Ecdsa | TpmAlgId.Ecdh | TpmAlgId.Ecdaa
  | TpmAlgId.Ecschnorr | TpmAlgId.Sm2 | TpmAlgId.Ecmqv => true
  | _ => false
  end.

(** [TpmsSchemeHash { hash_alg }] *)
Definition scheme_hash (hash_alg : TpmAlgId.t) : ty TpmsSchemeHash := (hash_alg, ()).

Definition asym_scheme (scheme name_alg : TpmAlgId.t) : Res (TpmAlgId.t * TpmuAsymScheme.t) :=
  match scheme with
  | TpmAlgId.Null | TpmAlgId.Rsaes => Ok (scheme, TpmuAsymScheme.Null)
  | TpmAlgId.Rsassa | TpmAlgId.Rsapss | TpmAlgId.Oaep | TpmAlgId.Ecdsa | TpmAlgId.Ecdh
  | TpmAlgId.Ecdaa | TpmAlgId.Ecschnorr | TpmAlgId.Sm2 | TpmAlgId.Ecmqv =>
      Ok (scheme, TpmuAsymScheme.Hash (scheme_hash name_alg))
  | _ => Err TpmCryptoError.InvalidObjectType
  end.

Definition fill_scheme_hash (scheme : TpmAlgId.t) (details : TpmuAsymScheme.t)
    (name_alg : TpmAlgId.t) : TpmAlgId.t * TpmuAsymScheme.t :=
  match details with
  | TpmuAsymScheme.Hash (hash_alg, _) =>
      if bool_decide (hash_alg = TpmAlgId.Null)
      then (scheme, TpmuAsymScheme.Hash (scheme_hash name_alg))
      else (scheme, details)
  | details => (scheme, details)
  end.

(** A missing suffix is a storage parent; [null] is a key without a scheme. *)
Definition parse_asym_form (scheme_str : option str) : Res (TpmAlgId.t * Bitflags.t) :=
  match scheme_str with
  | None => Ok (TpmAlgId.Null, Bitflags.bitor TpmaObject.DECRYPT TpmaObject.RESTRICTED)
  | Some s =>
      let? scheme := parse_scheme s in
      let? usage :=
        if bool_decide (scheme = TpmAlgId.Null) then
          Ok (Bitflags.bitor TpmaObject.SIGN_ENCRYPT TpmaObject.DECRYPT)
        else if is_sign_scheme scheme then Ok TpmaObject.SIGN_ENCRYPT
        else if is_decrypt_scheme scheme then Ok TpmaObject.DECRYPT
        else Err TpmCryptoError.InvalidObjectType in
      Ok (scheme, usage)
  end.

Definition split_name_and_scheme (rest : str) : Res (str * option str) :=
  match split_once (chr ":") rest with
  | None => Ok (rest, None)
  | Some (name_alg_str, scheme_str) =>
      if bool_decide (name_alg_str = []) || bool_decide (scheme_str = []) ||
         bool_decide (chr ":" ∈ scheme_str)
      then Err TpmCryptoError.InvalidObjectType
      else Ok (name_alg_str, Some scheme_str)
  end.
End schemes.

(** ** [struct TpmPublicTemplate] *)

Module TpmPublicTemplate.
Record t := mk {
  object_type : TpmAlgId.t;
  name_alg : TpmAlgId.t;
  auth_policy : ty Tpm2bDigest;
  object_attributes : Bitflags.t;
  symmetric : TpmtSymDef.t;
  public_id : TpmuPublicId.t;
  public_parms : TpmuPublicParms.t
}.

(** [TpmBuffer::new()] of a digest *)
Definition empty_digest : ty Tpm2bDigest := TpmBuffer.new MAX_DIGEST_SIZE.

Definition new : t :=
  mk TpmAlgId.KeyedHash TpmAlgId.Null empty_digest Bitflags.empty sym_def_default
    (TpmuPublicId.KeyedHash (TpmBuffer.new MAX_DIGEST_SIZE))
    (TpmuPublicParms.KeyedHash (TaggedStruct.mk TpmAlgId.Null TpmuKeyedhashScheme.Null, ())).

Section template.
Context `{Libcrypto}.
Abbreviation Res := (result TpmCryptoError.t).

Definition with_public (public_id : TpmuPublicId.t) (public_parms : TpmuPublicParms.t) (self : t)
    : Res t :=
  let? object_type :=
    match public_id, public_parms with
    | TpmuPublicId.Rsa _, TpmuPublicParms.Rsa _ => Ok TpmAlgId.Rsa
    | TpmuPublicId.Ecc _, TpmuPublicParms.Ecc _ => Ok TpmAlgId.Ecc
    | TpmuPublicId.KeyedHash _, TpmuPublicParms.KeyedHash _ => Ok TpmAlgId.KeyedHash
    | TpmuPublicId.SymCipher _, TpmuPublicParms.SymCipher _ => Ok TpmAlgId.SymCipher
    | _, _ => Err TpmCryptoError.InvalidObjectType
    end in
  Ok (mk object_type (name_alg self) (auth_policy self) (object_attributes self)
        (symmetric self) public_id public_parms).

Definition with_name_alg (name_alg : TpmHash.t) (self : t) : t :=
  mk (object_type self) (TpmHash.to_alg name_alg) (auth_policy self) (object_attributes self)
    (symmetric self) (public_id self) (public_parms self).
Definition with_auth_policy (auth_policy : ty Tpm2bDigest) (self : t) : t :=
  mk (object_type self) (name_alg self) auth_policy (object_attributes self)
    (symmetric self) (public_id self) (public_parms self).
Definition with_object_attributes (object_attributes : Bitflags.t) (self : t) : t :=
  mk (object_type self) (name_alg self) (auth_policy self) object_attributes
    (symmetric self) (public_id self) (public_parms self).
Definition with_symmetric (symmetric : TpmtSymDef.t) (self : t) : t :=
  mk (object_type self) (name_alg self) (auth_policy self) (object_attributes self)
    symmetric (public_id self) (public_parms self).

(** The fields of the parameter structures. *)
Definition rsa_parms (symmetric : TpmtSymDef.t) (scheme : ty TpmtRsaScheme)
    (key_bits exponent : TpmInt.t) : ty TpmsRsaParms :=
  (symmetric, (scheme, (key_bits, (exponent, ())))).
Definition ecc_parms (symmetric : TpmtSymDef.t) (scheme : ty TpmtEccScheme)
    (curve_id : TpmEccCurve.t) (kdf : ty TpmtKdfScheme) : ty TpmsEccParms :=
  (symmetric, (scheme, (curve_id, (kdf, ())))).

Definition scheme (self : t) : option TpmAlgId.t :=
  match public_parms self with
  | TpmuPublicParms.Rsa (_, (scheme, _)) => Some (TaggedStruct.tag_field scheme)
  | TpmuPublicParms.Ecc (_, (scheme, _)) => Some (TaggedStruct.tag_field scheme)
  | _ => None
  end.

Definition is_storage_parent (self : t) : bool :=
  match object_type self with TpmAlgId.Rsa | TpmAlgId.Ecc => true | _ => false end &&
  match scheme self with Some TpmAlgId.Null => true | _ => false end &&
  Bitflags.contains (object_attributes self) TpmaObject.RESTRICTED &&
  Bitflags.contains (object_attributes self) TpmaObject.DECRYPT.

Definition usage_attributes (self : t) : Bitflags.t :=
  Bitflags.bitand (object_attributes self)
    (Bitflags.bitor (Bitflags.bitor TpmaObject.DECRYPT TpmaObject.SIGN_ENCRYPT)
       TpmaObject.RESTRICTED).

Definition rsa_scheme (self : t) : ty TpmtRsaScheme :=
  match public_parms self with
  | TpmuPublicParms.Rsa (_, (scheme, _)) =>
      let (scheme, details) :=
        fill_scheme_hash (TaggedStruct.tag_field scheme) (TaggedStruct.value_field scheme)
          (name_alg self) in
      TaggedStruct.mk scheme details
  | _ => TaggedStruct.mk TpmAlgId.Oaep (TpmuAsymScheme.Hash (scheme_hash (name_alg self)))
  end.

Definition ecc_scheme (self : t) : ty TpmtEccScheme :=
  match public_parms self with
  | TpmuPublicParms.Ecc (_, (scheme, _)) =>
      let (scheme, details) :=
        fill_scheme_hash (TaggedStruct.tag_field scheme) (TaggedStruct.value_field scheme)
          (name_alg self) in
      TaggedStruct.mk scheme details
  | _ => TaggedStruct.mk TpmAlgId.Ecdh (TpmuAsymScheme.Hash (scheme_hash (name_alg self)))
  end.

(** [TryFrom<&TpmtPublic>] *)
Definition try_from (public : ty TpmtPublic) : Res t :=
  let? name_alg := TpmHash.try_from (TpmtPublic.name_alg public) in
  let symmetric :=
    match TpmtPublic.parameters public with
    | TpmuPublicParms.Rsa (symmetric, _) => symmetric
    | TpmuPublicParms.Ecc (symmetric, _) => symmetric
    | TpmuPublicParms.SymCipher (sym, _) => sym
    | _ => sym_def_default
    end in
  let? template := with_public (TpmtPublic.unique public) (TpmtPublic.parameters public) new in
  Ok (with_symmetric symmetric (with_auth_policy (TpmtPublic.auth_policy public)
        (with_object_attributes (TpmtPublic.object_attributes public)
           (with_name_alg name_alg template)))).

(** [TryFrom<&TpmPublicTemplate> for TpmtPublic] *)
Definition to_public (template : t) : Res (ty TpmtPublic) :=
  let parameters :=
    match public_parms template with
    | TpmuPublicParms.Rsa (_, p) => TpmuPublicParms.Rsa (symmetric template, p)
    | TpmuPublicParms.Ecc (_, p) => TpmuPublicParms.Ecc (symmetric template, p)
    | TpmuPublicParms.SymCipher (_, p) => TpmuPublicParms.SymCipher (symmetric template, p)
    | p => p
    end in
  Ok (TpmtPublic.mk (object_type template) (name_alg template) (object_attributes template)
        (auth_policy template) parameters (public_id template)).
End template.

(** ** The text of a template *)

Section text.
Context `{TextLib} `{CurveText}.
Abbreviation Res := (result TpmCryptoError.t).

(** [format!("{kind}-{selector}:{name_alg_str}")], with the scheme behind it
    unless the template is a storage parent. *)
Definition format_asym (kind selector name_alg_str : str) (template : t) : Res str :=
  let parent := kind ++ lit "-" ++ selector ++ lit ":" ++ name_alg_str in
  if is_storage_parent template then Ok parent
  else
    let? scheme := ok_or (scheme template) TpmCryptoError.InvalidObjectType in
    let? scheme_str := scheme_name scheme in
    Ok (parent ++ lit ":" ++ scheme_str).

(** [TryFrom<&TpmPublicTemplate> for String] *)
Definition to_string (template : t) : Res str :=
  let? name_alg := TpmHash.try_from (name_alg template) in
  let name_alg_str := hash_to_string name_alg in
  match public_parms template with
  | TpmuPublicParms.Rsa (_, (_, (key_bits, _))) =>
      let key_bits := TpmInt.value 2 false key_bits in
      if key_bits =? 0 then Err (TpmCryptoError.InvalidKeyBits 0)
      else format_asym (lit "rsa") (u16_to_string key_bits) name_alg_str template
  | TpmuPublicParms.Ecc (_, (_, (curve_id, _))) =>
      let? curve := TpmEllipticCurve.try_from curve_id in
      format_asym (lit "ecc") (curve_to_string curve) name_alg_str template
  | TpmuPublicParms.KeyedHash (scheme, _) =>
      match TaggedStruct.tag_field scheme with
      | TpmAlgId.Null => Ok (lit "keyedhash-null:" ++ name_alg_str)
      | TpmAlgId.Xor => Ok (lit "keyedhash-xor:" ++ name_alg_str)
      | TpmAlgId.Hmac => Ok (lit "keyedhash-hmac:" ++ name_alg_str)
      | _ => Err TpmCryptoError.InvalidObjectType
      end
  | _ => Err TpmCryptoError.InvalidObjectType
  end.

Definition parse_rsa (suffix : str) : Res t :=
  let? (bits_str, rest) :=
    ok_or (split_once (chr ":") suffix) TpmCryptoError.InvalidObjectType in
  let? (name_alg_str, scheme_str) := split_name_and_scheme rest in
  let? key_bits := ok_or (from_str_radix u16_max bits_str 10) TpmCryptoError.InvalidObjectType in
  let? name_alg := ok_or (hash_from_str name_alg_str) TpmCryptoError.InvalidObjectType in
  let? (scheme, usage) := parse_asym_form scheme_str in
  if negb (is_rsa_scheme scheme) then Err TpmCryptoError.InvalidObjectType
  else
    let? (scheme, details) := asym_scheme scheme (TpmHash.to_alg name_alg) in
    let parms := TpmuPublicParms.Rsa
      (rsa_parms sym_def_default (TaggedStruct.mk scheme details) (TpmInt.new 2 key_bits)
         (TpmInt.new 4 0)) in
    let unique := TpmuPublicId.Rsa (TpmBuffer.new MAX_RSA_KEY_BYTES) in
    let? template := with_public unique parms new in
    Ok (with_object_attributes usage (with_name_alg name_alg template)).

Definition parse_ecc (suffix : str) : Res t :=
  let? (curve_str, rest) :=
    ok_or (split_once (chr ":") suffix) TpmCryptoError.InvalidObjectType in
  let? (name_alg_str, scheme_str) := split_name_and_scheme rest in
  let? curve := ok_or (curve_from_str curve_str) TpmCryptoError.InvalidObjectType in
  let curve_id := TpmEllipticCurve.to_curve curve in
  let? name_alg := ok_or (hash_from_str name_alg_str) TpmCryptoError.InvalidObjectType in
  let? (scheme, usage) := parse_asym_form scheme_str in
  if negb (is_ecc_scheme scheme) then Err TpmCryptoError.InvalidObjectType
  else
    let? (scheme, details) := asym_scheme scheme (TpmHash.to_alg name_alg) in
    let parms := TpmuPublicParms.Ecc
      (ecc_parms sym_def_default (TaggedStruct.mk scheme details) curve_id kdf_scheme_default) in
    let unique := TpmuPublicId.Ecc
      (TpmBuffer.new MAX_ECC_KEY_BYTES, (TpmBuffer.new MAX_ECC_KEY_BYTES, ())) in
    let? template := with_public unique parms new in
    Ok (with_object_attributes usage (with_name_alg name_alg template)).

Definition parse_keyedhash (hash_alg : str) (scheme : TpmAlgId.t) : Res t :=
  let? name_alg := ok_or (hash_from_str hash_alg) TpmCryptoError.InvalidObjectType in
  let name_alg_id := TpmHash.to_alg name_alg in
  let? details :=
    match scheme with
    | TpmAlgId.Null => Ok TpmuKeyedhashScheme.Null
    | TpmAlgId.Xor =>
        Ok (TpmuKeyedhashScheme.Xor
              (name_alg_id, (TaggedStruct.mk TpmAlgId.Kdf1Sp800_108 TpmuKdfScheme.Null, ())))
    | TpmAlgId.Hmac => Ok (TpmuKeyedhashScheme.Hmac (scheme_hash name_alg_id))
    | _ => Err TpmCryptoError.InvalidObjectType
    end in
  let parms := TpmuPublicParms.KeyedHash (TaggedStruct.mk scheme details, ()) in
  let unique := TpmuPublicId.KeyedHash (TpmBuffer.new MAX_DIGEST_SIZE) in
  let? template := with_public unique parms new in
  Ok (with_object_attributes TpmaObject.SIGN_ENCRYPT (with_name_alg name_alg template)).

(** [FromStr] *)
Definition from_str (s : str) : Res t :=
  match strip_prefix (lit "rsa-") s with
  | Some rest => parse_rsa rest
  | None =>
  match strip_prefix (lit "ecc-") s with
  | Some rest => parse_ecc rest
  | None =>
  match strip_prefix (lit "keyedhash-null:") s with
  | Some name_alg_str => parse_keyedhash name_alg_str TpmAlgId.Null
  | None =>
  match strip_prefix (lit "keyedhash-xor:") s with
  | Some name_alg_str => parse_keyedhash name_alg_str TpmAlgId.Xor
  | None =>
  match strip_prefix (lit "keyedhash-hmac:") s with
  | Some name_alg_str => parse_keyedhash name_alg_str TpmAlgId.Hmac
  | None => Err TpmCryptoError.InvalidObjectType
  end end end end end.
End text.
End TpmPublicTemplate.
