(* ===== verification/TemplateSpec.v ===== *)
(** Facts about key templates: the language [from_str] reads ([describes]),
    what a printed template is read back as, and public areas. *)

From Stdlib Require Import Ascii String.
From S2P Require Import Prelude State Errors Writer Codec Integer Buffer Struct EnumMacro Union Enums Attributes.
From S2P Require Import BasicTypes Schemes Structures Crypto Hash Text PolicyText Template.
Import TpmPublicTemplate.

(** ** The language of templates *)

Section language.
Context `{TextLib} `{CurveText}.
Abbreviation Res := (result TpmCryptoError.t).

Definition parent_usage : Bitflags.t := Bitflags.bitor TpmaObject.DECRYPT TpmaObject.RESTRICTED.
Definition plain_usage : Bitflags.t := Bitflags.bitor TpmaObject.SIGN_ENCRYPT TpmaObject.DECRYPT.

(** What follows the name algorithm of an asymmetric key: nothing for a
    storage parent, or the name of a scheme, which says what the key is for. *)
Inductive suffix : str → TpmAlgId.t → Bitflags.t → Prop :=
| suffix_parent : suffix [] TpmAlgId.Null parent_usage
| suffix_plain : suffix (lit ":null") TpmAlgId.Null plain_usage
| suffix_sign scheme name :
    scheme_name scheme = Ok name → is_sign_scheme scheme = true →
    suffix (lit ":" ++ name) scheme TpmaObject.SIGN_ENCRYPT
| suffix_decrypt scheme name :
    scheme_name scheme = Ok name → is_decrypt_scheme scheme = true →
    suffix (lit ":" ++ name) scheme TpmaObject.DECRYPT.

(** The details of a scheme: the name algorithm, where it has a hash. *)
Definition scheme_details (scheme : TpmAlgId.t) (h : TpmHash.t) : TpmuAsymScheme.t :=
  match scheme with
  | TpmAlgId.Null | TpmAlgId.Rsaes => TpmuAsymScheme.Null
  | _ => TpmuAsymScheme.Hash (scheme_hash (TpmHash.to_alg h))
  end.

Definition rsa_template (bits : Z) (h : TpmHash.t) (scheme : TpmAlgId.t) (usage : Bitflags.t) : t :=
  mk TpmAlgId.Rsa (TpmHash.to_alg h) empty_digest usage sym_def_default
    (TpmuPublicId.Rsa (TpmBuffer.new MAX_RSA_KEY_BYTES))
    (TpmuPublicParms.Rsa (rsa_parms sym_def_default
       (TaggedStruct.mk scheme (scheme_details scheme h)) (TpmInt.new 2 bits) (TpmInt.new 4 0))).

Definition ecc_template (curve : TpmEllipticCurve.t) (h : TpmHash.t) (scheme : TpmAlgId.t)
    (usage : Bitflags.t) : t :=
  mk TpmAlgId.Ecc (TpmHash.to_alg h) empty_digest usage sym_def_default
    (TpmuPublicId.Ecc (TpmBuffer.new MAX_ECC_KEY_BYTES, (TpmBuffer.new MAX_ECC_KEY_BYTES, ())))
    (TpmuPublicParms.Ecc (ecc_parms sym_def_default
       (TaggedStruct.mk scheme (scheme_details scheme h)) (TpmEllipticCurve.to_curve curve)
       kdf_scheme_default)).

Definition keyedhash_template (h : TpmHash.t) (scheme : TpmAlgId.t)
    (details : TpmuKeyedhashScheme.t) : t :=
  mk TpmAlgId.KeyedHash (TpmHash.to_alg h) empty_digest TpmaObject.SIGN_ENCRYPT sym_def_default
    (TpmuPublicId.KeyedHash (TpmBuffer.new MAX_DIGEST_SIZE))
    (TpmuPublicParms.KeyedHash (TaggedStruct.mk scheme details, ())).

(** [describes s t]: [s] is the text of the template [t]. *)
Inductive describes : str → t → Prop :=
| describes_rsa bits_str bits name h rest scheme usage :
    chr ":" ∉ bits_str → from_str_radix u16_max bits_str 10 = Some bits →
    chr ":" ∉ name → hash_from_str name = Some h →
    name ≠ [] ∨ rest = [] → suffix rest scheme usage → is_rsa_scheme scheme = true →
    describes (lit "rsa-" ++ bits_str ++ lit ":" ++ name ++ rest) (rsa_template bits h scheme usage)
| describes_ecc curve_str curve name h rest scheme usage :
    chr ":" ∉ curve_str → curve_from_str curve_str = Some curve →
    chr ":" ∉ name → hash_from_str name = Some h →
    name ≠ [] ∨ rest = [] → suffix rest scheme usage → is_ecc_scheme scheme = true →
    describes (lit "ecc-" ++ curve_str ++ lit ":" ++ name ++ rest) (ecc_template curve h scheme usage)
| describes_null name h :
    hash_from_str name = Some h →
    describes (lit "keyedhash-null:" ++ name)
      (keyedhash_template h TpmAlgId.Null TpmuKeyedhashScheme.Null)
| describes_xor name h :
    hash_from_str name = Some h →
    describes (lit "keyedhash-xor:" ++ name)
      (keyedhash_template h TpmAlgId.Xor (TpmuKeyedhashScheme.Xor
         (TpmHash.to_alg h, (TaggedStruct.mk TpmAlgId.Kdf1Sp800_108 TpmuKdfScheme.Null, ()))))
| describes_hmac name h :
    hash_from_str name = Some h →
    describes (lit "keyedhash-hmac:" ++ name)
      (keyedhash_template h TpmAlgId.Hmac
         (TpmuKeyedhashScheme.Hmac (scheme_hash (TpmHash.to_alg h)))).

(** ** Reading *)

(** The only error of the parser. *)
Definition bad_type (e : TpmCryptoError.t) : Prop := e = TpmCryptoError.InvalidObjectType.

Lemma ok_or_outcome {A} (o : option A) :
  outcome bad_type (λ a, o = Some a) (ok_or o TpmCryptoError.InvalidObjectType).
Proof. by destruct o. Qed.

Lemma scheme_name_parse a s : scheme_name a = Ok s → parse_scheme s = Ok a.
Proof. destruct a; simpl; try done; intros [= <-]; vm_compute; reflexivity. Qed.

Lemma parse_scheme_outcome s : outcome bad_type (λ a, scheme_name a = Ok s) (parse_scheme s).
Proof. unfold parse_scheme. repeat (case_decide; [by subst|]). done. Qed.

Lemma scheme_name_chars a s :
  scheme_name a = Ok s → s ≠ [] ∧ Forall (λ c, is_name_char c = true) s.
Proof. destruct a; simpl; try done; intros [= <-]; (split; [done | by repeat constructor]). Qed.

Lemma name_no_colon s : Forall (λ c, is_name_char c = true) s → chr ":" ∉ s.
Proof.
  intros Hs Hin. rewrite list.Forall_forall in Hs. specialize (Hs _ Hin). done.
Qed.

(** The two parts after the key size or the curve. *)
Lemma split_form_outcome rest :
  outcome bad_type
    (λ '(name, scheme_str), chr ":" ∉ name ∧
       rest = name ++ match scheme_str with None => [] | Some s => lit ":" ++ s end ∧
       (name ≠ [] ∨ scheme_str = None))
    (split_name_and_scheme rest).
Proof.
  unfold split_name_and_scheme. destruct (split_once (chr ":") rest) as [[name s]|] eqn:E.
  - apply split_once_Some in E as [-> Hn]. case_match eqn:Hc; [done|].
    apply orb_false_iff in Hc as [[Hc _]%orb_false_iff _]. apply bool_decide_eq_false in Hc.
    split_and!; [done | done | by left].
  - simpl. split_and!; [|by rewrite app_nil_r|by right]. by apply split_once_None.
Qed.

Lemma parse_asym_form_outcome scheme_str :
  outcome bad_type
    (λ '(scheme, usage),
       suffix match scheme_str with None => [] | Some s => lit ":" ++ s end scheme usage)
    (parse_asym_form scheme_str).
Proof.
  destruct scheme_str as [s|]; [|by constructor]. simpl.
  eapply outcome_bind; [apply parse_scheme_outcome|]. intros a Ha.
  case_bool_decide; [subst a; injection Ha as <-; by constructor|].
  destruct (is_sign_scheme a) eqn:Hs; [by constructor|].
  destruct (is_decrypt_scheme a) eqn:Hd; [by constructor|]. done.
Qed.

Lemma split_form_suffix name rest scheme usage :
  chr ":" ∉ name → name ≠ [] ∨ rest = [] → suffix rest scheme usage →
  (let? (name_alg_str, scheme_str) := split_name_and_scheme (name ++ rest) in
   let? form := parse_asym_form scheme_str in Ok (name_alg_str, form)) = Ok (name, (scheme, usage)).
Proof.
  intros Hn Hne Hs. unfold split_name_and_scheme.
  assert (∀ a s, scheme_name a = Ok s → bool_decide (s = []) || bool_decide (chr ":" ∈ s) = false) as Hc.
  { intros a s [? Hs']%scheme_name_chars. apply name_no_colon in Hs'.
    by rewrite !bool_decide_eq_false_2. }
  destruct Hs as [| |a s Ha Hsg|a s Ha Hd].
  - by rewrite app_nil_r, split_once_none.
  - assert (name ≠ []) by (by destruct Hne).
    change (lit ":null") with (chr ":" :: lit "null").
    rewrite split_once_app, bool_decide_eq_false_2 by done. done.
  - assert (name ≠ []) by (by destruct Hne).
    change (lit ":" ++ s) with (chr ":" :: s). rewrite split_once_app by done.
    rewrite <-orb_assoc, (Hc _ _ Ha), bool_decide_eq_false_2 by done. cbn [orb result_bind parse_asym_form].
    rewrite (scheme_name_parse _ _ Ha). cbn [result_bind].
    rewrite bool_decide_eq_false_2 by (by intros ->). by rewrite Hsg.
  - assert (name ≠ []) by (by destruct Hne).
    change (lit ":" ++ s) with (chr ":" :: s). rewrite split_once_app by done.
    rewrite <-orb_assoc, (Hc _ _ Ha), bool_decide_eq_false_2 by done. cbn [orb result_bind parse_asym_form].
    rewrite (scheme_name_parse _ _ Ha). cbn [result_bind].
    rewrite bool_decide_eq_false_2 by (by intros ->).
    destruct (is_sign_scheme a) eqn:Hsg; [by destruct a|]. by rewrite Hd.
Qed.

Lemma split_form_parts name rest scheme usage :
  chr ":" ∉ name → name ≠ [] ∨ rest = [] → suffix rest scheme usage →
  ∃ scheme_str, split_name_and_scheme (name ++ rest) = Ok (name, scheme_str) ∧
    parse_asym_form scheme_str = Ok (scheme, usage).
Proof.
  intros Hn Hne Hs. pose proof (split_form_suffix name rest scheme usage Hn Hne Hs) as He.
  apply result_bind_Ok_inv in He as ([name' scheme_str] & Hsp & (form & Hf & [= -> ->])%result_bind_Ok_inv).
  eauto.
Qed.

Lemma asym_scheme_details scheme h :
  is_rsa_scheme scheme = true ∨ is_ecc_scheme scheme = true →
  asym_scheme scheme (TpmHash.to_alg h) = Ok (scheme, scheme_details scheme h).
Proof. by destruct scheme; intros [|]. Qed.

Lemma parse_rsa_outcome s : outcome bad_type (describes (lit "rsa-" ++ s)) (parse_rsa s).
Proof.
  unfold parse_rsa. eapply outcome_bind; [apply ok_or_outcome|].
  intros [bits_str rest] [-> Hb]%split_once_Some.
  eapply outcome_bind; [apply split_form_outcome|]. intros [name scheme_str] (Hn & -> & Hne).
  eapply outcome_bind; [apply ok_or_outcome|]. intros bits Hbits.
  eapply outcome_bind; [apply ok_or_outcome|]. intros h Hh.
  eapply outcome_bind; [apply parse_asym_form_outcome|]. intros [scheme usage] Hs.
  destruct (is_rsa_scheme scheme) eqn:Hr; [|done]. cbn [negb].
  rewrite asym_scheme_details by auto. simpl.
  eapply (describes_rsa bits_str bits name h); try done. destruct Hne as [?| ->]; [by left | by right].
Qed.

Lemma parse_ecc_outcome s : outcome bad_type (describes (lit "ecc-" ++ s)) (parse_ecc s).
Proof.
  unfold parse_ecc. eapply outcome_bind; [apply ok_or_outcome|].
  intros [curve_str rest] [-> Hb]%split_once_Some.
  eapply outcome_bind; [apply split_form_outcome|]. intros [name scheme_str] (Hn & -> & Hne).
  eapply outcome_bind; [apply ok_or_outcome|]. intros curve Hcurve.
  eapply outcome_bind; [apply ok_or_outcome|]. intros h Hh.
  eapply outcome_bind; [apply parse_asym_form_outcome|]. intros [scheme usage] Hs.
  destruct (is_ecc_scheme scheme) eqn:Hr; [|done]. cbn [negb].
  rewrite asym_scheme_details by auto. simpl.
  eapply (describes_ecc curve_str curve name h); try done. destruct Hne as [?| ->]; [by left | by right].
Qed.

Lemma parse_keyedhash_outcome name scheme (P : t → Prop) :
  (∀ h, hash_from_str name = Some h → outcome bad_type P (parse_keyedhash name scheme)) →
  outcome bad_type P (parse_keyedhash name scheme).
Proof. intros HP. destruct (hash_from_str name) as [h|] eqn:E; [by eapply HP|]. unfold parse_keyedhash. by rewrite E. Qed.

(** Every text is refused as an invalid object type, or is the text of the
    template it is read as. *)
Lemma from_str_outcome s : outcome bad_type (describes s) (from_str s).
Proof.
  unfold from_str.
  destruct (strip_prefix (lit "rsa-") s) eqn:E; [apply strip_prefix_Some in E as ->; apply parse_rsa_outcome | clear E].
  destruct (strip_prefix (lit "ecc-") s) eqn:E; [apply strip_prefix_Some in E as ->; apply parse_ecc_outcome | clear E].
  destruct (strip_prefix (lit "keyedhash-null:") s) eqn:E;
    [|clear E; destruct (strip_prefix (lit "keyedhash-xor:") s) eqn:E;
      [|clear E; destruct (strip_prefix (lit "keyedhash-hmac:") s) eqn:E; [|done]]];
    apply strip_prefix_Some in E as ->; apply parse_keyedhash_outcome; intros h Hh;
    unfold parse_keyedhash; rewrite Hh; simpl; by constructor.
Qed.

Lemma from_str_describes s t : describes s t → from_str s = Ok t.
Proof.
  destruct 1 as [bits_str bits name h rest scheme usage Hb Hbits Hn Hh Hne Hs Hr
    |curve_str curve name h rest scheme usage Hb Hc Hn Hh Hne Hs Hr
    |name h Hh|name h Hh|name h Hh].
  - unfold from_str. rewrite (proj2 (strip_prefix_Some _ _ _)) by done.
    destruct (split_form_parts _ _ _ _ Hn Hne Hs) as (scheme_str & Hsp & Hf).
    unfold parse_rsa. change (lit ":" ++ name ++ rest) with (chr ":" :: name ++ rest).
    rewrite split_once_app by done. cbn [ok_or result_bind]. rewrite Hsp. cbn [result_bind].
    rewrite Hbits, Hh. cbn [ok_or result_bind]. rewrite Hf. cbn [result_bind]. rewrite Hr. cbn [negb].
    by rewrite asym_scheme_details by auto.
  - unfold from_str. change (strip_prefix (lit "rsa-") _) with (@None str).
    rewrite (proj2 (strip_prefix_Some _ _ _)) by done.
    destruct (split_form_parts _ _ _ _ Hn Hne Hs) as (scheme_str & Hsp & Hf).
    unfold parse_ecc. change (lit ":" ++ name ++ rest) with (chr ":" :: name ++ rest).
    rewrite split_once_app by done. cbn [ok_or result_bind]. rewrite Hsp. cbn [result_bind].
    rewrite Hc, Hh. cbn [ok_or result_bind]. rewrite Hf. cbn [result_bind]. rewrite Hr. cbn [negb].
    by rewrite asym_scheme_details by auto.
  - unfold from_str, parse_keyedhash. simpl. by rewrite Hh.
  - unfold from_str, parse_keyedhash. simpl. by rewrite Hh.
  - unfold from_str, parse_keyedhash. simpl. by rewrite Hh.
Qed.

(** ** Printing *)

(** The object type is that of the parameters; [with_public] keeps it so. *)
Definition consistent (t : t) : bool :=
  match public_parms t, object_type t with
  | TpmuPublicParms.Rsa _, TpmAlgId.Rsa | TpmuPublicParms.Ecc _, TpmAlgId.Ecc
  | TpmuPublicParms.KeyedHash _, TpmAlgId.KeyedHash
  | TpmuPublicParms.SymCipher _, TpmAlgId.SymCipher => true
  | _, _ => false
  end.

(** The scheme is one of the key type, and a key size is a [u16]. *)
Definition fitting (t : t) : bool :=
  match public_parms t with
  | TpmuPublicParms.Rsa (_, (scheme, (key_bits, _))) =>
      is_rsa_scheme (TaggedStruct.tag_field scheme) && (TpmInt.value 2 false key_bits <=? u16_max)
  | TpmuPublicParms.Ecc (_, (scheme, _)) => is_ecc_scheme (TaggedStruct.tag_field scheme)
  | _ => true
  end.

(** What the text of a template is about. *)
Definition same_algorithms (a b : t) : Prop :=
  name_alg a = name_alg b ∧ is_storage_parent a = is_storage_parent b ∧
  match public_parms a, public_parms b with
  | TpmuPublicParms.Rsa (_, (s, (k, _))), TpmuPublicParms.Rsa (_, (s', (k', _))) =>
      TaggedStruct.tag_field s = TaggedStruct.tag_field s' ∧
      TpmInt.value 2 false k = TpmInt.value 2 false k'
  | TpmuPublicParms.Ecc (_, (s, (c, _))), TpmuPublicParms.Ecc (_, (s', (c', _))) =>
      TaggedStruct.tag_field s = TaggedStruct.tag_field s' ∧ c = c'
  | TpmuPublicParms.KeyedHash (s, _), TpmuPublicParms.KeyedHash (s', _) =>
      TaggedStruct.tag_field s = TaggedStruct.tag_field s'
  | _, _ => False
  end.

Lemma to_string_same a b : same_algorithms a b → to_string a = to_string b.
Proof.
  destruct a as [oa na aa ba sa ia pa], b as [ob nb ab bb sb ib pb].
  intros (Hn & Hp & Hm). simpl in Hn, Hm. subst nb. unfold to_string, format_asym. rewrite Hp.
  cbn [name_alg public_parms].
  destruct (TpmHash.try_from na); [|done..]. cbn [result_bind].
  destruct pa as [[s u]| |[y [s [k u]]]|[y [s [c u]]]|], pb as [[s' u']| |[y' [s' [k' u']]]|[y' [s' [c' u']]]|];
    try done; simpl in Hm |- *; try destruct Hm as [Hm1 Hm2]; rewrite ?Hm1, ?Hm2, ?Hm; done.
Qed.

(** The printed suffix is one the parser reads, and as which usage. *)
Lemma storage_parent_null t : is_storage_parent t = true → scheme t = Some TpmAlgId.Null.
Proof.
  unfold is_storage_parent. intros [[[_ Hs]%andb_prop _]%andb_prop _]%andb_prop.
  destruct (scheme t) as [[]|]; done.
Qed.

Lemma printed_suffix sch :
  is_rsa_scheme sch = true ∨ is_ecc_scheme sch = true →
  ∃ name usage, scheme_name sch = Ok name ∧ suffix (lit ":" ++ name) sch usage ∧
    Bitflags.contains usage TpmaObject.RESTRICTED = false.
Proof.
  destruct (is_sign_scheme sch) eqn:Hs.
  { destruct sch; try done; intros _; eexists _, _; (split; [done|]); (split; [by apply suffix_sign|done]). }
  destruct (is_decrypt_scheme sch) eqn:Hd.
  { destruct sch; try done; intros _; eexists _, _; (split; [done|]); (split; [by apply suffix_decrypt|done]). }
  destruct sch; try done; intros [|]; try done; eexists _, _; (split; [done|]);
    (split; [apply suffix_plain|done]).
Qed.

Lemma format_asym_suffix kind selector name (tm : t) sch s :
  scheme tm = Some sch → is_rsa_scheme sch = true ∨ is_ecc_scheme sch = true →
  format_asym kind selector name tm = Ok s →
  ∃ rest usage, s = kind ++ lit "-" ++ selector ++ lit ":" ++ name ++ rest ∧ suffix rest sch usage ∧
    Bitflags.contains usage TpmaObject.RESTRICTED && Bitflags.contains usage TpmaObject.DECRYPT =
      is_storage_parent tm.
Proof.
  intros Hsch Hok. unfold format_asym. destruct (is_storage_parent tm) eqn:Hp.
  - pose proof (storage_parent_null _ Hp) as Hn. rewrite Hsch in Hn. injection Hn as ->.
    intros [= <-]. exists [], parent_usage. rewrite app_nil_r. split; [done|]. split; [constructor | done].
  - rewrite Hsch. destruct (printed_suffix _ Hok) as (sn & usage & Hn & Hs & Hu).
    cbn [ok_or result_bind]. rewrite Hn. intros [= <-]. exists (lit ":" ++ sn), usage.
    rewrite Hu. split_and!; [|done..]. by repeat (rewrite <-(assoc_L (++)); simpl).
Qed.

Lemma curve_inv c curve : TpmEllipticCurve.try_from c = Ok curve → c = TpmEllipticCurve.to_curve curve.
Proof. by destruct c; intros [= <-]. Qed.

Lemma decimal_no_colon n z : 0 ≤ z → chr ":" ∉ decimal n z.
Proof.
  intros Hz Hin. pose proof (decimal_chars n z Hz) as Hc. rewrite list.Forall_forall in Hc.
  specialize (Hc _ Hin). done.
Qed.

(** A template that was read is a storage parent if its usage says so. *)
Lemma suffix_storage_parent rest sch usage :
  suffix rest sch usage →
  match sch with TpmAlgId.Null => true | _ => false end &&
  Bitflags.contains usage TpmaObject.RESTRICTED && Bitflags.contains usage TpmaObject.DECRYPT =
  Bitflags.contains usage TpmaObject.RESTRICTED && Bitflags.contains usage TpmaObject.DECRYPT.
Proof. by destruct 1 as [| |[]|[]]. Qed.

Lemma rsa_storage_parent bits h sch usage rest :
  suffix rest sch usage →
  Bitflags.contains usage TpmaObject.RESTRICTED && Bitflags.contains usage TpmaObject.DECRYPT =
  is_storage_parent (rsa_template bits h sch usage).
Proof. intros Hs%suffix_storage_parent. by rewrite <-Hs. Qed.

Lemma ecc_storage_parent curve h sch usage rest :
  suffix rest sch usage →
  Bitflags.contains usage TpmaObject.RESTRICTED && Bitflags.contains usage TpmaObject.DECRYPT =
  is_storage_parent (ecc_template curve h sch usage).
Proof. intros Hs%suffix_storage_parent. by rewrite <-Hs. Qed.

Section printed.
Context `{!TextLibOk} `{!CurveTextOk}.

Lemma hash_name_ok h :
  chr ":" ∉ hash_to_string h ∧ hash_from_str (hash_to_string h) = Some h.
Proof. split; [apply name_no_colon, hash_chars | apply hash_from_to_string]. Qed.

(** What a template is printed as is read as one with the same algorithms. *)
Lemma to_string_describes tm s :
  consistent tm = true → fitting tm = true → to_string tm = Ok s →
  ∃ tm', describes s tm' ∧ same_algorithms tm tm'.
Proof.
  destruct tm as [ot na ap attrs sy pid pp]. intros Hc Hf.
  unfold to_string. cbn [name_alg public_parms].
  intros (h & <-%Hash.try_from_to_alg & Hs)%result_bind_Ok_inv.
  destruct (hash_name_ok h) as [Hnc Hname].
  set (tm := mk ot (TpmHash.to_alg h) ap attrs sy pid pp) in *.
  destruct pp as [[sch u]| |[y [sch [k u]]]|[y [sch [c u]]]|]; [..|done]; [| done | |].
  - destruct (TaggedStruct.tag_field sch) eqn:Hsch; try done; injection Hs as <-;
      (eexists; split; [by constructor|]); (split_and!; [done | by destruct ot | done]).
  - simpl in Hf. apply andb_prop in Hf as [Hr Hk%Z.leb_le].
    pose proof (be_decode_bound (TpmInt.bytes k)) as Hb.
    change (be_decode (TpmInt.bytes k)) with (TpmInt.value 2 false k) in Hb.
    destruct (TpmInt.value 2 false k =? 0) eqn:Hz; [done|].
    apply (format_asym_suffix _ _ _ _ (TaggedStruct.tag_field sch)) in Hs
      as (rest & usage & -> & Hsuf & Hp); [|done|by left].
    exists (rsa_template (TpmInt.value 2 false k) h (TaggedStruct.tag_field sch) usage). split.
    + apply describes_rsa; try done; [apply decimal_no_colon; lia | apply u16_to_string_parse; lia|].
      left. apply hash_nonempty.
    + split; [done|]. rewrite <-Hp. split; [by apply rsa_storage_parent with rest|]. split; [done|].
      symmetry. apply value_new; [lia|]. change (TpmInt.in_range 2 false (TpmInt.value 2 false k)) with
        (0 ≤ TpmInt.value 2 false k ≤ u16_max). lia.
  - simpl in Hf. apply result_bind_Ok_inv in Hs as (curve & ->%curve_inv & Hs).
    apply (format_asym_suffix _ _ _ _ (TaggedStruct.tag_field sch)) in Hs
      as (rest & usage & -> & Hsuf & Hp); [|done|by right].
    exists (ecc_template curve h (TaggedStruct.tag_field sch) usage). split.
    + apply describes_ecc; try done; [apply name_no_colon, curve_chars | apply curve_from_to_string|].
      left. apply hash_nonempty.
    + split; [done|]. rewrite <-Hp. split; [by apply ecc_storage_parent with rest|]. by split.
Qed.

(** ** What was read *)

Lemma key_bits_value s bits :
  from_str_radix u16_max s 10 = Some bits → TpmInt.value 2 false (TpmInt.new 2 bits) = bits ∧ 0 ≤ bits ≤ u16_max.
Proof.
  intros Hb%from_str_radix_bounds; [|done..]. split; [|done]. apply value_new; [lia|].
  change (0 ≤ bits ≤ u16_max). lia.
Qed.

Lemma describes_sound s tm : describes s tm → consistent tm = true ∧ fitting tm = true.
Proof.
  destruct 1 as [bits_str bits name h rest scheme usage Hb Hbits Hn Hh Hne Hs Hr|? ? ? ? ? ? ? ? ? ? ? ? ? Hr|? ?|? ?|? ?];
    (split; [done|]); try done.
  apply key_bits_value in Hbits as [Hv Hbits].
  change (is_rsa_scheme scheme && (TpmInt.value 2 false (TpmInt.new 2 bits) <=? u16_max) = true).
  rewrite Hr, Hv. apply Z.leb_le, Hbits.
Qed.

(** The usage follows from the scheme and from being a storage parent. *)
Lemma suffix_usage rest rest' sch usage usage' :
  suffix rest sch usage → suffix rest' sch usage' →
  Bitflags.contains usage TpmaObject.RESTRICTED && Bitflags.contains usage TpmaObject.DECRYPT =
  Bitflags.contains usage' TpmaObject.RESTRICTED && Bitflags.contains usage' TpmaObject.DECRYPT →
  usage = usage'.
Proof.
  intros Hl Hr. destruct Hl as [| |a ? Ha Hs|a ? Ha Hs]; inversion Hr as [| |? ? Ha' Hs'|? ? Ha' Hs']; subst; try done.
  all: by destruct a.
Qed.

Lemma to_alg_inj h h' : TpmHash.to_alg h = TpmHash.to_alg h' → h = h'.
Proof. by destruct h, h'. Qed.

Lemma to_curve_inj c c' : TpmEllipticCurve.to_curve c = TpmEllipticCurve.to_curve c' → c = c'.
Proof. by destruct c, c'. Qed.

(** A template that was read is determined by its algorithms. *)
Lemma describes_determined s s' tm tm' :
  describes s tm → describes s' tm' → same_algorithms tm tm' → tm = tm'.
Proof.
  destruct 1 as [? bits ? h rest sch usage ? Hbits ? ? ? Hs ?|? c ? h rest sch usage ? ? ? ? ? Hs ?|? h|? h|? h];
    destruct 1 as [? bits' ? h' rest' sch' usage' ? Hbits' ? ? ? Hs' ?|? c' ? h' rest' sch' usage' ? ? ? ? ? Hs' ?|? h'|? h'|? h'];
    intros (Hh%to_alg_inj & Hp & Hm); simpl in Hm; try done; subst h'; try done.
  - destruct Hm as [<- Hv]. apply key_bits_value in Hbits as [Hb _], Hbits' as [Hb' _].
    rewrite Hb, Hb' in Hv. subst bits'.
    erewrite <-!rsa_storage_parent in Hp by done. by rewrite (suffix_usage _ _ _ _ _ Hs Hs' Hp).
  - destruct Hm as [<- <-%to_curve_inj].
    erewrite <-!ecc_storage_parent in Hp by done. by rewrite (suffix_usage _ _ _ _ _ Hs Hs' Hp).
Qed.

(** It can be printed, unless its key size is zero. *)
Lemma format_asym_total kind selector name (tm : t) sch :
  scheme tm = Some sch → is_rsa_scheme sch = true ∨ is_ecc_scheme sch = true →
  ∃ s, format_asym kind selector name tm = Ok s.
Proof.
  intros Hsch Hok. unfold format_asym. destruct (is_storage_parent tm); [by eexists|].
  rewrite Hsch. destruct (printed_suffix _ Hok) as (sn & usage & Hn & _). cbn [ok_or result_bind].
  rewrite Hn. by eexists.
Qed.

Definition zero_size (tm : t) : bool :=
  match public_parms tm with
  | TpmuPublicParms.Rsa (_, (_, (key_bits, _))) => TpmInt.value 2 false key_bits =? 0
  | _ => false
  end.

Lemma hash_try_from h : TpmHash.try_from (TpmHash.to_alg h) = Ok h.
Proof. by apply Hash.try_from_to_alg. Qed.

Lemma curve_try_from c : TpmEllipticCurve.try_from (TpmEllipticCurve.to_curve c) = Ok c.
Proof. by destruct c. Qed.

Lemma describes_printable s tm :
  describes s tm →
  (zero_size tm = true → to_string tm = Err (TpmCryptoError.InvalidKeyBits 0)) ∧
  (zero_size tm = false → ∃ s', to_string tm = Ok s').
Proof.
  unfold to_string, zero_size.
  destruct 1 as [? bits ? h rest sch usage ? Hbits ? ? ? Hs Hr|? c ? h rest sch usage ? ? ? ? ? Hs Hr|? h|? h|? h];
    cbn; rewrite hash_try_from; cbn [result_bind]; (split; [|try by eexists]); try done.
  - by intros ->.
  - intros ->. apply format_asym_total with sch; auto.
  - intros _. rewrite curve_try_from. apply format_asym_total with sch; auto.
Qed.
End printed.
End language.
