(* ===== verification/Openssl.v ===== *)
(** What the external keys of the crypto crate use besides [Libcrypto]: the
    public-key part of the openssl crate ([Openssl]) and the [BigUint] of
    num-bigint ([BigUintLib]), with their documented behaviour
    ([OpensslOk], [BigUintLibOk]).  None of it is part of the repository. *)

From S2P Require Import Prelude State Errors Crypto.

(** ** [num_bigint::BigUint] *)

Class BigUintLib := {
  BigUint : Type;
  BigUint_from_bytes_be : list byte → BigUint;
  BigUint_from_u8 : Z → BigUint;
  BigUint_to_be_bytes : BigUint → list byte;
  BigUint_lt : BigUint → BigUint → bool;
  BigUint_sub : BigUint → BigUint → BigUint;
  BigUint_add : BigUint → BigUint → BigUint;
  (** [bits()]: the bits of the number, without leading zeros *)
  BigUint_bits : BigUint → Z
}.

(** They are the natural numbers. *)
Class BigUintLibOk `{BigUintLib} := {
  big_val : BigUint → Z;
  big_val_nonneg a : 0 ≤ big_val a;
  big_from_bytes bs : big_val (BigUint_from_bytes_be bs) = be_decode bs;
  big_from_u8 z : 0 ≤ z < 256 → big_val (BigUint_from_u8 z) = z;
  big_to_bytes a : be_decode (BigUint_to_be_bytes a) = big_val a;
  big_lt a b : BigUint_lt a b = (big_val a <? big_val b);
  big_sub a b : big_val b ≤ big_val a → big_val (BigUint_sub a b) = big_val a - big_val b;
  big_add a b : big_val (BigUint_add a b) = big_val a + big_val b;
  big_bits a : 0 < big_val a → 2 ^ (BigUint_bits a - 1) ≤ big_val a < 2 ^ BigUint_bits a
}.

(** ** openssl *)

Class Openssl `{Libcrypto} := {
  (** [openssl::nid::Nid] *)
  nid_eq_dec :: EqDecision Nid;
  X9_62_PRIME192V1 : Nid; SECP224R1 : Nid; X9_62_PRIME256V1 : Nid; SECP384R1 : Nid;
  SECP521R1 : Nid; BRAINPOOL_P256R1 : Nid; BRAINPOOL_P384R1 : Nid; BRAINPOOL_P512R1 : Nid;
  SM2 : Nid; UNDEF : Nid;
  (** [MessageDigest::type_], [Md::from_nid] *)
  md_type : MessageDigest → Nid;
  Md : Type;
  Md_from_nid : Nid → option Md;
  (** [openssl::rand::rand_bytes], on a slice of the given length; [Rng] is
      the generator of the process. *)
  Rng : Type;
  rand_bytes : Z → Rng → result ErrorStack (list byte) * Rng;
  (** [openssl::bn] *)
  BigNum : Type;
  BigNum_from_slice : list byte → result ErrorStack BigNum;
  BigNum_from_u32 : Z → result ErrorStack BigNum;
  BigNum_to_vec : BigNum → list byte;
  BigNum_is_negative : BigNum → bool;
  BigNum_num_bits : BigNum → Z;
  BigNum_new : result ErrorStack ();
  BigNumContext_new : result ErrorStack ();
  (** [openssl::ec] *)
  EcGroup : Type;
  EcGroup_from_curve_name : Nid → result ErrorStack EcGroup;
  EcGroup_curve_name : EcGroup → option Nid;
  EcGroup_degree : EcGroup → Z;
  EcGroup_order : EcGroup → result ErrorStack BigNum;
  EcPoint : Type;
  EcPoint_new : EcGroup → result ErrorStack ();
  EcPoint_mul_generator : EcGroup → BigNum → result ErrorStack EcPoint;
  (** [to_bytes] in the uncompressed form *)
  EcPoint_to_bytes : EcGroup → EcPoint → result ErrorStack (list byte);
  EcKey : Type;
  EcKey_from_public_key_affine_coordinates : EcGroup → BigNum → BigNum → result ErrorStack EcKey;
  EcKey_from_private_components : EcGroup → BigNum → EcPoint → result ErrorStack EcKey;
  EcKey_group : EcKey → EcGroup;
  EcKey_public_key : EcKey → EcPoint;
  EcKey_private_key : EcKey → BigNum;
  (** [openssl::rsa] *)
  Rsa : Type;
  Rsa_from_public_components : BigNum → BigNum → result ErrorStack Rsa;
  Rsa_n : Rsa → BigNum;
  Rsa_e : Rsa → BigNum;
  Rsa_p : Rsa → option BigNum;
  Rsa_size : Rsa → Z;
  (** [openssl::pkey] *)
  PKey_private_key_from_der : list byte → result ErrorStack PKey;
  PKey_from_ec_key : EcKey → result ErrorStack PKey;
  PKey_ec_key : PKey → result ErrorStack EcKey;
  PKey_from_rsa : Rsa → result ErrorStack PKey;
  PKey_rsa : PKey → result ErrorStack Rsa;
  PKey_size : PKey → Z;
  (** [openssl::derive::Deriver] *)
  Deriver : Type;
  Deriver_new : PKey → result ErrorStack Deriver;
  Deriver_set_peer : PKey → Deriver → result ErrorStack Deriver;
  Deriver_derive : Deriver → result ErrorStack (list byte);
  (** [openssl::pkey_ctx::PkeyCtx] *)
  PkeyCtx : Type;
  PkeyCtx_new : PKey → result ErrorStack PkeyCtx;
  encrypt_init : PkeyCtx → result ErrorStack PkeyCtx;
  set_rsa_padding_oaep : PkeyCtx → result ErrorStack PkeyCtx;
  set_rsa_oaep_md : Md → PkeyCtx → result ErrorStack PkeyCtx;
  set_rsa_mgf1_md : Md → PkeyCtx → result ErrorStack PkeyCtx;
  set_rsa_oaep_label : list byte → PkeyCtx → result ErrorStack PkeyCtx;
  (** [encrypt(from, Some(to))]: the bytes written, and the buffer after it *)
  PkeyCtx_encrypt : PkeyCtx → list byte → list byte → result ErrorStack Z * list byte
}.

(** A call of libcrypto may fail; it does not panic. *)
Definition may_fail {E A} (P : A → Prop) (r : result E A) : Prop := outcome (λ _, True) P r.

(** The bytes of a coordinate of a curve over a field of [degree] bits. *)
Definition coordinate_bytes (degree : Z) : Z := (degree + 7) / 8.

(** The settings of an encryption that were made so far. *)
Record oaep_setup {Key Md : Type} := mk_setup {
  su_key : Key; su_init : bool; su_padding : bool;
  su_md : option Md; su_mgf1 : option Md; su_label : option (list byte)
}.
Arguments oaep_setup : clear implicits.
Arguments mk_setup {Key Md}.

(** The documented behaviour.  A group is cyclic: [gen g k] is the [k]-fold of
    its generator in affine coordinates, [dh g k p] the x-coordinate of the
    [k]-fold of [p].  [oaep_cipher] relates a message and its encryptions. *)
Class OpensslOk `{Openssl} := {
  nids_distinct : NoDup [X9_62_PRIME192V1; SECP224R1; X9_62_PRIME256V1; SECP384R1; SECP521R1;
                         BRAINPOOL_P256R1; BRAINPOOL_P384R1; BRAINPOOL_P512R1; SM2; UNDEF];
  rand_bytes_ok n g :
    0 ≤ n → may_fail (λ bs, zlen bs = n) (rand_bytes n g).1;
  bn_val : BigNum → Z;
  bn_to_vec b : be_decode (BigNum_to_vec b) = bn_val b;
  bn_to_vec_len b : BigNum_num_bits b ≤ 32 → zlen (BigNum_to_vec b) ≤ 4;
  bn_from_slice bs : may_fail (λ b, bn_val b = be_decode bs) (BigNum_from_slice bs);
  bn_from_u32 z : 0 ≤ z ≤ u32_max → may_fail (λ b, bn_val b = z) (BigNum_from_u32 z);
  bn_new : may_fail (λ _, True) BigNum_new;
  bn_context_new : may_fail (λ _, True) BigNumContext_new;
  (** Groups and points *)
  gen : EcGroup → Z → Z * Z;
  dh : EcGroup → Z → Z * Z → Z;
  group_order : EcGroup → Z;
  group_of nid : may_fail (λ g, 0 < EcGroup_degree g ≤ 521 ∧ 1 < group_order g < 2 ^ 522) (EcGroup_from_curve_name nid);
  order_ok g : may_fail (λ b, bn_val b = group_order g) (EcGroup_order g);
  gen_range g k : 0 < k < group_order g →
    0 ≤ (gen g k).1 < 2 ^ (8 * coordinate_bytes (EcGroup_degree g)) ∧
    0 ≤ (gen g k).2 < 2 ^ (8 * coordinate_bytes (EcGroup_degree g));
  dh_comm g a b : 0 < a < group_order g → 0 < b < group_order g →
    dh g a (gen g b) = dh g b (gen g a);
  is_point : EcGroup → EcPoint → Z * Z → Prop;
  point_new g : may_fail (λ _, True) (EcPoint_new g);
  point_mul g b : 0 < bn_val b < group_order g →
    may_fail (λ p, is_point g p (gen g (bn_val b))) (EcPoint_mul_generator g b);
  point_bytes g p q :
    is_point g p q →
    let n := Z.to_nat (coordinate_bytes (EcGroup_degree g)) in
    may_fail (λ bs, bs = x04 :: be_encode n q.1 ++ be_encode n q.2) (EcPoint_to_bytes g p);
  (** Keys and the agreement *)
  public_of : EcGroup → EcKey → Z * Z → Prop;
  private_of : EcGroup → EcKey → Z → Prop;
  ec_pkey : PKey → EcKey → Prop;
  key_of_coordinates g x y :
    may_fail (λ k, public_of g k (bn_val x, bn_val y)) (EcKey_from_public_key_affine_coordinates g x y);
  key_of_private g b p q :
    is_point g p q → may_fail (λ k, private_of g k (bn_val b)) (EcKey_from_private_components g b p);
  pkey_of_ec k : may_fail (λ pk, ec_pkey pk k) (PKey_from_ec_key k);
  deriving : Deriver → EcKey → Prop;
  deriving_with : Deriver → EcKey → EcKey → Prop;
  deriver_new pk k : ec_pkey pk k → may_fail (λ d, deriving d k) (Deriver_new pk);
  deriver_set_peer d k pk peer :
    deriving d k → ec_pkey pk peer → may_fail (λ d, deriving_with d k peer) (Deriver_set_peer pk d);
  deriver_derive d g k peer a q :
    deriving_with d k peer → private_of g k a → public_of g peer q →
    may_fail (λ z, z = be_encode (Z.to_nat (coordinate_bytes (EcGroup_degree g))) (dh g a q))
      (Deriver_derive d);
  (** RSA encryption *)
  rsa_key : Rsa → Z → Z → Prop;
  rsa_pkey : PKey → Rsa → Prop;
  rsa_of_public n e : may_fail (λ r, rsa_key r (bn_val n) (bn_val e)) (Rsa_from_public_components n e);
  pkey_of_rsa r : may_fail (λ pk, rsa_pkey pk r) (PKey_from_rsa r);
  (** [EVP_PKEY_size]: the bytes of the modulus *)
  pkey_size pk r n e k :
    rsa_pkey pk r → rsa_key r n e → 0 ≤ k → 0 ≤ n < 2 ^ (8 * k) → 0 ≤ PKey_size pk ≤ k;
  setting : PkeyCtx → oaep_setup Rsa Md → Prop;
  ctx_new pk r : rsa_pkey pk r → may_fail (λ c, setting c (mk_setup r false false None None None)) (PkeyCtx_new pk);
  ctx_init c r : setting c (mk_setup r false false None None None) →
    may_fail (λ c, setting c (mk_setup r true false None None None)) (encrypt_init c);
  ctx_padding c r : setting c (mk_setup r true false None None None) →
    may_fail (λ c, setting c (mk_setup r true true None None None)) (set_rsa_padding_oaep c);
  ctx_md c r md : setting c (mk_setup r true true None None None) →
    may_fail (λ c, setting c (mk_setup r true true (Some md) None None)) (set_rsa_oaep_md md c);
  ctx_mgf1 c r md md' : setting c (mk_setup r true true (Some md) None None) →
    may_fail (λ c, setting c (mk_setup r true true (Some md) (Some md') None)) (set_rsa_mgf1_md md' c);
  ctx_label c r md md' label : setting c (mk_setup r true true (Some md) (Some md') None) →
    may_fail (λ c, setting c (mk_setup r true true (Some md) (Some md') (Some label))) (set_rsa_oaep_label label c);
  (** [oaep_cipher n e md mgf1 label m c]: [c] encrypts [m]. *)
  oaep_cipher : Z → Z → Md → Md → list byte → list byte → list byte → Prop;
  ctx_encrypt c r n e pk md md' label m buf :
    setting c (mk_setup r true true (Some md) (Some md') (Some label)) →
    rsa_key r n e → rsa_pkey pk r → zlen buf = PKey_size pk →
    may_fail (λ len, 0 ≤ len ≤ zlen buf ∧
      oaep_cipher n e md md' label m (take (Z.to_nat len) (PkeyCtx_encrypt c m buf).2))
      (PkeyCtx_encrypt c m buf).1
}.
