(* ===== verification/ExternalKey.v ===== *)
(** External keys: [crypto/src/rsa.rs], [crypto/src/ecc.rs] and the trait
    [TpmExternalKey] of [crypto/src/lib.rs].

    A key comes from DER or from a public area, gives the public area of a
    template, and makes the seed of an import.  libcrypto and [BigUint] are
    the interfaces of [Openssl]; calls that draw random bytes run in [Draw],
    which threads the generator. *)

From Stdlib Require Import Ascii String.
From S2P Require Import Prelude State Errors Writer Codec Integer Buffer Struct EnumMacro Enums.
From S2P Require Import BasicTypes Schemes Structures Crypto Hash Text Template Openssl.

(** A byte string literal. *)
Definition bytes_lit (s : string) : list byte := map byte.of_Z (lit s).

Definition KDF_LABEL_DUPLICATE : list byte := bytes_lit "DUPLICATE".
Definition KDF_LABEL_INTEGRITY : list byte := bytes_lit "INTEGRITY".
Definition KDF_LABEL_STORAGE : list byte := bytes_lit "STORAGE".

(** [&s[from..to]] *)
Definition bytes_range {E} (from to : Z) (s : list byte) : result E (list byte) :=
  if (from <=? to) && (to <=? zlen s) then Ok (take (Z.to_nat (to - from)) (drop (Z.to_nat from) s))
  else Panic.

(** [TryFrom<&TpmtPublic>] of both keys starts with these checks. *)
Definition public_area_error `{Libcrypto} (object_type : TpmAlgId.t) (field : TpmPublicAreaField.t)
    : TpmCryptoError.t := TpmCryptoError.InvalidPublicArea object_type field.

(** [impl TpmMarshal]: a value marshalled into a buffer of
    [TPM_MAX_COMMAND_SIZE] bytes. *)
Definition marshal_bytes `{Libcrypto} (c : Codec) (v : ty c) : result TpmCryptoError.t (list byte) :=
  let (r, writer) := marshal c v (writer_new (TpmHash.zeroed TPM_MAX_COMMAND_SIZE)) in
  let? _ := map_err TpmCryptoError.Marshal r in
  take_checked (writer_len writer) (buffer writer).

(** ** The trait *)

(** [trait TpmExternalKey]; [to_seed] draws at most [fuel] times in one
    sampling loop, and is [None] when that was not enough. *)
Class TpmExternalKey `{Openssl} (Key : Type) := {
  Sensitive : Type;
  from_der : list byte → result TpmCryptoError.t (Key * Sensitive);
  to_public : Key → TpmPublicTemplate.t → ty TpmtPublic;
  to_seed : nat → Key → TpmHash.t →
    Rng → option (result TpmCryptoError.t (ty Tpm2bDigest * ty Tpm2bEncryptedSecret) * Rng)
}.
Arguments Sensitive {_ _} _ {_}.

Section rsa.
Context `{Openssl}.
Abbreviation Res := (result TpmCryptoError.t).
Abbreviation crypto := (map_err TpmCryptoError.Crypto).

(** ** [struct TpmRsaExternalKey] *)

Record TpmRsaExternalKey := mk_rsa_key {
  public_key : ty Tpm2bPublicKeyRsa;
  exponent : TpmInt.t;
  key_bits : TpmInt.t
}.

Definition rsa_try_new (public_key : ty Tpm2bPublicKeyRsa) (exponent key_bits : TpmInt.t)
    : Res TpmRsaExternalKey :=
  let key_bits_value := TpmInt.value 2 false key_bits in
  if (key_bits_value =? 0) || negb (key_bits_value mod 8 =? 0)
  then Err (TpmCryptoError.InvalidKeyBits key_bits_value)
  else if negb (zlen (TpmBuffer.deref public_key) =? key_bits_value / 8)
  then Err (TpmCryptoError.InvalidRsaModulus (TpmBuffer.deref public_key))
  else
    let exponent_value := TpmInt.value 4 false exponent in
    if negb (exponent_value =? 0) && ((exponent_value <? 3) || (exponent_value mod 2 =? 0))
    then Err (TpmCryptoError.InvalidRsaExponent exponent)
    else Ok (mk_rsa_key public_key exponent key_bits).

(** The default exponent is written as zero. *)
Definition normal_exponent (e : Z) : Z := if e =? 65537 then 0 else e.

(** [TryFrom<&TpmtPublic>] *)
Definition rsa_try_from_public (public : ty TpmtPublic) : Res TpmRsaExternalKey :=
  let object_type := TpmtPublic.object_type public in
  if negb (bool_decide (object_type = TpmAlgId.Rsa))
  then Err (public_area_error object_type TpmPublicAreaField.ObjectType)
  else
    let? params :=
      match TpmtPublic.parameters public with
      | TpmuPublicParms.Rsa params => Ok params
      | _ => Err (public_area_error object_type TpmPublicAreaField.Parameters)
      end in
    let? n :=
      match TpmtPublic.unique public with
      | TpmuPublicId.Rsa n => Ok n
      | _ => Err (public_area_error object_type TpmPublicAreaField.Unique)
      end in
    let '(_, (_, (key_bits, (exponent, _)))) := params in
    let exponent_u32 := TpmInt.value 4 false exponent in
    rsa_try_new n (TpmInt.new 4 (normal_exponent exponent_u32)) key_bits.

(** [TryFrom<&PKey<Private>>] *)
Definition rsa_try_from_pkey (pkey : PKey) : Res TpmRsaExternalKey :=
  let? rsa := crypto (PKey_rsa pkey) in
  let n_bytes := BigNum_to_vec (Rsa_n rsa) in
  let? n := map_err (λ _, TpmCryptoError.InvalidRsaModulus n_bytes)
              (TpmBuffer.try_from MAX_RSA_KEY_BYTES n_bytes) in
  let e_bn := Rsa_e rsa in
  if BigNum_is_negative e_bn || (32 <? BigNum_num_bits e_bn) then Err TpmCryptoError.InvalidRsaKey
  else
    let e_bytes := BigNum_to_vec e_bn in
    let? from := usub 4 (zlen e_bytes) in
    let e_buf := TpmHash.zeroed from ++ e_bytes in
    let e := be_decode e_buf in
    let? bits := (if Rsa_size rsa * 8 <=? u32_max then Ok (Rsa_size rsa * 8) else Panic) in
    let? key_bits := ok_or (if bits <=? u16_max then Some bits else None)
                       TpmCryptoError.InvalidRsaKey in
    rsa_try_new n (TpmInt.new 4 (normal_exponent e)) (TpmInt.new 2 key_bits).

Definition rsa_from_der (bytes : list byte) : Res (TpmRsaExternalKey * ty Tpm2bPrivateKeyRsa) :=
  let? pkey := crypto (PKey_private_key_from_der bytes) in
  let? public_key := rsa_try_from_pkey pkey in
  let? rsa := crypto (PKey_rsa pkey) in
  let? p := ok_or (Rsa_p rsa) TpmCryptoError.MissingRsaPrivatePrime in
  let p := BigNum_to_vec p in
  let? sensitive :=
    map_err (λ _, TpmCryptoError.InvalidPrivateKeySize (zlen p) (MAX_RSA_KEY_BYTES / 2))
      (TpmBuffer.try_from (MAX_RSA_KEY_BYTES / 2) p) in
  Ok (public_key, sensitive).

Definition rsa_to_public (self : TpmRsaExternalKey) (template : TpmPublicTemplate.t)
    : ty TpmtPublic :=
  TpmtPublic.mk TpmAlgId.Rsa (TpmPublicTemplate.name_alg template)
    (TpmPublicTemplate.object_attributes template) (TpmPublicTemplate.auth_policy template)
    (TpmuPublicParms.Rsa (TpmPublicTemplate.rsa_parms (TpmPublicTemplate.symmetric template)
       (TpmPublicTemplate.rsa_scheme template) (key_bits self) (exponent self)))
    (TpmuPublicId.Rsa (public_key self)).

Definition OAEP_LABEL : list byte := bytes_lit "DUPLICATE" ++ [x00].

Definition effective_exponent (e : Z) : Z := if e =? 0 then 65537 else e.

Definition oaep (self : TpmRsaExternalKey) (name_alg : TpmHash.t) (seed : list byte)
    : Res (list byte) :=
  let md := TpmHash.to_md name_alg in
  let? oaep_md := ok_or (Md_from_nid (md_type md))
                    (TpmCryptoError.InvalidMessageDigestNid (md_type md)) in
  let? n := crypto (BigNum_from_slice (TpmBuffer.deref (public_key self))) in
  let exponent_value := effective_exponent (TpmInt.value 4 false (exponent self)) in
  let? e := crypto (BigNum_from_u32 exponent_value) in
  let? rsa := crypto (Rsa_from_public_components n e) in
  let? pkey := crypto (PKey_from_rsa rsa) in
  let? ctx := crypto (PkeyCtx_new pkey) in
  let? ctx := crypto (encrypt_init ctx) in
  let? ctx := crypto (set_rsa_padding_oaep ctx) in
  let? ctx := crypto (set_rsa_oaep_md oaep_md ctx) in
  let? ctx := crypto (set_rsa_mgf1_md oaep_md ctx) in
  let? ctx := crypto (set_rsa_oaep_label OAEP_LABEL ctx) in
  let (r, encrypted_seed) := PkeyCtx_encrypt ctx seed (TpmHash.zeroed (PKey_size pkey)) in
  let? len := crypto r in
  Ok (take (Z.to_nat len) encrypted_seed).

(** The RNG is called once; there is no loop. *)
Definition rsa_to_seed (self : TpmRsaExternalKey) (name_alg : TpmHash.t)
    : State Rng TpmCryptoError.t (ty Tpm2bDigest * ty Tpm2bEncryptedSecret) :=
  let seed_size := TpmHash.size name_alg in
  let* _ := st_lift (take_checked seed_size (TpmHash.zeroed MAX_DIGEST_SIZE)) in
  let* seed_bytes := st_map_err TpmCryptoError.Crypto (rand_bytes seed_size) in
  let* seed := st_lift (map_err TpmCryptoError.Unmarshal
                          (TpmBuffer.try_from MAX_DIGEST_SIZE seed_bytes)) in
  let* encrypted_seed_bytes := st_lift (oaep self name_alg (TpmBuffer.deref seed)) in
  let* encrypted_seed := st_lift (map_err TpmCryptoError.Unmarshal
                            (TpmBuffer.try_from MAX_RSA_KEY_BYTES encrypted_seed_bytes)) in
  st_ret (seed, encrypted_seed).

#[export] Instance rsa_external_key : TpmExternalKey TpmRsaExternalKey := {|
  Sensitive := ty Tpm2bPrivateKeyRsa;
  from_der := rsa_from_der;
  to_public := rsa_to_public;
  to_seed _ self name_alg g := Some (rsa_to_seed self name_alg g)
|}.
End rsa.

(** ** Curves of libcrypto *)

Section ecc.
Context `{Openssl} `{BigUintLib}.
Abbreviation Res := (result TpmCryptoError.t).
Abbreviation crypto := (map_err TpmCryptoError.Crypto).
Import TpmEllipticCurve.

(** [TryFrom<TpmEllipticCurve> for Nid] *)
Definition curve_to_nid (curve : TpmEllipticCurve.t) : Res Nid :=
  match curve with
  | NistP192 => Ok X9_62_PRIME192V1
  | NistP224 => Ok SECP224R1
  | NistP256 => Ok X9_62_PRIME256V1
  | NistP384 => Ok SECP384R1
  | NistP521 => Ok SECP521R1
  | BpP256R1 => Ok BRAINPOOL_P256R1
  | BpP384R1 => Ok BRAINPOOL_P384R1
  | BpP512R1 => Ok BRAINPOOL_P512R1
  | Sm2P256 => Ok SM2
  | curve => Err (TpmCryptoError.InvalidEccCurve (to_curve curve))
  end.

(** [TryFrom<Nid> for TpmEllipticCurve] *)
Definition curve_from_nid (nid : Nid) : Res TpmEllipticCurve.t :=
  if decide (nid = X9_62_PRIME192V1) then Ok NistP192
  else if decide (nid = SECP224R1) then Ok NistP224
  else if decide (nid = X9_62_PRIME256V1) then Ok NistP256
  else if decide (nid = SECP384R1) then Ok NistP384
  else if decide (nid = SECP521R1) then Ok NistP521
  else if decide (nid = BRAINPOOL_P256R1) then Ok BpP256R1
  else if decide (nid = BRAINPOOL_P384R1) then Ok BpP384R1
  else if decide (nid = BRAINPOOL_P512R1) then Ok BpP512R1
  else if decide (nid = SM2) then Ok Sm2P256
  else Err (TpmCryptoError.InvalidEccNid nid).

Definition ecc_coord_len (group : EcGroup) : Res Z :=
  let degree := EcGroup_degree group in
  let len := TpmHash.div_ceil degree 8 in
  if len <=? usize_max then Ok len else Err (TpmCryptoError.InvalidEccGroupDegree degree).

(** ** [struct TpmEccExternalKey] *)

Record TpmEccExternalKey := mk_ecc_key { curve : TpmEllipticCurve.t; unique : ty TpmsEccPoint }.

(** The coordinates of a point *)
Definition point_x (p : ty TpmsEccPoint) : ty Tpm2bEccParameter := let '(x, _) := p in x.
Definition point_y (p : ty TpmsEccPoint) : ty Tpm2bEccParameter := let '(_, (y, _)) := p in y.
Definition ecc_point (x y : ty Tpm2bEccParameter) : ty TpmsEccPoint := (x, (y, ())).

Definition ecc_try_new (curve : TpmEllipticCurve.t) (unique : ty TpmsEccPoint)
    : Res TpmEccExternalKey :=
  let curve_id := to_curve curve in
  let? nid := curve_to_nid curve in
  let? group := crypto (EcGroup_from_curve_name nid) in
  let? coord_len := ecc_coord_len group in
  let x_len := zlen (TpmBuffer.deref (point_x unique)) in
  let y_len := zlen (TpmBuffer.deref (point_y unique)) in
  if negb (x_len =? coord_len) || negb (y_len =? coord_len)
  then Err (TpmCryptoError.InvalidEccPoint curve_id x_len y_len coord_len)
  else Ok (mk_ecc_key curve unique).

(** [TryFrom<&TpmtPublic>] *)
Definition ecc_try_from_public (public : ty TpmtPublic) : Res TpmEccExternalKey :=
  let object_type := TpmtPublic.object_type public in
  if negb (bool_decide (object_type = TpmAlgId.Ecc))
  then Err (public_area_error object_type TpmPublicAreaField.ObjectType)
  else
    let? params :=
      match TpmtPublic.parameters public with
      | TpmuPublicParms.Ecc params => Ok params
      | _ => Err (public_area_error object_type TpmPublicAreaField.Parameters)
      end in
    let? (x, y) :=
      match TpmtPublic.unique public with
      | TpmuPublicId.Ecc point => Ok (point_x point, point_y point)
      | _ => Err (public_area_error object_type TpmPublicAreaField.Unique)
      end in
    let '(_, (_, (curve_id, _))) := params in
    let? curve := TpmEllipticCurve.try_from curve_id in
    ecc_try_new curve (ecc_point x y).

Definition UNCOMPRESSED_POINT_TAG : byte := x04.

Definition tpm_make_point (point : EcPoint) (group : EcGroup) (curve : TpmEllipticCurve.t)
    : Res (ty TpmsEccPoint) :=
  let? pub_bytes := crypto (EcPoint_to_bytes group point) in
  let? expected_len := ecc_coord_len group in
  let point_len := saturating_sub (zlen pub_bytes) 1 in
  let x_len := point_len / 2 in
  let y_len := point_len - x_len in
  if negb (bool_decide (head pub_bytes = Some UNCOMPRESSED_POINT_TAG)) ||
     negb (x_len =? expected_len) || negb (y_len =? expected_len)
  then Err (TpmCryptoError.InvalidEccPoint (to_curve curve) x_len y_len expected_len)
  else
    let? x := bytes_range 1 (1 + expected_len) pub_bytes in
    let? x := map_err TpmCryptoError.Unmarshal (TpmBuffer.try_from MAX_ECC_KEY_BYTES x) in
    let? y := bytes_range (1 + expected_len) (1 + 2 * expected_len) pub_bytes in
    let? y := map_err TpmCryptoError.Unmarshal (TpmBuffer.try_from MAX_ECC_KEY_BYTES y) in
    Ok (ecc_point x y).

(** [TryFrom<&PKey<Private>>] *)
Definition ecc_try_from_pkey (pkey : PKey) : Res TpmEccExternalKey :=
  let? ec_key := crypto (PKey_ec_key pkey) in
  let group := EcKey_group ec_key in
  let? nid := ok_or (EcGroup_curve_name group) (TpmCryptoError.InvalidEccNid UNDEF) in
  let? curve := curve_from_nid nid in
  let? _ := crypto BigNumContext_new in
  let? unique := tpm_make_point (EcKey_public_key ec_key) group curve in
  ecc_try_new curve unique.

Definition ecc_from_der (bytes : list byte) : Res (TpmEccExternalKey * ty Tpm2bEccParameter) :=
  let? pkey := crypto (PKey_private_key_from_der bytes) in
  let? public_key := ecc_try_from_pkey pkey in
  let? ec_key := crypto (PKey_ec_key pkey) in
  let private_key := BigNum_to_vec (EcKey_private_key ec_key) in
  let? sensitive :=
    map_err (λ _, TpmCryptoError.InvalidPrivateKeySize (zlen private_key) MAX_ECC_KEY_BYTES)
      (TpmBuffer.try_from MAX_ECC_KEY_BYTES private_key) in
  Ok (public_key, sensitive).

Definition ecc_to_public (self : TpmEccExternalKey) (template : TpmPublicTemplate.t)
    : ty TpmtPublic :=
  TpmtPublic.mk TpmAlgId.Ecc (TpmPublicTemplate.name_alg template)
    (TpmPublicTemplate.object_attributes template) (TpmPublicTemplate.auth_policy template)
    (TpmuPublicParms.Ecc (TpmPublicTemplate.ecc_parms (TpmPublicTemplate.symmetric template)
       (TpmPublicTemplate.ecc_scheme template) (to_curve (curve self)) kdf_scheme_default))
    (TpmuPublicId.Ecc (unique self)).

(** ** Random numbers and ECDH *)

(** A call that draws until it is content; [None]: not within the fuel. *)
Definition Draw (A : Type) : Type := Rng → option (Res A * Rng).
Definition d_lift {A} (r : Res A) : Draw A := λ g, Some (r, g).
Definition d_bind {A B} (m : Draw A) (k : A → Draw B) : Draw B := λ g,
  match m g with
  | Some (Ok a, g) => k a g
  | Some (Err e, g) => Some (Err e, g)
  | Some (Panic, g) => Some (Panic, g)
  | None => None
  end.

(** [buf[0] &= high_mask] *)
Definition mask_first (high_mask : Z) (buf : list byte) : Res (list byte) :=
  match buf with
  | b :: buf => Ok (byte.of_Z (Z.land (byte.unsigned b) high_mask) :: buf)
  | [] => Panic
  end.

(** The [loop] of [gen_biguint_range] *)
Fixpoint sample (fuel : nat) (byte_len high_mask : Z) (low range : BigUint) : Draw BigUint :=
  match fuel with
  | O => λ _, None
  | S fuel => λ g,
      match rand_bytes byte_len g with
      | (Ok buf, g) =>
          match mask_first high_mask buf with
          | Ok buf =>
              let candidate := BigUint_from_bytes_be buf in
              if BigUint_lt candidate range then Some (Ok (BigUint_add low candidate), g)
              else sample fuel byte_len high_mask low range g
          | Err e => Some (Err e, g)
          | Panic => Some (Panic, g)
          end
      | (Err e, g) => Some (Err (TpmCryptoError.Crypto e), g)
      | (Panic, g) => Some (Panic, g)
      end
  end.

(** The bytes of a candidate, and the mask of its first byte. *)
Definition sample_len (bits : Z) : Z :=
  let len := TpmHash.div_ceil bits 8 in
  (if len <=? usize_max then len else 0) `max` 1.
Definition sample_mask (bits : Z) : Z :=
  match bits mod 8 with
  | 0 => 0xff
  | rem => Z.shiftl 1 rem - 1
  end.

Definition gen_biguint_range (fuel : nat) (low high : BigUint) : Draw BigUint :=
  if negb (BigUint_lt low high) then d_lift (Err TpmCryptoError.InvalidRandomRange)
  else
    let range := BigUint_sub high low in
    let bits := BigUint_bits range in
    sample fuel (sample_len bits) (sample_mask bits) low range.

(** The part of [ecdh] behind the random number *)
Definition ecdh_with (self : TpmEccExternalKey) (name_alg : TpmHash.t) (group : EcGroup)
    (parent_public_key : PKey) (priv_uint : BigUint) : Res (ty Tpm2bDigest * ty TpmsEccPoint) :=
  let? priv_bn := crypto (BigNum_from_slice (BigUint_to_be_bytes priv_uint)) in
  let? _ := crypto (EcPoint_new group) in
  let? ephemeral_pub_point := crypto (EcPoint_mul_generator group priv_bn) in
  let? ephemeral_key := crypto (EcKey_from_private_components group priv_bn ephemeral_pub_point) in
  let? ephemeral_public_key := crypto (PKey_from_ec_key ephemeral_key) in
  let? deriver := crypto (Deriver_new ephemeral_public_key) in
  let? deriver := crypto (Deriver_set_peer parent_public_key deriver) in
  let? z := crypto (Deriver_derive deriver) in
  let? ephemeral := tpm_make_point ephemeral_pub_point group (curve self) in
  let? seed_bits := or_panic (checked_mul (TpmHash.size name_alg) 8) in
  let context_u := TpmBuffer.deref (point_x ephemeral) in
  let context_v := TpmBuffer.deref (point_x (unique self)) in
  let (r, seed_buf) :=
    TpmHash.kdfe_into name_alg z KDF_LABEL_DUPLICATE context_u context_v seed_bits
      (TpmHash.zeroed MAX_DIGEST_SIZE) in
  let? len := r in
  let? seed := take_checked len seed_buf in
  let? seed := map_err TpmCryptoError.Unmarshal (TpmBuffer.try_from MAX_DIGEST_SIZE seed) in
  Ok (seed, ephemeral).

Definition ecdh (fuel : nat) (self : TpmEccExternalKey) (name_alg : TpmHash.t)
    : Draw (ty Tpm2bDigest * ty TpmsEccPoint) :=
  let setup :=
    let? nid := curve_to_nid (curve self) in
    let? group := crypto (EcGroup_from_curve_name nid) in
    let? _ := crypto BigNumContext_new in
    let? parent_x := crypto (BigNum_from_slice (TpmBuffer.deref (point_x (unique self)))) in
    let? parent_y := crypto (BigNum_from_slice (TpmBuffer.deref (point_y (unique self)))) in
    let? parent_key := crypto (EcKey_from_public_key_affine_coordinates group parent_x parent_y) in
    let? parent_public_key := crypto (PKey_from_ec_key parent_key) in
    let? _ := crypto BigNum_new in
    let? order := crypto (EcGroup_order group) in
    Ok (group, parent_public_key, BigUint_from_bytes_be (BigNum_to_vec order)) in
  d_bind (d_lift setup) (λ '(group, parent_public_key, order_uint),
    let one := BigUint_from_u8 1 in
    d_bind (gen_biguint_range fuel one order_uint) (λ priv_uint,
      d_lift (ecdh_with self name_alg group parent_public_key priv_uint))).

Definition ecc_to_seed (fuel : nat) (self : TpmEccExternalKey) (name_alg : TpmHash.t)
    : Draw (ty Tpm2bDigest * ty Tpm2bEncryptedSecret) :=
  d_bind (ecdh fuel self name_alg) (λ '(derived_seed, ephemeral_point), d_lift (
    let? point_bytes := marshal_bytes TpmsEccPoint ephemeral_point in
    let? secret := map_err TpmCryptoError.Unmarshal
                     (TpmBuffer.try_from MAX_RSA_KEY_BYTES point_bytes) in
    Ok (derived_seed, secret))).

#[export] Instance ecc_external_key : TpmExternalKey TpmEccExternalKey := {|
  Sensitive := ty Tpm2bEccParameter;
  from_der := ecc_from_der;
  to_public := ecc_to_public;
  to_seed := ecc_to_seed
|}.
End ecc.
