(* ===== verification/ExternalKeySpec.v ===== *)
(** Facts about external keys: the sampling of random numbers, curves, key
    validation, the encryption of seeds, and the key agreement. *)

From Stdlib Require Import Ascii String.
From S2P Require Import Prelude State Errors Writer Codec Integer Buffer Struct EnumMacro Union Enums.
From S2P Require Import BasicTypes Schemes Structures Crypto Hash Text PolicyText Template TemplateSpec.
From S2P Require Import Openssl ExternalKey.

(** ** Random numbers *)

Lemma lor_disjoint a b n : 0 ≤ n → 0 ≤ a < 2 ^ n → Z.lor a (b * 2 ^ n) = b * 2 ^ n + a.
Proof.
  intros Hn Ha. rewrite Z.add_comm, Z.add_nocarry_lor; [done|].
  apply Z.bits_inj'. intros i Hi. rewrite Z.land_spec, Z.bits_0.
  destruct (decide (i < n)).
  - by rewrite Z.mul_pow2_bits_low, andb_false_r.
  - by rewrite (testbit_above n) by lia.
Qed.

Lemma be_decode_cons b bs : be_decode (b :: bs) = byte.unsigned b * 2 ^ (8 * zlen bs) + be_decode bs.
Proof.
  pose proof (be_decode_bound bs) as Hb. revert Hb. unfold be_decode, zlen. simpl rev.
  intros Hb. rewrite LittleEndianList.le_combine_app, length_rev, LittleEndianList.le_combine_1.
  rewrite Z.shiftl_mul_pow2 by lia. rewrite (Z.mul_comm (Z.of_nat _) 8). apply lor_disjoint; lia.
Qed.

Lemma mask_low b r :
  0 < r ≤ 8 → byte.unsigned (byte.of_Z (Z.land (byte.unsigned b) (2 ^ r - 1))) = byte.unsigned b `mod` 2 ^ r.
Proof.
  intros Hr. pose proof (byte.unsigned_range b).
  rewrite Z.sub_1_r, <-Z.ones_equiv, Z.land_ones by lia. rewrite byte.unsigned_of_Z. unfold byte.wrap.
  apply Z.mod_small. pose proof (Z.mod_pos_bound (byte.unsigned b) (2 ^ r) ltac:(lia)).
  pose proof (Z.mod_le (byte.unsigned b) (2 ^ r) ltac:(lia) ltac:(lia)). lia.
Qed.

Lemma mod_high_low a m n b : 0 ≤ n → 0 ≤ m → 0 ≤ b < 2 ^ n → (a * 2 ^ n + b) `mod` 2 ^ (m + n) = a `mod` 2 ^ m * 2 ^ n + b.
Proof.
  intros Hn Hm Hb. rewrite Z.pow_add_r by lia.
  pose proof (Z.div_mod a (2 ^ m) ltac:(lia)). pose proof (Z.mod_pos_bound a (2 ^ m) ltac:(lia)).
  symmetry. apply Z.mod_unique with (a / 2 ^ m); nia.
Qed.

(** The masked bytes are the drawn number modulo a power of two. *)
Lemma sample_split bits :
  0 < bits ≤ u64_max → ∃ r, 0 < r ≤ 8 ∧ bits = r + 8 * (sample_len bits - 1) ∧ 0 < sample_len bits ∧
    sample_mask bits = 2 ^ r - 1.
Proof.
  intros Hb. unfold sample_len, sample_mask. pose proof (div_ceil_spec bits 8 ltac:(lia) ltac:(lia)).
  set (n := TpmHash.div_ceil bits 8) in *.
  assert (n <=? usize_max = true) as -> by (apply Z.leb_le; unfold usize_max, u64_max in *; lia).
  rewrite Z.max_l by lia. exists (bits - 8 * (n - 1)). split_and!; [lia..|].
  pose proof (Z.div_mod bits 8 ltac:(lia)). pose proof (Z.mod_pos_bound bits 8 ltac:(lia)).
  destruct (bits mod 8) as [|p|] eqn:E; [|rewrite Z.shiftl_mul_pow2, Z.mul_1_l by lia; do 2 f_equal; lia | lia].
  replace (bits - 8 * (n - 1)) with 8 by lia. done.
Qed.

Lemma mask_first_value `{Openssl} bits buf :
  0 < bits ≤ u64_max → zlen buf = sample_len bits →
  ∃ buf', mask_first (sample_mask bits) buf = Ok buf' ∧ be_decode buf' = be_decode buf `mod` 2 ^ bits.
Proof.
  intros (r & Hr & Hbits & Hn & ->)%sample_split Hl.
  destruct buf as [|b buf]; [unfold zlen in Hl; simpl in Hl; lia|]. eexists. split; [done|].
  rewrite !be_decode_cons. pose proof (be_decode_bound buf) as Hb.
  assert (8 * zlen buf = 8 * (sample_len bits - 1)) as Hz by (unfold zlen in *; simpl in Hl; lia).
  rewrite Hz in *. set (n := sample_len bits - 1) in *. rewrite Hbits, mod_high_low by lia. do 2 f_equal.
  by apply mask_low.
Qed.

(** Draws of [n] bytes each, one after the other. *)
Inductive drawn `{Openssl} (n : Z) : Rng → list (list byte) → Rng → Prop :=
| drawn_nil g : drawn n g [] g
| drawn_cons g b g1 bufs g2 :
    rand_bytes n g = (Ok b, g1) → drawn n g1 bufs g2 → drawn n g (b :: bufs) g2.

(** An error of libcrypto *)
Definition is_crypto `{Libcrypto} (e : TpmCryptoError.t) : Prop := ∃ s, e = TpmCryptoError.Crypto s.

Section sampling.
Context `{OpensslOk} `{BigUintLibOk}.

Lemma draw_len n g b g' : 0 ≤ n → rand_bytes n g = (Ok b, g') → zlen b = n.
Proof. intros Hn Hr. pose proof (rand_bytes_ok n g Hn) as Ho. by rewrite Hr in Ho. Qed.

Lemma sample_drawn fuel bits low range g b g' :
  0 < bits ≤ u64_max → rand_bytes (sample_len bits) g = (Ok b, g') →
  ∃ v, big_val v = big_val low + be_decode b `mod` 2 ^ bits ∧
    sample (S fuel) (sample_len bits) (sample_mask bits) low range g =
      if be_decode b `mod` 2 ^ bits <? big_val range then Some (Ok v, g')
      else sample fuel (sample_len bits) (sample_mask bits) low range g'.
Proof.
  intros Hb Hr. pose proof (sample_split bits Hb) as (_ & _ & _ & Hn & _).
  pose proof (draw_len (sample_len bits) g b g' ltac:(lia) Hr) as Hl.
  destruct (mask_first_value bits b Hb Hl) as (b' & Hm & Hv).
  exists (BigUint_add low (BigUint_from_bytes_be b')). split; [by rewrite big_add, big_from_bytes, Hv|].
  simpl. by rewrite Hr, Hm, big_lt, big_from_bytes, Hv.
Qed.

(** The first draw below the range decides. *)
Lemma sample_accepts fuel bits low range bufs b g g' :
  0 < bits ≤ u64_max → drawn (sample_len bits) g (bufs ++ [b]) g' →
  Forall (λ b, big_val range ≤ be_decode b `mod` 2 ^ bits) bufs →
  be_decode b `mod` 2 ^ bits < big_val range → (length bufs < fuel)%nat →
  ∃ v, sample fuel (sample_len bits) (sample_mask bits) low range g = Some (Ok v, g') ∧
    big_val v = big_val low + be_decode b `mod` 2 ^ bits.
Proof.
  intros Hb Hd Hf Hlt. revert fuel g Hd.
  induction Hf as [|b1 bufs Hge Hf IH]; intros [|fuel] g Hd Hl; simpl in Hl; try lia;
    inversion Hd as [|? ? g1 ? ? Hr1 Hd1]; subst;
    destruct (sample_drawn fuel bits low range g _ _ Hb Hr1) as (v & Hv & ->).
  - inversion Hd1; subst. rewrite (proj2 (Z.ltb_lt _ _)) by done. by exists v.
  - rewrite (proj2 (Z.ltb_ge _ _)) by done. apply IH; [done | lia].
Qed.

(** What it returns is in the range, and its errors are those of libcrypto. *)
Lemma sample_bounds fuel bits low range g r g' :
  0 < bits ≤ u64_max → sample fuel (sample_len bits) (sample_mask bits) low range g = Some (r, g') →
  outcome is_crypto (λ v, big_val low ≤ big_val v < big_val low + big_val range) r.
Proof.
  intros Hb. revert g; induction fuel as [|fuel IH]; intros g; [done|].
  pose proof (sample_split bits Hb) as (_ & _ & _ & Hn & _).
  pose proof (rand_bytes_ok (sample_len bits) g ltac:(lia)) as Ho.
  destruct (rand_bytes (sample_len bits) g) as [[b|e|] g1] eqn:Hr; [|simpl; rewrite Hr; intros [= <- <-]; by exists e | done].
  destruct (sample_drawn fuel bits low range g _ _ Hb Hr) as (v & Hv & ->).
  destruct (Z.ltb_spec (be_decode b `mod` 2 ^ bits) (big_val range)); [|apply IH].
  intros [= <- <-]. simpl. rewrite Hv. pose proof (Z.mod_pos_bound (be_decode b) (2 ^ bits) ltac:(lia)). lia.
Qed.

(** It goes on only while every draw is rejected. *)
Lemma sample_none fuel bits low range g :
  0 < bits ≤ u64_max → sample fuel (sample_len bits) (sample_mask bits) low range g = None →
  ∃ bufs g', drawn (sample_len bits) g bufs g' ∧ length bufs = fuel ∧
    Forall (λ b, big_val range ≤ be_decode b `mod` 2 ^ bits) bufs.
Proof.
  intros Hb. revert g; induction fuel as [|fuel IH]; intros g; [intros _; exists [], g; by split_and!; constructor|].
  pose proof (sample_split bits Hb) as (_ & _ & _ & Hn & _).
  pose proof (rand_bytes_ok (sample_len bits) g ltac:(lia)) as Ho.
  destruct (rand_bytes (sample_len bits) g) as [[b|e|] g1] eqn:Hr; [|by simpl; rewrite Hr | done].
  destruct (sample_drawn fuel bits low range g _ _ Hb Hr) as (v & Hv & ->).
  destruct (Z.ltb_spec (be_decode b `mod` 2 ^ bits) (big_val range)); [done|].
  intros (bufs & g2 & Hd & Hl & Hf)%IH. exists (b :: bufs), g2. split_and!; [by econstructor | by simpl; f_equal | by constructor].
Qed.

Lemma big_bits_lt a n : 0 < big_val a → big_val a < 2 ^ n → 0 < BigUint_bits a ≤ n.
Proof.
  intros Ha Hn. pose proof (big_bits a Ha) as [Hl Hh]. split.
  - destruct (Z.lt_ge_cases 0 (BigUint_bits a)) as [?|Hb]; [done|].
    pose proof (Z.pow_le_mono_r 2 (BigUint_bits a) 0 ltac:(lia) Hb). lia.
  - destruct (Z.le_gt_cases (BigUint_bits a) n) as [?|Hb]; [done|].
    pose proof (Z.pow_le_mono_r 2 n (BigUint_bits a - 1) ltac:(lia) ltac:(lia)). lia.
Qed.

Lemma gen_range_setup low high :
  big_val low < big_val high →
  let range := BigUint_sub high low in
  BigUint_lt low high = true ∧ big_val range = big_val high - big_val low ∧
  0 < BigUint_bits range ∧ big_val range < 2 ^ BigUint_bits range ≤ 2 * big_val range.
Proof.
  intros Hlt range. assert (big_val range = big_val high - big_val low) as Hr by (apply big_sub; lia).
  split; [by rewrite big_lt; apply Z.ltb_lt|]. split; [done|].
  assert (0 < big_val range) as Hpos by (rewrite Hr; lia).
  pose proof (big_bits range Hpos) as Hbits. pose proof (proj1 (big_bits_lt range _ Hpos (proj2 Hbits))).
  split; [done|]. destruct Hbits as [Hl Hh]. split; [done|].
  rewrite <-(Z.sub_add 1 (BigUint_bits range)), Z.add_comm, Z.pow_add_r by lia. lia.
Qed.

Lemma gen_range_bounds fuel low high g r g' :
  big_val low < big_val high → BigUint_bits (BigUint_sub high low) ≤ u64_max →
  gen_biguint_range fuel low high g = Some (r, g') →
  outcome is_crypto (λ v, big_val low ≤ big_val v < big_val high) r.
Proof.
  intros Hlt Hu. destruct (gen_range_setup low high Hlt) as (Hl & Hr & Hb & _).
  unfold gen_biguint_range. rewrite Hl. intros Hs%sample_bounds; [|lia].
  eapply outcome_impl; [done|]. intros v. simpl. lia.
Qed.
End sampling.

(** Every residue modulo [2 ^ bits] comes from the same number of byte
    strings of length [n]. *)
Lemma residue_strings n bits v b :
  0 ≤ bits ≤ 8 * Z.of_nat n → 0 ≤ v < 2 ^ bits → length b = n →
  be_decode b `mod` 2 ^ bits = v ↔
  ∃ k, 0 ≤ k < 2 ^ (8 * Z.of_nat n - bits) ∧ b = be_encode n (v + k * 2 ^ bits).
Proof.
  intros Hb Hv Hl. assert (2 ^ (8 * Z.of_nat n) = 2 ^ (8 * Z.of_nat n - bits) * 2 ^ bits) as Hp.
  { rewrite <-Z.pow_add_r by lia. f_equal. lia. }
  pose proof (be_decode_bound b) as Hd. unfold zlen in Hd. rewrite Hl in Hd.
  split.
  - intros Hm. exists (be_decode b / 2 ^ bits). split.
    + split; [apply Z.div_pos; lia | apply Z.div_lt_upper_bound; lia].
    + rewrite <-Hm, Z.add_comm, Z.mul_comm, <-Z.div_mod by lia. by rewrite be_encode_decode.
  - intros (k & Hk & ->). rewrite be_decode_encode by nia. rewrite Z.mod_add by lia. by apply Z.mod_small.
Qed.

(** ** Marshalled buffers *)

Lemma marshal_bytes_ok `{Libcrypto} (c : Codec) `{!CodecOk c} v bs :
  wire c v = Some bs → zlen bs ≤ TPM_MAX_COMMAND_SIZE → marshal_bytes c v = Ok bs.
Proof.
  intros Hw Hl. unfold marshal_bytes.
  destruct (marshal_zeroed c v bs TPM_MAX_COMMAND_SIZE Hw) as (w & -> & Ht).
  - split; [done|]. by apply Z.leb_le.
  - exact Ht.
Qed.

Lemma point_wire x y xs ys :
  TpmBuffer.holds MAX_ECC_KEY_BYTES x xs → TpmBuffer.holds MAX_ECC_KEY_BYTES y ys →
  wire TpmsEccPoint (ecc_point x y) = Some (Tpm2b.format xs ++ Tpm2b.format ys).
Proof.
  intros Hx Hy. apply fields_wire_cons. eexists _, _. split; [apply buffer_wire_Some; eauto|].
  split; [|done]. apply fields_wire_cons. eexists _, []. split; [apply buffer_wire_Some; eauto|].
  split; [done|]. by rewrite app_nil_r.
Qed.

(** ** Points *)

Section points.
Context `{OpensslOk} `{BigUintLibOk}.

Local Abbreviation coords g := (coordinate_bytes (EcGroup_degree g)).

(** The point holds the coordinates, in the width of the field. *)
Definition point_holds (g : EcGroup) (p : ty TpmsEccPoint) (q : Z * Z) : Prop :=
  TpmBuffer.holds MAX_ECC_KEY_BYTES (point_x p) (be_encode (Z.to_nat (coords g)) q.1) ∧
  TpmBuffer.holds MAX_ECC_KEY_BYTES (point_y p) (be_encode (Z.to_nat (coords g)) q.2).

Lemma crypto_outcome {A} (P : A → Prop) (r : result ErrorStack A) :
  may_fail P r → outcome is_crypto P (map_err TpmCryptoError.Crypto r).
Proof. destruct r; simpl; [done | by eexists | done]. Qed.

Lemma coord_len_bounds g : 0 < EcGroup_degree g ≤ 521 → 0 < coords g ≤ MAX_ECC_KEY_BYTES.
Proof.
  intros Hd. unfold coordinate_bytes, MAX_ECC_KEY_BYTES.
  split; [apply Z.div_str_pos; lia | apply Z.lt_succ_r, Z.div_lt_upper_bound; lia].
Qed.

Lemma ecc_coord_len_ok g : 0 < EcGroup_degree g ≤ 521 → ecc_coord_len g = Ok (coords g).
Proof.
  intros Hd%coord_len_bounds. unfold ecc_coord_len, TpmHash.div_ceil.
  replace (EcGroup_degree g + 8 - 1) with (EcGroup_degree g + 7) by lia. fold (coords g).
  unfold MAX_ECC_KEY_BYTES in Hd. by rewrite (proj2 (Z.leb_le _ _)) by (unfold usize_max; lia).
Qed.

Lemma make_point_spec p g c q :
  0 < EcGroup_degree g ≤ 521 → is_point g p q →
  outcome is_crypto (λ pt, point_holds g pt q) (tpm_make_point p g c).
Proof.
  intros Hd Hp. pose proof (coord_len_bounds g Hd) as Hc. unfold tpm_make_point.
  eapply outcome_bind; [apply crypto_outcome, point_bytes, Hp|]. intros bs ->. cbv zeta.
  rewrite ecc_coord_len_ok by done. cbn [result_bind].
  set (n := coords g) in *. set (X := be_encode (Z.to_nat n) q.1). set (Y := be_encode (Z.to_nat n) q.2).
  assert (zlen X = n) as HX by (unfold X; rewrite zlen_be_encode; lia).
  assert (zlen Y = n) as HY by (unfold Y; rewrite zlen_be_encode; lia).
  assert (saturating_sub (zlen (x04 :: X ++ Y)) 1 = 2 * n) as ->.
  { change (x04 :: X ++ Y) with ([x04] ++ X ++ Y). rewrite !zlen_app, HX, HY. unfold saturating_sub, zlen; simpl. lia. }
  replace (2 * n / 2) with n by (rewrite Z.mul_comm, Z.div_mul; lia).
  replace (2 * n - n) with n by lia. rewrite Z.eqb_refl, bool_decide_eq_true_2 by done. cbn [negb orb].
  assert (∀ E pre v post from to, zlen pre = from → from + zlen v = to →
    bytes_range (E:=E) from to (pre ++ v ++ post) = Ok v) as Hrange.
  { intros E pre v post from to <- <-. unfold bytes_range. pose proof (zlen_nonneg v). pose proof (zlen_nonneg post).
    pose proof (zlen_nonneg pre). rewrite !zlen_app, !(proj2 (Z.leb_le _ _)) by lia. cbn [andb].
    rewrite drop_zlen_app, take_zlen_app by lia. done. }
  rewrite (Hrange _ [x04] X Y) by (unfold zlen in *; simpl; lia). cbn [result_bind].
  destruct (buffer_try_from_spec MAX_ECC_KEY_BYTES ltac:(unfold MAX_ECC_KEY_BYTES; lia) X) as (bx & -> & Hx);
    [lia | unfold u16_max, MAX_ECC_KEY_BYTES in *; lia|]. cbn [map_err result_bind].
  assert (x04 :: X ++ Y = (x04 :: X) ++ Y ++ []) as -> by by rewrite app_nil_r.
  rewrite (Hrange _ (x04 :: X) Y []) by (unfold zlen in *; simpl; lia). cbn [result_bind].
  destruct (buffer_try_from_spec MAX_ECC_KEY_BYTES ltac:(unfold MAX_ECC_KEY_BYTES; lia) Y) as (b_y & -> & Hy);
    [lia | unfold u16_max, MAX_ECC_KEY_BYTES in *; lia|]. by split.
Qed.
End points.

(** ** The key agreement *)

(** What a TPM computes on import, Part 1 of the specification, C.6.4: the
    secret is the ephemeral point; the seed is [KDFe] of the x-coordinate of
    its product with the private key [d], of the ephemeral and of its own
    x-coordinate. *)
Definition tpm_recover_seed `{LibcryptoOk} `{!Openssl} `{!OpensslOk} (g : EcGroup) (d : Z)
    (h : TpmHash.t) (own_x secret : list byte) : option (list byte) :=
  match unmarshal TpmsEccPoint (mk_slice 0 secret) with
  | Ok (p, rest) =>
      if sl_is_empty rest then
        let x := TpmBuffer.deref (point_x p) in
        let q := (be_decode x, be_decode (TpmBuffer.deref (point_y p))) in
        let z := be_encode (Z.to_nat (coordinate_bytes (EcGroup_degree g))) (dh g d q) in
        Some (kdf_key (kdfe_block h z KDF_LABEL_DUPLICATE x own_x) (TpmHash.size h)
                (8 * TpmHash.size h))
      else None
  | _ => None
  end.

Section agreement.
Context {L : Libcrypto} {LO : LibcryptoOk} {O : Openssl} {OO : OpensslOk}.
Context {B : BigUintLib} {BO : BigUintLibOk}.

Local Abbreviation coords g := (coordinate_bytes (EcGroup_degree g)).
Local Abbreviation crypto := (map_err TpmCryptoError.Crypto).

Lemma kdf_key_len blk size bits :
  (∀ i, zlen (blk i) = size) → 0 < size → 0 ≤ bits → zlen (kdf_key blk size bits) = TpmHash.div_ceil bits 8.
Proof.
  intros Hb Hs Hbits. unfold kdf_key. pose proof (div_ceil_spec bits 8 ltac:(lia) ltac:(lia)).
  pose proof (div_ceil_spec (TpmHash.div_ceil bits 8) size ltac:(lia) ltac:(lia)).
  apply zlen_take. rewrite (zlen_kdf_blocks blk size) by (done || nia). nia.
Qed.

(** The ephemeral part: with the random number [e], the seed is the one that
    the holder of [d] recovers from the point. *)
Lemma ecdh_with_spec self h g pk peer d e_uint :
  0 < EcGroup_degree g ≤ 521 → 0 < TpmHash.size h →
  0 < d < group_order g → 0 < big_val e_uint < group_order g →
  ec_pkey pk peer → public_of g peer (gen g d) →
  let n := Z.to_nat (coords g) in
  TpmBuffer.deref (point_x (unique self)) = be_encode n (gen g d).1 →
  outcome is_crypto
    (λ '(seed, pt), point_holds g pt (gen g (big_val e_uint)) ∧
       TpmBuffer.deref seed =
         kdf_key (kdfe_block h (be_encode n (dh g d (gen g (big_val e_uint)))) KDF_LABEL_DUPLICATE
                    (be_encode n (gen g (big_val e_uint)).1) (be_encode n (gen g d).1))
           (TpmHash.size h) (8 * TpmHash.size h))
    (ecdh_with self h g pk e_uint).
Proof.
  intros Hdeg Hsize Hd He Hpk Hpeer n Hown. unfold ecdh_with.
  eapply outcome_bind; [apply crypto_outcome, bn_from_slice|]. intros bn Hbn. rewrite big_to_bytes in Hbn.
  eapply outcome_bind; [apply crypto_outcome, point_new|]. intros _ _.
  eapply outcome_bind; [apply crypto_outcome, point_mul; by rewrite Hbn|]. intros pt Hpt. rewrite Hbn in Hpt.
  eapply outcome_bind; [apply crypto_outcome; eapply key_of_private, Hpt|]. intros ek Hek. rewrite Hbn in Hek.
  eapply outcome_bind; [apply crypto_outcome, pkey_of_ec|]. intros epk Hepk.
  eapply outcome_bind; [apply crypto_outcome, deriver_new, Hepk|]. intros dv Hdv.
  eapply outcome_bind; [apply crypto_outcome, (deriver_set_peer dv ek pk peer); done|]. intros dv' Hdv'.
  eapply outcome_bind; [apply crypto_outcome, (deriver_derive dv' g ek peer); done|]. intros z ->.
  eapply outcome_bind; [by apply make_point_spec|]. intros ept Hept.
  set (k := big_val e_uint) in *.
  pose proof (size_bounds h) as Hs. change (0 ≤ TpmHash.size h ≤ 64) in Hs.
  unfold checked_mul. rewrite (proj2 (Z.leb_le (TpmHash.size h * 8) usize_max)) by (unfold usize_max; lia). cbn [or_panic result_bind].
  destruct Hept as [Hx Hy].
  rewrite (holds_deref _ _ _ Hx), Hown, (Z.mul_comm _ 8).
  assert (TpmHash.div_ceil (8 * TpmHash.size h) 8 = TpmHash.size h) as Hdiv.
  { clear -Hs. assert (0 ≤ 8 * TpmHash.size h) as H8 by lia. pose proof (div_ceil_spec (8 * TpmHash.size h) 8 ltac:(done) H8). lia. }
  pose proof (kdfe_into_spec h (be_encode n (dh g k (gen g d))) KDF_LABEL_DUPLICATE
    (be_encode n (gen g k).1) (be_encode n (gen g d).1) (8 * TpmHash.size h) (TpmHash.zeroed MAX_DIGEST_SIZE)) as Hk.
  rewrite Hdiv, zlen_zeroed in Hk by (unfold MAX_DIGEST_SIZE; lia).
  specialize (Hk ltac:(unfold u32_max; lia) Hsize ltac:(unfold MAX_DIGEST_SIZE; lia)).
  destruct (TpmHash.kdfe_into _ _ _ _ _ _ _) as [[len|e|] out]; simpl in Hk |- *; [|by destruct Hk as [[[s ->] _] _]; eexists |done].
  destruct Hk as [-> ->].
  match goal with |- context [take_checked _ (?key ++ _)] => set (K := key) in * end.
  assert (zlen K = TpmHash.size h) as HK.
  { unfold K. rewrite kdf_key_len; [done | intros; apply zlen_hash | lia..]. }
  rewrite take_checked_ok by (rewrite zlen_app; pose proof (zlen_nonneg (drop (Z.to_nat (TpmHash.size h)) (TpmHash.zeroed MAX_DIGEST_SIZE))); lia).
  rewrite take_zlen_app by done. cbn [result_bind].
  destruct (buffer_try_from_spec MAX_DIGEST_SIZE ltac:(unfold MAX_DIGEST_SIZE; lia) K) as (bs & -> & Hb);
    [unfold MAX_DIGEST_SIZE; lia | unfold u16_max; lia|]. simpl.
  split; [by split|]. rewrite (holds_deref _ _ _ Hb). unfold K. by rewrite (dh_comm g k d) by lia.
Qed.

Lemma gen_decode g d :
  0 < EcGroup_degree g ≤ 521 → 0 < d < group_order g →
  let n := Z.to_nat (coords g) in
  (be_decode (be_encode n (gen g d).1), be_decode (be_encode n (gen g d).2)) = gen g d.
Proof.
  intros Hdeg Hd n. pose proof (coord_len_bounds g Hdeg). destruct (gen_range g d Hd) as [H1 H2].
  unfold n. rewrite !be_decode_encode by (rewrite Z2Nat.id by lia; lia). by destruct (gen g d).
Qed.

(** The TPM reads the point back and computes the same seed. *)
Lemma recover_spec g d h e own_x pt :
  0 < EcGroup_degree g ≤ 521 → 0 < e < group_order g → point_holds g pt (gen g e) →
  let n := Z.to_nat (coords g) in
  ∃ bs, marshal_bytes TpmsEccPoint pt = Ok bs ∧ zlen bs ≤ MAX_RSA_KEY_BYTES ∧
    tpm_recover_seed g d h own_x bs =
      Some (kdf_key (kdfe_block h (be_encode n (dh g d (gen g e))) KDF_LABEL_DUPLICATE
              (be_encode n (gen g e).1) own_x) (TpmHash.size h) (8 * TpmHash.size h)).
Proof.
  intros Hdeg He [Hx Hy] n. pose proof (coord_len_bounds g Hdeg) as Hc.
  assert (pt = ecc_point (point_x pt) (point_y pt)) as Hpt by by destruct pt as [? [? []]].
  pose proof (point_wire _ _ _ _ Hx Hy) as Hw. rewrite <-Hpt in Hw.
  set (bs := Tpm2b.format _ ++ _) in Hw. exists bs.
  assert (zlen bs = 4 + 2 * coords g) as Hl.
  { unfold bs. rewrite zlen_app, !zlen_format, !zlen_be_encode. lia. }
  unfold MAX_ECC_KEY_BYTES in Hc. split_and!.
  - apply (marshal_bytes_ok TpmsEccPoint pt bs Hw). unfold TPM_MAX_COMMAND_SIZE; lia.
  - unfold MAX_RSA_KEY_BYTES. lia.
  - unfold tpm_recover_seed. rewrite (unmarshal_wire (c:=TpmsEccPoint) pt bs _ (mk_slice (zlen bs) [])); [| |exact Hw|].
    + change (sl_is_empty (mk_slice (zlen bs) [])) with true. cbv zeta.
      rewrite (holds_deref _ _ _ Hx), (holds_deref _ _ _ Hy). fold n.
      pose proof (gen_decode g e Hdeg He) as Hg. cbv zeta in Hg. fold n in Hg. by rewrite Hg.
    + split_and!; simpl; unfold sl_len; simpl; unfold usize_max, isize_max; lia.
    + split; [|done]. simpl. by rewrite app_nil_r.
Qed.

Lemma d_bind_Some {A A'} (m : Draw A) (k : A → Draw A') g r g' (F : _ → Prop) (P : A → Prop) (Q : A' → Prop) :
  d_bind m k g = Some (r, g') →
  (∀ r1 g1, m g = Some (r1, g1) → outcome F P r1) →
  (∀ a g1, P a → k a g1 = Some (r, g') → outcome F Q r) →
  outcome F Q r.
Proof.
  unfold d_bind. intros Hr Hm Hk. destruct (m g) as [[[a|e|] g1]|] eqn:E; [|injection Hr as <- <-..|done].
  - eapply Hk; [exact (Hm _ _ eq_refl) | done].
  - exact (Hm _ _ eq_refl).
  - exact (Hm _ _ eq_refl).
Qed.

Lemma ecc_to_seed_spec fuel self h nid g d rng r rng' :
  curve_to_nid (curve self) = Ok nid → EcGroup_from_curve_name nid = Ok g →
  0 < TpmHash.size h → 0 < d < group_order g → point_holds g (unique self) (gen g d) →
  ecc_to_seed fuel self h rng = Some (r, rng') →
  outcome is_crypto
    (λ '(seed, secret), tpm_recover_seed g d h (TpmBuffer.deref (point_x (unique self))) (TpmBuffer.deref secret) =
       Some (TpmBuffer.deref seed)) r.
Proof.
  intros Hnid Hg Hsize Hd [Hux Huy]. pose proof (group_of nid) as Hgr. rewrite Hg in Hgr. simpl in Hgr.
  destruct Hgr as [Hdeg Hord]. set (n := Z.to_nat (coords g)) in *.
  pose proof (holds_deref _ _ _ Hux) as Hx. pose proof (holds_deref _ _ _ Huy) as Hy.
  unfold ecc_to_seed. intros Hr. eapply (d_bind_Some _ _ _ _ _ is_crypto (λ '(seed, pt),
    ∃ e, 0 < e < group_order g ∧ point_holds g pt (gen g e) ∧
      TpmBuffer.deref seed = kdf_key (kdfe_block h (be_encode n (dh g d (gen g e))) KDF_LABEL_DUPLICATE
        (be_encode n (gen g e).1) (be_encode n (gen g d).1)) (TpmHash.size h) (8 * TpmHash.size h))); [exact Hr|..].
  - clear Hr r rng'. intros r rng' Hr. unfold ecdh in Hr. cbv zeta in Hr.
    eapply (d_bind_Some _ _ _ _ _ is_crypto (λ '(g', pk, order), g' = g ∧ big_val order = group_order g ∧
      ∃ peer, ec_pkey pk peer ∧ public_of g peer (gen g d))); [exact Hr|..].
    + clear Hr r rng'. intros r rng' [= <- <-]. rewrite Hnid. cbn [result_bind]. rewrite Hg. cbn [map_err result_bind].
      eapply outcome_bind; [apply crypto_outcome, bn_context_new|]. intros _ _.
      eapply outcome_bind; [apply crypto_outcome, bn_from_slice|]. intros bx Hbx. rewrite Hx in Hbx.
      eapply outcome_bind; [apply crypto_outcome, bn_from_slice|]. intros b_y Hby. rewrite Hy in Hby.
      eapply outcome_bind; [apply crypto_outcome, key_of_coordinates|]. intros peer Hpeer.
      pose proof (gen_decode g d Hdeg Hd) as Hgd. cbv zeta in Hgd. fold n in Hgd.
      rewrite Hbx, Hby, Hgd in Hpeer.
      eapply outcome_bind; [apply crypto_outcome, pkey_of_ec|]. intros pk Hpk.
      eapply outcome_bind; [apply crypto_outcome, bn_new|]. intros _ _.
      eapply outcome_bind; [apply crypto_outcome, order_ok|]. intros order Horder. simpl.
      split; [done|]. split; [by rewrite big_from_bytes, bn_to_vec|]. exists peer. split; [exact Hpk | exact Hpeer].
    + clear Hr. intros [[g' pk] order] g1 (-> & Ho & peer & Hpk & Hpeer) Hr.
      eapply (d_bind_Some _ _ _ _ _ is_crypto (λ e, 0 < big_val e < group_order g)); [exact Hr|..].
      * clear Hr. intros r1 g2 Hr. assert (big_val (BigUint_from_u8 1) = 1) as H1 by by apply big_from_u8.
        assert (big_val (BigUint_from_u8 1) < big_val order) as Hlt by (rewrite H1, Ho; lia).
        assert (BigUint_bits (BigUint_sub order (BigUint_from_u8 1)) ≤ u64_max) as Hu.
        { transitivity 522; [|by apply Z.leb_le]. apply big_bits_lt; rewrite big_sub; lia. }
        pose proof (gen_range_bounds _ _ _ _ _ _ Hlt Hu Hr) as Hb. rewrite H1, Ho in Hb.
        eapply outcome_impl; [exact Hb|]. intros v. simpl. lia.
      * clear Hr. intros e g2 He [= <- <-]. eapply outcome_impl.
        { apply (ecdh_with_spec self h g pk peer d e); done. }
        intros [seed pt] [Hp Hs]. by exists (big_val e).
  - clear Hr. intros [seed pt] g1 (e & He & Hpt & Hs) [= <- <-].
    change (TpmStruct.codec _) with (codec TpmsEccPoint).
    destruct (recover_spec g d h e (be_encode n (gen g d).1) pt Hdeg He Hpt) as (bs & -> & Hl & Hrec).
    cbn [result_bind].
    destruct (buffer_try_from_spec MAX_RSA_KEY_BYTES ltac:(unfold MAX_RSA_KEY_BYTES; lia) bs) as (sec & -> & Hsec);
      [done | unfold MAX_RSA_KEY_BYTES, u16_max in *; lia|]. simpl.
    rewrite (holds_deref _ _ _ Hsec), Hx, Hs. exact Hrec.
Qed.

(** It goes on only while every draw is rejected. *)
Lemma ecc_to_seed_waits fuel self h nid g rng :
  curve_to_nid (curve self) = Ok nid → EcGroup_from_curve_name nid = Ok g →
  ecc_to_seed fuel self h rng = None →
  ∃ order bufs rng', big_val order = group_order g ∧
    let bits := BigUint_bits (BigUint_sub order (BigUint_from_u8 1)) in
    drawn (sample_len bits) rng bufs rng' ∧ length bufs = fuel ∧
    Forall (λ b, group_order g - 1 ≤ be_decode b `mod` 2 ^ bits) bufs.
Proof.
  intros Hnid Hg. unfold ecc_to_seed, ecdh, d_bind, d_lift. cbv zeta.
  rewrite Hnid. cbn [result_bind]. rewrite Hg. cbn [map_err result_bind].
  pose proof (group_of nid) as Hgr. rewrite Hg in Hgr. destruct Hgr as [_ Hgo].
  destruct BigNumContext_new; [|done..]. cbn [map_err result_bind].
  destruct (BigNum_from_slice _); [|done..]. cbn [map_err result_bind].
  destruct (BigNum_from_slice _); [|done..]. cbn [map_err result_bind].
  destruct (EcKey_from_public_key_affine_coordinates _ _ _); [|done..]. cbn [map_err result_bind].
  destruct (PKey_from_ec_key _); [|done..]. cbn [map_err result_bind].
  destruct BigNum_new; [|done..]. cbn [map_err result_bind].
  pose proof (order_ok g) as Ho. destruct (EcGroup_order g) as [order| |]; [|done..]. cbn [map_err result_bind].
  set (high := BigUint_from_bytes_be (BigNum_to_vec order)).
  assert (big_val high = group_order g) as Hh by (unfold high; by rewrite big_from_bytes, bn_to_vec).
  assert (big_val (BigUint_from_u8 1) = 1) as H1 by by apply big_from_u8.
  destruct (gen_biguint_range fuel (BigUint_from_u8 1) high rng) as [[[]]|] eqn:E; [by repeat case_match..|].
  intros _. exists high. revert E. unfold gen_biguint_range.
  destruct (gen_range_setup (BigUint_from_u8 1) high) as (Hl & Hr & Hb & Hbits); [lia|]. rewrite Hl. cbn [negb].
  assert (BigUint_bits (BigUint_sub high (BigUint_from_u8 1)) ≤ u64_max) as Hu.
  { transitivity 522; [|by apply Z.leb_le]. apply big_bits_lt; rewrite big_sub; lia. }
  intros (bufs & rng' & Hd & Hlen & Hf)%sample_none; [|done].
  exists bufs, rng'. split_and!; [done..|]. rewrite Hr, Hh, H1 in Hf. exact Hf.
Qed.
End agreement.

(** ** RSA seeds *)

Section rsa_seeds.
Context {L : Libcrypto} {LO : LibcryptoOk} {O : Openssl} {OO : OpensslOk}.

(** The errors: libcrypto, or a digest that [Md] does not know. *)
Definition oaep_failure (h : TpmHash.t) (e : TpmCryptoError.t) : Prop :=
  is_crypto e ∨
  Md_from_nid (md_type (TpmHash.to_md h)) = None ∧
  e = TpmCryptoError.InvalidMessageDigestNid (md_type (TpmHash.to_md h)).

Lemma crypto_oaep {A} h (P : A → Prop) (r : result ErrorStack A) :
  may_fail P r → outcome (oaep_failure h) P (map_err TpmCryptoError.Crypto r).
Proof. intros Hr%crypto_outcome. destruct r; simpl in *; [done | by left | done]. Qed.

(** [c] encrypts [m] for the key and the label of a duplication. *)
Definition encrypts (self : TpmRsaExternalKey) (h : TpmHash.t) (m c : list byte) : Prop :=
  ∃ md, Md_from_nid (md_type (TpmHash.to_md h)) = Some md ∧
    oaep_cipher (be_decode (TpmBuffer.deref (public_key self)))
      (effective_exponent (TpmInt.value 4 false (exponent self))) md md
      (bytes_lit "DUPLICATE" ++ [x00]) m c.

Lemma oaep_spec self h seed :
  zlen (TpmBuffer.deref (public_key self)) ≤ MAX_RSA_KEY_BYTES → length (TpmInt.bytes (exponent self)) = 4%nat →
  outcome (oaep_failure h) (λ c, encrypts self h seed c ∧ zlen c ≤ MAX_RSA_KEY_BYTES) (oaep self h seed).
Proof.
  intros Hl He. unfold oaep, encrypts.
  destruct (Md_from_nid (md_type (TpmHash.to_md h))) as [md|] eqn:Hmd; [|right; by rewrite Hmd].
  cbn [ok_or result_bind]. set (x := effective_exponent _).
  assert (0 ≤ x ≤ u32_max) as Hx.
  { pose proof (value_in_range 4 false ltac:(lia) (exponent self) He) as Hr.
    change (0 ≤ TpmInt.value 4 false (exponent self) ≤ u32_max) in Hr.
    unfold x, effective_exponent. case_match; [unfold u32_max; lia | done]. }
  eapply outcome_bind; [apply crypto_oaep, bn_from_slice|]. intros n Hn.
  eapply outcome_bind; [apply crypto_oaep, bn_from_u32, Hx|]. intros e Hev.
  eapply outcome_bind; [apply crypto_oaep, rsa_of_public|]. intros r Hr. rewrite Hn, Hev in Hr.
  eapply outcome_bind; [apply crypto_oaep, pkey_of_rsa|]. intros pk Hpk.
  eapply outcome_bind; [apply crypto_oaep, ctx_new, Hpk|]. intros c0 H0.
  eapply outcome_bind; [apply crypto_oaep, ctx_init, H0|]. intros c1 H1.
  eapply outcome_bind; [apply crypto_oaep, ctx_padding, H1|]. intros c2 H2.
  eapply outcome_bind; [apply crypto_oaep, (ctx_md c2 r md), H2|]. intros c3 H3.
  eapply outcome_bind; [apply crypto_oaep, (ctx_mgf1 c3 r md md), H3|]. intros c4 H4.
  eapply outcome_bind; [apply crypto_oaep, (ctx_label c4 r md md OAEP_LABEL), H4|]. intros c5 H5.
  set (nb := TpmBuffer.deref (public_key self)) in *.
  pose proof (pkey_size pk r _ _ (zlen nb) Hpk Hr (zlen_nonneg nb) (be_decode_bound nb)) as Hsize.
  pose proof (ctx_encrypt c5 r _ _ pk md md OAEP_LABEL seed (TpmHash.zeroed (PKey_size pk)) H5 Hr Hpk
    ltac:(apply zlen_zeroed; lia)) as Henc.
  destruct (PkeyCtx_encrypt c5 seed _) as [rl out] eqn:Hout. cbn [fst snd] in Henc.
  eapply outcome_bind; [apply crypto_oaep, Henc|]. intros len [Hlen Hc]. rewrite zlen_zeroed in Hlen by lia.
  simpl. split; [by exists md|]. pose proof (length_take_le out (Z.to_nat len)) as Ht.
  unfold zlen at 1. rewrite length_take. lia.
Qed.

Lemma rsa_to_seed_spec self h g :
  zlen (TpmBuffer.deref (public_key self)) ≤ MAX_RSA_KEY_BYTES → length (TpmInt.bytes (exponent self)) = 4%nat →
  st_outcome (λ e _, oaep_failure h e)
    (λ '(seed, secret) g', (∃ bytes, rand_bytes (TpmHash.size h) g = (Ok bytes, g') ∧ TpmBuffer.deref seed = bytes) ∧
       zlen (TpmBuffer.deref seed) = TpmHash.size h ∧
       encrypts self h (TpmBuffer.deref seed) (TpmBuffer.deref secret))
    (rsa_to_seed self h g).
Proof.
  intros Hl He. unfold rsa_to_seed. pose proof (size_bounds h) as Hs. change (0 ≤ TpmHash.size h ≤ 64) in Hs.
  eapply st_outcome_lift with (P := λ _, True).
  { rewrite take_checked_ok; [done|]. rewrite zlen_zeroed; [exact Hs | by unfold MAX_DIGEST_SIZE]. }
  intros _ _. eapply (st_outcome_bind _ (λ bytes g', rand_bytes (TpmHash.size h) g = (Ok bytes, g') ∧ zlen bytes = TpmHash.size h)).
  { unfold st_map_err. pose proof (rand_bytes_ok (TpmHash.size h) g (proj1 Hs)) as Hr.
    destruct (rand_bytes (TpmHash.size h) g) as [[bytes|e|] g']; simpl in *; [done | left; by eexists | done]. }
  intros bytes g' [Hr Hb].
  destruct (buffer_try_from_spec MAX_DIGEST_SIZE ltac:(unfold MAX_DIGEST_SIZE; lia) bytes) as (seed & -> & Hseed);
    [unfold MAX_DIGEST_SIZE; lia | unfold u16_max; lia|]. pose proof (holds_deref _ _ _ Hseed) as Hd.
  unfold st_bind at 1, st_lift at 1. cbn [map_err].
  eapply st_outcome_lift; [apply (oaep_spec self h (TpmBuffer.deref seed) Hl He)|]. intros c [Hc Hcl].
  destruct (buffer_try_from_spec MAX_RSA_KEY_BYTES ltac:(unfold MAX_RSA_KEY_BYTES; lia) c) as (secret & -> & Hsec);
    [done | unfold MAX_RSA_KEY_BYTES, u16_max in *; lia|]. simpl.
  rewrite (holds_deref _ _ _ Hsec). split; [by exists bytes|]. split; [by rewrite Hd | done].
Qed.
End rsa_seeds.
