(* ===== verification/KeyPublic.v ===== *)
(** Public areas of external keys and templates: which keys are valid, that a
    public area made from a key and a template can be marshalled, and that
    key and template are read back from it. *)

From Stdlib Require Import Ascii String.
From S2P Require Import Prelude State Errors Writer Codec Integer Buffer Struct EnumMacro Union Enums Attributes.
From S2P Require Import BasicTypes Schemes Structures Crypto Hash Text PolicyText Template TemplateSpec.
From S2P Require Import Openssl ExternalKey ExternalKeySpec.
Import TpmPublicTemplate.

(** ** Templates and public areas *)

Section public.
Context `{Libcrypto}.

Lemma with_public_matches (p : ty TpmtPublic) (tm : t) :
  TpmtPublic.object_type p ≠ TpmAlgId.Null →
  matches_tag TpmuPublicParms (TpmtPublic.parameters p) (TpmtPublic.object_type p) = true →
  matches_tag TpmuPublicId (TpmtPublic.unique p) (TpmtPublic.object_type p) = true →
  with_public (TpmtPublic.unique p) (TpmtPublic.parameters p) tm =
    Ok (mk (TpmtPublic.object_type p) (name_alg tm) (auth_policy tm) (object_attributes tm)
          (symmetric tm) (TpmtPublic.unique p) (TpmtPublic.parameters p)).
Proof.
  destruct p as [ot na attrs ap pp un]. simpl. intros Ho Hp Hu.
  destruct pp, ot; simpl in Hp; try done; destruct un; simpl in Hu; done.
Qed.

(** A public area whose unions fit its type is read as a template that gives
    it back. *)
Lemma template_of_public (p : ty TpmtPublic) h :
  TpmHash.try_from (TpmtPublic.name_alg p) = Ok h →
  TpmtPublic.object_type p ≠ TpmAlgId.Null →
  matches_tag TpmuPublicParms (TpmtPublic.parameters p) (TpmtPublic.object_type p) = true →
  matches_tag TpmuPublicId (TpmtPublic.unique p) (TpmtPublic.object_type p) = true →
  ∃ tm, TpmPublicTemplate.try_from p = Ok tm ∧ TpmPublicTemplate.to_public tm = Ok p ∧
    consistent tm = true ∧ name_alg tm = TpmtPublic.name_alg p ∧
    public_parms tm = TpmtPublic.parameters p ∧ object_attributes tm = TpmtPublic.object_attributes p.
Proof.
  intros Hh Ho Hp Hu. unfold TpmPublicTemplate.try_from. rewrite Hh. cbn [result_bind].
  rewrite with_public_matches by done. cbn [result_bind]. eexists. split; [done|].
  apply Hash.try_from_to_alg in Hh. unfold TpmPublicTemplate.to_public, with_name_alg. simpl. rewrite Hh.
  destruct p as [ot na attrs ap pp un]. simpl in *.
  destruct pp, ot; simpl in Hp; try done; destruct un; simpl in Hu; try done; split_and!; try done.
  all: destruct v; done.
Qed.
End public.

(** ** Schemes of templates that were read *)

Section schemes.
Context `{TextLib} `{CurveText}.

Lemma hash_not_null h : TpmHash.to_alg h ≠ TpmAlgId.Null.
Proof. by destruct h. Qed.

Lemma filled_details sch h :
  fill_scheme_hash sch (scheme_details sch h) (TpmHash.to_alg h) = (sch, scheme_details sch h).
Proof.
  unfold fill_scheme_hash. destruct (scheme_details sch h) as [[a u]|] eqn:E; [|done].
  case_bool_decide as Ha; [|done]. exfalso. apply (hash_not_null h).
  unfold scheme_details in E. destruct sch; try done; by injection E as -> _.
Qed.

Lemma asym_scheme_wire sch h :
  is_rsa_scheme sch = true ∨ is_ecc_scheme sch = true →
  is_Some (wire TpmtRsaScheme (TaggedStruct.mk sch (scheme_details sch h))).
Proof. destruct sch; intros [|]; try done; by eexists. Qed.

Lemma rsa_scheme_wire s tm : describes s tm → is_Some (wire TpmtRsaScheme (rsa_scheme tm)).
Proof.
  destruct 1; unfold rsa_scheme; cbn [public_parms rsa_template ecc_template keyedhash_template rsa_parms ecc_parms];
    cbn [TaggedStruct.tag_field TaggedStruct.value_field name_alg]; rewrite ?filled_details;
    try (by eexists). apply asym_scheme_wire. by left.
Qed.

Lemma ecc_scheme_wire s tm : describes s tm → is_Some (wire TpmtEccScheme (ecc_scheme tm)).
Proof.
  destruct 1; unfold ecc_scheme; cbn [public_parms rsa_template ecc_template keyedhash_template rsa_parms ecc_parms];
    cbn [TaggedStruct.tag_field TaggedStruct.value_field name_alg]; rewrite ?filled_details;
    try (by eexists). apply asym_scheme_wire. by right.
Qed.

(** The other fields of such a template. *)
Lemma described_fields s tm :
  describes s tm →
  (∃ h, name_alg tm = TpmHash.to_alg h) ∧ auth_policy tm = empty_digest ∧ symmetric tm = sym_def_default ∧
  is_Some (wire TpmaObject (object_attributes tm)).
Proof.
  destruct 1 as [? ? ? ? ? ? ? ? ? ? ? ? Hs|? ? ? ? ? ? ? ? ? ? ? ? Hs| | |];
    (split_and!; [by eexists | done | done |]); try (by eexists); by destruct Hs; eexists.
Qed.

Lemma public_wire_is_Some (p : ty TpmtPublic) :
  matches_tag TpmuPublicParms (TpmtPublic.parameters p) (TpmtPublic.object_type p) = true →
  matches_tag TpmuPublicId (TpmtPublic.unique p) (TpmtPublic.object_type p) = true →
  is_Some (wire TpmaObject (TpmtPublic.object_attributes p)) →
  is_Some (wire Tpm2bDigest (TpmtPublic.auth_policy p)) →
  is_Some (uwire TpmuPublicParms (TpmtPublic.parameters p)) →
  is_Some (uwire TpmuPublicId (TpmtPublic.unique p)) →
  is_Some (wire TpmtPublic p).
Proof.
  intros Hp Hu [b1 E1] [b2 E2] [b3 E3] [b4 E4].
  eexists. apply public_wire_Some. split_and!; [done..|]. rewrite E1, E2, E3, E4. done.
Qed.
End schemes.

(** ** RSA keys *)

Section rsa.
Context `{Openssl}.

(** What [try_new] accepts. *)
Definition rsa_valid (k : TpmRsaExternalKey) : Prop :=
  let bits := TpmInt.value 2 false (key_bits k) in
  let e := TpmInt.value 4 false (exponent k) in
  bits ≠ 0 ∧ bits mod 8 = 0 ∧ zlen (TpmBuffer.deref (public_key k)) = bits / 8 ∧
  (e = 0 ∨ 3 ≤ e ∧ e mod 2 = 1).

Lemma rsa_try_new_valid k :
  rsa_try_new (public_key k) (exponent k) (key_bits k) = Ok k ↔ rsa_valid k.
Proof.
  destruct k as [pk e kb]. unfold rsa_try_new, rsa_valid. cbn [public_key exponent key_bits].
  set (b := TpmInt.value 2 false kb). set (x := TpmInt.value 4 false e).
  pose proof (Z.mod_pos_bound x 2 ltac:(lia)).
  destruct (Z.eqb_spec b 0); [naive_solver lia|]. destruct (Z.eqb_spec (b mod 8) 0); [|naive_solver lia].
  cbn [negb orb]. destruct (Z.eqb_spec (zlen (TpmBuffer.deref pk)) (b / 8)); [|naive_solver lia].
  cbn [negb]. destruct (Z.eqb_spec x 0); [split; [intros _; split_and!; auto | done]|]. cbn [negb andb].
  destruct (Z.ltb_spec x 3); [split; [done | intros; lia]|].
  destruct (Z.eqb_spec (x mod 2) 0); [split; [done | intros; lia]|].
  split; [intros _; split_and!; lia | done].
Qed.

(** Reading the public area of a key writes the default exponent as zero. *)
Definition normal_rsa (k : TpmRsaExternalKey) : TpmRsaExternalKey :=
  mk_rsa_key (public_key k) (TpmInt.new 4 (normal_exponent (TpmInt.value 4 false (exponent k)))) (key_bits k).

Lemma normal_rsa_valid k :
  length (TpmInt.bytes (exponent k)) = 4%nat → rsa_valid k → rsa_valid (normal_rsa k).
Proof.
  intros Hl (Hb & H8 & Hn & He). pose proof (value_in_range 4 false ltac:(lia) (exponent k) Hl) as Hr.
  unfold rsa_valid, normal_rsa. cbn [public_key exponent key_bits]. unfold normal_exponent.
  split_and!; try done. destruct (Z.eqb_spec (TpmInt.value 4 false (exponent k)) 65537) as [_|Hne].
  - left. reflexivity.
  - rewrite value_new; [exact He | lia | exact Hr].
Qed.

Lemma rsa_public_back k tm :
  length (TpmInt.bytes (exponent k)) = 4%nat → rsa_valid k →
  rsa_try_from_public (rsa_to_public k tm) = Ok (normal_rsa k).
Proof. intros Hl Hv. by apply (normal_rsa_valid k Hl), rsa_try_new_valid in Hv. Qed.

Lemma normal_rsa_id k :
  length (TpmInt.bytes (exponent k)) = 4%nat → TpmInt.value 4 false (exponent k) ≠ 65537 → normal_rsa k = k.
Proof.
  intros Hl Hne. destruct k as [pk [e] kb]. unfold normal_rsa, normal_exponent. cbn [public_key exponent key_bits] in *.
  rewrite (proj2 (Z.eqb_neq _ _)) by done. f_equal. unfold TpmInt.new, TpmInt.value. f_equal. simpl in Hl |- *.
  unfold TpmInt.to_unsigned. rewrite Z.mod_small; [by apply be_encode_decode|].
  pose proof (be_decode_bound e) as Hb. unfold zlen in Hb. by rewrite Hl in Hb.
Qed.

Context `{!TextLib} `{!CurveText}.

Lemma rsa_public_wire s tm k :
  describes s tm → length (TpmInt.bytes (exponent k)) = 4%nat → length (TpmInt.bytes (key_bits k)) = 2%nat →
  is_Some (wire Tpm2bPublicKeyRsa (public_key k)) → is_Some (wire TpmtPublic (rsa_to_public k tm)).
Proof.
  intros Hd He Hk Hn. destruct (described_fields s tm Hd) as ((h & Hh) & Ha & Hs & Ho).
  pose proof (rsa_scheme_wire s tm Hd) as [bs Hsch].
  apply public_wire_is_Some; [done | done | done | by simpl; rewrite Ha; eexists | | done].
  eexists. apply fields_wire_cons. eexists _, _. rewrite Hs. split; [done|]. split; [|done].
  apply fields_wire_cons. eexists _, _. split; [exact Hsch|]. split; [|done].
  apply fields_wire_cons. eexists _, _. split; [apply decide_True, Hk|]. split; [|done].
  apply fields_wire_cons. eexists _, _. split; [apply decide_True, He|]. done.
Qed.
End rsa.

(** ** ECC keys *)

Section ecc.
Context `{Openssl} `{!TextLib} `{!CurveText}.

Lemma ecc_public_back k tm :
  ecc_try_new (curve k) (unique k) = Ok k → ecc_try_from_public (ecc_to_public k tm) = Ok k.
Proof.
  intros Hk. unfold ecc_try_from_public, ecc_to_public. simpl.
  rewrite curve_try_from. cbn [result_bind]. destruct k as [c [x [y []]]]. exact Hk.
Qed.

Lemma ecc_public_wire s tm k :
  describes s tm → is_Some (wire TpmsEccPoint (unique k)) → is_Some (wire TpmtPublic (ecc_to_public k tm)).
Proof.
  intros Hd Hu. destruct (described_fields s tm Hd) as ((h & Hh) & Ha & Hs & Ho).
  pose proof (ecc_scheme_wire s tm Hd) as [bs Hsch].
  apply public_wire_is_Some; [done | done | done | by simpl; rewrite Ha; eexists | | done].
  eexists. apply fields_wire_cons. eexists _, _. rewrite Hs. split; [done|]. split; [|done].
  apply fields_wire_cons. eexists _, _. split; [exact Hsch|]. split; [|done].
  apply fields_wire_cons. eexists _, _. split; [done|]. split; [|done].
  apply fields_wire_cons. eexists _, _. done.
Qed.

(** The accepted points: both coordinates as long as the field elements. *)
Lemma ecc_try_new_exact c u nid g :
  curve_to_nid c = Ok nid → EcGroup_from_curve_name nid = Ok g → 0 < EcGroup_degree g ≤ 521 →
  let n := coordinate_bytes (EcGroup_degree g) in
  let x_len := zlen (TpmBuffer.deref (point_x u)) in
  let y_len := zlen (TpmBuffer.deref (point_y u)) in
  ecc_try_new c u =
    if (x_len =? n) && (y_len =? n) then Ok (mk_ecc_key c u)
    else Err (TpmCryptoError.InvalidEccPoint (TpmEllipticCurve.to_curve c) x_len y_len n).
Proof.
  intros Hn Hg Hd n x_len y_len. unfold ecc_try_new. rewrite Hn. cbn [result_bind]. rewrite Hg.
  cbn [map_err result_bind]. rewrite ecc_coord_len_ok by done. cbn [result_bind]. fold n x_len y_len.
  by destruct (x_len =? n), (y_len =? n).
Qed.
End ecc.
