(* ===== verification/KeyProperties.v ===== *)
(** What the keys of the crypto crate promise: the text of templates, public
    areas, the seeds of RSA and ECC parents, random numbers; and a small
    concrete libcrypto, [BigUint] and set of names for the witnesses. *)

From Stdlib Require Import Ascii String.
From S2P Require Import Prelude State Errors Writer Codec Integer Buffer Struct EnumMacro Union Enums Attributes.
From S2P Require Import BasicTypes Schemes Structures Crypto Hash Text PolicyText Template TemplateSpec.
From S2P Require Import Openssl ExternalKey ExternalKeySpec KeyPublic CryptoProperties PolicyProperties.

(** ** A concrete libcrypto

    One group, of the multiples modulo 251, whose points have one-byte
    coordinates; an encryption that pads with zeros; the random generator is
    a tape. *)

Definition toy_gen (k : Z) : Z * Z := (k mod 251, k mod 251).
Definition toy_dh (k : Z) (p : Z * Z) : Z := k * p.1 mod 251.

Definition toy_size (n : list byte) : Z :=
  if be_decode n =? 0 then 0 else Z.log2 (be_decode n) / 8 + 1.

#[export] Instance toy_openssl : Openssl := {|
  nid_eq_dec := Z.eq_dec;
  X9_62_PRIME192V1 := 1; SECP224R1 := 2; X9_62_PRIME256V1 := 3; SECP384R1 := 4; SECP521R1 := 5;
  BRAINPOOL_P256R1 := 6; BRAINPOOL_P384R1 := 7; BRAINPOOL_P512R1 := 8; SM2 := 9; UNDEF := 0;
  md_type md := md;
  Md := Z; Md_from_nid nid := Some nid;
  Rng := list byte;
  rand_bytes n g := if n <=? zlen g then (Ok (take (Z.to_nat n) g), drop (Z.to_nat n) g) else (Err (), g);
  BigNum := list byte;
  BigNum_from_slice bs := Ok bs;
  BigNum_from_u32 z := Ok (be_encode 4 z);
  BigNum_to_vec b := b;
  BigNum_is_negative b := false;
  BigNum_num_bits b := 8 * zlen b;
  BigNum_new := Ok (); BigNumContext_new := Ok ();
  EcGroup := unit;
  EcGroup_from_curve_name nid := Ok ();
  EcGroup_curve_name g := Some 3;
  EcGroup_degree g := 8;
  EcGroup_order g := Ok [byte.of_Z 251];
  EcPoint := Z * Z;
  EcPoint_new g := Ok ();
  EcPoint_mul_generator g b := Ok (toy_gen (be_decode b));
  EcPoint_to_bytes g p := Ok (x04 :: be_encode 1 p.1 ++ be_encode 1 p.2);
  EcKey := list byte * (Z * Z);
  EcKey_from_public_key_affine_coordinates g x y := Ok ([], (be_decode x, be_decode y));
  EcKey_from_private_components g b p := Ok (b, p);
  EcKey_group k := ();
  EcKey_public_key k := k.2;
  EcKey_private_key k := k.1;
  Rsa := list byte * list byte;
  Rsa_from_public_components n e := Ok (n, e);
  Rsa_n r := r.1; Rsa_e r := r.2; Rsa_p r := None;
  Rsa_size r := toy_size r.1;
  PKey_private_key_from_der bs := Err ();
  PKey_from_ec_key k := Ok (EcPKey k.1 k.2);
  PKey_ec_key pk := match pk with EcPKey d q => Ok (d, q) | _ => Err () end;
  PKey_from_rsa r := Ok (RsaPKey r.1 r.2);
  PKey_rsa pk := match pk with RsaPKey n e => Ok (n, e) | _ => Err () end;
  PKey_size pk := match pk with RsaPKey n e => toy_size n | _ => 0 end;
  Deriver := list byte * (Z * Z) * option (Z * Z);
  Deriver_new pk := match pk with EcPKey d q => Ok (d, q, None) | _ => Err () end;
  Deriver_set_peer pk d := match pk with EcPKey _ q => Ok (d.1, Some q) | _ => Err () end;
  Deriver_derive d :=
    match d.2 with Some q => Ok (be_encode 1 (toy_dh (be_decode d.1.1) q)) | None => Err () end;
  PkeyCtx := oaep_setup (list byte * list byte) Z;
  PkeyCtx_new pk :=
    match pk with RsaPKey n e => Ok (mk_setup (n, e) false false None None None) | _ => Err () end;
  encrypt_init c := Ok (mk_setup (su_key c) true (su_padding c) (su_md c) (su_mgf1 c) (su_label c));
  set_rsa_padding_oaep c := Ok (mk_setup (su_key c) (su_init c) true (su_md c) (su_mgf1 c) (su_label c));
  set_rsa_oaep_md md c := Ok (mk_setup (su_key c) (su_init c) (su_padding c) (Some md) (su_mgf1 c) (su_label c));
  set_rsa_mgf1_md md c := Ok (mk_setup (su_key c) (su_init c) (su_padding c) (su_md c) (Some md) (su_label c));
  set_rsa_oaep_label l c := Ok (mk_setup (su_key c) (su_init c) (su_padding c) (su_md c) (su_mgf1 c) (Some l));
  PkeyCtx_encrypt c m buf := (Ok (zlen buf), take (length buf) (m ++ replicate (length buf) x00))
|}.

Lemma toy_dh_comm a b : toy_dh a (toy_gen b) = toy_dh b (toy_gen a).
Proof. unfold toy_dh, toy_gen. simpl. rewrite !Z.mul_mod_idemp_r by lia. f_equal. lia. Qed.

Lemma toy_size_le n k : 0 ≤ k → 0 ≤ be_decode n < 2 ^ (8 * k) → 0 ≤ toy_size n ≤ k.
Proof.
  intros Hk Hn. unfold toy_size. destruct (Z.eqb_spec (be_decode n) 0); [lia|].
  pose proof (Z.log2_nonneg (be_decode n)). assert (Z.log2 (be_decode n) < 8 * k) by (apply Z.log2_lt_pow2; lia).
  split; [apply Z.add_nonneg_nonneg; [apply Z.div_pos|]; lia|].
  assert (Z.log2 (be_decode n) / 8 < k) by (apply Z.div_lt_upper_bound; lia). lia.
Qed.

#[export] Instance toy_openssl_ok : OpensslOk.
Proof.
  refine {|
    bn_val := be_decode : @BigNum _ toy_openssl → Z;
    gen := λ _, toy_gen; dh := λ _, toy_dh; group_order := λ _, 251;
    is_point := λ _ (p : @EcPoint _ toy_openssl) q, p = q;
    public_of := λ _ (k : @EcKey _ toy_openssl) q, k.2 = q;
    private_of := λ _ (k : @EcKey _ toy_openssl) d, be_decode k.1 = d;
    ec_pkey := λ (pk : @PKey toy_libcrypto) (k : @EcKey _ toy_openssl), pk = EcPKey k.1 k.2;
    deriving := λ (d : @Deriver _ toy_openssl) k, d = (k, None);
    deriving_with := λ (d : @Deriver _ toy_openssl) k (peer : @EcKey _ toy_openssl), d = (k, Some peer.2);
    rsa_key := λ (r : @Rsa _ toy_openssl) n e, be_decode r.1 = n ∧ be_decode r.2 = e;
    rsa_pkey := λ (pk : @PKey toy_libcrypto) (r : @Rsa _ toy_openssl), pk = RsaPKey r.1 r.2;
    setting := λ (c : @PkeyCtx _ toy_openssl) s, c = s;
    oaep_cipher := λ _ _ _ _ _ m c, c = take (length c) (m ++ replicate (length c) x00) |};
    try (by intros; subst; simpl); try (intros; subst; simpl; done).
  - by apply (bool_decide_unpack _).
  - intros n g Hn. simpl. destruct (Z.leb_spec n (zlen g)); simpl; [by apply zlen_take | done].
  - intros b Hb. simpl in Hb |- *. lia.
  - intros z Hz. simpl. apply be_decode_encode. unfold u32_max in Hz. simpl. lia.
  - intros g k _. pose proof (Z.mod_pos_bound k 251 ltac:(lia)).
    change (2 ^ (8 * coordinate_bytes (EcGroup_degree g))) with 256. simpl. lia.
  - intros _ a b _ _. apply toy_dh_comm.
  - by intros ? [] ->.
  - intros pk r n e k -> [<- _] Hk Hn. by apply toy_size_le.
  - by intros ? [] ->.
  - intros c r n e pk md md' label m buf _ _ _ _. simpl.
    set (out := take (length buf) (m ++ replicate (length buf) x00)).
    assert (length out = length buf) as Ho.
    { unfold out. rewrite length_take, length_app, length_replicate. lia. }
    pose proof (zlen_nonneg buf). split; [lia|]. unfold zlen. rewrite Nat2Z.id.
    rewrite (take_ge out) by lia. by rewrite Ho.
Defined.

(** ** Numbers and names *)

#[export] Instance toy_biguint : BigUintLib := {|
  BigUint := N;
  BigUint_from_bytes_be bs := Z.to_N (be_decode bs);
  BigUint_from_u8 z := Z.to_N z;
  BigUint_to_be_bytes a := be_encode (N.to_nat (N.size a / 8 + 1)) (Z.of_N a);
  BigUint_lt a b := (a <? b)%N;
  BigUint_sub a b := (a - b)%N;
  BigUint_add a b := (a + b)%N;
  BigUint_bits a := Z.of_N (N.size a)
|}.

#[export] Instance toy_biguint_ok : BigUintLibOk.
Proof.
  refine {| big_val := Z.of_N : @BigUint toy_biguint → Z |}; simpl.
  - intros. apply N2Z.is_nonneg.
  - intros bs. apply Z2N.id. apply be_decode_bound.
  - intros. apply Z2N.id. lia.
  - intros a. apply be_decode_encode. split; [apply N2Z.is_nonneg|].
    pose proof (N.size_gt a) as Hs. apply N2Z.inj_lt in Hs. rewrite N2Z.inj_pow in Hs.
    eapply Z.lt_le_trans; [exact Hs|]. apply Z.pow_le_mono_r; [done|].
    pose proof (N.div_mod (N.size a) 8 ltac:(lia)). pose proof (N.mod_lt (N.size a) 8 ltac:(lia)). lia.
  - intros a b. apply Bool.eq_true_iff_eq. rewrite N.ltb_lt, Z.ltb_lt. apply N2Z.inj_lt.
  - intros a b Hb. apply N2Z.inj_sub. lia.
  - intros. apply N2Z.inj_add.
  - intros a Ha. pose proof (N.size_gt a) as Hs. apply N2Z.inj_lt in Hs. rewrite N2Z.inj_pow in Hs. split; [|exact Hs].
    pose proof (N.size_log2 a ltac:(lia)) as Hl. pose proof (N.log2_spec a ltac:(lia)) as [Hs2 _].
    apply N2Z.inj_le in Hs2. rewrite N2Z.inj_pow in Hs2.
    rewrite Hl, N2Z.inj_succ. by replace (Z.succ (Z.of_N (N.log2 a)) - 1) with (Z.of_N (N.log2 a)) by lia.
Defined.

Definition curves : list (TpmEllipticCurve.t * str) :=
  [(TpmEllipticCurve.NistP192, lit "nist-p192"); (TpmEllipticCurve.NistP224, lit "nist-p224");
   (TpmEllipticCurve.NistP256, lit "nist-p256"); (TpmEllipticCurve.NistP384, lit "nist-p384");
   (TpmEllipticCurve.NistP521, lit "nist-p521"); (TpmEllipticCurve.BnP256, lit "bn-p256");
   (TpmEllipticCurve.BnP638, lit "bn-p638"); (TpmEllipticCurve.Sm2P256, lit "sm2-p256");
   (TpmEllipticCurve.BpP256R1, lit "bp-p256-r1"); (TpmEllipticCurve.BpP384R1, lit "bp-p384-r1");
   (TpmEllipticCurve.BpP512R1, lit "bp-p512-r1"); (TpmEllipticCurve.Curve25519, lit "curve25519");
   (TpmEllipticCurve.Curve448, lit "curve448")].
Definition curve_name (c : TpmEllipticCurve.t) : str :=
  match list_find (λ p, p.1 = c) curves with Some (_, (_, name)) => name | None => [] end.
Definition curve_named (s : str) : option TpmEllipticCurve.t :=
  match list_find (λ p, p.2 = s) curves with Some (_, (c, _)) => Some c | None => None end.

Definition toy_curve_text : CurveText := Build_CurveText curve_name curve_named.
Lemma toy_curve_text_ok : @CurveTextOk toy_curve_text.
Proof.
  split; simpl.
  - by intros [].
  - intros s c. unfold curve_named. destruct (list_find _ _) as [[i [c' name]]|] eqn:E; [|done].
    intros [= ->]. apply list_find_Some in E as (Hl & <- & _).
    do 13 (destruct i as [|i]; [simpl in Hl; injection Hl as <- <-; reflexivity|]). done.
  - by intros []; repeat constructor.
Qed.

#[local] Existing Instances sample_text sample_text_ok toy_curve_text toy_curve_text_ok.

(** ** The text of templates *)

(** C30.  [from_str] reads exactly the texts of the template language
    ([describes]): [rsa-BITS:HASH], [ecc-CURVE:HASH] and
    [keyedhash-SCHEME:HASH], where an asymmetric key without a scheme is a
    restricted decryption key, and one with a scheme gets the usage of that
    scheme.  Any other text is refused as an invalid object type; there is no
    panic and no other error. *)
Theorem template_parse_exact `{TextLib} `{CurveText} (s : str) :
  (∀ tm, TpmPublicTemplate.from_str s = Ok tm ↔ describes s tm) ∧
  (TpmPublicTemplate.from_str s = Err TpmCryptoError.InvalidObjectType ∨
   ∃ tm, TpmPublicTemplate.from_str s = Ok tm).
Proof.
  pose proof (from_str_outcome s) as Ho. split.
  - intros tm. split; [|apply from_str_describes]. intros Hs. by rewrite Hs in Ho.
  - destruct (TpmPublicTemplate.from_str s) as [tm|e|]; [right; by exists tm | left; by rewrite Ho | done].
Qed.

(** C31.  A template that was read is printed as a text that is read as that
    template again, but for a key size of zero, which is read and not
    printed.  Any template (of a live key, say) whose scheme fits its type is
    printed as a text that is read as a template with the same algorithms:
    the name algorithm, the key size or curve, the scheme, and whether it is
    a storage parent. *)
Theorem template_text_roundtrip `{TextLibOk} `{CurveTextOk} (tm : TpmPublicTemplate.t) (s : str) :
  (TpmPublicTemplate.from_str s = Ok tm →
     (zero_size tm = true →
        TpmPublicTemplate.to_string tm = Err (TpmCryptoError.InvalidKeyBits 0)) ∧
     (zero_size tm = false →
        ∃ s', TpmPublicTemplate.to_string tm = Ok s' ∧ TpmPublicTemplate.from_str s' = Ok tm)) ∧
  (consistent tm = true → fitting tm = true → TpmPublicTemplate.to_string tm = Ok s →
     ∃ tm', TpmPublicTemplate.from_str s = Ok tm' ∧ same_algorithms tm tm' ∧
       TpmPublicTemplate.to_string tm' = Ok s).
Proof.
  split.
  - intros Hs. pose proof (from_str_outcome s) as Hd. rewrite Hs in Hd. simpl in Hd.
    destruct (describes_printable s tm Hd) as [Hz Hp]. split; [done|].
    intros [s' Hs']%Hp. exists s'. split; [done|]. destruct (describes_sound s tm Hd) as [Hc Hf].
    destruct (to_string_describes tm s' Hc Hf Hs') as (tm' & Hd' & Hsame).
    rewrite (describes_determined s s' tm tm' Hd Hd' Hsame) in *. by apply from_str_describes.
  - intros Hc Hf Hs. destruct (to_string_describes tm s Hc Hf Hs) as (tm' & Hd & Hsame).
    exists tm'. split; [by apply from_str_describes|]. split; [done|]. by rewrite <-(to_string_same _ _ Hsame).
Qed.

(** A text with a leading zero, and the ECC storage parent. *)
Lemma template_text_roundtrip_witness :
  (∃ tm, TpmPublicTemplate.from_str (lit "rsa-02048:sha256:oaep") = Ok tm ∧
     ∃ s', TpmPublicTemplate.to_string tm = Ok s' ∧ TpmPublicTemplate.from_str s' = Ok tm) ∧
  (∃ tm', TpmPublicTemplate.from_str (lit "ecc-nist-p256:sha256") = Ok tm' ∧
     TpmPublicTemplate.is_storage_parent tm' = true).
Proof.
  split.
  - exists (rsa_template 2048 TpmHash.Sha256 TpmAlgId.Oaep TpmaObject.DECRYPT). split; [vm_compute; reflexivity|].
    eapply (proj1 (template_text_roundtrip _ (lit "rsa-02048:sha256:oaep"))); vm_compute; reflexivity.
  - destruct (proj2 (template_text_roundtrip
      (ecc_template TpmEllipticCurve.NistP256 TpmHash.Sha256 TpmAlgId.Null parent_usage)
      (lit "ecc-nist-p256:sha256"))) as (tm' & Hs & (_ & Hp & _) & _); [vm_compute; reflexivity..|].
    exists tm'. split; [exact Hs|]. rewrite <-Hp. vm_compute. reflexivity.
Defined.

(** ** Random numbers *)

(** [gen_biguint_range] samples uniformly from [low, high): the result
    is [low] plus the first number below [high - low] among the drawn ones,
    each a string of bytes modulo a power of two; every number below
    [high - low] comes from the same number of strings, and at least half of
    the strings are accepted.  Only libcrypto can fail, it goes on only while
    every draw is rejected, and an empty range is refused. *)
Theorem random_range `{OpensslOk} `{BigUintLibOk} (low high : BigUint) :
  let range := BigUint_sub high low in
  let n := sample_len (BigUint_bits range) in
  let number b := be_decode b `mod` 2 ^ BigUint_bits range in
  let size := big_val high - big_val low in
  (size ≤ 0 → ∀ fuel g,
     gen_biguint_range fuel low high g = Some (Err TpmCryptoError.InvalidRandomRange, g)) ∧
  (0 < size → BigUint_bits range ≤ u64_max →
     (∀ fuel g bufs b g', drawn n g (bufs ++ [b]) g' → Forall (λ b, size ≤ number b) bufs →
        number b < size → (length bufs < fuel)%nat →
        ∃ v, gen_biguint_range fuel low high g = Some (Ok v, g') ∧ big_val v = big_val low + number b) ∧
     (∀ fuel g r g', gen_biguint_range fuel low high g = Some (r, g') →
        outcome is_crypto (λ v, big_val low ≤ big_val v < big_val high) r) ∧
     (∀ fuel g, gen_biguint_range fuel low high g = None →
        ∃ bufs g', drawn n g bufs g' ∧ length bufs = fuel ∧ Forall (λ b, size ≤ number b) bufs) ∧
     (∀ v b, 0 ≤ v < size → zlen b = n →
        number b = v ↔ ∃ k, 0 ≤ k < 2 ^ (8 * n - BigUint_bits range) ∧
          b = be_encode (Z.to_nat n) (v + k * 2 ^ BigUint_bits range)) ∧
     2 ^ BigUint_bits range ≤ 2 * size).
Proof.
  intros range n number size. split.
  - intros Hs fuel g. unfold gen_biguint_range. rewrite big_lt, (proj2 (Z.ltb_ge _ _)) by (unfold size in Hs; lia). done.
  - intros Hs Hu. destruct (gen_range_setup low high) as (Hl & Hr & Hb & Hbits); [unfold size in Hs; lia|].
    fold range in Hr, Hb, Hbits. assert (big_val range = size) as Hsize by done. clear Hr.
    pose proof (sample_split (BigUint_bits range) (conj Hb Hu)) as (r & Hr & Hbr & Hn & _). fold n in Hbr, Hn.
    split_and!.
    + intros fuel g bufs b g' Hd Hf Hlt Hfuel. unfold gen_biguint_range. rewrite Hl. cbn [negb]. fold range n.
      apply (sample_accepts fuel _ low range bufs); rewrite ?Hsize; done.
    + intros fuel g r' g' Hg. eapply gen_range_bounds; [unfold size in Hs; lia | exact Hu | exact Hg].
    + intros fuel g. unfold gen_biguint_range. rewrite Hl. cbn [negb]. fold range n.
      intros Hg%sample_none; [|done]. by rewrite Hsize in Hg.
    + intros v b Hv Hlen. pose proof (residue_strings (Z.to_nat n) (BigUint_bits range) v b) as Hres.
      rewrite Z2Nat.id in Hres by lia. apply Hres; [lia.. | unfold zlen in Hlen; lia].
    + lia.
Qed.

Definition big (n : N) : @BigUint toy_biguint := n.
Definition tape (bs : list byte) : @Rng _ toy_openssl := bs.

(** From 1 to 250: the draw of 255 is rejected, the draw of 9 gives 10. *)
Lemma random_range_witness :
  ∃ v, gen_biguint_range 2 (big 1) (big 251) (tape [xff; x09; x33]) = Some (Ok v, tape [x33]) ∧ big_val v = 10.
Proof.
  destruct (proj2 (random_range (big 1) (big 251))) as (Ha & _); [vm_compute; reflexivity | by vm_compute |].
  apply (Ha 2%nat _ [[xff]] [x09]).
  - repeat (eapply drawn_cons; [vm_compute; reflexivity|]). apply drawn_nil.
  - repeat constructor. vm_compute. discriminate.
  - vm_compute. reflexivity.
  - simpl. lia.
Defined.

(** ** Seeds of an import *)

(** C15.  The seed that [TpmEccExternalKey::to_seed] makes for a parent is the
    one the TPM that holds the parent's private key [d] computes from the
    secret, the marshalled ephemeral point: both derive it with [KDFe] from
    the shared x-coordinate, the label and the two public x-coordinates.  The
    key's curve is supported, its point is that of [d], and the hash has a
    digest.  The only errors are those of libcrypto.  The search for the
    ephemeral key, of which [fuel] rounds are looked at, goes on only while
    every random number that was drawn is out of range: it has ended when one
    of them is below the group's order less one. *)
Theorem ecc_seed_agrees {L : Libcrypto} {LO : LibcryptoOk} {O : Openssl} {OO : OpensslOk}
    {B : BigUintLib} {BO : BigUintLibOk} (self : TpmEccExternalKey) (h : TpmHash.t) (nid : Nid)
    (g : EcGroup) (d : Z) (fuel : nat) (rng : Rng) :
  curve_to_nid (curve self) = Ok nid → EcGroup_from_curve_name nid = Ok g →
  0 < TpmHash.size h → 0 < d < group_order g → point_holds g (unique self) (gen g d) →
  match to_seed fuel self h rng with
  | Some (r, _) =>
      outcome is_crypto
        (λ '(seed, secret),
           tpm_recover_seed g d h (TpmBuffer.deref (point_x (unique self))) (TpmBuffer.deref secret) =
             Some (TpmBuffer.deref seed)) r
  | None => ∃ order bufs rng', big_val order = group_order g ∧
      let bits := BigUint_bits (BigUint_sub order (BigUint_from_u8 1)) in
      drawn (sample_len bits) rng bufs rng' ∧ length bufs = fuel ∧
      Forall (λ b, group_order g - 1 ≤ be_decode b `mod` 2 ^ bits) bufs
  end.
Proof.
  intros Hnid Hg Hs Hd Hp. destruct (to_seed fuel self h rng) as [[r rng']|] eqn:E.
  - exact (ecc_to_seed_spec fuel self h nid g d rng r rng' Hnid Hg Hs Hd Hp E).
  - exact (ecc_to_seed_waits fuel self h nid g rng Hnid Hg E).
Qed.

Definition ecc_buffer (bs : list byte) : ty Tpm2bEccParameter :=
  TpmBuffer.mk (zlen bs) (map Some bs ++ uninit (MAX_ECC_KEY_BYTES - zlen bs)).

(** The key 7 of the toy group; its point is (7, 7). *)
Definition toy_parent : @TpmEccExternalKey :=
  mk_ecc_key TpmEllipticCurve.NistP256 (ecc_point (ecc_buffer [x07]) (ecc_buffer [x07])).

Lemma ecc_buffer_holds b : TpmBuffer.holds MAX_ECC_KEY_BYTES (ecc_buffer [b]) [b].
Proof. split_and!; [done | | by vm_compute]. split; [by vm_compute | done]. Qed.

Definition toy_agreement : option (result TpmCryptoError.t (ty Tpm2bDigest * ty Tpm2bEncryptedSecret) * Rng) :=
  to_seed 2 toy_parent TpmHash.Sha256 (tape [xff; x09; x33]).

Lemma ecc_seed_agrees_witness :
  match toy_agreement with
  | Some (Ok (seed, secret), _) =>
      TpmBuffer.deref secret = [x00; x01; x0a; x00; x01; x0a] ∧
      tpm_recover_seed () 7 TpmHash.Sha256 [x07] (TpmBuffer.deref secret) = Some (TpmBuffer.deref seed)
  | _ => False
  end.
Proof.
  pose proof (ecc_seed_agrees toy_parent TpmHash.Sha256 3 () 7 2 (tape [xff; x09; x33])) as Ha.
  assert (∃ seed secret rng', toy_agreement = Some (Ok (seed, secret), rng') ∧
    TpmBuffer.deref secret = [x00; x01; x0a; x00; x01; x0a]) as (seed & secret & rng' & Ht & Hs).
  { eexists _, _, _. split; [vm_compute; reflexivity | vm_compute; reflexivity]. }
  specialize (Ha eq_refl eq_refl eq_refl (conj eq_refl eq_refl) (conj (ecc_buffer_holds x07) (ecc_buffer_holds x07))).
  change (to_seed 2 toy_parent TpmHash.Sha256 (tape [xff; x09; x33])) with toy_agreement in Ha.
  rewrite Ht in *. split; [exact Hs | exact Ha].
Defined.

(** C17.  [TpmRsaExternalKey::to_seed] draws a seed of the size of the digest
    and encrypts it with OAEP for the key: its modulus, its exponent (zero
    stands for 65537), the digest for both the padding and the mask, and the
    label of a duplication with its terminating zero.  The only errors are
    those of libcrypto, and a digest it has no [Md] for. *)
Theorem rsa_seed_encrypted {L : Libcrypto} {LO : LibcryptoOk} {O : Openssl} {OO : OpensslOk}
    (self : TpmRsaExternalKey) (h : TpmHash.t) (fuel : nat) (rng : Rng) :
  zlen (TpmBuffer.deref (public_key self)) ≤ MAX_RSA_KEY_BYTES →
  length (TpmInt.bytes (exponent self)) = 4%nat →
  ∃ r, to_seed fuel self h rng = Some r ∧
    st_outcome (λ e _, oaep_failure h e)
      (λ '(seed, secret) rng',
         (∃ bytes, rand_bytes (TpmHash.size h) rng = (Ok bytes, rng') ∧ TpmBuffer.deref seed = bytes) ∧
         zlen (TpmBuffer.deref seed) = TpmHash.size h ∧
         ∃ md, Md_from_nid (md_type (TpmHash.to_md h)) = Some md ∧
           oaep_cipher (be_decode (TpmBuffer.deref (public_key self)))
             (effective_exponent (TpmInt.value 4 false (exponent self))) md md
             (bytes_lit "DUPLICATE" ++ [x00]) (TpmBuffer.deref seed) (TpmBuffer.deref secret)) r.
Proof. intros Hl He. eexists. split; [done|]. by apply rsa_to_seed_spec. Qed.

Definition rsa_buffer (bs : list byte) : ty Tpm2bPublicKeyRsa :=
  TpmBuffer.mk (zlen bs) (map Some bs ++ uninit (MAX_RSA_KEY_BYTES - zlen bs)).
Definition toy_rsa_key : TpmRsaExternalKey :=
  mk_rsa_key (rsa_buffer [xc1; x05; x77]) (TpmInt.new 4 0) (TpmInt.new 2 24).

Lemma rsa_seed_encrypted_witness :
  ∃ seed secret, to_seed 0 toy_rsa_key TpmHash.Sha1 (tape (replicate 21 x41)) = Some (Ok (seed, secret), [x41]) ∧
    TpmBuffer.deref seed = replicate 20 x41.
Proof.
  destruct (rsa_seed_encrypted toy_rsa_key TpmHash.Sha1 0 (tape (replicate 21 x41))) as (r & Hr & Ho);
    [by vm_compute | reflexivity |].
  assert (∃ seed secret, to_seed 0 toy_rsa_key TpmHash.Sha1 (tape (replicate 21 x41)) = Some (Ok (seed, secret), [x41]))
    as (seed & secret & Hs) by (eexists _, _; vm_compute; reflexivity).
  exists seed, secret. split; [exact Hs|]. rewrite Hs in Hr. injection Hr as <-.
  destruct Ho as ((bytes & Hb & Hd) & _). rewrite Hd. vm_compute in Hb. injection Hb as <-. reflexivity.
Defined.

(** ** Public areas *)

(** C32.  The public area made from an external key and a template that was
    read from text can be marshalled; the key is read back from it (an RSA
    key with the exponent 65537 written as zero), and a template that gives
    the same public area, with the name algorithm and the attributes of the
    first.  An RSA key is accepted exactly when its size is a positive
    multiple of eight bits, its modulus has that size, and its exponent is
    zero or odd and at least three. *)
Theorem key_public_roundtrip `{Openssl} `{!TextLib} `{!CurveText} (s : str) (tm : TpmPublicTemplate.t) :
  TpmPublicTemplate.from_str s = Ok tm →
  let read_back p :=
    is_Some (wire TpmtPublic p) ∧
    ∃ tm', TpmPublicTemplate.try_from p = Ok tm' ∧ TpmPublicTemplate.to_public tm' = Ok p ∧
      TpmPublicTemplate.name_alg tm' = TpmPublicTemplate.name_alg tm ∧
      TpmPublicTemplate.object_attributes tm' = TpmPublicTemplate.object_attributes tm in
  (∀ k : TpmRsaExternalKey,
     rsa_try_new (public_key k) (exponent k) (key_bits k) = Ok k →
     length (TpmInt.bytes (exponent k)) = 4%nat → length (TpmInt.bytes (key_bits k)) = 2%nat →
     is_Some (wire Tpm2bPublicKeyRsa (public_key k)) →
     rsa_valid k ∧ read_back (to_public k tm) ∧
     rsa_try_from_public (to_public k tm) = Ok (normal_rsa k) ∧
     (TpmInt.value 4 false (exponent k) ≠ 65537 → normal_rsa k = k)) ∧
  (∀ k : TpmRsaExternalKey,
     rsa_valid k → rsa_try_new (public_key k) (exponent k) (key_bits k) = Ok k) ∧
  (∀ (B : BigUintLib) (k : TpmEccExternalKey),
     ecc_try_new (curve k) (unique k) = Ok k → is_Some (wire TpmsEccPoint (unique k)) →
     read_back (to_public k tm) ∧ ecc_try_from_public (to_public k tm) = Ok k).
Proof.
  intros Hs read_back. pose proof (from_str_outcome s) as Hd. rewrite Hs in Hd. simpl in Hd.
  destruct (described_fields s tm Hd) as ((h & Hh) & _).
  assert (∀ p, is_Some (wire TpmtPublic p) → TpmtPublic.name_alg p = TpmPublicTemplate.name_alg tm →
    TpmtPublic.object_attributes p = TpmPublicTemplate.object_attributes tm →
    TpmtPublic.object_type p ≠ TpmAlgId.Null → read_back p) as Hback.
  { intros p [bs Hw] Hn Ha Ho. split; [by exists bs|]. apply public_wire_Some in Hw as (Hp & Hu & _).
    destruct (template_of_public p h) as (tm' & Ht & Hp' & _ & Hn' & _ & Ha'); [|done..|].
    - rewrite Hn, Hh. apply hash_try_from.
    - exists tm'. by rewrite Hn', Ha'. }
  split_and!.
  - intros k Hv%rsa_try_new_valid He Hk Hn. split; [done|]. split; [|split].
    + apply Hback; [by eapply rsa_public_wire | done..].
    + by apply rsa_public_back.
    + by apply normal_rsa_id.
  - intros k. apply rsa_try_new_valid.
  - intros B k Hk Hu. split; [|by apply ecc_public_back].
    apply Hback; [by eapply ecc_public_wire | done..].
Qed.

Lemma key_public_roundtrip_witness :
  ∃ tm, TpmPublicTemplate.from_str (lit "rsa-2048:sha256:rsassa") = Ok tm ∧
    is_Some (wire TpmtPublic (to_public toy_rsa_key tm)) ∧
    rsa_try_from_public (to_public toy_rsa_key tm) = Ok toy_rsa_key.
Proof.
  eexists. split; [vm_compute; reflexivity|].
  edestruct (key_public_roundtrip (lit "rsa-2048:sha256:rsassa")) as (Hr & _); [vm_compute; reflexivity|].
  destruct (Hr toy_rsa_key) as (_ & (Hw & _) & Hk & _);
    [vm_compute; reflexivity | reflexivity | reflexivity | eexists; vm_compute; reflexivity|].
  split; [exact Hw | exact Hk].
Defined.
