(* ===== verification/TpmKey.v ===== *)
(** TPM key files: [tpmkey/src/lib.rs], [policy.rs], [asn1.rs] and the error
    type of [error.rs].

    A key file is DER or PEM around an ASN.1 structure.  The rasn and pem
    crates are not part of the repository: they are the fields of [KeyCodec],
    with their documented behaviour in [KeyCodecOk]. *)

From Stdlib Require Import Ascii String.
From S2P Require Import Prelude State Errors Writer Codec Integer Buffer Struct EnumMacro Union Enums.
From S2P Require Import BasicTypes Schemes Structures Hash Text Marshal.

(** ** [asn1.rs] *)

(** [rasn::prelude::ObjectIdentifier]: the arcs *)
Definition ObjectIdentifier : Type := list Z.

Record TpmKeyCommandAsn1 := mk_command_asn1 { command_code : Z; command_policy : list byte }.

Record TpmAuthPolicyAsn1 := mk_auth_policy_asn1 {
  asn1_name : option str;
  asn1_commands : list TpmKeyCommandAsn1
}.

Record TpmKeyAsn1 := mk_key_asn1 {
  key_type : ObjectIdentifier;
  asn1_empty_auth : option bool;
  asn1_policy : option (list TpmKeyCommandAsn1);
  asn1_secret : option (list byte);
  asn1_auth_policy : option (list TpmAuthPolicyAsn1);
  asn1_description : option str;
  asn1_rsa_parent : option bool;
  asn1_parent : Z;
  pubkey : list byte;
  privkey : list byte
}.

(** ** [rasn] and [pem] *)

Class KeyCodec := {
  DecodeError : Type;
  EncodeError : Type;
  PemError : Type;
  (** [rasn::der::encode] and [rasn::ber::decode] *)
  der_encode : TpmKeyAsn1 → result EncodeError (list byte);
  ber_decode : list byte → result DecodeError TpmKeyAsn1;
  (** [pem::parse]: tag and contents; [pem::encode_config] with line feeds *)
  pem_parse : list byte → result PemError (str * list byte);
  pem_encode : str → list byte → str;
  (** [String::as_bytes] *)
  as_bytes : str → list byte
}.

(** A structure that exists in memory: its integers are [u32]s, its strings of
    octets no longer than [isize::MAX]. *)
Definition asn1_ok (a : TpmKeyAsn1) : Prop :=
  0 ≤ asn1_parent a ≤ u32_max ∧ zlen (pubkey a) ≤ isize_max ∧ zlen (privkey a) ≤ isize_max.

(** What was encoded is decoded again, and nothing panics. *)
Class KeyCodecOk `{KeyCodec} : Prop := {
  ber_decode_ok a bs : ber_decode bs = Ok a → asn1_ok a;
  ber_decode_encode a bs : asn1_ok a → der_encode a = Ok bs → ber_decode bs = Ok a;
  der_encode_no_panic a : der_encode a ≠ Panic;
  ber_decode_no_panic bs : ber_decode bs ≠ Panic;
  pem_parse_encode tag bs : pem_parse (as_bytes (pem_encode tag bs)) = Ok (tag, bs);
  pem_parse_no_panic bs : pem_parse bs ≠ Panic
}.

Definition OID_LOADABLE_KEY : ObjectIdentifier := [2; 23; 133; 10; 1; 3].
Definition OID_IMPORTABLE_KEY : ObjectIdentifier := [2; 23; 133; 10; 1; 4].
Definition OID_SEALED_DATA : ObjectIdentifier := [2; 23; 133; 10; 1; 5].

Module TpmKeyType.
Inductive t := Loadable | Importable | SealedData.

#[global] Instance eq_dec : EqDecision t.
Proof. solve_decision. Defined.
End TpmKeyType.

(** ** [enum TpmKeyError] *)

Module TpmKeyError.
Inductive t `{KeyCodec} : Type :=
| InvalidCc (cc : Z)
| InvalidOid (oid : ObjectIdentifier)
| InvalidKeyAlgorithm (kind : TpmKeyType.t) (alg : TpmAlgId.t)
| Asn1DecodingFailed (e : DecodeError)
| Asn1EncodingFailed (e : EncodeError)
| InvalidPemTag (tag : str)
| InvalidPolicy
| MissingSecret
| UnexpectedSecret
| InvalidSecret
| Marshal (e : TpmError)
| PemDecodingFailed (e : PemError)
| Unmarshal (e : TpmError).
End TpmKeyError.

(** ** [policy.rs] *)

Record TpmKeyPolicyCommand := mk_command { cc : TpmCc.t; body : list byte }.
Record TpmKeyAuthPolicy := mk_auth_policy { name : option str; policy : list TpmKeyPolicyCommand }.

Definition empty_auth_policy : TpmKeyAuthPolicy := mk_auth_policy None [].

(** [matches!(cc, ...)] of [TryFrom<&TpmKeyCommandAsn1>] *)
Definition is_policy (cc : TpmCc.t) : bool :=
  match cc with
  | TpmCc.PolicyNv | TpmCc.PolicySecret | TpmCc.PolicySigned | TpmCc.PolicyAuthorize
  | TpmCc.PolicyAuthValue | TpmCc.PolicyCommandCode | TpmCc.PolicyCounterTimer
  | TpmCc.PolicyCpHash | TpmCc.PolicyLocality | TpmCc.PolicyNameHash | TpmCc.PolicyOr
  | TpmCc.PolicyTicket | TpmCc.PolicyPcr | TpmCc.PolicyRestart | TpmCc.PolicyPhysicalPresence
  | TpmCc.PolicyDuplicationSelect | TpmCc.PolicyGetDigest | TpmCc.PolicyPassword
  | TpmCc.PolicyNvWritten | TpmCc.PolicyTemplate | TpmCc.PolicyAuthorizeNv
  | TpmCc.PolicyAcSendSelect | TpmCc.PolicyCapability | TpmCc.PolicyParameters
  | TpmCc.PolicyTransportSpdm => true
  | _ => false
  end.

Section tpmkey.
Context `{KeyCodec}.
Abbreviation Res := (result TpmKeyError.t).

(** [iter().map(f).collect::<Result<Vec<_>, _>>()]: stops at the first error. *)
Fixpoint collect {A B} (f : A → Res B) (xs : list A) : Res (list B) :=
  match xs with
  | [] => Ok []
  | x :: xs => let? y := f x in let? ys := collect f xs in Ok (y :: ys)
  end.

(** [TryFrom<&TpmKeyCommandAsn1> for TpmKeyPolicyCommand] *)
Definition command_try_from (val : TpmKeyCommandAsn1) : Res TpmKeyPolicyCommand :=
  let? cc := map_err (λ _, TpmKeyError.InvalidCc (command_code val))
               (try_from TpmCc.t (command_code val)) in
  if negb (is_policy cc) then Err (TpmKeyError.InvalidCc (command_code val))
  else Ok (mk_command cc (command_policy val)).

(** [From<&TpmKeyPolicyCommand> for TpmKeyCommandAsn1] *)
Definition command_to_asn1 (c : TpmKeyPolicyCommand) : TpmKeyCommandAsn1 :=
  mk_command_asn1 (value (cc c)) (body c).

(** [TryFrom<&TpmAuthPolicyAsn1>] and [TryFrom<&[TpmKeyCommandAsn1]>] for
    [TpmKeyAuthPolicy] *)
Definition auth_policy_try_from (val : TpmAuthPolicyAsn1) : Res TpmKeyAuthPolicy :=
  let? cmds := collect command_try_from (asn1_commands val) in
  Ok (mk_auth_policy (asn1_name val) cmds).
Definition auth_policy_try_from_commands (cmds : list TpmKeyCommandAsn1) : Res TpmKeyAuthPolicy :=
  let? cmds := collect command_try_from cmds in
  Ok (mk_auth_policy None cmds).

(** [From<&TpmKeyAuthPolicy>] for [TpmAuthPolicyAsn1] and for
    [Vec<TpmKeyCommandAsn1>] *)
Definition auth_policy_to_asn1 (p : TpmKeyAuthPolicy) : TpmAuthPolicyAsn1 :=
  mk_auth_policy_asn1 (name p) (map command_to_asn1 (policy p)).
Definition auth_policy_to_commands (p : TpmKeyAuthPolicy) : list TpmKeyCommandAsn1 :=
  map command_to_asn1 (policy p).

(** ** [lib.rs] *)

(** A [Vec<u8>] as a slice; its address does not matter. *)
Definition as_slice (bs : list byte) : slice := mk_slice 0 bs.

Definition tpm_public_alg (buf : slice) : TpmResult TpmAlgId.t :=
  let? public := Tpm2bStruct.cast TpmtPublic buf in
  let? inner := Tpm2bStruct.inner_view TpmtPublic public in
  Ok (TpmtPublic.v_object_type inner).

Definition tpm_private (buf : slice) : TpmResult () := Tpm2b.validate MAX_PRIVATE_SIZE buf.

(** [tpm_marshal_array] of [asn1.rs], for the one object it is called with *)
Definition tpm_marshal_array (c : Codec) (obj : ty c) : Res (list byte) :=
  let (r, writer) :=
    marshal c obj (writer_new (TpmHash.zeroed TPM_MAX_COMMAND_SIZE)) in
  let? _ := map_err TpmKeyError.Marshal r in
  Ok (take (Z.to_nat (writer_len writer)) (buffer writer)).

(** [unwrap_or_default()] of a vector *)
Definition unwrap_or_default (r : Res (list byte)) : Res (list byte) :=
  match r with
  | Ok bs => Ok bs
  | Err _ => Ok []
  | Panic => Panic
  end.

Definition tpm_validate_secret (kind : TpmKeyType.t) (secret : list byte) : Res () :=
  let checked :=
    match secret with
    | b0 :: b1 :: _ =>
        let payload_len := be_decode [b0; b1] in
        if negb (zlen secret =? payload_len + 2) || (MAX_RSA_KEY_BYTES <? payload_len)
        then Err TpmKeyError.InvalidSecret else Ok ()
    | _ => Err TpmKeyError.InvalidSecret
    end in
  match kind, bool_decide (secret = []) with
  | TpmKeyType.Loadable, false => Err TpmKeyError.UnexpectedSecret
  | TpmKeyType.Loadable, true => Ok ()
  | TpmKeyType.Importable, true => Err TpmKeyError.MissingSecret
  | TpmKeyType.SealedData, true => Ok ()
  | (TpmKeyType.Importable | TpmKeyType.SealedData), false => checked
  end.

End tpmkey.

(** ** [struct TpmKeyFile] *)

Module TpmKeyFile.
Record t := mk {
  kind : TpmKeyType.t;
  empty_auth : bool;
  policy : list TpmKeyPolicyCommand;
  secret : list byte;
  auth_policy : option (list TpmKeyAuthPolicy);
  description : option str;
  public : list byte;
  private : list byte;
  public_alg : TpmAlgId.t;
  parent : TpmInt.t;
  rsa_parent : bool
}.

Section key_file.
Context `{KeyCodec}.
Abbreviation Res := (result TpmKeyError.t).

(** [Tpm2bPublic::default()] *)
Definition public_default : ty Tpm2bPublic :=
  Tpm2bStruct.mk (TpmtPublic.mk TpmAlgId.Null TpmAlgId.Null Bitflags.empty
    (TpmBuffer.new MAX_DIGEST_SIZE) TpmuPublicParms.Null TpmuPublicId.Null).

Definition public_type (public : ty Tpm2bPublic) : TpmAlgId.t :=
  TpmtPublic.object_type (Tpm2bStruct.inner public).

Definition new : Res t :=
  let public := public_default in
  let? public_bytes := unwrap_or_default (tpm_marshal_array Tpm2bPublic public) in
  let? private_bytes :=
    unwrap_or_default (tpm_marshal_array Tpm2bPrivate (TpmBuffer.new MAX_PRIVATE_SIZE)) in
  Ok (mk TpmKeyType.Loadable false [] [] None None public_bytes private_bytes
        (public_type public) (TpmInt.new 4 0) false).

Definition with_kind (kind : TpmKeyType.t) (self : t) : t :=
  mk kind (empty_auth self) (policy self) (secret self) (auth_policy self) (description self)
    (public self) (private self) (public_alg self) (parent self) (rsa_parent self).

Definition set_public (public : list byte) (public_alg : TpmAlgId.t) (self : t) : t :=
  mk (kind self) (empty_auth self) (policy self) (secret self) (auth_policy self) (description self)
    public (private self) public_alg (parent self) (rsa_parent self).
Definition set_private (private : list byte) (self : t) : t :=
  mk (kind self) (empty_auth self) (policy self) (secret self) (auth_policy self) (description self)
    (public self) private (public_alg self) (parent self) (rsa_parent self).

Definition set_secret (secret : list byte) (self : t) : t :=
  mk (kind self) (empty_auth self) (policy self) secret (auth_policy self) (description self)
    (public self) (private self) (public_alg self) (parent self) (rsa_parent self).

Definition with_public (public : ty Tpm2bPublic) (self : t) : Res t :=
  let? bytes := unwrap_or_default (tpm_marshal_array Tpm2bPublic public) in
  Ok (set_public bytes (public_type public) self).
Definition with_private (private : ty Tpm2bPrivate) (self : t) : Res t :=
  let? bytes := unwrap_or_default (tpm_marshal_array Tpm2bPrivate private) in
  Ok (set_private bytes self).

Definition with_public_bytes (public : list byte) (self : t) : Res t :=
  let? alg := map_err TpmKeyError.Unmarshal (tpm_public_alg (as_slice public)) in
  Ok (set_public public alg self).
Definition with_private_bytes (private : list byte) (self : t) : Res t :=
  let? _ := map_err TpmKeyError.Unmarshal (tpm_private (as_slice private)) in
  Ok (set_private private self).

Definition with_empty_auth (empty_auth : bool) (self : t) : t :=
  mk (kind self) empty_auth (policy self) (secret self) (auth_policy self) (description self)
    (public self) (private self) (public_alg self) (parent self) (rsa_parent self).
Definition with_policy (policy : list TpmKeyPolicyCommand) (self : t) : t :=
  mk (kind self) (empty_auth self) policy (secret self) (auth_policy self) (description self)
    (public self) (private self) (public_alg self) (parent self) (rsa_parent self).

(** The error of [marshal] is dropped ([.ok()]); what was written counts. *)
Definition with_secret (secret : ty Tpm2bEncryptedSecret) (self : t) : Res t :=
  let n := len Tpm2bEncryptedSecret secret in
  let (r, writer) :=
    marshal Tpm2bEncryptedSecret secret (writer_new (TpmHash.zeroed n)) in
  match r with
  | Panic => Panic
  | _ =>
      Ok (set_secret (take (Z.to_nat (writer_len writer)) (buffer writer)) self)
  end.

Definition with_auth_policy (auth_policy : list TpmKeyAuthPolicy) (self : t) : t :=
  mk (kind self) (empty_auth self) (policy self) (secret self)
    (if nil_b auth_policy then None else Some auth_policy) (description self)
    (public self) (private self) (public_alg self) (parent self) (rsa_parent self).
Definition with_description (description : str) (self : t) : t :=
  mk (kind self) (empty_auth self) (policy self) (secret self) (auth_policy self)
    (if nil_b description then None else Some description)
    (public self) (private self) (public_alg self) (parent self) (rsa_parent self).
Definition with_parent (parent : TpmInt.t) (self : t) : t :=
  mk (kind self) (empty_auth self) (policy self) (secret self) (auth_policy self) (description self)
    (public self) (private self) (public_alg self) parent (rsa_parent self).
Definition with_rsa_parent (rsa_parent : bool) (self : t) : t :=
  mk (kind self) (empty_auth self) (policy self) (secret self) (auth_policy self) (description self)
    (public self) (private self) (public_alg self) (parent self) rsa_parent.

(** ** Writing *)

Definition kind_oid (kind : TpmKeyType.t) : ObjectIdentifier :=
  match kind with
  | TpmKeyType.Loadable => OID_LOADABLE_KEY
  | TpmKeyType.Importable => OID_IMPORTABLE_KEY
  | TpmKeyType.SealedData => OID_SEALED_DATA
  end.

Definition to_asn1 (self : t) : TpmKeyAsn1 :=
  let policy :=
    if nil_b (policy self) then None else Some (map command_to_asn1 (policy self)) in
  let auth_policy_asn1 := map auth_policy_to_asn1 <$> auth_policy self in
  let oid := kind_oid (kind self) in
  let empty_auth := if empty_auth self then Some true else None in
  let rsa_parent := if rsa_parent self then Some true else None in
  let secret := if nil_b (secret self) then None else Some (secret self) in
  mk_key_asn1 oid empty_auth policy secret auth_policy_asn1 (description self) rsa_parent
    (TpmInt.value 4 false (parent self)) (public self) (private self).

Definition to_der (self : t) : Res (list byte) :=
  let? _ := tpm_validate_secret (kind self) (secret self) in
  if rsa_parent self && negb (Z.shiftr (TpmInt.value 4 false (parent self)) 24 =? 0x40)
  then Err TpmKeyError.InvalidPolicy
  else map_err TpmKeyError.Asn1EncodingFailed (der_encode (to_asn1 self)).

Definition PEM_TAG : str := lit "TSS2 PRIVATE KEY".

Definition to_pem (self : t) : Res str :=
  let? der := to_der self in
  Ok (pem_encode PEM_TAG der).

(** ** Reading *)

(** [let kind = if asn1.key_type == ... { ... }] of [from_asn1] *)
Definition key_kind (oid : ObjectIdentifier) (public_alg : TpmAlgId.t) : Res TpmKeyType.t :=
  if bool_decide (oid = OID_LOADABLE_KEY) || bool_decide (oid = OID_IMPORTABLE_KEY) then
    let key_type := if bool_decide (oid = OID_LOADABLE_KEY) then TpmKeyType.Loadable
                    else TpmKeyType.Importable in
    match public_alg with
    | TpmAlgId.Rsa | TpmAlgId.Ecc | TpmAlgId.KeyedHash => Ok key_type
    | _ => Err (TpmKeyError.InvalidKeyAlgorithm key_type public_alg)
    end
  else if bool_decide (oid = OID_SEALED_DATA) then
    match public_alg with
    | TpmAlgId.KeyedHash => Ok TpmKeyType.SealedData
    | _ => Err (TpmKeyError.InvalidKeyAlgorithm TpmKeyType.SealedData public_alg)
    end
  else Err (TpmKeyError.InvalidOid oid).

Definition from_asn1 (asn1 : TpmKeyAsn1) : Res t :=
  let? public_alg := map_err TpmKeyError.Unmarshal (tpm_public_alg (as_slice (pubkey asn1))) in
  let? _ := map_err TpmKeyError.Unmarshal (tpm_private (as_slice (privkey asn1))) in
  let? kind := key_kind (key_type asn1) public_alg in
  if bool_decide (asn1_rsa_parent asn1 = Some true) && negb (Z.shiftr (asn1_parent asn1) 24 =? 0x40)
  then Err TpmKeyError.InvalidPolicy
  else
    let secret := default [] (asn1_secret asn1) in
    let? _ := tpm_validate_secret kind secret in
    let? policy := collect command_try_from (default [] (asn1_policy asn1)) in
    let? auth_policy :=
      match asn1_auth_policy asn1 with
      | None => Ok None
      | Some branches => let? branches := collect auth_policy_try_from branches in Ok (Some branches)
      end in
    let empty_auth := default false (asn1_empty_auth asn1) in
    let rsa_parent := default false (asn1_rsa_parent asn1) in
    Ok (mk kind empty_auth policy secret auth_policy (asn1_description asn1) (pubkey asn1)
          (privkey asn1) public_alg (TpmInt.new 4 (asn1_parent asn1)) rsa_parent).

Definition from_der (der_bytes : list byte) : Res t :=
  let? asn1 := map_err TpmKeyError.Asn1DecodingFailed (ber_decode der_bytes) in
  from_asn1 asn1.

Definition from_pem (pem_bytes : list byte) : Res t :=
  let? (tag, contents) := map_err TpmKeyError.PemDecodingFailed (pem_parse pem_bytes) in
  if bool_decide (tag = PEM_TAG) then from_der contents
  else Err (TpmKeyError.InvalidPemTag tag).
End key_file.
End TpmKeyFile.
