(* ===== verification/TpmKeySpec.v ===== *)
(** TPM key files: what is a valid key, and that reading accepts exactly the
    files of valid keys. *)

From Stdlib Require Import Ascii String.
From S2P Require Import Prelude State Errors Writer Codec Integer Buffer Struct EnumMacro Union Enums.
From S2P Require Import BasicTypes Schemes Structures Hash Text Marshal TpmKey.

(** ** The two blobs *)

(** [bs] encodes a [TPM2B_PUBLIC] whose object type is [alg]. *)
Definition public_blob (bs : list byte) (alg : TpmAlgId.t) : Prop :=
  ∃ pub : ty Tpm2bPublic, wire Tpm2bPublic pub = Some bs ∧
    TpmtPublic.object_type (Tpm2bStruct.inner pub) = alg.

(** [bs] encodes a [TPM2B_PRIVATE]: a size and that many bytes. *)
Definition private_blob (bs : list byte) : Prop :=
  ∃ data, bs = Tpm2b.format data ∧ zlen data ≤ MAX_PRIVATE_SIZE.

Lemma as_slice_ok bs : zlen bs ≤ isize_max → slice_ok (as_slice bs).
Proof. intros. unfold slice_ok, as_slice, sl_len; simpl. unfold isize_max, usize_max in *. lia. Qed.

Lemma consumes_whole bs : consumes bs (as_slice bs) (mk_slice (zlen bs) []).
Proof. split; simpl; [by rewrite app_nil_r | done]. Qed.

Section cast.
Context (I : WireType) `{!WireOk I}.

(** [cast] accepts exactly the encodings of the structure. *)
Lemma tpm2b_cast_Ok bs vw :
  zlen bs ≤ isize_max →
  Tpm2bStruct.cast I (as_slice bs) = Ok vw ↔
  vw = as_slice bs ∧ ∃ v, wire (tpm2b_struct I) v = Some bs.
Proof using WireOk0.
  intros Hl. pose proof (as_slice_ok bs Hl) as Hok.
  unfold Tpm2bStruct.cast, Tpm2bStruct.validate. split.
  - intros ([] & (n & Hv & H)%result_bind_Ok_inv & [= <-])%result_bind_Ok_inv. split; [done|].
    apply (tpm2b_validate_Ok I) in Hv as (v & b & r & Hw & Hb & Hc & ->); [|done].
    destruct (Z.ltb_spec (zlen (Tpm2b.format b)) (sl_len (as_slice bs))) as [Hlt|Hge].
    + exfalso. by destruct (usub _ _).
    + exists (Tpm2bStruct.mk v). apply tpm2b_wire_Some. exists b. split; [done|]. split; [done|].
      pose proof (consumes_len _ _ _ Hc) as Hlen. destruct Hc as [E _]. simpl in E.
      assert (sl_data r = []) as Er by (apply zlen_nil_inv; unfold sl_len, as_slice in *; simpl in *; pose proof (zlen_nonneg (sl_data r)); lia).
      by rewrite E, Er, app_nil_r.
  - intros (-> & v & (b & Hw & Hb & ->)%tpm2b_wire_Some).
    rewrite (tpm2b_validate_complete I b _ _ _ Hok Hw Hb (consumes_whole _)). simpl.
    unfold sl_len, as_slice. simpl. by rewrite Z.ltb_irrefl.
Qed.

(** The accessor of the view sees the value that was encoded. *)
Lemma inner_view_of bs v :
  zlen bs ≤ isize_max → wire (tpm2b_struct I) v = Some bs →
  ∃ vw, Tpm2bStruct.inner_view I (as_slice bs) = Ok vw ∧ view_of I vw (Tpm2bStruct.inner v).
Proof using WireOk0.
  intros Hl (b & Hw & Hb & ->)%tpm2b_wire_Some. unfold Tpm2bStruct.inner_view.
  unfold slice_from. change (Codec.SIZE TpmUint16) with 2. rewrite zlen_format in Hl.
  pose proof (zlen_nonneg b). unfold sl_len, as_slice. cbn [sl_data]. rewrite zlen_format.
  rewrite (proj2 (Z.leb_le _ _)) by lia. cbn [result_bind].
  set (s := sl_drop 2 _).
  assert (s = mk_slice 2 b) as -> by done.
  assert (slice_ok (mk_slice 2 b)) as Hok by (unfold slice_ok, sl_len, isize_max, usize_max in *; simpl; lia).
  assert (consumes b (mk_slice 2 b) (mk_slice (2 + zlen b) [])) as Hc
    by (split; simpl; [by rewrite app_nil_r | done]).
  destruct (cast_complete _ _ _ _ Hok Hw Hc) as [vw Hvw]. rewrite Hvw. simpl. exists vw. split; [done|].
  destruct (cast_sound _ _ _ Hok Hvw) as (v' & b' & Hw' & Hc' & Hv & _).
  assert (b' = b) as ->.
  { destruct Hc' as [E _]. simpl in E. by rewrite app_nil_r in E. }
  by rewrite (unmarshal_wire_inj I _ _ b ltac:(unfold isize_max in *; lia) Hw Hw').
Qed.
End cast.

Lemma public_alg_exact bs alg :
  zlen bs ≤ isize_max → tpm_public_alg (as_slice bs) = Ok alg ↔ public_blob bs alg.
Proof.
  intros Hl. unfold tpm_public_alg, public_blob. split.
  - intros (vw & (-> & pub & Hw)%(tpm2b_cast_Ok TpmtPublic) & Hi)%result_bind_Ok_inv; [|done].
    destruct (inner_view_of TpmtPublic bs pub Hl Hw) as (vw & Hvw & Hv). rewrite Hvw in Hi.
    injection Hi as <-. exists pub. split; [done|]. by destruct Hv as [-> _].
  - intros (pub & Hw & <-).
    rewrite (proj2 (tpm2b_cast_Ok TpmtPublic bs (as_slice bs) Hl)) by eauto. cbn [result_bind].
    destruct (inner_view_of TpmtPublic bs pub Hl Hw) as (vw & -> & Hv). cbn [result_bind].
    by destruct Hv as [-> _].
Qed.

Lemma private_exact bs :
  zlen bs ≤ isize_max → tpm_private (as_slice bs) = Ok () ↔ private_blob bs.
Proof.
  intros Hl. pose proof (as_slice_ok bs Hl) as Hok. unfold tpm_private, Tpm2b.validate, private_blob.
  assert (0 ≤ MAX_PRIVATE_SIZE ≤ u16_max) as Hm by done. split.
  - intros (n & (xs & r & -> & Hx & Hc)%tpm2b_validate_prefix_Ok & H)%result_bind_Ok_inv.
    exists xs. split; [|lia]. pose proof (consumes_len _ _ _ Hc) as Hlen. rewrite zlen_format in Hlen.
    pose proof (zlen_nonneg (sl_data r)). destruct Hc as [E _]. simpl in E.
    revert H. case_match eqn:Hlt; [by destruct (usub _ _)|]. intros _.
    rewrite (zlen_nil_inv (sl_data r)) in E by (unfold sl_len, as_slice in *; simpl in *; lia).
    by rewrite app_nil_r in E.
  - intros (xs & -> & Hx).
    rewrite (tpm2b_validate_prefix_format _ xs _ _ Hok Hx ltac:(lia) (consumes_whole _)).
    cbn [result_bind]. unfold sl_len, as_slice. cbn [sl_data]. by rewrite zlen_format, Z.ltb_irrefl.
Qed.

Lemma public_alg_no_panic bs : zlen bs ≤ isize_max → tpm_public_alg (as_slice bs) ≠ Panic.
Proof.
  intros Hl. pose proof (as_slice_ok bs Hl) as Hok. unfold tpm_public_alg.
  apply result_bind_not_Panic.
  - unfold Tpm2bStruct.cast, Tpm2bStruct.validate. apply result_bind_not_Panic; [|done].
    apply result_bind_not_Panic; [by apply (tpm2b_validate_no_panic TpmtPublic)|].
    intros n _. case_match eqn:Hlt; [|done]. by rewrite usub_Ok by lia.
  - intros vw (-> & pub & Hw)%(tpm2b_cast_Ok TpmtPublic); [|done].
    by destruct (inner_view_of TpmtPublic bs pub Hl Hw) as (vw & -> & _).
Qed.

Lemma private_no_panic bs : tpm_private (as_slice bs) ≠ Panic.
Proof.
  unfold tpm_private, Tpm2b.validate. apply result_bind_not_Panic.
  - apply tpm2b_validate_prefix_no_panic.
  - intros n _. case_match eqn:Hlt; [|done]. by rewrite usub_Ok by lia.
Qed.

(** ** Valid keys *)

(** The object types a kind of key file may hold. *)
Definition kind_fits (kind : TpmKeyType.t) (alg : TpmAlgId.t) : Prop :=
  match kind with
  | TpmKeyType.SealedData => alg = TpmAlgId.KeyedHash
  | _ => alg = TpmAlgId.Rsa ∨ alg = TpmAlgId.Ecc ∨ alg = TpmAlgId.KeyedHash
  end.

(** [s] encodes a [TPM2B_ENCRYPTED_SECRET]. *)
Definition secret_blob (s : list byte) : Prop :=
  ∃ payload, s = Tpm2b.format payload ∧ zlen payload ≤ MAX_RSA_KEY_BYTES.

Definition secret_fits (kind : TpmKeyType.t) (s : list byte) : Prop :=
  match kind with
  | TpmKeyType.Loadable => s = []
  | TpmKeyType.Importable => secret_blob s
  | TpmKeyType.SealedData => s = [] ∨ secret_blob s
  end.

Definition policy_command (c : TpmKeyPolicyCommand) : Prop := is_policy (cc c) = true.

(** The parent is a permanent handle. *)
Definition permanent (parent : TpmInt.t) : Prop := Z.shiftr (TpmInt.value 4 false parent) 24 = 0x40.

Definition key_valid (k : TpmKeyFile.t) : Prop :=
  public_blob (TpmKeyFile.public k) (TpmKeyFile.public_alg k) ∧
  private_blob (TpmKeyFile.private k) ∧
  kind_fits (TpmKeyFile.kind k) (TpmKeyFile.public_alg k) ∧
  secret_fits (TpmKeyFile.kind k) (TpmKeyFile.secret k) ∧
  (TpmKeyFile.rsa_parent k = true → permanent (TpmKeyFile.parent k)) ∧
  Forall policy_command (TpmKeyFile.policy k) ∧
  Forall (λ p, Forall policy_command (policy p)) (default [] (TpmKeyFile.auth_policy k)).

(** The handle of a key, a [TpmUint32], has four bytes. *)
Definition parent_ok (k : TpmKeyFile.t) : Prop := length (TpmInt.bytes (TpmKeyFile.parent k)) = 4%nat.

(** The two ways to write a default are one: an absent field. *)
Definition present {A} (o : option (list A)) : option (list A) :=
  match o with Some [] => None | _ => o end.
Definition set_true (o : option bool) : option bool :=
  match o with Some true => Some true | _ => None end.
Definition normalize (a : TpmKeyAsn1) : TpmKeyAsn1 :=
  mk_key_asn1 (key_type a) (set_true (asn1_empty_auth a)) (present (asn1_policy a))
    (present (asn1_secret a)) (asn1_auth_policy a) (asn1_description a)
    (set_true (asn1_rsa_parent a)) (asn1_parent a) (pubkey a) (privkey a).

Section key_file.
Context `{KeyCodec}.

(** A conversion that inverts [g] on [P], done on a list. *)
Lemma collect_exact {A B} (f : A → result TpmKeyError.t B) (g : B → A) (P : B → Prop) xs ys :
  (∀ x y, f x = Ok y ↔ P y ∧ x = g y) →
  collect f xs = Ok ys ↔ Forall P ys ∧ xs = map g ys.
Proof.
  intros Hf. revert ys. induction xs as [|x xs IH]; intros ys; simpl.
  - split; [by intros [= <-] | by destruct ys as [|y ys]; intros [_ E]].
  - split.
    + intros (y & Hy%Hf & (ys' & Hys%IH & [= <-])%result_bind_Ok_inv)%result_bind_Ok_inv.
      destruct Hy as [Hy ->], Hys as [Hys ->]. split; [by constructor | done].
    + intros [HP E]. destruct ys as [|y ys]; [done|]. injection E as -> ->. inversion_clear HP.
      rewrite (proj2 (Hf _ _)) by done. simpl. by rewrite (proj2 (IH ys)).
Qed.

Lemma collect_outcome {A B} (f : A → result TpmKeyError.t B) (Q : TpmKeyError.t → Prop) xs :
  (∀ x, outcome Q (λ _, True) (f x)) → outcome Q (λ _, True) (collect f xs).
Proof.
  intros Hf. induction xs as [|x xs IH]; [done|]. simpl. pose proof (Hf x).
  destruct (f x); [|done..]. simpl. by destruct (collect f xs).
Qed.

Lemma command_exact x c :
  command_try_from x = Ok c ↔ policy_command c ∧ x = command_to_asn1 c.
Proof.
  unfold command_try_from, policy_command, command_to_asn1. split.
  - intros (v & Hv%map_err_Ok_inv & Hc)%result_bind_Ok_inv. apply (try_from_Ok TpmCc.t) in Hv.
    destruct (is_policy v) eqn:E; [|done]. injection Hc as <-. cbn [cc body]. split; [done|]. rewrite Hv. by destruct x.
  - intros [Hp ->]. cbn [command_code command_policy].
    rewrite (proj2 (try_from_Ok TpmCc.t _ _) eq_refl). simpl. rewrite Hp. by destruct c.
Qed.

Lemma auth_policy_exact x p :
  auth_policy_try_from x = Ok p ↔ Forall policy_command (policy p) ∧ x = auth_policy_to_asn1 p.
Proof.
  unfold auth_policy_try_from, auth_policy_to_asn1. split.
  - intros (cs & [Hp E]%(collect_exact _ _ _ _ _ command_exact) & [= <-])%result_bind_Ok_inv. split; [done|].
    simpl. rewrite <-E. by destruct x.
  - intros [Hp ->]. cbn [asn1_commands asn1_name].
    rewrite (proj2 (collect_exact _ _ _ _ _ command_exact)) by done. simpl. by destruct p.
Qed.

Lemma secret_blob_nonempty s : secret_blob s → s ≠ [].
Proof. by intros (payload & -> & _). Qed.

Lemma secret_exact kind s : tpm_validate_secret kind s = Ok () ↔ secret_fits kind s.
Proof.
  unfold tpm_validate_secret. set (checked := match s with [] => _ | _ => _ end).
  assert (checked = Ok () ↔ secret_blob s) as Hc.
  { unfold checked, secret_blob. split.
    - destruct s as [|b0 [|b1 payload]]; [done..|]. cbv zeta.
      case_match eqn:Hb; [done|]. intros _. apply orb_false_iff in Hb as [Hl Hm].
      exists payload. unfold Tpm2b.format.
      assert (zlen payload = be_decode [b0; b1]) as El by (apply negb_false_iff, Z.eqb_eq in Hl; unfold zlen in *; rewrite !length_cons in Hl; lia).
      split; [|lia]. rewrite El. by rewrite (be_encode_decode 2 [b0; b1]).
    - intros (payload & -> & Hp). pose proof (zlen_nonneg payload). unfold Tpm2b.format.
      destruct (be_encode 2 (zlen payload)) as [|b0 [|b1 [|]]] eqn:E;
        try (apply (f_equal length) in E; rewrite length_be_encode in E; done).
      assert (MAX_RSA_KEY_BYTES = 512) as Em by done. rewrite Em in *.
      cbn [app]. rewrite <-E, be_decode_encode by (change (2 ^ (8 * Z.of_nat 2)) with 65536; lia).
      case_match eqn:Hb; [|done]. exfalso.
      apply orb_true_iff in Hb as [Hb%negb_true_iff%Z.eqb_neq | Hb%Z.ltb_lt]; [|lia].
      apply Hb. unfold zlen. rewrite !length_cons. lia. }
  pose proof secret_blob_nonempty. destruct kind; simpl; case_bool_decide; naive_solver.
Qed.

Lemma kind_exact oid alg kind :
  TpmKeyFile.key_kind oid alg = Ok kind ↔ oid = TpmKeyFile.kind_oid kind ∧ kind_fits kind alg.
Proof.
  unfold TpmKeyFile.key_kind, kind_fits. split.
  - repeat case_bool_decide; subst; simpl; destruct alg; intros E; simplify_eq; auto.
  - intros [-> Hf]. destruct kind; simpl; naive_solver.
Qed.

(** ** Reading *)

Lemma blob_sizes a : asn1_ok a → zlen (pubkey a) ≤ isize_max ∧ zlen (privkey a) ≤ isize_max.
Proof. by intros (_ & ? & ?). Qed.

(** [None] and the empty list are the same. *)
Lemma read_present {A} (o : option (list A)) l :
  present o = (if nil_b l then None else Some l) ↔ default [] o = l.
Proof. destruct o as [[|x xs]|], l as [|y l]; simpl; split; congruence. Qed.

Lemma read_policy o cs :
  collect command_try_from (default [] o) = Ok cs ↔
  Forall policy_command cs ∧
  present o = if nil_b cs then None else Some (map command_to_asn1 cs).
Proof.
  rewrite (collect_exact _ _ _ _ _ command_exact), <-read_present. by destruct cs.
Qed.

Lemma read_auth_policy o p :
  match o with
  | None => Ok None
  | Some branches => let? branches := collect auth_policy_try_from branches in Ok (Some branches)
  end = Ok p ↔
  Forall (λ p, Forall policy_command (policy p)) (default [] p) ∧ o = map auth_policy_to_asn1 <$> p.
Proof.
  pose proof (λ xs ys, collect_exact _ _ _ xs ys auth_policy_exact) as Hc.
  destruct o as [bs|]; simpl; split.
  - intros (ps & [Hp ->]%Hc & [= <-])%result_bind_Ok_inv. done.
  - destruct p as [ps|]; [|by intros []]. intros [Hp [= ->]]. by rewrite (proj2 (Hc _ ps)).
  - by intros [= <-].
  - by destruct p; intros [].
Qed.

Lemma read_flag o b : set_true o = (if b : bool then Some true else None) ↔ default false o = b.
Proof. destruct o as [[]|], b; simpl; split; congruence. Qed.

Lemma parent_new z : 0 ≤ z ≤ u32_max → TpmInt.value 4 false (TpmInt.new 4 z) = z.
Proof. intros. apply value_new; [lia|]. by apply in_range_u32. Qed.

#[local] Arguments Z.shiftr : simpl never.
#[local] Arguments TpmInt.new : simpl never.
#[local] Arguments TpmInt.value : simpl never.

(** [from_asn1] reads [a] as [k] exactly when [k] is valid and [a], with its
    defaults left out, is what [to_asn1] writes for [k]. *)
Lemma from_asn1_exact a k :
  asn1_ok a →
  TpmKeyFile.from_asn1 a = Ok k ↔
  key_valid k ∧ parent_ok k ∧ TpmKeyFile.to_asn1 k = normalize a.
Proof.
  intros Ha. destruct (blob_sizes a Ha) as [Hpub Hpriv]. destruct Ha as [Hparent _].
  unfold TpmKeyFile.from_asn1. split.
  - intros (alg & Halg%map_err_Ok_inv & H1)%result_bind_Ok_inv.
    apply public_alg_exact in Halg; [|done].
    apply result_bind_Ok_inv in H1 as ([] & Hpr%map_err_Ok_inv%private_exact & H1); [|done].
    apply result_bind_Ok_inv in H1 as (kind & [Hoid Hkind]%kind_exact & H1).
    destruct (_ && _) eqn:Hrsa; [done|].
    apply result_bind_Ok_inv in H1 as ([] & Hsec%secret_exact & H1).
    apply result_bind_Ok_inv in H1 as (pol & [Hpol Epol]%read_policy & H1).
    apply result_bind_Ok_inv in H1 as (auth & [Hauth Eauth]%read_auth_policy & [= <-]).
    unfold key_valid, parent_ok, permanent. simpl. split; [|split; [apply (length_new 4 (asn1_parent a))|]].
    + split_and!; try done. rewrite parent_new by done.
      destruct (asn1_rsa_parent a) as [[]|]; simpl; [|done..]. intros _.
      rewrite bool_decide_true in Hrsa by done. cbn [andb] in Hrsa. by apply negb_false_iff, Z.eqb_eq in Hrsa.
    + unfold TpmKeyFile.to_asn1, normalize. simpl. rewrite parent_new by done.
      f_equal; try done; symmetry; by (apply read_flag || apply read_present).
  - destruct k as [kd ea pol sec auth des pub priv alg par rsa]. unfold key_valid, parent_ok, permanent.
    cbn [TpmKeyFile.kind TpmKeyFile.secret TpmKeyFile.public TpmKeyFile.private TpmKeyFile.public_alg
         TpmKeyFile.parent TpmKeyFile.rsa_parent TpmKeyFile.policy TpmKeyFile.auth_policy].
    intros ((Halg & Hpr & Hkind & Hsec & Hperm & Hpol & Hauth) & Hlen & E).
    unfold TpmKeyFile.to_asn1, normalize in E. simpl in E.
    injection E as Eo Eea Epol Esec Eauth Edes Ersa Epar Epub Epriv.
    rewrite <-Epub, <-Epriv. rewrite <-Epub in Hpub. rewrite <-Epriv in Hpriv.
    rewrite (proj2 (public_alg_exact _ _ Hpub) Halg). cbn [map_err result_bind].
    rewrite (proj2 (private_exact _ Hpriv) Hpr). cbn [map_err result_bind].
    rewrite (proj2 (kind_exact _ _ kd)) by done. cbn [result_bind].
    symmetry in Ersa. apply read_flag in Ersa.
    assert (bool_decide (asn1_rsa_parent a = Some true) && negb (Z.shiftr (asn1_parent a) 24 =? 0x40) = false) as ->.
    { case_bool_decide as Hr; [|done]. rewrite Hr in Ersa. simpl in Ersa. rewrite <-Epar, Hperm by done. done. }
    symmetry in Esec. apply read_present in Esec. rewrite Esec, (proj2 (secret_exact _ _) Hsec). cbn [result_bind].
    rewrite (proj2 (read_policy _ pol)) by done. cbn [result_bind].
    rewrite (proj2 (read_auth_policy _ auth)) by done. cbn [result_bind].
    symmetry in Eea. apply read_flag in Eea. rewrite Eea, Ersa, <-Edes, <-Epar.
    rewrite (new_value 4 false ltac:(lia) par Hlen). done.
Qed.

(** What [from_der] may report once the ASN.1 is decoded. *)
Definition reading_error (e : TpmKeyError.t) : Prop :=
  match e with
  | TpmKeyError.Unmarshal _ | TpmKeyError.InvalidOid _ | TpmKeyError.InvalidKeyAlgorithm _ _
  | TpmKeyError.InvalidPolicy | TpmKeyError.MissingSecret | TpmKeyError.UnexpectedSecret
  | TpmKeyError.InvalidSecret | TpmKeyError.InvalidCc _ => True
  | _ => False
  end.

Lemma unmarshal_outcome {A} (m : TpmResult A) :
  m ≠ Panic → outcome reading_error (λ _, True) (map_err TpmKeyError.Unmarshal m).
Proof. by destruct m. Qed.

Lemma kind_outcome oid alg : outcome reading_error (λ _, True) (TpmKeyFile.key_kind oid alg).
Proof. unfold TpmKeyFile.key_kind. repeat case_match; done. Qed.

Lemma secret_outcome kind s : outcome reading_error (λ _, True) (tpm_validate_secret kind s).
Proof.
  unfold tpm_validate_secret. destruct kind; simpl; case_bool_decide; try done;
    destruct s as [|b0 [|b1 payload]]; try done; cbv zeta; by case_match.
Qed.

Lemma command_outcome x : outcome reading_error (λ _, True) (command_try_from x).
Proof.
  unfold command_try_from. pose proof (try_from_no_panic TpmCc.t (command_code x)).
  destruct (try_from TpmCc.t (command_code x)); [|done..]. cbn [map_err result_bind]. by case_match.
Qed.

Lemma auth_policy_outcome x : outcome reading_error (λ _, True) (auth_policy_try_from x).
Proof.
  unfold auth_policy_try_from. pose proof (collect_outcome _ _ (asn1_commands x) command_outcome).
  by destruct (collect _ _).
Qed.

Lemma from_asn1_outcome a : asn1_ok a → outcome reading_error (λ _, True) (TpmKeyFile.from_asn1 a).
Proof.
  intros [Hpub Hpriv]%blob_sizes. unfold TpmKeyFile.from_asn1.
  eapply (outcome_bind _ (λ _, True)); [by apply unmarshal_outcome, public_alg_no_panic|]. intros alg _.
  eapply (outcome_bind _ (λ _, True)); [by apply unmarshal_outcome, private_no_panic|]. intros _ _.
  eapply (outcome_bind _ (λ _, True)); [apply kind_outcome|]. intros kind _.
  destruct (_ && _); [done|]. cbv zeta.
  eapply (outcome_bind _ (λ _, True)); [apply secret_outcome|]. intros _ _.
  eapply (outcome_bind _ (λ _, True)); [apply collect_outcome, command_outcome|]. intros pol _.
  eapply (outcome_bind _ (λ _, True)); [|done].
  destruct (asn1_auth_policy a) as [bs|]; [|done].
  eapply (outcome_bind _ (λ _, True)); [apply collect_outcome, auth_policy_outcome | done].
Qed.

(** ** Writing *)

(** What [to_der] checks: the secret, and the parent of a key that claims an
    RSA parent. *)
Definition writable (k : TpmKeyFile.t) : Prop :=
  secret_fits (TpmKeyFile.kind k) (TpmKeyFile.secret k) ∧
  (TpmKeyFile.rsa_parent k = true → permanent (TpmKeyFile.parent k)).

Lemma key_valid_writable k : key_valid k → writable k.
Proof. intros (_ & _ & _ & Hs & Hp & _). by split. Qed.

(** A key that exists in memory. *)
Definition key_ok (k : TpmKeyFile.t) : Prop :=
  parent_ok k ∧ zlen (TpmKeyFile.public k) ≤ isize_max ∧ zlen (TpmKeyFile.private k) ≤ isize_max.

Lemma to_asn1_ok k : key_ok k → asn1_ok (TpmKeyFile.to_asn1 k).
Proof.
  intros (Hp & Hpub & Hpriv). unfold asn1_ok, TpmKeyFile.to_asn1.
  cbn [asn1_parent pubkey privkey]. split; [|done].
  apply in_range_u32_inv. apply (value_in_range 4 false); [lia | done].
Qed.

Lemma to_der_writable k :
  writable k →
  TpmKeyFile.to_der k = map_err TpmKeyError.Asn1EncodingFailed (der_encode (TpmKeyFile.to_asn1 k)).
Proof.
  intros [Hs%secret_exact Hp]. unfold TpmKeyFile.to_der. rewrite Hs. cbn [result_bind].
  destruct (TpmKeyFile.rsa_parent k); [|done]. by rewrite Hp.
Qed.

Lemma to_der_Ok k bs :
  TpmKeyFile.to_der k = Ok bs ↔ writable k ∧ der_encode (TpmKeyFile.to_asn1 k) = Ok bs.
Proof.
  split.
  - unfold TpmKeyFile.to_der. intros ([] & Hs%secret_exact & Hd)%result_bind_Ok_inv.
    destruct (_ && _) eqn:Hr; [done|]. apply map_err_Ok_inv in Hd. split; [|done]. split; [done|].
    intros Hp. rewrite Hp in Hr. cbn [andb] in Hr. by apply negb_false_iff, Z.eqb_eq in Hr.
  - intros [Hw Hd]. by rewrite (to_der_writable k Hw), Hd.
Qed.

(** What is written has no defaults to leave out. *)
Lemma normalize_to_asn1 k : normalize (TpmKeyFile.to_asn1 k) = TpmKeyFile.to_asn1 k.
Proof.
  destruct k as [kd [] [|] [|] auth des pub priv alg par []]; done.
Qed.


(** ** The builders *)

Lemma zlen_zeros n : 0 ≤ n → zlen (TpmHash.zeroed n) = n.
Proof. intros. unfold zlen, TpmHash.zeroed. rewrite length_replicate. lia. Qed.

Lemma marshal_array_ok (c : Codec) `{!CodecOk c} v bs :
  wire c v = Some bs → zlen bs ≤ TPM_MAX_COMMAND_SIZE → tpm_marshal_array c v = Ok bs.
Proof.
  intros Hw Hl. unfold tpm_marshal_array. assert (0 ≤ TPM_MAX_COMMAND_SIZE ≤ isize_max) as Hm by done.
  destruct (marshal_new c v bs (TpmHash.zeroed TPM_MAX_COMMAND_SIZE) Hw) as [-> Hb];
    [rewrite zlen_zeros by lia; lia|].
  cbn [map_err result_bind]. f_equal. exact Hb.
Qed.

Lemma with_public_ok pub bs k :
  wire Tpm2bPublic pub = Some bs →
  TpmKeyFile.with_public pub k = Ok (TpmKeyFile.set_public bs (TpmKeyFile.public_type pub) k).
Proof.
  intros Hw. unfold TpmKeyFile.with_public. pose proof (wire_max_le (c:=Tpm2bPublic) _ _ Hw) as Hs.
  assert (wire_max Tpm2bPublic ≤ TPM_MAX_COMMAND_SIZE) by (by vm_compute).
  rewrite (marshal_array_ok Tpm2bPublic pub bs Hw) by lia. done.
Qed.

Lemma with_private_ok priv bs k :
  wire Tpm2bPrivate priv = Some bs →
  TpmKeyFile.with_private priv k = Ok (TpmKeyFile.set_private bs k).
Proof.
  intros Hw. unfold TpmKeyFile.with_private. pose proof (wire_SIZE Tpm2bPrivate _ _ Hw) as Hs.
  assert (SIZE Tpm2bPrivate ≤ TPM_MAX_COMMAND_SIZE) by (by vm_compute).
  rewrite (marshal_array_ok Tpm2bPrivate priv bs Hw) by lia. done.
Qed.

Lemma with_secret_ok sec bs k :
  wire Tpm2bEncryptedSecret sec = Some bs →
  TpmKeyFile.with_secret sec k = Ok (TpmKeyFile.set_secret bs k).
Proof.
  intros Hw. unfold TpmKeyFile.with_secret. rewrite (wire_len (c:=Tpm2bEncryptedSecret) sec bs Hw).
  pose proof (zlen_nonneg bs). pose proof (wire_SIZE Tpm2bEncryptedSecret _ _ Hw).
  assert (SIZE Tpm2bEncryptedSecret ≤ isize_max) by (by vm_compute).
  destruct (marshal_new Tpm2bEncryptedSecret sec bs (TpmHash.zeroed (zlen bs)) Hw) as [-> Hb];
    [rewrite zlen_zeros by lia; lia|].
  do 2 f_equal. exact Hb.
Qed.

Lemma secret_wire sec bs : wire Tpm2bEncryptedSecret sec = Some bs → secret_blob bs.
Proof.
  intros (xs & Hh & ->)%buffer_wire_Some. exists xs. split; [done|].
  by destruct Hh as (_ & [? _] & _).
Qed.

Lemma private_wire priv bs : wire Tpm2bPrivate priv = Some bs → private_blob bs.
Proof.
  intros (xs & Hh & ->)%buffer_wire_Some. exists xs. split; [done|].
  by destruct Hh as (_ & [? _] & _).
Qed.

Lemma new_fields :
  ∃ pub priv, TpmKeyFile.new = Ok (TpmKeyFile.mk TpmKeyType.Loadable false [] [] None None pub priv
    TpmAlgId.Null (TpmInt.new 4 0) false).
Proof. do 2 eexists. vm_compute. reflexivity. Qed.

(** [TpmKeyFile::new()]: an empty public area, which no kind of key allows. *)
Lemma new_invalid :
  ∃ k, TpmKeyFile.new = Ok k ∧ key_ok k ∧ writable k ∧
    TpmKeyFile.from_asn1 (TpmKeyFile.to_asn1 k) =
      Err (TpmKeyError.InvalidKeyAlgorithm TpmKeyType.Loadable TpmAlgId.Null).
Proof.
  eexists. split; [vm_compute; reflexivity|].
  split; [split_and!; by vm_compute|]. split; [|vm_compute; reflexivity].
  split; [done|]. done.
Qed.
End key_file.
