(* ===== verification/TpmKeyProperties.v ===== *)
(** What the key files promise: the files that are read, the files that are
    written, and the keys that are built; with a concrete codec for the
    witnesses. *)

From Stdlib Require Import Ascii String.
From S2P Require Import Prelude State Errors Writer Codec Integer Buffer Struct EnumMacro Union Enums Attributes.
From S2P Require Import BasicTypes Schemes Structures Text Marshal TpmKey TpmKeySpec.

(** ** A concrete codec

    A structure is numbered and the number written bit by bit; a text is the
    one character that stands for its tag and contents. *)

#[local] Instance byte_countable : Countable byte.
Proof. by apply (inj_countable Byte.to_N Byte.of_N), Byte.of_to_N. Defined.
#[local] Instance command_asn1_eq_dec : EqDecision TpmKeyCommandAsn1.
Proof. solve_decision. Defined.
#[local] Instance command_asn1_countable : Countable TpmKeyCommandAsn1.
Proof.
  by refine (inj_countable' (λ c, (command_code c, command_policy c)) (λ '(c, p), mk_command_asn1 c p) _); intros [].
Defined.
#[local] Instance auth_policy_asn1_eq_dec : EqDecision TpmAuthPolicyAsn1.
Proof. solve_decision. Defined.
#[local] Instance auth_policy_asn1_countable : Countable TpmAuthPolicyAsn1.
Proof.
  by refine (inj_countable' (λ c, (asn1_name c, asn1_commands c)) (λ '(c, p), mk_auth_policy_asn1 c p) _); intros [].
Defined.
#[local] Instance key_asn1_eq_dec : EqDecision TpmKeyAsn1.
Proof. solve_decision. Defined.
#[local] Instance key_asn1_countable : Countable TpmKeyAsn1.
Proof.
  by refine (inj_countable'
    (λ a, (key_type a, asn1_empty_auth a, asn1_policy a, asn1_secret a, asn1_auth_policy a,
           asn1_description a, asn1_rsa_parent a, asn1_parent a, (pubkey a, privkey a)))
    (λ '(o, e, p, s, ap, d, r, par, (pub, priv)), mk_key_asn1 o e p s ap d r par pub priv) _); intros [].
Defined.

Fixpoint bits_of (p : positive) : list byte :=
  match p with xH => [] | xO p => x00 :: bits_of p | xI p => x01 :: bits_of p end.
Fixpoint of_bits (bs : list byte) : positive :=
  match bs with [] => xH | x00 :: bs => xO (of_bits bs) | _ :: bs => xI (of_bits bs) end.

Lemma of_bits_of p : of_bits (bits_of p) = p.
Proof. induction p; simpl; congruence. Qed.

Definition asn1_okb (a : TpmKeyAsn1) : bool :=
  (0 <=? asn1_parent a) && (asn1_parent a <=? u32_max) &&
  (zlen (pubkey a) <=? isize_max) && (zlen (privkey a) <=? isize_max).

Lemma asn1_okb_spec a : asn1_okb a = true ↔ asn1_ok a.
Proof. unfold asn1_okb, asn1_ok. lia. Qed.

#[export] Instance toy_codec : KeyCodec := {|
  DecodeError := unit; EncodeError := unit; PemError := unit;
  der_encode a := Ok (bits_of (encode a));
  ber_decode bs :=
    match decode (of_bits bs) with Some a => if asn1_okb a then Ok a else Err () | None => Err () end;
  pem_parse bs := match decode (of_bits bs) with Some x => Ok x | None => Err () end;
  pem_encode tag bs := [Z.pos (encode (tag, bs))];
  as_bytes s := match s with [Z.pos p] => bits_of p | _ => [] end
|}.

#[export] Instance toy_codec_ok : KeyCodecOk.
Proof.
  split; simpl.
  - intros a bs. destruct (decode _) as [a'|]; [|done]. destruct (asn1_okb a') eqn:E; [|done].
    intros [= <-]. by apply asn1_okb_spec.
  - intros a bs Ha [= <-]. rewrite of_bits_of, decode_encode. by apply asn1_okb_spec in Ha as ->.
  - done.
  - intros bs. destruct (decode _); [|done]. by case_match.
  - intros tag bs. by rewrite of_bits_of, decode_encode.
  - intros bs. by destruct (decode _).
Qed.

(** ** Reading *)

(** C23.  [from_der] reads exactly the files of valid keys: the two blobs are a
    [TPM2B_PUBLIC] and a [TPM2B_PRIVATE], the object type is one the kind
    allows, the secret is there when the kind wants it and is a
    [TPM2B_ENCRYPTED_SECRET], the parent is a permanent handle when the key
    says it has an RSA parent, and the policies hold policy commands only; the
    decoded structure is what [to_asn1] makes of the key, but for a flag that
    is written as false or a list that is written empty.  A file that is
    refused gets one of the errors of a decoder or of a check, none of those
    of writing; nothing panics.  A key that was read can be written again. *)
Theorem key_file_exact `{KeyCodecOk} (der : list byte) (k : TpmKeyFile.t) :
  (TpmKeyFile.from_der der = Ok k ↔
   key_valid k ∧ parent_ok k ∧ ∃ a, ber_decode der = Ok a ∧ TpmKeyFile.to_asn1 k = normalize a) ∧
  outcome (λ e, reading_error e ∨ ∃ d, e = TpmKeyError.Asn1DecodingFailed d) (λ _, True)
    (TpmKeyFile.from_der der) ∧
  (TpmKeyFile.from_der der = Ok k →
   TpmKeyFile.to_der k = map_err TpmKeyError.Asn1EncodingFailed (der_encode (TpmKeyFile.to_asn1 k))).
Proof.
  assert (TpmKeyFile.from_der der = Ok k ↔
    key_valid k ∧ parent_ok k ∧ ∃ a, ber_decode der = Ok a ∧ TpmKeyFile.to_asn1 k = normalize a) as Hr.
  { unfold TpmKeyFile.from_der. split.
    - intros (a & Ha%map_err_Ok_inv & Hk)%result_bind_Ok_inv.
      apply from_asn1_exact in Hk as (Hv & Hp & E); [|by eapply ber_decode_ok]. eauto.
    - intros (Hv & Hp & a & Ha & E). rewrite Ha. cbn [map_err result_bind].
      apply from_asn1_exact; [by eapply ber_decode_ok | done]. }
  split; [done|]. split.
  - unfold TpmKeyFile.from_der. pose proof (ber_decode_no_panic der).
    destruct (ber_decode der) as [a| |] eqn:Ha; [|by right; eexists | done]. simpl.
    pose proof (from_asn1_outcome a (ber_decode_ok _ _ Ha)). destruct (TpmKeyFile.from_asn1 a); simpl; auto.
  - intros (Hv & _)%Hr. by apply to_der_writable, key_valid_writable.
Qed.

(** A sealed data object, with an empty policy that is written out. *)
Definition sealed_public : ty Tpm2bPublic :=
  Tpm2bStruct.mk (TpmtPublic.mk TpmAlgId.KeyedHash TpmAlgId.Sha256 Bitflags.empty
    (TpmBuffer.new MAX_DIGEST_SIZE)
    (TpmuPublicParms.KeyedHash (TaggedStruct.mk TpmAlgId.Null TpmuKeyedhashScheme.Null, ()))
    (TpmuPublicId.KeyedHash (TpmBuffer.new MAX_DIGEST_SIZE))).

Definition bytes_of (o : option (list byte)) : list byte := default [] o.

Definition sealed_asn1 : TpmKeyAsn1 :=
  mk_key_asn1 OID_SEALED_DATA (Some false) (Some []) None
    (Some [mk_auth_policy_asn1 None [mk_command_asn1 (value TpmCc.PolicyAuthValue) []]]) None None
    0x40000001 (bytes_of (wire Tpm2bPublic sealed_public)) [x00; x01; x07].

Definition sealed_key : TpmKeyFile.t :=
  TpmKeyFile.mk TpmKeyType.SealedData false [] []
    (Some [mk_auth_policy None [mk_command TpmCc.PolicyAuthValue []]]) None
    (bytes_of (wire Tpm2bPublic sealed_public)) [x00; x01; x07] TpmAlgId.KeyedHash
    (TpmInt.new 4 0x40000001) false.

Lemma sealed_asn1_ok : asn1_ok sealed_asn1.
Proof. apply asn1_okb_spec. vm_compute. reflexivity. Qed.

Lemma sealed_read `{KeyCodec} : TpmKeyFile.from_asn1 sealed_asn1 = Ok sealed_key.
Proof. vm_compute. reflexivity. Qed.

Lemma sealed_valid : key_valid sealed_key.
Proof. apply (from_asn1_exact sealed_asn1); [apply sealed_asn1_ok | apply sealed_read]. Qed.

Lemma sealed_decodes : ber_decode (bits_of (encode sealed_asn1)) = Ok sealed_asn1.
Proof. apply ber_decode_encode; [apply sealed_asn1_ok | reflexivity]. Qed.

Lemma key_file_exact_witness :
  ∃ der, ber_decode der = Ok sealed_asn1 ∧ TpmKeyFile.from_der der = Ok sealed_key ∧ sealed_asn1 ≠ normalize sealed_asn1.
Proof.
  exists (bits_of (encode sealed_asn1)). split; [apply sealed_decodes|]. split; [|discriminate].
  apply (proj1 (key_file_exact _ _)). split; [apply sealed_valid|]. split; [reflexivity|].
  exists sealed_asn1. split; [apply sealed_decodes | vm_compute; reflexivity].
Defined.

(** ** Writing *)

(** C24.  A key that is written, in DER or PEM, is read back as the same key
    exactly when it is valid; [to_der] itself checks only the secret and the
    RSA parent, and otherwise fails only when the encoder does.  A new key
    passes these checks and its file is refused by [from_der]. *)
Theorem key_file_roundtrip `{KeyCodecOk} (k : TpmKeyFile.t) (bs : list byte) :
  key_ok k →
  (TpmKeyFile.to_der k = Ok bs ↔ writable k ∧ der_encode (TpmKeyFile.to_asn1 k) = Ok bs) ∧
  (TpmKeyFile.to_der k = Ok bs →
     (TpmKeyFile.from_der bs = Ok k ↔ key_valid k) ∧
     ∃ pem, TpmKeyFile.to_pem k = Ok pem ∧
       TpmKeyFile.from_pem (as_bytes pem) = TpmKeyFile.from_der bs) ∧
  (∃ k0, TpmKeyFile.new = Ok k0 ∧ writable k0 ∧
     ∀ bs0, TpmKeyFile.to_der k0 = Ok bs0 →
       TpmKeyFile.from_der bs0 =
         Err (TpmKeyError.InvalidKeyAlgorithm TpmKeyType.Loadable TpmAlgId.Null)).
Proof.
  intros Hk. split; [apply to_der_Ok|]. split.
  - intros Hd. pose proof Hd as [Hw He]%to_der_Ok. split.
    + pose proof (to_asn1_ok k Hk) as Ha. unfold TpmKeyFile.from_der.
      rewrite (ber_decode_encode _ _ Ha He). cbn [map_err result_bind].
      rewrite (from_asn1_exact _ _ Ha), normalize_to_asn1. destruct Hk as [Hp _]. naive_solver.
    + exists (pem_encode TpmKeyFile.PEM_TAG bs). unfold TpmKeyFile.to_pem, TpmKeyFile.from_pem.
      rewrite Hd, pem_parse_encode. split; [done|]. cbn [map_err result_bind].
      by rewrite bool_decide_true.
  - destruct new_invalid as (k0 & Hn & Hok & Hw & Hr). exists k0. split_and!; [done..|].
    intros bs0 [_ He]%to_der_Ok. unfold TpmKeyFile.from_der.
    by rewrite (ber_decode_encode _ _ (to_asn1_ok k0 Hok) He).
Qed.

Lemma sealed_ok : key_ok sealed_key.
Proof. split_and!; by vm_compute. Qed.

Lemma key_file_roundtrip_witness :
  ∃ bs pem, TpmKeyFile.to_der sealed_key = Ok bs ∧ TpmKeyFile.to_pem sealed_key = Ok pem ∧
    TpmKeyFile.from_pem (as_bytes pem) = Ok sealed_key.
Proof.
  destruct (der_encode (TpmKeyFile.to_asn1 sealed_key)) as [bs| |] eqn:He; [|discriminate He..].
  destruct (key_file_roundtrip sealed_key bs sealed_ok) as (Hw & Hr & _).
  assert (TpmKeyFile.to_der sealed_key = Ok bs) as Hd
    by (apply Hw; split; [apply key_valid_writable, sealed_valid | exact He]).
  destruct (Hr Hd) as (Hv & pem & Hp & Hf). exists bs, pem.
  split; [exact Hd|]. split; [exact Hp|]. rewrite Hf. apply Hv, sealed_valid.
Defined.

(** ** Building *)

(** A new key that is given a kind and the public and private parts a TPM
    returned, both of which can be marshalled, holds exactly their encodings
    and the object type of the public part; when it is given an encrypted
    secret too, it holds its encoding.  It is a valid key exactly when the kind
    allows the object type and the secret. *)
Theorem key_file_built `{KeyCodec} (kind : TpmKeyType.t) (pub : ty Tpm2bPublic) (priv : ty Tpm2bPrivate)
    (secret : option (ty Tpm2bEncryptedSecret)) (parent : TpmInt.t) (pub_bytes priv_bytes : list byte) :
  wire Tpm2bPublic pub = Some pub_bytes → wire Tpm2bPrivate priv = Some priv_bytes →
  from_option (λ s, is_Some (wire Tpm2bEncryptedSecret s)) True secret →
  ∃ k,
    (let? k := TpmKeyFile.new in
     let? k := TpmKeyFile.with_public pub (TpmKeyFile.with_kind kind k) in
     let? k := TpmKeyFile.with_private priv (TpmKeyFile.with_parent parent k) in
     match secret with Some s => TpmKeyFile.with_secret s k | None => Ok k end) = Ok k ∧
    TpmKeyFile.public k = pub_bytes ∧ TpmKeyFile.private k = priv_bytes ∧
    TpmKeyFile.secret k = bytes_of (secret ≫= wire Tpm2bEncryptedSecret) ∧
    (key_valid k ↔
     kind_fits kind (TpmtPublic.object_type (Tpm2bStruct.inner pub)) ∧
     match kind with
     | TpmKeyType.Loadable => secret = None
     | TpmKeyType.Importable => secret ≠ None
     | TpmKeyType.SealedData => True
     end).
Proof.
  intros Hpub Hpriv Hsec. destruct new_fields as (pub0 & priv0 & ->). cbn [result_bind].
  rewrite (with_public_ok pub pub_bytes _ Hpub). cbn [result_bind].
  rewrite (with_private_ok priv priv_bytes _ Hpriv). cbn [result_bind].
  assert (public_blob pub_bytes (TpmKeyFile.public_type pub)) as Hb by (by exists pub).
  pose proof (private_wire _ _ Hpriv) as Hb2.
  destruct secret as [s|]; simpl in Hsec |- *.
  - destruct Hsec as [sb Hs]. rewrite (with_secret_ok s sb _ Hs), Hs.
    pose proof (secret_wire _ _ Hs) as Hb3. pose proof (secret_blob_nonempty _ Hb3).
    eexists. split; [done|]. split_and!; [done..|]. unfold key_valid. simpl.
    destruct kind; simpl; naive_solver.
  - eexists. split; [done|]. split_and!; [done..|]. unfold key_valid. simpl.
    pose proof (secret_blob_nonempty []). destruct kind; simpl; naive_solver.
Qed.

Lemma key_file_built_witness :
  ∃ k,
    (let? k := TpmKeyFile.new in
     let? k := TpmKeyFile.with_public sealed_public (TpmKeyFile.with_kind TpmKeyType.Importable k) in
     let? k := TpmKeyFile.with_private (TpmBuffer.new MAX_PRIVATE_SIZE) (TpmKeyFile.with_parent (TpmInt.new 4 0) k) in
     TpmKeyFile.with_secret (TpmBuffer.new MAX_RSA_KEY_BYTES) k) = Ok k ∧
    TpmKeyFile.secret k = [x00; x00] ∧ key_valid k.
Proof.
  destruct (key_file_built TpmKeyType.Importable sealed_public (TpmBuffer.new MAX_PRIVATE_SIZE)
    (Some (TpmBuffer.new MAX_RSA_KEY_BYTES)) (TpmInt.new 4 0)
    (bytes_of (wire Tpm2bPublic sealed_public)) [x00; x00]) as (k & Hk & _ & _ & Hs & Hv);
    [vm_compute; reflexivity.. | by eexists |].
  exists k. split; [exact Hk|]. split; [exact Hs|]. apply Hv. split; [by right; right | discriminate].
Defined.
