(* ===== verification/Handle.v ===== *)
(** Handle patterns: [sh/src/handle.rs].  [Display] of the errors is left out. *)

From Stdlib Require Import Ascii String.
From S2P Require Import Prelude State EnumMacro Enums Text.

(** ** [enum HandleError] *)

Module HandleError.
Inductive t : Type :=
| HandleHasTooManyAsterisks
| HandlePatternNotAllowed
| HandleTooShort
| HandleTooLong
| InvalidHandleCharacter (c : Z)
| InvalidHandleType (b : Z).
End HandleError.

(** [handle_type]: the high octet as a [TpmHt] *)
Definition handle_type (handle : Z) : option TpmHt.t :=
  match try_from TpmHt.t (Z.shiftr handle 24 mod 2 ^ 8) with
  | Ok ht => Some ht
  | _ => None
  end.

(** ** [struct Handle] *)

Module Handle.
Record t := mk { mask : Z; val : Z }.

#[global] Instance eq_dec : EqDecision t.
Proof. solve_decision. Defined.

Abbreviation Res := (result HandleError.t).

Definition new (value : Z) : t := mk 0xFFFFFFFF value.

Definition value (self : t) : option Z :=
  if mask self =? 0xFFFFFFFF then Some (val self) else None.

Definition require_value (self : t) : Res Z :=
  ok_or (value self) HandleError.HandlePatternNotAllowed.

Definition matches (self : t) (handle : Z) : bool := Z.land handle (mask self) =? val self.

(** One character of [Display]: the nibble at [i] *)
Definition nibble_char (self : t) (i : Z) : Z :=
  let shift := i * 4 in
  if Z.land (Z.shiftr (mask self) shift) 0xF =? 0xF
  then digit_char (Z.land (Z.shiftr (val self) shift) 0xF)
  else chr "?".

Definition to_string (self : t) : str :=
  if mask self =? 0 then lit "*" else map (nibble_char self) [7; 6; 5; 4; 3; 2; 1; 0].

(** [x << shift] of a [u32]: a shift that is not below 32 panics. *)
Definition shl (x nibble_idx : Z) : Res Z :=
  if (0 <=? nibble_idx) && (nibble_idx <? 8)
  then Ok (Z.shiftl x (nibble_idx * 4) mod 2 ^ 32) else Panic.

(** The loop over the characters of [from_str] *)
Fixpoint parse_chars (padding : Z) (s : str) (mask value nibble_idx : Z) : Res t :=
  match s with
  | [] => Ok (mk mask value)
  | c :: s =>
      if c =? chr "*" then parse_chars padding s mask value (nibble_idx - padding)
      else
        match to_digit 16 c with
        | Some v =>
            let? m := shl 0xF nibble_idx in
            let? v := shl v nibble_idx in
            parse_chars padding s (Z.lor mask m) (Z.lor value v) (nibble_idx - 1)
        | None =>
            if c =? chr "?" then parse_chars padding s mask value (nibble_idx - 1)
            else Err (HandleError.InvalidHandleCharacter c)
        end
  end.

(** [value_str.chars().filter(|&c| c == '*').count()] *)
Definition asterisks (s : str) : Z := zlen (filter (λ c, c = chr "*") (s : list Z)).

Definition from_str (value_str : str) : Res t :=
  if bool_decide (value_str = lit "*") then Ok (mk 0 0)
  else
    let asterisk_count := asterisks value_str in
    if 1 <? asterisk_count then Err HandleError.HandleHasTooManyAsterisks
    else
      let? explicit_len := usub (utf8_len value_str) asterisk_count in
      if (asterisk_count =? 0) && (explicit_len <? 8) then Err HandleError.HandleTooShort
      else if 8 <? explicit_len then Err HandleError.HandleTooLong
      else
        let? padding := usub 8 explicit_len in
        parse_chars padding value_str 0 0 7.

(** [TryFrom<Handle> for TpmHt] *)
Definition to_ht (handle : t) : Res TpmHt.t :=
  let? raw_handle := ok_or (value handle) HandleError.HandlePatternNotAllowed in
  ok_or (handle_type raw_handle) (HandleError.InvalidHandleType (Z.shiftr raw_handle 24 mod 2 ^ 8)).
End Handle.

