(* ===== verification/HandleSpec.v ===== *)
(** Handle patterns: what a text denotes. *)

From Stdlib Require Import Ascii String.
From S2P Require Import Prelude State EnumMacro Enums Text Handle.

(** ** Numbers as hexadecimal digits *)

(** The number with the digits [ds], the most significant first. *)
Definition of_nibbles (ds : list Z) : Z := foldl (λ acc d, acc * 16 + d) 0 ds.
Definition nibble (n i : Z) : Z := n / 16 ^ i mod 16.

(** The [k] low digits of a number, the most significant first. *)
Fixpoint nibbles (k : nat) (n : Z) : list Z :=
  match k with
  | O => []
  | S k => nibbles k (n / 16) ++ [n mod 16]
  end.

(** A pattern gives a digit or leaves it open. *)
Definition digit_mask (p : option Z) : Z := if p is Some _ then 15 else 0.
Definition digit_value (p : option Z) : Z := default 0 p.
Definition handle_of (ps : list (option Z)) : Handle.t :=
  Handle.mk (of_nibbles (map digit_mask ps)) (of_nibbles (map digit_value ps)).

Definition digits_ok (ps : list (option Z)) : Prop :=
  length ps = 8%nat ∧ Forall (λ p, ∀ d, p = Some d → 0 ≤ d < 16) ps.

(** ** The language of patterns *)

(** A character for one digit: the digit, or [?]. *)
Definition symbol (c : Z) (p : option Z) : Prop :=
  match p with
  | Some d => to_digit 16 c = Some d
  | None => c = chr "?"
  end.

(** [reads s ps]: [s] spells out the eight digits of [ps], or leaves out a
    block of open digits where it has the asterisk. *)
Definition reads (s : str) (ps : list (option Z)) : Prop :=
  length ps = 8%nat ∧
  (Forall2 symbol s ps ∨
   ∃ s1 s2 p1 p2 k, s = s1 ++ chr "*" :: s2 ∧ ps = p1 ++ replicate k None ++ p2 ∧
     Forall2 symbol s1 p1 ∧ Forall2 symbol s2 p2).

(** ** Lemmas: digits *)

Lemma of_nibbles_snoc ds d : of_nibbles (ds ++ [d]) = of_nibbles ds * 16 + d.
Proof. unfold of_nibbles. by rewrite foldl_app. Qed.

Lemma of_nibbles_app ds es : of_nibbles (ds ++ es) = of_nibbles ds * 16 ^ zlen es + of_nibbles es.
Proof.
  induction es as [|e es IH] using rev_ind.
  - rewrite app_nil_r. unfold zlen. simpl. change (of_nibbles []) with 0. lia.
  - rewrite app_assoc, !of_nibbles_snoc, IH, zlen_app. change (zlen [e]) with 1.
    rewrite Z.pow_add_r, Z.pow_1_r by (pose proof (zlen_nonneg es); lia). lia.
Qed.

Lemma of_nibbles_bound ds : Forall (λ d, 0 ≤ d < 16) ds → 0 ≤ of_nibbles ds < 16 ^ zlen ds.
Proof.
  induction ds as [|d ds IH] using rev_ind; [done|].
  intros [Hds Hd%Forall_inv]%Forall_app. specialize (IH Hds).
  rewrite of_nibbles_snoc, zlen_app. change (zlen [d]) with 1.
  rewrite Z.pow_add_r, Z.pow_1_r by (pose proof (zlen_nonneg ds); lia). lia.
Qed.

Lemma length_nibbles k n : length (nibbles k n) = k.
Proof. revert n; induction k as [|k IH]; intros n; simpl; [done|]. rewrite length_app, IH. simpl. lia. Qed.

Lemma of_nibbles_of n : ∀ k, 0 ≤ n < 16 ^ Z.of_nat k → of_nibbles (nibbles k n) = n.
Proof.
  intros k. revert n; induction k as [|k IH]; intros n Hn; [simpl in *; change (of_nibbles []) with 0; lia|].
  cbn [nibbles]. rewrite Nat2Z.inj_succ, Z.pow_succ_r in Hn by lia.
  pose proof (Z.div_mod n 16 ltac:(lia)).
  rewrite of_nibbles_snoc, IH; [lia|]. split; [apply Z.div_pos; lia | apply Z.div_lt_upper_bound; lia].
Qed.

Lemma nibbles_of ds : Forall (λ d, 0 ≤ d < 16) ds → nibbles (length ds) (of_nibbles ds) = ds.
Proof.
  induction ds as [|d ds IH] using rev_ind; [done|].
  intros [Hds Hd%Forall_inv]%Forall_app.
  rewrite length_app, Nat.add_comm. cbn [length nibbles Nat.add]. rewrite of_nibbles_snoc.
  rewrite Z.div_add_l, Z.div_small, Z.add_0_r, IH by (done || lia).
  by rewrite Z.add_comm, Z.mod_add, Z.mod_small by lia.
Qed.

Lemma nibbles_range k n : Forall (λ d, 0 ≤ d < 16) (nibbles k n).
Proof.
  revert n; induction k as [|k IH]; intros n; [done|]. cbn [nibbles].
  apply Forall_app. split; [apply IH|]. constructor; [|done]. apply Z.mod_pos_bound; lia.
Qed.

(** Digit by digit: conjunction *)
Lemma land_nibble a x b y :
  0 ≤ a → 0 ≤ b → 0 ≤ x < 16 → 0 ≤ y < 16 → Z.land (a * 16 + x) (b * 16 + y) = Z.land a b * 16 + Z.land x y.
Proof.
  intros Ha Hb Hx Hy.
  assert (∀ p q, 0 ≤ p → 0 ≤ q < 16 → ∀ i, 0 ≤ i →
    Z.testbit (p * 16 + q) i = if i <? 4 then Z.testbit q i else Z.testbit p (i - 4)) as Hbit.
  { intros p q Hp Hq i Hi. destruct (Z.ltb_spec i 4).
    - rewrite <-(Z.mod_pow2_bits_low (p * 16 + q) 4 i) by lia. change (2 ^ 4) with 16.
      by rewrite Z.add_comm, Z.mod_add, Z.mod_small by lia.
    - replace i with (i - 4 + 4) at 1 by lia. rewrite <-Z.div_pow2_bits by lia. change (2 ^ 4) with 16.
      by rewrite Z.div_add_l, Z.div_small, Z.add_0_r by lia. }
  assert (0 ≤ Z.land x y < 16) as Hxy.
  { split; [by apply Z.land_nonneg; lia|]. destruct (Z.eq_dec (Z.land x y) 0); [lia|].
    change 16 with (2 ^ 4). apply Z.log2_lt_pow2; [pose proof (proj2 (Z.land_nonneg x y)); lia|].
    eapply Z.le_lt_trans; [by apply Z.log2_land; lia|].
    destruct (Z.eq_dec x 0) as [->|]; [by rewrite Z.land_0_l in *|].
    assert (Z.log2 x < 4) by (apply Z.log2_lt_pow2; lia). lia. }
  apply Z.bits_inj'. intros i Hi. rewrite Z.land_spec, !Hbit by (try apply Z.land_nonneg; lia).
  destruct (i <? 4); by rewrite Z.land_spec.
Qed.

Lemma land_15 d : 0 ≤ d < 16 → Z.land d 15 = d.
Proof. intros. change 15 with (Z.ones 4). rewrite Z.land_ones by lia. by apply Z.mod_small. Qed.

(** ** What a pattern matches *)

Definition agrees (p : option Z) (d : Z) : Prop := p = None ∨ p = Some d.

Lemma masks_range ps : Forall (λ d, 0 ≤ d < 16) (map digit_mask ps).
Proof. apply Forall_map, Forall_true. by intros []. Qed.

Lemma values_range ps :
  Forall (λ p, ∀ d, p = Some d → 0 ≤ d < 16) ps → Forall (λ d, 0 ≤ d < 16) (map digit_value ps).
Proof.
  intros Hp. apply Forall_map. eapply Forall_impl; [|exact Hp]. intros [d|] Hd; simpl; [by apply Hd | lia].
Qed.

Lemma land_pattern ps n :
  Forall (λ p, ∀ d, p = Some d → 0 ≤ d < 16) ps → 0 ≤ n →
  Z.land n (of_nibbles (map digit_mask ps)) = of_nibbles (map digit_value ps) ↔
  Forall2 agrees ps (nibbles (length ps) n).
Proof.
  revert n. induction ps as [|p ps IH] using rev_ind; intros n Hp Hn.
  { simpl. change (of_nibbles []) with 0. rewrite Z.land_0_r. split; [by constructor | done]. }
  apply Forall_app in Hp as [Hps Hp%Forall_inv].
  rewrite length_app, Nat.add_comm. cbn [length nibbles Nat.add].
  rewrite !map_app. cbn [map]. rewrite !of_nibbles_snoc.
  pose proof (Z.mod_pos_bound n 16 ltac:(lia)). pose proof (Z.div_pos n 16 Hn ltac:(lia)) as Hq.
  pose proof (of_nibbles_bound _ (masks_range ps)) as Hm. pose proof (of_nibbles_bound _ (values_range ps Hps)) as Hv.
  rewrite (Z.div_mod n 16) at 1 by lia. rewrite (Z.mul_comm 16), land_nibble by (try lia; destruct p; simpl; lia).
  assert (Z.land (n mod 16) (digit_mask p) = digit_value p ↔ agrees p (n mod 16)) as Hlast.
  { destruct p as [d|]; simpl; unfold agrees.
    - rewrite land_15 by done. split; [intros <-; by right | by intros [|[= <-]]].
    - rewrite Z.land_0_r. split; [by left | done]. }
  assert (0 ≤ Z.land (n mod 16) (digit_mask p) < 16) as Hl.
  { destruct p; simpl; [by rewrite land_15 | rewrite Z.land_0_r; lia]. }
  assert (0 ≤ digit_value p < 16) as Hd by (destruct p; simpl; [by apply Hp | lia]).
  split.
  - intros E. apply Forall2_app; [apply IH; [done..|]; lia|]. constructor; [|done]. apply Hlast. lia.
  - intros [H1 H2]%Forall2_app_inv; [|by rewrite length_nibbles].
    inversion_clear H2 as [|? ? ? ? Ha _]. apply Hlast in Ha. apply IH in H1; [|done..]. lia.
Qed.

Lemma matches_exact ps n :
  digits_ok ps → 0 ≤ n ≤ u32_max →
  Handle.matches (handle_of ps) n = true ↔ Forall2 agrees ps (nibbles 8 n).
Proof.
  intros [Hl Hp] Hn. unfold Handle.matches, handle_of. cbn [Handle.mask Handle.val].
  rewrite Z.eqb_eq, land_pattern by (done || lia). by rewrite Hl.
Qed.

(** ** Reading *)

(** The digits a character stands for, [None] for a character without. *)
Definition denote_char (padding : Z) (c : Z) : option (list (option Z)) :=
  if c =? chr "*" then Some (replicate (Z.to_nat padding) None)
  else match to_digit 16 c with
       | Some d => Some [Some d]
       | None => if c =? chr "?" then Some [None] else None
       end.

Fixpoint denote (padding : Z) (s : str) : Z + list (option Z) :=
  match s with
  | [] => inr []
  | c :: s =>
      match denote_char padding c with
      | None => inl c
      | Some ps => match denote padding s with inl c => inl c | inr qs => inr (ps ++ qs) end
      end
  end.

(** The digits a character takes up in the count of [from_str] *)
Definition width (padding c : Z) : Z := if c =? chr "*" then padding else len_utf8 c.
Definition widths (padding : Z) (s : str) : Z := foldr Z.add 0 (map (width padding) s).

(** A number whose digits [ps] are read, the others not yet. *)
Definition partial (f : option Z → Z) (ps : list (option Z)) : Z := of_nibbles (map f ps) * 16 ^ (8 - zlen ps).

Lemma to_digit_range c d : to_digit 16 c = Some d → 0 ≤ d < 16 ∧ len_utf8 c = 1.
Proof. unfold to_digit, len_utf8. repeat case_match; intros [= <-]; lia. Qed.

Lemma width_pos padding c : 0 ≤ padding → 0 ≤ width padding c.
Proof. unfold width, len_utf8. repeat case_match; lia. Qed.

Lemma widths_pos padding s : 0 ≤ padding → 0 ≤ widths padding s.
Proof.
  intros Hp. induction s as [|c s IH]; [done|]. unfold widths. simpl. fold (widths padding s).
  pose proof (width_pos padding c Hp). lia.
Qed.

Lemma denote_char_width padding c ps : 0 ≤ padding → denote_char padding c = Some ps → zlen ps = width padding c.
Proof.
  intros Hp. unfold denote_char, width. destruct (c =? chr "*").
  - intros [= <-]. unfold zlen. rewrite length_replicate. lia.
  - destruct (to_digit 16 c) as [d|] eqn:Hd.
    + apply to_digit_range in Hd as [_ ->]. by intros [= <-].
    + destruct (Z.eqb_spec c (chr "?")) as [->|]; [|done]. by intros [= <-].
Qed.

Lemma of_nibbles_zeros k : of_nibbles (replicate k 0) = 0.
Proof. induction k as [|k IH]; [done|]. by rewrite replicate_S_end, of_nibbles_snoc, IH. Qed.

Lemma partial_open f ps k :
  f None = 0 → zlen ps + Z.of_nat k ≤ 8 → partial f (ps ++ replicate k None) = partial f ps.
Proof.
  intros Hf Hk. unfold partial. rewrite map_app. change (map f (replicate k None)) with (f <$> replicate k None).
  rewrite fmap_replicate, Hf, of_nibbles_app, of_nibbles_zeros, Z.add_0_r.
  rewrite zlen_app. unfold zlen at 1 3. rewrite !length_replicate.
  rewrite <-Z.mul_assoc, <-Z.pow_add_r by (pose proof (zlen_nonneg ps); lia). do 2 f_equal. lia.
Qed.

(** Setting the next digit *)
Lemma partial_digit f ps p :
  zlen ps < 8 → 0 ≤ f p < 16 → Forall (λ d, 0 ≤ d < 16) (map f ps) →
  ∃ m, Handle.shl (f p) (7 - zlen ps) = Ok m ∧ Z.lor (partial f ps) m = partial f (ps ++ [p]).
Proof.
  intros Hl Hp Hr. pose proof (zlen_nonneg ps). unfold Handle.shl.
  rewrite (proj2 (Z.leb_le 0 (7 - zlen ps))), (proj2 (Z.ltb_lt (7 - zlen ps) 8)) by lia. cbn [andb].
  set (j := 7 - zlen ps) in *. assert (16 ^ j = 2 ^ (j * 4)) as E.
  { change 16 with (2 ^ 4). rewrite <-Z.pow_mul_r by lia. f_equal. lia. }
  eexists. split; [reflexivity|].
  assert (0 < 2 ^ (j * 4) ≤ 2 ^ 28) by (split; [apply Z.pow_pos_nonneg | apply Z.pow_le_mono_r]; lia).
  rewrite Z.shiftl_mul_pow2, Z.mod_small by (change (2 ^ 32) with (16 * 2 ^ 28); nia).
  unfold partial. rewrite map_app. cbn [map]. rewrite of_nibbles_snoc, zlen_app. change (zlen [p]) with 1.
  replace (8 - zlen ps) with (Z.succ j) by lia. replace (8 - (zlen ps + 1)) with j by lia.
  rewrite Z.pow_succ_r by lia. rewrite <-E. set (q := of_nibbles (map f ps)).
  replace (q * (16 * 16 ^ j)) with (Z.shiftl (q * 16) (j * 4)) by (rewrite Z.shiftl_mul_pow2, <-E by lia; ring).
  replace (f p * 16 ^ j) with (Z.shiftl (f p) (j * 4)) by (rewrite Z.shiftl_mul_pow2, <-E by lia; ring).
  rewrite <-Z.shiftl_lor. rewrite Z.shiftl_mul_pow2, <-E by lia. f_equal.
  pose proof (of_nibbles_bound _ Hr). fold q in H0.
  pose proof (land_nibble q 0 0 (f p) ltac:(lia) ltac:(lia) ltac:(lia) ltac:(lia)) as Hland.
  rewrite Z.add_0_r, Z.mul_0_l, Z.add_0_l, !Z.land_0_r, Z.land_0_l in Hland.
  rewrite <-Z.lxor_lor, Z.add_nocarry_lxor by lia. lia.
Qed.

Lemma widths_cons padding c s : widths padding (c :: s) = width padding c + widths padding s.
Proof. done. Qed.

Lemma digits_of_partial ps :
  zlen ps = 8 → Handle.mk (partial digit_mask ps) (partial digit_value ps) = handle_of ps.
Proof. intros Hl. unfold handle_of, partial. rewrite Hl. change (16 ^ (8 - 8)) with 1. by rewrite !Z.mul_1_r. Qed.

(** The loop reads the digits that its characters denote. *)
Lemma parse_chars_spec padding s ps :
  0 ≤ padding → Forall (λ p, ∀ d, p = Some d → 0 ≤ d < 16) ps → zlen ps + widths padding s = 8 →
  Handle.parse_chars padding s (partial digit_mask ps) (partial digit_value ps) (7 - zlen ps) =
    match denote padding s with
    | inl c => Err (HandleError.InvalidHandleCharacter c)
    | inr qs => Ok (handle_of (ps ++ qs))
    end.
Proof.
  intros Hpad. revert ps. induction s as [|c s IH]; intros ps Hps Hl; cbn [Handle.parse_chars denote].
  { unfold widths in Hl. simpl in Hl. rewrite app_nil_r, digits_of_partial; [done | lia]. }
  rewrite widths_cons in Hl. pose proof (widths_pos padding s Hpad) as Hw.
  assert (∀ qs, zlen qs = width padding c → Forall (λ p, ∀ d, p = Some d → 0 ≤ d < 16) qs →
    Handle.parse_chars padding s (partial digit_mask (ps ++ qs)) (partial digit_value (ps ++ qs))
      (7 - zlen ps - width padding c) =
    match match denote padding s with inl c => inl c | inr qs' => inr (qs ++ qs') end with
    | inl c => Err (HandleError.InvalidHandleCharacter c)
    | inr qs => Ok (handle_of (ps ++ qs))
    end) as Hnext.
  { intros qs Hq Hr. replace (7 - zlen ps - width padding c) with (7 - zlen (ps ++ qs)) by (rewrite zlen_app; lia).
    rewrite IH; [|by apply Forall_app | rewrite zlen_app; lia].
    destruct (denote padding s); [done|]. by rewrite app_assoc. }
  unfold denote_char. unfold width in Hnext, Hl. destruct (c =? chr "*").
  - rewrite <-Hnext by (unfold zlen; rewrite ?length_replicate; try lia; by apply Forall_replicate).
    rewrite !partial_open by (done || lia). done.
  - destruct (to_digit 16 c) as [d|] eqn:Hd.
    + destruct (to_digit_range c d Hd) as [Hr Hc]. rewrite Hc in *.
      destruct (partial_digit digit_mask ps (Some d)) as (m & Hm & Em);
        [lia | done | by apply masks_range |].
      destruct (partial_digit digit_value ps (Some d)) as (v & Hv & Ev);
        [lia | done | by apply values_range |].
      change (digit_mask (Some d)) with 15 in Hm. change (digit_value (Some d)) with d in Hv.
      rewrite Hm, Hv. cbn [result_bind]. rewrite Em, Ev. rewrite <-Hnext; [done | done |].
      constructor; [by intros ? [= <-] | done].
    + destruct (Z.eqb_spec c (chr "?")) as [->|]; [|done].
      change (len_utf8 (chr "?")) with 1 in *. rewrite <-Hnext; [|done | by repeat constructor].
      rewrite !(partial_open _ ps 1) by (done || lia). done.
Qed.

(** ** The whole text *)

Lemma asterisks_cons c s : Handle.asterisks (c :: s) = (if c =? chr "*" then 1 else 0) + Handle.asterisks s.
Proof.
  unfold Handle.asterisks, zlen. rewrite filter_cons. destruct (Z.eqb_spec c (chr "*")) as [->|Hc].
  - rewrite decide_True, length_cons by done. lia.
  - by rewrite decide_False.
Qed.

Lemma asterisks_nonneg s : 0 ≤ Handle.asterisks s.
Proof. apply zlen_nonneg. Qed.

Lemma utf8_len_cons c s : utf8_len (c :: s) = len_utf8 c + utf8_len s.
Proof. done. Qed.

(** An asterisk has one byte and counts as the padding. *)
Lemma widths_total padding s :
  widths padding s = utf8_len s - Handle.asterisks s + Handle.asterisks s * padding.
Proof.
  induction s as [|c s IH]; [done|]. rewrite widths_cons, utf8_len_cons, asterisks_cons, IH.
  unfold width. destruct (Z.eqb_spec c (chr "*")) as [->|]; [|lia]. change (len_utf8 (chr "*")) with 1. lia.
Qed.

Lemma asterisks_utf8 s : Handle.asterisks s ≤ utf8_len s.
Proof.
  induction s as [|c s IH]; [done|]. rewrite utf8_len_cons, asterisks_cons.
  assert (1 ≤ len_utf8 c) by (unfold len_utf8; repeat case_match; lia). case_match; lia.
Qed.

(** The padding, when the length of the text is one [from_str] takes. *)
Definition text_padding (s : str) : option Z :=
  let n := Handle.asterisks s in
  let len := utf8_len s - n in
  if (n =? 0) && (len =? 8) then Some 0
  else if (n =? 1) && (len <=? 8) then Some (8 - len) else None.

Lemma from_str_spec s :
  match text_padding s with
  | Some padding =>
      0 ≤ padding ∧ widths padding s = 8 ∧
      Handle.from_str s =
        match denote padding s with
        | inl c => Err (HandleError.InvalidHandleCharacter c)
        | inr ps => Ok (handle_of ps)
        end
  | None =>
      Handle.from_str s =
        Err (if 1 <? Handle.asterisks s then HandleError.HandleHasTooManyAsterisks
             else if utf8_len s - Handle.asterisks s <? 8 then HandleError.HandleTooShort
             else HandleError.HandleTooLong)
  end.
Proof.
  unfold text_padding, Handle.from_str.
  pose proof (asterisks_nonneg s) as Hn. pose proof (asterisks_utf8 s) as Hu.
  pose proof (widths_total 0 s) as Hw0. pose proof (λ p, widths_total p s) as Hw.
  case_bool_decide as Hs; [subst; by vm_compute|].
  rewrite usub_Ok by done. cbn [result_bind].
  destruct (Z.eqb_spec (Handle.asterisks s) 0) as [E0|E0]; cbn [andb].
  - rewrite E0 in *. destruct (Z.ltb_spec (utf8_len s - 0) 8); [done || (rewrite (proj2 (Z.eqb_neq _ _)) by lia; done)|].
    destruct (Z.ltb_spec 8 (utf8_len s - 0)).
    + rewrite (proj2 (Z.eqb_neq _ _)) by lia. done.
    + rewrite (proj2 (Z.eqb_eq _ _)), usub_Ok by lia. split; [lia|]. split; [lia|].
      cbn [result_bind]. replace (8 - (utf8_len s - 0)) with 0 by lia.
      apply (parse_chars_spec 0 s []); [lia | done | change (zlen []) with 0; lia].
  - destruct (Z.ltb_spec 1 (Handle.asterisks s)); [rewrite (proj2 (Z.eqb_neq _ 1)) by lia; done|].
    assert (Handle.asterisks s = 1) as E1 by lia. rewrite E1 in *. cbn [Z.eqb andb].
    destruct (Z.ltb_spec 8 (utf8_len s - 1)).
    + rewrite (proj2 (Z.leb_gt _ _)) by lia. cbn. rewrite (proj2 (Z.ltb_ge _ _)) by lia. done.
    + rewrite (proj2 (Z.leb_le _ _)), usub_Ok by lia. specialize (Hw (8 - (utf8_len s - 1))).
      split; [lia|]. split; [lia|]. cbn [result_bind].
      apply (parse_chars_spec _ s []); [lia | done | change (zlen []) with 0; lia].
Qed.

(** ** The language and the parser *)

Lemma symbol_char padding c p :
  symbol c p ↔ c ≠ chr "*" ∧ denote_char padding c = Some [p].
Proof.
  unfold symbol, denote_char. destruct (Z.eqb_spec c (chr "*")) as [->|Hc].
  { split; [|by intros []]. by destruct p. }
  destruct (to_digit 16 c) as [d|] eqn:Hd, p as [d'|].
  - split; [by intros [= ->] | by intros [_ [= ->]]].
  - split; [by intros -> | by intros []].
  - split; [done|]. intros [_ H]. by destruct (c =? chr "?").
  - destruct (Z.eqb_spec c (chr "?")); split; [done..| |]; [done | by intros []].
Qed.

Lemma denote_app padding s t :
  denote padding (s ++ t) =
    match denote padding s with
    | inl c => inl c
    | inr ps => match denote padding t with inl c => inl c | inr qs => inr (ps ++ qs) end
    end.
Proof.
  induction s as [|c s IH]; simpl; [by destruct (denote padding t)|].
  destruct (denote_char padding c); [|done]. rewrite IH.
  destruct (denote padding s); [done|]. destruct (denote padding t); [done|]. by rewrite app_assoc.
Qed.

Lemma symbols_denote padding s ps :
  Forall2 symbol s ps ↔ Handle.asterisks s = 0 ∧ denote padding s = inr ps.
Proof.
  revert ps. induction s as [|c s IH]; intros ps.
  - split; [by intros ->%Forall2_nil_inv_l | intros [_ [= <-]]; constructor].
  - rewrite asterisks_cons. simpl. pose proof (asterisks_nonneg s). split.
    + intros (p & qs & [Hc Hd]%(symbol_char padding) & [Ha Hq]%IH & ->)%Forall2_cons_inv_l.
      rewrite Hd, Hq, Ha. by rewrite (proj2 (Z.eqb_neq _ _)).
    + destruct (Z.eqb_spec c (chr "*")) as [|Hc]; [lia|]. intros [Ha H1].
      destruct (denote_char padding c) as [cs|] eqn:Hd; [|done].
      destruct (denote padding s) as [|qs] eqn:Hs; [done|]. injection H1 as <-.
      assert (∃ p, cs = [p]) as [p ->].
      { unfold denote_char in Hd. rewrite (proj2 (Z.eqb_neq _ _) Hc) in Hd.
        repeat case_match; simplify_eq; by eexists. }
      constructor; [by apply (symbol_char padding) | by apply IH].
Qed.

Lemma symbols_len s ps : Forall2 symbol s ps → utf8_len s = zlen ps.
Proof.
  induction 1 as [|c p s ps Hc _ IH]; [done|]. rewrite utf8_len_cons, IH.
  change (p :: ps) with ([p] ++ ps). rewrite zlen_app. f_equal.
  unfold symbol in Hc. destruct p; [by rewrite (proj2 (to_digit_range _ _ Hc)) | by subst].
Qed.

(** A text with one asterisk *)
Lemma asterisk_split s :
  Handle.asterisks s = 1 → ∃ s1 s2, s = s1 ++ chr "*" :: s2 ∧ Handle.asterisks s1 = 0 ∧ Handle.asterisks s2 = 0.
Proof.
  induction s as [|c s IH]; [done|]. rewrite asterisks_cons. pose proof (asterisks_nonneg s).
  destruct (Z.eqb_spec c (chr "*")) as [->|Hc]; intros Ha.
  - exists [], s. split_and!; [done..|]. lia.
  - destruct IH as (s1 & s2 & -> & H1 & H2); [lia|]. exists (c :: s1), s2. split_and!; [done| |done].
    rewrite asterisks_cons. by rewrite (proj2 (Z.eqb_neq _ _)).
Qed.

Lemma asterisks_app s t : Handle.asterisks (s ++ t) = Handle.asterisks s + Handle.asterisks t.
Proof. induction s as [|c s IH]; [done|]. cbn [app]. rewrite !asterisks_cons, IH. lia. Qed.

Lemma utf8_len_app s t : utf8_len (s ++ t) = utf8_len s + utf8_len t.
Proof. induction s as [|c s IH]; [done|]. cbn [app]. rewrite !utf8_len_cons, IH. lia. Qed.

Lemma reads_denote s ps :
  reads s ps ↔ ∃ padding, text_padding s = Some padding ∧ denote padding s = inr ps.
Proof.
  unfold reads, text_padding. split.
  - intros [Hl [Hs|(s1 & s2 & p1 & p2 & k & -> & -> & H1 & H2)]].
    + pose proof (symbols_len _ _ Hs) as Hu. apply (symbols_denote 0) in Hs as [-> Hd].
      exists 0. rewrite Hu. unfold zlen. rewrite Hl. done.
    + pose proof (symbols_len _ _ H1) as Hu1. pose proof (symbols_len _ _ H2) as Hu2.
      exists (Z.of_nat k). apply (symbols_denote (Z.of_nat k)) in H1 as [Ha1 Hd1].
      apply (symbols_denote (Z.of_nat k)) in H2 as [Ha2 Hd2].
      rewrite asterisks_app, asterisks_cons, Ha1, Ha2, utf8_len_app, utf8_len_cons, Hu1, Hu2.
      rewrite !length_app, length_replicate in Hl. change (len_utf8 (chr "*")) with 1. simpl (_ =? _).
      cbn [andb]. rewrite (proj2 (Z.leb_le _ _)) by (unfold zlen; lia).
      split; [f_equal; unfold zlen; lia|]. rewrite denote_app, Hd1. simpl. by rewrite Hd2, Nat2Z.id.
  - intros (padding & Hp & Hd).
    destruct (Z.eqb_spec (Handle.asterisks s) 0) as [E0|E0]; cbn [andb] in Hp.
    + assert (Forall2 symbol s ps) as Hs by (by apply (symbols_denote padding)).
      destruct (Z.eqb_spec (utf8_len s - Handle.asterisks s) 8) as [E|E]; [|by rewrite E0 in Hp].
      rewrite (symbols_len _ _ Hs) in E. split; [unfold zlen in E; lia | by left].
    + destruct (Z.eqb_spec (Handle.asterisks s) 1) as [E1|]; [|done]. cbn [andb] in Hp.
      destruct (Z.leb_spec (utf8_len s - Handle.asterisks s) 8) as [Hl|]; [|done]. injection Hp as <-.
      destruct (asterisk_split s E1) as (s1 & s2 & -> & H1 & H2). revert Hd Hl. rewrite E1.
      rewrite utf8_len_app, utf8_len_cons. change (len_utf8 (chr "*")) with 1.
      set (padding := 8 - _). rewrite denote_app. intros Hd Hl.
      destruct (denote padding s1) as [|p1] eqn:Hd1; [done|]. simpl in Hd.
      destruct (denote padding s2) as [|p2] eqn:Hd2; [done|]. injection Hd as <-.
      assert (Forall2 symbol s1 p1) as Hs1 by (by apply (symbols_denote padding)).
      assert (Forall2 symbol s2 p2) as Hs2 by (by apply (symbols_denote padding)).
      pose proof (symbols_len _ _ Hs1). pose proof (symbols_len _ _ Hs2).
      split; [rewrite !length_app, length_replicate; unfold zlen in *; lia|].
      right. by exists s1, s2, p1, p2, (Z.to_nat padding).
Qed.

Lemma reads_digits s ps : reads s ps → digits_ok ps.
Proof.
  assert (∀ s ps, Forall2 symbol s ps → Forall (λ p, ∀ d, p = Some d → 0 ≤ d < 16) ps) as Hs.
  { clear s ps. intros s ps. induction 1 as [|c p s ps Hc _ IH]; constructor; [|done].
    intros d ->. exact (proj1 (to_digit_range _ _ Hc)). }
  intros [Hl H]. split; [done|]. destruct H as [H|(s1 & s2 & p1 & p2 & k & _ & -> & H1 & H2)]; [by eapply Hs|].
  apply Forall_app. split; [by eapply Hs|]. apply Forall_app. split; [by apply Forall_replicate | by eapply Hs].
Qed.

(** [from_str] reads the texts of patterns, and nothing panics. *)
Lemma from_str_exact s h :
  Handle.from_str s = Ok h ↔ ∃ ps, reads s ps ∧ h = handle_of ps.
Proof.
  pose proof (from_str_spec s) as Hs. destruct (text_padding s) as [padding|] eqn:Hp.
  - destruct Hs as (_ & _ & ->). split.
    + destruct (denote padding s) as [|ps] eqn:Hd; [done|]. intros [= <-].
      exists ps. split; [|done]. apply reads_denote. by exists padding.
    + intros (ps & (padding' & Hp' & Hd)%reads_denote & ->). rewrite Hp in Hp'. injection Hp' as <-. by rewrite Hd.
  - rewrite Hs. split; [done|]. intros (ps & (padding' & Hp' & _)%reads_denote & _). by rewrite Hp in Hp'.
Qed.

Lemma from_str_no_panic s : Handle.from_str s ≠ Panic.
Proof.
  pose proof (from_str_spec s) as Hs. destruct (text_padding s); [|by rewrite Hs].
  destruct Hs as (_ & _ & ->). by destruct (denote _ s).
Qed.

(** ** Printing *)

Lemma nibbles_shift n : 0 ≤ n →
  nibbles 8 n = map (λ i, Z.land (Z.shiftr n (i * 4)) 0xF) [7; 6; 5; 4; 3; 2; 1; 0].
Proof.
  intros Hn.
  assert (∀ i, 0 ≤ i → Z.land (Z.shiftr n (i * 4)) 0xF = n / 16 ^ i mod 16) as E.
  { intros i Hi. change 0xF with (Z.ones 4). rewrite Z.land_ones, Z.shiftr_div_pow2 by lia.
    change 16 with (2 ^ 4). by rewrite <-Z.pow_mul_r, (Z.mul_comm i) by lia. }
  cbn [map]. rewrite !E by lia. cbn [nibbles app]. rewrite !Z.div_div by lia.
  change (16 ^ 0) with 1. by rewrite Z.div_1_r.
Qed.

Definition symbol_of (p : option Z) : Z := if p is Some d then digit_char d else chr "?".

Lemma symbol_of_symbol p : (∀ d, p = Some d → 0 ≤ d < 16) → symbol (symbol_of p) p.
Proof. destruct p as [d|]; simpl; [|done]. intros Hd. apply to_digit_char; [by apply Hd | done]. Qed.

Lemma to_string_spec ps :
  digits_ok ps →
  Handle.to_string (handle_of ps) = if of_nibbles (map digit_mask ps) =? 0 then lit "*" else map symbol_of ps.
Proof.
  intros [Hl Hp]. unfold Handle.to_string. cbn [Handle.mask handle_of]. destruct (_ =? 0); [done|].
  pose proof (masks_range ps) as Hm. pose proof (values_range ps Hp) as Hv.
  pose proof (nibbles_of _ Hm) as Em. pose proof (nibbles_of _ Hv) as Ev.
  rewrite length_map, Hl, nibbles_shift in Em by apply of_nibbles_bound, Hm.
  rewrite length_map, Hl, nibbles_shift in Ev by apply of_nibbles_bound, Hv.
  destruct ps as [|p7 [|p6 [|p5 [|p4 [|p3 [|p2 [|p1 [|p0 [|]]]]]]]]]; try done.
  cbn [map] in Em, Ev |- *. unfold Handle.nibble_char. cbn [Handle.mask Handle.val handle_of map] in *.
  injection Em as -> -> -> -> -> -> -> ->. injection Ev as -> -> -> -> -> -> -> ->.
  assert (∀ p, (if digit_mask p =? 15 then digit_char (digit_value p) else chr "?") = symbol_of p) as Hc
    by (by intros []). by rewrite !Hc.
Qed.

Lemma of_nibbles_zero ps :
  of_nibbles (map digit_mask ps) = 0 → ps = replicate (length ps) None.
Proof.
  induction ps as [|p ps IH] using rev_ind; [done|].
  rewrite map_app. cbn [map]. rewrite of_nibbles_snoc. intros E.
  pose proof (of_nibbles_bound _ (masks_range ps)).
  destruct p as [d|]; simpl in E; [lia|].
  rewrite length_app, Nat.add_comm. cbn [length Nat.add]. rewrite replicate_S_end, <-IH; [done | lia].
Qed.

(** What is printed is read back. *)
Lemma to_string_reads ps : digits_ok ps → reads (Handle.to_string (handle_of ps)) ps.
Proof.
  intros [Hl Hp]. split; [done|]. rewrite to_string_spec by done.
  destruct (Z.eqb_spec (of_nibbles (map digit_mask ps)) 0) as [E|_].
  - right. exists [], [], [], [], 8%nat. split_and!; [done | | constructor..].
    rewrite app_nil_r. rewrite <-Hl. by apply of_nibbles_zero.
  - left. clear Hl. induction Hp; constructor; [by apply symbol_of_symbol | done].
Qed.

(** ** Single handles *)

Lemma new_handle_of n : 0 ≤ n ≤ u32_max → Handle.new n = handle_of (map Some (nibbles 8 n)).
Proof.
  intros Hn. unfold Handle.new, handle_of. rewrite !map_map.
  change (map (λ x, digit_value (Some x)) (nibbles 8 n)) with (map id (nibbles 8 n)).
  rewrite map_id, of_nibbles_of by (unfold u32_max in Hn; simpl; lia). f_equal.
Qed.

Lemma value_Some ps v :
  digits_ok ps → Handle.value (handle_of ps) = Some v ↔ 0 ≤ v ≤ u32_max ∧ ps = map Some (nibbles 8 v).
Proof.
  intros [Hl Hp]. unfold Handle.value. cbn [Handle.mask Handle.val handle_of]. split.
  - destruct (Z.eqb_spec (of_nibbles (map digit_mask ps)) 0xFFFFFFFF) as [E|]; [|done]. intros [= <-].
    pose proof (values_range ps Hp) as Hv. pose proof (of_nibbles_bound _ Hv) as Hb.
    assert (zlen (map digit_value ps) = 8) as Hz by (unfold zlen; rewrite length_map; lia).
    rewrite Hz in Hb. split; [unfold u32_max; lia|].
    assert (map digit_mask ps = replicate 8 15) as Hm.
    { rewrite <-(nibbles_of _ (masks_range ps)), length_map, Hl, E. done. }
    replace 8%nat with (length (map digit_value ps)) by (by rewrite length_map). rewrite nibbles_of by done.
    clear -Hm. revert Hm. generalize 8%nat. induction ps as [|p ps IH]; intros n Hm; [done|].
    destruct n as [|n]; [done|]. simpl in Hm |- *. injection Hm as Hp Hm. f_equal; [|by eapply IH].
    by destruct p.
  - intros [Hv ->]. rewrite !map_map. rewrite (proj2 (Z.eqb_eq _ _)) by done.
    change (map (λ x, digit_value (Some x)) (nibbles 8 v)) with (map id (nibbles 8 v)).
    rewrite map_id, of_nibbles_of by (unfold u32_max in Hv; simpl; lia). done.
Qed.
