(* ===== verification/Task.v ===== *)
(** The state of a shell command ([sh/src/task.rs]) and the errors it reports
    ([sh/src/error.rs]).

    A method of [TaskState] works on the task itself, on the device it is
    passed, on the directory of the key cache and on the random generator;
    the four are one state, [World]. *)

From stdpp Require Import gmap.
From S2P Require Import TpmKey.
From S2P Require Import Prelude State Errors Writer Codec Integer Buffer Tpml Struct EnumMacro Union Enums Rc Attributes.
From S2P Require Import BasicTypes Schemes Structures Body FrameData Dispatch Envelope Command Response Marshal.
From S2P Require Import Crypto Hash Text Transport Device DeviceSession VtpmPolicy FileSystem Vtpm Openssl Handle.

#[global] Instance TpmInt_countable : Countable TpmInt.t :=
  inj_countable' TpmInt.bytes TpmInt.from_be_bytes (λ '(TpmInt.from_be_bytes _), eq_refl).

(** ** Errors *)

(** What the [anyhow!] messages of the crate say, and the errors it converts. *)
Module TaskError.
Inductive t `{Os} `{Libcrypto} : Type :=
(** [device_err] *)
| InvalidParentHandle
| AccessDenied
| AuthMissing
| Lockout
| PolicyDenied
| Device (e : TpmDeviceError.t)
(** the conversions of [?] *)
| TpmDevice (e : TpmDeviceError.t)
| Vtpm (e : VtpmError.t)
| Protocol (e : TpmError)
| Crypto (e : TpmCryptoError.t)
(** messages *)
| HandleNotFound (handle : Z)
| AlreadyTracked (handle : TpmInt.t)
| NameNotFound (name : list byte)
| NonceFailed
| NonceTooLong (nonce_size : Z)
| PasswordTooLong (len : Z)
| MalformedData
| InvalidAuth
| TooManySessions.
End TaskError.

Definition device_err `{Os} `{Libcrypto} (err : TpmDeviceError.t) : TaskError.t :=
  match err with
  | TpmDeviceError.TpmRc rc =>
      match TpmRc.base rc with
      | TpmRcBase.Handle | TpmRcBase.ReferenceH0 | TpmRcBase.Type_ => TaskError.InvalidParentHandle
      | TpmRcBase.AuthFail => TaskError.AccessDenied
      | TpmRcBase.AuthMissing => TaskError.AuthMissing
      | TpmRcBase.Lockout => TaskError.Lockout
      | TpmRcBase.PolicyFail => TaskError.PolicyDenied
      | _ => TaskError.Device (TpmDeviceError.TpmRc rc)
      end
  | other => TaskError.Device other
  end.

(** ** State *)

(** [trait TaskStateProgress], over the state of its implementor *)
Class TaskStateProgress (P : Type) := { start : P → P; stop : P → P }.

Inductive Auth :=
| Password (password : list byte)
| Session (vhandle : Z).

(** [Default for Auth] *)
Definition auth_default : Auth := Password [].

#[global] Instance Auth_eq_dec : EqDecision Auth.
Proof. solve_decision. Defined.

Module TaskState.
(** [device] says whether there is one. *)
Record t (P : Type) := mk {
  device : bool;
  cache : VtpmCache.t;
  progress : option P;
  sessions : gmap TpmInt.t TpmPolicySession.t;
  virt_handles : gmap Z TpmInt.t;
  phys_handles : gset TpmInt.t;
  auth_map : gmap TpmInt.t Auth
}.
Arguments mk {P}. Arguments device {P}. Arguments cache {P}. Arguments progress {P}.
Arguments sessions {P}. Arguments virt_handles {P}. Arguments phys_handles {P}. Arguments auth_map {P}.

Section updates.
Context {P : Type}.
Definition set_cache (c : VtpmCache.t) (self : t P) : t P :=
  mk (device self) c (progress self) (sessions self) (virt_handles self) (phys_handles self) (auth_map self).
Definition set_progress (p : option P) (self : t P) : t P :=
  mk (device self) (cache self) p (sessions self) (virt_handles self) (phys_handles self) (auth_map self).
Definition set_sessions (s : gmap TpmInt.t TpmPolicySession.t) (self : t P) : t P :=
  mk (device self) (cache self) (progress self) s (virt_handles self) (phys_handles self) (auth_map self).
Definition set_handles (virt : gmap Z TpmInt.t) (phys : gset TpmInt.t) (self : t P) : t P :=
  mk (device self) (cache self) (progress self) (sessions self) virt phys (auth_map self).
End updates.
End TaskState.

(** The task, the device that is passed along with it, the directory of the
    cache and the random generator. *)
Record World `{Os} `{Openssl} (T P : Type) := mk_world {
  device : TpmDevice.t T; task : TaskState.t P; disk : Fs; rng : Rng }.
Arguments mk_world {_ _ _ T P}. Arguments device {_ _ _ T P}. Arguments task {_ _ _ T P}.
Arguments disk {_ _ _ T P}. Arguments rng {_ _ _ T P}.

Section task.
Context `{Os} `{!FileErrors} `{!MapOrder} `{Openssl} {T P : Type} `{!TpmTransport T} `{!TaskStateProgress P}.
(** The process, the address of what is allocated, and
    [thread_rng().fill_bytes] *)
Variables (pid heap : Z) (fill_bytes : list byte → list byte).
Local Abbreviation E := TaskError.t.
Local Abbreviation Task := (State (World T P) E).
Local Abbreviation hv := VtpmCache.hv.
Local Abbreviation th := VtpmCache.th.

(** *** Parts of the world *)

Definition get : Task (TaskState.t P) := λ w, (Ok (task w), w).
Definition modify (f : TaskState.t P → TaskState.t P) : Task () := λ w,
  (Ok tt, mk_world (device w) (f (task w)) (disk w) (rng w)).

(** A call on the device: its own result *)
Definition try_device {A} (m : State (TpmDevice.t T) TpmDeviceError.t A)
    : Task (result TpmDeviceError.t A) := λ w,
  let (r, d) := m (device w) in
  (if r is Panic then Panic else Ok r, mk_world d (task w) (disk w) (rng w)).
(** [call.map_err(device_err)?] *)
Definition on_device {A} (m : State (TpmDevice.t T) TpmDeviceError.t A) : Task A :=
  let* r := try_device m in st_lift (map_err device_err r).

(** A call on the cache: its own result, and [call?] *)
Definition try_cache {A} (m : State (VtpmCache.t * Fs) VtpmError.t A)
    : Task (result VtpmError.t A) := λ w,
  let '(r, (c, x)) := m (TaskState.cache (task w), disk w) in
  (if r is Panic then Panic else Ok r,
   mk_world (device w) (TaskState.set_cache c (task w)) x (rng w)).
Definition on_cache {A} (m : State (VtpmCache.t * Fs) VtpmError.t A) : Task A :=
  let* r := try_cache m in st_lift (map_err TaskError.Vtpm r).

Definition protocol {A} (r : TpmResult A) : Task A := st_lift (map_err TaskError.Protocol r).
Definition crypto {A} (r : result TpmCryptoError.t A) : Task A := st_lift (map_err TaskError.Crypto r).
Definition throw {A} (e : E) : Task A := st_lift (Err e).

(** *** Handles *)

Definition track (phys_handle : TpmInt.t) : Task () :=
  let* self := get in
  if bool_decide (phys_handle ∈ TaskState.phys_handles self) then
    let* _ := try_device (TpmDevice.flush_context phys_handle) in
    throw (TaskError.AlreadyTracked phys_handle)
  else
    modify (λ self, TaskState.set_handles (TaskState.virt_handles self)
      ({[phys_handle]} ∪ TaskState.phys_handles self) self).

Definition untrack (handle : TpmInt.t) : Task () :=
  modify (λ self, TaskState.set_handles
    (filter (λ '(_, v), v ≠ handle) (TaskState.virt_handles self))
    (TaskState.phys_handles self ∖ {[handle]}) self).

Definition auth_for (self : TaskState.t P) (handle : TpmInt.t) : Auth :=
  default auth_default (TaskState.auth_map self !! handle).

Definition remove_session (vhandle : TpmInt.t) : Task () :=
  let* self := get in
  match TaskState.sessions self !! vhandle with
  | None => throw (TaskError.HandleNotFound (hv vhandle))
  | Some session =>
      let* _ := modify (λ self, TaskState.set_sessions (delete vhandle (TaskState.sessions self)) self) in
      on_device (flush session)
  end.

Definition load_key_by_handle (target : TpmInt.t) : Task TpmInt.t :=
  let target_vhandle := hv target in
  let* self := get in
  match TaskState.virt_handles self !! target_vhandle with
  | Some phandle => st_ret phandle
  | None =>
      if bool_decide (handle_type target_vhandle = Some TpmHt.Persistent) then st_ret (th target_vhandle)
      else
        match VtpmCache.find_by_handle (TaskState.cache self) (th target_vhandle) with
        | None => throw (TaskError.HandleNotFound target_vhandle)
        | Some key =>
            let* loaded_phandle := on_device (TpmDevice.load_context (VtpmKey.context key)) in
            let* _ := track loaded_phandle in
            let* _ := modify (λ self, TaskState.set_handles
              (<[target_vhandle := loaded_phandle]> (TaskState.virt_handles self))
              (TaskState.phys_handles self) self) in
            st_ret loaded_phandle
        end
  end.

Definition load_key_by_name (name : ty Tpm2bName) : Task TpmInt.t :=
  let* self := get in
  match VtpmCache.find_by_name (TaskState.cache self) name with
  | Some key => load_key_by_handle (th (hv (VtpmKey.handle key)))
  | None => throw (TaskError.NameNotFound (TpmBuffer.deref name))
  end.

(** *** Commands *)

Definition build_password_session (password : list byte) : result E (ty TpmsAuthCommand) :=
  let? hmac := map_err (λ _, TaskError.PasswordTooLong (zlen password))
                 (TpmBuffer.try_from MAX_DIGEST_SIZE password) in
  Ok (TpmInt.new 4 (value TpmRh.Pw), (TpmBuffer.new MAX_DIGEST_SIZE, (Bitflags.empty, (hmac, tt)))).

(** [rand_bytes(&mut nonce_bytes)] *)
Definition random_nonce (nonce_size : Z) : Task (list byte) := λ w,
  let (r, g) := rand_bytes nonce_size (rng w) in
  (map_err (λ _, TaskError.NonceFailed) r, mk_world (device w) (task w) (disk w) g).

(** One authorisation of [execute] *)
Definition session_auth (vhandle : Z) : Task (ty TpmsAuthCommand) :=
  let* self := get in
  let* session := st_lift (ok_or (TaskState.sessions self !! th vhandle) (TaskError.HandleNotFound vhandle)) in
  let* hash := crypto (TpmHash.try_from (TpmPolicySession.hash_alg session)) in
  let nonce_size := TpmHash.size hash in
  let* nonce_bytes := random_nonce nonce_size in
  let* nonce := st_lift (map_err (λ _, TaskError.NonceTooLong nonce_size)
                           (TpmBuffer.try_from MAX_DIGEST_SIZE nonce_bytes)) in
  st_ret (TpmPolicySession.handle session,
          (nonce, (TpmPolicySession.attributes session, (TpmBuffer.new MAX_DIGEST_SIZE, tt)))).

Definition auth_command (auth : Auth) : Task (ty TpmsAuthCommand) :=
  match auth with
  | Session vhandle => session_auth vhandle
  | Password password => st_lift (build_password_session password)
  end.

(** [for auth in auth_list] *)
Fixpoint auth_commands (auth_list : list Auth) : Task (list (ty TpmsAuthCommand)) :=
  match auth_list with
  | [] => st_ret []
  | auth :: auth_list =>
      let* auth_cmd := auth_command auth in
      let* sessions := auth_commands auth_list in
      st_ret (auth_cmd :: sessions)
  end.

(** [if let Some(p) = &self.progress { p.start() }], and [stop] *)
Definition on_progress (f : P → P) : Task () :=
  modify (λ self, TaskState.set_progress (f <$> TaskState.progress self) self).

Definition execute (command : TpmFrame) (auth_list : list Auth) : Task slice :=
  let* _ := on_progress start in
  let* sessions := auth_commands auth_list in
  let* result := try_device (TpmDevice.transmit command sessions) in
  let* _ := on_progress stop in
  st_lift (map_err device_err result).

(** [execute(device, &cmd, auth_list)?.unmarshal::<R>()?] *)
Definition request (B : Body) (cmd : body B) (auth_list : list Auth) (R : Body) : Task (body R) :=
  let* resp := execute (TpmBody.frame B cmd) auth_list in
  protocol (TpmResponse.unmarshal R resp).

Definition import_key (parent_handle : TpmInt.t) (public : ty Tpm2bPublic) (duplicate : ty Tpm2bPrivate)
    (in_sym_seed : ty Tpm2bEncryptedSecret) (encryption_key : ty Tpm2bData)
    (symmetric_alg : ty TpmtSymDefObject) (auth_list : list Auth) : Task (ty Tpm2bPrivate) :=
  let import_cmd := Body.mk (B:=TpmImportCommand) [th (hv parent_handle)]
    (encryption_key, (public, (duplicate, (in_sym_seed, (symmetric_alg, tt))))) in
  let* import_resp := request TpmImportCommand import_cmd auth_list TpmImportResponse in
  st_ret (params (B:=TpmImportResponse) import_resp).1.

Definition evict_control (object_to_evict persistent_handle : TpmInt.t) : Task () :=
  let auth_handle :=
    if Z.land (hv persistent_handle) 0x00FFFFFF <=? 0x007FFFFF
    then TpmInt.new 4 (value TpmRh.Owner) else TpmInt.new 4 (value TpmRh.Platform) in
  let* self := get in
  let auth := auth_for self auth_handle in
  let cmd := Body.mk (B:=TpmEvictControlCommand) [auth_handle; object_to_evict] (persistent_handle, tt) in
  let* _ := request TpmEvictControlCommand cmd [auth] TpmEvictControlResponse in
  st_ret tt.

(** *** Policies *)

Abbreviation commands := (list (TpmCommandValue * TpmList.t (ty TpmsAuthCommand))).

Definition marshal_command_frame (command : TpmCommandValue) (auths : TpmList.t (ty TpmsAuthCommand))
    : TpmResult (list byte) :=
  let tag := if TpmList.is_empty auths then TpmSt.NoSessions else TpmSt.Sessions in
  let (r, writer) := command_marshal_frame command tag (TpmList.deref auths)
                       (writer_new (TpmHash.zeroed TPM_MAX_COMMAND_SIZE)) in
  let? _ := r in
  Ok (take (Z.to_nat (writer_len writer)) (buffer writer)).

(** The name of the object a policy command refers to *)
Definition policy_object_name (cmd : TpmCommandValue) : Task (ty Tpm2bName) :=
  match cv_variant cmd with
  | TpmCc.PolicySecret =>
      let* handle := st_lift (or_panic (handles (cv_body cmd) !! 0%nat)) in
      let* self := get in
      match VtpmCache.find_by_handle (TaskState.cache self) handle with
      | Some key => crypto (tpm_make_name (VtpmKey.public key))
      | None => let* (_, name) := on_device (TpmDevice.read_public handle) in st_ret name
      end
  | _ => st_ret (TpmBuffer.new (MAX_DIGEST_SIZE + 2))
  end.

Fixpoint save_vtpm_policy (commands : commands) : Task (list VtpmPolicyCommand) :=
  match commands with
  | [] => st_ret []
  | (cmd, auths) :: commands =>
      let* object_name := policy_object_name cmd in
      let* frame := protocol (marshal_command_frame cmd auths) in
      let* command_frame := protocol (TpmCommand.cast (mk_slice heap frame)) in
      let* step := st_lift (map_err TaskError.Vtpm (vtpm_policy_command_from command_frame object_name)) in
      let* vtpm_policy := save_vtpm_policy commands in
      st_ret (step :: vtpm_policy)
  end.

Definition save_key_policy (commands : commands) : Task (list TpmKeyPolicyCommand) :=
  let* vtpm_policy := save_vtpm_policy commands in
  st_ret (map (λ cmd, TpmKey.mk_command (VtpmPolicyCommand.cc cmd) (VtpmPolicyCommand.body cmd)) vtpm_policy).

Definition fetch_policy (handle : TpmInt.t) : Task (TpmInt.t * list VtpmPolicyCommand * TpmAlgId.t) :=
  let* phys_handle := load_key_by_handle handle in
  if bool_decide (handle_type (hv handle) = Some TpmHt.Transient) then
    let vhandle := hv handle in
    let* self := get in
    match VtpmCache.find_by_handle (TaskState.cache self) (th vhandle) with
    | None => throw (TaskError.HandleNotFound vhandle)
    | Some key => st_ret (phys_handle, VtpmKey.policy key, TpmtPublic.name_alg (VtpmKey.public key))
    end
  else
    let* (public, _) := on_device (TpmDevice.read_public phys_handle) in
    st_ret (phys_handle, [], TpmtPublic.name_alg public).

Definition load_policy_secret (vtpm_cmd : VtpmPolicyCommand)
    : Task (TpmCommandValue * TpmList.t (ty TpmsAuthCommand)) :=
  let body := mk_slice heap (VtpmPolicyCommand.body vtpm_cmd) in
  let* (secret, rest) := protocol (VtpmPolicySecretCommand.unmarshal body) in
  if negb (sl_is_empty rest) then throw TaskError.MalformedData
  else
    let object_name := VtpmPolicySecretCommand.object_name secret in
    let nameless := nil_b (TpmBuffer.deref object_name) in
    let* live_handle :=
      if nameless then st_ret (VtpmPolicySecretCommand.object_handle_hint secret)
      else load_key_by_name object_name in
    let tpm_cmd := command_value TpmCc.PolicySecret
      (Body.mk (B:=TpmPolicySecretCommand) [live_handle; ZERO_HANDLE]
         (TpmBuffer.new MAX_DIGEST_SIZE, (TpmBuffer.new MAX_DIGEST_SIZE,
          (VtpmPolicySecretCommand.policy_ref secret, (TpmInt.new 4 0, tt))))) in
    let* self := get in
    let vhandle :=
      if nameless then None
      else (λ k, th (hv (VtpmKey.handle k))) <$> VtpmCache.find_by_name (TaskState.cache self) object_name in
    let task_auth := default auth_default (vhandle ≫= λ vhandle, TaskState.auth_map self !! vhandle) in
    let* auth_cmd :=
      match task_auth with
      | Password password => st_lift (build_password_session password)
      | Session _ => throw TaskError.InvalidAuth
      end in
    let* auths := st_lift (map_err (λ _, TaskError.TooManySessions)
                             (TpmList.try_push MAX_SESSIONS auth_cmd (TpmList.new MAX_SESSIONS))) in
    st_ret (tpm_cmd, auths).

Definition load_policy_step (vtpm_cmd : VtpmPolicyCommand)
    : Task (TpmCommandValue * TpmList.t (ty TpmsAuthCommand)) :=
  if bool_decide (VtpmPolicyCommand.cc vtpm_cmd = TpmCc.PolicySecret) then load_policy_secret vtpm_cmd
  else
    let* tpm_cmd := st_lift (map_err TaskError.Vtpm (to_command heap vtpm_cmd)) in
    st_ret (tpm_cmd, TpmList.new MAX_SESSIONS).

Fixpoint load_policy_steps (policy : list VtpmPolicyCommand) : Task commands :=
  match policy with
  | [] => st_ret []
  | vtpm_cmd :: policy =>
      let* step := load_policy_step vtpm_cmd in
      let* commands := load_policy_steps policy in
      st_ret (step :: commands)
  end.

Definition load_policy (policy : list VtpmPolicyCommand) : Task (option commands) :=
  match policy with
  | [] => st_ret None
  | _ => let* commands := load_policy_steps policy in st_ret (Some commands)
  end.

(** A policy session that has run [commands] *)
Definition policy_session (name_alg : TpmAlgId.t) (commands : commands) : Task Auth :=
  let builder := TpmPolicySessionBuilder.with_auth_hash name_alg TpmPolicySessionBuilder.new in
  let* session := on_device (TpmPolicySessionBuilder.open fill_bytes builder) in
  let* r := try_device (run session commands) in
  match r with
  | Ok _ =>
      let vhandle := TpmPolicySession.handle session in
      let* _ := modify (λ self, TaskState.set_sessions (<[vhandle := session]> (TaskState.sessions self)) self) in
      st_ret (Session (hv vhandle))
  | Err e => let* _ := try_device (flush session) in throw (device_err e)
  | Panic => st_lift Panic
  end.

Definition resolve_auth (handle : TpmInt.t) : Task (TpmInt.t * TpmAlgId.t * Auth) :=
  let* (phys_handle, policy, name_alg) := fetch_policy handle in
  let* self := get in
  match TaskState.auth_map self !! handle with
  | Some auth => st_ret (phys_handle, name_alg, auth)
  | None =>
      let* commands := load_policy policy in
      match commands with
      | Some ((_ :: _) as commands) =>
          let* auth := policy_session name_alg commands in
          st_ret (phys_handle, name_alg, auth)
      | _ => st_ret (phys_handle, name_alg, auth_default)
      end
  end.

(** *** The cache *)

Definition refresh_key (context : ty TpmsContext) : State (TpmDevice.t T) TpmDeviceError.t bool := λ d,
  match TpmDevice.load_context context d with
  | (Ok handle, d) =>
      match TpmDevice.flush_context handle d with
      | (Ok _, d) => (Ok true, d)
      | (Err e, d) => (Err e, d)
      | (Panic, d) => (Panic, d)
      end
  | (Err (TpmDeviceError.TpmRc rc), d) =>
      match TpmRc.base rc with
      | TpmRcBase.ReferenceH0 | TpmRcBase.Integrity | TpmRcBase.Hierarchy | TpmRcBase.Value
      | TpmRcBase.Handle => (Ok false, d)
      | _ => (Err (TpmDeviceError.TpmRc rc), d)
      end
  | (Err e, d) => (Err e, d)
  | (Panic, d) => (Panic, d)
  end.

(** [first_error.get_or_insert_with(..)] *)
Definition get_or_insert (first_error : option E) (e : E) : option E := Some (default e first_error).

(** The loop over the handles: the first error and the handles to remove *)
Fixpoint refresh_keys (vhandles : list Z) (first_error : option E) (handles_to_remove : list Z)
    : Task (option E * list Z) :=
  match vhandles with
  | [] => st_ret (first_error, handles_to_remove)
  | vhandle :: vhandles =>
      if bool_decide (handle_type vhandle = Some TpmHt.Persistent) then
        refresh_keys vhandles first_error handles_to_remove
      else
        let* self := get in
        match VtpmCache.find_by_handle (TaskState.cache self) (th vhandle) with
        | None => refresh_keys vhandles first_error handles_to_remove
        | Some key =>
            let* r := try_device (refresh_key (VtpmKey.context key)) in
            match r with
            | Ok true =>
                let* _ := modify (λ self, TaskState.set_cache
                  (VtpmCache.mark_dirty (th vhandle) (TaskState.cache self)) self) in
                refresh_keys vhandles first_error handles_to_remove
            | Ok false => refresh_keys vhandles first_error (handles_to_remove ++ [vhandle])
            | Err e =>
                refresh_keys vhandles (get_or_insert first_error (device_err e)) (handles_to_remove ++ [vhandle])
            | Panic => st_lift Panic
            end
        end
  end.

Fixpoint remove_stale (handles_to_remove : list Z) (first_error : option E) : Task (option E) :=
  match handles_to_remove with
  | [] => st_ret first_error
  | vhandle :: handles =>
      let* r := try_cache (VtpmCache.remove (th vhandle)) in
      remove_stale handles (if r is Err e then get_or_insert first_error (TaskError.Vtpm e) else first_error)
  end.

Definition refresh_cache : Task () :=
  let* self := get in
  let vhandles := map (λ '(h, _), hv h) (VtpmCache.key_iter (TaskState.cache self)) in
  let* (first_error, handles_to_remove) := refresh_keys vhandles None [] in
  let* first_error := remove_stale handles_to_remove first_error in
  match first_error with None => st_ret tt | Some e => throw e end.

(** The loop of [validate_persistent_handles] *)
Fixpoint validate_handles (persistent_vhandles : list TpmInt.t) : Task () :=
  match persistent_vhandles with
  | [] => st_ret tt
  | vhandle :: vhandles =>
      let* self := get in
      match VtpmCache.find_by_handle (TaskState.cache self) vhandle with
      | None => validate_handles vhandles
      | Some key =>
          let* r := try_device (TpmDevice.read_public vhandle) in
          match r with
          | Ok (_, name_on_tpm) =>
              let* cached_name := crypto (tpm_make_name (VtpmKey.public key)) in
              let* _ :=
                if bool_decide (TpmBuffer.deref cached_name ≠ TpmBuffer.deref name_on_tpm)
                then let* _ := on_cache (VtpmCache.remove vhandle) in st_ret tt
                else st_ret tt in
              validate_handles vhandles
          | Err _ => let* _ := on_cache (VtpmCache.remove vhandle) in validate_handles vhandles
          | Panic => st_lift Panic
          end
      end
  end.

Definition validate_persistent_handles : Task () :=
  let* self := get in
  let vhandles := map fst (VtpmCache.key_iter (TaskState.cache self)) in
  validate_handles
    (filter (λ vhandle, handle_type (hv vhandle) = Some TpmHt.Persistent) vhandles).

(** *** Beginning and end *)

(** [TaskState::new]; the device is in a [RefCell]. *)
Definition new (dev : option (RefCell (TpmDevice.t T))) (d0 : TpmDevice.t T) (cache : VtpmCache.t)
    (progress : option P) (auth_map : gmap TpmInt.t Auth) (x : Fs) (g : Rng) : result E () * World T P :=
  let state := TaskState.mk (if dev is Some _ then true else false) cache progress ∅ ∅ ∅ auth_map in
  match dev with
  | None => (Ok tt, mk_world d0 state x g)
  | Some cell =>
      if borrowed cell then (Panic, mk_world (Device.contents cell) state x g)
      else validate_persistent_handles (mk_world (Device.contents cell) state x g)
  end.

(** A failed flush is logged. *)
Fixpoint flush_handles (handles_to_flush : list TpmInt.t) : Task () :=
  match handles_to_flush with
  | [] => st_ret tt
  | handle :: handles =>
      let* _ := try_device (TpmDevice.flush_context handle) in flush_handles handles
  end.

Fixpoint flush_sessions (sessions : list TpmPolicySession.t) : Task () :=
  match sessions with
  | [] => st_ret tt
  | session :: sessions => let* _ := try_device (flush session) in flush_sessions sessions
  end.

(** [Drop]; [borrowed] when the device is in use *)
Definition drop (borrowed : bool) : Task () :=
  let* self := get in
  let* _ :=
    if TaskState.device self && negb borrowed then
      let* _ := modify (TaskState.set_handles (TaskState.virt_handles self) ∅) in
      let* _ := flush_handles (iter_set (TaskState.phys_handles self)) in
      flush_sessions (iter (TaskState.sessions self)).*2
    else st_ret tt in
  let* _ := try_cache (VtpmCache.teardown pid) in st_ret tt.
End task.
