(* ===== verification/TaskCalls.v ===== *)
(** What a task calls: values that can be encoded, calls on the device that
    cannot panic, and the frames of stored policy commands. *)

From stdpp Require Import gmap.
From S2P Require Import Prelude State Errors Writer Codec Integer Buffer Tpml Struct EnumMacro Union Enums Rc Attributes.
From S2P Require Import BasicTypes Schemes Structures Body FrameData Dispatch Envelope Command Response Marshal.
From S2P Require Import Crypto Hash Text Transport Device DeviceSession DeviceSpec SessionSpec.
From S2P Require Import VtpmPolicy FileSystem Vtpm VtpmPolicySpec VtpmRecord VtpmSpec VtpmStore VtpmOps.
From S2P Require Import Openssl Handle Task.

(** ** Values that can be encoded *)

Abbreviation encodes c v := (is_Some (wire c v)).

Fixpoint fields_encode (fs : fields) : fields_ty fs → Prop :=
  match fs with
  | [] => λ _, True
  | f :: fs => λ v, encodes f.2 v.1 ∧ fields_encode fs v.2
  end.

Lemma fields_encodes fs v : is_Some (fields_wire fs v) ↔ fields_encode fs v.
Proof.
  induction fs as [|f fs IH]; [by split; [|by eexists]|]. destruct v as [v vs]. cbn [fields_encode fst snd].
  rewrite <-IH. split.
  - intros [bs (b1 & b2 & H1 & H2 & _)%fields_wire_cons]. split; by eexists.
  - intros [[b1 H1] [b2 H2]]. exists (b1 ++ b2). apply fields_wire_cons. by exists b1, b2.
Qed.

Lemma seq_encodes (c : Codec) vs : is_Some (seq_wire c vs) ↔ Forall (λ v, encodes c v) vs.
Proof.
  induction vs as [|v vs IH]; [split; [constructor | by eexists]|].
  rewrite list.Forall_cons, <-IH. split.
  - intros [bs (b1 & b2 & H1 & H2 & _)%seq_wire_cons]. split; by eexists.
  - intros [[b1 H1] [b2 H2]]. exists (b1 ++ b2). apply seq_wire_cons. by exists b1, b2.
Qed.

Lemma body_encodes B (v : body B) :
  is_Some (TpmBody.wire B v) ↔
  length (Body.handles v) = HANDLES B ∧ Forall (λ h, encodes TpmHandle h) (Body.handles v) ∧
  fields_encode (parameters B) (params v).
Proof.
  rewrite <-fields_encodes, <-(seq_encodes TpmHandle). split.
  - intros [[hs ps] (Hl & Hh & Hp)%body_wire_Some]. split_and!; [done | by eexists..].
  - intros (Hl & [hs Hh] & [ps Hp]). exists (hs, ps). by apply body_wire_Some.
Qed.

Lemma buffer_encodes CAPACITY b xs : TpmBuffer.holds CAPACITY b xs → is_Some (TpmBuffer.wire CAPACITY b).
Proof. intros Hb. exists (Tpm2b.format xs). apply buffer_wire_Some. by exists xs. Qed.

Lemma empty_encodes CAPACITY : 0 ≤ CAPACITY → is_Some (TpmBuffer.wire CAPACITY (TpmBuffer.new CAPACITY)).
Proof. intros HC. by eapply buffer_encodes, new_holds. Qed.

Lemma u32_encodes n : encodes TpmHandle (TpmInt.new 4 n).
Proof. eexists. reflexivity. Qed.

Lemma auth_encodes h (nonce hmac : TpmBuffer.t) attributes :
  encodes TpmHandle h → encodes Tpm2bNonce nonce → encodes TpmaSession attributes → encodes Tpm2bAuth hmac →
  encodes TpmsAuthCommand (h, (nonce, (attributes, (hmac, tt)))).
Proof.
  intros. apply (fields_encodes
    [("session_handle" : string, TpmHandle : Codec); ("nonce" : string, Tpm2bNonce : Codec);
     ("session_attributes" : string, TpmaSession : Codec); ("hmac" : string, Tpm2bAuth : Codec)]).
  by split_and!.
Qed.

(** ** Calls on the device *)

Section device.
Context `{TransportOk T}.
Implicit Types d : TpmDevice.t T.

Lemma read_public_encodes h :
  encodes TpmHandle h →
  returns_safely (λ r, encodes TpmtPublic r.1 ∧ encodes Tpm2bName r.2) (TpmDevice.read_public (T:=T) h).
Proof using H1.
  intros Hh. unfold TpmDevice.read_public. eapply safely_bind.
  - apply (exchange_safely TpmCc.ReadPublic (Body.mk (B:=TpmReadPublicCommand) [h] tt)).
    apply body_encodes. split_and!; [done | by constructor | done].
  - intros w (_ & _ & Hw)%body_encodes. destruct (params (B:=TpmReadPublicResponse) w) as [[public] [name q]] eqn:E.
    change (params (B:=Dispatch.response TpmCc.ReadPublic) w) with (params (B:=TpmReadPublicResponse) w) in Hw.
    rewrite E in Hw. destruct Hw as ([bs Hp] & Hn & _). apply safely_ret. split; [|done].
    apply (tpm2b_wire_Some TpmtPublic) in Hp as (ps & Hp & _). by exists ps.
Qed.

Lemma transmit_safely cc v sessions :
  is_Some (TpmBody.wire (command cc) v) → Forall (λ a, encodes TpmsAuthCommand a) sessions →
  returns_safely (λ _, True) (TpmDevice.transmit (T:=T) (TpmBody.frame (command cc) v) sessions).
Proof using H1.
  intros [[hs ps] Hv] [ab Hs]%(seq_encodes TpmsAuthCommand) d Hd.
  eapply st_outcome_impl; [by eapply transmit_safe | by intros ?? [? _] | by intros ?? [? _]].
Qed.

Lemma run_safely self cmds :
  encodes TpmHandle (TpmPolicySession.handle self) →
  Forall (λ c : TpmCommandValue * TpmList.t (ty TpmsAuthCommand),
    encodable c.1 ∧ Forall (λ a, encodes TpmsAuthCommand a) (TpmList.deref c.2)) cmds →
  returns_safely (λ _, True) (run (T:=T) self cmds).
Proof using H1.
  intros [b Hb]. induction 1 as [|[c auths] cmds [Hc Ha] _ IH]; [by apply safely_ret|].
  cbn [run]. apply (safely_bind encodable).
  - apply safely_lift. unfold session_command. destruct (session_handle_index _); [|done].
    by eapply set_handle_encodable.
  - intros c' Hc'. apply (safely_bind (λ _, True)); [by apply (transmit_safely (cv_variant c'))|done].
Qed.

Lemma flush_safely self :
  encodes TpmHandle (TpmPolicySession.handle self) → returns_safely (λ _, True) (flush (T:=T) self).
Proof using H1. apply flush_context_safely. Qed.
End device.

Section open.
Context `{TransportOk T} `{LibcryptoOk}.
Variable fill_bytes : list byte → list byte.
Hypothesis fill_length : ∀ bs, zlen (fill_bytes bs) = zlen bs.

(** A session is opened with the handle of the response. *)
Lemma open_safely alg :
  returns_safely (λ s, encodes TpmHandle (TpmPolicySession.handle s) ∧
      TpmPolicySession.attributes s = TpmaSession.CONTINUE_SESSION)
    (TpmPolicySessionBuilder.open (T:=T) fill_bytes
       (TpmPolicySessionBuilder.with_auth_hash alg TpmPolicySessionBuilder.new)).
Proof using All.
  set (b := TpmPolicySessionBuilder.with_auth_hash _ _). unfold TpmPolicySessionBuilder.open.
  apply (safely_bind (λ nonce, encodes Tpm2bNonce nonce)).
  { apply safely_lift. destruct (TpmHash.try_from alg) as [h|e|] eqn:Hh.
    - destruct (the_nonce_fresh fill_bytes b h fill_length eq_refl Hh) as (nonce & Hn & Hd & Hl).
      rewrite Hn. unfold TpmPolicySessionBuilder.the_nonce in Hn. cbn [b TpmPolicySessionBuilder.nonce_caller
        TpmPolicySessionBuilder.with_auth_hash TpmPolicySessionBuilder.new TpmPolicySessionBuilder.auth_hash] in Hn.
      rewrite Hh in Hn. cbn [map_err result_bind] in Hn.
      set (bs := fill_bytes (TpmHash.zeroed (TpmHash.size h))) in *.
      pose proof (size_bounds h). rewrite Hd in Hl.
      destruct (buffer_try_from_spec MAX_DIGEST_SIZE ltac:(done) bs) as (x & Hx & Hb);
        [lia | unfold u16_max, MAX_DIGEST_SIZE in *; lia |].
      rewrite Hx in Hn. injection Hn as ->. by eapply buffer_encodes.
    - unfold TpmPolicySessionBuilder.the_nonce. cbn [b TpmPolicySessionBuilder.nonce_caller
        TpmPolicySessionBuilder.with_auth_hash TpmPolicySessionBuilder.new TpmPolicySessionBuilder.auth_hash].
      by rewrite Hh.
    - revert Hh. by destruct alg. }
  intros nonce Hn. cbv zeta. eapply safely_bind.
  { apply (exchange_safely TpmCc.StartAuthSession (start_command b nonce)). apply body_encodes.
    split_and!; [done | repeat constructor; apply u32_encodes |].
    split; [exact Hn|]. split; [exact (empty_encodes MAX_RSA_KEY_BYTES ltac:(done))|].
    split; [by eexists|]. split; [by eexists|]. split; [by destruct alg; eexists | done]. }
  intros w (Hl & Hh & _)%body_encodes. change (HANDLES (Dispatch.response TpmCc.StartAuthSession)) with 1%nat in Hl.
  apply (safely_bind (λ h, encodes TpmHandle h)).
  { apply safely_lift. destruct w as [[|h [|? ?]] ?]; try done. by apply List.Forall_inv in Hh. }
  intros h Hh'. by apply safely_ret.
Qed.
End open.

(** ** Frames of policy commands *)

Section frames.
Context `{Os}.

(** The sessions of a command, as [TpmAuthCommands] holds them. *)
Definition sessions_ok (auths : TpmList.t (ty TpmsAuthCommand)) : Prop :=
  TpmList.is_empty auths = nil_b (TpmList.deref auths) ∧ Forall (λ a, encodes TpmsAuthCommand a) (TpmList.deref auths).

Lemma marshal_frame_spec c auths hs ps ab :
  TpmBody.wire (command (cv_variant c)) (cv_body c) = Some (hs, ps) →
  seq_wire TpmsAuthCommand (TpmList.deref auths) = Some ab →
  TpmList.is_empty auths = nil_b (TpmList.deref auths) →
  let frame := DeviceSpec.request (cv_variant c) (TpmList.deref auths) hs ab ps in
  match marshal_command_frame c auths with
  | Ok f => f = frame ∧ zlen (TpmList.deref auths) ≤ MAX_SESSIONS ∧ zlen frame ≤ TPM_MAX_COMMAND_SIZE
  | Err _ => MAX_SESSIONS < zlen (TpmList.deref auths) ∨ TPM_MAX_COMMAND_SIZE < zlen frame
  | Panic => False
  end.
Proof using All.
  intros Hw Hab He frame.
  pose proof (prepare_command_spec (T:=()) (cv_variant c) (cv_body c) hs ps (TpmList.deref auths) ab Hw Hab
    (TpmDevice.mk () [] [] 0)) as Hp.
  unfold TpmDevice.prepare_command in Hp. unfold marshal_command_frame, command_marshal_frame. rewrite He. cbv zeta in Hp |- *.
  assert (resize TPM_MAX_COMMAND_SIZE (TpmDevice.command (TpmDevice.mk () [] [] 0)) = TpmHash.zeroed TPM_MAX_COMMAND_SIZE)
    as E by reflexivity. rewrite E in Hp. clear E.
  destruct (tpm_marshal_command _ _ _ _) as [[[]|e|] w]; cbn [map_err result_bind] in *; [|by destruct Hp as (_ & _ & _ & _ & ?)|done].
  destruct Hp as (Hf & Hn & Hl). injection Hf as Hf. by rewrite Hf.
Qed.

(** The frame is read back as the command. *)
Lemma request_reads c auths hs ps ab s :
  TpmBody.wire (command (cv_variant c)) (cv_body c) = Some (hs, ps) →
  seq_wire TpmsAuthCommand auths = Some ab → zlen auths ≤ MAX_SESSIONS →
  slice_ok s → sl_data s = DeviceSpec.request (cv_variant c) auths hs ab ps →
  TpmCommand.cast s = Ok s ∧ frame_of s c.
Proof using All.
  intros Hw Hab Hn Hok Hd. pose proof (request_size _ _ hs ps auths ab Hw Hab Hn) as Hsize.
  assert (HANDLES (command (cv_variant c)) = HANDLES (command (CC (command (cv_variant c))))) as HR by by rewrite command_CC.
  pose proof (command_frame_reads (command (cv_variant c)) HR (cv_body c) hs ps Hw (tag_of auths) auths ab Hab Hn
    (request_tag auths)) as Hr.
  rewrite command_CC in Hr. unfold DeviceSpec.request in Hsize. rewrite zlen_command_format in Hsize.
  destruct (Hr Hsize s Hok Hd) as (Hc & _ & Hu & _). split; [done|]. by destruct c.
Qed.

(** The step that is stored for a command. *)
Lemma policy_step `{Libcrypto} c auths name heap :
  0 ≤ heap ≤ usize_max - isize_max → encodable c → sessions_ok auths → encodes Tpm2bName name →
  match (let? frame := map_err TaskError.Protocol (marshal_command_frame c auths) in
         let? command_frame := map_err TaskError.Protocol (TpmCommand.cast (mk_slice heap frame)) in
         map_err TaskError.Vtpm (vtpm_policy_command_from command_frame name)) with
  | Ok p => ∃ c', detached c = Some c' ∧ step_ok p ∧ VtpmPolicyCommand.cc p = cv_variant c ∧ to_command heap p = Ok c'
  | Err e => (∃ e', e = TaskError.Protocol e') ∨
             detached c = None ∧ e = TaskError.Vtpm (VtpmError.InvalidCc (cv_variant c))
  | Panic => False
  end.
Proof using All.
  intros Hheap [[hs ps] Hw] [He [ab Hab]%(seq_encodes TpmsAuthCommand)] Hname.
  pose proof (marshal_frame_spec c auths hs ps ab Hw Hab He) as Hm. cbv zeta in Hm.
  destruct (marshal_command_frame c auths) as [f|e|]; cbn [map_err result_bind]; [|by left; eexists|done].
  destruct Hm as (-> & Hn & Hl). set (s := mk_slice heap _).
  assert (slice_ok s) as Hok.
  { unfold slice_ok, sl_len, s; cbn [sl_addr sl_data]. unfold TPM_MAX_COMMAND_SIZE, isize_max in *. lia. }
  destruct (request_reads c (TpmList.deref auths) hs ps ab s Hw Hab Hn Hok eq_refl) as [-> Hf].
  cbn [map_err result_bind]. destruct c as [cc v]. cbn [frame_of cv_variant] in *.
  pose proof (from_frame cc v s name heap Hok Hname Hheap Hf) as Hp.
  destruct (detached (command_value cc v)) as [c'|].
  - destruct Hp as (p & -> & Hs & Hcc & Hto). cbn [map_err]. by exists c'.
  - rewrite Hp. by right.
Qed.
End frames.
