(* ===== verification/TaskSpec.v ===== *)
(** What a task keeps true, with any TPM and any failures of the file system:
    no method of [TaskState] panics, the loaded handles stay tracked, and the
    cache stays consistent with its directory. *)

From stdpp Require Import gmap.
From S2P Require Import Prelude State Errors Writer Codec Integer Buffer Tpml Struct EnumMacro Union Enums Rc Attributes.
From S2P Require Import BasicTypes Schemes Structures Body FrameData Dispatch Envelope Command Response Marshal.
From S2P Require Import Crypto Hash Text Transport Device DeviceSession DeviceSpec SessionSpec.
From S2P Require Import VtpmPolicy FileSystem Vtpm VtpmPolicySpec VtpmRecord VtpmSpec VtpmStore VtpmOps.
From S2P Require Import Openssl Handle Task TaskCalls.

(** ** The invariant *)

(** Handles: what is loaded is tracked, once; what is tracked and the sessions
    can be named in a command. *)
Record handles_ok {P} (s : TaskState.t P) : Prop := {
  virt_tracked v h : TaskState.virt_handles s !! v = Some h → h ∈ TaskState.phys_handles s;
  virt_injective v v' h :
    TaskState.virt_handles s !! v = Some h → TaskState.virt_handles s !! v' = Some h → v = v';
  phys_named h : h ∈ TaskState.phys_handles s → encodes TpmHandle h;
  sessions_named h session : TaskState.sessions s !! h = Some session →
    TpmPolicySession.handle session = h ∧ encodes TpmHandle h ∧
    TpmPolicySession.attributes session = TpmaSession.CONTINUE_SESSION
}.

(** A password is in memory. *)
Definition auth_ok (a : Auth) : Prop := if a is Password p then zlen p ≤ isize_max else True.

Section world.
Context `{Os} `{!FileErrors} `{!MapOrder} {L : Libcrypto} {LO : LibcryptoOk} {O : Openssl} {OO : OpensslOk}.
Context {T P : Type} `{!TpmTransport T} `{!TransportOk T} `{!TaskStateProgress P}.
Variables (pid heap : Z) (fill_bytes : list byte → list byte) (persistent : gmap (list byte) TpmInt.t).
Hypothesis Hheap : 0 ≤ heap ≤ usize_max - isize_max.
Hypothesis fill_length : ∀ bs, zlen (fill_bytes bs) = zlen bs.
Local Abbreviation W := (World T P).
Local Abbreviation E := TaskError.t.
Local Abbreviation Task := (State W E).
Implicit Types (w : W).

Record world_ok w : Prop := {
  wo_device : device_ok (device w);
  wo_handles : handles_ok (task w);
  wo_auths h a : TaskState.auth_map (task w) !! h = Some a → auth_ok a;
  wo_store : store_ok heap persistent (TaskState.cache (task w)) (disk w);
  wo_whole : whole (files (disk w))
}.

(** A call that returns, with [world_ok] kept and a value that satisfies [Q]. *)
Definition runs {A} (Q : A → W → Prop) (r : result E A * W) : Prop :=
  st_outcome (λ _ w, world_ok w) (λ a w, world_ok w ∧ Q a w) r.

Lemma runs_bind {A B} (R : A → W → Prop) (Q : B → W → Prop) (m : Task A) k w :
  runs R (m w) → (∀ a w', world_ok w' → R a w' → runs Q (k a w')) → runs Q (st_bind m k w).
Proof using Type.
  intros Hm Hk. eapply st_outcome_bind; [exact Hm|]. intros a w' [Hw Ha]. by apply Hk.
Qed.

Lemma runs_impl {A} (R Q : A → W → Prop) (r : result E A * W) :
  runs R r → (∀ a w, world_ok w → R a w → Q a w) → runs Q r.
Proof using Type. intros Hr HQ. eapply st_outcome_impl; [exact Hr | done |]. intros a w [? ?]; auto. Qed.

Lemma runs_ret {A} (Q : A → W → Prop) a w : world_ok w → Q a w → runs Q (st_ret (E:=E) a w).
Proof using Type. by intros. Qed.

Lemma runs_throw {A} (Q : A → W → Prop) e w : world_ok w → runs Q (throw (A:=A) e w).
Proof using Type. by intros. Qed.

Lemma runs_lift {A} (R : A → Prop) (r : result E A) w :
  world_ok w → outcome (λ _, True) R r → runs (λ a w', R a ∧ w' = w) (st_lift r w).
Proof using Type. intros Hw. by destruct r. Qed.

Lemma runs_get {B} (Q : B → W → Prop) (k : TaskState.t P → Task B) w :
  runs Q (k (task w) w) → runs Q (st_bind get k w).
Proof using Type. done. Qed.

(** *** Parts of the world *)

Definition with_task (s : TaskState.t P) w : W := mk_world (device w) s (disk w) (rng w).

Lemma runs_modify f w :
  world_ok w → handles_ok (f (task w)) → TaskState.auth_map (f (task w)) = TaskState.auth_map (task w) →
  TaskState.cache (f (task w)) = TaskState.cache (task w) →
  runs (λ _ w', w' = with_task (f (task w)) w) (modify f w).
Proof using Type.
  intros [Hd Hh Ha Hs Hw] Hf Ea Ec. split; [|done]. split; cbn [device task disk]; [done..| | |done].
  - by rewrite Ea.
  - by rewrite Ec.
Qed.

Lemma runs_try_device {A} (R : A → Prop) (m : State (TpmDevice.t T) TpmDeviceError.t A) w :
  world_ok w → returns_safely R m →
  runs (λ r w', match r with Ok a => R a | Err _ => True | Panic => False end ∧ task w' = task w ∧ disk w' = disk w)
    (try_device m w).
Proof using Type.
  intros [Hd Hh Ha Hs Hw] Hm. specialize (Hm (device w) Hd). unfold try_device.
  destruct (m (device w)) as [[a|e|] d]; cbn [st_outcome] in Hm; [destruct Hm as [Hm Hr]| |done]; by split.
Qed.

Lemma runs_on_device {A} (R : A → Prop) (m : State (TpmDevice.t T) TpmDeviceError.t A) w :
  world_ok w → returns_safely R m → runs (λ a w', R a ∧ task w' = task w) (on_device m w).
Proof using Type.
  intros Hw Hm. eapply runs_bind; [by apply runs_try_device|]. intros [a|e|] w' Hw' (Ha & Et & _); by cbn.
Qed.

(** A removal from the cache. *)
Lemma runs_remove handle w :
  world_ok w → encodes TpmHandle handle →
  runs (λ r w', r ≠ Panic) (try_cache (VtpmCache.remove handle) w).
Proof using Hheap LO.
  intros [Hd Hh Ha Hs Hw] Hhandle.
  pose proof (run_op_spec 0 heap Hheap persistent (Remove handle) _ _ Hs Hw Hhandle) as Hr.
  unfold try_cache. unfold run_op, st_bind in Hr.
  destruct (VtpmCache.remove handle (TaskState.cache (task w), disk w)) as [[l|e|] [c y]];
    destruct Hr as (Hn & Hs' & Hp); [..|done]; (split; [|done]);
    (split; [done|by destruct Hh|done|done|by eapply passes_files]).
Qed.

(** *** Handles *)

Lemma track_runs h w :
  world_ok w → encodes TpmHandle h →
  runs (λ _ w', h ∉ TaskState.phys_handles (task w) ∧ w' = with_task (TaskState.set_handles
    (TaskState.virt_handles (task w)) ({[h]} ∪ TaskState.phys_handles (task w)) (task w)) w) (track h w).
Proof using TransportOk0.
  intros Hw Hh. unfold track. apply runs_get. case_bool_decide as Hin.
  - eapply runs_bind; [by apply runs_try_device, flush_context_safely|]. intros r w' Hw' _. by apply runs_throw.
  - eapply runs_impl; [apply runs_modify; [done| |done..]|by intros ? ? _ ->].
    destruct (wo_handles _ Hw) as [Ht Hi Hp Hs]. split; cbn [TaskState.set_handles TaskState.virt_handles
      TaskState.phys_handles TaskState.sessions]; [|done| |done].
    + intros v h' ?%Ht. by apply elem_of_union_r.
    + intros h' [->%elem_of_singleton|?]%elem_of_union; [done | by apply Hp].
Qed.

Lemma untrack_runs h w : world_ok w → runs (λ _ _, True) (untrack h w).
Proof using Type.
  intros Hw. eapply runs_impl; [apply runs_modify; [done| |done..]|done].
  destruct (wo_handles _ Hw) as [Ht Hi Hp Hs]. split; cbn [TaskState.set_handles TaskState.virt_handles
    TaskState.phys_handles TaskState.sessions]; [| | |done].
  - intros v h' [Hv Hne]%map_lookup_filter_Some. apply elem_of_difference. split; [by eapply Ht|].
    by intros ?%elem_of_singleton.
  - intros v v' h' [Hv _]%map_lookup_filter_Some [Hv' _]%map_lookup_filter_Some. by eapply Hi.
  - intros h' [? _]%elem_of_difference. by apply Hp.
Qed.

(** A key of the cache *)
Lemma key_facts w h k :
  world_ok w → VtpmCache.contexts (TaskState.cache (task w)) !! h = Some k →
  encodes TpmHandle (VtpmKey.handle k) ∧ encodes TpmtPublic (VtpmKey.public k) ∧
  encodes TpmsContext (VtpmKey.context k) ∧ Forall step_ok (VtpmKey.policy k).
Proof using Type.
  intros Hw Hk. pose proof (store_cache _ _ _ _ (wo_store _ Hw)) as Hok.
  destruct (keys_cached _ _ Hok h k Hk) as (_ & [(_ & Hh & Hp & _ & Hc & Hs) _] & _).
  by split_and!.
Qed.

Lemma load_key_by_handle_runs target w :
  world_ok w → runs (λ h _, encodes TpmHandle h) (load_key_by_handle target w).
Proof using TransportOk0.
  intros Hw. unfold load_key_by_handle. cbv zeta. apply runs_get. pose proof (wo_handles _ Hw) as [Ht Hi Hp Hs].
  destruct (TaskState.virt_handles (task w) !! VtpmCache.hv target) as [h|] eqn:Hv.
  { apply runs_ret; [done|]. by eapply Hp, Ht. }
  case_bool_decide; [apply runs_ret; [done|apply u32_encodes]|].
  destruct (VtpmCache.find_by_handle _ _) as [key|] eqn:Hk; [|by apply runs_throw].
  destruct (key_facts w _ key Hw Hk) as (_ & _ & Hc & _).
  eapply runs_bind; [by apply runs_on_device, load_context_safely|]. intros h w1 Hw1 [Hh Et].
  eapply runs_bind; [by apply track_runs|]. intros [] w2 Hw2 [Hnew ->].
  eapply runs_bind; [apply runs_modify; [done| |done..]|intros; by apply runs_ret].
  cbn [task with_task]. rewrite Et in *.
  destruct (wo_handles _ Hw2) as [Ht2 Hi2 Hp2 Hs2]. cbn [task with_task] in *.
  split; cbn [TaskState.set_handles TaskState.virt_handles TaskState.phys_handles TaskState.sessions] in *; [| |done..].
  - intros v h' [[<- <-]|[_ ?]]%lookup_insert_Some; [by apply elem_of_union_l, elem_of_singleton|by eapply Ht2].
  - intros v v' h' [[<- <-]|[_ H1']]%lookup_insert_Some [[<- E2]|[_ H2']]%lookup_insert_Some; try done.
    + by apply Ht in H2'.
    + subst. by apply Ht in H1'.
    + by eapply Hi.
Qed.

Lemma load_key_by_name_runs name w :
  world_ok w → runs (λ h _, encodes TpmHandle h) (load_key_by_name name w).
Proof using TransportOk0.
  intros Hw. unfold load_key_by_name. apply runs_get.
  destruct (VtpmCache.find_by_name _ _); [by apply load_key_by_handle_runs | by apply runs_throw].
Qed.

Lemma remove_session_runs h w : world_ok w → runs (λ _ _, True) (remove_session h w).
Proof using TransportOk0.
  intros Hw. unfold remove_session. apply runs_get.
  destruct (TaskState.sessions (task w) !! h) as [session|] eqn:Hs; [|by apply runs_throw].
  pose proof (wo_handles _ Hw) as [Ht Hi Hp Hss]. destruct (Hss h session Hs) as (<- & Hh & _).
  eapply runs_bind; [apply runs_modify; [done| |done..]|].
  { split; cbn [TaskState.set_sessions TaskState.virt_handles TaskState.phys_handles TaskState.sessions]; [done..|].
    intros h' s' [_ ?]%lookup_delete_Some. by apply Hss. }
  intros [] w1 Hw1 ->. eapply runs_impl; [by apply runs_on_device, flush_safely | done].
Qed.

(** *** Commands *)

Lemma password_session p :
  zlen p ≤ isize_max → outcome (λ _, True) (λ a, encodes TpmsAuthCommand a) (build_password_session p).
Proof using Type.
  intros Hp. unfold build_password_session.
  pose proof (try_extend_spec MAX_DIGEST_SIZE _ [] p (new_holds MAX_DIGEST_SIZE ltac:(done)) Hp) as Ht.
  unfold TpmBuffer.try_from. case_decide.
  - destruct Ht as (b & -> & Hb). apply auth_encodes; [apply u32_encodes|by apply empty_encodes|by eexists|].
    by eapply buffer_encodes.
  - by rewrite Ht.
Qed.

Lemma hash_try_from_total alg : outcome (λ _, True) (λ _, True) (TpmHash.try_from alg).
Proof using Type. by destruct alg. Qed.

Lemma session_auth_runs vhandle w :
  world_ok w → runs (λ a w', encodes TpmsAuthCommand a ∧ task w' = task w) (session_auth vhandle w).
Proof using OO LO.
  intros Hw. unfold session_auth. apply runs_get.
  destruct (TaskState.sessions (task w) !! VtpmCache.th vhandle) as [session|] eqn:Hs; [|by apply runs_throw].
  cbn [ok_or]. destruct (sessions_named _ (wo_handles _ Hw) _ _ Hs) as (Eh & Hh & Ea).
  change (st_bind (st_lift (Ok session)) ?k w) with (k session w). cbv beta.
  eapply runs_bind; [eapply runs_lift; [done|]; eapply outcome_map_err; [apply hash_try_from_total|done]|].
  intros h w1 Hw1 [_ ->]. cbv zeta. pose proof (size_bounds h) as Hsize.
  eapply (runs_bind (λ bs w', zlen bs = TpmHash.size h ∧ task w' = task w)).
  { unfold random_nonce. pose proof (rand_bytes_ok (TpmHash.size h) (rng w) (proj1 Hsize)) as Hr.
    destruct (rand_bytes _ _) as [[bs|e|] g]; cbn [fst may_fail outcome] in Hr; [| |done]; (split; [|done] || idtac);
      by destruct Hw. }
  intros bs w1 Hw2 [Hl Et].
  destruct (buffer_try_from_spec MAX_DIGEST_SIZE ltac:(done) bs) as (nonce & Hn & Hb);
    [lia | unfold u16_max, MAX_DIGEST_SIZE in *; lia |].
  rewrite Hn. cbn [map_err]. change (st_bind (st_lift (Ok nonce)) ?k w1) with (k nonce w1). cbv beta.
  apply runs_ret; [done|]. split; [|done]. rewrite Eh, Ea.
  apply auth_encodes; [done|by eapply buffer_encodes|by eexists|by apply empty_encodes].
Qed.

Lemma auth_commands_runs auths w :
  world_ok w → Forall auth_ok auths →
  runs (λ l w', Forall (λ a, encodes TpmsAuthCommand a) l ∧ task w' = task w) (auth_commands auths w).
Proof using OO LO.
  intros Hw HF. revert w Hw. induction HF as [|a auths Ha HF IH]; intros w Hw; [by apply runs_ret|].
  cbn [auth_commands]. eapply (runs_bind (λ a w', encodes TpmsAuthCommand a ∧ task w' = task w)).
  { destruct a as [p|v]; cbn [auth_command]; [|by apply session_auth_runs].
    eapply runs_impl; [eapply runs_lift; [done | by apply password_session]|by intros ? ? _ [? ->]]. }
  intros a' w1 Hw1 [Ha' E1]. eapply runs_bind; [by apply IH|]. intros l w2 Hw2 [Hl E2].
  apply runs_ret; [done|]. split; [by constructor | congruence].
Qed.

Lemma progress_runs f w :
  world_ok w → runs (λ _ w', w' = with_task (TaskState.set_progress (f <$> TaskState.progress (task w)) (task w)) w)
    (on_progress f w).
Proof using Type. intros Hw. apply runs_modify; [done| |done..]. by destruct (wo_handles _ Hw). Qed.

(** The response a command is answered with *)
Definition answered (cc : TpmCc.t) (s : slice) w : Prop :=
  s = mk_slice (TpmDevice.response_addr (device w)) (TpmDevice.response (device w)) ∧
  is_frame (sl_data s) = true ∧ accepted cc s.

Lemma execute_runs cc v auths w :
  world_ok w → is_Some (TpmBody.wire (command cc) v) → Forall auth_ok auths →
  runs (answered cc) (execute (TpmBody.frame (command cc) v) auths w).
Proof using OO LO TransportOk0.
  intros Hw [[hs ps] Hv] Ha. unfold execute.
  eapply runs_bind; [by apply progress_runs|]. intros [] w1 Hw1 _.
  eapply runs_bind; [by apply auth_commands_runs|]. intros sessions w2 Hw2 [[ab Hab]%(seq_encodes TpmsAuthCommand) _].
  eapply (runs_bind (λ r w', match r with Ok s => answered cc s w' | Err _ => True | Panic => False end)).
  { destruct Hw2 as [Hd Hh Hau Hs Hwh]. unfold try_device.
    pose proof (transmit_safe cc v hs ps sessions ab (device w2) Hv Hab Hd) as Ht.
    destruct (TpmDevice.transmit _ _ _) as [[s|e|] d]; cbn [st_outcome] in Ht; [| |done].
    - destruct Ht as (Hd' & _ & Es & Hf & Hacc). by split.
    - by destruct Ht. }
  intros r w3 Hw3 Hr. eapply runs_bind; [by apply progress_runs|]. intros [] w4 Hw4 ->.
  by destruct r as [s|e|].
Qed.

Lemma request_runs cc v auths w :
  world_ok w → is_Some (TpmBody.wire (command cc) v) → Forall auth_ok auths →
  runs (λ b _, is_Some (TpmBody.wire (response cc) b)) (request (command cc) v auths (response cc) w).
Proof using OO LO TransportOk0.
  intros Hw Hv Ha. unfold request. eapply runs_bind; [by apply execute_runs|].
  intros s w' Hw' (-> & Hf & Hacc).
  pose proof (accepted_unmarshal cc (device w') (wo_device _ Hw') Hf Hacc) as Hu. unfold protocol.
  eapply runs_impl; [eapply runs_lift; [done|]; by eapply outcome_map_err|]. by intros b ? _ [? ->].
Qed.

Lemma import_key_runs parent_handle public duplicate seed key symmetric auths w :
  world_ok w → Forall auth_ok auths → encodes Tpm2bPublic public → encodes Tpm2bPrivate duplicate →
  encodes Tpm2bEncryptedSecret seed → encodes Tpm2bData key → encodes TpmtSymDefObject symmetric →
  runs (λ _ _, True) (import_key parent_handle public duplicate seed key symmetric auths w).
Proof using OO LO TransportOk0.
  intros Hw Ha Hp Hd Hs Hk Hy. unfold import_key. cbv zeta. eapply runs_bind.
  - apply (request_runs TpmCc.Import); [done| |done]. apply body_encodes.
    split; [done|]. split; [constructor; [apply u32_encodes|constructor]|]. by repeat split.
  - intros b w' Hw' _. by apply runs_ret.
Qed.

Lemma auth_for_ok h w : world_ok w → auth_ok (auth_for (task w) h).
Proof using Type.
  intros Hw. unfold auth_for. destruct (TaskState.auth_map (task w) !! h) as [a|] eqn:Ha; [by eapply wo_auths|done].
Qed.

Lemma evict_control_runs object persistent_handle w :
  world_ok w → encodes TpmHandle object → encodes TpmHandle persistent_handle →
  runs (λ _ _, True) (evict_control object persistent_handle w).
Proof using OO LO TransportOk0.
  intros Hw Ho Hp. unfold evict_control. cbv zeta. apply runs_get. eapply runs_bind.
  - apply (request_runs TpmCc.EvictControl); [done| |constructor; [by apply auth_for_ok|constructor]].
    apply body_encodes. split; [done|]. split; [|by repeat split].
    constructor; [destruct (_ <=? _); apply u32_encodes|]. by repeat constructor.
  - intros b w' Hw' _. by apply runs_ret.
Qed.

(** *** Policies *)

Lemma name_encodes public : encodes TpmtPublic public →
  outcome (λ _, True) (λ n, encodes Tpm2bName n) (tpm_make_name public).
Proof using LO.
  intros [bs Hp]. destruct (TpmHash.try_from (TpmtPublic.name_alg public)) as [h|e|] eqn:Hh.
  - pose proof (make_name_outcome public bs h Hp Hh) as Hn. destruct (tpm_make_name public) as [n|e|]; [|done..].
    by eapply buffer_encodes.
  - unfold tpm_make_name. by rewrite Hh.
  - revert Hh. by destruct (TpmtPublic.name_alg public).
Qed.

Lemma policy_name_runs c w :
  world_ok w → encodable c →
  runs (λ n w', encodes Tpm2bName n ∧ task w' = task w) (policy_object_name c w).
Proof using LO TransportOk0.
  intros Hw Hc%body_encodes. destruct c as [cc v].
  assert (cc ≠ TpmCc.PolicySecret → runs (λ n w', encodes Tpm2bName n ∧ task w' = task w)
    (st_ret (E:=E) (TpmBuffer.new (MAX_DIGEST_SIZE + 2) : ty Tpm2bName) w)) as Hnone.
  { intros _. apply runs_ret; [done|]. split; [|done]. by apply empty_encodes. }
  unfold policy_object_name. cbn [cv_variant cv_body] in *. destruct cc; try by apply Hnone.
  clear Hnone. destruct Hc as (Hl & Hh & _). destruct v as [[|h hs] ps]; [done|].
  cbn [Body.handles lookup list_lookup or_panic]. apply List.Forall_inv in Hh.
  change (st_bind (st_lift (Ok h)) ?k w) with (k h w). cbv beta. apply runs_get.
  destruct (VtpmCache.find_by_handle _ _) as [key|] eqn:Hk.
  - destruct (key_facts w _ key Hw Hk) as (_ & Hp & _). unfold crypto.
    eapply runs_impl; [eapply runs_lift; [done|]; eapply outcome_map_err; [by apply name_encodes|done]|].
    by intros n ? _ [? ->].
  - eapply runs_bind; [by apply runs_on_device, read_public_encodes|]. intros [public name] w' Hw' [[_ Hn] E'].
    by apply runs_ret.
Qed.

(** A stored step stands for its command. *)
Definition stored (c : TpmCommandValue * TpmList.t (ty TpmsAuthCommand)) (p : VtpmPolicyCommand) : Prop :=
  step_ok p ∧ VtpmPolicyCommand.cc p = cv_variant c.1 ∧ ∃ c', detached c.1 = Some c' ∧ to_command heap p = Ok c'.

Definition command_ok (c : TpmCommandValue * TpmList.t (ty TpmsAuthCommand)) : Prop :=
  encodable c.1 ∧ sessions_ok c.2.

Lemma save_vtpm_policy_runs cmds w :
  world_ok w → Forall command_ok cmds →
  runs (λ ps w', Forall2 stored cmds ps ∧ task w' = task w) (save_vtpm_policy heap cmds w).
Proof using Hheap LO TransportOk0.
  intros Hw HF. revert w Hw. induction HF as [|[c auths] cmds [Hc Ha] HF IH]; intros w Hw; [by apply runs_ret|].
  cbn [save_vtpm_policy]. eapply runs_bind; [by apply policy_name_runs|]. intros name w1 Hw1 [Hn E1].
  cbn [fst snd] in *. pose proof (policy_step c auths name heap Hheap Hc Ha Hn) as Hp.
  unfold protocol. destruct (marshal_command_frame c auths) as [f|e|]; cbn [map_err result_bind] in Hp |- *; [|done..].
  change (st_bind (st_lift (Ok f)) ?k w1) with (k f w1). cbv beta.
  destruct (TpmCommand.cast _) as [cf|e|]; cbn [map_err result_bind] in Hp |- *; [|done..].
  change (st_bind (st_lift (Ok cf)) ?k w1) with (k cf w1). cbv beta.
  destruct (vtpm_policy_command_from cf name) as [p|e|]; cbn [map_err] in Hp |- *; [|done..].
  change (st_bind (st_lift (Ok p)) ?k w1) with (k p w1). cbv beta.
  eapply runs_bind; [by apply IH|]. intros ps w2 Hw2 [Hps E2]. apply runs_ret; [done|]. split; [|congruence].
  constructor; [|done]. destruct Hp as (c' & Hd & Hs & Hcc & Hto). split_and!; [done..|]. by exists c'.
Qed.

Lemma fetch_policy_runs handle w :
  world_ok w → encodes TpmHandle handle →
  runs (λ r _, encodes TpmHandle r.1.1 ∧ Forall step_ok r.1.2) (fetch_policy handle w).
Proof using TransportOk0.
  intros Hw Hh. unfold fetch_policy. eapply runs_bind; [by apply load_key_by_handle_runs|].
  intros h w1 Hw1 Hh1. case_bool_decide.
  - cbv zeta. apply runs_get. destruct (VtpmCache.find_by_handle _ _) as [key|] eqn:Hk; [|by apply runs_throw].
    destruct (key_facts w1 _ key Hw1 Hk) as (_ & _ & _ & Hs). by apply runs_ret.
  - eapply runs_bind; [by apply runs_on_device, read_public_encodes|]. intros [public name] w2 Hw2 _.
    by apply runs_ret.
Qed.

Lemma empty_sessions_ok : sessions_ok (TpmList.new MAX_SESSIONS).
Proof using Type. split; [done | constructor]. Qed.

(** What the body of a step for [TPM2_PolicySecret] is read as *)
Lemma secret_read c :
  step_ok (Secret c) →
  VtpmPolicySecretCommand.unmarshal (mk_slice heap (VtpmPolicyCommand.body (Secret c))) =
    Ok (c, mk_slice (heap + zlen (VtpmPolicyCommand.body (Secret c))) []) ∧
  encodes TpmHandle (VtpmPolicySecretCommand.object_handle_hint c) ∧
  encodes Tpm2bDigest (VtpmPolicySecretCommand.policy_ref c).
Proof using Hheap.
  intros Hs. pose proof (body_small _ Hs) as Hl. destruct Hs as [bs Hw]. rewrite (secret_body c bs Hw) in *. split.
  - apply (unmarshal_wire (c:=VtpmPolicySecretCommand) c bs); [|done|].
    + unfold slice_ok, sl_len; cbn [sl_addr sl_data]. unfold TPM_MAX_COMMAND_SIZE, isize_max in *. lia.
    + split; cbn [sl_data sl_addr]; [by rewrite app_nil_r|done].
  - unfold VtpmPolicySecretCommand, VtpmPolicySecretCommand.codec in Hw. cbn [wire] in Hw.
    unfold VtpmPolicySecretCommand.wire in Hw. wire_inv. split; by eexists.
Qed.

Lemma load_policy_secret_runs p w :
  world_ok w → step_ok p → VtpmPolicyCommand.cc p = TpmCc.PolicySecret →
  runs (λ c _, command_ok c) (load_policy_secret heap p w).
Proof using Hheap TransportOk0.
  intros Hw Hp Hcc. destruct p as [[cc body]|c|c]; [|done|].
  { destruct Hp as [Hd _]. cbn in Hcc. by subst cc. }
  destruct (secret_read c Hp) as (Hu & Hhint & Href). unfold load_policy_secret. cbv zeta. rewrite Hu.
  change (st_bind (protocol (Ok ?x)) ?k w) with (k x w). cbv beta iota. cbn [sl_is_empty negb sl_len zlen length sl_data].
  change (negb (Z.of_nat 0 =? 0)) with false. cbv iota.
  eapply (runs_bind (λ h _, encodes TpmHandle h)).
  { destruct (nil_b _); [by apply runs_ret | by apply load_key_by_name_runs]. }
  intros live w1 Hw1 Hlive. apply runs_get.
  match goal with |- context [default auth_default ?m] => set (found := m) end.
  assert (auth_ok (default auth_default found)) as Ha.
  { unfold found. destruct (if nil_b _ then None else _) as [v|]; [|done]. cbn [mbind option_bind].
    destruct (TaskState.auth_map (task w1) !! v) as [a|] eqn:Hv; [by eapply wo_auths|done]. }
  destruct (default auth_default found) as [password|v]; [|by apply runs_throw].
  eapply runs_bind; [eapply runs_lift; [done | by apply password_session]|]. intros a w2 Hw2 [Hae ->].
  pose proof (list_try_push_spec MAX_SESSIONS _ [] a (list_new_holds MAX_SESSIONS ltac:(done))) as Hpush.
  rewrite decide_True in Hpush by done. destruct Hpush as (l & Hl & Hhold). rewrite Hl. cbn [map_err].
  change (st_bind (st_lift (Ok l)) ?k w1) with (k l w1). cbv beta. apply runs_ret; [done|].
  pose proof (list_holds_deref _ _ _ Hhold) as Ed. split; cbn [fst snd].
  - apply body_encodes. split; [done|]. split.
    + constructor; [done|]. constructor; [apply u32_encodes|constructor].
    + split; [by apply (empty_encodes MAX_DIGEST_SIZE)|]. split; [by apply (empty_encodes MAX_DIGEST_SIZE)|].
      split; [done|]. split; [by eexists|done].
  - split; rewrite Ed; [|by constructor]. destruct Hhold as [Hlen _]. unfold TpmList.is_empty. by rewrite Hlen.
Qed.

Lemma load_step_runs p w :
  world_ok w → step_ok p → runs (λ c _, command_ok c) (load_policy_step heap p w).
Proof using Hheap TransportOk0.
  intros Hw Hp. unfold load_policy_step. case_bool_decide as Hcc; [by apply load_policy_secret_runs|].
  destruct p as [[cc body]|c|c]; [|by apply runs_throw|done].
  pose proof Hp as [Hd (v & Hv)]. pose proof (body_small _ Hp) as Hl. cbn [to_command].
  rewrite (default_command heap cc v body Hd Hv).
  2:{ unfold slice_ok, sl_len; cbn [sl_addr sl_data]. change (VtpmPolicyCommand.body _) with body in Hl.
      unfold TPM_MAX_COMMAND_SIZE, isize_max in *. lia. }
  cbn [map_err]. change (st_bind (st_lift (Ok ?c)) ?k w) with (k c w). cbv beta. apply runs_ret; [done|].
  split; [|apply empty_sessions_ok]. apply body_encodes. split_and!.
  - clear -Hd. by destruct cc.
  - constructor; [apply u32_encodes|constructor].
  - apply fields_encodes. by eexists.
Qed.

Lemma load_steps_runs ps w :
  world_ok w → Forall step_ok ps → runs (λ cs _, Forall command_ok cs) (load_policy_steps heap ps w).
Proof using Hheap TransportOk0.
  intros Hw HF. revert w Hw. induction HF as [|p ps Hp HF IH]; intros w Hw; [by apply runs_ret|].
  cbn [load_policy_steps]. eapply runs_bind; [by apply load_step_runs|]. intros c w1 Hw1 Hc.
  eapply runs_bind; [by apply IH|]. intros cs w2 Hw2 Hcs. apply runs_ret; [done|]. by constructor.
Qed.

Lemma policy_session_runs alg cmds w :
  world_ok w → Forall command_ok cmds → runs (λ _ _, True) (policy_session fill_bytes alg cmds w).
Proof using LO TransportOk0 fill_length.
  intros Hw Hc. unfold policy_session. cbv zeta.
  eapply runs_bind; [by apply runs_on_device, open_safely|]. intros session w1 Hw1 [[Hh Ha] _].
  eapply runs_bind.
  { apply runs_try_device; [done|]. apply run_safely; [done|]. eapply list.Forall_impl; [exact Hc|]. by intros c [? []]. }
  intros r w2 Hw2 [Hr _]. destruct r as [[]|e|]; [| |done].
  - eapply runs_bind; [apply runs_modify; [done| |done..]|intros; by apply runs_ret].
    destruct (wo_handles _ Hw2) as [Ht Hi Hp Hs].
    split; cbn [TaskState.set_sessions TaskState.virt_handles TaskState.phys_handles TaskState.sessions]; [done..|].
    intros h s [[<- <-]|[_ ?]]%lookup_insert_Some; [done|by apply Hs].
  - eapply runs_bind; [by apply runs_try_device, flush_safely|]. intros; by apply runs_throw.
Qed.

Lemma resolve_auth_runs (handle : TpmInt.t) w :
  world_ok w → encodes TpmHandle handle →
  runs (λ r _, encodes TpmHandle r.1.1) (resolve_auth heap fill_bytes handle w).
Proof using Hheap LO TransportOk0 fill_length.
  intros Hw Hh. unfold resolve_auth. eapply runs_bind; [by apply fetch_policy_runs|].
  intros [[h ps] alg] w1 Hw1 [Hh1 Hps]. cbn [fst snd] in *. apply runs_get.
  destruct (TaskState.auth_map (task w1) !! handle) as [a|]; [by apply runs_ret|].
  eapply (runs_bind (λ cs _, from_option (Forall command_ok) True cs)).
  { unfold load_policy. destruct ps as [|p ps]; [by apply runs_ret|].
    eapply runs_bind; [by apply load_steps_runs|]. intros cs w2 Hw2 Hcs. by apply runs_ret. }
  intros [[|c cs]|] w2 Hw2 Hcs; [by apply runs_ret| |by apply runs_ret].
  eapply runs_bind; [by apply policy_session_runs|]. intros; by apply runs_ret.
Qed.

(** *** The cache *)

Lemma refresh_key_safely context :
  encodes TpmsContext context → returns_safely (λ _, True) (refresh_key (T:=T) context).
Proof using TransportOk0.
  intros Hc d Hd. unfold refresh_key. pose proof (load_context_safely context Hc d Hd) as Hl.
  destruct (TpmDevice.load_context context d) as [[h|e|] d1]; cbn [st_outcome] in Hl; [| |done].
  - destruct Hl as [Hd1 Hh]. pose proof (flush_context_safely h Hh d1 Hd1) as Hf.
    by destruct (TpmDevice.flush_context h d1) as [[?|?|] ?].
  - destruct e; try done. by destruct (TpmRc.base rc).
Qed.

Lemma mark_dirty_runs h w :
  world_ok w →
  runs (λ _ _, True) (modify (λ self, TaskState.set_cache (VtpmCache.mark_dirty h (TaskState.cache self)) self) w).
Proof using Type.
  intros [Hd [] Ha Hs Hw]. split; [|done]. split; cbn [device task disk]; [done|done|done| |done].
  apply store_dirty; [done|]. apply union_subseteq_r.
Qed.

Lemma refresh_keys_runs vhandles first_error stale w :
  world_ok w → runs (λ _ _, True) (refresh_keys vhandles first_error stale w).
Proof using TransportOk0.
  revert first_error stale w. induction vhandles as [|v vs IH]; intros first_error stale w Hw; [by apply runs_ret|].
  cbn [refresh_keys]. case_bool_decide; [by apply IH|]. apply runs_get.
  destruct (VtpmCache.find_by_handle _ _) as [key|] eqn:Hk; [|by apply IH].
  destruct (key_facts w _ key Hw Hk) as (_ & _ & Hc & _).
  eapply runs_bind; [by apply runs_try_device, refresh_key_safely|]. intros [[]|e|] w1 Hw1 [Hr _]; [|by apply IH..|done].
  eapply runs_bind; [by apply mark_dirty_runs|]. intros [] w2 Hw2 _. by apply IH.
Qed.

Lemma remove_stale_runs stale first_error w : world_ok w → runs (λ _ _, True) (remove_stale stale first_error w).
Proof using Hheap LO.
  revert first_error w. induction stale as [|h hs IH]; intros first_error w Hw; [by apply runs_ret|].
  cbn [remove_stale]. eapply runs_bind; [apply runs_remove; [done|apply u32_encodes]|]. intros r w1 Hw1 _. by apply IH.
Qed.

Lemma refresh_cache_runs w : world_ok w → runs (λ _ _, True) (refresh_cache w).
Proof using Hheap LO TransportOk0.
  intros Hw. unfold refresh_cache. apply runs_get. cbv zeta.
  eapply runs_bind; [by apply refresh_keys_runs|]. intros [fe stale] w1 Hw1 _.
  eapply runs_bind; [by apply remove_stale_runs|]. intros [e|] w2 Hw2 _; [by apply runs_throw | by apply runs_ret].
Qed.

Lemma on_cache_remove_runs h w :
  world_ok w → encodes TpmHandle h → runs (λ _ _, True) (on_cache (VtpmCache.remove h) w).
Proof using Hheap LO.
  intros Hw Hh. unfold on_cache. eapply runs_bind; [by apply runs_remove|]. by intros [l|e|] w1 Hw1 Hr.
Qed.

Lemma validate_handles_runs vhandles w :
  world_ok w → Forall (λ h, encodes TpmHandle h) vhandles → runs (λ _ _, True) (validate_handles vhandles w).
Proof using Hheap LO TransportOk0.
  intros Hw HF. revert w Hw. induction HF as [|h hs Hh HF IH]; intros w Hw; [by apply runs_ret|].
  cbn [validate_handles]. apply runs_get. destruct (VtpmCache.find_by_handle _ _) as [key|] eqn:Hk; [|by apply IH].
  destruct (key_facts w _ key Hw Hk) as (_ & Hp & _).
  eapply runs_bind; [by apply runs_try_device, read_public_encodes|]. intros [[public name]|e|] w1 Hw1 [Hr _]; [| |done].
  - eapply runs_bind; [eapply runs_lift; [done|]; eapply outcome_map_err; [by apply name_encodes|done]|].
    intros n w2 Hw2 [_ ->]. eapply (runs_bind (λ _ _, True)); [|by intros [] w3 Hw3 _; apply IH].
    case_bool_decide; [|by apply runs_ret].
    eapply runs_bind; [by apply on_cache_remove_runs|]. intros; by apply runs_ret.
  - eapply runs_bind; [by apply on_cache_remove_runs|]. intros l w2 Hw2 _. by apply IH.
Qed.

Lemma validate_persistent_runs w : world_ok w → runs (λ _ _, True) (validate_persistent_handles w).
Proof using Hheap LO TransportOk0.
  intros Hw. unfold validate_persistent_handles. apply runs_get. cbv zeta. apply validate_handles_runs; [done|].
  apply list.Forall_forall. intros h [_ Hh]%list_elem_of_filter. unfold VtpmCache.key_iter in Hh.
  apply list_elem_of_fmap in Hh as ([h' k] & -> & Hh). apply list_elem_of_fmap in Hh as ([v k'] & [= -> ->] & _).
  apply u32_encodes.
Qed.

(** *** A task at work *)

(** The calls of a command on the device *)
Inductive DeviceOp :=
| Transmit (cc : TpmCc.t) (v : body (command cc)) (sessions : list (ty TpmsAuthCommand))
| FetchAlgorithmProperties
| FetchHandles (class : TpmHt.t)
| FetchEccCurves
| FetchPcrBankList
| FetchTpmProperty (property : TpmPt.t)
| ReadPublic (h : TpmInt.t)
| FindPersistent (name : ty Tpm2bName)
| SaveContext (h : TpmInt.t)
| LoadContext (context : ty TpmsContext)
| FlushContext (h : TpmInt.t)
| FlushSession (context : ty TpmsContext).

Definition ignored {A} (m : State (TpmDevice.t T) TpmDeviceError.t A) : State (TpmDevice.t T) TpmDeviceError.t () :=
  let* _ := m in st_ret tt.

Definition run_device_op (op : DeviceOp) : State (TpmDevice.t T) TpmDeviceError.t () :=
  match op with
  | Transmit cc v sessions => ignored (TpmDevice.transmit (TpmBody.frame (command cc) v) sessions)
  | FetchAlgorithmProperties => ignored TpmDevice.fetch_algorithm_properties
  | FetchHandles class => ignored (TpmDevice.fetch_handles class)
  | FetchEccCurves => ignored TpmDevice.fetch_ecc_curves
  | FetchPcrBankList => ignored TpmDevice.fetch_pcr_bank_list
  | FetchTpmProperty property => ignored (TpmDevice.fetch_tpm_property property)
  | ReadPublic h => ignored (TpmDevice.read_public h)
  | FindPersistent name => ignored (TpmDevice.find_persistent name)
  | SaveContext h => ignored (TpmDevice.save_context h)
  | LoadContext context => ignored (TpmDevice.load_context context)
  | FlushContext h => TpmDevice.flush_context h
  | FlushSession context => TpmDevice.flush_session context
  end.

(** What is sent can be encoded. *)
Definition device_op_ok (op : DeviceOp) : Prop :=
  match op with
  | Transmit cc v sessions =>
      is_Some (TpmBody.wire (command cc) v) ∧ Forall (λ a, encodes TpmsAuthCommand a) sessions
  | ReadPublic h | SaveContext h | FlushContext h => encodes TpmHandle h
  | LoadContext context | FlushSession context => encodes TpmsContext context
  | _ => True
  end.

Lemma ignored_safely {A} (R : A → Prop) (m : State (TpmDevice.t T) TpmDeviceError.t A) :
  returns_safely R m → returns_safely (λ _, True) (ignored m).
Proof using Type.
  intros Hm d Hd. specialize (Hm d Hd). unfold ignored, st_bind.
  destruct (m d) as [[a|e|] d']; cbn [st_outcome] in *; [by destruct Hm|done..].
Qed.

Lemma device_op_safely op : device_op_ok op → returns_safely (λ _, True) (run_device_op op).
Proof using LO TransportOk0.
  intros Hop. destruct op; cbn [run_device_op device_op_ok] in *.
  - destruct Hop as [Hv Ha]. by eapply ignored_safely, transmit_safely.
  - eapply ignored_safely, fetch_algorithm_properties_safely.
  - eapply ignored_safely, fetch_handles_safely.
  - eapply ignored_safely, fetch_ecc_curves_safely.
  - eapply ignored_safely, fetch_pcr_bank_list_safely.
  - eapply ignored_safely, fetch_tpm_property_safely.
  - by eapply ignored_safely, read_public_safely.
  - eapply ignored_safely, find_persistent_safely.
  - by eapply ignored_safely, save_context_safely.
  - by eapply ignored_safely, load_context_safely.
  - by apply flush_context_safely.
  - by apply flush_session_safely.
Qed.

(** What a command does with its task: the methods of [TaskState], the calls
    that change the cache, and calls on the device. *)
Inductive TaskOp :=
| Track (h : TpmInt.t)
| Untrack (h : TpmInt.t)
| RemoveSession (h : TpmInt.t)
| LoadKeyByHandle (h : TpmInt.t)
| LoadKeyByName (name : ty Tpm2bName)
| ResolveAuth (h : TpmInt.t)
| Execute (cc : TpmCc.t) (v : body (command cc)) (auths : list Auth)
| ImportKey (parent : TpmInt.t) (public : ty Tpm2bPublic) (duplicate : ty Tpm2bPrivate)
    (seed : ty Tpm2bEncryptedSecret) (key : ty Tpm2bData) (symmetric : ty TpmtSymDefObject) (auths : list Auth)
| EvictControl (object persistent_handle : TpmInt.t)
| SavePolicy (cmds : list (TpmCommandValue * TpmList.t (ty TpmsAuthCommand)))
| RefreshCache
| ValidateHandles
| CacheOp (op : Op)
| DeviceCall (op : DeviceOp).

Definition done_ {A} (m : Task A) : Task () := let* _ := m in st_ret tt.

Definition run_task_op (op : TaskOp) : Task () :=
  match op with
  | Track h => track h
  | Untrack h => untrack h
  | RemoveSession h => remove_session h
  | LoadKeyByHandle h => done_ (load_key_by_handle h)
  | LoadKeyByName name => done_ (load_key_by_name name)
  | ResolveAuth h => done_ (resolve_auth heap fill_bytes h)
  | Execute cc v auths => done_ (request (command cc) v auths (response cc))
  | ImportKey parent public duplicate seed key symmetric auths =>
      done_ (import_key parent public duplicate seed key symmetric auths)
  | EvictControl object persistent_handle => evict_control object persistent_handle
  | SavePolicy cmds => done_ (save_key_policy heap cmds)
  | RefreshCache => refresh_cache
  | ValidateHandles => validate_persistent_handles
  | CacheOp op => on_cache (run_op pid op)
  | DeviceCall op => on_device (run_device_op op)
  end.

Definition task_op_ok (op : TaskOp) : Prop :=
  match op with
  | Track h | ResolveAuth h => encodes TpmHandle h
  | Execute cc v auths => is_Some (TpmBody.wire (command cc) v) ∧ Forall auth_ok auths
  | ImportKey _ public duplicate seed key symmetric auths =>
      Forall auth_ok auths ∧ encodes Tpm2bPublic public ∧ encodes Tpm2bPrivate duplicate ∧
      encodes Tpm2bEncryptedSecret seed ∧ encodes Tpm2bData key ∧ encodes TpmtSymDefObject symmetric
  | EvictControl object persistent_handle => encodes TpmHandle object ∧ encodes TpmHandle persistent_handle
  | SavePolicy cmds => Forall command_ok cmds
  | CacheOp op => op_ok op
  | DeviceCall op => device_op_ok op
  | _ => True
  end.

(** The command goes on after an error; [None] is a panic. *)
Fixpoint run_task_ops (ops : list TaskOp) w : option W :=
  match ops with
  | [] => Some w
  | op :: ops => match run_task_op op w with (Panic, _) => None | (_, w) => run_task_ops ops w end
  end.

Lemma done_runs {A} (R : A → W → Prop) (m : Task A) w : runs R (m w) → runs (λ _ _, True) (done_ m w).
Proof using Type. intros Hm. eapply runs_bind; [exact Hm|]. intros; by apply runs_ret. Qed.

Lemma cache_op_runs op w : world_ok w → op_ok op → runs (λ _ _, True) (on_cache (run_op pid op) w).
Proof using Hheap LO.
  intros [Hd [] Ha Hs Hw] Hop. pose proof (run_op_spec pid heap Hheap persistent op _ _ Hs Hw Hop) as Hr.
  unfold on_cache. eapply (runs_bind (λ r _, r ≠ Panic)); [|by intros [?|?|] ? ? ?].
  unfold try_cache. destruct (run_op pid op (TaskState.cache (task w), disk w)) as [r [c y]].
  destruct Hr as (Hn & Hs' & Hp).
  assert (world_ok (mk_world (device w) (TaskState.set_cache c (task w)) y (rng w))) as Hw'
    by (split; [done|by split|done|done|by eapply passes_files]).
  destruct r; done.
Qed.

Lemma run_task_op_runs op w : world_ok w → task_op_ok op → runs (λ _ _, True) (run_task_op op w).
Proof using Hheap LO OO TransportOk0 fill_length.
  intros Hw Hop. destruct op; cbn [run_task_op task_op_ok] in *.
  - eapply runs_impl; [by apply track_runs|done].
  - by apply untrack_runs.
  - by apply remove_session_runs.
  - by eapply done_runs, load_key_by_handle_runs.
  - by eapply done_runs, load_key_by_name_runs.
  - by eapply done_runs, resolve_auth_runs.
  - destruct Hop. by eapply done_runs, request_runs.
  - destruct Hop as (? & ? & ? & ? & ? & ?). by eapply done_runs, import_key_runs.
  - destruct Hop. by apply evict_control_runs.
  - eapply done_runs. unfold save_key_policy. eapply runs_bind; [by apply save_vtpm_policy_runs|].
    intros ps w' Hw' _. by apply (runs_ret (λ _ _, True)).
  - by apply refresh_cache_runs.
  - by apply validate_persistent_runs.
  - by apply cache_op_runs.
  - eapply runs_impl; [by apply runs_on_device, device_op_safely|done].
Qed.

Lemma run_task_ops_runs ops w :
  world_ok w → Forall task_op_ok ops → ∃ w', run_task_ops ops w = Some w' ∧ world_ok w'.
Proof using Hheap LO OO TransportOk0 fill_length.
  intros Hw HF. revert w Hw. induction HF as [|op ops Hop HF IH]; intros w Hw; [by exists w|].
  cbn [run_task_ops]. pose proof (run_task_op_runs op w Hw Hop) as Hr.
  destruct (run_task_op op w) as [[[]|e|] w']; cbn in Hr; [destruct Hr|..]; by auto.
Qed.

(** A new task, on a cache that was opened. *)
Lemma new_runs d0 dev cache progress auth_map x g :
  device_ok (default d0 (Device.contents <$> dev)) → (∀ cell, dev = Some cell → borrowed cell = false) →
  (∀ h a, auth_map !! h = Some a → auth_ok a) → store_ok heap persistent cache x → whole (files x) →
  runs (λ _ _, True) (new dev d0 cache progress auth_map x g).
Proof using Hheap LO TransportOk0.
  clear fill_length fill_bytes. intros Hd Hb Ha Hs Hw.
  assert (∀ d has, device_ok d → world_ok (mk_world d (TaskState.mk has cache progress ∅ ∅ ∅ auth_map) x g)) as Hok.
  { intros d has Hd'. split; [done| |done..]. split; cbn.
    - intros v h Hv. by rewrite lookup_empty in Hv.
    - intros v v' h Hv. by rewrite lookup_empty in Hv.
    - set_solver.
    - intros h s Hh. by rewrite lookup_empty in Hh. }
  unfold new. destruct dev as [cell|]; [|by split; [apply Hok|]].
  rewrite (Hb cell eq_refl). by apply validate_persistent_runs, Hok.
Qed.
End world.
