(* ===== verification/TaskEnd.v ===== *)
(** The end of a task: dropping it flushes every handle it tracks and every
    session it opened from the TPM, and saves the cache. *)

From stdpp Require Import gmap.
From S2P Require Import Prelude State Errors Writer Codec Integer Buffer Tpml Struct EnumMacro Union Enums Rc Attributes.
From S2P Require Import BasicTypes Schemes Structures Body FrameData Dispatch Envelope Command Response Marshal.
From S2P Require Import Crypto Hash Text Transport Device DeviceSession DeviceSpec SessionSpec.
From S2P Require Import VtpmPolicy FileSystem Vtpm VtpmPolicySpec VtpmRecord VtpmSpec VtpmStore VtpmOps.
From S2P Require Import Openssl Handle Task TaskCalls TaskSpec.

(** A transport that remembers what was sent on it. *)
Class TransportLog (T : Type) `{TpmTransport T} := {
  sent : T → list (list byte);
  sent_send f (t : T) : sent (send f t).2 = sent t ++ [f];
  sent_recv buf (t : T) : sent (recv (buf, t)).2.2 = sent t
}.

(** The frame that flushes a handle *)
Definition flush_frame (h : TpmInt.t) : list byte := DeviceSpec.request TpmCc.FlushContext [] [] [] (TpmInt.bytes h).

Section flush.
Context `{TransportOk T} `{!TransportLog T}.
Implicit Types d : TpmDevice.t T.

Lemma flush_context_logged h d :
  encodes TpmHandle h → device_ok d →
  let '(r, d') := TpmDevice.flush_context h d in
  r ≠ Panic ∧ device_ok d' ∧ sent (TpmDevice.transport d') = sent (TpmDevice.transport d) ++ [flush_frame h].
Proof using All.
  intros Hh Hd. pose proof (flush_context_safely h Hh d Hd) as Hsafe.
  destruct (TpmDevice.flush_context h d) as [r d'] eqn:E. split; [by destruct r|].
  split; [by destruct r; [destruct Hsafe|..]|]. clear Hsafe. revert E.
  unfold TpmDevice.flush_context. cbv zeta. unfold st_bind, st_ret, st_lift.
  set (m := TpmBody.frame TpmFlushContextCommand _).
  assert (wire TpmHandle h = Some (TpmInt.bytes h)) as Hw.
  { destruct Hh as [bs Hw]. change (TpmInt.wire 4 h = Some (TpmInt.bytes h)).
    change (TpmInt.wire 4 h = Some bs) in Hw. unfold TpmInt.wire in *. by case_decide. }
  assert (TpmBody.wire (command TpmCc.FlushContext) (Body.mk (B:=TpmFlushContextCommand) [] (h, tt)) =
    Some ([], TpmInt.bytes h)) as Hb.
  { apply (body_wire_Some (command TpmCc.FlushContext)). split_and!; [done..|]. apply fields_wire_cons.
    exists (TpmInt.bytes h), []. split_and!; [done..|by rewrite app_nil_r]. }
  assert (zlen (TpmInt.bytes h) = 4) as Hl.
  { change (TpmInt.wire 4 h = Some (TpmInt.bytes h)) in Hw. unfold TpmInt.wire in Hw. case_decide as Hlen; [|done].
    unfold zlen. by rewrite Hlen. }
  assert (zlen (flush_frame h) ≤ TPM_MAX_COMMAND_SIZE) as Hfit.
  { unfold flush_frame, DeviceSpec.request. rewrite zlen_command_format. unfold command_body.
    cbn [cp_handles cp_tag cp_auth cp_params app].
    rewrite zlen_app, Hl. by apply Z.leb_le. }
  assert ((TpmDevice.transmit m TpmDevice.NO_SESSIONS d).2 = d' →
    sent (TpmDevice.transport d') = sent (TpmDevice.transport d) ++ [flush_frame h]) as Hgoal.
  { rewrite transmit_round_trip.
    pose proof (prepare_command_spec TpmCc.FlushContext _ _ _ [] [] Hb eq_refl d) as Hp. fold m in Hp.
    change (TpmBody.frame (command TpmCc.FlushContext) _) with m in Hp. unfold TpmDevice.NO_SESSIONS.
    destruct (TpmDevice.prepare_command m [] d) as [[[]|e|] d1]; [| |done].
    2:{ destruct Hp as (_ & _ & _ & _ & [Hx|Hx]); [done|]. fold (flush_frame h) in Hx. lia. }
    destruct Hp as (-> & _). fold (flush_frame h). unfold round_trip.
    cbn [TpmDevice.command TpmDevice.transport TpmDevice.response TpmDevice.response_addr].
    pose proof (sent_send (flush_frame h) (TpmDevice.transport d)) as Hs.
    destruct (send (flush_frame h) (TpmDevice.transport d)) as [[[]|e|] t1]; cbn [snd] in *; [|by intros <-..].
    pose proof (sent_recv (TpmDevice.response d) t1) as Hr.
    destruct (recv (TpmDevice.response d, t1)) as [[[]|e|] [r1 t2]]; cbn [snd] in *; intros <-; cbn; congruence. }
  destruct (TpmDevice.transmit m TpmDevice.NO_SESSIONS d) as [[s|e|] d1]; intros [= _ <-]; by apply Hgoal.
Qed.
End flush.

Section drop.
Context `{Os} `{!FileErrors} `{!MapOrder} {L : Libcrypto} {LO : LibcryptoOk} {O : Openssl} {OO : OpensslOk}.
Context {T P : Type} `{!TpmTransport T} `{!TransportOk T} `{!TransportLog T} `{!TaskStateProgress P}.
Variables (pid heap : Z) (persistent : gmap (list byte) TpmInt.t).
Hypothesis Hheap : 0 ≤ heap ≤ usize_max - isize_max.
Implicit Types w : World T P.
Local Abbreviation log w := (sent (TpmDevice.transport (device w))).

(** [w] with another device on which [hs] were flushed *)
Definition flushed (hs : list TpmInt.t) w w' : Prop :=
  device_ok (device w') ∧ log w' = log w ++ map flush_frame hs ∧ w' = mk_world (device w') (task w) (disk w) (rng w).

Lemma try_flush_logged h w :
  encodes TpmHandle h → device_ok (device w) →
  ∃ r w', try_device (TpmDevice.flush_context h) w = (Ok r, w') ∧ flushed [h] w w'.
Proof using TransportOk0.
  intros Hh Hd. unfold try_device. pose proof (flush_context_logged h (device w) Hh Hd) as Hf.
  destruct (TpmDevice.flush_context h (device w)) as [[x|e|] d]; destruct Hf as (Hn & Hd' & Hs); [..|done];
    eexists _, _; by split.
Qed.

Lemma flushed_trans hs1 hs2 w1 w2 w3 : flushed hs1 w1 w2 → flushed hs2 w2 w3 → flushed (hs1 ++ hs2) w1 w3.
Proof using Type.
  intros (_ & E1 & E2) (Hd & E3 & E4). split; [done|]. rewrite E3, E1, map_app, app_assoc. split; [done|].
  rewrite E4. rewrite E2. done.
Qed.

Lemma flush_handles_logged hs w :
  Forall (λ h, encodes TpmHandle h) hs → device_ok (device w) →
  ∃ w', flush_handles hs w = (Ok tt, w') ∧ flushed hs w w'.
Proof using TransportOk0.
  intros HF. revert w. induction HF as [|h hs Hh HF IH]; intros w Hd.
  { exists w. split; [done|]. split; [done|]. rewrite app_nil_r. split; [done|]. by destruct w. }
  destruct (try_flush_logged h w Hh Hd) as (r & w1 & E1 & Hf1). destruct (IH w1 (proj1 Hf1)) as (w2 & E2 & Hf2).
  exists w2. cbn [flush_handles]. unfold st_bind. rewrite E1. split; [done|]. by apply (flushed_trans [h] hs w w1 w2).
Qed.

Lemma flush_sessions_handles sessions w :
  flush_sessions sessions w = flush_handles (map TpmPolicySession.handle sessions) w.
Proof using Type.
  revert w. induction sessions as [|s ss IH]; intros w; [done|]. cbn [flush_sessions flush_handles map].
  unfold st_bind, flush. destruct (try_device _ w) as [[r|e|] w1]; [apply IH|done..].
Qed.

Lemma session_keys w :
  world_ok heap persistent w →
  map TpmPolicySession.handle (iter (TaskState.sessions (task w))).*2 = (iter (TaskState.sessions (task w))).*1.
Proof using Type.
  intros Hw. change (map TpmPolicySession.handle ?l) with (TpmPolicySession.handle <$> l).
  rewrite <-list_fmap_compose. apply list_fmap_ext. intros i [h s] Hi%list_elem_of_lookup_2.
  rewrite iter_perm, elem_of_map_to_list in Hi. by destruct (sessions_named _ (wo_handles _ _ _ Hw) h s Hi) as [? _].
Qed.

(** Every handle is flushed once, and the cache is saved. *)
Lemma drop_spec busy w :
  world_ok heap persistent w →
  ∃ w', drop pid busy w = (Ok tt, w') ∧
    (∃ hs, log w' = log w ++ map flush_frame hs ∧
       hs ≡ₚ if TaskState.device (task w) && negb busy
             then elements (TaskState.phys_handles (task w)) ++ elements (dom (TaskState.sessions (task w)))
             else []) ∧
    store_ok heap persistent (TaskState.cache (task w')) (disk w') ∧ whole (files (disk w')) ∧
    (faults (disk w) = [] →
       TaskState.cache (task w') = VtpmCache.set_dirty ∅ (TaskState.cache (task w)))  .
Proof using Hheap LO TransportOk0.
  intros Hw. unfold drop. change (st_bind get ?k w) with (k (task w) w). cbv beta.
  set (hs := if TaskState.device (task w) && negb busy
    then iter_set (TaskState.phys_handles (task w)) ++ (iter (TaskState.sessions (task w))).*1 else []).
  set (phase := if _ && _ then _ else _).
  assert (∃ w1, phase w = (Ok tt, w1) ∧ log w1 = log w ++ map flush_frame hs ∧ disk w1 = disk w ∧
    TaskState.cache (task w1) = TaskState.cache (task w)) as (w1 & E1 & El & Ed & Ec).
  { unfold phase, hs. destruct (TaskState.device (task w) && negb busy).
    2:{ exists w. rewrite app_nil_r. done. }
    set (w0 := with_task (TaskState.set_handles (TaskState.virt_handles (task w)) ∅ (task w)) w).
    destruct (flush_handles_logged (iter_set (TaskState.phys_handles (task w))) w0) as (w1 & E1 & Hf1).
    { apply list.Forall_forall. intros h Hh%elem_of_iter_set. by apply (phys_named _ (wo_handles _ _ _ Hw)). }
    { apply Hw. }
    destruct (flush_handles_logged ((iter (TaskState.sessions (task w))).*1) w1) as (w2 & E2 & Hf2).
    { apply list.Forall_forall. intros h ([h' s] & -> & Hi)%list_elem_of_fmap.
      rewrite iter_perm, elem_of_map_to_list in Hi. by destruct (sessions_named _ (wo_handles _ _ _ Hw) h' s Hi) as (_ & ? & _). }
    { apply Hf1. }
    exists w2. split.
    - change (st_bind (modify ?f) ?k w) with (k tt (with_task (f (task w)) w)). cbv beta. fold w0.
      unfold st_bind. rewrite E1, flush_sessions_handles. by rewrite session_keys.
    - destruct (flushed_trans _ _ _ _ _ Hf1 Hf2) as (_ & E3 & E4). rewrite E3. split; [done|]. rewrite E4. done. }
  unfold st_bind at 1. rewrite E1. unfold st_bind, try_cache, VtpmCache.teardown. rewrite Ed, Ec.
  pose proof (run_op_spec pid heap Hheap persistent Flush _ _ (wo_store _ _ _ Hw) (wo_whole _ _ _ Hw) I) as Hr.
  cbn [run_op] in Hr. pose proof (flush_spec pid heap Hheap persistent _ _ (wo_store _ _ _ Hw)) as Hf.
  destruct (VtpmCache.flush pid (TaskState.cache (task w), disk w)) as [r [c y]], Hr as (Hn & Hs & Hp), Hf as (_ & _ & Hc).
  assert (∃ hs', log w ++ map flush_frame hs = log w ++ map flush_frame hs' ∧
    hs' ≡ₚ if TaskState.device (task w) && negb busy
           then elements (TaskState.phys_handles (task w)) ++ elements (dom (TaskState.sessions (task w))) else [])
    as (hs' & El' & Hperm).
  { exists hs. split; [done|]. unfold hs. destruct (_ && _); [|done]. f_equiv.
    - apply NoDup_Permutation; [apply iter_set_NoDup|apply NoDup_elements|].
      intros h. by rewrite elem_of_iter_set, elem_of_elements.
    - apply NoDup_Permutation; [|apply NoDup_elements|].
      + rewrite iter_perm. apply NoDup_fst_map_to_list.
      + intros h. rewrite elem_of_elements, elem_of_dom, list_elem_of_fmap. split.
        * intros ([h' s] & -> & Hi). rewrite iter_perm, elem_of_map_to_list in Hi. by exists s.
        * intros [s Hi]. exists (h, s). split; [done|]. by rewrite iter_perm, elem_of_map_to_list. }
  destruct r as [[]|e|]; [..|done]; (eexists; split; [reflexivity|]); cbn [device task disk TaskState.cache TaskState.set_cache];
    (split; [exists hs'; rewrite El, El'; done|]); (split; [done|]);
    (split; [by eapply passes_files; [apply (wo_whole _ _ _ Hw)|]|]); [by intros _|].
  intros Hno. by destruct Hc as [[? _] _].
Qed.
End drop.
