(* ===== verification/TaskPolicy.v ===== *)
(** Policies that are stored and used later: the commands of a compiled policy
    are kept as the steps of a key, and resolving the authorisation of the key
    runs them on a fresh session, which ends with the policy's digest. *)

From stdpp Require Import gmap.
From S2P Require Import Prelude State Errors Writer Codec Integer Buffer Tpml Struct EnumMacro Union Enums Rc Attributes.
From S2P Require Import BasicTypes Schemes Structures Body FrameData Dispatch Envelope Command Response Marshal.
From S2P Require Import Crypto Hash Policy PolicySpec Text Transport Device DeviceSession DeviceSpec SessionSpec.
From S2P Require Import VtpmPolicy FileSystem Vtpm VtpmPolicySpec Openssl Handle Task TaskCalls.

(** ** The commands of a compiled policy *)

Section tpm.
Context `{LibcryptoOk}.
Variables (h : TpmHash.t) (context : TpmPolicyContext.t).

(** A command that needs no other object *)
Definition plain (c : TpmCommandValue) : Prop := cv_variant c ≠ TpmCc.PolicySecret.

Lemma plain_accepted authorises c : plain c → authorised authorises c [] = true ∧ unrestricted c = true.
Proof using Type. destruct c as [cc v]. unfold plain. by destruct cc. Qed.

(** What a TPM executes on a session can be stored. *)
Lemma effect_detached trial d c d' :
  policy_effect h context trial d c = Some d' → plain c →
  is_default (cv_variant c) = true ∧
  detached c = Some (command_value (cv_variant c) (Body.mk (B:=command (cv_variant c)) [ZERO_HANDLE] (params (cv_body c)))).
Proof using Type. destruct c as [cc v]. unfold plain. by destruct cc. Qed.

Lemma detached_plain c c' : detached c = Some c' → plain c → plain c'.
Proof using Type. destruct c as [cc v]. unfold detached, plain. cbn [cv_variant]. destruct cc; try done; by intros [= <-]. Qed.

Lemma effects_each trial d cmds d' :
  effects h context trial d cmds = Some d' → Forall (λ c, ∃ d1 d2, policy_effect h context trial d1 c = Some d2) cmds.
Proof using Type.
  revert d. induction cmds as [|c cmds IH]; intros d; [constructor|]. cbn [effects].
  intros (d1 & Hc & Hr)%bind_Some. constructor; [by exists d, d1|by eapply IH].
Qed.
End tpm.

(** ** Storing *)

Section save.
Context `{Os} `{!FileErrors} `{!MapOrder} {L : Libcrypto} {O : Openssl}.
Context {T P : Type} `{!TpmTransport T} `{!TaskStateProgress P}.
Variable heap : Z.
Hypothesis Hheap : 0 ≤ heap ≤ usize_max - isize_max.
Implicit Types w : World T P.
Abbreviation commands := (list (TpmCommandValue * TpmList.t (ty TpmsAuthCommand))).

(** A plain command without sessions, and the step that is kept of it *)
Definition storable_command (c : TpmCommandValue * TpmList.t (ty TpmsAuthCommand)) : Prop :=
  encodable c.1 ∧ is_default (cv_variant c.1) = true ∧ c.2 = TpmList.new MAX_SESSIONS.

Definition step_for (c : TpmCommandValue) (p : VtpmPolicyCommand) : Prop :=
  step_ok p ∧ VtpmPolicyCommand.cc p = cv_variant c ∧ is_default (cv_variant c) = true ∧
  ∃ c', detached c = Some c' ∧ to_command heap p = Ok c' ∧ encodable c'.

Lemma default_small cc : is_default cc = true → TpmBody.SIZE (command cc) ≤ 2048.
Proof using Type. intros Hd. apply Z.leb_le. destruct cc; try discriminate Hd; vm_compute; reflexivity. Qed.

Lemma detached_encodable c c' :
  encodable c → is_default (cv_variant c) = true → detached c = Some c' → encodable c'.
Proof using Type.
  destruct c as [cc v]. cbn [cv_variant]. intros (_ & _ & Hp)%body_encodes Hd. unfold detached. rewrite Hd.
  intros [= <-]. apply body_encodes. split; [clear -Hd; by destruct cc|]. split; [|done].
  constructor; [apply u32_encodes|constructor].
Qed.

(** A plain command fits in a frame and is stored. *)
Lemma stored_exactly c auths name w k :
  storable_command (c, auths) → encodes Tpm2bName name →
  ∃ p, step_for c p ∧
    st_bind (protocol (T:=T) (P:=P) (marshal_command_frame c auths)) (λ frame,
      let* command_frame := protocol (TpmCommand.cast (mk_slice heap frame)) in
      let* step := st_lift (map_err TaskError.Vtpm (vtpm_policy_command_from command_frame name)) in
      k step) w = (k p w : result TaskError.t (list VtpmPolicyCommand) * World T P).
Proof using Hheap.
  intros (Hc & Hd & Ea) Hname. cbn [fst snd] in *. subst auths.
  pose proof (policy_step c (TpmList.new MAX_SESSIONS) name heap Hheap Hc (conj eq_refl (List.Forall_nil _)) Hname) as Hp.
  destruct Hc as [[hs ps] Hw].
  pose proof (marshal_frame_spec c (TpmList.new MAX_SESSIONS) hs ps [] Hw eq_refl eq_refl) as Hm. cbv zeta in Hm.
  destruct (marshal_command_frame c _) as [f|e|] eqn:Ef; [| |done].
  2:{ exfalso. destruct Hm as [Hm|Hm]; [done|].
      destruct (body_len _ _ hs ps Hw) as (_ & _ & Hl). pose proof (default_small _ Hd).
      unfold DeviceSpec.request in Hm. rewrite zlen_command_format in Hm. unfold command_body in Hm.
      cbn [cp_handles cp_tag cp_auth cp_params] in Hm. rewrite !zlen_app, zlen_auth_bytes in Hm.
      unfold TPM_MAX_COMMAND_SIZE in *. rewrite bool_decide_false in Hm by done. lia. }
  destruct Hm as (-> & Hn & Hl). cbn [map_err result_bind] in Hp.
  set (s := mk_slice heap _) in Hp |- *.
  assert (slice_ok s) as Hok.
  { unfold slice_ok, sl_len, s; cbn [sl_addr sl_data]. unfold TPM_MAX_COMMAND_SIZE, isize_max in *. lia. }
  destruct (request_reads c (TpmList.deref (TpmList.new MAX_SESSIONS)) hs ps [] s Hw eq_refl Hn Hok eq_refl) as [Hcast Hf].
  rewrite Hcast in Hp. cbn [map_err result_bind] in Hp.
  assert (detached c = Some (command_value (cv_variant c)
    (Body.mk (B:=command (cv_variant c)) [ZERO_HANDLE] (params (cv_body c))))) as Hdet.
  { destruct c as [cc v]. unfold detached. cbn [cv_variant] in Hd. by rewrite Hd. }
  pose proof (from_frame (cv_variant c) (cv_body c) s name heap Hok Hname Hheap) as Hff.
  destruct c as [cc v]. cbn [cv_variant cv_body frame_of] in *. specialize (Hff Hf). rewrite Hdet in Hff.
  destruct Hff as (p & Hp' & Hs & Hcc & Hto). exists p. split.
  - split_and!; [done..|]. eexists. split_and!; [exact Hdet|done|].
    eapply (detached_encodable (command_value cc v)); [by exists (hs, ps)|done|done].
  - unfold st_bind, protocol, st_lift. cbn [map_err]. fold s. rewrite Hcast. cbn [map_err]. by rewrite Hp'.
Qed.

Lemma save_exactly cmds w :
  Forall storable_command cmds →
  ∃ ps, save_vtpm_policy heap cmds w = (Ok ps, w) ∧ Forall2 (λ c p, step_for c.1 p) cmds ps.
Proof using Hheap.
  induction 1 as [|[c auths] cmds Hc HF (ps & E & Hps)]; [by exists []|].
  assert (encodes Tpm2bName (TpmBuffer.new (MAX_DIGEST_SIZE + 2))) as Hname by by apply empty_encodes.
  destruct (stored_exactly c auths (TpmBuffer.new (MAX_DIGEST_SIZE + 2)) w
    (λ step, let* vtpm_policy := save_vtpm_policy heap cmds in st_ret (step :: vtpm_policy)) Hc Hname) as (p & Hp & Ep).
  exists (p :: ps). split; [|by constructor]. cbn [save_vtpm_policy].
  assert (policy_object_name (T:=T) (P:=P) c = st_ret (TpmBuffer.new (MAX_DIGEST_SIZE + 2))) as ->.
  { destruct Hc as (_ & Hd & _). destruct c as [cc v]. unfold policy_object_name. cbn [fst cv_variant cv_body] in *.
    clear -Hd. by destruct cc. }
  change (st_bind (st_ret ?x) ?k w) with (k x w). cbv beta. rewrite Ep. unfold st_bind. by rewrite E.
Qed.

(** ** Loading *)

Lemma load_exactly cmds ps w :
  Forall2 step_for cmds ps →
  ∃ cs, load_policy_steps heap ps w = (Ok (map (λ c, (c, TpmList.new MAX_SESSIONS)) cs), w) ∧
    Forall2 (λ c c', detached c = Some c') cmds cs ∧ Forall encodable cs.
Proof using Type.
  induction 1 as [|c p cmds ps (Hs & Hcc & Hd & c' & Hdet & Hto & He) HF (cs & E & Hcs & Hes)]; [by exists []|].
  exists (c' :: cs). split_and!; [|by constructor..]. cbn [load_policy_steps map].
  assert (load_policy_step heap p w = (Ok (c', TpmList.new MAX_SESSIONS), w)) as Ep.
  { unfold load_policy_step. rewrite bool_decide_false by (rewrite Hcc; intros E'; by rewrite E' in Hd).
    rewrite Hto. reflexivity. }
  unfold st_bind. rewrite Ep, E. reflexivity.
Qed.
End save.

(** ** Resolving *)

Section resolve.
Context `{PolicyTpm T h context handle}.
Context {FE : FileErrors} {MO : MapOrder} {O : Openssl} {P : Type} `{!TaskStateProgress P}.
Variables (heap : Z) (fill_bytes : list byte → list byte).
Implicit Types w : World T P.

Lemma plain_auths_ok : auths_ok (TpmList.new MAX_SESSIONS).
Proof using Type. by split; [eexists|]. Qed.

(** A policy session that is opened for stored commands *)
Lemma session_exactly alg cmds cs nonce nonce_tpm digest w :
  let b := TpmPolicySessionBuilder.with_auth_hash alg TpmPolicySessionBuilder.new in
  let session := TpmPolicySession.mk handle TpmaSession.CONTINUE_SESSION alg nonce_tpm in
  encodes TpmHandle handle → device_ok (device w) →
  TpmPolicySessionBuilder.the_nonce fill_bytes b = Ok nonce →
  starts_session (h:=h) (context:=context) (handle:=handle) b (TpmDevice.transport (device w)) nonce nonce_tpm →
  Forall2 (λ c c', detached c = Some c') cmds cs → Forall encodable cs → Forall plain cmds →
  effects h context trial_session (zero_digest h) cmds = Some digest →
  ∃ d', policy_session fill_bytes alg (map (λ c, (c, TpmList.new MAX_SESSIONS)) cs) w =
      (Ok (Session (VtpmCache.hv handle)),
       mk_world d' (TaskState.set_sessions (<[handle := session]> (TaskState.sessions (task w))) (task w)) (disk w) (rng w)) ∧
    device_ok d' ∧ session_digest (TpmDevice.transport d') = Some digest.
Proof using Type.
  intros b session [hb Hhb] Hd Hn Hs Hdet He Hpl Hr.
  destruct (open_starts fill_bytes b (device w) nonce nonce_tpm Hd Hn Hs) as (d1 & Hopen & Hd1 & Hz).
  rewrite <-(detached_effects h context trial_session cmds cs _ Hdet) in Hr.
  assert (Forall plain cs) as Hplain.
  { clear -Hdet Hpl. induction Hdet as [|c c' cmds cs Hc _ IH]; [constructor|].
    apply list.Forall_cons in Hpl as [Hp Hpl]. constructor; [by eapply detached_plain | by apply IH]. }
  assert ((map (λ c, (c, TpmList.new (A:=ty TpmsAuthCommand) MAX_SESSIONS)) cs).*1 = cs) as Efst.
  { change (map fst (map (λ c, (c, TpmList.new (A:=ty TpmsAuthCommand) MAX_SESSIONS)) cs) = cs).
    rewrite map_map. apply map_id. }
  destruct (run_replays (ex_intro _ hb Hhb) session (map (λ c, (c, TpmList.new MAX_SESSIONS)) cs) d1 (zero_digest h) digest eq_refl Hd1)
    as (d2 & Hrun & Hd2 & Hdig).
  { apply list.Forall_forall. intros c (c' & -> & Hc)%list_elem_of_fmap. rewrite list.Forall_forall in He.
    split; [by apply He | apply plain_auths_ok]. }
  { exact Hz. }
  { rewrite replay_effects; [by rewrite Efst| |].
    - apply list.Forall_forall. intros c (c' & -> & Hc)%list_elem_of_fmap. rewrite list.Forall_forall in Hplain.
      by apply plain_accepted, Hplain.
    - rewrite Efst. eapply list.Forall_impl; [exact Hplain|]. intros c Hc.
      by apply (plain_accepted tpm_authorises). }
  exists d2. split; [|by split]. unfold policy_session. cbv zeta. fold b.
  unfold on_device. unfold st_bind at 1. unfold st_bind at 1. unfold try_device at 1. rewrite Hopen.
  unfold st_lift at 1. cbn [map_err]. unfold st_bind at 1. unfold try_device at 1. cbn [device].
  fold session. change (TpmPolicySession.mk handle TpmaSession.CONTINUE_SESSION (TpmPolicySessionBuilder.auth_hash b) nonce_tpm)
    with session. by rewrite Hrun.
Qed.

(** Resolving the authorisation of a loaded key with a stored policy *)
Lemma resolve_stored vhandle ph key cmds nonce nonce_tpm digest w :
  let alg := TpmtPublic.name_alg (VtpmKey.public key) in
  let b := TpmPolicySessionBuilder.with_auth_hash alg TpmPolicySessionBuilder.new in
  let session := TpmPolicySession.mk handle TpmaSession.CONTINUE_SESSION alg nonce_tpm in
  TaskState.virt_handles (task w) !! VtpmCache.hv vhandle = Some ph →
  handle_type (VtpmCache.hv vhandle) = Some TpmHt.Transient →
  VtpmCache.find_by_handle (TaskState.cache (task w)) (VtpmCache.th (VtpmCache.hv vhandle)) = Some key →
  TaskState.auth_map (task w) !! vhandle = None →
  Forall2 (step_for heap) cmds (VtpmKey.policy key) → cmds ≠ [] → Forall plain cmds →
  encodes TpmHandle handle → device_ok (device w) →
  TpmPolicySessionBuilder.the_nonce fill_bytes b = Ok nonce →
  starts_session (h:=h) (context:=context) (handle:=handle) b (TpmDevice.transport (device w)) nonce nonce_tpm →
  effects h context trial_session (zero_digest h) cmds = Some digest →
  ∃ w', resolve_auth heap fill_bytes vhandle w = (Ok (ph, alg, Session (VtpmCache.hv handle)), w') ∧
    TaskState.sessions (task w') !! handle = Some session ∧ device_ok (device w') ∧
    session_digest (TpmDevice.transport (device w')) = Some digest.
Proof using Type.
  intros alg b session Hv Ht Hk Ha Hsteps Hne Hpl Hh Hd Hn Hs Hr.
  destruct (load_exactly heap cmds (VtpmKey.policy key) w Hsteps) as (cs & Hload & Hdet & He).
  destruct (session_exactly alg cmds cs nonce nonce_tpm digest w Hh Hd Hn Hs Hdet He Hpl Hr) as (d' & Hsess & Hd' & Hdig).
  eexists (mk_world d' (TaskState.set_sessions (<[handle := session]> (TaskState.sessions (task w))) (task w)) (disk w) (rng w)).
  split; [|split; [apply lookup_insert_eq|by split]].
  unfold resolve_auth.
  assert (fetch_policy vhandle w = (Ok (ph, VtpmKey.policy key, alg), w)) as Ef.
  { unfold fetch_policy, load_key_by_handle. unfold st_bind at 1. cbv zeta. change (st_bind get ?k w) with (k (task w) w).
    cbv beta. rewrite Hv. unfold st_ret, st_lift. rewrite bool_decide_true by done.
    change (st_bind get ?k w) with (k (task w) w). cbv beta. by rewrite Hk. }
  unfold st_bind at 1. rewrite Ef. change (st_bind get ?k w) with (k (task w) w). cbv beta. rewrite Ha.
  unfold st_bind at 1. unfold load_policy.
  destruct (VtpmKey.policy key) as [|p ps] eqn:Ep.
  { apply Forall2_nil_inv_r in Hsteps. by subst. }
  unfold st_bind at 1. rewrite Hload. unfold st_ret at 1, st_lift at 1.
  destruct cs as [|c cs]; [by apply Forall2_nil_inv_r in Hdet; subst|]. cbn [map].
  cbn [map] in Hsess. unfold st_bind. rewrite Hsess. reflexivity.
Qed.
End resolve.
