(* ===== verification/ImportKey.v ===== *)
(** Importing an external key ([sh/src/command/import.rs]): the duplication
    blob a TPM imports under a parent. *)

From S2P Require Import Prelude State Errors Writer Codec Integer Buffer Struct EnumMacro Enums Attributes.
From S2P Require Import BasicTypes Schemes Structures Crypto Hash Text PolicyText Template Openssl ExternalKey.

(** [openssl::symm]: a cipher with its key, an initialisation vector and the
    data *)
Class Symm `{Libcrypto} := {
  Cipher : Type;
  aes_128_cfb128 : Cipher;
  aes_256_cfb128 : Cipher;
  encrypt : Cipher → list byte → option (list byte) → list byte → result ErrorStack (list byte)
}.

(** The documented behaviour: with a key of the length of the cipher and one
    block of initialisation vector, what is encrypted can be decrypted. *)
Class SymmOk `{Symm} := {
  decrypt : Cipher → list byte → list byte → list byte → list byte;
  key_len : Cipher → Z;
  key_len_128 : key_len aes_128_cfb128 = 16;
  key_len_256 : key_len aes_256_cfb128 = 32;
  encrypt_ok c key iv data :
    zlen key = key_len c → zlen iv = 16 →
    may_fail (λ ct, decrypt c key iv ct = data ∧ zlen ct = zlen data) (encrypt c key (Some iv) data)
}.

(** The messages of the command, and the errors it converts. *)
Module ImportError.
Inductive t `{Libcrypto} : Type :=
| InvalidParentKeyType
| UnsupportedKeyAlgorithm
| EncryptFailed
| TypeMismatch
| SizeMismatch
| CurveMismatch
| Protocol (e : TpmError)
| Crypto (e : TpmCryptoError.t).
End ImportError.

Section import.
Context `{Libcrypto} `{!Openssl} `{!Symm} `{!BigUintLib}.
Abbreviation Res := (result ImportError.t).
Abbreviation crypto := (map_err ImportError.Crypto).
Abbreviation protocol := (map_err ImportError.Protocol).

(** [write_object] of [sh/src/io.rs] *)
Definition write_object (c : Codec) (obj : ty c) : TpmResult (list byte) :=
  let (r, writer) := marshal c obj (writer_new (TpmHash.zeroed TPM_MAX_COMMAND_SIZE)) in
  let? _ := r in
  Ok (take (Z.to_nat (writer_len writer)) (buffer writer)).

Definition public_to_sym_key_bits (parent_public : ty TpmtPublic) : Res Z :=
  let? sym_def :=
    match TpmtPublic.parameters parent_public with
    | TpmuPublicParms.Rsa parms => Ok parms.1
    | TpmuPublicParms.Ecc parms => Ok parms.1
    | _ => Err ImportError.InvalidParentKeyType
    end in
  match TpmtSymDef.key_bits sym_def with
  | TpmuSymKeyBits.Aes bits | TpmuSymKeyBits.Camellia bits | TpmuSymKeyBits.Sm4 bits =>
      Ok (TpmInt.value 2 false bits)
  | _ => Err ImportError.InvalidParentKeyType
  end.

Definition create_import_keys (parent_name_alg : TpmAlgId.t) (seed : list byte) (object_name : ty Tpm2bName)
    (key_bits : Z) : Res (list byte * list byte) :=
  let? parent_hash := crypto (TpmHash.try_from parent_name_alg) in
  let? sym_key := crypto (TpmHash.kdfa parent_hash seed KDF_LABEL_STORAGE (TpmBuffer.deref object_name) [] key_bits) in
  let key_bits := TpmHash.size parent_hash * 8 in
  let? hmac_key := crypto (TpmHash.kdfa parent_hash seed KDF_LABEL_INTEGRITY [] [] key_bits) in
  Ok (sym_key, hmac_key).

Definition sensitive_composite (object_key_type : TpmAlgId.t) (private_bytes : list byte)
    : Res TpmuSensitiveComposite.t :=
  match object_key_type with
  | TpmAlgId.Rsa =>
      let? b := protocol (TpmBuffer.try_from MAX_SENSITIVE_DATA private_bytes) in Ok (TpmuSensitiveComposite.Rsa b)
  | TpmAlgId.Ecc =>
      let? b := protocol (TpmBuffer.try_from MAX_ECC_KEY_BYTES private_bytes) in Ok (TpmuSensitiveComposite.Ecc b)
  | TpmAlgId.KeyedHash =>
      let? b := protocol (TpmBuffer.try_from MAX_SENSITIVE_DATA private_bytes) in Ok (TpmuSensitiveComposite.Bits b)
  | TpmAlgId.SymCipher =>
      let? b := protocol (TpmBuffer.try_from MAX_SYM_KEY_BYTES private_bytes) in Ok (TpmuSensitiveComposite.Sym b)
  | _ => Err ImportError.UnsupportedKeyAlgorithm
  end.

Definition encrypt_sensitive_data (object_public : ty TpmtPublic) (private_bytes sym_key : list byte)
    (auth_value : ty Tpm2bAuth) (key_bits : Z) : Res (list byte) :=
  let object_key_type := TpmtPublic.object_type object_public in
  let? sensitive_composite := sensitive_composite object_key_type private_bytes in
  let sensitive := TpmtSensitive.mk object_key_type auth_value (TpmBuffer.new MAX_DIGEST_SIZE) sensitive_composite in
  let sensitive_tpm2b := Tpm2bStruct.mk sensitive in
  let? enc_data_in := protocol (write_object Tpm2bSensitive sensitive_tpm2b) in
  let iv := TpmHash.zeroed 16 in
  let? cipher :=
    (if key_bits =? 128 then Ok aes_128_cfb128
     else if key_bits =? 256 then Ok aes_256_cfb128
     else Err ImportError.InvalidParentKeyType) in
  map_err (λ _, ImportError.EncryptFailed) (encrypt cipher sym_key (Some iv) enc_data_in).

Definition create_private_blob (parent_name_alg : TpmAlgId.t) (hmac_key sensitive : list byte)
    (object_name : ty Tpm2bName) : Res (ty Tpm2bPrivate) :=
  let? hash := crypto (TpmHash.try_from parent_name_alg) in
  let? final_mac := crypto (TpmHash.hmac hash hmac_key [sensitive; TpmBuffer.deref object_name]) in
  let? integrity := protocol (TpmBuffer.try_from MAX_DIGEST_SIZE final_mac) in
  let (r, writer) :=
    (marshal Tpm2bDigest integrity ;! write_bytes sensitive) (writer_new (TpmHash.zeroed TPM_MAX_COMMAND_SIZE)) in
  let? _ := protocol r in
  let? duplicate_blob := crypto (take_checked (writer_len writer) (buffer writer)) in
  protocol (TpmBuffer.try_from MAX_PRIVATE_SIZE duplicate_blob).

(** What follows the seed in [build_import_blob] *)
Definition wrap_private (parent_public object_public : ty TpmtPublic) (private_bytes : list byte)
    (object_name : ty Tpm2bName) (user_auth : ty Tpm2bAuth) (seed : list byte) : Res (ty Tpm2bPrivate) :=
  let name_alg := TpmtPublic.name_alg parent_public in
  let? key_bits := public_to_sym_key_bits parent_public in
  let? (sym_key, hmac_key) := create_import_keys name_alg seed object_name key_bits in
  let? sensitive := encrypt_sensitive_data object_public private_bytes sym_key user_auth key_bits in
  create_private_blob name_alg hmac_key sensitive object_name.

(** [key.to_seed(TpmHash::try_from(name_alg)?)?] of [build_import_blob]; [fuel]
    bounds the sampling loop of an ECC key. *)
Definition seed_of {Key : Type} {K : TpmExternalKey Key} (fuel : nat) (key : result TpmCryptoError.t Key)
    (name_alg : TpmAlgId.t) (g : Rng) : option (Res (ty Tpm2bDigest * ty Tpm2bEncryptedSecret) * Rng) :=
  match (let? key := key in let? hash := TpmHash.try_from name_alg in Ok (key, hash)) with
  | Ok (key, hash) =>
      match to_seed fuel key hash g with
      | Some (r, g') => Some (crypto r, g')
      | None => None
      end
  | Err e => Some (Err (ImportError.Crypto e), g)
  | Panic => Some (Panic, g)
  end.

Definition import_seed (fuel : nat) (parent_public : ty TpmtPublic) (g : Rng)
    : option (Res (ty Tpm2bDigest * ty Tpm2bEncryptedSecret) * Rng) :=
  let name_alg := TpmtPublic.name_alg parent_public in
  match TpmtPublic.object_type parent_public with
  | TpmAlgId.Rsa => seed_of fuel (rsa_try_from_public parent_public) name_alg g
  | TpmAlgId.Ecc => seed_of fuel (ecc_try_from_public parent_public) name_alg g
  | _ => Some (Err ImportError.InvalidParentKeyType, g)
  end.

Definition build_import_blob (fuel : nat) (parent_public object_public : ty TpmtPublic) (private_bytes : list byte)
    (object_name : ty Tpm2bName) (user_auth : ty Tpm2bAuth) (g : Rng)
    : option (Res (ty Tpm2bPrivate * ty Tpm2bEncryptedSecret * ty Tpm2bData) * Rng) :=
  match import_seed fuel parent_public g with
  | Some (r, g') =>
      Some (
        (let? (seed, in_sym_seed) := r in
         let? duplicate :=
           wrap_private parent_public object_public private_bytes object_name user_auth (TpmBuffer.deref seed) in
         Ok (duplicate, in_sym_seed, TpmBuffer.new MAX_DATA_SIZE)), g')
  | None => None
  end.
End import.

(** ** The template of the imported key *)

Section template.
Context `{Openssl} `{BigUintLib} `{!TextLib} `{CurveText}.
Abbreviation Res := (result ImportError.t).
Abbreviation crypto := (map_err ImportError.Crypto).

Inductive ImportKeyShape :=
| ShapeRsa (key_bits : TpmInt.t)
| ShapeEcc (curve : TpmEllipticCurve.t).

Definition import_key_shape (der_bytes : list byte) : Res ImportKeyShape :=
  match rsa_from_der der_bytes with
  | Ok (key, _) => Ok (ShapeRsa (key_bits key))
  | Err _ => let? (key, _) := crypto (ecc_from_der der_bytes) in Ok (ShapeEcc (curve key))
  | Panic => Panic
  end.

Definition validate_import_template (shape : ImportKeyShape) (template : TpmPublicTemplate.t)
    : Res TpmPublicTemplate.t :=
  match shape with
  | ShapeRsa key_bits =>
      match TpmPublicTemplate.public_parms template with
      | TpmuPublicParms.Rsa (_, (_, (parms_key_bits, _))) =>
          if negb (bool_decide (parms_key_bits = key_bits)) then Err ImportError.SizeMismatch else Ok template
      | _ => Err ImportError.TypeMismatch
      end
  | ShapeEcc curve =>
      match TpmPublicTemplate.public_parms template with
      | TpmuPublicParms.Ecc (_, (_, (curve_id, _))) =>
          if negb (bool_decide (curve_id = TpmEllipticCurve.to_curve curve)) then Err ImportError.CurveMismatch
          else Ok template
      | _ => Err ImportError.TypeMismatch
      end
  end.

(** [format!("rsa-{key_bits}:{hash}:null")] and its like for a curve *)
Definition default_template_text (shape : ImportKeyShape) (hash : TpmHash.t) : str :=
  match shape with
  | ShapeRsa key_bits =>
      lit "rsa-" ++ u16_to_string (TpmInt.value 2 false key_bits) ++ lit ":" ++ hash_to_string hash ++ lit ":null"
  | ShapeEcc curve => lit "ecc-" ++ curve_to_string curve ++ lit ":" ++ hash_to_string hash ++ lit ":null"
  end.

Definition default_unrestricted_template (shape : ImportKeyShape) (name_alg : TpmAlgId.t)
    : Res TpmPublicTemplate.t :=
  let? hash := crypto (TpmHash.try_from name_alg) in
  crypto (TpmPublicTemplate.from_str (default_template_text shape hash)).

Definition resolve_import_template (shape : ImportKeyShape) (name_alg : TpmAlgId.t)
    (algorithm : option TpmPublicTemplate.t) : Res TpmPublicTemplate.t :=
  match algorithm with
  | Some template => validate_import_template shape template
  | None => default_unrestricted_template shape name_alg
  end.
End template.
