(* ===== verification/ImportKeySpec.v ===== *)
(** What a parent makes of a duplication blob, and that the one which is built
    for it opens to the imported key; the template of an imported key. *)

From S2P Require Import Prelude State Errors Writer Codec Integer Buffer Struct EnumMacro Union Enums Attributes.
From S2P Require Import BasicTypes Schemes Structures Crypto Hash Text PolicyText Template TemplateSpec Openssl.
From S2P Require Import ExternalKey ExternalKeySpec ImportKey.

(** ** The parent's side *)

Section unwrap.
Context {L : Libcrypto} {LO : LibcryptoOk} {S : Symm} {SO : SymmOk}.

(** The keys of part 1 of the TPM specification, "outer wrapper": the symmetric
    key is bound to the name, the HMAC key is not. *)
Definition wrapper_key (h : TpmHash.t) (seed name : list byte) (bits : Z) : list byte :=
  kdf_key (kdfa_block h seed KDF_LABEL_STORAGE name [] bits) (TpmHash.size h) bits.
Definition integrity_key (h : TpmHash.t) (seed : list byte) : list byte :=
  kdf_key (kdfa_block h seed KDF_LABEL_INTEGRITY [] [] (TpmHash.size h * 8)) (TpmHash.size h) (TpmHash.size h * 8).

(** How the holder of the seed opens a blob with the cipher [c]: it checks the
    integrity value over the encrypted area and the name, then decrypts and
    reads the area. *)
Definition unwrap_with (h : TpmHash.t) (c : Cipher) (bits : Z) (seed name blob : list byte)
    : option (ty TpmtSensitive) :=
  match unmarshal Tpm2bDigest (mk_slice 0 blob) with
  | Ok (mac, rest) =>
      let enc := sl_data rest in
      if decide (TpmBuffer.deref mac = hmac_of (TpmHash.to_md h) (integrity_key h seed) (enc ++ name)) then
        match unmarshal Tpm2bSensitive
                (mk_slice 0 (decrypt c (wrapper_key h seed name bits) (TpmHash.zeroed 16) enc)) with
        | Ok (s, tail) => if sl_is_empty tail then Some (Tpm2bStruct.inner s) else None
        | _ => None
        end
      else None
  | _ => None
  end.

(** The cipher of a storage key, and the bits of its key: what its public area
    says, here AES in CFB mode only. *)
Definition parent_cipher (parent : ty TpmtPublic) : option (Cipher * Z) :=
  sym ←
    match TpmtPublic.parameters parent with
    | TpmuPublicParms.Rsa parms => Some parms.1
    | TpmuPublicParms.Ecc parms => Some parms.1
    | _ => None
    end;
  match TpmtSymDef.algorithm sym, TpmtSymDef.key_bits sym, TpmtSymDef.mode sym with
  | TpmAlgId.Aes, TpmuSymKeyBits.Aes bits, TpmuSymMode.Aes TpmAlgId.Cfb =>
      let bits := TpmInt.value 2 false bits in
      if bits =? 128 then Some (aes_128_cfb128, bits)
      else if bits =? 256 then Some (aes_256_cfb128, bits)
      else None
  | _, _, _ => None
  end.

(** How the parent opens a blob: its cipher and its name algorithm are those of
    its public area. *)
Definition tpm_unwrap (parent : ty TpmtPublic) (seed name blob : list byte) : option (ty TpmtSensitive) :=
  match parent_cipher parent, TpmHash.try_from (TpmtPublic.name_alg parent) with
  | Some (c, bits), Ok h => unwrap_with h c bits seed name blob
  | _, _ => None
  end.

(** ** The sensitive area *)

Lemma composite_wire kt xs comp :
  sensitive_composite kt xs = Ok comp →
  matches_tag TpmuSensitiveComposite comp kt = true ∧
  uwire TpmuSensitiveComposite comp = Some (Tpm2b.format xs).
Proof.
  unfold sensitive_composite. intros Hc.
  destruct kt; try done; apply result_bind_Ok_inv in Hc as (b & Hb%map_err_Ok_inv & [= <-]);
    (apply try_from_holds in Hb;
       [|unfold MAX_SENSITIVE_DATA, MAX_ECC_KEY_BYTES, MAX_SYM_KEY_BYTES, u16_max; lia]);
    (split; [done|]; apply buffer_wire_Some; by exists xs).
Qed.

Lemma imported_wire kt auth auth_bs comp xs :
  TpmBuffer.holds MAX_DIGEST_SIZE auth auth_bs → sensitive_composite kt xs = Ok comp →
  ∃ bs, wire Tpm2bSensitive (Tpm2bStruct.mk (TpmtSensitive.mk kt auth (TpmBuffer.new MAX_DIGEST_SIZE) comp)) = Some bs ∧
    zlen bs ≤ 394.
Proof.
  intros Ha [Hm Hw]%composite_wire.
  assert (∃ bs, wire Tpm2bSensitive
    (Tpm2bStruct.mk (TpmtSensitive.mk kt auth (TpmBuffer.new MAX_DIGEST_SIZE) comp)) = Some bs) as (bs & Hbs).
  { simpl. unfold Tpm2bStruct.wire.
    assert (∃ bs, wire TpmtSensitive (TpmtSensitive.mk kt auth (TpmBuffer.new MAX_DIGEST_SIZE) comp) = Some bs) as (bs & Hbs).
    { eexists. apply sensitive_wire_Some. split; [exact Hm|].
      cbn [TpmtSensitive.sensitive TpmtSensitive.sensitive_type TpmtSensitive.auth_value TpmtSensitive.seed_value].
      rewrite Hw.
      assert (wire Tpm2bAuth auth = Some (Tpm2b.format auth_bs)) as -> by (apply buffer_wire_Some; eauto).
      assert (wire Tpm2bDigest (TpmBuffer.new MAX_DIGEST_SIZE) = Some (Tpm2b.format [])) as ->.
      { apply buffer_wire_Some. exists []. split; [by apply new_holds | done]. }
      reflexivity. }
    pose proof (wire_max_le (c:=TpmtSensitive) _ _ Hbs) as Hl.
    change (zlen bs ≤ 392) in Hl.
    change (Codec.wire _ _) with
      (wire TpmtSensitive (TpmtSensitive.mk kt auth (TpmBuffer.new MAX_DIGEST_SIZE) comp)).
    rewrite Hbs. simpl.
    rewrite (proj2 (Z.leb_le _ _)) by (unfold u16_max; lia). by eexists. }
  exists bs. split; [done|]. apply (wire_max_le (c:=Tpm2bSensitive)) in Hbs. by vm_compute in Hbs.
Qed.

(** ** The blob *)

(** What can go wrong with a parent of a usable kind: libcrypto. *)
Definition import_failure (h : TpmHash.t) (e : ImportError.t) : Prop :=
  e = ImportError.EncryptFailed ∨ ∃ c, e = ImportError.Crypto c ∧ crypto_failure h c.

Definition wrap_cipher (bits : Z) : Cipher := if bits =? 128 then aes_128_cfb128 else aes_256_cfb128.

Lemma crypto_import {A} h (P : A → Prop) (r : result TpmCryptoError.t A) :
  outcome (crypto_failure h) P r → outcome (import_failure h) P (map_err ImportError.Crypto r).
Proof. intros H. eapply outcome_map_err; [exact H|]. intros e He. right. by exists e. Qed.

Lemma wrap_key_len bits : bits = 128 ∨ bits = 256 → key_len (wrap_cipher bits) = TpmHash.div_ceil bits 8.
Proof. by intros [-> | ->]; [apply key_len_128 | apply key_len_256]. Qed.

Lemma parent_cipher_bits parent c bits :
  parent_cipher parent = Some (c, bits) →
  public_to_sym_key_bits parent = Ok bits ∧ (bits = 128 ∨ bits = 256) ∧ c = wrap_cipher bits.
Proof.
  unfold parent_cipher, public_to_sym_key_bits. intros (sym & Hs & Hc)%bind_Some.
  assert (TpmtSymDef.algorithm sym = TpmAlgId.Aes ∧ ∃ b, TpmtSymDef.key_bits sym = TpmuSymKeyBits.Aes b ∧
    TpmInt.value 2 false b = bits ∧ (bits = 128 ∨ bits = 256) ∧ c = wrap_cipher bits) as (_ & b & Hb & Hv & Hbits & Hcc).
  { destruct (TpmtSymDef.algorithm sym); try done. destruct (TpmtSymDef.key_bits sym) as [b| | | |]; try done.
    destruct (TpmtSymDef.mode sym) as [m| | | |]; try done. destruct m; try done. cbv zeta in Hc.
    split; [done|]. exists b. split; [done|]. unfold wrap_cipher.
    destruct (Z.eqb_spec (TpmInt.value 2 false b) 128) as [E|E].
    - injection Hc as <- <-. rewrite E. split_and!; [done|by left|done].
    - destruct (Z.eqb_spec (TpmInt.value 2 false b) 256) as [E'|E']; [|done].
      injection Hc as <- <-. rewrite E'. split_and!; [done|by right|done]. }
  split; [|by split]. destruct (TpmtPublic.parameters parent); try done; injection Hs as <-; cbn [result_bind];
    (match goal with |- context [TpmtSymDef.key_bits ?x] => change (TpmtSymDef.key_bits x = TpmuSymKeyBits.Aes b) in Hb end);
    by rewrite Hb, Hv.
Qed.

Lemma integrity_key_nonempty h seed : 0 < TpmHash.size h → integrity_key h seed ≠ [].
Proof.
  intros Hs. assert (0 ≤ TpmHash.size h * 8) as Hb by (apply Z.mul_nonneg_nonneg; [by apply Z.lt_le_incl | done]).
  assert (zlen (integrity_key h seed) = TpmHash.div_ceil (TpmHash.size h * 8) 8) as Hi.
  { apply zlen_kdf_key; [intros; apply zlen_hmac | exact Hs | exact Hb]. }
  pose proof (div_ceil_spec (TpmHash.size h * 8) 8 ltac:(lia) Hb) as Hd.
  intros E. rewrite E in Hi. change (zlen []) with 0 in Hi. rewrite <-Hi in Hd.
  set (z := TpmHash.size h) in *. lia.
Qed.

Lemma import_keys alg h seed name bits :
  TpmHash.try_from alg = Ok h → 0 < TpmHash.size h → seed ≠ [] → bits = 128 ∨ bits = 256 →
  outcome (import_failure h)
    (λ '(k, m), k = wrapper_key h seed (TpmBuffer.deref name) bits ∧ m = integrity_key h seed)
    (create_import_keys alg seed name bits).
Proof.
  intros Ha Hs Hseed Hbits. pose proof (size_bounds h) as Hb. unfold create_import_keys. rewrite Ha.
  cbn [map_err result_bind].
  eapply outcome_bind; [apply crypto_import, kdfa_outcome; [done | unfold u32_max; lia | done]|].
  intros k ->.
  eapply outcome_bind; [apply crypto_import, kdfa_outcome; [done | unfold u32_max, MAX_DIGEST_SIZE in *; lia | done]|].
  by intros m ->.
Qed.

Lemma write_object_ok (c : Codec) `{!CodecOk c} v bs :
  wire c v = Some bs → zlen bs ≤ TPM_MAX_COMMAND_SIZE → write_object c v = Ok bs.
Proof.
  intros Hw Hl. unfold write_object.
  destruct (marshal_zeroed c v bs TPM_MAX_COMMAND_SIZE Hw) as (w & -> & Ht).
  { split; [done|]. by apply Z.leb_le. }
  cbn [result_bind]. unfold take_checked in Ht. case_match; [|done]. by injection Ht as ->.
Qed.

(** What is written into a buffer of zeros that is wide enough *)
Lemma writes_zeroed (m : W ()) bs n :
  writes m bs → zlen bs ≤ n ≤ isize_max →
  ∃ w, m (writer_new (TpmHash.zeroed n)) = (Ok (), w) ∧
       take_checked (E:=TpmCryptoError.t) (writer_len w) (buffer w) = Ok bs.
Proof.
  intros Hm Hn. pose proof (zlen_nonneg bs). set (w0 := writer_new (TpmHash.zeroed n)).
  assert (zlen (TpmHash.zeroed n) = n) as Hz by (apply zlen_zeroed; lia).
  assert (writer_ok w0) as Hok by (unfold writer_ok, capacity; simpl; lia).
  exists (put w0 bs). split; [apply (Hm w0 Hok); unfold room, capacity; simpl; lia|].
  pose proof (put_as_bytes w0 bs Hok) as Hb. pose proof (put_ok w0 bs Hok) as Hp.
  rewrite take_checked_ok; [f_equal; exact Hb|]. apply Hp. unfold room, capacity; simpl; lia.
Qed.

Lemma private_blob alg h key enc name :
  TpmHash.try_from alg = Ok h → key ≠ [] → zlen enc ≤ 394 →
  outcome (import_failure h)
    (λ b, TpmBuffer.deref b =
       Tpm2b.format (hmac_of (TpmHash.to_md h) key (enc ++ TpmBuffer.deref name)) ++ enc)
    (create_private_blob alg key enc name).
Proof.
  intros Ha Hk Hl. unfold create_private_blob. rewrite Ha. cbn [map_err result_bind].
  eapply outcome_bind; [apply crypto_import, hmac_spec, Hk|]. intros mac ->.
  change (concat _) with (enc ++ TpmBuffer.deref name ++ []). rewrite app_nil_r.
  set (mac := hmac_of _ _ _). pose proof (zlen_hmac (TpmHash.to_md h) key (enc ++ TpmBuffer.deref name)) as Hm.
  pose proof (md_size_bounds (TpmHash.to_md h)) as Hb. fold mac in Hm. rewrite <-Hm in Hb.
  destruct (buffer_try_from_spec MAX_DIGEST_SIZE ltac:(by vm_compute) mac) as (dg & Hdg & Hh);
    [exact (proj2 Hb) | unfold MAX_DIGEST_SIZE, u16_max in *; lia|].
  rewrite Hdg. cbn [map_err result_bind].
  assert (zlen (Tpm2b.format mac ++ enc) ≤ 460) as Ht.
  { rewrite zlen_app, zlen_format. unfold MAX_DIGEST_SIZE in Hb. lia. }
  destruct (writes_zeroed (marshal Tpm2bDigest dg ;! write_bytes enc) (Tpm2b.format mac ++ enc) TPM_MAX_COMMAND_SIZE)
    as (w & Hw & Hbs).
  { apply writes_bind; [|apply writes_write_bytes]. apply (marshal_wire (c:=Tpm2bDigest)).
    apply buffer_wire_Some. by exists mac. }
  { split; [|by apply Z.leb_le]. transitivity 460; [done|]. by apply Z.leb_le. }
  rewrite Hw. cbn [map_err result_bind]. rewrite Hbs. cbn [map_err result_bind].
  destruct (buffer_try_from_spec MAX_PRIVATE_SIZE ltac:(by vm_compute) (Tpm2b.format mac ++ enc)) as (b & -> & Hbh);
    [unfold MAX_PRIVATE_SIZE; lia | unfold u16_max; lia|].
  simpl. exact (holds_deref _ _ _ Hbh).
Qed.

Lemma small_slice bs : zlen bs ≤ 1000 → slice_ok (mk_slice 0 bs).
Proof. intros Hl. split_and!; cbn [sl_addr]; unfold sl_len; cbn [sl_data]; unfold usize_max, isize_max; lia. Qed.

(** What the parent reads of such a blob *)
Lemma unwrap_ok h c bits seed name enc s bs :
  zlen enc ≤ 394 → decrypt c (wrapper_key h seed name bits) (TpmHash.zeroed 16) enc = bs →
  wire Tpm2bSensitive (Tpm2bStruct.mk s) = Some bs → zlen bs ≤ 394 →
  unwrap_with h c bits seed name
    (Tpm2b.format (hmac_of (TpmHash.to_md h) (integrity_key h seed) (enc ++ name)) ++ enc) = Some s.
Proof.
  intros Hl Hd Hw Hb. unfold unwrap_with. set (mac := hmac_of _ _ _).
  pose proof (zlen_hmac (TpmHash.to_md h) (integrity_key h seed) (enc ++ name)) as Hm.
  pose proof (md_size_bounds (TpmHash.to_md h)) as Hmb. fold mac in Hm. rewrite <-Hm in Hmb.
  destruct (buffer_try_from_spec MAX_DIGEST_SIZE ltac:(by vm_compute) mac) as (dg & _ & Hh);
    [exact (proj2 Hmb) | unfold MAX_DIGEST_SIZE, u16_max in *; lia|].
  assert (wire Tpm2bDigest dg = Some (Tpm2b.format mac)) as Hwd by (apply buffer_wire_Some; by exists mac).
  rewrite (roundtrip Tpm2bDigest dg (Tpm2b.format mac) enc 0 Hwd).
  - cbn [sl_data]. rewrite (holds_deref _ _ _ Hh), decide_True by done. rewrite Hd.
    rewrite <-(app_nil_r bs) at 1. rewrite (roundtrip Tpm2bSensitive _ bs [] 0 Hw); [done|].
    rewrite app_nil_r. apply small_slice. lia.
  - apply small_slice. rewrite zlen_app, zlen_format. unfold MAX_DIGEST_SIZE in Hmb. lia.
Qed.

(** The blob [wrap_private] builds opens, for who has the seed, to the key. *)
Lemma wrap_opens parent_public object_public xs name auth auth_bs seed h bits comp :
  TpmHash.try_from (TpmtPublic.name_alg parent_public) = Ok h → 0 < TpmHash.size h → seed ≠ [] →
  public_to_sym_key_bits parent_public = Ok bits → bits = 128 ∨ bits = 256 →
  TpmBuffer.holds MAX_DIGEST_SIZE auth auth_bs →
  sensitive_composite (TpmtPublic.object_type object_public) xs = Ok comp →
  outcome (import_failure h)
    (λ b, unwrap_with h (wrap_cipher bits) bits seed (TpmBuffer.deref name) (TpmBuffer.deref b) =
       Some (TpmtSensitive.mk (TpmtPublic.object_type object_public) auth (TpmBuffer.new MAX_DIGEST_SIZE) comp))
    (wrap_private parent_public object_public xs name auth seed).
Proof.
  intros Ha Hs Hseed Hpb Hbits Hauth Hc. unfold wrap_private. cbv zeta. rewrite Hpb. cbn [result_bind].
  eapply outcome_bind; [by apply (import_keys _ h)|]. intros [k m] [-> ->].
  destruct (imported_wire _ _ _ _ _ Hauth Hc) as (bs & Hw & Hbs).
  assert (zlen (wrapper_key h seed (TpmBuffer.deref name) bits) = TpmHash.div_ceil bits 8) as Hkl.
  { apply zlen_kdf_key; [intros; apply zlen_hmac | done | by destruct Hbits as [-> | ->]]. }
  pose proof (integrity_key_nonempty h seed Hs) as Hik.
  eapply (outcome_bind _ (λ enc, zlen enc ≤ 394 ∧
    decrypt (wrap_cipher bits) (wrapper_key h seed (TpmBuffer.deref name) bits) (TpmHash.zeroed 16) enc = bs)).
  { unfold encrypt_sensitive_data. cbv zeta. rewrite Hc. cbn [result_bind].
    rewrite (write_object_ok Tpm2bSensitive _ bs Hw).
    2:{ transitivity 394; [done|]. by apply Z.leb_le. }
    cbn [map_err result_bind].
    assert ((if bits =? 128 then Ok aes_128_cfb128
             else if bits =? 256 then Ok aes_256_cfb128
             else Err ImportError.InvalidParentKeyType) = Ok (E:=ImportError.t) (wrap_cipher bits)) as ->
      by by destruct Hbits as [-> | ->].
    cbn [result_bind]. eapply outcome_map_err.
    - eapply outcome_impl; [apply encrypt_ok; [by rewrite wrap_key_len | by rewrite zlen_zeroed]|].
      intros ct [Hd Hz]. split; [by rewrite Hz | exact Hd].
    - intros e _. by left. }
  intros enc [Hel Hdec].
  eapply outcome_impl; [by apply (private_blob _ h)|]. intros b ->. by eapply unwrap_ok.
Qed.
End unwrap.

(** ** The whole blob *)

Section blob.
Context {L : Libcrypto} {LO : LibcryptoOk} {O : Openssl} {OO : OpensslOk} {S : Symm} {SO : SymmOk}.
Context {B : BigUintLib} {BO : BigUintLibOk}.

Definition blob_failure (h : TpmHash.t) (e : ImportError.t) : Prop :=
  import_failure h e ∨ ∃ c, e = ImportError.Crypto c ∧ oaep_failure h c.

(** A blob and a secret from which the parent, who [recovers] the seed from
    the secret, gets the sensitive area [s]. *)
Definition opens (parent : ty TpmtPublic) (name : list byte) (recovers : list byte → list byte → Prop)
    (s : ty TpmtSensitive) (b : ty Tpm2bPrivate * ty Tpm2bEncryptedSecret * ty Tpm2bData) : Prop :=
  let '(duplicate, secret, encryption_key) := b in
  TpmBuffer.deref encryption_key = [] ∧
  ∃ seed, recovers (TpmBuffer.deref secret) seed ∧
    tpm_unwrap parent seed name (TpmBuffer.deref duplicate) = Some s.

Lemma outcome_impl_err {E A} (F F' : E → Prop) (P : A → Prop) (r : result E A) :
  outcome F P r → (∀ e, F e → F' e) → outcome F' P r.
Proof. destruct r; simpl; auto. Qed.

Lemma ecc_parent_type parent key : ecc_try_from_public parent = Ok key → TpmtPublic.object_type parent = TpmAlgId.Ecc.
Proof.
  unfold ecc_try_from_public. destruct (bool_decide _) eqn:E; [|done]. by apply bool_decide_eq_true in E.
Qed.

Lemma rsa_parent_type parent key : rsa_try_from_public parent = Ok key → TpmtPublic.object_type parent = TpmAlgId.Rsa.
Proof.
  unfold rsa_try_from_public. destruct (bool_decide _) eqn:E; [|done]. by apply bool_decide_eq_true in E.
Qed.

Lemma seed_of_outcome {Key} {K : TpmExternalKey Key} fuel (key : Key) alg h rng r rng' (F : _ → Prop)
    (P : ty Tpm2bDigest * ty Tpm2bEncryptedSecret → Prop) :
  TpmHash.try_from alg = Ok h →
  (∀ r1 g1, to_seed fuel key h rng = Some (r1, g1) → outcome F P r1) →
  seed_of fuel (Ok key) alg rng = Some (r, rng') →
  outcome (λ e, ∃ c, e = ImportError.Crypto c ∧ F c) P r.
Proof.
  intros Ha Hs. unfold seed_of. rewrite Ha. cbn [result_bind].
  destruct (to_seed fuel key h rng) as [[r1 g1]|] eqn:E; [|done]. intros [= <- <-].
  eapply outcome_map_err; [exact (Hs _ _ eq_refl)|]. intros e He. by exists e.
Qed.

Lemma blob_opens fuel parent object xs name auth auth_bs h c bits comp rng r rng'
    (recovers : list byte → list byte → Prop) :
  TpmHash.try_from (TpmtPublic.name_alg parent) = Ok h → 0 < TpmHash.size h →
  parent_cipher parent = Some (c, bits) →
  TpmBuffer.holds MAX_DIGEST_SIZE auth auth_bs →
  sensitive_composite (TpmtPublic.object_type object) xs = Ok comp →
  (∀ r1 g1, import_seed fuel parent rng = Some (r1, g1) →
     outcome (blob_failure h) (λ '(seed, secret), TpmBuffer.deref seed ≠ [] ∧
       recovers (TpmBuffer.deref secret) (TpmBuffer.deref seed)) r1) →
  build_import_blob fuel parent object xs name auth rng = Some (r, rng') →
  outcome (blob_failure h)
    (opens parent (TpmBuffer.deref name) recovers
       (TpmtSensitive.mk (TpmtPublic.object_type object) auth (TpmBuffer.new MAX_DIGEST_SIZE) comp)) r.
Proof.
  intros Ha Hs Hpc Hauth Hc Hseed. unfold build_import_blob.
  destruct (parent_cipher_bits parent c bits Hpc) as (Hpb & Hbits & Ec).
  destruct (import_seed fuel parent rng) as [[r1 g1]|]; [|done]. intros [= <- <-].
  eapply outcome_bind; [exact (Hseed _ _ eq_refl)|]. intros [seed secret] [Hne Hrec].
  eapply outcome_bind.
  - pose proof (wrap_opens parent object xs name auth auth_bs (TpmBuffer.deref seed) h bits comp
      Ha Hs Hne Hpb Hbits Hauth Hc) as Hw.
    destruct (wrap_private _ _ _ _ _ _) as [b|e|]; [exact Hw | by left | done].
  - intros b Hb. split; [by apply (holds_deref MAX_DATA_SIZE), new_holds|]. exists (TpmBuffer.deref seed). split; [done|].
    unfold tpm_unwrap. rewrite Hpc, Ha, Ec. exact Hb.
Qed.

Lemma recovered_nonempty g d h x secret seed :
  0 < TpmHash.size h → tpm_recover_seed g d h x secret = Some seed → seed ≠ [].
Proof.
  intros Hs. unfold tpm_recover_seed. destruct (unmarshal _ _) as [[p rest]| |]; [|done..].
  case_match; [|done]. cbv zeta. set (blk := kdfe_block _ _ _ _ _).
  assert (0 ≤ 8 * TpmHash.size h) as Hb by (apply Z.mul_nonneg_nonneg; [done | by apply Z.lt_le_incl]).
  intros [= <-] E. pose proof (zlen_kdf_key blk (TpmHash.size h) (8 * TpmHash.size h)) as Hl.
  rewrite E in Hl. change (zlen []) with 0 in Hl.
  pose proof (div_ceil_spec (8 * TpmHash.size h) 8 ltac:(lia) Hb) as Hd.
  rewrite <-Hl in Hd; [|intros; apply zlen_hash | done..]. set (z := TpmHash.size h) in *. lia.
Qed.

(** An ECC parent: the holder of the private key [d] *)
Lemma ecc_blob_opens fuel parent object xs name auth auth_bs h c bits comp rng r rng' key nid g d :
  TpmHash.try_from (TpmtPublic.name_alg parent) = Ok h → 0 < TpmHash.size h →
  parent_cipher parent = Some (c, bits) →
  TpmBuffer.holds MAX_DIGEST_SIZE auth auth_bs →
  sensitive_composite (TpmtPublic.object_type object) xs = Ok comp →
  ecc_try_from_public parent = Ok key → curve_to_nid (curve key) = Ok nid →
  EcGroup_from_curve_name nid = Ok g → 0 < d < group_order g → point_holds g (unique key) (gen g d) →
  build_import_blob fuel parent object xs name auth rng = Some (r, rng') →
  outcome (blob_failure h)
    (opens parent (TpmBuffer.deref name)
       (λ secret seed, tpm_recover_seed g d h (TpmBuffer.deref (point_x (unique key))) secret = Some seed)
       (TpmtSensitive.mk (TpmtPublic.object_type object) auth (TpmBuffer.new MAX_DIGEST_SIZE) comp)) r.
Proof.
  intros Ha Hs Hpc Hauth Hc Hk Hnid Hg Hd Hp. eapply blob_opens; try done.
  intros r1 g1. unfold import_seed. cbv zeta. rewrite Hk.
  rewrite (ecc_parent_type parent key Hk).
  intros Hr. pose proof (seed_of_outcome fuel key _ h rng r1 g1 is_crypto
    (λ '(seed, secret), tpm_recover_seed g d h (TpmBuffer.deref (point_x (unique key))) (TpmBuffer.deref secret) =
       Some (TpmBuffer.deref seed)) Ha) as Ho.
  specialize (Ho (λ r1 g1, ecc_to_seed_spec fuel key h nid g d rng r1 g1 Hnid Hg Hs Hd Hp) Hr).
  destruct r1 as [[seed secret]|e|]; [| |exact Ho].
  - split; [by eapply recovered_nonempty | exact Ho].
  - destruct Ho as (e' & -> & Ho). right. exists e'. split; [done | by left].
Qed.

(** An RSA parent: who can decrypt what was encrypted for the key *)
Lemma rsa_blob_opens fuel parent object xs name auth auth_bs h c bits comp rng r rng' key :
  TpmHash.try_from (TpmtPublic.name_alg parent) = Ok h → 0 < TpmHash.size h →
  parent_cipher parent = Some (c, bits) →
  TpmBuffer.holds MAX_DIGEST_SIZE auth auth_bs →
  sensitive_composite (TpmtPublic.object_type object) xs = Ok comp →
  rsa_try_from_public parent = Ok key →
  zlen (TpmBuffer.deref (public_key key)) ≤ MAX_RSA_KEY_BYTES → length (TpmInt.bytes (exponent key)) = 4%nat →
  build_import_blob fuel parent object xs name auth rng = Some (r, rng') →
  outcome (blob_failure h)
    (opens parent (TpmBuffer.deref name) (λ secret seed, encrypts key h seed secret)
       (TpmtSensitive.mk (TpmtPublic.object_type object) auth (TpmBuffer.new MAX_DIGEST_SIZE) comp)) r.
Proof.
  intros Ha Hs Hpc Hauth Hc Hk Hl He. eapply blob_opens; try done.
  intros r1 g1. unfold import_seed. cbv zeta. rewrite Hk.
  rewrite (rsa_parent_type parent key Hk).
  intros Hr. pose proof (seed_of_outcome fuel key _ h rng r1 g1 (oaep_failure h)
    (λ '(seed, secret), TpmBuffer.deref seed ≠ [] ∧ encrypts key h (TpmBuffer.deref seed) (TpmBuffer.deref secret))
    Ha) as Ho.
  eapply outcome_impl_err; [apply Ho; [|exact Hr]|by right].
  intros r2 g2 [= Hr2]. pose proof (rsa_to_seed_spec key h rng Hl He) as Hsp.
  rewrite Hr2 in Hsp. destruct r2 as [[seed secret]|e|]; simpl in *; [|done..].
  destruct Hsp as (_ & Hz & Henc). split; [|done]. intros E. rewrite E in Hz. change (zlen []) with 0 in Hz.
  by rewrite <-Hz in Hs.
Qed.

(** With an ECC parent it goes on only while every draw is rejected. *)
Lemma ecc_blob_waits fuel parent object xs name auth h rng key nid g :
  TpmHash.try_from (TpmtPublic.name_alg parent) = Ok h → ecc_try_from_public parent = Ok key →
  curve_to_nid (curve key) = Ok nid → EcGroup_from_curve_name nid = Ok g →
  build_import_blob fuel parent object xs name auth rng = None →
  ∃ order bufs rng', big_val order = group_order g ∧
    let bits := BigUint_bits (BigUint_sub order (BigUint_from_u8 1)) in
    drawn (sample_len bits) rng bufs rng' ∧ length bufs = fuel ∧
    Forall (λ b, group_order g - 1 ≤ be_decode b `mod` 2 ^ bits) bufs.
Proof.
  intros Ha Hk Hnid Hg. unfold build_import_blob, import_seed. cbv zeta. rewrite Hk.
  rewrite (ecc_parent_type parent key Hk).
  unfold seed_of. rewrite Ha. cbn [result_bind].
  destruct (to_seed fuel key h rng) as [[r g1]|] eqn:E; [by destruct r|]. intros _.
  exact (ecc_to_seed_waits fuel key h nid g rng Hnid Hg E).
Qed.

(** With an RSA parent it returns. *)
Lemma rsa_blob_returns fuel parent object xs name auth rng key :
  rsa_try_from_public parent = Ok key → ∃ r, build_import_blob fuel parent object xs name auth rng = Some r.
Proof.
  intros Hk. unfold build_import_blob, import_seed. cbv zeta. rewrite Hk.
  rewrite (rsa_parent_type parent key Hk).
  unfold seed_of. cbn [result_bind to_seed rsa_external_key]. destruct (TpmHash.try_from _); cbn [result_bind]; [|by eexists..].
  destruct (rsa_to_seed _ _ _). by eexists.
Qed.
End blob.

(** ** The template *)

Section default_template.
Context {L : Libcrypto} {O : Openssl} {B : BigUintLib} {TL : TextLib} {CT : CurveText}.
Context {TLO : TextLibOk} {CTO : CurveTextOk}.

Lemma default_rsa_template key_bits alg h :
  TpmHash.try_from alg = Ok h → length (TpmInt.bytes key_bits) = 2%nat →
  default_unrestricted_template (ShapeRsa key_bits) alg =
    Ok (rsa_template (TpmInt.value 2 false key_bits) h TpmAlgId.Null plain_usage).
Proof.
  intros Ha Hl. unfold default_unrestricted_template. rewrite Ha. cbn [map_err result_bind].
  pose proof (value_in_range 2 false ltac:(lia) key_bits Hl) as Hb.
  change (0 ≤ TpmInt.value 2 false key_bits ≤ u16_max) in Hb.
  destruct (hash_name_ok h) as [Hnc Hname].
  rewrite (from_str_describes _ (rsa_template (TpmInt.value 2 false key_bits) h TpmAlgId.Null plain_usage)); [done|].
  apply describes_rsa; [apply decimal_no_colon, Hb | by apply u16_to_string_parse | done..
    | left; apply hash_nonempty | constructor | done].
Qed.

Lemma default_ecc_template curve alg h :
  TpmHash.try_from alg = Ok h →
  default_unrestricted_template (ShapeEcc curve) alg = Ok (ecc_template curve h TpmAlgId.Null plain_usage).
Proof.
  intros Ha. unfold default_unrestricted_template. rewrite Ha. cbn [map_err result_bind].
  destruct (hash_name_ok h) as [Hnc Hname].
  rewrite (from_str_describes _ (ecc_template curve h TpmAlgId.Null plain_usage)); [done|].
  apply describes_ecc; [apply name_no_colon, curve_chars | apply curve_from_to_string | done..
    | left; apply hash_nonempty | constructor | done].
Qed.
End default_template.
