(* ===== verification/ShellProperties.v ===== *)
(** Properties of the shell's own logic (crate [sh]): what a command keeps
    true of its task and flushes at its end, the policies that are stored with
    a key, the duplication blob of an imported key, and the handle patterns. *)

From Stdlib Require Import Ascii String.
From stdpp Require Import gmap.
From S2P Require Import TpmKey.
From S2P Require Import Prelude State Errors Writer Codec Integer Buffer Tpml Struct EnumMacro Union Enums Rc Attributes.
From S2P Require Import BasicTypes Schemes Structures Body FrameData Dispatch Envelope Command Response Marshal.
From S2P Require Import Crypto Hash Policy PolicySpec Text PolicyText Template TemplateSpec Transport Device DeviceSession.
From S2P Require Import DeviceSpec SessionSpec VtpmPolicy FileSystem Vtpm VtpmPolicySpec VtpmRecord VtpmSpec VtpmStore.
From S2P Require Import VtpmOpen VtpmOps Openssl ExternalKey ExternalKeySpec.
From S2P Require Import Task TaskCalls TaskSpec TaskEnd TaskPolicy ImportKey ImportKeySpec.
From S2P Require Import DataProperties FrameProperties CryptoProperties PolicyProperties KeyProperties.
From S2P Require Import DeviceProperties VtpmProperties Handle HandleSpec.

#[local] Existing Instances DeviceProperties.sample_os sample_errors sample_order sample_toy sample_policy_tpm.

(** A progress display that is on or off *)
#[local] Instance bool_progress : TaskStateProgress bool := {| start := λ _, true; stop := λ _, false |}.

(** A transport that remembers what is sent, and always receives success *)
Definition tap := list (list byte).
#[local] Instance tap_transport : TpmTransport tap := {|
  send := λ f t, (Ok tt, t ++ [f]);
  recv := λ '(_, t), (Ok tt, ([x80; x01; x00; x00; x00; x0a; x00; x00; x00; x00], t))
|}.
#[local] Instance tap_transport_ok : TransportOk tap.
Proof. split; [done | by intros buf t | by intros buf t t' f [= <- <-]]. Qed.
#[local] Instance tap_log : TransportLog tap.
Proof. by refine {| sent := λ t : tap, t |}. Defined.

(** ** A task at work *)

Section task_properties.
Context `{Os} `{!FileErrors} `{!MapOrder} {L : Libcrypto} {LO : LibcryptoOk} {O : Openssl} {OO : OpensslOk}.
Context {T P : Type} `{!TpmTransport T} `{!TransportOk T} `{!TaskStateProgress P}.

(** C19.  A cache is opened on a directory without failing calls, where every
    record file has the name of its handle and is synchronised, and a task is
    created with it and a device that is not in use.  From then on, whatever the task does of its methods, of
    the changes of the cache and of the calls on the device (handles, sessions,
    keys, authorisations, commands, policies, refreshing; with arguments that
    can be encoded and policies of fewer than 2^32 steps), whatever the TPM
    replies and whichever calls on the file system fail (a failure only does
    not pretend that a file is missing): nothing panics; every key that is
    loaded has a handle that will be flushed, and no two keys share one; every
    session is recorded under its own handle; and the cache stays consistent
    with its directory: the file of a key that is not dirty is exactly its
    record, a handle without a key has no file, and each record file is the
    complete record of a key.  (A record of more than 16 steps or 16 KiB is
    written like any other, but not read back: see C22.) *)
Theorem task_invariant (pid heap : Z) (fill_bytes : list byte → list byte)
    (persistent : gmap (list byte) TpmInt.t) (x0 y0 : Fs) (cache : VtpmCache.t)
    (fails : list (option (nat * IoError))) (dev : option (RefCell (TpmDevice.t T))) (d0 : TpmDevice.t T)
    (progress : option P) (auth_map : gmap TpmInt.t Auth) (g : Rng) :
  0 ≤ heap ≤ usize_max - isize_max → (∀ bs, zlen (fill_bytes bs) = zlen bs) →
  tidy (files x0) → faults x0 = [] → VtpmCache.new heap persistent x0 = (Ok cache, y0) →
  honest (mk_fs (files y0) fails []) →
  device_ok (default d0 (Device.contents <$> dev)) → (∀ cell, dev = Some cell → borrowed cell = false) →
  (∀ h a, auth_map !! h = Some a → auth_ok a) →
  let '(r, w) := new dev d0 cache progress auth_map (mk_fs (files y0) fails []) g in
  r ≠ Panic ∧
  ∀ ops, Forall task_op_ok ops →
    ∃ w', run_task_ops pid heap fill_bytes ops w = Some w' ∧
      device_ok (device w') ∧ handles_ok (task w') ∧
      cache_ok persistent (TaskState.cache (task w')) ∧
      backed (TaskState.cache (task w')) (files (disk w')) ∧ whole (files (disk w')) ∧
      world_ok heap persistent w'.
Proof.
  intros Hheap Hfill Ht E0 Hnew Hh Hd Hb Ha.
  assert (all_persistent persistent) as Hp.
  { pose proof (new_safe heap Hheap persistent x0) as Hs. rewrite Hnew in Hs. apply Hs. }
  pose proof (new_exact heap Hheap persistent x0 Ht E0 Hp) as Ho. rewrite Hnew in Ho. cbn [st_outcome] in Ho.
  assert (whole (files y0)) as Hw by by eapply opened_whole.
  assert (store_ok heap persistent cache (mk_fs (files y0) fails [])) as Hs
    by by destruct (opened_store _ _ _ _ _ Ho).
  pose proof (new_runs heap persistent Hheap d0 dev cache progress auth_map _ g Hd Hb Ha Hs Hw) as Hr.
  destruct (new _ _ _ _ _ _ _) as [r w].
  assert (r ≠ Panic ∧ world_ok heap persistent w) as [Hnp Hwo] by by destruct r; [destruct Hr|..].
  split; [done|]. intros ops Hops.
  destruct (run_task_ops_runs pid heap fill_bytes persistent Hheap Hfill ops w Hwo Hops) as (w' & E & Hw').
  pose proof Hw' as [Hd' Hh' _ Hst Hwh]. exists w'. split_and!; [done|done|done|apply Hst|apply Hst|done|done].
Qed.

(** C20.  At its end a task (as C19 keeps it) flushes what it left in the TPM:
    every tracked handle and every session, each exactly once, whatever the TPM
    replies; when the device is in use, or there is none, it sends nothing.
    Then it saves the cache, which stays consistent with its directory, and is
    clean when no call on the file system fails.  Ending never fails or
    panics. *)
Theorem drop_flushes `{!TransportLog T} (pid heap : Z) (persistent : gmap (list byte) TpmInt.t) (busy : bool)
    (w : World T P) :
  0 ≤ heap ≤ usize_max - isize_max → world_ok heap persistent w →
  ∃ w' hs, drop pid busy w = (Ok tt, w') ∧
    sent (TpmDevice.transport (device w')) = sent (TpmDevice.transport (device w)) ++ map flush_frame hs ∧
    hs ≡ₚ (if TaskState.device (task w) && negb busy
           then elements (TaskState.phys_handles (task w)) ++ elements (dom (TaskState.sessions (task w)))
           else []) ∧
    store_ok heap persistent (TaskState.cache (task w')) (disk w') ∧ whole (files (disk w')) ∧
    (faults (disk w) = [] → TaskState.cache (task w') = VtpmCache.set_dirty ∅ (TaskState.cache (task w))).
Proof.
  intros Hheap Hw. destruct (drop_spec pid heap persistent Hheap busy w Hw) as (w' & Hd & (hs & Hl & Hp) & Hs).
  by exists w', hs.
Qed.

(** A failure before the command is sent leaves the progress display on. *)
Lemma progress_left_on (command : TpmFrame) (vhandle : Z) (auths : list Auth) (w : World T P) :
  TaskState.sessions (task w) !! VtpmCache.th vhandle = None →
  execute command (Session vhandle :: auths) w =
    (Err (TaskError.HandleNotFound vhandle),
     with_task (TaskState.set_progress (start <$> TaskState.progress (task w)) (task w)) w).
Proof.
  intros Hs. set (w1 := with_task _ w).
  assert (session_auth (T:=T) (P:=P) vhandle w1 = (Err (TaskError.HandleNotFound vhandle), w1)) as E.
  { unfold session_auth. change (st_bind Task.get ?k w1) with (k (task w1) w1). cbv beta.
    change (TaskState.sessions (task w1)) with (TaskState.sessions (task w)). by rewrite Hs. }
  unfold execute. change (on_progress start) with (modify (T:=T) (P:=P) (λ self, TaskState.set_progress (start <$> TaskState.progress self) self)).
  change (st_bind (modify ?f) ?k w) with (k tt (with_task (f (task w)) w)). cbv beta. fold w1.
  cbn [auth_commands auth_command]. unfold st_bind. by rewrite E.
Qed.
End task_properties.

(** The cache of an empty directory, a device on a tap, and a key handle and a
    session that are left in the TPM *)
Definition tap_device : TpmDevice.t tap := TpmDevice.new 0 [].
Definition key_handle : TpmInt.t := TpmInt.new 4 0x80000001.
Definition session_handle : TpmInt.t := TpmInt.new 4 0x03000000.
Definition left_session : TpmPolicySession.t :=
  TpmPolicySession.mk session_handle TpmaSession.CONTINUE_SESSION TpmAlgId.Sha256 (TpmBuffer.new MAX_DIGEST_SIZE).
Definition left_world : World tap bool :=
  mk_world tap_device
    (TaskState.mk true sample_new.1 (Some false) {[session_handle := left_session]} ∅ {[key_handle]} ∅)
    sample_new.2 (tape []).

Lemma sample_new_opened : VtpmCache.new 0 no_persistent empty_fs = (Ok sample_new.1, sample_new.2).
Proof.
  assert (∃ c x, VtpmCache.new 0 no_persistent empty_fs = (Ok c, x)) as (c & x & E) by (eexists _, _; vm_compute; reflexivity).
  unfold sample_new. change (VtpmCache.new 0 ∅ empty_fs) with (VtpmCache.new 0 no_persistent empty_fs). by rewrite E.
Qed.

(** A key is tracked twice; the second handle is refused and flushed. *)
Lemma task_invariant_witness :
  let '(r, w) := new (T:=tap) (P:=bool) (Some (mk_cell false tap_device)) tap_device sample_new.1 (Some false) ∅
    (mk_fs (files sample_new.2) [] []) (tape []) in
  r ≠ Panic ∧
  ∃ w', run_task_ops 7 0 id [Track key_handle; Track key_handle; RefreshCache; Untrack key_handle] w = Some w' ∧
    handles_ok (task w').
Proof.
  pose proof (task_invariant (T:=tap) (P:=bool) 7 0 id no_persistent empty_fs sample_new.2 sample_new.1 []
    (Some (mk_cell false tap_device)) tap_device (Some false) ∅ (tape [])) as Ht.
  destruct (new _ _ _ _ _ _ _) as [r w]. destruct Ht as [Hr Hops].
  - done.
  - done.
  - by apply tidy_checked.
  - reflexivity.
  - exact sample_new_opened.
  - constructor.
  - by split; apply Z.leb_le.
  - by intros cell [= <-].
  - intros h a Ha. by rewrite lookup_empty in Ha.
  - split; [exact Hr|].
    destruct (Hops [Track key_handle; Track key_handle; RefreshCache; Untrack key_handle]) as (w' & E & _ & Hh & _).
    { repeat constructor; apply u32_encodes. }
    by exists w'.
Defined.

Lemma left_world_ok : world_ok 0 no_persistent left_world.
Proof.
  split.
  - by split; apply Z.leb_le.
  - split; cbn [left_world task TaskState.virt_handles TaskState.phys_handles TaskState.sessions].
    + intros v h Hv. by rewrite lookup_empty in Hv.
    + intros v v' h Hv. by rewrite lookup_empty in Hv.
    + intros h ->%elem_of_singleton. apply u32_encodes.
    + intros h s [<- <-]%lookup_singleton_Some. split_and!; [done | apply u32_encodes | done].
  - intros h a Ha. change ((∅ : gmap TpmInt.t Auth) !! h = Some a) in Ha. by rewrite lookup_empty in Ha.
  - apply (opened_store _ _ _ _ _ sample_opened).
  - by eapply opened_whole, sample_opened.
Qed.

Lemma drop_flushes_witness :
  ∃ w' hs, drop 7 false left_world = (Ok tt, w') ∧
    sent (TpmDevice.transport (device w')) = map flush_frame hs ∧ hs ≡ₚ [key_handle; session_handle].
Proof.
  destruct (drop_flushes 7 0 no_persistent false left_world) as (w' & hs & Hd & Hl & Hp & _); [done | apply left_world_ok |].
  exists w', hs. split; [exact Hd|]. split; [exact Hl|].
  revert Hp. cbn [left_world task TaskState.device TaskState.phys_handles TaskState.sessions negb andb].
  rewrite dom_singleton_L, !elements_singleton. exact (λ H, H).
Defined.

(** ** Stored policies *)

(** C8.  A policy that is stored with a key authorises the key: the commands of
    a compiled policy, if none of them is a [PolicySecret] and they can be
    encoded, are stored without touching anything; and whenever a loaded key
    keeps what was stored, and no authorisation was given for it, resolving
    its authorisation opens a session, runs the stored policy on it, records
    it and returns it, and the digest of the TPM's session is then the digest
    of the policy.  The expression's disjunctions have at least two branches,
    as those of the parser have, its PCR selections can be encoded, and the PCR
    digests it gives are those of the TPM's PCRs.  The TPM is any that replies
    to [TPM2_StartAuthSession] with a fresh session and executes the policy
    commands on it under the conditions of the TPM specification, with the PCR
    values and names of the context. *)
Theorem stored_policy_authorises `{PolicyTpm T h context handle} `{!FileErrors} `{!MapOrder} {O : Openssl}
    {P : Type} `{!TaskStateProgress P} (heap : Z) (fill_bytes : list byte → list byte)
    (e : TpmPolicyExpression.t) (p : TpmCompiledPolicy) (alg : TpmAlgId.t) (w0 : World T P) :
  0 ≤ heap ≤ usize_max - isize_max →
  TpmHash.try_from alg = Ok h →
  every node_ok e = true → every or_plural e = true → every (pcr_holds h context trial_session) e = true →
  TpmPolicyExpression.compile context e alg = Ok p → commands p ≠ [] →
  Forall (λ c, plain c.1 ∧ encodable c.1) (commands p) →
  ∃ policy, save_vtpm_policy heap (commands p) w0 = (Ok policy, w0) ∧
    ∀ (w : World T P) (vhandle phys_handle : TpmInt.t) (key : VtpmKey.t) (nonce nonce_tpm : ty Tpm2bNonce),
      let b := TpmPolicySessionBuilder.with_auth_hash alg TpmPolicySessionBuilder.new in
      TaskState.virt_handles (task w) !! VtpmCache.hv vhandle = Some phys_handle →
      handle_type (VtpmCache.hv vhandle) = Some TpmHt.Transient →
      VtpmCache.find_by_handle (TaskState.cache (task w)) (VtpmCache.th (VtpmCache.hv vhandle)) = Some key →
      VtpmKey.policy key = policy → TpmtPublic.name_alg (VtpmKey.public key) = alg →
      TaskState.auth_map (task w) !! vhandle = None →
      is_Some (wire TpmHandle handle) → device_ok (device w) →
      TpmPolicySessionBuilder.the_nonce fill_bytes b = Ok nonce →
      starts_session (h:=h) (context:=context) (handle:=handle) b (TpmDevice.transport (device w)) nonce nonce_tpm →
      ∃ w', resolve_auth heap fill_bytes vhandle w = (Ok (phys_handle, alg, Session (VtpmCache.hv handle)), w') ∧
        TaskState.sessions (task w') !! handle =
          Some (TpmPolicySession.mk handle TpmaSession.CONTINUE_SESSION alg nonce_tpm) ∧
        session_digest (TpmDevice.transport (device w')) = Some (TpmBuffer.deref (digest p)).
Proof.
  intros Hheap Hh Hwf Hor Hpcr Hc Hnil Hcmds.
  destruct (compile_effects h context trial_session e alg p Hh Hwf Hor Hpcr Hc) as [Hr Hempty].
  assert (Forall storable_command (commands p)) as Hst.
  { pose proof (effects_each h context _ _ _ _ Hr) as Hsteps. apply list.Forall_forall. intros c Hin.
    rewrite list.Forall_forall in Hcmds. rewrite list.Forall_forall in Hsteps. rewrite list.Forall_forall in Hempty.
    destruct (Hcmds c Hin) as (Hp & He), (Hempty c Hin) as [_ Es],
      (Hsteps c.1) as (d1 & d2 & Hd); [by apply list_elem_of_fmap_2|].
    by destruct (effect_detached h context _ d1 c.1 d2 Hd Hp). }
  destruct (save_exactly heap Hheap (commands p) w0 Hst) as (policy & Hs & Hps). exists policy. split; [exact Hs|].
  intros w vhandle ph key nonce nonce_tpm b Hv Ht Hk <- <- Ha Hhn Hd Hn Hst'.
  destruct (resolve_stored heap fill_bytes vhandle ph key (commands p).*1 nonce nonce_tpm
    (TpmBuffer.deref (digest p)) w) as (w' & Er & Es & _ & Ed); [try done..|by exists w'].
  - by apply Forall2_fmap_l.
  - by destruct (commands p).
  - apply Forall_fmap. eapply list.Forall_impl; [exact Hcmds|]. by intros c [? _].
Qed.

(** A policy of two ways to satisfy the PCR values, and what is stored of it *)
Definition stored_expression : TpmPolicyExpression.t :=
  TpmPolicyExpression.Or [pcr_condition; TpmPolicyExpression.And [pcr_condition; pcr_condition]].
Definition stored_compiled : TpmCompiledPolicy :=
  get (TpmPolicyExpression.compile sample_context stored_expression TpmAlgId.Sha1)
    (mk_compiled [] (TpmBuffer.new MAX_DIGEST_SIZE)).

(** A key with that policy, loaded in the toy TPM *)
Definition toy_world (keys : gmap Z VtpmKey.t) : World toy bool :=
  mk_world sample_device
    (TaskState.mk true (VtpmCache.mk keys ∅ ∅ ∅ 0) None ∅ {[0x80000005 := key_handle]} {[key_handle]} ∅) empty_fs (tape []).
Definition stored_policy : list VtpmPolicyCommand :=
  match save_vtpm_policy 0 (commands stored_compiled) (toy_world ∅) with (Ok policy, _) => policy | _ => [] end.
Definition stored_public : ty TpmtPublic :=
  TpmtPublic.mk TpmAlgId.KeyedHash TpmAlgId.Sha1 Bitflags.empty (TpmBuffer.new MAX_DIGEST_SIZE)
    TpmuPublicParms.Null TpmuPublicId.Null.
Definition stored_key : VtpmKey.t :=
  VtpmKey.mk (TpmInt.new 4 1) (TpmInt.new 4 0x80000005) stored_public stored_public VtpmCache.default_context stored_policy.

Lemma stored_policy_authorises_witness :
  ∃ w', resolve_auth 0 id (TpmInt.new 4 0x80000005) (toy_world {[0x80000005 := stored_key]}) =
      (Ok (key_handle, TpmAlgId.Sha1, Session 0x03000000), w') ∧
    session_digest (TpmDevice.transport (device w')) = Some (TpmBuffer.deref (digest stored_compiled)).
Proof.
  destruct (stored_policy_authorises (h:=TpmHash.Sha1) (context:=sample_context) (handle:=toy_handle) (P:=bool) 0 id
    stored_expression stored_compiled TpmAlgId.Sha1 (toy_world ∅)) as (policy & Hs & Hr).
  - done.
  - reflexivity.
  - vm_compute. reflexivity.
  - vm_compute. reflexivity.
  - vm_compute. reflexivity.
  - vm_compute. reflexivity.
  - vm_compute. discriminate.
  - assert (commands_ok (commands stored_compiled) = true) as Hok by (vm_compute; reflexivity).
    apply commands_ok_spec in Hok.
    assert (forallb (λ c, bool_decide (cv_variant c.1 ≠ TpmCc.PolicySecret)) (commands stored_compiled) = true) as Hp
      by (vm_compute; reflexivity).
    apply list.Forall_forall. intros c Hc. rewrite list.Forall_forall in Hok. rewrite forallb_forall in Hp.
    split; [|exact (proj1 (Hok c Hc))].
    exact (bool_decide_eq_true_1 _ (Hp c (proj1 (list_elem_of_In _ _) Hc))).
  - assert (policy = stored_policy) as -> by (unfold stored_policy; by rewrite Hs).
    destruct (Hr (toy_world {[0x80000005 := stored_key]}) (TpmInt.new 4 0x80000005) key_handle stored_key sample_nonce
      (TpmBuffer.new MAX_DIGEST_SIZE)) as (w' & E & _ & Hd).
    + apply lookup_singleton_eq.
    + reflexivity.
    + apply lookup_singleton_eq.
    + reflexivity.
    + reflexivity.
    + reflexivity.
    + apply u32_encodes.
    + split; by apply Z.leb_le.
    + vm_compute. reflexivity.
    + eexists _, _, (be_encode 4 0x03000000), (be_encode 2 0), _. split; [vm_compute; reflexivity|].
      split; [vm_compute; reflexivity|]. split; [by apply Z.leb_le|]. split; [reflexivity|].
      split; [eexists; split; [reflexivity|] | ]; vm_compute; reflexivity.
    + exists w'. split; [exact E | exact Hd].
Defined.

(** ** Imported keys *)

(** C16.  The duplication blob that is built for a parent opens to the key: for
    a parent whose public area says AES with 128 or 256 bits in CFB mode, the
    parent, who gets the seed from the secret with its private key and takes
    its cipher and name algorithm from that area, finds the integrity value
    right and decrypts the sensitive area of the imported key, its type, its
    authorisation value and its private part.  The parent's name algorithm has
    a digest, its key is a valid one (an ECC point of a supported curve, an RSA
    modulus that fits its buffer), and the private part fits the kind of the
    imported key.  The only errors are those of libcrypto.  For an RSA parent the blob is always built; for an ECC parent
    the search for an ephemeral key goes on only while every random number
    that was drawn is out of range. *)
Theorem import_blob_opens {L : Libcrypto} {LO : LibcryptoOk} {O : Openssl} {OO : OpensslOk} {S : Symm} {SO : SymmOk}
    {B : BigUintLib} {BO : BigUintLibOk} (fuel : nat) (parent object : ty TpmtPublic) (private_bytes : list byte)
    (name : ty Tpm2bName) (auth : ty Tpm2bAuth) (h : TpmHash.t) (comp : TpmuSensitiveComposite.t) (rng : Rng) :
  TpmHash.try_from (TpmtPublic.name_alg parent) = Ok h → 0 < TpmHash.size h →
  is_Some (parent_cipher parent) →
  (∃ auth_value, TpmBuffer.holds MAX_DIGEST_SIZE auth auth_value) →
  sensitive_composite (TpmtPublic.object_type object) private_bytes = Ok comp →
  let blob := build_import_blob fuel parent object private_bytes name auth rng in
  let imported := TpmtSensitive.mk (TpmtPublic.object_type object) auth (TpmBuffer.new MAX_DIGEST_SIZE) comp in
  (∀ key nid g d, ecc_try_from_public parent = Ok key → curve_to_nid (curve key) = Ok nid →
     EcGroup_from_curve_name nid = Ok g → 0 < d < group_order g → point_holds g (unique key) (gen g d) →
     match blob with
     | Some (r, _) => outcome (blob_failure h)
         (opens parent (TpmBuffer.deref name)
            (λ secret seed, tpm_recover_seed g d h (TpmBuffer.deref (point_x (unique key))) secret = Some seed) imported) r
     | None => ∃ order bufs rng', big_val order = group_order g ∧
         let order_bits := BigUint_bits (BigUint_sub order (BigUint_from_u8 1)) in
         drawn (sample_len order_bits) rng bufs rng' ∧ length bufs = fuel ∧
         Forall (λ b, group_order g - 1 ≤ be_decode b `mod` 2 ^ order_bits) bufs
     end) ∧
  (∀ key, rsa_try_from_public parent = Ok key → zlen (TpmBuffer.deref (public_key key)) ≤ MAX_RSA_KEY_BYTES →
     length (TpmInt.bytes (exponent key)) = 4%nat →
     ∃ r rng', blob = Some (r, rng') ∧
       outcome (blob_failure h)
         (opens parent (TpmBuffer.deref name) (λ secret seed, encrypts key h seed secret) imported) r).
Proof.
  intros Ha Hs [[c bits] Hpc] [auth_value Hauth] Hc. cbv zeta. split.
  - intros key nid g d Hk Hnid Hg Hd Hp. destruct (build_import_blob _ _ _ _ _ _ _) as [[r rng']|] eqn:E.
    + by eapply ecc_blob_opens.
    + by eapply ecc_blob_waits.
  - intros key Hk Hl He.
    destruct (rsa_blob_returns fuel parent object private_bytes name auth rng key Hk) as [[r rng'] E].
    exists r, rng'. split; [exact E|]. by eapply rsa_blob_opens.
Qed.

(** A cipher that reverses what it is given *)
#[local] Instance toy_symm : Symm :=
  {| Cipher := Z; aes_128_cfb128 := 16; aes_256_cfb128 := 32; encrypt := λ _ _ _ data, Ok (rev data) |}.
#[local] Instance toy_symm_ok : SymmOk.
Proof.
  refine {| decrypt := λ (_ : @Cipher _ toy_symm) _ _ ct, rev ct; key_len := λ c : @Cipher _ toy_symm, c |}; [done..|].
  intros c key iv data _ _. simpl. rewrite rev_involutive. unfold zlen. by rewrite length_rev.
Defined.

(** The ECC key 7 of the toy group as a parent with AES-128 *)
Definition toy_ecc_parent : ty TpmtPublic :=
  TpmtPublic.mk TpmAlgId.Ecc TpmAlgId.Sha256 Bitflags.empty (TpmBuffer.new MAX_DIGEST_SIZE)
    (TpmuPublicParms.Ecc (TpmPublicTemplate.ecc_parms
       (TpmtSymDef.mk TpmAlgId.Aes (TpmuSymKeyBits.Aes (TpmInt.new 2 128)) (TpmuSymMode.Aes TpmAlgId.Cfb))
       (TaggedStruct.mk TpmAlgId.Null TpmuAsymScheme.Null) TpmEccCurve.NistP256 kdf_scheme_default))
    (TpmuPublicId.Ecc (ecc_point (ecc_buffer [x07]) (ecc_buffer [x07]))).
Definition toy_name : ty Tpm2bName := get (TpmBuffer.try_from (MAX_DIGEST_SIZE + 2) [x0b; xaa]) (TpmBuffer.new (MAX_DIGEST_SIZE + 2)).
Definition toy_private : ty Tpm2bSensitiveData := get (TpmBuffer.try_from MAX_SENSITIVE_DATA [x01; x02; x03]) (TpmBuffer.new MAX_SENSITIVE_DATA).

Definition toy_blob : option (result ImportError.t (ty Tpm2bPrivate * ty Tpm2bEncryptedSecret * ty Tpm2bData) * Rng) :=
  build_import_blob 2 toy_ecc_parent keyed_hash_public [x01; x02; x03] toy_name (a_digest [x70; x77]) (tape [xff; x09; x33]).

Lemma import_blob_opens_witness :
  match toy_blob with
  | Some (Ok (duplicate, secret, _), _) =>
      ∃ seed, tpm_recover_seed () 7 TpmHash.Sha256 [x07] (TpmBuffer.deref secret) = Some seed ∧
        tpm_unwrap toy_ecc_parent seed [x0b; xaa] (TpmBuffer.deref duplicate) =
          Some (TpmtSensitive.mk TpmAlgId.KeyedHash (a_digest [x70; x77]) (TpmBuffer.new MAX_DIGEST_SIZE)
                  (TpmuSensitiveComposite.Bits toy_private))
  | _ => False
  end.
Proof.
  assert (match toy_blob with Some (Ok _, _) => true | _ => false end = true) as Hr by (vm_compute; reflexivity).
  destruct (import_blob_opens 2 toy_ecc_parent keyed_hash_public [x01; x02; x03] toy_name (a_digest [x70; x77])
    TpmHash.Sha256 (TpmuSensitiveComposite.Bits toy_private) (tape [xff; x09; x33])) as [He _];
    [vm_compute; reflexivity | vm_compute; reflexivity | eexists; vm_compute; reflexivity | | vm_compute; reflexivity |].
  { exists [x70; x77]. split_and!; [vm_compute; reflexivity | | by vm_compute]. split; [by vm_compute | done]. }
  specialize (He toy_parent 3 () 7). unfold toy_blob in *.
  destruct (build_import_blob _ _ _ _ _ _ _) as [[[[[duplicate secret] key]|e|] rng']|]; [|done..].
  destruct He as (_ & seed & Hs & Ho);
    [vm_compute; reflexivity | vm_compute; reflexivity | vm_compute; reflexivity | done
    | exact (conj (ecc_buffer_holds x07) (ecc_buffer_holds x07)) |].
  exists seed. split; [exact Hs | exact Ho].
Defined.

(** ** Handle patterns *)

(** C36.  A text is read as a handle exactly when it spells out eight digits,
    each a hexadecimal digit or a question mark, or leaves out a block of open
    digits where it has one asterisk, and no text makes the parser panic.  The
    handle that is read matches exactly the 32-bit values whose digits agree
    with the given ones; what it prints as is read back as the same digits;
    and it has a single value exactly when no digit is open. *)
Theorem handle_pattern (s : str) :
  (∀ h, Handle.from_str s = Ok h ↔ ∃ ps, reads s ps ∧ h = handle_of ps) ∧
  Handle.from_str s ≠ Panic ∧
  ∀ ps, reads s ps →
    (∀ n, 0 ≤ n ≤ u32_max → Handle.matches (handle_of ps) n = true ↔ Forall2 agrees ps (nibbles 8 n)) ∧
    Handle.from_str (Handle.to_string (handle_of ps)) = Ok (handle_of ps) ∧
    (∀ v, Handle.value (handle_of ps) = Some v ↔ 0 ≤ v ≤ u32_max ∧ ps = map Some (nibbles 8 v)).
Proof.
  split; [apply from_str_exact|]. split; [apply from_str_no_panic|].
  intros ps Hr. pose proof (reads_digits _ _ Hr) as Hd. split_and!.
  - intros n Hn. by apply matches_exact.
  - apply from_str_exact. exists ps. split; [by apply to_string_reads | done].
  - intros v. by apply value_Some.
Qed.

Lemma handle_pattern_witness :
  Handle.from_str (lit "80?*1") = Ok (handle_of [Some 8; Some 0; None; None; None; None; None; Some 1]) ∧
  Handle.matches (handle_of [Some 8; Some 0; None; None; None; None; None; Some 1]) 0x80ABCDE1 = true.
Proof.
  destruct (handle_pattern (lit "80?*1")) as (He & _ & Hm).
  assert (reads (lit "80?*1") [Some 8; Some 0; None; None; None; None; None; Some 1]) as Hr.
  { split; [reflexivity|]. right.
    exists (lit "80?"), (lit "1"), [Some 8; Some 0; None], [Some 1], 4%nat.
    split_and!; [reflexivity | reflexivity | repeat constructor..]. }
  split; [apply He; by eexists|].
  apply (Hm _ Hr); [vm_compute; split; discriminate|].
  vm_compute. repeat constructor; (by left) || (by right).
Defined.
